(* ===== verification/_CoqProject ===== *)
-Q . S2P
Prelude.v
Bits.v
Adler32.v
Crc32Tables.v
Crc32.v
Huffman.v
InfTrees.v
InfTreesProof.v
Record.v
Inffixed.v
InfDecode.v
Fixed.v
Lz.v
InflateState.v
TreesTables.v
Trees.v
BitWriter.v
TreesCodes.v
TreesEmit.v
TreesHeap.v
TreesBuild.v
TreesLens.v
TreesOverflow.v
TreesBitlen.v
TreesTree.v
DeflateFormat.v
TreesRle.v
TreesHeader.v
TreesTally.v
TreesFlush.v
TreesClaims.v
InfFast.v
InflateMonad.v
Inflate.v
InflateWp.v
InflateSym.v
InfFastProof.v
InflateInv.v
InflateSafe1.v
InflateSafe2.v
InflateSafe3.v
InflateSafe4.v
InflateSafe5.v
Window.v
InflateApi.v
InflateReach.v
InflateClaims.v
InflateRead.v
InflateReadBlock.v
InflateReadSym.v
InflateReadTree.v
InflateReadAll.v
InflateReadClaims.v
InflateFrame.v
DeflateState.v
Deflate.v
DeflateApi.v
DeflateOut.v
DeflateHash.v
DeflateWindow.v
DeflateMatch.v
DeflateBlocks.v
DeflateLoop.v
DeflateHuff.v
DeflateFast.v
DeflateSlow.v
DeflateInit.v
DeflateRun.v
DeflateCall.v
DeflateStream.v
DeflateClaims.v
Compress.v
CompressClaims.v
Findings.v
