(* ===== verification/Prelude.v ===== *)
(** * Verification of zlib in this repository: checksums, decompressor and compressor

    The repository is a scanner for web pages in C++ and C. Its own C core is the compression library under
    [src/zlib/] (version 1.2.8), through which compressed HTTP bodies pass. This development models that
    library's C code and proves what makes it correct. Definitions keep the names of the source ([_tr_tally] is
    [tr_tally]); the manifest gives the lines each one translates.

    ** How code is modelled

    - A [w]-bit unsigned integer is a [Z]; wrap-around is written out ([u8], [u16], [u32]; [unsigned long] has 32
      bits, as on the platform the project is built for). Shifts that C leaves undefined have no result.
    - An array is a list; a read or write out of range has no result ([aget], [aset] return [None]). A theorem that
      a function returns [Some] therefore says that it has no such access, no undefined shift, and ends.
    - A loop is a [Fixpoint], structural in a counter of the source where it has one and with fuel otherwise; running
      out of fuel is [None] too, so that the totality theorems show the fuel to be enough. [inflate()] runs in the
      small monad of [InflateMonad] (state, early [goto inf_leave], undefined).
    - The memory allocator is a parameter ([zalloc]); what is assumed of it is that an array it returns has the size
      asked for and holds bytes. [InflateClaims] instantiates it with one that zeroes.
    - The stream that an entry point is given exists: the checks [strm == Z_NULL] are not modelled. A NULL [strm->state], [next_in] or
      [next_out] is [None].

    ** Files

    - [Prelude], [Bits], [Record]: integers, arrays, counting, bit strings, little-endian numbers, record updates.
    - [Adler32] ([adler32.c]), [Crc32Tables] and [Crc32] ([crc32.h], [crc32.c]): the checksums. The optimised routines
      (deferred reduction; four bytes at a time on either byte order, at any alignment) equal the definitions by
      single bytes and bits; the combination of two checksums is the checksum of the concatenation; the tables are those
      that the code generates.
    - [Huffman]: canonical codes as intervals, the contract between encoder and decoder. [Lz]: what a literal or a match
      does to the output. [DeflateFormat]: the format of a block, as a relation between its bits and its bytes.
    - [InfTrees], [InfTreesProof] ([inftrees.c]): [inflate_table()] accepts exactly the allowed sets of lengths, stays
      inside of its arrays, and its two-level table decodes the canonical code. [Inffixed], [Fixed] ([inffixed.h],
      [makefixed()]): the fixed tables. [InfDecode]: what an entry of a table means.
    - [InflateState], [InflateMonad], [Inflate] ([inflate.h], [inflate.c]): all modes of the state machine and all entry
      points. [InfFast], [InfFastProof] ([inffast.c]): [inflate_fast()] refines [Lz].
    - [InflateWp], [InflateSym], [InflateInv], [InflateSafe1] to [InflateSafe5], [Window], [InflateApi], [InflateReach]: a
      weakest-precondition calculus, the invariant of the stream, and that every mode, the window and every entry
      point keep it. [InflateClaims]: the properties.
    - [InflateRead], [InflateReadBlock], [InflateReadSym], [InflateReadTree], [InflateReadAll]: what the modes do with the bits
      of a valid stream, from the header over each kind of block to the checksum, and so one call of [inflate()] with [Z_FINISH].
      [InflateReadClaims]: the property. [InflateFrame]: what no mode touches.
    - [TreesTables], [Trees] ([trees.h], [trees.c] and the part of [deflate.h] it uses): the output of blocks, with
      the output and symbol buffers overlaid in one array as [deflateInit2_()] allocates them.
    - [BitWriter]: the bits written so far as one number, and what each output routine appends. [TreesCodes]: [gen_codes]
      assigns the canonical code. [TreesEmit]: the code of a literal or match is read back. [TreesHeap], [TreesBuild],
      [TreesLens], [TreesOverflow], [TreesBitlen], [TreesTree]: the heap, the merges, the lengths, their correction to the limit
      and [build_tree]. [TreesRle], [TreesHeader]: run lengths and the description of the trees. [TreesTally],
      [TreesFlush]: the symbols of a block and [_tr_flush_block]. [TreesClaims]: the properties.
    - [DeflateState], [Deflate], [DeflateApi] ([deflate.h], [deflate.c]): the match finder, the five compression functions,
      the stream state machine and all entry points of the compressor. A loop [for (;;)] is [forever] over one step.
    - [DeflateOut], [DeflateHash], [DeflateWindow], [DeflateMatch]: the pending output, the hash chains, the window and its
      slide, the search for a match. [DeflateBlocks], [DeflateLoop]: the invariant of the compression functions (every byte read is
      in the blocks written, the symbols collected or the lookahead). [DeflateHuff], [DeflateFast], [DeflateSlow]: the functions.
      [DeflateInit]: the initialisation and when blocks have room. [DeflateRun], [DeflateCall], [DeflateStream]: one call, from header to
      trailer, and sequences of calls. [DeflateClaims]: the properties.
    - [Compress], [CompressClaims] ([compress.c], [uncompr.c]): one call for a whole buffer, on the two machines above, and that
      the two directions are inverse to each other.
    - [Findings]: behaviours that comments or documentation exclude: two theorems that say when a copy or a write goes wrong, and
      examples on single inputs, each the evaluation of the model.

    ** What is proved

    - Decompressor: every call of [inflate()] on a stream reachable by the calls that [InflateReach.call] lists returns, keeps the invariant,
      moves the positions consistently and returns the value for the mode it reached; the window holds the last bytes
      of the output; the fast loop and the tables refine the reference decoder. The tables of the two codes always fit into the array
      [codes] (the bound [ENOUGH]), and one call with [Z_FINISH] on a new stream whose input is a valid zlib or raw stream, in the sense of
      [DeflateFormat], returns [Z_STREAM_END] and exactly the data that the stream stands for.
    - Block output: [build_tree] is total and gives a complete code within the length limit for all frequencies; the
      description of the trees and all three kinds of blocks are read back, by the relation of [DeflateFormat], as what
      was put in. The one hypothesis on the input is that the output cannot reach the symbols not yet read in
      the shared buffer ([room_for]): blocks of very many matches do not meet it, and [Findings.overlay_corrupts] shows that they can fail. That lengths are optimal,
      and that [opt_len] is exact, is not stated: the choice of the encoding does not matter for correctness.

    - Compressor: whatever sequence of calls of [deflate()] follows [deflateInit2_()], with any buffers and flush values, every
      call returns, and at [Z_STREAM_END] all the output together is a header, blocks that the relation of [DeflateFormat] reads
      back as all the input, and its checksum; with [Z_FINISH] that end comes after a bounded amount of output. These theorems
      are for levels 1 to 9, without a preset dictionary, a gzip header of the caller, [deflateParams()] or [deflatePrime()] in
      between, and for data whose blocks have room in the shared buffer ([roomy]): any data for [Z_HUFFMAN_ONLY] and [memLevel] 4 or more, data up to
      a length that depends on [memLevel] otherwise ([roomy_short]; 11865 bytes for 8, the default), and longer data only when no
      part of it can be written with too many matches in one block. That is a restriction to be aware of: ordinary long data does
      not meet it, and nothing is claimed for such data.
    - Together: [uncompress()] of what [compress2()] wrote is the data, under the same conditions on level and data ([uncompress_compress2]); and
      [uncompress()] of any bytes whatsoever stays inside of its arrays and returns one of the documented values.

    ** Fuel

    Every fuel is a bound the source has: the sizes of the heap and of the trees, the number of symbols, 16 lengths.
    [inflate_loop] and the loops inside of it get a measure of the input, the output and the mode; the totality theorems
    cover them. A compression function gets one step for each byte of the lookahead and of the input, and two more; the hash
    chain one for each position before the current one.

    ** Not modelled

    That [inflate()] decodes a stream that comes in several pieces, a gzip stream or one with a preset dictionary is proved safe, not
    correct: the theorem on the data is for one call. [compressBound()], [deflate_stored()], [deflateSetDictionary()], [deflateParams()], [deflatePrime()],
    [deflateTune()], [deflateCopy()] and [deflateBound()] are modelled, and no theorem is stated about them.
    [infback.c] is the same decoder with callbacks. The [gz*.c] files, [write_table()] and [gen_trees_header()] are file
    I/O. Tracing and assertions of DEBUG builds have no effect on the results. The rest of the repository is C++
    (HTML parser, TinyXML, tcmalloc, sockets) or the Lua interpreter, which the components of the manifest list. *)
From stdpp Require Export base numbers list option tactics.
From Stdlib Require Export ZArith Lia.


Global Open Scope Z_scope.

(** ** Machine integers

    A [w]-bit unsigned integer of the source is a [Z] in [[0, 2^w)]; the wrap-around of an
    operation is written out with the functions below. *)
Definition u8 (x : Z) : Z := x mod 2 ^ 8.
Definition u16 (x : Z) : Z := x mod 2 ^ 16.
Definition u32 (x : Z) : Z := x mod 2 ^ 32.

Notation "a ≪ b" := (Z.shiftl a b) (at level 35, no associativity) : Z_scope.
Notation "a ≫ b" := (Z.shiftr a b) (at level 35, no associativity) : Z_scope.
Notation "a .& b" := (Z.land a b) (at level 40, left associativity) : Z_scope.
Notation "a .^ b" := (Z.lxor a b) (at level 41, left associativity) : Z_scope.
Notation "a .| b" := (Z.lor a b) (at level 42, left associativity) : Z_scope.

(** The test [if (e)] of the source on an integer. *)
Definition nz (x : Z) : bool := negb (x =? 0).

(** ** Arrays

    An array of the source is a list; a read or write outside of it is undefined behaviour and
    has no result ([None]). *)
Definition aget {A} (l : list A) (i : Z) : option A :=
  if 0 <=? i then l !! Z.to_nat i else None.

Definition aset {A} (l : list A) (i : Z) (x : A) : option (list A) :=
  if (0 <=? i) && (i <? Z.of_nat (length l)) then Some (<[Z.to_nat i := x]> l) else None.

Definition byte_ok (b : Z) : Prop := 0 <= b < 256.

(** ** Generic lemmas *)
Create HintDb zbits discriminated.

Lemma aget_byte (l : list Z) i b : Forall byte_ok l -> aget l i = Some b -> byte_ok b.
Proof. intros Hl Hb. unfold aget in Hb. destruct (0 <=? i); [|done]. by apply (Forall_lookup_1 _ _ _ _ Hl Hb). Qed.

Lemma nz_true x : nz x = true <-> x <> 0.
Proof. unfold nz. rewrite negb_true_iff, Z.eqb_neq. reflexivity. Qed.
Lemma nz_false x : nz x = false <-> x = 0.
Proof. unfold nz. rewrite negb_false_iff, Z.eqb_eq. reflexivity. Qed.

Lemma u32_small x : 0 <= x < 2 ^ 32 -> u32 x = x.
Proof. apply Z.mod_small. Qed.
Lemma u16_small x : 0 <= x < 2 ^ 16 -> u16 x = x.
Proof. apply Z.mod_small. Qed.
Lemma u8_small x : 0 <= x < 2 ^ 8 -> u8 x = x.
Proof. apply Z.mod_small. Qed.
Lemma u32_range x : 0 <= u32 x < 2 ^ 32.
Proof. apply Z.mod_pos_bound. lia. Qed.
Lemma u16_range x : 0 <= u16 x < 2 ^ 16.
Proof. apply Z.mod_pos_bound. lia. Qed.
Lemma u8_range x : 0 <= u8 x < 2 ^ 8.
Proof. apply Z.mod_pos_bound. lia. Qed.

Lemma pow2_pos n : 0 <= n -> 0 < 2 ^ n.
Proof. apply Z.pow_pos_nonneg. lia. Qed.

Lemma testbit_high a n i : 0 <= a < 2 ^ n -> n <= i -> Z.testbit a i = false.
Proof.
  intros Ha Hi. destruct (Z.ltb_spec n 0).
  - rewrite Z.pow_neg_r in Ha by lia. lia.
  - rewrite <- (Z.mod_small a (2 ^ n)) by lia. apply Z.mod_pow2_bits_high. lia.
Qed.

(** A mask of low ones is a remainder. *)
Lemma land_mask a n : 0 <= n -> a .& (2 ^ n - 1) = a mod 2 ^ n.
Proof. intros Hn. rewrite <- Z.land_ones by lia. f_equal. rewrite Z.ones_equiv. lia. Qed.

Lemma land_0xff a : a .& 0xff = a mod 2 ^ 8.
Proof. exact (land_mask a 8 ltac:(lia)). Qed.
Lemma land_0xffff a : a .& 0xffff = a mod 2 ^ 16.
Proof. exact (land_mask a 16 ltac:(lia)). Qed.

(** Disjoint bits: [or] and [xor] are sums. *)
Lemma lor_shiftl_add a b n : 0 <= n -> 0 <= a < 2 ^ n -> a .| (b ≪ n) = a + b * 2 ^ n.
Proof.
  intros Hn Ha. rewrite <- Z.shiftl_mul_pow2 by lia.
  assert (Z.land a (b ≪ n) = 0) as H0.
  { apply Z.bits_inj'. intros i Hi. rewrite Z.land_spec, Z.bits_0, Z.shiftl_spec by lia.
    destruct (Z.ltb_spec i n).
    - rewrite (Z.testbit_neg_r _ (i - n)) by lia. apply andb_false_r.
    - rewrite (testbit_high a n) by lia. reflexivity. }
  rewrite Z.add_nocarry_lxor by exact H0. rewrite Z.lxor_lor by exact H0. reflexivity.
Qed.

#[export] Hint Resolve u32_range u16_range u8_range pow2_pos : zbits.

(** Linear arithmetic with quotients and remainders. *)
Ltac dlia := Z.to_euclidean_division_equations; lia.

(** Buffers of bytes, decided by evaluation. *)
Definition byte_okb (b : Z) : bool := (0 <=? b) && (b <? 256).
Lemma bytes_check (l : list Z) : forallb byte_okb l = true -> Forall byte_ok l.
Proof.
  rewrite forallb_forall, Forall_forall. intros H b Hb.
  specialize (H b Hb). unfold byte_okb, byte_ok in *. lia.
Qed.

(** *** Array lemmas *)
Section arrays.
Context {A : Type}.
Implicit Types (l : list A) (i : Z) (x : A).

Lemma aget_Some l i x : aget l i = Some x -> 0 <= i < Z.of_nat (length l).
Proof.
  unfold aget. destruct (Z.leb_spec 0 i); [|done]. intros H0%lookup_lt_Some. lia.
Qed.
Lemma aget_in l i : 0 <= i < Z.of_nat (length l) -> exists x, aget l i = Some x.
Proof.
  intros Hi. unfold aget. destruct (Z.leb_spec 0 i); [|lia].
  apply lookup_lt_is_Some_2. lia.
Qed.
Lemma aget_nat l (n : nat) : aget l (Z.of_nat n) = l !! n.
Proof. unfold aget. destruct (Z.leb_spec 0 (Z.of_nat n)); [|lia]. by rewrite Nat2Z.id. Qed.
Lemma aset_in l i x :
  0 <= i < Z.of_nat (length l) -> aset l i x = Some (<[Z.to_nat i := x]> l).
Proof.
  intros Hi. unfold aset. destruct (Z.leb_spec 0 i), (Z.ltb_spec i (Z.of_nat (length l))); simpl; (done || lia).
Qed.
Lemma aset_Some l i x l' :
  aset l i x = Some l' -> 0 <= i < Z.of_nat (length l) /\ l' = <[Z.to_nat i := x]> l.
Proof.
  unfold aset. destruct (Z.leb_spec 0 i), (Z.ltb_spec i (Z.of_nat (length l))); simpl; try done.
  intros [= <-]. split; [lia|done].
Qed.
Lemma length_aset l i x l' : aset l i x = Some l' -> length l' = length l.
Proof. intros [_ ->]%aset_Some. apply length_insert. Qed.
Lemma aget_aset l i x l' j : aset l i x = Some l' -> aget l' j = if j =? i then Some x else aget l j.
Proof.
  intros [Hi ->]%aset_Some. unfold aget. destruct (Z.leb_spec 0 j); destruct (Z.eqb_spec j i) as [->|]; try done; try lia.
  - apply list_lookup_insert_eq. lia.
  - apply list_lookup_insert_ne. lia.
Qed.
Lemma aget_app_l l l' i : i < Z.of_nat (length l) -> aget (l ++ l') i = aget l i.
Proof.
  intros Hi. unfold aget. destruct (Z.leb_spec 0 i); [|done]. apply lookup_app_l. lia.
Qed.
Lemma aget_drop l (n : nat) i : 0 <= i -> aget (drop n l) i = aget l (Z.of_nat n + i).
Proof.
  intros Hi. unfold aget. destruct (Z.leb_spec 0 i), (Z.leb_spec 0 (Z.of_nat n + i)); try lia.
  rewrite lookup_drop. f_equal. lia.
Qed.
Lemma aget_take l (n : nat) i : i < Z.of_nat n -> aget (take n l) i = aget l i.
Proof.
  intros Hi. unfold aget. destruct (Z.leb_spec 0 i); [|done]. apply lookup_take_lt. lia.
Qed.
End arrays.

(** [x ← m; k] with [m = Some a]. *)
Lemma bind_Some {A B} (m : option A) (a : A) (k : A -> option B) : m = Some a -> (m ≫= k) = k a.
Proof. by intros ->. Qed.

Lemma aget_middle {A} (pre post : list A) (x : A) :
  aget (pre ++ x :: post) (Z.of_nat (length pre)) = Some x.
Proof. rewrite aget_nat. by apply list_lookup_middle. Qed.
Lemma length_snoc {A} (l : list A) x : Z.of_nat (length (l ++ [x])) = Z.of_nat (length l) + 1.
Proof. rewrite length_app. simpl. lia. Qed.
Lemma aget_insert {A} (l : list A) i x j :
  0 <= i < Z.of_nat (length l) ->
  aget (<[Z.to_nat i := x]> l) j = if j =? i then Some x else aget l j.
Proof. intros Hi. apply aget_aset. by apply aset_in. Qed.

(** *** Sums over lists *)
Definition zsum {A} (f : A -> Z) (l : list A) : Z := foldr (fun x acc => f x + acc) 0 l.
(** The number of elements that satisfy a test. *)
Definition zcount {A} (p : A -> bool) (l : list A) : Z := zsum (fun x => if p x then 1 else 0) l.

Section sums.
Context {A : Type}.
Implicit Types (f g : A -> Z) (p : A -> bool) (l : list A).

Lemma zsum_cons f x l : zsum f (x :: l) = f x + zsum f l.
Proof. done. Qed.
Lemma zsum_app f l l' : zsum f (l ++ l') = zsum f l + zsum f l'.
Proof. induction l as [|x l IH]; [done|]. cbn [app]. rewrite !zsum_cons. lia. Qed.
Lemma zsum_perm f l l' : l ≡ₚ l' -> zsum f l = zsum f l'.
Proof. induction 1; rewrite ?zsum_cons; lia. Qed.
Lemma zsum_ext f g l : (forall x, x ∈ l -> f x = g x) -> zsum f l = zsum g l.
Proof.
  induction l as [|x l IH]; intros H; [done|]. rewrite !zsum_cons, (H x) by (left; done). f_equal. apply IH. intros y Hy. apply H. by right.
Qed.
Lemma zsum_add f g l : zsum (fun x => f x + g x) l = zsum f l + zsum g l.
Proof. induction l as [|x l IH]; [done|]. rewrite !zsum_cons. lia. Qed.
Lemma zsum_scale c f l : zsum (fun x => c * f x) l = c * zsum f l.
Proof. induction l as [|x l IH]; [cbn; lia|]. rewrite !zsum_cons. lia. Qed.
Lemma zsum_nonneg f l : (forall x, x ∈ l -> 0 <= f x) -> 0 <= zsum f l.
Proof.
  induction l as [|x l IH]; intros H; [done|]. rewrite zsum_cons. assert (0 <= f x) by (apply H; left; done).
  assert (0 <= zsum f l) by (apply IH; intros y Hy; apply H; by right). lia.
Qed.
Lemma zcount_app p l l' : zcount p (l ++ l') = zcount p l + zcount p l'.
Proof. apply zsum_app. Qed.
Lemma zcount_cons p x l : zcount p (x :: l) = (if p x then 1 else 0) + zcount p l.
Proof. done. Qed.
Lemma zcount_perm p l l' : l ≡ₚ l' -> zcount p l = zcount p l'.
Proof. apply zsum_perm. Qed.
Lemma zcount_nonneg p l : 0 <= zcount p l.
Proof. apply zsum_nonneg. intros x _. by destruct (p x). Qed.
Lemma zcount_le p l : zcount p l <= Z.of_nat (length l).
Proof. induction l as [|x l IH]; [done|]. rewrite zcount_cons. cbn [length]. destruct (p x); lia. Qed.
Lemma zcount_ext p q l : (forall x, x ∈ l -> p x = q x) -> zcount p l = zcount q l.
Proof. intros H. apply zsum_ext. intros x Hx. by rewrite H. Qed.
Lemma zcount_none p l : (forall x, x ∈ l -> p x = false) -> zcount p l = 0.
Proof.
  induction l as [|x l IH]; intros H; [done|]. rewrite zcount_cons, (H x), IH; [done| |by left]. intros y Hy. apply H. by right.
Qed.
Lemma zcount_pos p l x : x ∈ l -> p x = true -> 1 <= zcount p l.
Proof.
  intros Hx Hp. apply list_elem_of_split in Hx as (l1 & l2 & ->). rewrite zcount_app, zcount_cons, Hp.
  assert (N1 := zcount_nonneg p l1). assert (N2 := zcount_nonneg p l2). lia.
Qed.
Lemma zcount_mono p q l : (forall x, x ∈ l -> p x = true -> q x = true) -> zcount p l <= zcount q l.
Proof.
  induction l as [|x l IH]; intros H; [done|]. rewrite !zcount_cons. assert (zcount p l <= zcount q l) by (apply IH; intros y Hy; apply H; by right).
  specialize (H x ltac:(by left)). destruct (p x), (q x); lia.
Qed.
End sums.
Lemma zsum_fmap {A B} (f : B -> Z) (g : A -> B) (l : list A) : zsum f (g <$> l) = zsum (fun x => f (g x)) l.
Proof. induction l as [|x l IH]; [done|]. rewrite fmap_cons, !zsum_cons. by rewrite IH. Qed.
