(* ===== verification/Bits.v ===== *)
(** Bits of integers. Reversal of the low bits is the link between the integer order of a canonical
    Huffman code and the order in which its bits arrive; shared by the decoder ([InfTrees]) and the
    encoder ([Trees]); little-endian numbers are the streams that one reads and the other writes. *)
From S2P Require Import Prelude.

(** [rev n x]: the low [n] bits of [x] in the opposite order. *)
Fixpoint rev (n : nat) (x : Z) : Z :=
  match n with
  | O => 0
  | S n => rev n (x / 2) + 2 ^ Z.of_nat n * (x mod 2)
  end.

Lemma rev_range n x : 0 <= rev n x < 2 ^ Z.of_nat n.
Proof.
  revert x. induction n as [|n IH]; intros x; cbn [rev]; [simpl; lia|].
  specialize (IH (x / 2)). rewrite Nat2Z.inj_succ, Z.pow_succ_r by lia.
  assert (0 <= x mod 2 < 2) by (apply Z.mod_pos_bound; lia). nia.
Qed.

Lemma rev_testbit n x i :
  Z.testbit (rev n x) i = (0 <=? i) && (i <? Z.of_nat n) && Z.testbit x (Z.of_nat n - 1 - i).
Proof.
  destruct (Z.leb_spec 0 i) as [Hi|Hi]; [|by rewrite Z.testbit_neg_r by lia].
  destruct (Z.ltb_spec i (Z.of_nat n)) as [Hn|Hn]; simpl.
  2:{ apply (testbit_high _ (Z.of_nat n)); [apply rev_range|done]. }
  revert x i Hi Hn. induction n as [|n IH]; intros x i Hi Hn; [lia|]. cbn [rev].
  assert (Hr := rev_range n (x / 2)).
  rewrite Z.mul_comm, <- Z.shiftl_mul_pow2 by lia. rewrite Z.add_nocarry_lxor.
  2:{ apply Z.bits_inj'. intros j Hj. rewrite Z.land_spec, Z.bits_0, Z.shiftl_spec by lia.
      destruct (Z.ltb_spec j (Z.of_nat n)).
      - rewrite (Z.testbit_neg_r _ (j - _)) by lia. apply andb_false_r.
      - by rewrite (testbit_high _ (Z.of_nat n)) by (done || lia). }
  rewrite Z.lxor_spec, Z.shiftl_spec by lia. destruct (Z.eq_dec i (Z.of_nat n)) as [->|Hne].
  - rewrite (testbit_high (rev n (x / 2)) (Z.of_nat n)) by (done || lia).
    rewrite Z.sub_diag, Nat2Z.inj_succ. replace (_ - 1 - _) with 0 by lia.
    rewrite !Z.bit0_odd, xorb_false_l. by rewrite Zodd_mod, Z.mod_mod, <- Zodd_mod.
  - rewrite (Z.testbit_neg_r _ (i - _)), xorb_false_r by lia.
    rewrite IH by lia. rewrite Nat2Z.inj_succ.
    rewrite Z.div2_bits by lia. f_equal. lia.
Qed.

Lemma rev_mod n x : rev n (x mod 2 ^ Z.of_nat n) = rev n x.
Proof.
  apply Z.bits_inj'. intros i Hi. rewrite !rev_testbit.
  destruct (Z.leb_spec 0 i), (Z.ltb_spec i (Z.of_nat n)); simpl; try done.
  apply Z.mod_pow2_bits_low. lia.
Qed.

Lemma rev_rev n x : rev n (rev n x) = x mod 2 ^ Z.of_nat n.
Proof.
  apply Z.bits_inj'. intros i Hi. rewrite !rev_testbit.
  destruct (Z.leb_spec 0 i), (Z.ltb_spec i (Z.of_nat n)); simpl; try lia.
  - rewrite Z.mod_pow2_bits_low by lia.
    destruct (Z.leb_spec 0 (Z.of_nat n - 1 - i)), (Z.ltb_spec (Z.of_nat n - 1 - i) (Z.of_nat n)); simpl; try lia.
    f_equal. lia.
  - by rewrite Z.mod_pow2_bits_high by lia.
Qed.

Lemma rev_invol n x : 0 <= x < 2 ^ Z.of_nat n -> rev n (rev n x) = x.
Proof. intros Hx. by rewrite rev_rev, Z.mod_small. Qed.

Lemma rev_0 n : rev n 0 = 0.
Proof. induction n as [|n IH]; cbn [rev]; [done|]. by rewrite Zdiv_0_l, IH, Zmod_0_l, Z.mul_0_r. Qed.

(** The first [m] of [n] reversed bits are the reversal of the top [m] bits. *)
Lemma rev_low n m x : (m <= n)%nat -> rev n x mod 2 ^ Z.of_nat m = rev m (x / 2 ^ Z.of_nat (n - m)).
Proof.
  intros Hm. apply Z.bits_inj'. intros i Hi. rewrite rev_testbit.
  destruct (Z.leb_spec 0 i), (Z.ltb_spec i (Z.of_nat m)); simpl; try lia.
  - rewrite Z.mod_pow2_bits_low, rev_testbit by lia.
    destruct (Z.leb_spec 0 i), (Z.ltb_spec i (Z.of_nat n)); simpl; try lia.
    rewrite Z.div_pow2_bits by lia. f_equal. lia.
  - by rewrite Z.mod_pow2_bits_high by lia.
Qed.

(** Two reversals agree on their first [m] bits when the numbers agree on their top [m]. *)
Lemma rev_low_eq n m x y :
  (m <= n)%nat -> 0 <= x < 2 ^ Z.of_nat n -> 0 <= y < 2 ^ Z.of_nat n ->
  rev n x mod 2 ^ Z.of_nat m = rev n y mod 2 ^ Z.of_nat m <->
  x / 2 ^ Z.of_nat (n - m) = y / 2 ^ Z.of_nat (n - m).
Proof.
  intros Hm Hx Hy. rewrite !rev_low by done. split; [|by intros ->].
  intros E. apply (f_equal (rev m)) in E. rewrite !rev_rev in E.
  assert (forall z, 0 <= z < 2 ^ Z.of_nat n -> 0 <= z / 2 ^ Z.of_nat (n - m) < 2 ^ Z.of_nat m) as Hr.
  { intros z Hz. assert (0 < 2 ^ Z.of_nat (n - m)) by (apply pow2_pos; lia). split; [apply Z.div_pos; lia|].
    apply Z.div_lt_upper_bound; [lia|]. rewrite <- Z.pow_add_r by lia.
    replace (Z.of_nat (n - m) + Z.of_nat m) with (Z.of_nat n) by lia. lia. }
  rewrite !Z.mod_small in E by auto. done.
Qed.

(** Scaling: appending [n - m] zero bits does not change the reversed code. *)
Lemma rev_scale n m c : (m <= n)%nat -> rev n (c * 2 ^ Z.of_nat (n - m)) = rev m c.
Proof.
  intros Hm. apply Z.bits_inj'. intros i Hi. rewrite !rev_testbit.
  destruct (Z.leb_spec 0 i); simpl; [|lia].
  rewrite Z.mul_pow2_bits by lia.
  destruct (Z.ltb_spec i (Z.of_nat n)), (Z.ltb_spec i (Z.of_nat m)); simpl; try lia; try done.
  - f_equal. lia.
  - apply Z.testbit_neg_r. lia.
Qed.

(** ** Little-endian numbers *)
Fixpoint le (l : list Z) : Z := match l with [] => 0 | b :: l => b + 256 * le l end.

Lemma le_range l : Forall byte_ok l -> 0 <= le l < 2 ^ (8 * Z.of_nat (length l)).
Proof.
  induction 1 as [|b l Hb _ IH]; [done|]. cbn [le List.length].
  replace (8 * Z.of_nat (S (length l))) with (8 * Z.of_nat (length l) + 8) by lia.
  rewrite Z.pow_add_r by lia. change (2 ^ 8) with 256. unfold byte_ok in Hb. lia.
Qed.

Lemma le_app x y : le (x ++ y) = le x + 2 ^ (8 * Z.of_nat (length x)) * le y.
Proof.
  induction x as [|b x IH]; cbn [app le List.length]; [simpl; lia|]. rewrite IH.
  replace (8 * Z.of_nat (S (length x))) with (8 * Z.of_nat (length x) + 8) by lia.
  rewrite Z.pow_add_r by lia. change (2 ^ 8) with 256. lia.
Qed.

(** The [have] bytes at [next]. *)
Definition bytes_at (buf : list Z) (next have : Z) : list Z := take (Z.to_nat have) (drop (Z.to_nat next) buf).

Lemma bytes_at_cons buf next have b :
  0 <= next -> 0 < have -> aget buf next = Some b -> bytes_at buf next have = b :: bytes_at buf (next + 1) (have - 1).
Proof.
  intros Hn Hh Hb. unfold bytes_at. unfold aget in Hb. destruct (Z.leb_spec 0 next); [|done].
  rewrite (drop_S _ _ _ Hb). replace (Z.to_nat have) with (S (Z.to_nat (have - 1))) by lia. cbn [take].
  do 2 f_equal. replace (Z.to_nat (next + 1)) with (S (Z.to_nat next)) by lia. done.
Qed.

Lemma length_bytes_at buf next have :
  0 <= next -> 0 <= have -> next + have <= Z.of_nat (length buf) -> length (bytes_at buf next have) = Z.to_nat have.
Proof. intros. unfold bytes_at. rewrite length_take, length_drop. lia. Qed.
Lemma bytes_at_bytes buf i n : Forall byte_ok buf -> Forall byte_ok (bytes_at buf i n).
Proof. intros H. unfold bytes_at. by apply Forall_take, Forall_drop. Qed.

Lemma bytes_at_cat l i m n : 0 <= i -> 0 <= m -> 0 <= n -> bytes_at l i (m + n) = bytes_at l i m ++ bytes_at l (i + m) n.
Proof. intros. unfold bytes_at. rewrite Z2Nat.inj_add by lia. rewrite <- take_take_drop, drop_drop. do 3 f_equal. lia. Qed.
Lemma le_inj x : forall y, Forall byte_ok x -> Forall byte_ok y -> length x = length y -> le x = le y -> x = y.
Proof.
  induction x as [|a x IH]; intros [|b y] Hx Hy Hl E; try done. cbn [length le] in *. apply Forall_cons_1 in Hx as [Ha Hx]. apply Forall_cons_1 in Hy as [Hb Hy]. unfold byte_ok in Ha, Hb.
  assert (a = b) by lia. subst b. f_equal. apply IH; [done|done|lia|lia].
Qed.
Lemma le_snoc x b : le (x ++ [b]) = le x + 2 ^ (8 * Z.of_nat (length x)) * b.
Proof. rewrite le_app. cbn [le]. lia. Qed.

(** ** The bytes of a word, the highest or the lowest first *)
Definition be32 (v : Z) : list Z := [v / 2 ^ 24; v / 2 ^ 16 mod 256; v / 2 ^ 8 mod 256; v mod 256].
Definition le32 (v : Z) : list Z := [v mod 256; v / 2 ^ 8 mod 256; v / 2 ^ 16 mod 256; v / 2 ^ 24 mod 256].
Lemma be32_bytes v : 0 <= v < 2 ^ 32 -> Forall byte_ok (be32 v).
Proof. intros Hv. unfold be32. repeat apply List.Forall_cons; try apply List.Forall_nil; unfold byte_ok; dlia. Qed.
Lemma le32_bytes v : Forall byte_ok (le32 v).
Proof. unfold le32. repeat apply List.Forall_cons; try apply List.Forall_nil; unfold byte_ok; apply Z.mod_pos_bound; lia. Qed.
