(* ===== verification/Adler32.v ===== *)
(** Model of [src/zlib/adler32.c]: the Adler-32 checksum with its deferred reductions, and the
    combination of two checksums. *)
From S2P Require Import Prelude.

(** largest prime smaller than 65536 *)
Definition BASE : Z := 65521.
Definition NMAX : Z := 5552.

(** ** The unrolled sums

    [st] is the pair [(adler, sum2)]; both are [unsigned long], 32 bits wide. *)
Definition DO1 (buf : list Z) (i : nat) (st : Z * Z) : Z * Z :=
  let adler := u32 (st.1 + (buf !!! i)) in (adler, u32 (st.2 + adler)).
Definition DO2 (buf : list Z) (i : nat) (st : Z * Z) : Z * Z := DO1 buf (i + 1) (DO1 buf i st).
Definition DO4 (buf : list Z) (i : nat) (st : Z * Z) : Z * Z := DO2 buf (i + 2) (DO2 buf i st).
Definition DO8 (buf : list Z) (i : nat) (st : Z * Z) : Z * Z := DO4 buf (i + 4) (DO4 buf i st).
Definition DO16 (buf : list Z) (st : Z * Z) : Z * Z := DO8 buf 8 (DO8 buf 0 st).

Definition MOD (a : Z) : Z := a mod BASE.
Definition MOD28 (a : Z) : Z := a mod BASE.
Definition MOD63 (a : Z) : Z := a mod BASE.

(** [while (len--) { adler += *buf++; sum2 += adler; }] *)
Fixpoint sum_bytes (buf : list Z) (st : Z * Z) : Z * Z :=
  match buf with
  | [] => st
  | b :: buf => let adler := u32 (st.1 + b) in sum_bytes buf (adler, u32 (st.2 + adler))
  end.

(** [n] rounds of [DO16(buf); buf += 16;] *)
Fixpoint do16_loop (n : nat) (buf : list Z) (st : Z * Z) : list Z * (Z * Z) :=
  match n with
  | O => (buf, st)
  | S n => do16_loop n (drop 16 buf) (DO16 buf st)
  end.

(** [while (len >= NMAX) { ... }]: [fuel] bounds the number of whole blocks. *)
Fixpoint nmax_blocks (fuel : nat) (buf : list Z) (st : Z * Z) : list Z * (Z * Z) :=
  match fuel with
  | O => (buf, st)
  | S fuel =>
      if NMAX <=? Z.of_nat (length buf) then
        let '(buf', (adler, sum2)) := do16_loop (Z.to_nat (NMAX / 16)) buf st in
        nmax_blocks fuel buf' (MOD adler, MOD sum2)
      else (buf, st)
  end.

(** [while (len >= 16) { len -= 16; DO16(buf); buf += 16; }] *)
Definition tail16 (buf : list Z) (st : Z * Z) : list Z * (Z * Z) :=
  do16_loop (length buf / 16) buf st.

Definition pack (adler sum2 : Z) : Z := adler .| (sum2 ≪ 16).

(** A buffer is [None] for [Z_NULL]; its length is the parameter [len]. *)
Definition adler32 (adler : Z) (buf : option (list Z)) : Z :=
  let sum2 := (adler ≫ 16) .& 0xffff in
  let adler := adler .& 0xffff in
  match buf with
  | Some [b] =>
      let adler := u32 (adler + b) in
      let adler := if BASE <=? adler then adler - BASE else adler in
      let sum2 := u32 (sum2 + adler) in
      let sum2 := if BASE <=? sum2 then sum2 - BASE else sum2 in
      u32 (pack adler sum2)
  | None => 1
  | Some buf =>
      if Z.of_nat (length buf) <? 16 then
        let '(adler, sum2) := sum_bytes buf (adler, sum2) in
        let adler := if BASE <=? adler then adler - BASE else adler in
        u32 (pack adler (MOD28 sum2))
      else
        let '(buf, (adler, sum2)) := nmax_blocks (length buf) buf (adler, sum2) in
        let '(adler, sum2) :=
          if nz (Z.of_nat (length buf)) then
            let '(buf, st) := tail16 buf (adler, sum2) in
            let '(adler, sum2) := sum_bytes buf st in
            (MOD adler, MOD sum2)
          else (adler, sum2) in
        u32 (pack adler sum2)
  end.

Definition adler32_combine_ (adler1 adler2 len2 : Z) : Z :=
  if len2 <? 0 then 0xffffffff else
  let rem := u32 (MOD63 len2) in
  let sum1 := adler1 .& 0xffff in
  let sum2 := u32 (rem * sum1) in
  let sum2 := MOD sum2 in
  let sum1 := u32 (sum1 + ((adler2 .& 0xffff) + BASE - 1)) in
  let sum2 := u32 (sum2 + (((adler1 ≫ 16) .& 0xffff) + ((adler2 ≫ 16) .& 0xffff) + BASE - rem)) in
  let sum1 := if BASE <=? sum1 then sum1 - BASE else sum1 in
  let sum1 := if BASE <=? sum1 then sum1 - BASE else sum1 in
  let sum2 := if (BASE ≪ 1) <=? sum2 then sum2 - (BASE ≪ 1) else sum2 in
  let sum2 := if BASE <=? sum2 then sum2 - BASE else sum2 in
  u32 (pack sum1 sum2).

Definition adler32_combine (adler1 adler2 len2 : Z) : Z := adler32_combine_ adler1 adler2 len2.
Definition adler32_combine64 (adler1 adler2 len2 : Z) : Z := adler32_combine_ adler1 adler2 len2.

(** ** Specification: RFC 1950 *)
Definition adler_step (s : Z * Z) (b : Z) : Z * Z :=
  let s1 := (s.1 + b) mod BASE in (s1, (s.2 + s1) mod BASE).

Definition adler_sums (s : Z * Z) (buf : list Z) : Z * Z := foldl adler_step s buf.

Definition adler_spec (adler : Z) (buf : list Z) : Z :=
  let '(s1, s2) := adler_sums (adler mod 2 ^ 16, adler / 2 ^ 16) buf in s2 * 2 ^ 16 + s1.

(** A value the checksum can take: both halves are reduced. *)
Definition adler_ok (a : Z) : Prop := 0 <= a mod 2 ^ 16 < BASE /\ 0 <= a / 2 ^ 16 < BASE.

(** ** The deferred sums do not overflow *)

(** The sums over the integers, without reduction. *)
Fixpoint raw (buf : list Z) (st : Z * Z) : Z * Z :=
  match buf with
  | [] => st
  | b :: buf => raw buf (st.1 + b, st.2 + (st.1 + b))
  end.

Definition cong (s t : Z * Z) : Prop := s.1 mod BASE = t.1 mod BASE /\ s.2 mod BASE = t.2 mod BASE.

Definition reduced (s : Z * Z) : Prop := 0 <= s.1 < BASE /\ 0 <= s.2 < BASE.

Lemma raw_mono buf st :
  Forall byte_ok buf -> 0 <= st.1 -> 0 <= st.2 ->
  st.1 <= (raw buf st).1 /\ st.2 <= (raw buf st).2.
Proof.
  intros Hb. revert st. induction Hb as [|b buf Hb0 Hb IH]; intros [s1 s2] H1 H2; simpl in *; [lia|].
  unfold byte_ok in Hb0. destruct (IH (s1 + b, s2 + (s1 + b))); simpl in *; lia.
Qed.

Lemma raw_bound buf st n :
  Forall byte_ok buf -> 0 <= st.1 -> 0 <= st.2 -> Z.of_nat (length buf) = n ->
  (raw buf st).1 <= st.1 + 255 * n /\
  2 * (raw buf st).2 <= 2 * st.2 + 2 * n * st.1 + 255 * n * (n + 1).
Proof.
  intros Hb. revert st n.
  induction Hb as [|b buf Hb0 Hb IH]; intros [s1 s2] n H1 H2 Hn; simpl in *; [nia|].
  unfold byte_ok in Hb0.
  destruct (IH (s1 + b, s2 + (s1 + b)) (n - 1)) as [IH1 IH2]; simpl in *; [lia..|]. nia.
Qed.

Lemma sum_bytes_raw buf st :
  Forall byte_ok buf -> 0 <= st.1 -> 0 <= st.2 ->
  (raw buf st).1 < 2 ^ 32 -> (raw buf st).2 < 2 ^ 32 -> sum_bytes buf st = raw buf st.
Proof.
  intros Hb. revert st. induction Hb as [|b buf Hb0 Hb IH]; intros [s1 s2] H1 H2 B1 B2; [done|].
  unfold byte_ok in Hb0. cbn [raw sum_bytes fst snd] in *.
  destruct (raw_mono buf (s1 + b, s2 + (s1 + b)) Hb); [simpl; lia..|]. cbn [fst snd] in *.
  rewrite !u32_small by lia. apply IH; simpl; lia.
Qed.

Lemma raw_cong buf s t : cong s t -> cong (raw buf s) (adler_sums t buf).
Proof.
  revert s t. induction buf as [|b buf IH]; intros [s1 s2] [t1 t2] [H1 H2]; [done|].
  cbn [raw]. unfold adler_sums. cbn [foldl]. apply IH. unfold cong, adler_step in *. cbn [fst snd] in *.
  assert (E : (s1 + b) mod BASE = (t1 + b) mod BASE) by (rewrite Zplus_mod, H1, <- Zplus_mod; done).
  rewrite !Z.mod_mod by done. split; [exact E|]. rewrite <- E.
  rewrite Z.add_mod_idemp_r by done. rewrite Zplus_mod, H2, <- Zplus_mod. done.
Qed.

Lemma adler_step_reduced s b : reduced (adler_step s b).
Proof. unfold reduced, adler_step, BASE; simpl; split; apply Z.mod_pos_bound; lia. Qed.

Lemma adler_sums_reduced buf s : reduced s -> reduced (adler_sums s buf).
Proof.
  revert s. unfold adler_sums. induction buf as [|b buf IH]; intros s Hs; [done|].
  apply IH, adler_step_reduced.
Qed.

Lemma adler_sums_app s x y : adler_sums s (x ++ y) = adler_sums (adler_sums s x) y.
Proof. apply foldl_app. Qed.

Lemma cong_reduced s t : cong s t -> reduced t -> (s.1 mod BASE, s.2 mod BASE) = t.
Proof.
  destruct t as [t1 t2]. intros [H1 H2] [R1 R2]. simpl in *. rewrite H1, H2.
  by rewrite !Z.mod_small by lia.
Qed.

(** One deferred run over at most [NMAX] bytes. *)
Lemma sum_bytes_spec buf s :
  Forall byte_ok buf -> reduced s -> Z.of_nat (length buf) <= NMAX ->
  sum_bytes buf s = raw buf s /\ cong (sum_bytes buf s) (adler_sums s buf).
Proof.
  intros Hb [H1 H2] Hn. unfold BASE, NMAX in *.
  destruct (raw_bound buf s _ Hb ltac:(lia) ltac:(lia) eq_refl) as [B1 B2].
  assert (E : sum_bytes buf s = raw buf s) by (apply sum_bytes_raw; [done|lia|lia|lia|nia]).
  split; [exact E|]. rewrite E. by apply raw_cong.
Qed.

Lemma sum_bytes_mod buf s :
  Forall byte_ok buf -> reduced s -> Z.of_nat (length buf) <= NMAX ->
  ((sum_bytes buf s).1 mod BASE, (sum_bytes buf s).2 mod BASE) = adler_sums s buf.
Proof.
  intros Hb Hs Hn. apply cong_reduced; [|by apply adler_sums_reduced].
  by apply sum_bytes_spec.
Qed.

Lemma sum_bytes_app x y st : sum_bytes (x ++ y) st = sum_bytes y (sum_bytes x st).
Proof. revert st. induction x as [|b x IH]; intros st; simpl; [done|apply IH]. Qed.

(** The unrolled sums are runs over consecutive bytes. *)
Lemma take_snoc_total {A} `{Inhabited A} (l : list A) i n :
  (i + S n <= length l)%nat -> take (S n) (drop i l) = take n (drop i l) ++ [l !!! (i + n)%nat].
Proof.
  intros Hl. apply take_S_r. rewrite lookup_drop. apply list_lookup_lookup_total_lt. lia.
Qed.

Lemma DO1_sum buf i st :
  (i + 1 <= length buf)%nat -> DO1 buf i st = sum_bytes (take 1 (drop i buf)) st.
Proof.
  intros Hl. rewrite take_snoc_total by lia. rewrite Nat.add_0_r. reflexivity.
Qed.

Lemma sum_bytes_split a b buf i st :
  sum_bytes (take b (drop (i + a) buf)) (sum_bytes (take a (drop i buf)) st) =
  sum_bytes (take (a + b) (drop i buf)) st.
Proof. by rewrite <- sum_bytes_app, <- drop_drop, take_take_drop. Qed.

Lemma DO2_sum buf i st :
  (i + 2 <= length buf)%nat -> DO2 buf i st = sum_bytes (take 2 (drop i buf)) st.
Proof. intros Hl. unfold DO2. rewrite !DO1_sum by lia. apply sum_bytes_split. Qed.
Lemma DO4_sum buf i st :
  (i + 4 <= length buf)%nat -> DO4 buf i st = sum_bytes (take 4 (drop i buf)) st.
Proof. intros Hl. unfold DO4. rewrite !DO2_sum by lia. apply sum_bytes_split. Qed.
Lemma DO8_sum buf i st :
  (i + 8 <= length buf)%nat -> DO8 buf i st = sum_bytes (take 8 (drop i buf)) st.
Proof. intros Hl. unfold DO8. rewrite !DO4_sum by lia. apply sum_bytes_split. Qed.
Lemma DO16_sum buf st : (16 <= length buf)%nat -> DO16 buf st = sum_bytes (take 16 buf) st.
Proof. intros Hl. unfold DO16. rewrite !DO8_sum by lia. apply (sum_bytes_split 8 8 buf 0). Qed.

Lemma do16_loop_sum n buf st :
  (16 * n <= length buf)%nat ->
  do16_loop n buf st = (drop (16 * n) buf, sum_bytes (take (16 * n) buf) st).
Proof.
  revert buf st. induction n as [|n IH]; intros buf st Hn; [done|].
  cbn [do16_loop]. rewrite IH by (rewrite length_drop; lia). rewrite DO16_sum by lia.
  rewrite drop_drop, <- sum_bytes_app, take_take_drop.
  do 2 f_equal; [lia|]. f_equal. lia.
Qed.

Lemma nmax_blocks_spec fuel buf s :
  (length buf <= fuel)%nat -> Forall byte_ok buf -> reduced s ->
  let rest := (nmax_blocks fuel buf s).1 in
  Forall byte_ok rest /\ Z.of_nat (length rest) < NMAX /\ reduced (nmax_blocks fuel buf s).2 /\
  adler_sums (nmax_blocks fuel buf s).2 rest = adler_sums s buf.
Proof.
  revert buf s. induction fuel as [|fuel IH]; intros buf s Hl Hb Hs.
  { simpl. unfold NMAX. destruct buf; simpl in *; [|lia]. done. }
  cbn [nmax_blocks]. case_match eqn:E; [|apply Z.leb_gt in E; done].
  apply Z.leb_le in E. unfold NMAX in E.
  rewrite do16_loop_sum by (vm_compute (Z.to_nat (NMAX / 16)); lia).
  set (k := (16 * Z.to_nat (NMAX / 16))%nat).
  assert (Hk : Z.of_nat k = NMAX) by (vm_compute; done).
  assert (Hm := sum_bytes_mod (take k buf) s ltac:(by apply Forall_take) Hs
                  ltac:(rewrite length_take; lia)).
  destruct (sum_bytes (take k buf) s) as [a b] eqn:Es. cbn [fst snd] in Hm.
  unfold MOD. rewrite Hm.
  destruct (IH (drop k buf) (adler_sums s (take k buf))) as (Hr & Hlen & Hred & Heq).
  - rewrite length_drop. unfold NMAX in Hk. lia.
  - by apply Forall_drop.
  - by apply adler_sums_reduced.
  - repeat split; try done; try apply Hred. by rewrite Heq, <- adler_sums_app, take_drop.
Qed.

Lemma tail16_spec buf s :
  Forall byte_ok buf ->
  sum_bytes (tail16 buf s).1 (tail16 buf s).2 = sum_bytes buf s.
Proof.
  intros Hb. unfold tail16.
  assert (Hm := Nat.div_mod_eq (length buf) 16).
  rewrite do16_loop_sum by lia. cbn [fst snd]. by rewrite <- sum_bytes_app, take_drop.
Qed.

Lemma pack_sums s : reduced s -> u32 (pack s.1 s.2) = s.2 * 2 ^ 16 + s.1.
Proof.
  intros [H1 H2]. unfold BASE, pack in *. rewrite lor_shiftl_add by lia.
  rewrite u32_small; lia.
Qed.

Lemma cond_sub_mod a : 0 <= a < 2 * BASE -> (if BASE <=? a then a - BASE else a) = a mod BASE.
Proof.
  intros Ha. unfold BASE in *. case_match eqn:E.
  - apply Z.leb_le in E. rewrite <- (Z.mod_small (a - 65521) 65521) by lia.
    rewrite <- (Z_mod_plus_full (a - 65521) 1). f_equal. lia.
  - apply Z.leb_gt in E. rewrite Z.mod_small by lia. done.
Qed.

Lemma adler_split a : 0 <= a < 2 ^ 32 -> (a ≫ 16) .& 0xffff = a / 2 ^ 16.
Proof.
  intros Ha. rewrite Z.shiftr_div_pow2 by lia. rewrite land_0xffff, Z.mod_small; [done|].
  split; [apply Z.div_pos; lia|]. apply Z.div_lt_upper_bound; lia.
Qed.

Lemma adler_ok_range a : adler_ok a -> 0 <= a < 2 ^ 32.
Proof.
  unfold adler_ok, BASE. intros [H1 H2]. pose proof (Z.div_mod a (2 ^ 16) ltac:(lia)). lia.
Qed.

Lemma adler_spec_pack a buf :
  adler_ok a ->
  adler_spec a buf = u32 (pack (adler_sums (a mod 2 ^ 16, a / 2 ^ 16) buf).1
                            (adler_sums (a mod 2 ^ 16, a / 2 ^ 16) buf).2).
Proof.
  intros Ha. rewrite pack_sums by (apply adler_sums_reduced; exact Ha).
  unfold adler_spec. by destruct (adler_sums _ _).
Qed.

(** The branches of [adler32], each against the specification. *)
Section branches.
Context (s : Z * Z) (Hs : reduced s) (buf : list Z) (Hb : Forall byte_ok buf).

Lemma short_branch :
  Z.of_nat (length buf) < 16 ->
  ((let a := (sum_bytes buf s).1 in if BASE <=? a then a - BASE else a),
   MOD28 (sum_bytes buf s).2) = adler_sums s buf.
Proof.
  intros Hlt. rewrite <- sum_bytes_mod by (done || (unfold NMAX; lia)).
  destruct (sum_bytes_spec buf s Hb Hs ltac:(unfold NMAX; lia)) as [E _].
  destruct Hs as [[A1 A2] [B1 B2]].
  destruct (raw_bound buf s _ Hb A1 B1 eq_refl) as [C1 _].
  destruct (raw_mono buf s Hb A1 B1) as [D1 _].
  cbn zeta. rewrite cond_sub_mod by (rewrite E; unfold BASE in *; lia). done.
Qed.

Lemma long_branch :
  let r := nmax_blocks (length buf) buf s in
  (if nz (Z.of_nat (length r.1)) then
     let t := sum_bytes (tail16 r.1 r.2).1 (tail16 r.1 r.2).2 in (MOD t.1, MOD t.2)
   else r.2) = adler_sums s buf.
Proof.
  destruct (nmax_blocks_spec (length buf) buf s) as (Hr & Hl & Hred & Heq); [done..|].
  cbn zeta. rewrite <- Heq. destruct (nmax_blocks _ _ _) as [rest t]. cbn [fst snd] in *.
  case_match eqn:E.
  - rewrite tail16_spec by done. by rewrite <- sum_bytes_mod by (done || lia).
  - apply nz_false in E. destruct rest; [done|simpl in E; lia].
Qed.
End branches.

Lemma byte_branch s b :
  reduced s -> byte_ok b ->
  (let a := u32 (s.1 + b) in let a := if BASE <=? a then a - BASE else a in
   let c := u32 (s.2 + a) in (a, if BASE <=? c then c - BASE else c)) = adler_sums s [b].
Proof.
  intros [H1 H2] Hb. unfold byte_ok in Hb. unfold BASE in H1, H2. cbn zeta.
  rewrite (u32_small (s.1 + b)) by lia.
  rewrite (cond_sub_mod (s.1 + b)) by (unfold BASE; lia).
  assert (B := Z.mod_pos_bound (s.1 + b) BASE ltac:(done)). unfold BASE in B.
  rewrite u32_small by (unfold BASE; lia). rewrite cond_sub_mod by (unfold BASE; lia). done.
Qed.

Lemma adler32_eq_spec (adler : Z) (buf : list Z) :
  adler_ok adler -> Forall byte_ok buf -> adler32 adler (Some buf) = adler_spec adler buf.
Proof.
  intros Ha Hb. rewrite adler_spec_pack by done. unfold adler32.
  rewrite adler_split, land_0xffff by (by apply adler_ok_range).
  set (s := (adler mod 2 ^ 16, adler / 2 ^ 16)). assert (Hs : reduced s) by exact Ha.
  assert (Hsh := short_branch s Hs buf Hb). assert (Hlg := long_branch s Hs buf Hb).
  destruct buf as [|b [|b' buf]].
  - rewrite <- Hsh by done. done.
  - by rewrite <- (byte_branch s b Hs (Forall_inv Hb)).
  - cbn zeta in *. clearbody s. destruct (Z.ltb_spec (Z.of_nat (length (b :: b' :: buf))) 16) as [E|E].
    + rewrite <- Hsh by exact E. by destruct (sum_bytes _ s).
    + rewrite <- Hlg. destruct (nmax_blocks _ _ s) as [rest [a c]]. cbn [fst snd].
      destruct (nz _); [|done]. destruct (tail16 rest (a, c)) as [rest' t]. cbn [fst snd].
      by destruct (sum_bytes rest' t).
Qed.

(** ** Running and combining checksums *)
Lemma adler_spec_ok a buf : adler_ok a -> adler_ok (adler_spec a buf).
Proof.
  intros Ha. unfold adler_spec, adler_ok in *.
  pose proof (adler_sums_reduced buf (a mod 2 ^ 16, a / 2 ^ 16) Ha) as Hr.
  destruct (adler_sums _ _) as [s1 s2]. destruct Hr as [H1 H2]. cbn [fst snd] in *.
  unfold BASE in *. rewrite Z.add_comm, Z_mod_plus_full, Z.mod_small by lia.
  rewrite Z_div_plus_full by lia. rewrite Z.div_small by lia. lia.
Qed.

Lemma adler_spec_halves a buf :
  adler_ok a ->
  (adler_spec a buf mod 2 ^ 16, adler_spec a buf / 2 ^ 16) = adler_sums (a mod 2 ^ 16, a / 2 ^ 16) buf.
Proof.
  intros Ha. unfold adler_spec, adler_ok in *.
  pose proof (adler_sums_reduced buf (a mod 2 ^ 16, a / 2 ^ 16) Ha) as Hr.
  destruct (adler_sums _ _) as [s1 s2]. destruct Hr as [H1 H2]. cbn [fst snd] in *. unfold BASE in *.
  rewrite Z.add_comm, Z_mod_plus_full, Z_div_plus_full by lia.
  by rewrite Z.mod_small, Z.div_small by lia.
Qed.

Lemma adler_spec_app a x y :
  adler_ok a -> adler_spec a (x ++ y) = adler_spec (adler_spec a x) y.
Proof.
  intros Ha. unfold adler_spec at 1 2. rewrite adler_spec_halves by done.
  by rewrite adler_sums_app.
Qed.

(** The raw sums are affine in the starting sums. *)
Lemma raw_affine buf s1 s2 :
  raw buf (s1, s2) =
  (s1 + (raw buf (0, 0)).1, s2 + Z.of_nat (length buf) * s1 + (raw buf (0, 0)).2).
Proof.
  revert s1 s2. induction buf as [|b buf IH]; intros s1 s2; [simpl; f_equal; lia|].
  cbn [raw fst snd]. rewrite (IH (s1 + b)), (IH (0 + b)). cbn [fst snd length]. f_equal; lia.
Qed.

Lemma cond_sub_cong (c : bool) (m a : Z) : (if c then a - m else a) mod m = a mod m.
Proof.
  destruct c; [|done]. replace (a - m) with (a + (-1) * m) by lia. apply Z_mod_plus_full.
Qed.

(** The arithmetic of [adler32_combine_], on the halves of its arguments. *)
Lemma combine_sums s1 s2 t1 t2 len :
  reduced (s1, s2) -> reduced (t1, t2) -> 0 <= len ->
  adler32_combine_ (s2 * 2 ^ 16 + s1) (t2 * 2 ^ 16 + t1) len =
  u32 (pack ((s1 + t1 - 1) mod BASE) ((len * s1 + s2 + t2 - len) mod BASE)).
Proof.
  intros [Hs1 Hs2] [Ht1 Ht2] Hlen. cbn [fst snd] in *. unfold adler32_combine_.
  destruct (Z.ltb_spec len 0); [lia|].
  rewrite !adler_split by (unfold BASE in *; lia). rewrite !land_0xffff.
  rewrite !(Z.add_comm (_ * 2 ^ 16)), !Z_mod_plus_full, !Z_div_plus_full by lia.
  rewrite !(Z.mod_small _ (2 ^ 16)), !(Z.div_small _ (2 ^ 16)), !Z.add_0_l by (unfold BASE in *; lia).
  unfold MOD63, MOD. change (BASE ≪ 1) with (2 * BASE).
  assert (Hr := Z.mod_pos_bound len BASE ltac:(done)).
  set (r := len mod BASE) in *. rewrite (u32_small r) by (unfold BASE in *; lia).
  rewrite (u32_small (r * s1)) by (unfold BASE in *; nia).
  assert (Hm := Z.mod_pos_bound (r * s1) BASE ltac:(done)).
  set (m := (r * s1) mod BASE) in *.
  rewrite (u32_small (s1 + _)), (u32_small (m + _)) by (unfold BASE in *; lia). do 2 f_equal.
  - set (a := s1 + _). assert (Ha : 0 <= a < 3 * BASE) by (unfold a, BASE in *; lia).
    set (b := if BASE <=? a then a - BASE else a).
    assert (Hb : 0 <= b < 2 * BASE) by (subst b; destruct (Z.leb_spec BASE a); lia).
    rewrite cond_sub_mod by done. unfold b. rewrite cond_sub_cong. unfold a.
    replace (s1 + (t1 + BASE - 1)) with (s1 + t1 - 1 + 1 * BASE) by lia. apply Z_mod_plus_full.
  - set (a := m + _). assert (Ha : 0 <= a < 4 * BASE) by (unfold a, BASE in *; lia).
    set (b := if 2 * BASE <=? a then a - 2 * BASE else a).
    assert (Hb : 0 <= b < 2 * BASE) by (subst b; destruct (Z.leb_spec (2 * BASE) a); lia).
    rewrite cond_sub_mod by done.
    assert (E : b mod BASE = a mod BASE).
    { unfold b. destruct (_ <=? a); [|done]. replace (a - 2 * BASE) with (a + (-2) * BASE) by lia.
      apply Z_mod_plus_full. }
    rewrite E. unfold a, m, r.
    replace (len * s1 + s2 + t2 - len) with (s2 + t2 + (len * s1 - len)) by lia.
    replace ((len mod BASE * s1) mod BASE + (s2 + t2 + BASE - len mod BASE)) with
      (s2 + t2 + ((len mod BASE * s1) mod BASE - len mod BASE) + 1 * BASE) by lia.
    rewrite Z_mod_plus_full. rewrite (Zplus_mod (s2 + t2)), (Zplus_mod (s2 + t2) (len * s1 - len)).
    do 2 f_equal. rewrite Zminus_mod_idemp_l, Zminus_mod_idemp_r, (Zminus_mod (_ * s1)).
    by rewrite Zmult_mod_idemp_l, <- Zminus_mod.
Qed.

Lemma adler_ok_1 : adler_ok 1.
Proof. vm_compute. intuition congruence. Qed.

Lemma adler_pack_split a : adler_ok a -> a = a / 2 ^ 16 * 2 ^ 16 + a mod 2 ^ 16.
Proof. intros _. rewrite Z.mul_comm. apply Z.div_mod. lia. Qed.

Lemma adler_combine_spec a x y :
  adler_ok a ->
  adler32_combine (adler_spec a x) (adler_spec 1 y) (Z.of_nat (length y)) = adler_spec a (x ++ y).
Proof.
  intros Ha. unfold adler32_combine.
  assert (Hx := adler_spec_ok a x Ha). assert (Hy := adler_spec_ok 1 y adler_ok_1).
  rewrite (adler_spec_pack a (x ++ y)), adler_sums_app, <- adler_spec_halves by done.
  rewrite (adler_pack_split (adler_spec a x)) at 1 by done.
  rewrite (adler_pack_split (adler_spec 1 y)) by done.
  rewrite combine_sums by (done || lia).
  set (s1 := adler_spec a x mod 2 ^ 16) in *. set (s2 := adler_spec a x / 2 ^ 16) in *.
  assert (Hc := raw_cong y (s1, s2) (s1, s2) ltac:(done)).
  assert (Hd := raw_cong y (1, 0) (1, 0) ltac:(done)).
  assert (Hh := adler_spec_halves 1 y adler_ok_1). change (1 mod 2 ^ 16, 1 / 2 ^ 16) with (1, 0) in Hh.
  rewrite <- Hh in Hd. apply cong_reduced in Hd; [|exact Hy].
  apply cong_reduced in Hc; [|by apply adler_sums_reduced].
  rewrite <- Hc. injection Hd as <- <-. rewrite (raw_affine y s1), (raw_affine y 1). cbn [fst snd].
  do 2 f_equal.
  - rewrite (Zminus_mod (_ + _)), Zplus_mod_idemp_r, <- Zminus_mod. f_equal. lia.
  - replace (Z.of_nat (length y) * s1 + s2 +
             (0 + Z.of_nat (length y) * 1 + (raw y (0, 0)).2) mod BASE - Z.of_nat (length y))
      with ((Z.of_nat (length y) * s1 + s2 - Z.of_nat (length y)) +
             (0 + Z.of_nat (length y) * 1 + (raw y (0, 0)).2) mod BASE) by lia.
    rewrite Zplus_mod_idemp_r. f_equal. lia.
Qed.

(** C24. [adler32] on a buffer is the Adler-32 of RFC 1950, whatever its length: the unrolled loops
    with one reduction per [NMAX] bytes never overflow 32 bits and agree with reducing at every
    byte; the checksum can be computed piecewise. *)
Theorem adler32_correct (adler : Z) (x y : list Z) :
  adler_ok adler -> Forall byte_ok x -> Forall byte_ok y ->
  adler32 adler (Some x) = adler_spec adler x /\
  adler_ok (adler32 adler (Some x)) /\
  adler32 (adler32 adler (Some x)) (Some y) = adler32 adler (Some (x ++ y)).
Proof.
  intros Ha Hx Hy. assert (Hs := adler_spec_ok adler x Ha).
  rewrite !adler32_eq_spec, <- adler_spec_app; auto using Forall_app_2.
Qed.

Lemma adler32_correct_witness :
  adler_ok 1 /\ adler32 1 (Some [87; 105]) = adler_spec 1 [87; 105].
Proof.
  split; [apply adler_ok_1|].
  apply (adler32_correct 1 [87; 105] [107]); [apply adler_ok_1|apply bytes_check; reflexivity..].
Defined.

(** C26. [adler32_combine] of the checksums of two buffers is the checksum of their concatenation. *)
Theorem adler32_combine_correct (adler : Z) (x y : list Z) :
  adler_ok adler -> Forall byte_ok x -> Forall byte_ok y ->
  adler32_combine (adler32 adler (Some x)) (adler32 1 (Some y)) (Z.of_nat (length y)) =
  adler32 adler (Some (x ++ y)).
Proof.
  intros Ha Hx Hy. rewrite !adler32_eq_spec by auto using Forall_app_2, adler_ok_1.
  by apply adler_combine_spec.
Qed.

Lemma adler32_combine_correct_witness :
  adler32_combine (adler32 1 (Some [87; 105])) (adler32 1 (Some [107])) 1 =
  adler32 1 (Some [87; 105; 107]).
Proof.
  apply (adler32_combine_correct 1 [87; 105] [107]);
    [apply adler_ok_1|apply bytes_check; reflexivity..].
Defined.
