(* ===== verification/Crc32.v ===== *)
(** Model of [src/zlib/crc32.c]: table generation, the byte-at-a-time CRC, the word-at-a-time CRC
    for little- and big-endian machines, and the combination of two CRCs by GF(2) matrices. *)
From S2P Require Import Prelude Crc32Tables.

(** ** Tables *)

(** [z_crc_t poly] from the terms of the polynomial. *)
Definition crc_terms : list Z := [0;1;2;4;5;7;8;10;11;12;16;22;23;26].
Definition poly : Z := foldl (fun poly p => poly .| (1 ≪ (31 - p))) 0 crc_terms.

(** [for (k = 0; k < 8; k++) c = c & 1 ? poly ^ (c >> 1) : c >> 1;] *)
Definition crc_shift (c : Z) : Z := if nz (c .& 1) then poly .^ (c ≫ 1) else c ≫ 1.
Definition crc_entry (n : Z) : Z := Nat.iter 8 crc_shift n.

(** [ZSWAP32] of [zutil.h], on an unsigned 32-bit argument. *)
Definition ZSWAP32 (q : Z) : Z :=
  u32 (((q ≫ 24) .& 0xff) + ((q ≫ 8) .& 0xff00) + u32 ((q .& 0xff00) ≪ 8) + u32 ((q .& 0xff) ≪ 24)).

Definition byte_values : list Z := Z.of_nat <$> seq 0 256.

(** [make_crc_table]: row 0 is the CRC of every byte; rows 1 to 3 follow it with one, two and three
    zero bytes; rows 4 to 7 are their byte reversals. *)
Definition crc_row0 : list Z := crc_entry <$> byte_values.
Definition crc_next (row0 : list Z) (c : Z) : Z := row0 !!! Z.to_nat (c .& 0xff) .^ (c ≫ 8).
Definition make_crc_table : list (list Z) :=
  let row0 := crc_row0 in
  let row1 := crc_next row0 <$> row0 in
  let row2 := crc_next row0 <$> row1 in
  let row3 := crc_next row0 <$> row2 in
  [row0; row1; row2; row3; ZSWAP32 <$> row0; ZSWAP32 <$> row1; ZSWAP32 <$> row2; ZSWAP32 <$> row3].

(** The [crc_table] the functions below read. *)
Definition get_crc_table : list (list Z) := crc_table_h.
Definition tbl (k : nat) (n : Z) : Z := (get_crc_table !!! k) !!! Z.to_nat n.

(** ** A byte at a time *)
Definition DO1 (crc b : Z) : Z := tbl 0 ((crc .^ b) .& 0xff) .^ (crc ≫ 8).

Fixpoint DO8 (n : nat) (crc : Z) (buf : list Z) : Z * list Z :=
  match n, buf with
  | S n, b :: buf => DO8 n (DO1 crc b) buf
  | _, _ => (crc, buf)
  end.

(** [while (len >= 8) { DO8; len -= 8; }], [n] rounds. *)
Fixpoint do8_loop (n : nat) (crc : Z) (buf : list Z) : Z * list Z :=
  match n with
  | O => (crc, buf)
  | S n => let '(crc, buf) := DO8 8 crc buf in do8_loop n crc buf
  end.

(** [if (len) do { DO1; } while (--len);] *)
Fixpoint do1_loop (crc : Z) (buf : list Z) : Z :=
  match buf with
  | [] => crc
  | b :: buf => do1_loop (DO1 crc b) buf
  end.

(** [crc32] without BYFOUR. *)
Definition crc32_bytewise (crc : Z) (buf : list Z) : Z :=
  let crc := crc .^ 0xffffffff in
  let '(crc, buf) := do8_loop (length buf / 8) crc buf in
  do1_loop crc buf .^ 0xffffffff.

(** ** A word at a time *)

(** [~c] on [z_crc_t]. *)
Definition crc_not (c : Z) : Z := u32 (Z.lnot c).

(** A [z_crc_t] read from memory. *)
Definition word_le (b0 b1 b2 b3 : Z) : Z := b0 .| (b1 ≪ 8) .| (b2 ≪ 16) .| (b3 ≪ 24).
Definition word_be (b0 b1 b2 b3 : Z) : Z := word_le b3 b2 b1 b0.

Definition DOLIT4 (c w : Z) : Z :=
  let c := c .^ w in
  tbl 3 (c .& 0xff) .^ tbl 2 ((c ≫ 8) .& 0xff) .^ tbl 1 ((c ≫ 16) .& 0xff) .^ tbl 0 (c ≫ 24).

Definition DOBIG4 (c w : Z) : Z :=
  let c := c .^ w in
  tbl 4 (c .& 0xff) .^ tbl 5 ((c ≫ 8) .& 0xff) .^ tbl 6 ((c ≫ 16) .& 0xff) .^ tbl 7 (c ≫ 24).

Definition DOBIG1 (c b : Z) : Z := tbl 4 ((c ≫ 24) .^ b) .^ u32 (c ≪ 8).

Section words.
Context (step1 : Z -> Z -> Z) (step4 : Z -> Z -> Z) (word : Z -> Z -> Z -> Z -> Z).

(** [while (len && ((ptrdiff_t)buf & 3)) { ...; len--; }]; [addr] is the address of the buffer. *)
Fixpoint align_loop (addr c : Z) (buf : list Z) : Z * list Z :=
  match buf with
  | b :: buf' => if nz (addr .& 3) then align_loop (addr + 1) (step1 c b) buf' else (c, buf)
  | [] => (c, buf)
  end.

(** [n] steps on [*buf4++]. *)
Fixpoint words_loop (n : nat) (c : Z) (buf : list Z) : Z * list Z :=
  match n, buf with
  | S n, b0 :: b1 :: b2 :: b3 :: buf => words_loop n (step4 c (word b0 b1 b2 b3)) buf
  | _, _ => (c, buf)
  end.

(** [while (len >= 32) { DOLIT32; len -= 32; }] *)
Fixpoint words32_loop (n : nat) (c : Z) (buf : list Z) : Z * list Z :=
  match n with
  | O => (c, buf)
  | S n => let '(c, buf) := words_loop 8 c buf in words32_loop n c buf
  end.

Fixpoint bytes_loop (c : Z) (buf : list Z) : Z :=
  match buf with
  | [] => c
  | b :: buf => bytes_loop (step1 c b) buf
  end.

Definition words_body (addr c : Z) (buf : list Z) : Z :=
  let '(c, buf) := align_loop addr c buf in
  let '(c, buf) := words32_loop (length buf / 32) c buf in
  let '(c, buf) := words_loop (length buf / 4) c buf in
  bytes_loop c buf.
End words.

Definition crc32_little (crc addr : Z) (buf : list Z) : Z :=
  crc_not (words_body DO1 DOLIT4 word_le addr (crc_not (u32 crc)) buf).

Definition crc32_big (crc addr : Z) (buf : list Z) : Z :=
  ZSWAP32 (crc_not (words_body DOBIG1 DOBIG4 word_be addr (crc_not (ZSWAP32 (u32 crc))) buf)).

(** The machine the library runs on: its byte order, whether [BYFOUR] is defined, and the address
    of the buffer. *)
Record machine := { byfour : bool; little_endian : bool; buf_addr : Z }.

Definition crc32_on (m : machine) (crc : Z) (buf : option (list Z)) : Z :=
  match buf with
  | None => 0
  | Some buf =>
      if byfour m then
        if little_endian m then crc32_little crc (buf_addr m) buf
        else crc32_big crc (buf_addr m) buf
      else crc32_bytewise crc buf
  end.

(** The build of the repository: a little-endian machine with [BYFOUR]. *)
Definition crc32 (crc : Z) (buf : option (list Z)) : Z :=
  crc32_on {| byfour := true; little_endian := true; buf_addr := 0 |} crc buf.

(** ** GF(2) matrices *)
Definition GF2_DIM : nat := 32.

(** The loop reads [*mat] for every bit of [vec]; [None] is a read past the matrix. *)
Fixpoint gf2_matrix_times_loop (mat : list Z) (vec sum : Z) : option Z :=
  if nz vec then
    match mat with
    | [] => None
    | m :: mat =>
        gf2_matrix_times_loop mat (vec ≫ 1) (if nz (vec .& 1) then sum .^ m else sum)
    end
  else Some sum.
Definition gf2_matrix_times (mat : list Z) (vec : Z) : option Z := gf2_matrix_times_loop mat vec 0.

Definition gf2_matrix_square (mat : list Z) : option (list Z) :=
  mapM (fun n => m ← mat !! n; gf2_matrix_times mat m) (seq 0 GF2_DIM).

(** the operator for one zero bit *)
Definition odd_init : list Z :=
  0xedb88320 :: (foldl (fun '(rows, row) _ => (rows ++ [row], u32 (row ≪ 1))) ([], 1) (seq 1 (GF2_DIM - 1))).1.

(** The [do ... while (len2 != 0)] loop of [crc32_combine_]; the third argument is the matrix [odd]. *)
Fixpoint combine_loop (fuel : nat) (odd : list Z) (crc1 len2 : Z) : option Z :=
  match fuel with
  | O => None
  | S fuel =>
      even ← gf2_matrix_square odd;
      crc1 ← (if nz (len2 .& 1) then gf2_matrix_times even crc1 else Some crc1);
      let len2 := len2 ≫ 1 in
      if len2 =? 0 then Some crc1 else
      odd ← gf2_matrix_square even;
      crc1 ← (if nz (len2 .& 1) then gf2_matrix_times odd crc1 else Some crc1);
      let len2 := len2 ≫ 1 in
      if len2 =? 0 then Some crc1 else combine_loop fuel odd crc1 len2
  end.

(** [z_off64_t] has 64 bits: 32 rounds of two bits each are enough. *)
Definition crc32_combine_ (crc1 crc2 len2 : Z) : option Z :=
  if len2 <=? 0 then Some crc1 else
  even ← gf2_matrix_square odd_init;
  odd ← gf2_matrix_square even;
  crc1 ← combine_loop 32 odd crc1 len2;
  Some (crc1 .^ crc2).

Definition crc32_combine (crc1 crc2 len2 : Z) : option Z := crc32_combine_ crc1 crc2 len2.
Definition crc32_combine64 (crc1 crc2 len2 : Z) : option Z := crc32_combine_ crc1 crc2 len2.

(** ** Specification: the shift register, a bit at a time *)
Definition crc_byte (c b : Z) : Z := Nat.iter 8 crc_shift (c .^ b).
Definition crc_reg (c : Z) (buf : list Z) : Z := foldl crc_byte c buf.
Definition crc_spec (crc : Z) (buf : list Z) : Z := crc_reg (crc .^ 0xffffffff) buf .^ 0xffffffff.

Definition word_ok (c : Z) : Prop := 0 <= c < 2 ^ 32.

(** ** The register is linear *)
Lemma crc_shift_alt c : crc_shift c = (c ≫ 1) .^ (if Z.odd c then poly else 0).
Proof.
  unfold crc_shift. rewrite (land_mask c 1 ltac:(lia) : c .& 1 = _).
  change (2 ^ 1) with 2. rewrite Zmod_odd.
  destruct (Z.odd c); [apply Z.lxor_comm|by rewrite Z.lxor_0_r].
Qed.

Lemma odd_lxor a b : Z.odd (a .^ b) = xorb (Z.odd a) (Z.odd b).
Proof. by rewrite <- !Z.bit0_odd, Z.lxor_spec. Qed.

Lemma crc_shift_lxor a b : crc_shift (a .^ b) = crc_shift a .^ crc_shift b.
Proof.
  rewrite !crc_shift_alt, Z.shiftr_lxor, odd_lxor.
  apply Z.bits_inj'. intros i _. rewrite !Z.lxor_spec.
  destruct (Z.odd a), (Z.odd b); simpl; rewrite ?Z.bits_0;
    destruct (Z.testbit (a ≫ 1) i), (Z.testbit (b ≫ 1) i), (Z.testbit poly i); reflexivity.
Qed.

Lemma iter_lxor n a b : Nat.iter n crc_shift (a .^ b) = Nat.iter n crc_shift a .^ Nat.iter n crc_shift b.
Proof. induction n as [|n IH]; simpl; [done|]. by rewrite IH, crc_shift_lxor. Qed.

Lemma iter_add {A} (f : A -> A) n m x : Nat.iter n f (Nat.iter m f x) = Nat.iter (n + m) f x.
Proof. induction n as [|n IH]; simpl; [done|]. by rewrite IH. Qed.

Lemma iter_0 n : Nat.iter n crc_shift 0 = 0.
Proof. induction n as [|n IH]; simpl; [done|]. by rewrite IH. Qed.

Lemma crc_shift_double x : crc_shift (x ≪ 1) = x.
Proof.
  rewrite crc_shift_alt. rewrite Z.shiftl_mul_pow2 by lia. change (2 ^ 1) with 2.
  rewrite Z.odd_mul, andb_false_r, Z.lxor_0_r. rewrite Z.shiftr_div_pow2 by lia. apply Z.div_mul. lia.
Qed.

Lemma iter_shiftl n x : Nat.iter n crc_shift (x ≪ Z.of_nat n) = x.
Proof.
  revert x. induction n as [|n IH]; intros x; [apply Z.shiftl_0_r|].
  rewrite Nat.iter_succ_r. rewrite Nat2Z.inj_succ, <- Z.add_1_r.
  rewrite <- Z.shiftl_shiftl by lia. by rewrite crc_shift_double.
Qed.

(** A byte entering after [n] shifts can enter [n] bits higher before them. *)
Lemma crc_byte_iter n x b : crc_byte (Nat.iter n crc_shift x) b = Nat.iter (8 + n) crc_shift (x .^ (b ≪ Z.of_nat n)).
Proof. unfold crc_byte. rewrite <- (iter_add _ 8 n). f_equal. by rewrite iter_lxor, iter_shiftl. Qed.

Lemma lxor_range n a b : 0 <= n -> 0 <= a < 2 ^ n -> 0 <= b < 2 ^ n -> 0 <= a .^ b < 2 ^ n.
Proof.
  intros Hn Ha Hb. assert (0 <= a .^ b) by (apply Z.lxor_nonneg; lia). split; [done|].
  destruct (Z.eq_dec (a .^ b) 0) as [->|Hz]; [lia|].
  apply Z.log2_lt_pow2; [lia|]. eapply Z.le_lt_trans; [apply Z.log2_lxor; lia|].
  destruct (Z.eq_dec n 0) as [->|]; [replace a with 0 in * by lia; replace b with 0 in * by lia; done|].
  assert (forall x, 0 <= x < 2 ^ n -> Z.log2 x < n).
  { intros x Hx. destruct (Z.eq_dec x 0) as [->|]; [simpl; lia|]. apply Z.log2_lt_pow2; lia. }
  apply Z.max_lub_lt; auto.
Qed.

Lemma word_lxor a b : word_ok a -> word_ok b -> word_ok (a .^ b).
Proof. apply lxor_range. lia. Qed.

Lemma poly_ok : word_ok poly.
Proof. vm_compute. intuition congruence. Qed.

Lemma crc_shift_ok c : word_ok c -> word_ok (crc_shift c).
Proof.
  intros Hc. rewrite crc_shift_alt. apply word_lxor.
  - unfold word_ok in *. rewrite Z.shiftr_div_pow2 by lia. change (2 ^ 1) with 2. dlia.
  - destruct (Z.odd c); [apply poly_ok|done].
Qed.
Lemma iter_ok n c : word_ok c -> word_ok (Nat.iter n crc_shift c).
Proof. intros Hc. induction n as [|n IH]; simpl; [done|by apply crc_shift_ok]. Qed.

Lemma byte_word b : byte_ok b -> word_ok b.
Proof. unfold byte_ok, word_ok. lia. Qed.

Lemma crc_byte_ok c b : word_ok c -> byte_ok b -> word_ok (crc_byte c b).
Proof. intros Hc Hb. apply iter_ok, word_lxor; auto using byte_word. Qed.

Lemma crc_reg_ok buf c : word_ok c -> Forall byte_ok buf -> word_ok (crc_reg c buf).
Proof.
  intros Hc Hb. revert c Hc. unfold crc_reg. induction Hb as [|b buf Hb _ IH]; intros c Hc; [done|].
  apply IH. by apply crc_byte_ok.
Qed.

(** ** Words as four bytes *)
Definition wordx (b0 b1 b2 b3 : Z) : Z := b0 .^ (b1 ≪ 8) .^ (b2 ≪ 16) .^ (b3 ≪ 24).
Definition B (k c : Z) : Z := (c ≫ (8 * k)) .& 0xff.

Lemma B_div k c : 0 <= k -> B k c = (c / 2 ^ (8 * k)) mod 256.
Proof. intros Hk. unfold B. by rewrite land_0xff, Z.shiftr_div_pow2 by lia. Qed.

Lemma B_ok k c : byte_ok (B k c).
Proof. unfold B. rewrite land_0xff. apply Z.mod_pos_bound. lia. Qed.

Lemma lxor_lor_disjoint a b n : 0 <= n -> 0 <= a < 2 ^ n -> a .^ (b ≪ n) = a .| (b ≪ n).
Proof.
  intros Hn Ha. apply Z.lxor_lor. apply Z.bits_inj'. intros i Hi.
  rewrite Z.land_spec, Z.bits_0, Z.shiftl_spec by lia. destruct (Z.ltb_spec i n).
  - rewrite (Z.testbit_neg_r _ (i - n)) by lia. apply andb_false_r.
  - rewrite (testbit_high a n) by lia. reflexivity.
Qed.

Section bytes.
Context (b0 b1 b2 b3 : Z) (H0 : byte_ok b0) (H1 : byte_ok b1) (H2 : byte_ok b2) (H3 : byte_ok b3).

Lemma wordx_sum : wordx b0 b1 b2 b3 = b0 + b1 * 2 ^ 8 + b2 * 2 ^ 16 + b3 * 2 ^ 24.
Proof.
  unfold wordx, byte_ok in *.
  rewrite (lxor_lor_disjoint b0 b1 8), (lor_shiftl_add b0 b1 8) by lia.
  rewrite (lxor_lor_disjoint _ b2 16), (lor_shiftl_add _ b2 16) by lia.
  rewrite (lxor_lor_disjoint _ b3 24), (lor_shiftl_add _ b3 24) by lia. done.
Qed.

Lemma word_le_wordx : word_le b0 b1 b2 b3 = wordx b0 b1 b2 b3.
Proof.
  rewrite wordx_sum. unfold word_le, byte_ok in *. rewrite (lor_shiftl_add b0 b1 8) by lia.
  rewrite (lor_shiftl_add _ b2 16), (lor_shiftl_add _ b3 24) by lia. done.
Qed.

Lemma wordx_ok : word_ok (wordx b0 b1 b2 b3).
Proof. rewrite wordx_sum. unfold byte_ok, word_ok in *. lia. Qed.

Lemma B_wordx :
  B 0 (wordx b0 b1 b2 b3) = b0 /\ B 1 (wordx b0 b1 b2 b3) = b1 /\
  B 2 (wordx b0 b1 b2 b3) = b2 /\ B 3 (wordx b0 b1 b2 b3) = b3.
Proof.
  rewrite wordx_sum, !B_div by lia. unfold byte_ok in *.
  change (2 ^ (8 * 0)) with 1. change (2 ^ (8 * 1)) with (2 ^ 8).
  change (2 ^ (8 * 2)) with (2 ^ 16). change (2 ^ (8 * 3)) with (2 ^ 24). dlia.
Qed.
End bytes.

Lemma wordx_B c : word_ok c -> wordx (B 0 c) (B 1 c) (B 2 c) (B 3 c) = c.
Proof.
  intros Hc. rewrite wordx_sum by apply B_ok. rewrite !B_div by lia. unfold word_ok in Hc.
  change (2 ^ (8 * 0)) with 1. change (2 ^ (8 * 1)) with (2 ^ 8).
  change (2 ^ (8 * 2)) with (2 ^ 16). change (2 ^ (8 * 3)) with (2 ^ 24). dlia.
Qed.

(** ** The tables *)
Lemma tables_eq : make_crc_table = get_crc_table.
Proof. vm_compute. reflexivity. Qed.

Lemma check_bytes (f g : Z -> Z) :
  forallb (fun n => f n =? g n) byte_values = true -> forall n, byte_ok n -> f n = g n.
Proof.
  intros H n Hn. rewrite forallb_forall in H. apply Z.eqb_eq, H.
  unfold byte_values. apply list_elem_of_In, list_elem_of_fmap. exists (Z.to_nat n).
  unfold byte_ok in Hn. split; [lia|]. apply elem_of_seq. lia.
Qed.

Lemma tbl0 n : byte_ok n -> tbl 0 n = Nat.iter 8 crc_shift n.
Proof. revert n. apply check_bytes. vm_compute. reflexivity. Qed.
Lemma tbl1 n : byte_ok n -> tbl 1 n = Nat.iter 16 crc_shift n.
Proof. revert n. apply check_bytes. vm_compute. reflexivity. Qed.
Lemma tbl2 n : byte_ok n -> tbl 2 n = Nat.iter 24 crc_shift n.
Proof. revert n. apply check_bytes. vm_compute. reflexivity. Qed.
Lemma tbl3 n : byte_ok n -> tbl 3 n = Nat.iter 32 crc_shift n.
Proof. revert n. apply check_bytes. vm_compute. reflexivity. Qed.
Lemma tbl4 n : byte_ok n -> tbl 4 n = ZSWAP32 (tbl 0 n).
Proof. revert n. apply check_bytes. vm_compute. reflexivity. Qed.
Lemma tbl5 n : byte_ok n -> tbl 5 n = ZSWAP32 (tbl 1 n).
Proof. revert n. apply check_bytes. vm_compute. reflexivity. Qed.
Lemma tbl6 n : byte_ok n -> tbl 6 n = ZSWAP32 (tbl 2 n).
Proof. revert n. apply check_bytes. vm_compute. reflexivity. Qed.
Lemma tbl7 n : byte_ok n -> tbl 7 n = ZSWAP32 (tbl 3 n).
Proof. revert n. apply check_bytes. vm_compute. reflexivity. Qed.

Lemma tbl_ok k n : (k < 4)%nat -> byte_ok n -> word_ok (tbl k n).
Proof.
  intros Hk Hn. destruct k as [|[|[|[|]]]]; [..|lia];
    rewrite ?tbl0, ?tbl1, ?tbl2, ?tbl3 by done; auto using iter_ok, byte_word.
Qed.

(** ** One step of each kind is the register run over its bytes *)
Lemma split_low c : c = (c .& 0xff) .^ ((c ≫ 8) ≪ 8).
Proof.
  rewrite land_0xff. apply Z.bits_inj'. intros i Hi. rewrite Z.lxor_spec.
  destruct (Z.ltb_spec i 8).
  - rewrite Z.mod_pow2_bits_low, Z.shiftl_spec_low by lia. by rewrite xorb_false_r.
  - rewrite Z.mod_pow2_bits_high, Z.shiftl_spec, Z.shiftr_spec by lia. simpl. f_equal. lia.
Qed.

Lemma shiftr_byte b : byte_ok b -> b ≫ 8 = 0.
Proof. unfold byte_ok. intros Hb. rewrite Z.shiftr_div_pow2 by lia. apply Z.div_small. lia. Qed.

Lemma land_ff_ok x : byte_ok (x .& 0xff).
Proof. rewrite land_0xff. apply Z.mod_pos_bound. lia. Qed.

Lemma DO1_byte c b : byte_ok b -> DO1 c b = crc_byte c b.
Proof.
  intros Hb. unfold DO1, crc_byte. rewrite (split_low (c .^ b)) at 2.
  rewrite iter_lxor, tbl0 by apply land_ff_ok. f_equal.
  rewrite (iter_shiftl 8). by rewrite Z.shiftr_lxor, (shiftr_byte b Hb), Z.lxor_0_r.
Qed.

Lemma DOLIT4_iter c w : word_ok (c .^ w) -> DOLIT4 c w = Nat.iter 32 crc_shift (c .^ w).
Proof.
  intros Hx. unfold DOLIT4. set (x := c .^ w) in *.
  change (x .& 0xff) with (B 0 x). change ((x ≫ 8) .& 0xff) with (B 1 x).
  change ((x ≫ 16) .& 0xff) with (B 2 x).
  assert (E : x ≫ 24 = B 3 x).
  { rewrite B_div, Z.shiftr_div_pow2 by lia. rewrite Z.mod_small; [done|].
    unfold word_ok in Hx. change (2 ^ (8 * 3)) with (2 ^ 24). dlia. }
  rewrite E, tbl0, tbl1, tbl2, tbl3 by apply B_ok.
  rewrite <- (wordx_B x Hx) at 5. unfold wordx. rewrite !iter_lxor.
  rewrite <- (iter_add _ 24 8 (B 1 x ≪ 8)), (iter_shiftl 8).
  rewrite <- (iter_add _ 16 16 (B 2 x ≪ 16)), (iter_shiftl 16).
  rewrite <- (iter_add _ 8 24 (B 3 x ≪ 24)), (iter_shiftl 24). done.
Qed.

Lemma crc_reg_word c b0 b1 b2 b3 :
  crc_reg c [b0; b1; b2; b3] = Nat.iter 32 crc_shift (c .^ wordx b0 b1 b2 b3).
Proof.
  unfold crc_reg. simpl foldl. unfold crc_byte at 4.
  rewrite (crc_byte_iter 8), (crc_byte_iter 16), (crc_byte_iter 24).
  unfold wordx. by rewrite !Z.lxor_assoc.
Qed.

Lemma DOLIT4_reg c b0 b1 b2 b3 :
  word_ok c -> byte_ok b0 -> byte_ok b1 -> byte_ok b2 -> byte_ok b3 ->
  DOLIT4 c (word_le b0 b1 b2 b3) = crc_reg c [b0; b1; b2; b3].
Proof.
  intros Hc H0 H1 H2 H3. rewrite word_le_wordx, crc_reg_word by done.
  apply DOLIT4_iter. apply word_lxor; [done|]. by apply wordx_ok.
Qed.

(** ** Byte reversal *)
Lemma ZSWAP32_wordx q : word_ok q -> ZSWAP32 q = wordx (B 3 q) (B 2 q) (B 1 q) (B 0 q).
Proof.
  intros Hq. rewrite wordx_sum by apply B_ok. unfold ZSWAP32, word_ok in *.
  change 0xff00 with (0xff ≪ 8).
  assert (E : forall x, x .& (0xff ≪ 8) = ((x / 2 ^ 8) mod 2 ^ 8) * 2 ^ 8).
  { intros x. rewrite <- Z.shiftr_div_pow2, <- land_0xff by lia.
    rewrite <- Z.shiftl_mul_pow2 by lia. apply Z.bits_inj'. intros i Hi.
    rewrite Z.land_spec, !Z.shiftl_spec by lia. rewrite Z.land_spec.
    destruct (Z.ltb_spec i 8).
    - rewrite !(Z.testbit_neg_r _ (i - 8)) by lia. by rewrite !andb_false_r.
    - rewrite Z.shiftr_spec by lia. do 2 f_equal. lia. }
  rewrite !E, !land_0xff, !B_div by lia.
  rewrite !Z.shiftr_div_pow2, !Z.shiftl_mul_pow2 by lia.
  change (2 ^ (8 * 0)) with 1. change (2 ^ (8 * 1)) with (2 ^ 8).
  change (2 ^ (8 * 2)) with (2 ^ 16). change (2 ^ (8 * 3)) with (2 ^ 24).
  unfold u32. dlia.
Qed.

Lemma B_lxor k a b : B k (a .^ b) = B k a .^ B k b.
Proof.
  unfold B. rewrite Z.shiftr_lxor. apply Z.bits_inj'. intros i _.
  rewrite !Z.lxor_spec, !Z.land_spec, Z.lxor_spec.
  by destruct (Z.testbit (a ≫ _) i), (Z.testbit (b ≫ _) i), (Z.testbit 255 i).
Qed.

Lemma wordx_lxor a0 a1 a2 a3 b0 b1 b2 b3 :
  wordx (a0 .^ b0) (a1 .^ b1) (a2 .^ b2) (a3 .^ b3) = wordx a0 a1 a2 a3 .^ wordx b0 b1 b2 b3.
Proof.
  unfold wordx. rewrite !Z.shiftl_lxor. apply Z.bits_inj'. intros i _. rewrite !Z.lxor_spec.
  by destruct (Z.testbit a0 i), (Z.testbit b0 i), (Z.testbit (a1 ≪ 8) i), (Z.testbit (b1 ≪ 8) i),
    (Z.testbit (a2 ≪ 16) i), (Z.testbit (b2 ≪ 16) i), (Z.testbit (a3 ≪ 24) i), (Z.testbit (b3 ≪ 24) i).
Qed.

Lemma ZSWAP32_ok q : word_ok q -> word_ok (ZSWAP32 q).
Proof. intros Hq. rewrite ZSWAP32_wordx by done. apply wordx_ok; apply B_ok. Qed.

Lemma ZSWAP32_lxor a b : word_ok a -> word_ok b -> ZSWAP32 (a .^ b) = ZSWAP32 a .^ ZSWAP32 b.
Proof.
  intros Ha Hb. rewrite !ZSWAP32_wordx by auto using word_lxor. by rewrite !B_lxor, wordx_lxor.
Qed.

Lemma B_ZSWAP32 q :
  word_ok q ->
  B 0 (ZSWAP32 q) = B 3 q /\ B 1 (ZSWAP32 q) = B 2 q /\ B 2 (ZSWAP32 q) = B 1 q /\ B 3 (ZSWAP32 q) = B 0 q.
Proof. intros Hq. rewrite ZSWAP32_wordx by done. apply B_wordx; apply B_ok. Qed.

Lemma ZSWAP32_invol q : word_ok q -> ZSWAP32 (ZSWAP32 q) = q.
Proof.
  intros Hq. rewrite (ZSWAP32_wordx (ZSWAP32 q)) by auto using ZSWAP32_ok.
  destruct (B_ZSWAP32 q Hq) as (-> & -> & -> & ->). by apply wordx_B.
Qed.

Lemma B_shiftr_top c : word_ok c -> c ≫ 24 = B 3 c.
Proof.
  intros Hc. rewrite B_div, Z.shiftr_div_pow2 by lia. rewrite Z.mod_small; [done|].
  unfold word_ok in Hc. change (2 ^ (8 * 3)) with (2 ^ 24). dlia.
Qed.

Lemma word_be_swap b0 b1 b2 b3 :
  byte_ok b0 -> byte_ok b1 -> byte_ok b2 -> byte_ok b3 ->
  word_be b0 b1 b2 b3 = ZSWAP32 (word_le b0 b1 b2 b3).
Proof.
  intros H0 H1 H2 H3. unfold word_be. rewrite !word_le_wordx by done.
  rewrite ZSWAP32_wordx by (by apply wordx_ok).
  by destruct (B_wordx b0 b1 b2 b3) as (-> & -> & -> & ->).
Qed.

Lemma ZSWAP32_shiftr8 c : word_ok c -> u32 (ZSWAP32 c ≪ 8) = ZSWAP32 (c ≫ 8).
Proof.
  intros Hc. assert (H8 : word_ok (c ≫ 8)).
  { unfold word_ok in *. rewrite Z.shiftr_div_pow2 by lia. dlia. }
  rewrite !ZSWAP32_wordx by done. rewrite !wordx_sum by apply B_ok.
  rewrite Z.shiftl_mul_pow2 by lia.
  rewrite !B_div, !Z.shiftr_div_pow2 by lia. unfold word_ok in *. clear H8.
  change (2 ^ (8 * 0)) with 1. change (2 ^ (8 * 1)) with (2 ^ 8).
  change (2 ^ (8 * 2)) with (2 ^ 16). change (2 ^ (8 * 3)) with (2 ^ 24).
  unfold u32. dlia.
Qed.

Lemma DOBIG1_byte c b : word_ok c -> byte_ok b -> DOBIG1 (ZSWAP32 c) b = ZSWAP32 (crc_byte c b).
Proof.
  intros Hc Hb. rewrite <- DO1_byte by done. unfold DOBIG1, DO1.
  rewrite ZSWAP32_lxor.
  - rewrite ZSWAP32_shiftr8 by done. rewrite <- tbl4 by apply land_ff_ok. do 2 f_equal.
    rewrite B_shiftr_top by auto using ZSWAP32_ok. destruct (B_ZSWAP32 c Hc) as (_ & _ & _ & ->).
    change ((c .^ b) .& 0xff) with (B 0 (c .^ b)). rewrite B_lxor. f_equal.
    rewrite B_div by lia. change (2 ^ (8 * 0)) with 1. unfold byte_ok in Hb. rewrite Z.div_1_r, Z.mod_small; lia.
  - apply tbl_ok; [lia|apply land_ff_ok].
  - unfold word_ok in *. rewrite Z.shiftr_div_pow2 by lia. dlia.
Qed.

Lemma lxor4_rev a b c d : a .^ b .^ c .^ d = d .^ c .^ b .^ a.
Proof. by rewrite (Z.lxor_comm a b), (Z.lxor_comm _ c), (Z.lxor_comm _ d), !Z.lxor_assoc. Qed.

Lemma DOBIG4_reg c b0 b1 b2 b3 :
  word_ok c -> byte_ok b0 -> byte_ok b1 -> byte_ok b2 -> byte_ok b3 ->
  DOBIG4 (ZSWAP32 c) (word_be b0 b1 b2 b3) = ZSWAP32 (crc_reg c [b0; b1; b2; b3]).
Proof.
  intros Hc H0 H1 H2 H3. rewrite <- DOLIT4_reg by done. rewrite word_be_swap by done.
  set (w := word_le b0 b1 b2 b3).
  assert (Hw : word_ok w) by (unfold w; rewrite word_le_wordx by done; by apply wordx_ok).
  unfold DOBIG4, DOLIT4. rewrite <- ZSWAP32_lxor by done.
  assert (Hx := word_lxor c w Hc Hw). set (x := c .^ w) in *.
  rewrite !B_shiftr_top by auto using ZSWAP32_ok.
  change ((?y ≫ 8) .& 0xff) with (B 1 y). change ((?y ≫ 16) .& 0xff) with (B 2 y).
  change (?y .& 0xff) with (B 0 y).
  destruct (B_ZSWAP32 x Hx) as (-> & -> & -> & ->).
  rewrite tbl4, tbl5, tbl6, tbl7 by apply B_ok.
  assert (Ht : forall k j, (k < 4)%nat -> word_ok (tbl k (B j x))) by (intros; apply tbl_ok; auto using B_ok).
  rewrite !ZSWAP32_lxor by (repeat apply word_lxor; apply Ht; lia).
  apply lxor4_rev.
Qed.

(** ** The loops *)
Lemma crc_reg_app c x y : crc_reg c (x ++ y) = crc_reg (crc_reg c x) y.
Proof. apply foldl_app. Qed.

(** The word-at-a-time loops on a register kept through an encoding [phi]. *)
Section words_loops.
Context (step1 step4 : Z -> Z -> Z) (word : Z -> Z -> Z -> Z -> Z) (phi : Z -> Z).
Context (H1 : forall c b, word_ok c -> byte_ok b -> step1 (phi c) b = phi (crc_byte c b)).
Context (H4 : forall c b0 b1 b2 b3,
  word_ok c -> byte_ok b0 -> byte_ok b1 -> byte_ok b2 -> byte_ok b3 ->
  step4 (phi c) (word b0 b1 b2 b3) = phi (crc_reg c [b0; b1; b2; b3])).

(** [r] is what a loop leaves of [buf] started at register [c]. *)
Definition loop_post (c : Z) (buf : list Z) (r : Z * list Z) : Prop :=
  exists done rest, buf = done ++ rest /\ r = (phi (crc_reg c done), rest).

Lemma loop_post_nil c buf : loop_post c buf (phi c, buf).
Proof. by exists [], buf. Qed.

Lemma loop_post_step c x buf r :
  loop_post (crc_reg c x) buf r -> loop_post c (x ++ buf) r.
Proof.
  intros (d & rest & -> & ->). exists (x ++ d), rest. by rewrite app_assoc, crc_reg_app.
Qed.

Lemma align_loop_post addr c buf :
  word_ok c -> Forall byte_ok buf -> loop_post c buf (align_loop step1 addr (phi c) buf).
Proof.
  intros Hc Hb. revert addr c Hc. induction Hb as [|b buf Hb0 Hb IH]; intros addr c Hc; simpl.
  { apply loop_post_nil. }
  destruct (nz _); [|apply loop_post_nil]. rewrite H1 by done.
  apply (loop_post_step c [b]). apply IH. by apply crc_byte_ok.
Qed.

Lemma words_loop_post n c buf :
  word_ok c -> Forall byte_ok buf -> loop_post c buf (words_loop step4 word n (phi c) buf).
Proof.
  revert c buf. induction n as [|n IH]; intros c buf Hc Hb; [apply loop_post_nil|].
  destruct buf as [|b0 [|b1 [|b2 [|b3 buf]]]]; [apply loop_post_nil..|]. cbn [words_loop].
  rewrite !Forall_cons_iff in Hb. destruct Hb as (? & ? & ? & ? & ?). rewrite H4 by done.
  apply (loop_post_step c [b0; b1; b2; b3]). apply IH; [|done].
  apply crc_reg_ok; auto 10 using Forall_cons, Forall_nil_2.
Qed.

Lemma loop_post_trans c buf done rest r :
  buf = done ++ rest -> loop_post (crc_reg c done) rest r -> loop_post c buf r.
Proof. intros ->. apply loop_post_step. Qed.

Lemma loop_post_ok c buf done rest :
  word_ok c -> Forall byte_ok buf -> buf = done ++ rest ->
  word_ok (crc_reg c done) /\ Forall byte_ok rest.
Proof. intros Hc Hb ->. apply Forall_app in Hb as [? ?]. auto using crc_reg_ok. Qed.

Lemma words32_loop_post n c buf :
  word_ok c -> Forall byte_ok buf -> loop_post c buf (words32_loop step4 word n (phi c) buf).
Proof.
  revert c buf. induction n as [|n IH]; intros c buf Hc Hb; [apply loop_post_nil|].
  cbn [words32_loop]. destruct (words_loop_post 8 c buf Hc Hb) as (d & rest & E & ->).
  eapply loop_post_trans; [exact E|]. apply IH; eapply loop_post_ok; eauto.
Qed.

Lemma bytes_loop_reg c buf :
  word_ok c -> Forall byte_ok buf -> bytes_loop step1 (phi c) buf = phi (crc_reg c buf).
Proof.
  intros Hc Hb. revert c Hc. induction Hb as [|b buf Hb0 Hb IH]; intros c Hc; simpl; [done|].
  rewrite H1 by done. apply IH. by apply crc_byte_ok.
Qed.

Lemma words_body_reg addr c buf :
  word_ok c -> Forall byte_ok buf ->
  words_body step1 step4 word addr (phi c) buf = phi (crc_reg c buf).
Proof.
  intros Hc Hb. unfold words_body.
  destruct (align_loop_post addr c buf Hc Hb) as (d1 & r1 & E1 & ->).
  destruct (loop_post_ok c buf d1 r1 Hc Hb E1) as [Hc1 Hb1].
  destruct (words32_loop_post (length r1 / 32) _ r1 Hc1 Hb1) as (d2 & r2 & E2 & ->).
  destruct (loop_post_ok _ r1 d2 r2 Hc1 Hb1 E2) as [Hc2 Hb2].
  destruct (words_loop_post (length r2 / 4) _ r2 Hc2 Hb2) as (d3 & r3 & E3 & ->).
  destruct (loop_post_ok _ r2 d3 r3 Hc2 Hb2 E3) as [Hc3 Hb3].
  rewrite bytes_loop_reg by done. by rewrite E1, E2, E3, !crc_reg_app.
Qed.
End words_loops.

Lemma crc_not_lxor c : word_ok c -> crc_not c = c .^ 0xffffffff.
Proof.
  intros Hc. unfold crc_not, u32. rewrite <- Z.land_ones by lia.
  apply Z.bits_inj'. intros i Hi. rewrite Z.land_spec, Z.lnot_spec, Z.lxor_spec by lia.
  change 0xffffffff with (Z.ones 32).
  destruct (Z.ltb_spec i 32).
  - rewrite Z.ones_spec_low by lia. by destruct (Z.testbit c i).
  - rewrite Z.ones_spec_high, (testbit_high c 32) by (done || lia). done.
Qed.

Lemma ones_ok : word_ok 0xffffffff.
Proof. unfold word_ok. lia. Qed.

Lemma do1_loop_reg c buf : Forall byte_ok buf -> do1_loop c buf = crc_reg c buf.
Proof.
  intros Hb. revert c. induction Hb as [|b buf Hb0 Hb IH]; intros c; simpl; [done|].
  rewrite DO1_byte by done. apply IH.
Qed.

Lemma DO8_post n c buf : Forall byte_ok buf -> loop_post (fun x => x) c buf (DO8 n c buf).
Proof.
  revert c buf. induction n as [|n IH]; intros c buf Hb; [apply loop_post_nil|].
  destruct buf as [|b buf]; [apply loop_post_nil|]. rewrite Forall_cons_iff in Hb. destruct Hb as [Hb0 Hb].
  cbn [DO8]. rewrite DO1_byte by done. apply (loop_post_step _ c [b]). by apply IH.
Qed.

Lemma do8_loop_post n c buf : Forall byte_ok buf -> loop_post (fun x => x) c buf (do8_loop n c buf).
Proof.
  revert c buf. induction n as [|n IH]; intros c buf Hb; [apply loop_post_nil|].
  cbn [do8_loop]. destruct (DO8_post 8 c buf Hb) as (d & r & E & ->).
  eapply loop_post_trans; [exact E|]. apply IH. rewrite E in Hb. by apply Forall_app in Hb as [_ ?].
Qed.

Section crc32_variants.
Context (crc : Z) (buf : list Z) (Hc : word_ok crc) (Hb : Forall byte_ok buf).

Lemma crc_start_ok : word_ok (crc .^ 0xffffffff).
Proof. apply word_lxor; [done|apply ones_ok]. Qed.
Lemma crc_end_ok : word_ok (crc_reg (crc .^ 0xffffffff) buf).
Proof. apply crc_reg_ok; [apply crc_start_ok|done]. Qed.

Lemma crc32_bytewise_spec : crc32_bytewise crc buf = crc_spec crc buf.
Proof.
  unfold crc32_bytewise, crc_spec.
  destruct (do8_loop_post (length buf / 8) (crc .^ 0xffffffff) buf Hb) as (d & r & E & ->).
  rewrite do1_loop_reg by (rewrite E in Hb; by apply Forall_app in Hb as [_ ?]).
  by rewrite E, crc_reg_app.
Qed.

Lemma crc32_little_spec addr : crc32_little crc addr buf = crc_spec crc buf.
Proof.
  unfold crc32_little. rewrite (u32_small crc Hc), (crc_not_lxor crc Hc).
  rewrite (words_body_reg DO1 DOLIT4 word_le (fun x => x));
    auto using DO1_byte, DOLIT4_reg, crc_start_ok.
  apply crc_not_lxor, crc_end_ok.
Qed.

Lemma ZSWAP32_not c : word_ok c -> crc_not (ZSWAP32 c) = ZSWAP32 (c .^ 0xffffffff).
Proof.
  intros H. rewrite crc_not_lxor, ZSWAP32_lxor by auto using ZSWAP32_ok, ones_ok. done.
Qed.

Lemma crc32_big_spec addr : crc32_big crc addr buf = crc_spec crc buf.
Proof.
  unfold crc32_big. rewrite (u32_small crc Hc), (ZSWAP32_not crc Hc).
  rewrite (words_body_reg DOBIG1 DOBIG4 word_be ZSWAP32);
    auto using DOBIG1_byte, DOBIG4_reg, crc_start_ok.
  rewrite ZSWAP32_not by apply crc_end_ok.
  apply ZSWAP32_invol, word_lxor; [apply crc_end_ok|apply ones_ok].
Qed.

Lemma crc32_on_spec m : crc32_on m crc (Some buf) = crc_spec crc buf.
Proof.
  unfold crc32_on. destruct (byfour m), (little_endian m);
    auto using crc32_little_spec, crc32_big_spec, crc32_bytewise_spec.
Qed.
End crc32_variants.

Lemma lxor_ones_ones c : c .^ 0xffffffff .^ 0xffffffff = c.
Proof. by rewrite Z.lxor_assoc, Z.lxor_nilpotent, Z.lxor_0_r. Qed.

Lemma crc_spec_app crc x y : crc_spec crc (x ++ y) = crc_spec (crc_spec crc x) y.
Proof. unfold crc_spec. by rewrite crc_reg_app, lxor_ones_ones. Qed.

Lemma crc_spec_ok crc buf : word_ok crc -> Forall byte_ok buf -> word_ok (crc_spec crc buf).
Proof.
  intros Hc Hb. apply word_lxor; [|apply ones_ok]. apply crc_reg_ok; [|done].
  apply word_lxor; [done|apply ones_ok].
Qed.

(** C23. every variant of [crc32] -- byte-wise, word-at-a-time on little- and on big-endian machines,
    at any buffer alignment -- with the tables of [crc32.h] computes the CRC-32 of the polynomial
    [make_crc_table] names, a bit at a time; and the CRC can be computed piecewise. *)
Theorem crc32_correct (m : machine) (crc : Z) (x y : list Z) :
  word_ok crc -> Forall byte_ok x -> Forall byte_ok y ->
  crc32_on m crc (Some x) = crc_spec crc x /\
  word_ok (crc32_on m crc (Some x)) /\
  crc32_on m (crc32_on m crc (Some x)) (Some y) = crc32_on m crc (Some (x ++ y)).
Proof.
  intros Hc Hx Hy. assert (Hs := crc_spec_ok crc x Hc Hx).
  rewrite !crc32_on_spec, <- crc_spec_app by auto using Forall_app_2. auto.
Qed.

Lemma crc32_correct_witness :
  word_ok 0 /\ crc32_on {| byfour := true; little_endian := false; buf_addr := 3 |} 0 (Some [49; 50]) = crc_spec 0 [49; 50].
Proof.
  split; [split; vm_compute; congruence|].
  refine (proj1 (crc32_correct _ 0 [49; 50] [51] _ _ _));
    [split; vm_compute; congruence|apply bytes_check; reflexivity..].
Defined.


(** ** Matrices represent powers of the register's shift *)
Definition represents (mat : list Z) (f : Z -> Z) : Prop :=
  length mat = GF2_DIM /\ forall i, (i < GF2_DIM)%nat -> mat !! i = Some (f (1 ≪ Z.of_nat i)).

Definition linear (f : Z -> Z) : Prop := f 0 = 0 /\ forall a b, f (a .^ b) = f a .^ f b.

Lemma linear_iter n : linear (Nat.iter n crc_shift).
Proof. split; [apply iter_0|intros; apply iter_lxor]. Qed.

Lemma split_bit0 v : v = (if nz (v .& 1) then 1 else 0) .^ ((v ≫ 1) ≪ 1).
Proof.
  rewrite (land_mask v 1 ltac:(lia) : v .& 1 = _). change (2 ^ 1) with 2.
  assert (E : (if nz (v mod 2) then 1 else 0) = v mod 2).
  { unfold nz. destruct (Z.eqb_spec (v mod 2) 0); simpl; dlia. }
  rewrite E. rewrite lxor_lor_disjoint, lor_shiftl_add, Z.shiftr_div_pow2 by dlia. dlia.
Qed.

Lemma gf2_matrix_times_linear f mat vec sum k :
  linear f -> 0 <= vec < 2 ^ Z.of_nat (length mat) ->
  (forall i, (i < length mat)%nat -> mat !! i = Some (f (1 ≪ Z.of_nat (k + i)))) ->
  gf2_matrix_times_loop mat vec sum = Some (sum .^ f (vec ≪ Z.of_nat k)).
Proof.
  intros [F0 Fx]. revert vec sum k. induction mat as [|m mat IH]; intros vec sum k Hv Hm; simpl.
  - change (2 ^ _) with 1 in Hv. replace vec with 0 by lia. simpl. by rewrite Z.shiftl_0_l, F0, Z.lxor_0_r.
  - destruct (nz vec) eqn:E.
    2:{ apply nz_false in E as ->. by rewrite Z.shiftl_0_l, F0, Z.lxor_0_r. }
    cbn [length] in Hv. rewrite Nat2Z.inj_succ, Z.pow_succ_r in Hv by lia.
    rewrite (IH _ _ (S k)).
    + assert (Hm0 := Hm 0%nat ltac:(simpl; lia)). injection Hm0 as ->. rewrite Nat.add_0_r.
      rewrite (split_bit0 vec) at 3. rewrite Z.shiftl_lxor, Fx, Z.shiftl_shiftl by lia.
      replace (1 + Z.of_nat k) with (Z.of_nat (S k)) by lia.
      destruct (nz (vec .& 1)); [by rewrite Z.lxor_assoc|]. by rewrite Z.shiftl_0_l, F0, Z.lxor_0_l.
    + rewrite Z.shiftr_div_pow2 by lia. change (2 ^ 1) with 2. dlia.
    + intros i Hi. specialize (Hm (S i) ltac:(simpl; lia)). simpl in Hm. rewrite Hm.
      do 4 f_equal. lia.
Qed.

Lemma represents_times mat f vec :
  represents mat f -> linear f -> word_ok vec -> gf2_matrix_times mat vec = Some (f vec).
Proof.
  intros [Hl Hm] Hf Hv. unfold gf2_matrix_times.
  rewrite (gf2_matrix_times_linear f mat vec 0 0 Hf); by rewrite ?Hl.
Qed.

Lemma pow2_word i : (i < GF2_DIM)%nat -> word_ok (1 ≪ Z.of_nat i).
Proof.
  unfold GF2_DIM, word_ok. intros Hi. rewrite Z.shiftl_1_l. split; [lia|].
  apply Z.pow_lt_mono_r; lia.
Qed.

Lemma represents_square mat n :
  represents mat (Nat.iter n crc_shift) ->
  exists sq, gf2_matrix_square mat = Some sq /\ represents sq (Nat.iter (n + n) crc_shift).
Proof.
  intros Hr. assert (Hr' := Hr). destruct Hr as [Hl Hm].
  exists ((fun i => Nat.iter (n + n) crc_shift (1 ≪ Z.of_nat i)) <$> seq 0 GF2_DIM). split; [|split].
  - unfold gf2_matrix_square. apply mapM_Some_2, Forall2_fmap_r, Forall_Forall2_diag, Forall_forall.
    intros i Hi. apply in_seq in Hi. rewrite Hm by lia. simpl.
    rewrite (represents_times _ _ _ Hr'), iter_add; [done|apply linear_iter|].
    apply iter_ok, pow2_word. lia.
  - by rewrite length_fmap, length_seq.
  - intros i Hi. rewrite list_lookup_fmap, lookup_seq_lt by done. done.
Qed.

Lemma odd_init_represents : represents odd_init (Nat.iter 1 crc_shift).
Proof.
  split; [vm_compute; reflexivity|]. intros i Hi. unfold GF2_DIM in Hi.
  do 32 (destruct i as [|i]; [vm_compute; reflexivity|]). lia.
Qed.

(** One half round of [combine_loop]: square, and apply the operator if the bit is set. *)
Lemma combine_half n f mat crc len :
  represents mat (Nat.iter n crc_shift) -> word_ok crc -> (f = n + n)%nat ->
  exists sq, gf2_matrix_square mat = Some sq /\ represents sq (Nat.iter f crc_shift) /\
    (if nz (len .& 1) then gf2_matrix_times sq crc else Some crc) =
    Some (Nat.iter (f * Z.to_nat (len mod 2)) crc_shift crc).
Proof.
  intros Hr Hc ->. destruct (represents_square _ _ Hr) as (sq & Hs & Hrs). exists sq.
  split; [done|]. split; [done|].
  rewrite (land_mask len 1 ltac:(lia) : len .& 1 = _). change (2 ^ 1) with 2.
  unfold nz. destruct (Z.eqb_spec (len mod 2) 0) as [->|E]; simpl; [by rewrite Nat.mul_0_r|].
  replace (len mod 2) with 1 by dlia. rewrite Nat.mul_1_r.
  apply represents_times; auto using linear_iter.
Qed.

Lemma iter_half n len crc :
  0 < len ->
  Nat.iter (n * 2 * Z.to_nat (len / 2)) crc_shift (Nat.iter (n * Z.to_nat (len mod 2)) crc_shift crc) =
  Nat.iter (n * Z.to_nat len) crc_shift crc.
Proof. intros Hl. rewrite iter_add. f_equal. rewrite <- Nat.mul_assoc, <- Nat.mul_add_distr_l. f_equal. dlia. Qed.

Lemma combine_loop_iter fuel odd n crc len :
  represents odd (Nat.iter n crc_shift) -> word_ok crc -> 0 < len < 2 ^ (2 * Z.of_nat fuel) ->
  combine_loop fuel odd crc len = Some (Nat.iter (2 * n * Z.to_nat len) crc_shift crc).
Proof.
  revert odd n crc len. induction fuel as [|fuel IH]; intros odd n crc len Hr Hc Hl.
  { change (2 ^ _) with 1 in Hl. lia. }
  cbn [combine_loop].
  destruct (combine_half n (2 * n) odd crc len Hr Hc ltac:(lia)) as (ev & -> & Hev & E1). cbn [mbind option_bind].
  rewrite E1. cbn [mbind option_bind]. rewrite Z.shiftr_div_pow2 by lia. change (2 ^ 1) with 2.
  set (crc' := Nat.iter _ _ crc). assert (Hc' : word_ok crc') by (by apply iter_ok).
  destruct (Z.eqb_spec (len / 2) 0) as [Z1|Z1].
  { f_equal. unfold crc'. do 2 f_equal. dlia. }
  destruct (combine_half (2 * n) (2 * n * 2) ev crc' (len / 2) Hev Hc' ltac:(lia)) as (od & -> & Hod & E2).
  cbn [mbind option_bind]. rewrite E2. cbn [mbind option_bind].
  rewrite Z.shiftr_div_pow2 by lia. change (2 ^ 1) with 2.
  rewrite <- (iter_half (2 * n) len crc) by lia. fold crc'.
  rewrite <- (iter_half (2 * n * 2) (len / 2) crc') by dlia.
  destruct (Z.eqb_spec (len / 2 / 2) 0) as [Z2|Z2].
  { rewrite Z2. by rewrite Nat.mul_0_r. }
  rewrite (IH _ (2 * n * 2)%nat); [..|by apply iter_ok|].
  - do 2 f_equal. lia.
  - done.
  - rewrite Nat2Z.inj_succ in Hl. replace (2 * Z.succ (Z.of_nat fuel)) with (2 * Z.of_nat fuel + 2) in Hl by lia.
    rewrite Z.pow_add_r in Hl by lia. change (2 ^ 2) with 4 in Hl. dlia.
Qed.

Lemma crc_reg_split c buf : crc_reg c buf = Nat.iter (8 * length buf) crc_shift c .^ crc_reg 0 buf.
Proof.
  revert c. unfold crc_reg. induction buf as [|b buf IH] using rev_ind; intros c; [by rewrite Z.lxor_0_r|].
  rewrite !foldl_app. cbn [foldl]. rewrite IH. unfold crc_byte.
  rewrite Z.lxor_assoc, iter_lxor. rewrite iter_add, length_app. f_equal.
  f_equal. simpl. lia.
Qed.

Lemma crc_combine_spec x y crc :
  word_ok crc -> Forall byte_ok x -> Z.of_nat (length y) < 2 ^ 63 ->
  crc32_combine (crc_spec crc x) (crc_spec 0 y) (Z.of_nat (length y)) = Some (crc_spec crc (x ++ y)).
Proof.
  intros Hc Hx Hy. unfold crc32_combine, crc32_combine_.
  destruct (Z.leb_spec (Z.of_nat (length y)) 0) as [Hz|Hz].
  { destruct y; [|simpl in Hz; lia]. by rewrite app_nil_r. }
  destruct (represents_square _ _ odd_init_represents) as (ev & -> & Hev). cbn [mbind option_bind].
  destruct (represents_square _ _ Hev) as (od & -> & Hod). cbn [mbind option_bind].
  rewrite (combine_loop_iter 32 od 4); [|done|by apply crc_spec_ok|change (2 * Z.of_nat 32) with 64; lia].
  cbn [mbind option_bind]. f_equal. rewrite crc_spec_app. generalize (crc_spec crc x) as c. intros c. unfold crc_spec.
  rewrite Nat2Z.id, Z.lxor_0_l, (crc_reg_split (c .^ _) y), (crc_reg_split 0xffffffff y), iter_lxor.
  by rewrite !Z.lxor_assoc.
Qed.

(** C25. [crc32_combine] of the CRCs of two buffers is the CRC of their concatenation: the matrix
    products never read outside a matrix, and the loop ends for every length of a [z_off64_t]. *)
Theorem crc32_combine_correct (m : machine) (crc : Z) (x y : list Z) :
  word_ok crc -> Forall byte_ok x -> Forall byte_ok y -> Z.of_nat (length y) < 2 ^ 63 ->
  crc32_combine (crc32_on m crc (Some x)) (crc32_on m 0 (Some y)) (Z.of_nat (length y)) =
  Some (crc32_on m crc (Some (x ++ y))).
Proof.
  intros Hc Hx Hy Hl. assert (H0 : word_ok 0) by (unfold word_ok; lia).
  rewrite !crc32_on_spec by auto using Forall_app_2. by apply crc_combine_spec.
Qed.

Lemma crc32_combine_correct_witness :
  crc32_combine (crc32 0 (Some [49; 50])) (crc32 0 (Some [51])) 1 = Some (crc32 0 (Some [49; 50; 51])).
Proof.
  refine (crc32_combine_correct _ 0 [49; 50] [51] _ _ _ _);
    [split; vm_compute; congruence|apply bytes_check; reflexivity..|vm_compute; reflexivity].
Defined.
