(* ===== verification/Huffman.v ===== *)
(** Canonical Huffman codes, the contract between the decoder's tables ([InfTrees]) and the
    encoder's codes ([Trees]).

    Symbols are ordered by code length, then by value; the codes are consecutive. Aligned to 15 bits,
    the code of the [k]-th symbol is the interval [[pos k, pos (k+1))], whose length is the weight of
    its code length. *)
From S2P Require Import Prelude Bits.

Definition weight (l : Z) : Z := 2 ^ (15 - l).

(** The symbols of code length [l], numbered from [i]. *)
Fixpoint syms_of (l i : Z) (lens : list Z) : list Z :=
  match lens with
  | [] => []
  | x :: lens => if x =? l then i :: syms_of l (i + 1) lens else syms_of l (i + 1) lens
  end.

(** The code: symbols with their lengths, in canonical order. *)
Definition canon_from (a : Z) (n : nat) (lens : list Z) : list (Z * Z) :=
  flat_map (fun l => (fun s => (s, l)) <$> syms_of l 0 lens) (seqZ a (Z.of_nat n)).
Definition canon (lens : list Z) : list (Z * Z) := canon_from 1 15 lens.

Definition kraft (cs : list (Z * Z)) : Z := foldr (fun sl acc => weight sl.2 + acc) 0 cs.

Definition pos (cs : list (Z * Z)) (k : nat) : Z := kraft (take k cs).

(** The symbol whose interval, from position [p], contains [v]. *)
Fixpoint find_sym (cs : list (Z * Z)) (p v : Z) : option (Z * Z) :=
  match cs with
  | [] => None
  | sl :: cs => if v <? p + weight sl.2 then Some sl else find_sym cs (p + weight sl.2) v
  end.

(** Decoding a symbol from a stream: [h] holds the next bits, the first in the lowest position. *)
Definition huff_decode (lens : list Z) (h : Z) : option (Z * Z) := find_sym (canon lens) 0 (rev 15 h).

(** ** Weights and positions *)
Lemma weight_pos l : l <= 15 -> 0 < weight l.
Proof. intros. apply pow2_pos. lia. Qed.

Lemma weight_divide l l' : l <= l' <= 15 -> (weight l' | weight l).
Proof.
  intros H. exists (2 ^ (l' - l)). unfold weight. rewrite <- Z.pow_add_r by lia. f_equal. lia.
Qed.

Lemma weight_le l l' : l <= l' <= 15 -> weight l' <= weight l.
Proof. intros. apply Z.pow_le_mono_r; lia. Qed.

Lemma kraft_app x y : kraft (x ++ y) = kraft x + kraft y.
Proof. induction x as [|[s l] x IH]; simpl; [done|]. rewrite IH. lia. Qed.

Lemma pos_0 cs : pos cs 0 = 0.
Proof. done. Qed.

Lemma pos_S cs k s l : cs !! k = Some (s, l) -> pos cs (S k) = pos cs k + weight l.
Proof. intros H. unfold pos. erewrite take_S_r by done. rewrite kraft_app. simpl. lia. Qed.

Definition lens_ok (cs : list (Z * Z)) : Prop := Forall (fun sl => 1 <= sl.2 <= 15) cs.

Lemma kraft_nonneg cs : lens_ok cs -> 0 <= kraft cs.
Proof.
  induction 1 as [|[s l] cs H _ IH]; simpl in *; [lia|]. pose proof (weight_pos l). lia.
Qed.

Lemma pos_mono cs j k : lens_ok cs -> (j <= k)%nat -> pos cs j <= pos cs k.
Proof.
  intros Hl Hjk. unfold pos. replace k with (j + (k - j))%nat by lia.
  rewrite <- take_take_drop, kraft_app.
  assert (0 <= kraft (take (k - j) (drop j cs))) by (apply kraft_nonneg; by apply Forall_take, Forall_drop).
  lia.
Qed.

Lemma pos_le_kraft cs k : lens_ok cs -> pos cs k <= kraft cs.
Proof.
  intros Hl. unfold pos. rewrite <- (take_drop k cs) at 2. rewrite kraft_app.
  assert (0 <= kraft (drop k cs)) by (apply kraft_nonneg; by apply Forall_drop). lia.
Qed.

Lemma lens_ok_lookup cs k s l : lens_ok cs -> cs !! k = Some (s, l) -> 1 <= l <= 15.
Proof. intros Hl Hk. apply (Forall_lookup_1 _ _ _ _ Hl Hk). Qed.

(** [find_sym] finds the interval. *)
Lemma find_sym_from cs p v k sl :
  lens_ok cs -> cs !! k = Some sl -> p + pos cs k <= v < p + pos cs (S k) -> find_sym cs p v = Some sl.
Proof.
  revert p k. induction cs as [|[s l] cs IH]; intros p k Hl Hk Hv; [done|].
  apply Forall_cons_iff in Hl as [Hl0 Hl]. simpl in Hl0. simpl find_sym. cbn [snd].
  destruct k as [|k]; simpl in Hk.
  - injection Hk as <-. unfold pos in Hv. simpl in Hv.
    destruct (Z.ltb_spec v (p + weight l)); [done|lia].
  - assert (H0 : 0 <= pos cs k) by (apply kraft_nonneg; by apply Forall_take).
    unfold pos in Hv, H0. cbn [take] in Hv. simpl in Hv.
    destruct (Z.ltb_spec v (p + weight l)); [lia|].
    eapply IH; [done..|]. unfold pos. lia.
Qed.

Lemma find_sym_pos cs v k sl :
  lens_ok cs -> cs !! k = Some sl -> pos cs k <= v < pos cs (S k) -> find_sym cs 0 v = Some sl.
Proof. intros. eapply find_sym_from; [done..|]. lia. Qed.

(** ** Sorted codes *)
Definition sorted (cs : list (Z * Z)) : Prop :=
  forall j k s l s' l', (j <= k)%nat -> cs !! j = Some (s, l) -> cs !! k = Some (s', l') -> l <= l'.

Lemma pos_aligned cs k s l :
  lens_ok cs -> sorted cs -> cs !! k = Some (s, l) -> (weight l | pos cs k).
Proof.
  intros Hl Hs Hk. unfold pos.
  assert (forall j, (j <= k)%nat -> (weight l | kraft (take j cs))) as H; [|by apply H].
  induction j as [|j IH]; intros Hj; [exists 0; done|].
  destruct (lookup_lt_is_Some_2 cs j) as [[s' l'] Hj'].
  { apply lookup_lt_Some in Hk. lia. }
  rewrite (pos_S cs j s' l' Hj' : kraft (take (S j) cs) = _). apply Z.divide_add_r; [apply IH; lia|].
  apply weight_divide. pose proof (lens_ok_lookup _ _ _ _ Hl Hk).
  assert (l' <= l) by (eapply Hs; [|done..]; lia). lia.
Qed.

(** ** Prefixes of reversed positions *)
Lemma rev15_prefix x y l :
  0 <= l <= 15 -> 0 <= x < 2 ^ 15 -> 0 <= y < 2 ^ 15 ->
  rev 15 x mod 2 ^ l = rev 15 y mod 2 ^ l <-> x / weight l = y / weight l.
Proof.
  intros Hl Hx Hy. pose proof (rev_low_eq 15 (Z.to_nat l) x y ltac:(lia) Hx Hy) as H.
  rewrite Z2Nat.id in H by lia. rewrite H. unfold weight. by replace (Z.of_nat (15 - Z.to_nat l)) with (15 - l) by lia.
Qed.

Lemma rev15_range x : 0 <= rev 15 x < 2 ^ 15.
Proof. apply rev_range. Qed.

(** [h] starts with the code word of the aligned position [p] iff its reversal is in its interval. *)
Lemma rev15_interval h p l :
  1 <= l <= 15 -> 0 <= h < 2 ^ 15 -> 0 <= p < 2 ^ 15 -> (weight l | p) ->
  h mod 2 ^ l = rev 15 p mod 2 ^ l <-> p <= rev 15 h < p + weight l.
Proof.
  intros Hl Hh Hp [q Hq]. assert (Hr := rev15_range h). assert (Hw := weight_pos l ltac:(lia)).
  rewrite <- (rev_invol 15 h Hh) at 1. rewrite rev15_prefix by (done || lia).
  rewrite Hq, Z.div_mul by lia. split; intros H.
  - pose proof (Z.div_mod (rev 15 h) (weight l) ltac:(lia)).
    pose proof (Z.mod_pos_bound (rev 15 h) (weight l) Hw). nia.
  - symmetry. apply Z.div_unique with (rev 15 h - q * weight l); lia.
Qed.

(** A code word of length [l] has no bits above the first [l]. *)
Lemma rev15_short p l :
  0 <= l <= 15 -> 0 <= p < 2 ^ 15 -> (weight l | p) -> 0 <= rev 15 p < 2 ^ l.
Proof.
  intros Hl Hp [q Hq]. unfold weight in Hq.
  rewrite Hq. replace (15 - l) with (Z.of_nat (15 - Z.to_nat l)) by lia.
  rewrite rev_scale by lia. pose proof (rev_range (Z.to_nat l) q). rewrite Z2Nat.id in H by lia. done.
Qed.

(** ** The canonical order *)
Definition cnt (l : Z) (lens : list Z) : Z := Z.of_nat (length (syms_of l 0 lens)).

Lemma syms_of_app l i xs ys :
  syms_of l i (xs ++ ys) = syms_of l i xs ++ syms_of l (i + Z.of_nat (length xs)) ys.
Proof.
  revert i. induction xs as [|x xs IH]; intros i; simpl.
  - f_equal. lia.
  - rewrite IH. replace (i + 1 + Z.of_nat (length xs)) with (i + Z.of_nat (S (length xs))) by lia.
    by destruct (x =? l).
Qed.

Lemma length_syms_of l i j lens : length (syms_of l i lens) = length (syms_of l j lens).
Proof.
  revert i j. induction lens as [|x lens IH]; intros i j; simpl; [done|].
  destruct (x =? l); simpl; [f_equal|]; apply IH.
Qed.

Lemma cnt_app l xs ys : cnt l (xs ++ ys) = cnt l xs + cnt l ys.
Proof. unfold cnt. rewrite syms_of_app, length_app, (length_syms_of _ (0 + _) 0 ys). lia. Qed.
Lemma cnt_cons l x xs : cnt l (x :: xs) = (if x =? l then 1 else 0) + cnt l xs.
Proof.
  unfold cnt. cbn [syms_of]. pose proof (length_syms_of l (0 + 1) 0 xs).
  destruct (x =? l); cbn [length]; lia.
Qed.
Lemma cnt_nonneg l xs : 0 <= cnt l xs.
Proof. unfold cnt. lia. Qed.
Lemma cnt_le l xs : cnt l xs <= Z.of_nat (length xs).
Proof.
  induction xs as [|x xs IH]; [done|]. rewrite cnt_cons. simpl length. destruct (x =? l); lia.
Qed.

Lemma elem_of_syms_of s l i lens :
  In s (syms_of l i lens) <-> i <= s /\ aget lens (s - i) = Some l.
Proof.
  revert i. induction lens as [|x lens IH]; intros i; cbn [syms_of].
  - split; [done|]. intros [_ H%aget_Some]. simpl in H. lia.
  - assert (Hstep : i + 1 <= s -> aget (x :: lens) (s - i) = aget lens (s - (i + 1))).
    { intros Hs. unfold aget. destruct (Z.leb_spec 0 (s - i)), (Z.leb_spec 0 (s - (i + 1))); try lia.
      by replace (Z.to_nat (s - i)) with (S (Z.to_nat (s - (i + 1)))) by lia. }
    assert (H0 : s = i -> aget (x :: lens) (s - i) = Some x) by (intros ->; by rewrite Z.sub_diag).
    destruct (Z.eqb_spec x l) as [->|Hx]; simpl; rewrite IH; split.
    + intros [->|[Hs Hl]]; [split; [lia|by apply H0]|]. rewrite Hstep by lia. split; [lia|done].
    + intros [Hs Hl]. destruct (Z.eq_dec s i) as [->|]; [by left|right]. rewrite Hstep in Hl by lia. split; [lia|done].
    + intros [Hs Hl]. rewrite Hstep by lia. split; [lia|done].
    + intros [Hs Hl]. destruct (Z.eq_dec s i) as [->|]; [rewrite H0 in Hl by done; congruence|].
      rewrite Hstep in Hl by lia. split; [lia|done].
Qed.

Lemma canon_from_S a n lens :
  canon_from a (S n) lens = ((fun s => (s, a)) <$> syms_of a 0 lens) ++ canon_from (a + 1) n lens.
Proof.
  unfold canon_from. rewrite seqZ_cons by lia. cbn [flat_map].
  by replace (Z.pred (Z.of_nat (S n))) with (Z.of_nat n) by lia.
Qed.

Lemma elem_of_canon_from a n lens s l :
  In (s, l) (canon_from a n lens) <-> a <= l < a + Z.of_nat n /\ 0 <= s /\ aget lens s = Some l.
Proof.
  unfold canon_from. rewrite in_flat_map. split.
  - intros (l' & Hl & Hin). apply list_elem_of_In, elem_of_seqZ in Hl.
    apply in_map_iff in Hin as (s' & [= -> ->] & Hs). apply elem_of_syms_of in Hs as [? Hg].
    rewrite Z.sub_0_r in Hg. auto.
  - intros (Hl & Hs & Hg). exists l. split; [apply list_elem_of_In, elem_of_seqZ; lia|].
    apply in_map_iff. exists s. split; [done|]. apply elem_of_syms_of. by rewrite Z.sub_0_r.
Qed.

Lemma canon_lens_ok lens : lens_ok (canon lens).
Proof.
  apply Forall_forall. intros [s l] Hin. apply elem_of_canon_from in Hin as (? & _). simpl. lia.
Qed.

Lemma canon_from_sorted a n lens : sorted (canon_from a n lens).
Proof.
  revert a. induction n as [|n IH]; intros a j k s l s' l' Hjk Hj Hk; [done|].
  rewrite canon_from_S in Hj, Hk.
  assert (Hge : forall k s' l', canon_from (a + 1) n lens !! k = Some (s', l') -> a + 1 <= l').
  { intros k0 s0 l0 H%list_elem_of_lookup_2. apply list_elem_of_In, elem_of_canon_from in H. lia. }
  apply lookup_app_Some in Hj as [Hj|[Hjl Hj]], Hk as [Hk|[Hkl Hk]].
  - apply list_lookup_fmap_Some in Hj as (? & [= -> ->] & _), Hk as (? & [= -> ->] & _). lia.
  - apply list_lookup_fmap_Some in Hj as (? & [= -> ->] & _). apply Hge in Hk. lia.
  - apply lookup_lt_Some in Hk. lia.
  - eapply IH; [|done..]. lia.
Qed.

Lemma canon_sorted lens : sorted (canon lens).
Proof. apply canon_from_sorted. Qed.

(** Where the symbols of length [l] start. *)
Definition start (l : Z) (lens : list Z) : Z := foldr (fun l' acc => cnt l' lens + acc) 0 (seqZ 1 (l - 1)).

Lemma start_1 lens : start 1 lens = 0.
Proof. done. Qed.
Lemma start_succ l lens : 1 <= l -> start (l + 1) lens = start l lens + cnt l lens.
Proof.
  intros Hl. unfold start. replace (l + 1 - 1) with ((l - 1) + 1) by lia.
  rewrite seqZ_app by lia. rewrite foldr_app. replace (1 + (l - 1)) with l by lia.
  replace (seqZ l 1) with [l] by (rewrite seqZ_cons by lia; done). cbn [foldr].
  induction (seqZ 1 (l - 1)) as [|x xs IH]; cbn [foldr]; lia.
Qed.
Lemma start_nonneg l lens : 0 <= start l lens.
Proof.
  unfold start. induction (seqZ 1 (l - 1)) as [|x xs IH]; simpl; [lia|]. pose proof (cnt_nonneg x lens). lia.
Qed.

Lemma start_mono a l lens : 1 <= a <= l -> start a lens <= start l lens.
Proof.
  intros H. replace l with (a + Z.of_nat (Z.to_nat (l - a))) by lia.
  induction (Z.to_nat (l - a)) as [|d IH]; [rewrite Z.add_0_r; lia|].
  replace (a + Z.of_nat (S d)) with (a + Z.of_nat d + 1) by lia.
  rewrite (start_succ (a + Z.of_nat d)) by lia. pose proof (cnt_nonneg (a + Z.of_nat d) lens). lia.
Qed.

Lemma canon_from_lookup a n lens l m s :
  1 <= a -> a <= l < a + Z.of_nat n -> syms_of l 0 lens !! m = Some s ->
  canon_from a n lens !! (Z.to_nat (start l lens - start a lens) + m)%nat = Some (s, l).
Proof.
  revert a. induction n as [|n IH]; intros a Ha Hl Hm; [lia|]. rewrite canon_from_S.
  destruct (Z.eq_dec l a) as [->|Hne].
  - rewrite Z.sub_diag. simpl. apply lookup_app_l_Some. rewrite list_lookup_fmap, Hm. done.
  - assert (Hs : start (a + 1) lens = start a lens + cnt a lens) by (apply start_succ; lia).
    assert (Hge : start (a + 1) lens <= start l lens) by (apply start_mono; lia).
    unfold cnt in Hs. rewrite lookup_app_r by (rewrite length_fmap; lia).
    rewrite length_fmap. rewrite <- (IH (a + 1)) by (done || lia). f_equal. lia.
Qed.

Lemma canon_lookup lens l m s :
  1 <= l <= 15 -> syms_of l 0 lens !! m = Some s ->
  canon lens !! (Z.to_nat (start l lens) + m)%nat = Some (s, l).
Proof.
  intros Hl Hm. pose proof (canon_from_lookup 1 15 lens l m s ltac:(lia) ltac:(lia) Hm) as H.
  by rewrite start_1, Z.sub_0_r in H.
Qed.

Lemma canon_from_lookup_inv a n lens k s l :
  1 <= a -> canon_from a n lens !! k = Some (s, l) ->
  exists m, syms_of l 0 lens !! m = Some s /\ Z.of_nat k = start l lens - start a lens + Z.of_nat m.
Proof.
  revert a k. induction n as [|n IH]; intros a k Ha Hk; [done|]. rewrite canon_from_S in Hk.
  apply lookup_app_Some in Hk as [Hk|[Hkl Hk]].
  - apply list_lookup_fmap_Some in Hk as (s' & [= -> ->] & Hk). exists k. split; [done|lia].
  - rewrite length_fmap in *. apply IH in Hk as (m & Hm & E); [|lia]. exists m. split; [done|].
    rewrite start_succ in E by lia. unfold cnt in E. lia.
Qed.

Lemma canon_lookup_inv lens k s l :
  canon lens !! k = Some (s, l) ->
  exists m, syms_of l 0 lens !! m = Some s /\ Z.of_nat k = start l lens + Z.of_nat m.
Proof.
  intros Hk. destruct (canon_from_lookup_inv 1 15 lens k s l ltac:(lia) Hk) as (m & Hm & E).
  exists m. split; [done|]. rewrite E, start_1. lia.
Qed.

(** A symbol of the code is a symbol with its length. *)
Lemma canon_sym lens k s l :
  canon lens !! k = Some (s, l) -> 0 <= s < Z.of_nat (length lens) /\ 1 <= l <= 15 /\ aget lens s = Some l.
Proof.
  intros Hk. apply list_elem_of_lookup_2, list_elem_of_In, elem_of_canon_from in Hk as (Hl & Hs & Hg).
  pose proof (aget_Some _ _ _ Hg). split; [done|]. split; [lia|done].
Qed.

(** How many symbols of a code have length [l]. *)
Definition cntl (l : Z) (cs : list (Z * Z)) : Z := Z.of_nat (length (filter (fun sl => sl.2 = l) cs)).

Lemma cntl_cons l sl cs : cntl l (sl :: cs) = (if sl.2 =? l then 1 else 0) + cntl l cs.
Proof.
  unfold cntl. rewrite filter_cons. destruct (Z.eqb_spec sl.2 l); case_decide; simpl; (done || lia).
Qed.
Lemma cntl_app l x y : cntl l (x ++ y) = cntl l x + cntl l y.
Proof. unfold cntl. rewrite list.filter_app, length_app. lia. Qed.
Lemma cntl_nonneg l cs : 0 <= cntl l cs.
Proof. unfold cntl. lia. Qed.
Lemma cntl_pos l cs k s : cs !! k = Some (s, l) -> 0 < cntl l cs.
Proof.
  intros Hk. rewrite <- (take_drop_middle cs k (s, l) Hk), cntl_app, cntl_cons. cbn [snd].
  rewrite Z.eqb_refl. pose proof (cntl_nonneg l (take k cs)). pose proof (cntl_nonneg l (drop (S k) cs)). lia.
Qed.
Lemma cntl_pos_inv l cs : 0 < cntl l cs -> exists k s, cs !! k = Some (s, l).
Proof.
  induction cs as [|[s l'] cs IH]; [done|]. rewrite cntl_cons. cbn [snd].
  destruct (Z.eqb_spec l' l) as [->|]; [exists 0%nat, s; done|].
  intros H. destruct IH as (k & s' & Hk); [lia|]. exists (S k), s'. done.
Qed.

Lemma cntl_fmap l a (xs : list Z) :
  cntl l ((fun s => (s, a)) <$> xs) = if a =? l then Z.of_nat (length xs) else 0.
Proof.
  induction xs as [|x xs IH]; [by destruct (a =? l)|]. rewrite fmap_cons, cntl_cons, IH. cbn [snd length].
  destruct (a =? l); lia.
Qed.

Lemma cntl_canon_from a n lens l :
  cntl l (canon_from a n lens) = if (a <=? l) && (l <? a + Z.of_nat n) then cnt l lens else 0.
Proof.
  revert a. induction n as [|n IH]; intros a.
  { destruct (Z.leb_spec a l), (Z.ltb_spec l (a + Z.of_nat 0)); simpl; (done || lia). }
  rewrite canon_from_S, cntl_app, cntl_fmap, IH. unfold cnt.
  destruct (Z.eqb_spec a l) as [E|E], (Z.leb_spec a l), (Z.leb_spec (a + 1) l),
    (Z.ltb_spec l (a + 1 + Z.of_nat n)), (Z.ltb_spec l (a + Z.of_nat (S n))); simpl; rewrite ?E; lia.
Qed.

Lemma cntl_canon lens l : 1 <= l <= 15 -> cntl l (canon lens) = cnt l lens.
Proof.
  intros Hl. unfold canon. rewrite cntl_canon_from.
  destruct (Z.leb_spec 1 l), (Z.ltb_spec l (1 + Z.of_nat 15)); simpl; (done || lia).
Qed.

Lemma kraft_fmap a (xs : list Z) : kraft ((fun s => (s, a)) <$> xs) = Z.of_nat (length xs) * weight a.
Proof. induction xs as [|x xs IH]; [done|]. rewrite fmap_cons. cbn [kraft foldr snd length] in *. unfold kraft in IH. lia. Qed.

Lemma kraft_canon_S a n lens :
  kraft (canon_from a (S n) lens) = cnt a lens * weight a + kraft (canon_from (a + 1) n lens).
Proof. by rewrite canon_from_S, kraft_app, kraft_fmap. Qed.

Lemma length_canon lens : Z.of_nat (length (canon lens)) = start 16 lens.
Proof.
  enough (forall n a, 1 <= a -> Z.of_nat (length (canon_from a n lens)) = start (a + Z.of_nat n) lens - start a lens) as H.
  { unfold canon. rewrite H by lia. rewrite start_1. change (1 + Z.of_nat 15) with 16. lia. }
  induction n as [|n IH]; intros a Ha; [rewrite Z.add_0_r; simpl; lia|].
  rewrite canon_from_S, length_app, length_fmap. pose proof (IH (a + 1) ltac:(lia)) as IHa.
  replace (a + Z.of_nat (S n)) with (a + 1 + Z.of_nat n) by lia.
  rewrite start_succ in IHa by lia. unfold cnt in IHa. lia.
Qed.
