(* ===== verification/InfTrees.v ===== *)
(** Model of [src/zlib/inftrees.c] and [inftrees.h]: the construction of the decoding tables of a
    canonical Huffman code. *)
From S2P Require Import Prelude.

(** ** Data *)
Record code := Code { op : Z; bits : Z; val : Z }.

Inductive codetype := CODES | LENS | DISTS.

Definition ENOUGH_LENS : Z := 852.
Definition ENOUGH_DISTS : Z := 592.
Definition ENOUGH : Z := ENOUGH_LENS + ENOUGH_DISTS.
Definition MAXBITS : Z := 15.

Definition lbase : list Z :=
  [3; 4; 5; 6; 7; 8; 9; 10; 11; 13; 15; 17; 19; 23; 27; 31;
   35; 43; 51; 59; 67; 83; 99; 115; 131; 163; 195; 227; 258; 0; 0].
Definition lext : list Z :=
  [16; 16; 16; 16; 16; 16; 16; 16; 17; 17; 17; 17; 18; 18; 18; 18;
   19; 19; 19; 19; 20; 20; 20; 20; 21; 21; 21; 21; 16; 72; 78].
Definition dbase : list Z :=
  [1; 2; 3; 4; 5; 7; 9; 13; 17; 25; 33; 49; 65; 97; 129; 193;
   257; 385; 513; 769; 1025; 1537; 2049; 3073; 4097; 6145;
   8193; 12289; 16385; 24577; 0; 0].
Definition dext : list Z :=
  [16; 16; 16; 16; 17; 17; 18; 18; 19; 19; 20; 20; 21; 21; 22; 22;
   23; 23; 24; 24; 25; 25; 26; 26; 27; 27;
   28; 28; 29; 29; 64; 64].

(** ** Counting and sorting the lengths *)

(** [for (sym = 0; sym < codes; sym++) count[lens[sym]]++;] from [sym], [n] rounds. *)
Fixpoint count_lens (n : nat) (sym : Z) (lens count : list Z) : option (list Z) :=
  match n with
  | O => Some count
  | S n =>
      l ← aget lens sym;
      c ← aget count l;
      count ← aset count l (u16 (c + 1));
      count_lens n (sym + 1) lens count
  end.

(** [for (max = MAXBITS; max >= 1; max--) if (count[max] != 0) break;] *)
Fixpoint find_max (max : nat) (count : list Z) : option Z :=
  match max with
  | O => Some 0
  | S max' =>
      c ← count !! max;
      if nz c then Some (Z.of_nat max) else find_max max' count
  end.

(** [for (min = 1; min < max; min++) if (count[min] != 0) break;] *)
Fixpoint find_min (n : nat) (min max : Z) (count : list Z) : option Z :=
  match n with
  | O => Some min
  | S n =>
      if min <? max then
        c ← aget count min;
        if nz c then Some min else find_min n (min + 1) max count
      else Some min
  end.

(** The check for an over-subscribed set; [inr left] at the end of the loop, [inl (-1)] for the
    early return. *)
Fixpoint check_left (n : nat) (len left : Z) (count : list Z) : option (Z + Z) :=
  match n with
  | O => Some (inr left)
  | S n =>
      c ← aget count len;
      let left := left * 2 - c in
      if left <? 0 then Some (inl (-1)) else check_left n (len + 1) left count
  end.

(** [for (len = 1; len < MAXBITS; len++) offs[len + 1] = offs[len] + count[len];] *)
Fixpoint make_offs (n : nat) (len : Z) (offs count : list Z) : option (list Z) :=
  match n with
  | O => Some offs
  | S n =>
      o ← aget offs len;
      c ← aget count len;
      offs ← aset offs (len + 1) (u16 (o + c));
      make_offs n (len + 1) offs count
  end.

(** [for (...) if (lens[sym] != 0) work[offs[lens[sym]]++] = (unsigned short)sym;] *)
Fixpoint sort_syms (n : nat) (sym : Z) (lens offs work : list Z) : option (list Z) :=
  match n with
  | O => Some work
  | S n =>
      l ← aget lens sym;
      if nz l then
        o ← aget offs l;
        work ← aset work o (u16 sym);
        offs ← aset offs l (u16 (o + 1));
        sort_syms n (sym + 1) lens offs work
      else sort_syms n (sym + 1) lens offs work
  end.

(** ** Filling the tables *)

Definition type_end (type : codetype) : Z :=
  match type with CODES => 19 | LENS => 256 | DISTS => -1 end.

(** [extra[sym]] and [base[sym]] of the code type (not read for [CODES]). *)
Definition type_extra (type : codetype) (sym : Z) : option Z :=
  match type with
  | CODES => None
  | LENS => aget lext (sym - 257)
  | DISTS => aget dext sym
  end.
Definition type_base (type : codetype) (sym : Z) : option Z :=
  match type with
  | CODES => None
  | LENS => aget lbase (sym - 257)
  | DISTS => aget dbase sym
  end.

(** create table entry *)
Definition make_entry (type : codetype) (sym bits : Z) : option code :=
  if sym <? type_end type then Some {| op := 0; bits := bits; val := sym |}
  else if type_end type <? sym then
    e ← type_extra type sym;
    b ← type_base type sym;
    Some {| op := e; bits := bits; val := b |}
  else Some {| op := 32 + 64; bits := bits; val := 0 |}.

(** [do { fill -= incr; next[(huff >> drop) + fill] = here; } while (fill != 0);]; [i] is the index
    in the array of [next[huff >> drop]]. *)
Fixpoint fill_loop (fuel : nat) (tbl : list code) (i fill incr : Z) (here : code) : option (list code) :=
  match fuel with
  | O => None
  | S fuel =>
      let fill := fill - incr in
      tbl ← aset tbl (i + fill) here;
      if fill =? 0 then Some tbl else fill_loop fuel tbl i fill incr here
  end.

(** [while (huff & incr) incr >>= 1;] *)
Fixpoint incr_loop (fuel : nat) (huff incr : Z) : Z :=
  match fuel with
  | O => incr
  | S fuel => if nz (huff .& incr) then incr_loop fuel huff (incr ≫ 1) else incr
  end.

(** backwards increment the len-bit code huff *)
Definition backwards_increment (huff len : Z) : Z :=
  let incr := incr_loop (Z.to_nat len) huff (1 ≪ (len - 1)) in
  if nz incr then (huff .& (incr - 1)) + incr else 0.

(** determine length of next table *)
Fixpoint next_curr (fuel : nat) (curr drop left max : Z) (count : list Z) : option Z :=
  match fuel with
  | O => None
  | S fuel =>
      if curr + drop <? max then
        c ← aget count (curr + drop);
        let left := left - c in
        if left <=? 0 then Some curr else next_curr fuel (curr + 1) drop (left * 2) max count
      else Some curr
  end.

(** [(type == LENS && used > ENOUGH_LENS) || (type == DISTS && used > ENOUGH_DISTS)] *)
Definition not_enough (type : codetype) (used : Z) : bool :=
  match type with
  | CODES => false
  | LENS => ENOUGH_LENS <? used
  | DISTS => ENOUGH_DISTS <? used
  end.

(** The variables of the main loop. [next] is an index of the array [tbl] that [*table] points
    into. *)
Record tstate := TState {
  t_tbl : list code; t_count : list Z;
  t_huff : Z; t_sym : Z; t_len : Z; t_next : Z; t_curr : Z; t_drop : Z; t_low : Z; t_used : Z }.

Section main_loop.
Context (type : codetype) (lens work : list Z) (table root max : Z).
Let mask : Z := (1 ≪ root) - 1.

(** create new sub-table: lines 261 to 288; [inl] is the early return, with the tables
    written so far. *)
Definition new_subtable (s : tstate) : option (Z * list code + tstate) :=
  let min := 1 ≪ t_curr s in
  let drop := if t_drop s =? 0 then root else t_drop s in
  let next := t_next s + min in
  curr ← next_curr 16 (t_len s - drop) drop (1 ≪ (t_len s - drop)) max (t_count s);
  let used := t_used s + (1 ≪ curr) in
  if not_enough type used then Some (inl (1, t_tbl s)) else
  let low := t_huff s .& mask in
  tbl ← aset (t_tbl s) (table + low) {| op := u8 curr; bits := u8 root; val := u16 (next - table) |};
  Some (inr {| t_tbl := tbl; t_count := t_count s; t_huff := t_huff s; t_sym := t_sym s;
               t_len := t_len s; t_next := next; t_curr := curr; t_drop := drop; t_low := low;
               t_used := used |}).

(** create table entry and replicate it, lines 217 to 250: the tables and the new [huff] *)
Definition enter_code (s : tstate) : option (list code * Z) :=
  w ← aget work (t_sym s);
  here ← make_entry type w (u8 (t_len s - t_drop s));
  let fill := 1 ≪ t_curr s in
  tbl ← fill_loop (Z.to_nat fill) (t_tbl s) (t_next s + (t_huff s ≫ t_drop s)) fill
          (1 ≪ (t_len s - t_drop s)) here;
  Some (tbl, backwards_increment (t_huff s) (t_len s)).

(** process all codes and make table entries; [inr] is the state at the [break]. *)
Fixpoint code_loop (fuel : nat) (s : tstate) : option (Z * list code + tstate) :=
  match fuel with
  | O => None
  | S fuel =>
      '(tbl, huff) ← enter_code s;
      let sym := t_sym s + 1 in
      c ← aget (t_count s) (t_len s);
      let c := u16 (c - 1) in
      count ← aset (t_count s) (t_len s) c;
      let s' len := {| t_tbl := tbl; t_count := count; t_huff := huff; t_sym := sym; t_len := len;
                       t_next := t_next s; t_curr := t_curr s; t_drop := t_drop s;
                       t_low := t_low s; t_used := t_used s |} in
      if (c =? 0) && (t_len s =? max) then Some (inr (s' (t_len s))) else
      len ← (if c =? 0 then w ← aget work sym; aget lens w else Some (t_len s));
      let s := s' len in
      if (root <? len) && negb (huff .& mask =? t_low s) then
        r ← new_subtable s;
        match r with
        | inl e => Some (inl e)
        | inr s => code_loop fuel s
        end
      else code_loop fuel s
  end.
End main_loop.

(** What [inflate_table] returns and writes through its pointers. *)
Record tresult := TResult {
  tr_ret : Z; tr_tbl : list code; tr_next : Z; tr_bits : Z; tr_work : list Z }.

Definition invalid_code : code := {| op := 64; bits := 1; val := 0 |}.

(** [table] is the index of [*table] in the array [tbl]; [lens] starts at the pointer [lens]. *)
Definition inflate_table (type : codetype) (lens : list Z) (codes : Z) (tbl : list code) (table : Z)
    (bits : Z) (work : list Z) : option tresult :=
  let fail ret tbl work := Some {| tr_ret := ret; tr_tbl := tbl; tr_next := table; tr_bits := bits; tr_work := work |} in
  count ← count_lens (Z.to_nat codes) 0 lens (replicate 16 0);
  max ← find_max 15 count;
  let root := if max <? bits then max else bits in
  if max =? 0 then
    tbl ← aset tbl table invalid_code;
    tbl ← aset tbl (table + 1) invalid_code;
    Some {| tr_ret := 0; tr_tbl := tbl; tr_next := table + 2; tr_bits := 1; tr_work := work |}
  else
  min ← find_min 15 1 max count;
  let root := if root <? min then min else root in
  lft ← check_left 15 1 1 count;
  match lft with
  | inl ret => fail ret tbl work
  | inr lft =>
      if (0 <? lft) && (match type with CODES => true | _ => negb (max =? 1) end)
      then fail (-1) tbl work else
      offs ← make_offs 14 1 (replicate 16 0) count;
      work ← sort_syms (Z.to_nat codes) 0 lens offs work;
      let used := 1 ≪ root in
      if not_enough type used then fail 1 tbl work else
      r ← code_loop type lens work table root max (S (Z.to_nat codes))
            {| t_tbl := tbl; t_count := count; t_huff := 0; t_sym := 0; t_len := min; t_next := table;
               t_curr := root; t_drop := 0; t_low := u32 (-1); t_used := used |};
      match r with
      | inl (ret, tbl) => fail ret tbl work
      | inr s =>
          tbl ← (if nz (t_huff s) then
                   aset (t_tbl s) (t_next s + t_huff s)
                     {| op := 64; bits := u8 (t_len s - t_drop s); val := 0 |}
                 else Some (t_tbl s));
          Some {| tr_ret := 0; tr_tbl := tbl; tr_next := table + t_used s; tr_bits := root; tr_work := work |}
      end
  end.

