(* ===== verification/InfTreesProof.v ===== *)
(** Correctness of [inflate_table]: the tables decode exactly the canonical Huffman code of the
    lengths, every index into them is within the array, and the error returns are characterised. *)
From S2P Require Import Prelude Bits Huffman InfTrees.

(** ** Counting and sorting *)
Lemma start_le_length xs : Forall (fun l => 0 <= l <= 15) xs -> start 16 xs <= Z.of_nat (length xs).
Proof.
  intros H. assert (Hc : forall l, start l [] = 0).
  { intros l. unfold start. induction (seqZ 1 (l - 1)) as [|y ys IHy]; simpl; [done|]. rewrite IHy. done. }
  induction H as [|x xs Hx _ IH]; [rewrite Hc; done|].
  cbn [length].
  assert (E : forall l, 1 <= l -> start l (x :: xs) = start l xs + if (1 <=? x) && (x <? l) then 1 else 0); [|].
  { intros l Hl. replace l with (1 + Z.of_nat (Z.to_nat (l - 1))) by lia.
    induction (Z.to_nat (l - 1)) as [|d IHd].
    - rewrite Z.add_0_r, !start_1. destruct (Z.leb_spec 1 x), (Z.ltb_spec x 1); simpl; lia.
    - replace (1 + Z.of_nat (S d)) with (1 + Z.of_nat d + 1) by lia.
      rewrite !start_succ, IHd, cnt_cons by lia.
      destruct (Z.leb_spec 1 x), (Z.ltb_spec x (1 + Z.of_nat d)), (Z.ltb_spec x (1 + Z.of_nat d + 1)),
        (Z.eqb_spec x (1 + Z.of_nat d)); simpl; lia. }
  rewrite E by lia. destruct ((1 <=? x) && (x <? 16)); lia.
Qed.

Section counting.
(** The lengths of the code's symbols, and what lies in memory after them. *)
Context (ls post : list Z).
Context (Hls : Forall (fun l => 0 <= l <= 15) ls) (Hn : Z.of_nat (length ls) < 65536).

Lemma count_lens_from pre xs count :
  ls = pre ++ xs -> length count = 16%nat ->
  (forall l, 0 <= l <= 15 -> aget count l = Some (cnt l pre)) ->
  exists count', count_lens (length xs) (Z.of_nat (length pre)) (ls ++ post) count = Some count' /\
    length count' = 16%nat /\ forall l, 0 <= l <= 15 -> aget count' l = Some (cnt l ls).
Proof.
  revert pre count. induction xs as [|x xs IH]; intros pre count E Hlen Hc; cbn [length count_lens].
  { exists count. rewrite E, app_nil_r. auto. }
  assert (Hx : 0 <= x <= 15).
  { rewrite E in Hls. apply Forall_app in Hls as [_ H%Forall_cons_iff]. tauto. }
  assert (El : ls ++ post = pre ++ x :: xs ++ post) by (by rewrite E, <- app_assoc).
  rewrite El, aget_middle, <- El. cbn [mbind option_bind].
  rewrite Hc by lia. cbn [mbind option_bind]. rewrite aset_in by lia. cbn [mbind option_bind].
  rewrite <- (length_snoc pre x). apply IH.
  - by rewrite <- app_assoc.
  - by rewrite length_insert.
  - intros l Hl. rewrite aget_insert by lia.
    rewrite cnt_app, cnt_cons. pose proof (cnt_le x pre). pose proof (cnt_nonneg x pre).
    rewrite E, length_app in Hn. cbn [length] in Hn. rewrite (Z.eqb_sym x).
    destruct (Z.eqb_spec l x) as [->|]; [|rewrite Hc by lia; f_equal; change (cnt l []) with 0; lia].
    rewrite u16_small by lia. f_equal.
Qed.

Lemma count_lens_spec :
  exists count, count_lens (length ls) 0 (ls ++ post) (replicate 16 0) = Some count /\
    length count = 16%nat /\ forall l, 0 <= l <= 15 -> aget count l = Some (cnt l ls).
Proof.
  apply (count_lens_from []); [done..|]. intros l Hl. unfold aget.
  destruct (Z.leb_spec 0 l); [|lia]. rewrite lookup_replicate_2 by lia. done.
Qed.

Lemma make_offs_from count n l offs :
  length offs = 16%nat -> (forall l, 0 <= l <= 15 -> aget count l = Some (cnt l ls)) ->
  1 <= l -> l + Z.of_nat n = 15 -> start 16 ls < 65536 ->
  (forall l', 1 <= l' <= l -> aget offs l' = Some (start l' ls)) ->
  exists offs', make_offs n l offs count = Some offs' /\ length offs' = 16%nat /\
    forall l, 1 <= l <= 15 -> aget offs' l = Some (start l ls).
Proof.
  intros Hlen Hc. revert l offs Hlen. induction n as [|n IH]; intros l offs Hlen Hl Hln Hst Ho; cbn [make_offs].
  { exists offs. split; [done|]. split; [done|]. intros. apply Ho. lia. }
  rewrite Ho, Hc by lia. cbn [mbind option_bind]. rewrite aset_in by lia. cbn [mbind option_bind].
  assert (start (l + 1) ls <= start 16 ls) by (apply start_mono; lia).
  pose proof (start_nonneg (l + 1) ls). rewrite <- start_succ, u16_small by lia.
  apply IH; [by rewrite length_insert|lia..|].
  intros l' Hl'. rewrite aget_insert by lia.
  destruct (Z.eqb_spec l' (l + 1)) as [->|]; [done|]. apply Ho. lia.
Qed.

(** The counting sort: after the symbols [pre], the slots of each length hold its symbols so far. *)
Definition slots (pre work : list Z) : Prop :=
  forall l m s, 1 <= l <= 15 -> syms_of l 0 pre !! m = Some s ->
    aget work (start l ls + Z.of_nat m) = Some s.

Lemma slot_bound l m xs :
  1 <= l <= 15 -> m < cnt l xs -> cnt l xs <= cnt l ls -> 0 <= m ->
  start l ls <= start l ls + m < start (l + 1) ls.
Proof. intros Hl Hm Hx H0. rewrite start_succ by lia. lia. Qed.

Lemma sort_syms_from pre xs offs work :
  ls = pre ++ xs -> length offs = 16%nat -> start 16 ls <= Z.of_nat (length work) ->
  (forall l, 1 <= l <= 15 -> aget offs l = Some (start l ls + cnt l pre)) -> slots pre work ->
  exists work', sort_syms (length xs) (Z.of_nat (length pre)) (ls ++ post) offs work = Some work' /\
    length work' = length work /\ slots ls work'.
Proof.
  revert pre offs work. induction xs as [|x xs IH]; intros pre offs work E Hlo Hlw Ho Hs; cbn [length sort_syms].
  { exists work. rewrite app_nil_r in E. by subst pre. }
  assert (Hx : 0 <= x <= 15).
  { rewrite E in Hls. apply Forall_app in Hls as [_ H%Forall_cons_iff]. tauto. }
  assert (El : ls ++ post = pre ++ x :: xs ++ post) by (by rewrite E, <- app_assoc).
  assert (E' : ls = (pre ++ [x]) ++ xs) by (by rewrite <- app_assoc).
  rewrite El, aget_middle, <- El. cbn [mbind option_bind]. rewrite <- (length_snoc pre x).
  destruct (nz x) eqn:Ex.
  2:{ apply nz_false in Ex as ->. apply IH; try done.
      - intros l Hl. rewrite cnt_app, cnt_cons. destruct (Z.eqb_spec 0 l); [lia|]. rewrite Ho by lia.
        f_equal. change (cnt l []) with 0. lia.
      - intros l m s Hl. rewrite syms_of_app. cbn [syms_of]. destruct (Z.eqb_spec (0 : Z) l); [lia|].
        rewrite app_nil_r. by apply Hs. }
  apply nz_true in Ex. rewrite Ho by lia. cbn [mbind option_bind].
  assert (Hcx : cnt x pre < cnt x ls).
  { rewrite E, cnt_app, cnt_cons, Z.eqb_refl. pose proof (cnt_nonneg x xs). lia. }
  assert (Hb := slot_bound x (cnt x pre) ls ltac:(lia) Hcx ltac:(lia) (cnt_nonneg _ _)).
  assert (Hm16 : start (x + 1) ls <= start 16 ls) by (apply start_mono; lia).
  pose proof (start_nonneg x ls). pose proof (start_le_length ls Hls).
  assert (Hlen := f_equal length E). rewrite length_app in Hlen. cbn [length] in Hlen.
  rewrite aset_in by lia. cbn [mbind option_bind]. rewrite aset_in by lia. cbn [mbind option_bind].
  destruct (IH (pre ++ [x]) (<[Z.to_nat x := u16 (start x ls + cnt x pre + 1)]> offs)
    (<[Z.to_nat (start x ls + cnt x pre) := u16 (Z.of_nat (length pre))]> work)) as (w & Hw & Hlw' & Hsl);
    rewrite ?length_insert; try done.
  3:{ exists w. by rewrite length_insert in Hlw'. }
  - intros l Hl. rewrite aget_insert by lia.
    rewrite cnt_app, cnt_cons, (Z.eqb_sym x). change (cnt l []) with 0.
    destruct (Z.eqb_spec l x) as [->|]; [|rewrite Ho by lia; f_equal; lia].
    rewrite u16_small by lia. f_equal. lia.
  - intros l m s Hl Hm. rewrite aget_insert by lia.
    rewrite u16_small by lia. rewrite syms_of_app in Hm. cbn [syms_of] in Hm.
    destruct (Z.eqb_spec x l) as [->|Hne].
    + apply lookup_app_Some in Hm as [Hm|[Hge Hm]].
      * destruct (Z.eqb_spec (start l ls + Z.of_nat m) (start l ls + cnt l pre)); [|by apply Hs].
        apply lookup_lt_Some in Hm. unfold cnt in *. lia.
      * destruct (m - length (syms_of l 0 pre))%nat eqn:Em; [|done]. injection Hm as <-.
        unfold cnt. replace m with (length (syms_of l 0 pre)) by lia. by rewrite Z.eqb_refl.
    + rewrite app_nil_r in Hm.
      destruct (Z.eqb_spec (start l ls + Z.of_nat m) (start x ls + cnt x pre)) as [Eq|]; [|by apply Hs].
      exfalso. apply lookup_lt_Some in Hm.
      assert (Hml : Z.of_nat m < cnt l ls).
      { rewrite E, cnt_app. unfold cnt at 1. pose proof (cnt_nonneg l (x :: xs)). lia. }
      assert (Hb' := slot_bound l (Z.of_nat m) ls Hl Hml ltac:(lia) ltac:(lia)).
      destruct (Z.lt_total l x) as [Hlt|[Hlt|Hlt]]; [|lia|].
      * assert (start (l + 1) ls <= start x ls) by (apply start_mono; lia). lia.
      * assert (start (x + 1) ls <= start l ls) by (apply start_mono; lia). lia.
Qed.
End counting.

(** The sorted array lists the symbols of the canonical code. *)
Lemma slots_canon ls work k s l :
  slots ls ls work -> canon ls !! k = Some (s, l) -> aget work (Z.of_nat k) = Some s.
Proof.
  intros Hs Hk. destruct (canon_lookup_inv _ _ _ _ Hk) as (m & Hm & ->).
  apply canon_sym in Hk as (_ & Hl & _). by apply (Hs l m s Hl).
Qed.

(** ** The scans of the counts *)
Section scans.
Context (ls count : list Z).
Context (Hc : forall l, 0 <= l <= 15 -> aget count l = Some (cnt l ls)).

Lemma find_max_spec n :
  (n <= 15)%nat ->
  exists m, find_max n count = Some m /\ 0 <= m <= Z.of_nat n /\
    (forall l, m < l <= Z.of_nat n -> cnt l ls = 0) /\ (m <> 0 -> cnt m ls <> 0).
Proof.
  induction n as [|n IH]; intros Hn; cbn [find_max].
  { exists 0. split; [done|]. split; [lia|]. split; [lia|done]. }
  rewrite <- aget_nat, Hc by lia. cbn [mbind option_bind]. destruct (nz _) eqn:E.
  - apply nz_true in E. exists (Z.of_nat (S n)). split; [done|]. split; [lia|]. split; [lia|done].
  - apply nz_false in E. destruct IH as (m & -> & Hm & Hz & Hnz); [lia|]. exists m.
    split; [done|]. split; [lia|]. split; [|done]. intros l Hl.
    destruct (Z.eq_dec l (Z.of_nat (S n))) as [->|]; [done|]. apply Hz. lia.
Qed.

Lemma find_min_spec n min max :
  1 <= min <= max -> max <= 15 -> max - min <= Z.of_nat n -> cnt max ls <> 0 ->
  (forall l, 1 <= l < min -> cnt l ls = 0) ->
  exists m, find_min n min max count = Some m /\ 1 <= m <= max /\ cnt m ls <> 0 /\
    forall l, 1 <= l < m -> cnt l ls = 0.
Proof.
  revert min. induction n as [|n IH]; intros min Hmin Hmax Hn Hnz Hz; cbn [find_min].
  { exists min. replace max with min in * by lia. auto with lia. }
  destruct (Z.ltb_spec min max) as [Hlt|Hge].
  - rewrite Hc by lia. cbn [mbind option_bind]. destruct (nz _) eqn:E.
    + apply nz_true in E. exists min. auto with lia.
    + apply nz_false in E. apply IH; try lia. intros l Hl.
      destruct (Z.eq_dec l min) as [->|]; [done|]. apply Hz. lia.
  - exists min. replace min with max in * by lia. auto with lia.
Qed.

Lemma check_left_spec n len lft :
  1 <= len -> len + Z.of_nat n = 16 -> 0 <= lft ->
  check_left n len lft count =
  Some (if lft * weight (len - 1) <? kraft (canon_from len n ls) then inl (-1)
        else inr (lft * weight (len - 1) - kraft (canon_from len n ls))).
Proof.
  revert len lft. induction n as [|n IH]; intros len lft Hlen Hn Hl; cbn [check_left].
  { replace len with 16 by lia. change (weight (16 - 1)) with 1. change (kraft _) with 0.
    destruct (Z.ltb_spec (lft * 1) 0); [lia|]. do 2 f_equal. lia. }
  rewrite Hc by lia. cbn [mbind option_bind]. rewrite kraft_canon_S.
  assert (Hw : weight (len - 1) = 2 * weight len).
  { unfold weight. replace (15 - (len - 1)) with (Z.succ (15 - len)) by lia. by rewrite Z.pow_succ_r by lia. }
  assert (0 < weight len) by (apply weight_pos; lia).
  assert (0 <= kraft (canon_from (len + 1) n ls)).
  { apply kraft_nonneg. apply Forall_forall. intros [s l] Hin. apply elem_of_canon_from in Hin. simpl. lia. }
  destruct (Z.ltb_spec (lft * 2 - cnt len ls) 0) as [Hneg|Hpos].
  - destruct (Z.ltb_spec (lft * weight (len - 1)) (cnt len ls * weight len + kraft (canon_from (len + 1) n ls))); [done|].
    exfalso. rewrite Hw in *. nia.
  - rewrite IH by lia. replace (len + 1 - 1) with len by lia. rewrite Hw. f_equal.
    replace ((lft * 2 - cnt len ls) * weight len) with (lft * (2 * weight len) - cnt len ls * weight len) by lia.
    set (a := lft * (2 * weight len)). set (b := cnt len ls * weight len). set (c := kraft _).
    destruct (Z.ltb_spec (a - b) c), (Z.ltb_spec a (b + c)); try lia; [done|]. f_equal. lia.
Qed.
End scans.

(** ** Filling a table *)
Lemma fill_loop_spec fuel tbl i m incr here :
  (Z.to_nat m <= fuel)%nat -> 0 < m -> 0 < incr -> 0 <= i -> i + (m - 1) * incr < Z.of_nat (length tbl) ->
  exists tbl', fill_loop fuel tbl i (m * incr) incr here = Some tbl' /\ length tbl' = length tbl /\
    (forall q, 0 <= q < m -> aget tbl' (i + q * incr) = Some here) /\
    (forall j, (forall q, 0 <= q < m -> j <> i + q * incr) -> aget tbl' j = aget tbl j).
Proof.
  revert tbl m. induction fuel as [|fuel IH]; intros tbl m Hf Hm Hi H0 Hb; [lia|]. cbn [fill_loop].
  replace (m * incr - incr) with ((m - 1) * incr) by lia.
  rewrite aset_in by nia. cbn [mbind option_bind]. set (tbl1 := <[_ := _]> tbl).
  assert (Hg : forall j, aget tbl1 j = if j =? i + (m - 1) * incr then Some here else aget tbl j)
    by (intros j; apply aget_insert; nia).
  assert (Hl1 : length tbl1 = length tbl) by apply length_insert.
  destruct (Z.eqb_spec ((m - 1) * incr) 0) as [E|E].
  - assert (m = 1) as -> by nia. exists tbl1. split; [done|]. split; [done|]. split.
    + intros q Hq. rewrite Hg. replace q with 0 by lia. destruct (Z.eqb_spec (i + 0 * incr) (i + (1 - 1) * incr)); [done|lia].
    + intros j Hj. rewrite Hg. destruct (Z.eqb_spec j (i + (1 - 1) * incr)) as [->|]; [|done]. exfalso. apply (Hj 0); lia.
  - destruct (IH tbl1 (m - 1)) as (tbl' & -> & Hl' & Hin & Hout); [lia|nia|lia|lia|rewrite Hl1; nia|].
    exists tbl'. split; [done|]. split; [by rewrite Hl'|]. split.
    + intros q Hq. destruct (Z.eq_dec q (m - 1)) as [->|]; [|apply Hin; lia].
      rewrite Hout by (intros q' Hq'; nia). rewrite Hg. by rewrite Z.eqb_refl.
    + intros j Hj. rewrite Hout by (intros q Hq; apply Hj; lia). rewrite Hg.
      destruct (Z.eqb_spec j (i + (m - 1) * incr)) as [->|]; [|done]. exfalso. apply (Hj (m - 1)); lia.
Qed.

(** ** Incrementing the reversed code *)
Definition increment_from (m : nat) (huff : Z) : Z :=
  let incr := incr_loop m huff (match m with O => 0 | S m => 2 ^ Z.of_nat m end) in
  if nz incr then (huff .& (incr - 1)) + incr else 0.

Lemma land_pow2 x n : 0 <= n -> nz (x .& 2 ^ n) = Z.testbit x n.
Proof.
  intros Hn. destruct (Z.testbit x n) eqn:E.
  - apply nz_true. intros H. apply (f_equal (fun y => Z.testbit y n)) in H.
    rewrite Z.land_spec, E, Z.pow2_bits_true, Z.bits_0 in H by lia. done.
  - apply nz_false. apply Z.bits_inj'. intros i Hi. rewrite Z.land_spec, Z.bits_0, Z.pow2_bits_eqb by lia.
    destruct (Z.eqb_spec n i) as [->|]; [by rewrite E|apply andb_false_r].
Qed.

Lemma mod_pow2_succ x n : 0 <= n -> x mod 2 ^ (n + 1) = x mod 2 ^ n + (if Z.testbit x n then 2 ^ n else 0).
Proof.
  intros Hn. rewrite Z.pow_add_r, Z.rem_mul_r by (try apply Z.pow_nonzero; lia).
  rewrite <- Z.shiftr_div_pow2, <- Z.bit0_mod, Z.shiftr_spec, Z.add_0_l by lia.
  destruct (Z.testbit x n); simpl; lia.
Qed.

Lemma increment_from_spec m huff q :
  0 <= q < 2 ^ Z.of_nat m -> huff mod 2 ^ Z.of_nat m = rev m q ->
  increment_from m huff = if q + 1 <? 2 ^ Z.of_nat m then rev m (q + 1) else 0.
Proof.
  revert q. induction m as [|m IH]; intros q Hq Hh.
  { simpl in *. replace q with 0 by lia. done. }
  rewrite Nat2Z.inj_succ, <- Z.add_1_r in *. rewrite mod_pow2_succ in Hh by lia.
  cbn [rev] in Hh. assert (H2 : 0 <= q mod 2 < 2) by (apply Z.mod_pos_bound; lia).
  assert (Hrm := rev_range m (q / 2)). assert (Hmm : 0 <= huff mod 2 ^ Z.of_nat m < 2 ^ Z.of_nat m) by (apply Z.mod_pos_bound; lia).
  assert (Hpow : 2 ^ (Z.of_nat m + 1) = 2 * 2 ^ Z.of_nat m) by (rewrite Z.pow_add_r by lia; lia).
  unfold increment_from. cbn [incr_loop]. rewrite land_pow2 by lia.
  destruct (Z.testbit huff (Z.of_nat m)) eqn:Eb.
  - assert (q mod 2 = 1) as Hodd by nia. rewrite Hodd in Hh.
    transitivity (increment_from m huff).
    { unfold increment_from. destruct m as [|m']; [done|].
      replace (2 ^ Z.of_nat (S m') ≫ 1) with (2 ^ Z.of_nat m'); [done|].
      rewrite Z.shiftr_div_pow2, Nat2Z.inj_succ, Z.pow_succ_r by lia. change (2 ^ 1) with 2. dlia. }
    rewrite (IH (q / 2)) by dlia.
    destruct (Z.ltb_spec (q / 2 + 1) (2 ^ Z.of_nat m)), (Z.ltb_spec (q + 1) (2 ^ (Z.of_nat m + 1))); try done; try dlia.
    cbn [rev]. replace ((q + 1) mod 2) with 0 by dlia. replace ((q + 1) / 2) with (q / 2 + 1) by dlia. lia.
  - assert (q mod 2 = 0) as Hev by nia. rewrite Hev in Hh.
    assert (nz (2 ^ Z.of_nat m) = true) as -> by (apply nz_true; lia).
    rewrite land_mask by lia. destruct (Z.ltb_spec (q + 1) (2 ^ (Z.of_nat m + 1))); [|dlia].
    cbn [rev]. replace ((q + 1) mod 2) with 1 by dlia. replace ((q + 1) / 2) with (q / 2) by dlia. lia.
Qed.

Lemma backwards_increment_spec p l :
  1 <= l <= 15 -> 0 <= p < 2 ^ 15 -> (weight l | p) ->
  backwards_increment (rev 15 p) l = if p + weight l <? 2 ^ 15 then rev 15 (p + weight l) else 0.
Proof.
  intros Hl Hp [q ->]. assert (Hw := weight_pos l ltac:(lia)).
  assert (E : forall q, rev 15 (q * weight l) = rev (Z.to_nat l) q).
  { intros q'. unfold weight. replace (15 - l) with (Z.of_nat (15 - Z.to_nat l)) by lia. by rewrite rev_scale by lia. }
  assert (H15 : 2 ^ 15 = 2 ^ l * weight l) by (unfold weight; rewrite <- Z.pow_add_r by lia; f_equal; lia).
  replace (q * weight l + weight l) with ((q + 1) * weight l) by lia. rewrite !E.
  assert (Hi := increment_from_spec (Z.to_nat l) (rev (Z.to_nat l) q) q). rewrite Z2Nat.id in Hi by lia.
  assert (Hr := rev_range (Z.to_nat l) q). rewrite Z2Nat.id in Hr by lia.
  transitivity (increment_from (Z.to_nat l) (rev (Z.to_nat l) q)).
  { unfold backwards_increment, increment_from. rewrite Z.shiftl_1_l.
    destruct (Z.to_nat l) eqn:En; [lia|]. by replace (l - 1) with (Z.of_nat n) by lia. }
  rewrite Hi; [|nia|by rewrite Z.mod_small].
  destruct (Z.ltb_spec (q + 1) (2 ^ l)), (Z.ltb_spec ((q + 1) * weight l) (2 ^ 15)); (done || nia).
Qed.

(** ** Table entries *)
Definition is_link (e : code) : bool := nz (op e) && (op e .& 0xf0 =? 0).

Lemma make_entry_not_link type s b e : make_entry type s b = Some e -> is_link e = false.
Proof.
  unfold make_entry. destruct (s <? type_end type); [by intros [= <-]|].
  destruct (type_end type <? s); [|by intros [= <-]].
  destruct type; cbn [type_extra type_base mbind option_bind]; [done|..]; intros H.
  - destruct (aget lext (s - 257)) as [e0|] eqn:Ee; [|done]. destruct (aget lbase (s - 257)); [|done].
    injection H as <-. assert (Hr := aget_Some _ _ _ Ee). change (Z.of_nat (length lext)) with 31 in Hr.
    unfold is_link. cbn [op]. unfold aget in Ee. destruct (0 <=? s - 257); [|done].
    apply list_elem_of_lookup_2, list_elem_of_In in Ee.
    repeat (destruct Ee as [<-|Ee]; [reflexivity|]). done.
  - destruct (aget dext s) as [e0|] eqn:Ee; [|done]. destruct (aget dbase s); [|done].
    injection H as <-. unfold is_link. cbn [op]. unfold aget in Ee. destruct (0 <=? s); [|done].
    apply list_elem_of_lookup_2, list_elem_of_In in Ee.
    repeat (destruct Ee as [<-|Ee]; [reflexivity|]). done.
Qed.

(** The symbols of a code type. *)
Definition type_syms (type : codetype) : Z :=
  match type with CODES => 19 | LENS => 288 | DISTS => 32 end.

Lemma make_entry_ok type s b : 0 <= s < type_syms type -> exists e, make_entry type s b = Some e /\ bits e = b.
Proof.
  intros Hs. unfold make_entry. destruct (Z.ltb_spec s (type_end type)) as [H1|H1]; [eexists; done|].
  destruct (Z.ltb_spec (type_end type) s) as [H2|H2]; [|eexists; done].
  destruct type; cbn [type_syms type_end type_extra type_base] in *; [lia|..].
  - destruct (aget_in lext (s - 257)) as [e ->]; [change (length lext) with 31%nat; lia|].
    destruct (aget_in lbase (s - 257)) as [v ->]; [change (length lbase) with 31%nat; lia|]. eexists; done.
  - destruct (aget_in dext s) as [e ->]; [change (length dext) with 32%nat; lia|].
    destruct (aget_in dbase s) as [v ->]; [change (length dbase) with 32%nat; lia|]. eexists; done.
Qed.

(** ** The main loop *)

(** In the tables [tbl], whose root table of [root] bits is at [table], the stream [h] leads to the
    entry of the symbol [sl], directly or through a link to a sub-table that ends before [lim]. *)
Definition resolves (type : codetype) (table root : Z) (tbl : list code) (lim h : Z) (sl : Z * Z) : Prop :=
  (exists e, aget tbl (table + h mod 2 ^ root) = Some e /\ make_entry type sl.1 sl.2 = Some e /\ sl.2 <= root) \/
  (exists c off e, aget tbl (table + h mod 2 ^ root) = Some (Code c root off) /\ 1 <= c /\ root + c <= 15 /\
     2 ^ root <= off /\ off + 2 ^ c <= lim /\
     aget tbl (table + off + (h / 2 ^ root) mod 2 ^ c) = Some e /\
     make_entry type sl.1 (sl.2 - root) = Some e /\ root < sl.2 <= root + c).

Lemma resolves_lim type table root tbl lim lim' h sl :
  lim <= lim' -> resolves type table root tbl lim h sl -> resolves type table root tbl lim' h sl.
Proof.
  intros Hl [H|(c & off & e & ? & ? & ? & ? & ? & H)]; [by left|].
  right. exists c, off, e. repeat (split; [done || lia|]). done.
Qed.

(** Changing the tables away from the entries [h] leads to. *)
Lemma resolves_frame type table root tbl tbl' lim h sl :
  resolves type table root tbl lim h sl ->
  aget tbl' (table + h mod 2 ^ root) = aget tbl (table + h mod 2 ^ root) ->
  (forall c off, aget tbl (table + h mod 2 ^ root) = Some (Code c root off) ->
     2 ^ root <= off -> off + 2 ^ c <= lim -> 1 <= c -> root + c <= 15 ->
     aget tbl' (table + off + (h / 2 ^ root) mod 2 ^ c) = aget tbl (table + off + (h / 2 ^ root) mod 2 ^ c)) ->
  resolves type table root tbl' lim h sl.
Proof.
  intros [(e & H1 & H2)|(c & off & e & H1 & H2 & H3 & H4 & H5 & H6 & H7)] Hr Hs.
  - left. exists e. by rewrite Hr.
  - right. exists c, off, e. rewrite Hr, Hs by done. repeat (split; [done|]). done.
Qed.

Lemma resolves_agree type table root tbl tbl' lim h sl :
  0 <= root -> 2 ^ root <= lim -> (forall j, table <= j < table + lim -> aget tbl' j = aget tbl j) ->
  resolves type table root tbl lim h sl -> resolves type table root tbl' lim h sl.
Proof.
  intros Hr Hl Ht H. assert (0 < 2 ^ root) by (apply pow2_pos; lia). assert (Hm := Z.mod_pos_bound h (2 ^ root) ltac:(lia)).
  eapply resolves_frame; [exact H|apply Ht; lia|]. intros c off _ Ho Hlim Hc _.
  assert (0 < 2 ^ c) by (apply pow2_pos; lia). assert (Hmc := Z.mod_pos_bound (h / 2 ^ root) (2 ^ c) ltac:(lia)). apply Ht. lia.
Qed.

Lemma is_link_intro c b v : 1 <= c <= 15 -> is_link (Code c b v) = true.
Proof.
  intros Hc. unfold is_link. cbn [op].
  assert (c = 1 \/ c = 2 \/ c = 3 \/ c = 4 \/ c = 5 \/ c = 6 \/ c = 7 \/ c = 8 \/ c = 9 \/ c = 10 \/
          c = 11 \/ c = 12 \/ c = 13 \/ c = 14 \/ c = 15) as H by lia.
  repeat (destruct H as [->|H]; [reflexivity|]). by subst c.
Qed.

(** Replicating an entry through a table of [c] index bits at [next]. *)
Lemma fill_table tbl next c l hd here :
  0 <= l <= c -> 0 <= next -> next + 2 ^ c <= Z.of_nat (length tbl) -> 0 <= hd < 2 ^ l ->
  exists tbl', fill_loop (Z.to_nat (1 ≪ c)) tbl (next + hd) (1 ≪ c) (1 ≪ l) here = Some tbl' /\
    length tbl' = length tbl /\
    (forall y, 0 <= y < 2 ^ c -> aget tbl' (next + y) = if y mod 2 ^ l =? hd then Some here else aget tbl (next + y)) /\
    (forall j, j < next \/ next + 2 ^ c <= j -> aget tbl' j = aget tbl j).
Proof.
  intros Hl Hn Hb Hhd. rewrite !Z.shiftl_1_l.
  assert (Hc : 2 ^ c = 2 ^ (c - l) * 2 ^ l) by (rewrite <- Z.pow_add_r by lia; f_equal; lia).
  assert (0 < 2 ^ l) by (apply pow2_pos; lia). assert (0 < 2 ^ (c - l)) by (apply pow2_pos; lia).
  destruct (fill_loop_spec (Z.to_nat (2 ^ c)) tbl (next + hd) (2 ^ (c - l)) (2 ^ l) here) as (tbl' & E & Hlen & Hin & Hout);
    [nia|lia|lia|lia|nia|].
  exists tbl'. rewrite Hc at 2. split; [exact E|]. split; [done|]. split.
  - intros y Hy. destruct (Z.eqb_spec (y mod 2 ^ l) hd) as [Ey|Ey].
    + rewrite <- (Hin (y / 2 ^ l)); [f_equal; rewrite (Z.div_mod y (2 ^ l)) at 1 by lia; lia|].
      split; [apply Z.div_pos; lia|]. apply Z.div_lt_upper_bound; lia.
    + apply Hout. intros q Hq Eq. apply Ey.
      replace y with (hd + q * 2 ^ l) by lia. rewrite Z_mod_plus_full. by apply Z.mod_small.
  - intros j Hj. apply Hout. intros q Hq. nia.
Qed.

(** Low and high parts of a prefix of [h]. *)
Lemma mod_split h a b : 0 <= a -> 0 <= b -> h mod 2 ^ (a + b) = h mod 2 ^ a + 2 ^ a * ((h / 2 ^ a) mod 2 ^ b).
Proof. intros. rewrite Z.pow_add_r by lia. apply Z.rem_mul_r; [apply Z.pow_nonzero|apply pow2_pos]; lia. Qed.

Lemma mod_mod_pow2 h a b : 0 <= b <= a -> (h mod 2 ^ a) mod 2 ^ b = h mod 2 ^ b.
Proof.
  intros H. replace a with (b + (a - b)) by lia. rewrite mod_split by lia.
  rewrite Z.mul_comm, Z_mod_plus_full. apply Z.mod_mod. apply Z.pow_nonzero; lia.
Qed.

(** Sorted by length: the short codes come first. *)
Lemma sorted_tail x xs : sorted (x :: xs) -> sorted xs.
Proof. intros H j k s l s' l' Hjk Hj Hk. by apply (H (S j) (S k) s l s' l' ltac:(lia)). Qed.
Lemma filter_longer x (xs : list (Z * Z)) : Forall (fun sl => x < sl.2) xs -> filter (fun sl => sl.2 <= x) xs = [] /\ filter (fun sl => ~ sl.2 <= x) xs = xs.
Proof.
  induction 1 as [|[s l] xs H _ [IH1 IH2]]; [done|]. rewrite !filter_cons. cbn [snd] in *. rewrite decide_False, decide_True by lia. by rewrite IH1, IH2.
Qed.
Lemma sorted_split x xs : sorted xs -> xs = filter (fun sl => sl.2 <= x) xs ++ filter (fun sl => ~ sl.2 <= x) xs.
Proof.
  induction xs as [|[s l] xs IH]; intros H; [done|]. rewrite !filter_cons. cbn [snd]. destruct (decide (l <= x)) as [Hl|Hl].
  - rewrite decide_False by tauto. cbn [app]. f_equal. apply IH. by eapply sorted_tail.
  - rewrite decide_True by done. destruct (filter_longer x xs) as [-> ->]; [|done].
    apply Forall_lookup_2. intros i [s' l'] Hi. pose proof (H 0%nat (S i) s l s' l' ltac:(lia) eq_refl Hi). cbn. lia.
Qed.

#[local] Opaque rev.
Section loop.
Context (type : codetype) (lens work : list Z) (table root max N room : Z) (cs : list (Z * Z)).
Context (Hlok : lens_ok cs) (Hsort : sorted cs) (Hkraft : kraft cs <= 2 ^ 15)
  (Hn : Z.of_nat (length cs) < 65536).
Context (Hwork : forall k s l, cs !! k = Some (s, l) ->
  aget work (Z.of_nat k) = Some s /\ aget lens s = Some l /\ 0 <= s < type_syms type /\ l <= max).
Context (Hmax : exists k s, cs !! k = Some (s, max)).
Context (Hroot : 1 <= root <= max) (Hmax15 : max <= 15) (Htable : 0 <= table).
Context (Hcodes : type = CODES -> max <= root).
Context (Hspace : forall used, 0 <= used -> not_enough type used = false ->
  (type = CODES -> used = 2 ^ root) -> used <= room).
Context (Hroom : table + room <= N /\ room < 65536) (tbl0 : list code).

Abbreviation P := (pos cs).
Abbreviation resolves := (resolves type table root).

Lemma pos_lt k s l : cs !! k = Some (s, l) -> 0 <= P k /\ P k + weight l <= 2 ^ 15 /\ P (S k) = P k + weight l.
Proof.
  intros Hk. rewrite <- (pos_S _ _ _ _ Hk). pose proof (pos_le_kraft cs (S k) Hlok).
  split; [|split; [lia|done]]. apply kraft_nonneg. by apply Forall_take.
Qed.

Lemma pos_lt15 k s l : cs !! k = Some (s, l) -> 0 <= P k < 2 ^ 15.
Proof.
  intros Hk. destruct (pos_lt k s l Hk). assert (0 < weight l); [|lia].
  apply weight_pos. apply (lens_ok_lookup _ _ _ _ Hlok Hk).
Qed.

(** The weight of the symbols from [k] on whose length is at most [x]. *)
Definition short_kraft (x : Z) (k : nat) : Z := kraft (filter (fun sl => sl.2 <= x) (drop k cs)).

Lemma short_kraft_succ x k :
  short_kraft x k = short_kraft (x - 1) k + cntl x (drop k cs) * weight x.
Proof.
  unfold short_kraft. induction (drop k cs) as [|[s l] xs IH]; [done|].
  rewrite !filter_cons, cntl_cons. cbn [snd].
  destruct (Z.eqb_spec l x) as [->|]; repeat case_decide; try lia;
    unfold kraft in *; cbn [foldr snd] in *; lia.
Qed.

Lemma short_kraft_none x k s l : cs !! k = Some (s, l) -> x < l -> short_kraft x k = 0.
Proof.
  intros Hk Hx. unfold short_kraft.
  assert (Hall : Forall (fun sl : Z * Z => x < sl.2) (drop k cs)).
  { apply Forall_lookup_2. intros i [s' l'] Hi. rewrite lookup_drop in Hi. cbn.
    pose proof (Hsort k (k + i)%nat s l s' l' ltac:(lia) Hk Hi). lia. }
  induction Hall as [|[s' l'] xs H _ IH]; [done|]. rewrite filter_cons. cbn [snd] in *.
  case_decide; [lia|done].
Qed.

(** A longer symbol comes after all of them. *)
Lemma short_kraft_pos x k j s l :
  (k <= j)%nat -> cs !! j = Some (s, l) -> x < l -> P k + short_kraft x k <= P j.
Proof.
  intros Hkj Hj Hx.
  assert (HP : P j = P k + kraft (take (j - k) (drop k cs))).
  { unfold pos. replace j with (k + (j - k))%nat at 1 by lia. by rewrite <- take_take_drop, kraft_app. }
  assert (HS : short_kraft x k = kraft (filter (fun sl : Z * Z => sl.2 <= x) (take (j - k) (drop k cs))) + short_kraft x j).
  { unfold short_kraft. rewrite <- kraft_app, <- list.filter_app. do 2 f_equal.
    rewrite <- (take_drop (j - k) (drop k cs)) at 1. f_equal. rewrite drop_drop. f_equal. lia. }
  rewrite (short_kraft_none x j s l Hj Hx) in HS.
  assert (lens_ok (take (j - k) (drop k cs))) as Hok by (by apply Forall_take, Forall_drop).
  enough (kraft (filter (fun sl : Z * Z => sl.2 <= x) (take (j - k) (drop k cs))) <= kraft (take (j - k) (drop k cs))) by lia.
  clear HP HS. induction Hok as [|[s' l'] xs H _ IH]; [done|]. cbn [snd] in H. pose proof (weight_pos l' ltac:(lia)).
  rewrite filter_cons. case_decide; unfold kraft in *; cbn [foldr snd] in *; lia.
Qed.

(** All the codes from [k] on. *)
Lemma short_kraft_all x k : max <= x -> short_kraft x k = kraft cs - P k.
Proof.
  intros Hx. assert (kraft cs = P k + kraft (drop k cs)) as -> by (unfold pos; by rewrite <- kraft_app, take_drop).
  replace (P k + kraft (drop k cs) - P k) with (kraft (drop k cs)) by lia. unfold short_kraft. f_equal.
  assert (Hall : Forall (fun sl : Z * Z => sl.2 <= x) (drop k cs)).
  { apply Forall_lookup_2. intros i [s l] Hi. rewrite lookup_drop in Hi. apply Hwork in Hi as (_ & _ & _ & ?). cbn. lia. }
  induction Hall as [|sl xs H _ IH]; [done|]. rewrite filter_cons, decide_True by done. by f_equal.
Qed.

(** Their number, and where the next code starts. *)
Definition short_count (x : Z) (k : nat) : nat := length (filter (fun sl => sl.2 <= x) (drop k cs)).

Lemma sorted_drop k : sorted (drop k cs).
Proof. intros i j s l s' l' Hij Hi Hj. rewrite lookup_drop in Hi, Hj. by apply (Hsort (k + i)%nat (k + j)%nat s l s' l' ltac:(lia)). Qed.

Lemma short_count_iff x k i s l : cs !! (k + i)%nat = Some (s, l) -> l <= x <-> (i < short_count x k)%nat.
Proof.
  intros Hi. rewrite <- lookup_drop, (sorted_split x (drop k cs) (sorted_drop k)) in Hi. unfold short_count. split; intros H.
  - destruct (Nat.lt_ge_cases i (length (filter (fun sl : Z * Z => sl.2 <= x) (drop k cs)))) as [|Hge]; [done|].
    rewrite lookup_app_r in Hi by done. apply list_elem_of_lookup_2, list_elem_of_filter in Hi as [Hi _]. cbn in Hi. lia.
  - rewrite lookup_app_l in Hi by done. by apply list_elem_of_lookup_2, list_elem_of_filter in Hi as [Hi _].
Qed.

Lemma short_count_pos x k : P (k + short_count x k) = P k + short_kraft x k.
Proof.
  unfold pos. rewrite <- take_take_drop, kraft_app. unfold short_kraft, short_count. do 2 f_equal.
  rewrite (sorted_split x (drop k cs) (sorted_drop k)) at 2. by rewrite take_app_length.
Qed.

Lemma short_count_succ x k : Z.of_nat (short_count x k) = Z.of_nat (short_count (x - 1) k) + cntl x (drop k cs).
Proof.
  unfold short_count. induction (drop k cs) as [|[s l] xs IH]; [done|]. rewrite !filter_cons, cntl_cons. cbn [snd].
  destruct (Z.eqb_spec l x) as [->|]; repeat case_decide; cbn [length]; lia.
Qed.

Lemma short_count_le x k : (k + short_count x k <= Nat.max k (length cs))%nat.
Proof. unfold short_count. pose proof (length_filter (fun sl : Z * Z => sl.2 <= x) (drop k cs)). rewrite length_drop in *. lia. Qed.

(** The codes of length [x] are consecutive. *)
Lemma pos_level x k r :
  Z.of_nat r <= cntl x (drop k cs) -> P (k + short_count (x - 1) k + r) = P k + short_kraft (x - 1) k + Z.of_nat r * weight x.
Proof.
  intros Hr. induction r as [|r IH]; [rewrite Nat.add_0_r, short_count_pos; lia|]. assert (Hs := short_count_succ x k). assert (Hle := short_count_le x k).
  destruct (Nat.lt_ge_cases (k + short_count (x - 1) k + r) (length cs)) as [Hlt|Hge].
  - destruct (lookup_lt_is_Some_2 cs _ Hlt) as [[s l] Hl]. replace (k + short_count (x - 1) k + S r)%nat with (S (k + short_count (x - 1) k + r)) by lia.
    rewrite (pos_S _ _ _ _ Hl), IH by lia. rewrite <- Nat.add_assoc in Hl.
    assert (l = x) as ->; [|lia]. pose proof (short_count_iff x k _ _ _ Hl). pose proof (short_count_iff (x - 1) k _ _ _ Hl). lia.
  - exfalso. lia.
Qed.

(** The sub-table is large enough for the codes that share its root index. *)
Lemma next_curr_spec k s0 l0 count fuel c lft :
  cs !! k = Some (s0, l0) -> root < l0 ->
  (forall l, 1 <= l <= 15 -> aget count l = Some (cntl l (drop k cs))) ->
  l0 - root <= c -> root + c <= max -> max - (root + c) < Z.of_nat fuel ->
  lft * weight (root + c) = weight root - short_kraft (root + c - 1) k ->
  0 < lft -> 2 ^ (l0 - root) + (c - (l0 - root)) <= Z.of_nat (short_count (root + c - 1) k) + lft ->
  exists c', next_curr fuel c root lft max count = Some c' /\ c <= c' /\ root + c' <= max /\
    (forall j s l, (k <= j)%nat -> cs !! j = Some (s, l) -> P j / weight root = P k / weight root -> l <= root + c') /\
    exists lft', lft' * weight (root + c') = weight root - short_kraft (root + c' - 1) k /\ 0 < lft' /\
      2 ^ (l0 - root) + (c' - (l0 - root)) <= Z.of_nat (short_count (root + c' - 1) k) + lft' /\
      (P k + weight root <= kraft cs -> lft' <= cntl (root + c') (drop k cs)).
Proof.
  intros Hk Hl0 Hc. revert c lft. induction fuel as [|fuel IH]; intros c lft Hlc Hcm Hf Hinv Hpos Hcnt; [lia|].
  cbn [next_curr]. destruct (Z.ltb_spec (c + root) max) as [Hlt|Hge].
  2:{ exists c. split; [done|]. split; [lia|]. split; [lia|]. split; [intros j s l _ Hj _; apply Hwork in Hj as (_ & _ & _ & ?); lia|].
      exists lft. split; [done|]. split; [done|]. split; [done|]. intros Hfull. pose proof (short_kraft_succ (root + c) k) as Hs.
      assert (Hw := weight_pos (root + c) ltac:(lia)). rewrite (short_kraft_all (root + c) k) in Hs by lia. nia. }
  replace (c + root) with (root + c) in * by lia.
  rewrite Hc by lia. cbn [mbind option_bind].
  assert (Hw := weight_pos (root + c) ltac:(lia)). assert (HW := weight_pos root ltac:(lia)).
  pose proof (short_kraft_succ (root + c) k) as Hs.
  destruct (Z.leb_spec (lft - cntl (root + c) (drop k cs)) 0) as [Hle|Hgt].
  - exists c. split; [done|]. split; [lia|]. split; [lia|]. split; [|exists lft; split; [done|]; split; [done|]; split; [done|]; lia].
    intros j s l Hkj Hj Hq. destruct (Z.le_gt_cases l (root + c)) as [|Hlong]; [done|].
    pose proof (short_kraft_pos _ _ _ _ _ Hkj Hj Hlong).
    pose proof (Z.div_mod (P j) (weight root) ltac:(lia)). pose proof (Z.div_mod (P k) (weight root) ltac:(lia)).
    pose proof (Z.mod_pos_bound (P j) (weight root) HW). pose proof (Z.mod_pos_bound (P k) (weight root) HW).
    rewrite Hq in *. nia.
  - pose proof (short_count_succ (root + c) k) as Hsc.
    destruct (IH (c + 1) ((lft - cntl (root + c) (drop k cs)) * 2)) as (c' & E & Hr); [lia..| |lia| |].
    + replace (root + (c + 1) - 1) with (root + c) by lia.
      assert (weight (root + c) = 2 * weight (root + (c + 1))); [|nia].
      unfold weight. rewrite <- Z.pow_succ_r by lia. f_equal. lia.
    + replace (root + (c + 1) - 1) with (root + c) by lia. lia.
    + exists c'. split; [done|]. destruct Hr as (? & ? & ?). split; [lia|]. split; done.
Qed.

(** ** The entries used

    A sub-table of [2 ^ c] entries whose shortest code has [e] bits beyond the root holds at least [2 ^ e + c - e] codes,
    and the codes after it have at least [c] bits beyond the root. So the sub-tables together have at most [gain c] entries
    more than codes, where [c] belongs to the last one. *)
Definition gain (a : Z) : Z := 2 ^ a - a - 1.
Definition shorts : Z := Z.of_nat (short_count root 0).

Lemma gain_mono a b : 1 <= a <= b -> 0 <= gain a <= gain b.
Proof.
  intros H. unfold gain. replace b with (a + Z.of_nat (Z.to_nat (b - a))) by lia. induction (Z.to_nat (b - a)) as [|n IH].
  - rewrite Z.add_0_r. pose proof (Z.pow_gt_lin_r 2 a ltac:(lia) ltac:(lia)). lia.
  - replace (a + Z.of_nat (S n)) with (Z.succ (a + Z.of_nat n)) by lia. rewrite Z.pow_succ_r by lia.
    pose proof (pow2_pos (a + Z.of_nat n) ltac:(lia)). lia.
Qed.

(** Before a sub-table for code [k], and while it is filled: it ends before code [m]. *)
Definition counted (k : nat) (used : Z) : Prop :=
  (2 | used - 2 ^ root) /\ exists a s l, cs !! k = Some (s, l) /\ 1 <= a <= l - root /\ used - 2 ^ root <= Z.of_nat k - shorts + gain a.
Definition counting (k : nat) (used curr drop : Z) : Prop :=
  drop = 0 /\ used = 2 ^ root \/
  drop = root /\ (2 | used - 2 ^ root) /\ 1 <= curr /\ exists m, (m <= length cs)%nat /\ used - 2 ^ root <= Z.of_nat m - shorts + gain curr /\
    P m = (P k / weight root + 1) * weight root /\ forall j s l, (m <= j)%nat -> cs !! j = Some (s, l) -> root + curr <= l.

Lemma shorts_le k s l : cs !! k = Some (s, l) -> root < l -> shorts <= Z.of_nat k.
Proof. intros Hk Hl. unfold shorts. pose proof (short_count_iff root 0 k s l Hk). lia. Qed.

Lemma subtable_counted k s0 l0 used c lft :
  cs !! k = Some (s0, l0) -> root < l0 -> (weight root | P k) -> kraft cs = 2 ^ 15 -> counted k used -> l0 - root <= c -> root + c <= max ->
  lft * weight (root + c) = weight root - short_kraft (root + c - 1) k -> 0 < lft ->
  2 ^ (l0 - root) + (c - (l0 - root)) <= Z.of_nat (short_count (root + c - 1) k) + lft ->
  (P k + weight root <= kraft cs -> lft <= cntl (root + c) (drop k cs)) ->
  counting k (used + 2 ^ c) c root /\ used + 2 ^ c - 2 ^ root <= Z.of_nat (length cs) - shorts + gain c.
Proof.
  intros Hk Hl Hal Hfull [He (a & s & l & Hk' & Ha & Hu)] Hc Hcm Hlft Hpos Hcnt Hmany. rewrite Hk in Hk'. injection Hk' as <- <-.
  assert (HW := weight_pos root ltac:(lia)). assert (Hb : P k + weight root <= kraft cs).
  { assert (HP := pos_lt15 _ _ _ Hk). destruct Hal as [q Hq]. assert (Hd : 2 ^ 15 = 2 ^ root * weight root) by (unfold weight; rewrite <- Z.pow_add_r by lia; f_equal; lia).
    rewrite Hfull. rewrite Hd in *. rewrite Hq in *. assert (q < 2 ^ root) by nia. nia. }
  specialize (Hmany Hb). assert (Hlv := pos_level (root + c) k (Z.to_nat lft) ltac:(lia)). rewrite Z2Nat.id in Hlv by lia.
  set (m := (k + short_count (root + c - 1) k + Z.to_nat lft)%nat) in *. assert (Hm : (m <= length cs)%nat).
  { pose proof (short_count_succ (root + c) k). pose proof (short_count_le (root + c) k). apply lookup_lt_Some in Hk. unfold m. lia. }
  assert (Hpm : P m = P k + weight root) by lia. pose proof (gain_mono a (l0 - root) ltac:(lia)) as Hg. unfold gain in *.
  assert (Hmk : used + 2 ^ c - 2 ^ root <= Z.of_nat m - shorts + (2 ^ c - c - 1)) by (unfold m; lia). split; [|lia].
  right. split; [done|]. split; [|split; [lia|exists m; split; [done|]; split; [done|]; split]].
  - replace (used + 2 ^ c - 2 ^ root) with (used - 2 ^ root + 2 ^ c) by lia. apply Z.divide_add_r; [done|]. exists (2 ^ (c - 1)). rewrite Z.mul_comm, <- Z.pow_succ_r by lia. f_equal. lia.
  - destruct Hal as [q Hq]. rewrite Hpm, Hq, Z.div_mul by lia. lia.
  - intros j s l Hj Hjl. destruct (Z.lt_ge_cases l (root + c)) as [Hlt|]; [|lia]. exfalso.
    pose proof (short_count_iff (root + c - 1) k (j - k) s l ltac:(replace (k + (j - k))%nat with j by lia; done)). lia.
Qed.

(** Every stream before position [p] leads to its symbol; the streams of the current sub-table
    may lead into it. *)
Definition decodes (tbl : list code) (used curr drop low p : Z) : Prop :=
  forall h, 0 <= h < 2 ^ 15 -> rev 15 h < p ->
    exists sl, find_sym cs 0 (rev 15 h) = Some sl /\
      (resolves tbl (used - 2 ^ curr) h sl \/ (drop = root /\ h mod 2 ^ root = low /\ resolves tbl used h sl)).

(** Which table is being filled. *)
Definition filling (k : nat) (tbl : list code) (len used curr drop low : Z) : Prop :=
  (drop = 0 /\ curr = root /\ used = 2 ^ root /\ low = 2 ^ 32 - 1 /\ len <= root) \/
  (drop = root /\ root < len <= root + curr /\ root + curr <= 15 /\ low = rev 15 (P k) mod 2 ^ root /\
   2 ^ root <= used - 2 ^ curr /\ aget tbl (table + low) = Some (Code curr root (used - 2 ^ curr)) /\
   forall j s l, (k <= j)%nat -> cs !! j = Some (s, l) -> P j / weight root = P k / weight root -> l <= root + curr).

Record linv (k : nat) (s : tstate) : Prop := {
  i_sym : t_sym s = Z.of_nat k;
  i_cur : exists sy, cs !! k = Some (sy, t_len s);
  i_huff : t_huff s = rev 15 (P k);
  i_count : length (t_count s) = 16%nat /\
    forall l, 1 <= l <= 15 -> aget (t_count s) l = Some (cntl l (drop k cs));
  i_len : Z.of_nat (length (t_tbl s)) = N;
  i_next : t_next s = table + t_used s - 2 ^ t_curr s;
  i_used : 0 <= t_used s <= room;
  i_frame : forall j, j < table -> aget (t_tbl s) j = aget tbl0 j;
  i_fill : filling k (t_tbl s) (t_len s) (t_used s) (t_curr s) (t_drop s) (t_low s);
  i_dec : decodes (t_tbl s) (t_used s) (t_curr s) (t_drop s) (t_low s) (P k);
  i_acc : kraft cs = 2 ^ 15 -> counting k (t_used s) (t_curr s) (t_drop s) }.

(** Entering the code of symbol [k]. *)
Lemma enter_code_spec k s :
  linv k s ->
  exists tbl, enter_code type work s = Some (tbl, if P (S k) <? 2 ^ 15 then rev 15 (P (S k)) else 0) /\
    Z.of_nat (length tbl) = N /\ (forall j, j < table -> aget tbl j = aget tbl0 j) /\
    (t_drop s = root -> aget tbl (table + t_low s) = aget (t_tbl s) (table + t_low s)) /\
    decodes tbl (t_used s) (t_curr s) (t_drop s) (t_low s) (P (S k)).
Proof.
  intros [Isym [sy Hk] Ihuff [Icl Icount] Ilen Inext [Iu0 Iu] Iframe Ifill Idec _].
  destruct (Hwork _ _ _ Hk) as (Hw & _ & Hsy & HlM). set (L := t_len s) in *.
  assert (HL := lens_ok_lookup _ _ _ _ Hlok Hk). destruct (pos_lt _ _ _ Hk) as (HP0 & HP1 & HPS).
  assert (HP15 := pos_lt15 _ _ _ Hk). assert (Hal := pos_aligned _ _ _ _ Hlok Hsort Hk).
  assert (Hhuff := rev15_short (P k) L ltac:(lia) HP15 Hal). rewrite <- Ihuff in Hhuff.
  assert (Hkey : forall h, 0 <= h < 2 ^ 15 -> h mod 2 ^ L = t_huff s <-> P k <= rev 15 h < P (S k)).
  { intros h Hh. rewrite HPS, <- rev15_interval, <- Ihuff by (done || lia).
    by rewrite (Z.mod_small (t_huff s)). }
  set (d := t_drop s) in *. set (c := t_curr s) in *.
  assert (Hd : 0 <= d /\ L - d <= c /\ d < L).
  { destruct Ifill as [(-> & -> & _ & _ & ?)|(-> & ? & _)]; lia. }
  assert (Hhd : 0 <= t_huff s ≫ d < 2 ^ (L - d)).
  { rewrite Z.shiftr_div_pow2 by lia. assert (0 < 2 ^ d) by (apply pow2_pos; lia).
    split; [apply Z.div_pos; lia|]. apply Z.div_lt_upper_bound; [lia|].
    rewrite <- Z.pow_add_r by lia. replace (d + (L - d)) with L by lia. lia. }
  destruct (make_entry_ok type sy (L - d) Hsy) as (e & He & Hbe).
  assert (Hnx : table <= t_next s).
  { rewrite Inext. destruct Ifill as [(_ & -> & -> & _)|(_ & _ & _ & _ & ? & _)]; [lia|].
    assert (0 < 2 ^ root) by (apply pow2_pos; lia). unfold c in *. lia. }
  destruct (fill_table (t_tbl s) (t_next s) c (L - d) (t_huff s ≫ d) e) as (tbl & Ef & Hlen & Hin & Hout);
    [lia|lia|unfold c in *; lia|done|].
  exists tbl. unfold enter_code. rewrite Isym, Hw. cbn [mbind option_bind].
  fold L d c. rewrite u8_small by lia. rewrite He. cbn [mbind option_bind]. rewrite Ef. cbn [mbind option_bind].
  rewrite Ihuff, backwards_increment_spec, <- HPS by done. split; [done|]. split; [lia|].
  split; [intros j Hj; rewrite Hout by lia; by apply Iframe|].
  destruct Ifill as [(Ed & Ec & Eu & Elow & HLr)|(Ed & HLr & Hrc & Elow & Hur & Hlk & Hfit)].
  - (* the root table *)
    split; [lia|]. intros h Hh Hv. fold d c. rewrite Ed, Ec, Eu, Z.sub_0_r in *.
    rewrite Z.shiftr_0_r in *. assert (Enx : t_next s = table) by (unfold c in *; lia). rewrite Enx in *.
    assert (Hy := Z.mod_pos_bound h (2 ^ root) ltac:(lia)).
    assert (Hg := Hin (h mod 2 ^ root) Hy). rewrite mod_mod_pow2 in Hg by lia.
    destruct (Z.eqb_spec (h mod 2 ^ L) (t_huff s)) as [Eh|Eh].
    + exists (sy, L). apply Hkey in Eh; [|done]. split; [by eapply find_sym_pos|].
      left. left. exists e. done.
    + destruct (Idec h Hh) as (sl & Hf & Hr).
      { destruct (Z.lt_ge_cases (rev 15 h) (P k)); [done|]. exfalso. apply Eh, Hkey; done. }
      exists sl. split; [done|].
      destruct Hr as [Hr|(? & _)]; [|lia]. left.
      apply (resolves_frame _ _ _ _ _ _ _ _ Hr); [done|].
      intros c' off _ Ho Hoc Hc1 _. assert (0 < 2 ^ c') by (apply pow2_pos; lia).
      assert (0 < 2 ^ root) by (apply pow2_pos; lia). lia.
  - (* a sub-table *)
    assert (Hp2 : 0 < 2 ^ root) by (apply pow2_pos; lia). assert (Hc2 : 0 < 2 ^ c) by (apply pow2_pos; lia).
    assert (Hlow : 0 <= t_low s < 2 ^ root) by (rewrite Elow; apply Z.mod_pos_bound; lia).
    assert (Hroot_same : forall y, 0 <= y < 2 ^ root -> aget tbl (table + y) = aget (t_tbl s) (table + y)).
    { intros y Hy. apply Hout. left. rewrite Inext. unfold c in *. lia. }
    split; [intros _; by apply Hroot_same|]. intros h Hh Hv. fold d c. rewrite Ed in *.
    assert (Hy := Z.mod_pos_bound h (2 ^ root) Hp2).
    set (y := (h / 2 ^ root) mod 2 ^ c). assert (Hyc : 0 <= y < 2 ^ c) by (apply Z.mod_pos_bound; lia).
    assert (Hym : h mod 2 ^ L = h mod 2 ^ root + 2 ^ root * (y mod 2 ^ (L - root))).
    { unfold y. rewrite mod_mod_pow2 by lia. rewrite <- mod_split by lia. f_equal. f_equal. lia. }
    assert (Hhm : t_huff s = t_low s + 2 ^ root * (t_huff s ≫ root)).
    { rewrite Elow, <- Ihuff, Z.shiftr_div_pow2 by lia. rewrite (Z.div_mod (t_huff s) (2 ^ root)) at 1 by lia. lia. }
    destruct (decide (h mod 2 ^ L = t_huff s)) as [Eh|Eh].
    + assert (Ehl : h mod 2 ^ root = t_low s).
      { rewrite Elow, <- Ihuff, <- Eh. by rewrite mod_mod_pow2 by lia. }
      apply Hkey in Eh as Ev; [|done]. exists (sy, L). split; [by eapply find_sym_pos|].
      right. split; [done|]. split; [done|]. right. exists c, (t_used s - 2 ^ c), e.
      rewrite Ehl, Hroot_same by done. split; [done|]. cbn [fst snd].
      repeat (split; [done || lia|]). fold y.
      replace (table + (t_used s - 2 ^ c) + y) with (t_next s + y) by (unfold c in *; lia).
      rewrite Hin by done. destruct (Z.eqb_spec (y mod 2 ^ (L - root)) (t_huff s ≫ root)) as [_|Ne]; [|exfalso; nia].
      repeat (split; [done || lia|]). lia.
    + destruct (Idec h Hh) as (sl & Hf & Hr).
      { destruct (Z.lt_ge_cases (rev 15 h) (P k)); [done|]. exfalso. apply Eh, Hkey; done. }
      exists sl. split; [done|]. fold d c in Hr. destruct Hr as [Hr|(_ & Ehl & Hr)]; [left|right].
      * apply (resolves_frame _ _ _ _ _ _ _ _ Hr); [by apply Hroot_same|].
        intros c' off _ Ho Hoc Hc1 _. apply Hout. left. rewrite Inext.
        assert (Hb := Z.mod_pos_bound (h / 2 ^ root) (2 ^ c') ltac:(lia)). unfold c in *. lia.
      * split; [done|]. split; [done|].
        apply (resolves_frame _ _ _ _ _ _ _ _ Hr); [by apply Hroot_same|].
        intros c' off Hl' Ho Hoc Hc1 _. rewrite Ehl, Hlk in Hl'. injection Hl' as <- <-. fold c. fold y.
        replace (table + (t_used s - 2 ^ c) + y) with (t_next s + y) by (unfold c in *; lia).
        rewrite Hin by done. destruct (Z.eqb_spec (y mod 2 ^ (L - root)) (t_huff s ≫ root)) as [Ne|]; [|done].
        exfalso. apply Eh. rewrite Hym, Ne, Ehl. lia.
Qed.

Lemma pos_strict i j : (i < j <= length cs)%nat -> P i < P j.
Proof.
  intros H. destruct (lookup_lt_is_Some_2 cs i ltac:(lia)) as [[s l] Hl]. assert (Hw := weight_pos l ltac:(pose proof (lens_ok_lookup _ _ _ _ Hlok Hl); lia)).
  pose proof (pos_mono cs (S i) j Hlok ltac:(lia)). rewrite (pos_S _ _ _ _ Hl) in *. lia.
Qed.

(** The first code after a sub-table. *)
Lemma next_counted k sy l' used curr :
  counting k used curr root -> cs !! S k = Some (sy, l') -> (weight root | P (S k)) -> P k < P (S k) -> P (S k) <= P k + weight root -> counted (S k) used.
Proof.
  intros [[? _]|(_ & He & Hc & m & Hm & Hu & Hp & Hlong)] Hk [q Hq] H1 H2; [lia|]. split; [done|]. exists curr, sy, l'. assert (HW := weight_pos root ltac:(lia)).
  assert (P (S k) = P m).
  { pose proof (Z.div_mod (P k) (weight root) ltac:(lia)). pose proof (Z.mod_pos_bound (P k) (weight root) HW). assert (q = P k / weight root + 1) by nia. nia. }
  assert (m <= S k)%nat. { destruct (Nat.le_gt_cases m (S k)); [done|]. pose proof (pos_strict (S k) m ltac:(lia)). lia. }
  split; [done|]. pose proof (Hlong (S k) _ _ ltac:(lia) Hk). split; [lia|]. lia.
Qed.

(** Two consecutive codes under different root indices: the second starts its index. *)
Lemma crossing W w a : 0 < w -> 0 < W -> (w | W) -> (w | a) -> a / W <> (a + w) / W -> (W | a + w).
Proof.
  intros Hw HW [q ->] [p ->] Hne. assert (0 < q) by nia.
  rewrite !Z.div_mul_cancel_r in Hne by lia. replace (p * w + w) with ((p + 1) * w) in * by lia.
  rewrite Z.div_mul_cancel_r in Hne by lia. apply Z.mul_divide_mono_r.
  exists (p / q + 1). pose proof (Z.div_mod p q ltac:(lia)). pose proof (Z.mod_pos_bound p q ltac:(lia)).
  destruct (Z.eq_dec (p mod q) (q - 1)); [lia|]. exfalso. apply Hne.
  apply Z.div_unique with (p mod q + 1); lia.
Qed.

(** A state that has entered the symbols before [k], before it chooses the table for [k]. *)
Record entered (k : nat) (s : tstate) : Prop := {
  e_sym : t_sym s = Z.of_nat k;
  e_cur : exists sy, cs !! k = Some (sy, t_len s);
  e_huff : t_huff s = rev 15 (P k);
  e_count : length (t_count s) = 16%nat /\
    forall l, 1 <= l <= 15 -> aget (t_count s) l = Some (cntl l (drop k cs));
  e_len : Z.of_nat (length (t_tbl s)) = N;
  e_next : t_next s = table + t_used s - 2 ^ t_curr s;
  e_used : 2 ^ root <= t_used s <= room;
  e_frame : forall j, j < table -> aget (t_tbl s) j = aget tbl0 j;
  e_curr : 0 <= t_curr s;
  e_drop : t_drop s = 0 \/ t_drop s = root;
  e_dec : decodes (t_tbl s) (t_used s) (t_curr s) (t_drop s) (t_low s) (P k) }.

(** A complete code that needs more entries than there are. *)
Definition too_many : Prop :=
  kraft cs = 2 ^ 15 -> exists u c, 1 <= c <= max - root /\ (2 | u) /\ u <= Z.of_nat (length cs) - shorts + gain c /\ not_enough type (2 ^ root + u) = true.

Lemma huff_mask p : rev 15 p .& ((1 ≪ root) - 1) = rev 15 p mod 2 ^ root.
Proof. rewrite Z.shiftl_1_l. apply land_mask. lia. Qed.

Lemma new_subtable_spec k s :
  entered k s -> root < t_len s -> (weight root | P k) -> (kraft cs = 2 ^ 15 -> counted k (t_used s)) ->
  new_subtable type table root max s = Some (inl (1, t_tbl s)) /\ type <> CODES /\ root < max /\ too_many \/
  exists s', new_subtable type table root max s = Some (inr s') /\ linv k s'.
Proof.
  intros [Esym [sy Hk] Ehuff [Ecl Ecount] Elen Enext [Eu Eu2] Eframe Ec0 Edrop Edec] Hlen Hal Hacc.
  assert (HL := lens_ok_lookup _ _ _ _ Hlok Hk). assert (HlM : t_len s <= max) by (apply Hwork in Hk; tauto).
  assert (HP15 := pos_lt15 _ _ _ Hk). assert (Hp2 : 0 < 2 ^ root) by (apply pow2_pos; lia).
  assert (HW := weight_pos root ltac:(lia)).
  unfold new_subtable. replace (if t_drop s =? 0 then root else t_drop s) with root.
  2:{ destruct Edrop as [->| ->]; [done|]. by destruct (Z.eqb_spec root 0). }
  destruct (next_curr_spec k sy (t_len s) (t_count s) 16 (t_len s - root) (1 ≪ (t_len s - root)))
    as (c' & -> & Hc1 & Hc2 & Hfit & lft' & L1 & L2 & L3 & L4); [done|lia|done|lia|lia|lia| | | |].
  { rewrite (short_kraft_none _ k sy (t_len s) Hk) by lia. replace (root + (t_len s - root)) with (t_len s) by lia.
    unfold weight. rewrite Z.shiftl_1_l, <- Z.pow_add_r by lia. rewrite Z.sub_0_r. f_equal. lia. }
  { rewrite Z.shiftl_1_l. apply pow2_pos. lia. }
  { rewrite Z.shiftl_1_l. lia. }
  cbn [mbind option_bind]. rewrite !Z.shiftl_1_l.
  assert (Hc'2 : 0 < 2 ^ c') by (apply pow2_pos; lia).
  assert (Hsub := fun Hf => subtable_counted k sy (t_len s) (t_used s) c' lft' Hk Hlen Hal Hf (Hacc Hf) Hc1 Hc2 L1 L2 L3 L4).
  destruct (not_enough type (t_used s + 2 ^ c')) eqn:En.
  { left. split; [done|]. split; [by intros ->|]. split; [lia|]. intros Hf. destruct (Hsub Hf) as [[[? _]|(_ & Hev & _)] Hle]; [lia|].
    exists (t_used s + 2 ^ c' - 2 ^ root), c'. split; [lia|]. split; [done|]. split; [done|]. by replace (2 ^ root + (t_used s + 2 ^ c' - 2 ^ root)) with (t_used s + 2 ^ c') by lia. }
  right. assert (Hs1 := Hspace (t_used s + 2 ^ c') ltac:(lia) En). specialize (Hs1 ltac:(intros Ht; specialize (Hcodes Ht); lia)).
  rewrite land_mask, Ehuff by lia. set (low := rev 15 (P k) mod 2 ^ root).
  assert (Hlow : 0 <= low < 2 ^ root) by (apply Z.mod_pos_bound; lia).
  rewrite aset_in by lia. cbn [mbind option_bind]. eexists. split; [done|].
  rewrite !u8_small, u16_small by lia. set (tbl := <[_ := _]> (t_tbl s)).
  assert (Hg : forall j, aget tbl j = if j =? table + low then
    Some (Code c' root (t_used s)) else aget (t_tbl s) j).
  { intros j. unfold tbl. rewrite aget_insert by lia. by replace (t_next s + 2 ^ t_curr s - table) with (t_used s) by lia. }
  split; cbn [t_sym t_len t_huff t_count t_tbl t_next t_used t_curr t_drop t_low]; try done.
  - by exists sy.
  - unfold tbl. by rewrite length_insert.
  - lia.
  - lia.
  - intros j Hj. rewrite Hg. destruct (Z.eqb_spec j (table + low)); [lia|]. by apply Eframe.
  - right. split; [done|]. split; [lia|]. split; [lia|]. split; [done|]. split; [lia|].
    split; [|done]. rewrite Hg, Z.eqb_refl. do 2 f_equal. lia.
  - intros h Hh Hv. destruct (Edec h Hh Hv) as (sl & Hf & Hr). exists sl. split; [done|]. left.
    assert (Hne : h mod 2 ^ root <> low).
    { intros Eq. unfold low in Eq. rewrite <- (rev_invol 15 h Hh) in Eq at 1.
      apply rev15_prefix in Eq; [|lia|apply rev15_range|done].
      destruct Hal as [q Hq]. rewrite Hq, Z.div_mul in Eq by lia.
      pose proof (Z.div_mod (rev 15 h) (weight root) ltac:(lia)).
      pose proof (Z.mod_pos_bound (rev 15 h) (weight root) HW). nia. }
    assert (Hy := Z.mod_pos_bound h (2 ^ root) Hp2).
    assert (Hr' : resolves (t_tbl s) (t_used s + 2 ^ c' - 2 ^ c') h sl).
    { assert (0 < 2 ^ t_curr s) by (apply pow2_pos; lia).
      destruct Hr as [Hr|(_ & _ & Hr)]; (eapply resolves_lim; [|exact Hr]); lia. }
    apply (resolves_frame _ _ _ _ _ _ _ _ Hr').
    + rewrite Hg. destruct (Z.eqb_spec (table + h mod 2 ^ root) (table + low)); [lia|done].
    + intros c0 off _ Ho _ Hc0 _. rewrite Hg.
      pose proof (Z.mod_pos_bound (h / 2 ^ root) (2 ^ c0) (pow2_pos c0 ltac:(lia))).
      destruct (Z.eqb_spec (table + off + (h / 2 ^ root) mod 2 ^ c0) (table + low)); [lia|done].
  - intros Hf. apply (Hsub Hf).
Qed.

Lemma cntl_drop k s l x : cs !! k = Some (s, l) ->
  cntl x (drop k cs) = (if l =? x then 1 else 0) + cntl x (drop (S k) cs).
Proof. intros Hk. by rewrite (drop_S _ _ _ Hk), cntl_cons. Qed.

(** The length of the next code. *)
Lemma next_len k s l s' l' :
  cs !! k = Some (s, l) -> cs !! S k = Some (s', l') ->
  let c := cntl l (drop (S k) cs) in
  (c =? 0) && (l =? max) = false /\
  (if c =? 0 then w ← aget work (Z.of_nat (S k)); aget lens w else Some l) = Some l'.
Proof.
  intros Hk Hk' c. destruct (Hwork _ _ _ Hk') as (Hw & Hlw & _ & HlM').
  pose proof (Hsort k (S k) _ _ _ _ ltac:(lia) Hk Hk') as Hle.
  assert (Hc : c = 0 -> l <> l').
  { intros E <-. pose proof (cntl_drop _ _ _ l Hk') as H. rewrite Z.eqb_refl in H.
    pose proof (cntl_nonneg l (drop (S (S k)) cs)). unfold c in E. lia. }
  split.
  - destruct (Z.eqb_spec c 0), (Z.eqb_spec l max); simpl; try done. specialize (Hc ltac:(done)). lia.
  - rewrite Hw. cbn [mbind option_bind]. rewrite Hlw. destruct (Z.eqb_spec c 0) as [|E]; [done|].
    f_equal. assert (0 < c) as (i & s0 & Hi)%cntl_pos_inv by (pose proof (cntl_nonneg l (drop (S k) cs)); unfold c in *; lia).
    rewrite lookup_drop in Hi. pose proof (Hsort (S k) (S k + i)%nat _ _ _ _ ltac:(lia) Hk' Hi). lia.
Qed.

(** The state at the end of the loop. *)
Record finished (s : tstate) : Prop := {
  f_len : Z.of_nat (length (t_tbl s)) = N;
  f_used : 2 ^ root <= t_used s <= room;
  f_frame : forall j, j < table -> aget (t_tbl s) j = aget tbl0 j;
  f_tlen : t_len s = max;
  f_huff : t_huff s = if kraft cs <? 2 ^ 15 then rev 15 (kraft cs) else 0;
  f_root : max <= root -> t_drop s = 0 /\ t_next s = table /\ t_used s = 2 ^ root;
  f_dec : forall h, 0 <= h < 2 ^ 15 -> rev 15 h < kraft cs ->
    exists sl, find_sym cs 0 (rev 15 h) = Some sl /\ resolves (t_tbl s) (t_used s) h sl }.

Lemma decodes_all tbl used curr dr low p h :
  0 <= curr -> decodes tbl used curr dr low p -> 0 <= h < 2 ^ 15 -> rev 15 h < p ->
  exists sl, find_sym cs 0 (rev 15 h) = Some sl /\ resolves tbl used h sl.
Proof.
  intros Hc Hd Hh Hv. destruct (Hd h Hh Hv) as (sl & Hf & Hr). exists sl. split; [done|].
  assert (0 < 2 ^ curr) by (apply pow2_pos; lia).
  destruct Hr as [Hr|(_ & _ & Hr)]; [|done]. eapply resolves_lim; [|exact Hr]. lia.
Qed.

Lemma filling_curr k tbl len used curr dr low :
  filling k tbl len used curr dr low ->
  0 <= curr /\ 2 ^ root <= used /\ (dr = 0 \/ dr = root).
Proof.
  intros [(-> & -> & -> & _)|(-> & ? & ? & _ & ? & _)]; [repeat split; [lia|lia|by left]|].
  assert (0 < 2 ^ curr) by (apply pow2_pos; lia). repeat split; [lia|lia|by right].
Qed.

(** Entering a code, then deciding for the next one: at most a new sub-table is created. *)
Lemma choose_table k s s' sy l' :
  linv k s -> entered (S k) s' -> cs !! S k = Some (sy, l') -> t_len s' = l' ->
  t_used s' = t_used s -> t_curr s' = t_curr s -> t_drop s' = t_drop s -> t_low s' = t_low s ->
  (t_drop s = root -> aget (t_tbl s') (table + t_low s) = aget (t_tbl s) (table + t_low s)) ->
  let c := (root <? l') && negb (t_huff s' .& ((1 ≪ root) - 1) =? t_low s') in
  (c = true -> root < t_len s' /\ (weight root | P (S k)) /\ (kraft cs = 2 ^ 15 -> counted (S k) (t_used s'))) /\ (c = false -> linv (S k) s').
Proof.
  intros Hi He Hk' El Eu Ec Ed Elow Hlk c. destruct (i_cur _ _ Hi) as [sk Hk].
  pose proof (Hsort k (S k) _ _ _ _ ltac:(lia) Hk Hk') as Hle.
  assert (HL := lens_ok_lookup _ _ _ _ Hlok Hk). destruct (pos_lt _ _ _ Hk) as (HP0 & HP1 & HPS).
  assert (HP15 := pos_lt15 _ _ _ Hk). assert (HP15' := pos_lt15 _ _ _ Hk').
  assert (Hal := pos_aligned _ _ _ _ Hlok Hsort Hk).
  assert (HW := weight_pos root ltac:(lia)). assert (Hw := weight_pos (t_len s) ltac:(lia)).
  assert (Hmk : t_huff s' .& ((1 ≪ root) - 1) = rev 15 (P (S k)) mod 2 ^ root).
  { rewrite (e_huff _ _ He). apply huff_mask. }
  unfold c. rewrite Hmk, Elow. clear c. destruct (i_fill _ _ Hi) as [F|F].
  - destruct F as (Fd & Fc & Fu & Fl & FL). split.
    + intros H%andb_true_iff. split; [lia|]. split; [rewrite HPS; apply Z.divide_add_r|].
      * etransitivity; [|exact Hal]. apply weight_divide. lia.
      * apply weight_divide. lia.
      * intros _. unfold counted. rewrite Eu, Fu, Z.sub_diag. split; [by exists 0|]. exists 1, sy, l'. split; [done|]. split; [lia|].
        pose proof (shorts_le (S k) sy l' Hk' ltac:(lia)). change (gain 1) with 0. lia.
    + intros H. assert (l' <= root).
      { destruct (Z.ltb_spec root l'); [|done]. cbn [andb] in H. rewrite Fl in H.
        pose proof (Z.mod_pos_bound (rev 15 (P (S k))) (2 ^ root) (pow2_pos root ltac:(lia))).
        assert (2 ^ root <= 2 ^ 15) by (apply Z.pow_le_mono_r; lia).
        destruct (Z.eqb_spec (rev 15 (P (S k)) mod 2 ^ root) (2 ^ 32 - 1)); [lia|done]. }
      destruct He. split; try done; [lia| |]; [left; rewrite Ed, Ec, Eu, Elow, El; done|]. intros _. left. by rewrite Ed, Eu.
  - destruct F as (Fd & FL & Fc & Fl & Fu & Fk & Ffit). split.
    + intros H%andb_true_iff. split; [lia|]. assert (Hdiv : (weight root | P (S k))).
      { rewrite HPS. apply crossing; try done.
        - apply weight_divide. lia.
        - rewrite <- HPS. intros Eq. apply (rev15_prefix _ _ root) in Eq; [|lia|done|done].
          rewrite Fl, Eq in H. rewrite Z.eqb_refl in H. destruct H as [_ H]. done. }
      split; [done|]. intros Hf. pose proof (weight_le root (t_len s) ltac:(lia)). apply (next_counted k sy l' (t_used s') (t_curr s)); try done; [|lia|lia].
      destruct (i_acc _ _ Hi Hf) as [[? _]|Ha]; [lia|]. rewrite Eu. right. by rewrite <- Fd at 1.
    + intros H. assert (Hlow : rev 15 (P (S k)) mod 2 ^ root = t_low s).
      { destruct (Z.ltb_spec root l'); [|lia]. cbn [andb] in H. apply negb_false_iff, Z.eqb_eq in H. done. }
      assert (Hdiv : P (S k) / weight root = P k / weight root).
      { apply rev15_prefix; [lia|done|done|]. by rewrite Hlow. }
      assert (l' <= root + t_curr s) by (eapply (Ffit (S k)); [lia|done|done]).
      destruct He. split; try done; [lia|right; rewrite Ed, Ec, Eu, Elow, El|].
      { repeat (split; [done || lia|]). split; [by rewrite Hlk|]. intros j s0 l0 Hj Hj0 Hq. eapply (Ffit j); [lia|done|]. by rewrite Hq. }
      intros Hf. assert (Ha := i_acc _ _ Hi Hf). unfold counting in *. rewrite ?Ed, ?Ec, ?Eu, Hdiv. exact Ha.
Qed.

(** The state after symbol [k] is entered, with the length [len] of the next. *)
Definition after (s : tstate) (tbl : list code) (huff len : Z) : tstate :=
  {| t_tbl := tbl; t_count := <[Z.to_nat (t_len s) := u16 (cntl (t_len s) (drop (Z.to_nat (t_sym s)) cs) - 1)]> (t_count s);
     t_huff := huff; t_sym := t_sym s + 1; t_len := len; t_next := t_next s; t_curr := t_curr s;
     t_drop := t_drop s; t_low := t_low s; t_used := t_used s |}.

Lemma after_entered k s tbl huff s' l' :
  linv k s -> cs !! S k = Some (s', l') -> Z.of_nat (length tbl) = N ->
  (forall j, j < table -> aget tbl j = aget tbl0 j) ->
  decodes tbl (t_used s) (t_curr s) (t_drop s) (t_low s) (P (S k)) -> huff = rev 15 (P (S k)) ->
  entered (S k) (after s tbl huff l').
Proof.
  intros Hi Hk' Hl Hfr Hd Hh. destruct (filling_curr _ _ _ _ _ _ _ (i_fill _ _ Hi)) as (Hc & Hu & Hdr).
  destruct Hi as [Isym [sy Hk] _ [Icl Icount] _ Inext [_ Iu] _ _ _].
  assert (HL := lens_ok_lookup _ _ _ _ Hlok Hk).
  split; cbn [after t_tbl t_count t_huff t_sym t_len t_next t_curr t_drop t_low t_used]; try (done || lia).
  - by exists s'.
  - rewrite length_insert. split; [done|]. intros l Hl'. rewrite aget_insert by lia.
    rewrite Isym, Nat2Z.id, (cntl_drop _ _ _ (t_len s) Hk), Z.eqb_refl.
    destruct (Z.eqb_spec l (t_len s)) as [->|Hne].
    + pose proof (cntl_nonneg (t_len s) (drop (S k) cs)).
      assert (cntl (t_len s) (drop (S k) cs) <= Z.of_nat (length cs)).
      { unfold cntl. pose proof (length_filter (fun sl : Z * Z => sl.2 = t_len s) (drop (S k) cs)).
        rewrite length_drop in *. lia. }
      rewrite u16_small by lia. f_equal. lia.
    + rewrite Icount by lia. rewrite (cntl_drop _ _ _ l Hk). destruct (Z.eqb_spec (t_len s) l); [lia|]. f_equal.
Qed.

Lemma code_loop_spec fuel k s :
  linv k s -> (length cs - k <= fuel)%nat ->
  (exists tbl, code_loop type lens work table root max fuel s = Some (inl (1, tbl)) /\
     type <> CODES /\ root < max /\ too_many /\ Z.of_nat (length tbl) = N /\ forall j, j < table -> aget tbl j = aget tbl0 j) \/
  exists s', code_loop type lens work table root max fuel s = Some (inr s') /\ finished s'.
Proof.
  revert k s. induction fuel as [|fuel IH]; intros k s Hi Hf.
  { destruct (i_cur _ _ Hi) as [sy Hk]. apply lookup_lt_Some in Hk. lia. }
  cbn [code_loop]. destruct (enter_code_spec k s Hi) as (tbl & -> & Hlt & Hfr & Hlk & Hd). cbn [mbind option_bind].
  destruct (i_cur _ _ Hi) as [sy Hk]. destruct (i_count _ _ Hi) as [Hcl Hcount].
  assert (HL := lens_ok_lookup _ _ _ _ Hlok Hk). destruct (pos_lt _ _ _ Hk) as (HP0 & HP1 & HPS).
  rewrite Hcount by lia. cbn [mbind option_bind]. rewrite aset_in by lia. cbn [mbind option_bind].
  assert (Hcd := cntl_drop _ _ _ (t_len s) Hk). rewrite Z.eqb_refl in Hcd.
  assert (Hcr : u16 (cntl (t_len s) (drop k cs) - 1) = cntl (t_len s) (drop (S k) cs)).
  { rewrite Hcd. replace (1 + cntl (t_len s) (drop (S k) cs) - 1) with (cntl (t_len s) (drop (S k) cs)) by lia.
    apply u16_small. pose proof (length_filter (fun sl : Z * Z => sl.2 = t_len s) (drop (S k) cs)).
    unfold cntl. rewrite length_drop in *. lia. }
  rewrite Hcr. rewrite (i_sym _ _ Hi). replace (Z.of_nat k + 1) with (Z.of_nat (S k)) by lia.
  destruct (filling_curr _ _ _ _ _ _ _ (i_fill _ _ Hi)) as (Hc0 & Hu & Hdr).
  destruct (cs !! S k) as [[s' l']|] eqn:Hk'.
  - destruct (next_len _ _ _ _ _ Hk Hk') as [-> ->]. cbn [mbind option_bind].
    assert (HP15 := pos_lt15 _ _ _ Hk'). destruct (Z.ltb_spec (P (S k)) (2 ^ 15)); [|lia].
    assert (He := after_entered k s tbl _ _ _ Hi Hk' Hlt Hfr Hd eq_refl). unfold after in He.
    rewrite (i_sym _ _ Hi), Nat2Z.id, Hcr in He. replace (Z.of_nat k + 1) with (Z.of_nat (S k)) in He by lia.
    destruct (choose_table k s _ _ _ Hi He Hk' eq_refl eq_refl eq_refl eq_refl eq_refl Hlk) as [Hnew Hsame].
    cbn [t_huff t_low t_len] in Hnew, Hsame |- *.
    destruct ((root <? l') && _) eqn:Ech.
    + destruct (Hnew eq_refl) as (Hrl & Hal & Hcnt).
      destruct (new_subtable_spec (S k) _ He Hrl Hal Hcnt) as [(-> & Hty & Hrm & Hmany)|(s2 & -> & Hi2)]; cbn [mbind option_bind t_tbl].
      * left. by exists tbl.
      * apply (IH (S k)); [done|lia].
    + apply (IH (S k)); [by apply Hsame|lia].
  - right. apply lookup_ge_None_1 in Hk'.
    assert (Hdn : drop (S k) cs = []) by (by apply drop_ge). rewrite Hdn. change (cntl _ []) with 0.
    destruct Hmax as (km & sm & Hkm).
    pose proof (Hsort km k _ _ _ _ ltac:(apply lookup_lt_Some in Hkm; lia) Hkm Hk).
    assert (Hlm : t_len s = max) by (destruct (Hwork _ _ _ Hk) as (_ & _ & _ & ?); lia).
    destruct (Z.eqb_spec (t_len s) max); [|lia]. cbn [andb Z.eqb]. eexists. split; [done|].
    assert (HPn : P (S k) = kraft cs) by (unfold pos; by rewrite take_ge).
    rewrite HPn in *. assert (Hiu := i_used _ _ Hi).
    split; cbn [t_tbl t_count t_huff t_sym t_len t_next t_curr t_drop t_low t_used]; try (done || lia).
    + intros Hmr. pose proof (i_next _ _ Hi). destruct (i_fill _ _ Hi) as [(? & Ec & Eu & _)|(_ & ? & _)]; [|lia].
      rewrite Ec in *. split; [done|]. split; [lia|done].
    + intros h Hh Hv. by eapply decodes_all.
Qed.
End loop.

(** ** The whole function *)

(** Reading a symbol with the tables, as the decoder does: the entry's [op] and [val] and the bits
    consumed. [rd] reads an entry; a link to a second-level table has the index bits of the root table and
    an [op] below 16, and the entries of that table have the rest of the bits. *)
Definition lookup (rd : Z -> option code) (root h : Z) : option (Z * Z * Z) :=
  here ← rd (h .& ((1 ≪ root) - 1));
  if is_link here then
    e ← rd (val here + ((h .& ((1 ≪ (bits here + op here)) - 1)) ≫ bits here));
    if (bits here =? root) && (0 <? op here) && (op here <? 16) && (0 <? bits e) then Some (op e, val e, bits here + bits e) else None
  else Some (op here, val here, bits here).

Definition lookup_code (tbl : list code) (table root h : Z) : option (Z * Z * Z) :=
  lookup (fun i => aget tbl (table + i)) root h.

(** What the canonical code says: the entry of the decoded symbol, or the invalid code. *)
Definition decoded (type : codetype) (sl : option (Z * Z)) : option (Z * Z * Z) :=
  match sl with
  | Some (s, l) => e ← make_entry type s l; Some (op e, val e, l)
  | None => Some (64, 0, 1)
  end.

(** The sets of lengths [inflate_table] accepts: no symbols, a complete code, or, except for the
    code length code, a single code of length 1. *)
Definition code_ok (type : codetype) (ls : list Z) : bool :=
  let cs := canon ls in
  match cs with
  | [] => true
  | _ => (kraft cs =? 2 ^ 15) ||
         (kraft cs <? 2 ^ 15) && forallb (fun sl => sl.2 =? 1) cs &&
         (match type with CODES => false | _ => true end)
  end.

(** The entries a call may need. *)
Definition room (type : codetype) (bits : Z) : Z :=
  match type with CODES => 2 ^ bits | LENS => ENOUGH_LENS | DISTS => ENOUGH_DISTS end.

Lemma make_entry_bits type s b b' e :
  make_entry type s b = Some e -> make_entry type s b' = Some (Code (op e) b' (val e)) /\ bits e = b.
Proof.
  unfold make_entry. destruct (s <? type_end type); [by intros [= <-]|].
  destruct (type_end type <? s); [|by intros [= <-]].
  destruct (type_extra type s); [|done]. destruct (type_base type s); [|done]. by intros [= <-].
Qed.

Lemma resolves_lookup type table root tbl lim h s l :
  0 <= root <= 15 ->
  resolves type table root tbl lim (h mod 2 ^ 15) (s, l) -> lookup_code tbl table root h = decoded type (Some (s, l)).
Proof.
  intros Hr H. unfold lookup_code, lookup, decoded. rewrite Z.shiftl_1_l, land_mask by lia.
  unfold resolves in H. rewrite mod_mod_pow2 in H by lia.
  destruct H as [(e & -> & He & _)|(c & off & e & -> & Hc & Hrc & Ho & _ & Hg & He & Hl)]; cbn [mbind option_bind fst snd] in *.
  - rewrite He, (make_entry_not_link _ _ _ _ He). cbn [mbind option_bind].
    by destruct (make_entry_bits _ _ _ 0 _ He) as [_ ->].
  - rewrite (is_link_intro c) by lia. cbn [op bits val].
    rewrite Z.shiftl_1_l, land_mask, Z.shiftr_div_pow2 by lia.
    assert (0 < 2 ^ root) by (apply pow2_pos; lia).
    replace ((h mod 2 ^ 15 / 2 ^ root) mod 2 ^ c) with ((h mod 2 ^ (root + c)) / 2 ^ root) in Hg.
    2:{ replace 15 with (root + (15 - root)) by lia. rewrite !(mod_split h root) by lia.
        rewrite !(Z.mul_comm (2 ^ root)), !Z.div_add, !Z.div_small, !Z.add_0_l by (apply Z.mod_pos_bound || lia; lia).
        by rewrite mod_mod_pow2 by lia. }
    rewrite Z.add_assoc, Hg. cbn [mbind option_bind]. destruct (make_entry_bits _ _ _ l _ He) as [-> ->]. cbn [mbind option_bind op val].
    rewrite Z.eqb_refl. destruct (Z.ltb_spec 0 (l - root)), (Z.ltb_spec 0 c), (Z.ltb_spec c 16); try lia. cbn [andb]. do 2 f_equal. lia.
Qed.

Lemma find_sym_none cs p v : p + kraft cs <= v -> lens_ok cs -> find_sym cs p v = None.
Proof.
  intros H Hl. revert p H. induction Hl as [|[s l] cs Hl0 Hl IH]; intros p H; [done|].
  cbn [find_sym kraft foldr snd] in *. fold (kraft cs) in H. pose proof (kraft_nonneg cs Hl).
  destruct (Z.ltb_spec v (p + weight l)); [lia|]. apply IH. lia.
Qed.

(** The writes of the invalid code. *)
Lemma lookup_invalid tbl table h :
  aget tbl (table + h mod 2) = Some invalid_code -> lookup_code tbl table 1 h = Some (64, 0, 1).
Proof.
  intros H. unfold lookup_code, lookup. change ((1 ≪ 1) - 1) with (2 ^ 1 - 1). rewrite land_mask by lia.
  change (2 ^ 1) with 2. by rewrite H.
Qed.

(** The calls for which [ENOUGH_LENS] and [ENOUGH_DISTS] are meant: the number of symbols and of root bits. *)
Definition meant (type : codetype) (bits n : Z) : Prop :=
  match type with CODES => True | LENS => bits = 9 /\ n <= 286 | DISTS => bits = 6 /\ n <= 30 end.

(** What a call promises. *)
Record table_spec (type : codetype) (ls : list Z) (tbl : list code) (table bits : Z) (work : list Z)
    (r : tresult) : Prop := {
  ts_len : length (tr_tbl r) = length tbl;
  ts_work : length (tr_work r) = length work;
  ts_frame : forall j, j < table -> aget (tr_tbl r) j = aget tbl j;
  ts_ret : tr_ret r = 0 /\ code_ok type ls = true \/
    tr_ret r = -1 /\ code_ok type ls = false \/
    tr_ret r = 1 /\ type <> CODES /\ code_ok type ls = true /\ ~ meant type bits (Z.of_nat (length ls));
  ts_table : tr_ret r = 0 ->
    table + 1 <= tr_next r <= table + room type bits /\ 1 <= tr_bits r <= 15 /\ (type = CODES -> tr_bits r <= bits /\ Forall (fun l => l <= tr_bits r) ls) /\
    forall t, (forall j, table <= j < tr_next r -> aget t j = aget (tr_tbl r) j) ->
      forall h, lookup_code t table (tr_bits r) h = decoded type (huff_decode ls (h mod 2 ^ 15)) }.

Section whole.
Context (type : codetype) (ls post : list Z) (tbl : list code) (table bits : Z) (work : list Z).
Context (Hls : Forall (fun l => 0 <= l <= 15) ls) (Hn : Z.of_nat (length ls) <= type_syms type)
  (Hbits : 1 <= bits <= 15) (Hcode : type = CODES -> Forall (fun l => l <= bits) ls)
  (Htable : 0 <= table) (Hroom : table + room type bits <= Z.of_nat (length tbl))
  (Hwork : Z.of_nat (length ls) <= Z.of_nat (length work)).
Abbreviation cs := (canon ls).

Lemma type_syms_le : type_syms type <= 288.
Proof. by destruct type. Qed.

Lemma room_bounds : 2 <= room type bits < 65536.
Proof.
  destruct type; cbn [room]; unfold ENOUGH_LENS, ENOUGH_DISTS; try lia.
  assert (2 ^ 1 <= 2 ^ bits) by (apply Z.pow_le_mono_r; lia).
  assert (2 ^ bits <= 2 ^ 15) by (apply Z.pow_le_mono_r; lia). lia.
Qed.

Lemma cnt_lookup l : 1 <= l <= 15 -> cnt l ls <> 0 -> exists k s, cs !! k = Some (s, l).
Proof.
  intros Hl Hc. apply cntl_pos_inv. rewrite cntl_canon by done. pose proof (cnt_nonneg l ls). lia.
Qed.
Lemma lookup_cnt k s l : cs !! k = Some (s, l) -> 1 <= l <= 15 /\ cnt l ls <> 0.
Proof.
  intros Hk. pose proof (cntl_pos _ _ _ _ Hk). apply canon_sym in Hk as (_ & Hl & _).
  rewrite cntl_canon in H by done. split; [done|lia].
Qed.

Lemma lens_max max : 0 <= max -> (forall l, max < l <= 15 -> cnt l ls = 0) -> Forall (fun l => l <= max) ls.
Proof.
  intros Hm. clear -Hls Hm. induction ls as [|l xs IH]; intros Hz; [done|]. apply Forall_cons_iff in Hls as [Hl Hxs]. specialize (IH Hxs). apply List.Forall_cons.
  - destruct (Z.le_gt_cases l max) as [|Hlt]; [done|]. specialize (Hz l ltac:(lia)). rewrite cnt_cons, Z.eqb_refl in Hz.
    pose proof (cnt_nonneg l xs). lia.
  - apply IH. intros l' Hl'. specialize (Hz l' Hl'). rewrite cnt_cons in Hz. pose proof (cnt_nonneg l' xs). destruct (l =? l'); lia.
Qed.

(** No symbols at all. *)
Lemma table_no_symbols :
  (forall l, 1 <= l <= 15 -> cnt l ls = 0) -> cs = [].
Proof.
  intros H. destruct cs as [|[s l] xs] eqn:E; [done|].
  destruct (lookup_cnt 0 s l) as [Hl Hc]; [by rewrite E|]. by rewrite H in Hc.
Qed.

Lemma invalid_table :
  exists t1 t2, aset tbl table invalid_code = Some t1 /\ aset t1 (table + 1) invalid_code = Some t2 /\
    length t2 = length tbl /\ (forall j, j < table -> aget t2 j = aget tbl j) /\
    forall t, (forall j, table <= j < table + 2 -> aget t j = aget t2 j) -> forall h, lookup_code t table 1 h = Some (64, 0, 1).
Proof.
  pose proof room_bounds.
  assert (E1 := aset_in tbl table invalid_code ltac:(lia)). eexists _, _. split; [done|].
  assert (E2 := aset_in (<[Z.to_nat table:=invalid_code]> tbl) (table + 1) invalid_code ltac:(rewrite length_insert; lia)).
  split; [done|]. split; [by rewrite !length_insert|]. split.
  - intros j Hj. rewrite (aget_aset _ _ _ _ _ E2), (aget_aset _ _ _ _ _ E1).
    destruct (Z.eqb_spec j (table + 1)); [lia|]. destruct (Z.eqb_spec j table); [lia|done].
  - intros t Ht h. apply lookup_invalid. pose proof (Z.mod_pos_bound h 2 ltac:(lia)).
    rewrite Ht, (aget_aset _ _ _ _ _ E2), (aget_aset _ _ _ _ _ E1) by lia.
    destruct (Z.eqb_spec (table + h mod 2) (table + 1)); [done|].
    destruct (Z.eqb_spec (table + h mod 2) table); [done|lia].
Qed.

Lemma kraft_single xs :
  Forall (fun sl : Z * Z => sl.2 = 1) xs -> xs <> [] -> kraft xs < 2 ^ 15 -> kraft xs = 2 ^ 14.
Proof.
  intros H Hne Hk. destruct xs as [|[s l] xs]; [done|].
  apply Forall_cons_iff in H as [H1 H]. cbn [snd] in H1. subst l. destruct xs as [|[s' l'] xs]; [done|].
  apply Forall_cons_iff in H as [H2 H]. cbn [snd] in H2. subst l'.
  assert (Hok : lens_ok xs) by (revert H; apply Forall_impl; simpl; lia).
  pose proof (kraft_nonneg xs Hok). unfold kraft in *. cbn [foldr snd] in Hk.
  change (weight 1) with (2 ^ 14) in *. lia.
Qed.

(** The end of the function: filling in the remaining entry of an incomplete code. *)
Lemma finish_spec max root s :
  finished type table root max (Z.of_nat (length tbl)) (room type bits) cs tbl s ->
  1 <= root <= max -> max <= 15 -> (kraft cs = 2 ^ 15 \/ kraft cs = 2 ^ 14 /\ root = 1 /\ max = 1) ->
  exists t, (if nz (t_huff s) then
               aset (t_tbl s) (t_next s + t_huff s) (Code 64 (u8 (t_len s - t_drop s)) 0)
             else Some (t_tbl s)) = Some t /\
    length t = length tbl /\ (forall j, j < table -> aget t j = aget tbl j) /\
    forall t', (forall j, table <= j < table + t_used s -> aget t' j = aget t j) ->
      forall h, lookup_code t' table root h = decoded type (huff_decode ls (h mod 2 ^ 15)).
Proof.
  intros [Fl Fu Ff Ft Fh Fr Fd] Hroot Hm Hk. unfold huff_decode.
  assert (Hdec : forall t h, rev 15 (h mod 2 ^ 15) < kraft cs ->
    (forall sl, resolves type table root (t_tbl s) (t_used s) (h mod 2 ^ 15) sl -> resolves type table root t (t_used s) (h mod 2 ^ 15) sl) ->
    lookup_code t table root h = decoded type (find_sym cs 0 (rev 15 (h mod 2 ^ 15)))).
  { intros t h Hv Hf. destruct (Fd (h mod 2 ^ 15) ltac:(apply Z.mod_pos_bound; lia) Hv) as ([s0 l0] & -> & Hr).
    eapply resolves_lookup; [lia|]. by apply Hf. }
  destruct Hk as [Hk|(Hk & -> & ->)].
  - rewrite Fh, Hk, Z.ltb_irrefl. cbn [nz negb Z.eqb]. exists (t_tbl s). split; [done|].
    split; [lia|]. split; [done|]. intros t' Ht h. apply Hdec; [rewrite Hk; apply rev15_range|].
    intros sl Hr. eapply resolves_agree; [|lia|exact Ht|exact Hr]; lia.
  - destruct (Fr ltac:(lia)) as (Ed & En & Eu). rewrite Fh, Hk, Ft, Ed, En.
    change (if 2 ^ 14 <? 2 ^ 15 then rev 15 (2 ^ 14) else 0) with 1. change (u8 (1 - 0)) with 1. cbn [nz negb Z.eqb].
    pose proof room_bounds. rewrite aset_in by lia. eexists. split; [done|]. rewrite length_insert.
    assert (Hg : forall j, aget (<[Z.to_nat (table + 1):=invalid_code]> (t_tbl s)) j =
      if j =? table + 1 then Some invalid_code else aget (t_tbl s) j) by (intros; apply aget_insert; lia).
    split; [lia|]. split; [intros j Hj; rewrite Hg; destruct (Z.eqb_spec j (table + 1)); [lia|by apply Ff]|].
    intros t' Ht h. assert (Hh := Z.mod_pos_bound h (2 ^ 15) ltac:(lia)).
    assert (Hlow : h mod 2 = if rev 15 (h mod 2 ^ 15) <? 2 ^ 14 then 0 else 1).
    { assert (Ha : forall p, p = 0 \/ p = 2 ^ 14 -> (h mod 2 ^ 15) mod 2 ^ 1 = rev 15 p mod 2 ^ 1 <-> p <= rev 15 (h mod 2 ^ 15) < p + 2 ^ 14).
      { intros p Hp. apply (rev15_interval _ p 1); [lia|lia|destruct Hp; subst; lia|].
        destruct Hp as [->| ->]; [by exists 0|by exists 1]. }
      rewrite mod_mod_pow2 in Ha by lia. assert (Hr := rev15_range (h mod 2 ^ 15)).
      destruct (Z.ltb_spec (rev 15 (h mod 2 ^ 15)) (2 ^ 14)) as [Hv|Hv].
      - apply (Ha 0); [by left|lia].
      - apply (Ha (2 ^ 14)); [by right|lia]. }
    destruct (Z.ltb_spec (rev 15 (h mod 2 ^ 15)) (2 ^ 14)) as [Hv|Hv].
    + apply Hdec; [lia|]. intros sl Hr. eapply resolves_agree; [|lia|exact Ht|]; [lia|]. eapply resolves_frame; [exact Hr|..].
      * rewrite Hg, mod_mod_pow2 by lia. change (2 ^ 1) with 2. rewrite Hlow.
        destruct (Z.eqb_spec (table + 0) (table + 1)); [lia|done].
      * intros c off _ Ho _ Hc _. rewrite Hg.
        pose proof (Z.mod_pos_bound (h mod 2 ^ 15 / 2 ^ 1) (2 ^ c) (pow2_pos c ltac:(lia))).
        destruct (Z.eqb_spec (table + off + (h mod 2 ^ 15 / 2 ^ 1) mod 2 ^ c) (table + 1)); [lia|done].
    + rewrite find_sym_none by (lia || apply canon_lens_ok). cbn [decoded].
      apply lookup_invalid. rewrite Hlow. etransitivity; [apply Ht; lia|]. etransitivity; [apply Hg|]. by rewrite Z.eqb_refl.
Qed.

(** The first code has the smallest length. *)
Lemma first_code min :
  1 <= min <= 15 -> cnt min ls <> 0 -> (forall l, 1 <= l < min -> cnt l ls = 0) ->
  exists s, cs !! 0%nat = Some (s, min).
Proof.
  intros Hm Hc Hz. destruct (cnt_lookup min Hm Hc) as (k & s & Hk).
  destruct (lookup_lt_is_Some_2 cs 0) as [[s0 l0] H0]; [apply lookup_lt_Some in Hk; lia|].
  exists s0. rewrite H0. do 2 f_equal. pose proof (canon_sorted ls 0%nat k _ _ _ _ ltac:(lia) H0 Hk).
  destruct (lookup_cnt _ _ _ H0) as [Hl0 Hc0]. destruct (Z.eq_dec l0 min); [done|].
  exfalso. apply Hc0, Hz. lia.
Qed.

Lemma code_ok_max max :
  1 <= max <= 15 -> cnt max ls <> 0 -> (forall l, max < l <= 15 -> cnt l ls = 0) ->
  kraft cs <= 2 ^ 15 ->
  code_ok type ls = negb ((kraft cs <? 2 ^ 15) && match type with CODES => true | _ => negb (max =? 1) end).
Proof.
  intros Hm Hc Hz Hk. destruct (cnt_lookup max Hm Hc) as (k & s & Hkm). unfold code_ok.
  assert (forallb (fun sl : Z * Z => sl.2 =? 1) cs = (max =? 1)) as ->.
  { apply eq_true_iff_eq. rewrite forallb_forall. split.
    - intros H. specialize (H (s, max)). apply H, list_elem_of_In. by eapply list_elem_of_lookup_2.
    - intros ->%Z.eqb_eq [s' l'] Hin. apply list_elem_of_In, list_elem_of_lookup_1 in Hin as [i Hi].
      destruct (lookup_cnt _ _ _ Hi) as [Hl' Hc']. cbn. apply Z.eqb_eq.
      destruct (Z.eq_dec l' 1); [done|]. exfalso. apply Hc', Hz. lia. }
  destruct cs; [done|].
  destruct (Z.eqb_spec (kraft (p :: l)) (2 ^ 15)), (Z.ltb_spec (kraft (p :: l)) (2 ^ 15)); try (done || lia).
  destruct type; simpl; [by rewrite andb_false_r|by destruct (max =? 1)..].
Qed.

Lemma over_subscribed_not_ok : 2 ^ 15 < kraft cs -> code_ok type ls = false.
Proof.
  intros H. unfold code_ok. destruct cs; [done|].
  destruct (Z.eqb_spec (kraft (p :: l)) (2 ^ 15)), (Z.ltb_spec (kraft (p :: l)) (2 ^ 15)); (done || lia).
Qed.

(** The start of the main loop. *)
Lemma start_linv count min root max :
  length count = 16%nat -> (forall l, 0 <= l <= 15 -> aget count l = Some (cnt l ls)) ->
  (exists s, cs !! 0%nat = Some (s, min)) -> 1 <= min <= root -> root <= max -> max <= 15 -> 2 ^ root <= room type bits ->
  linv type table root (Z.of_nat (length tbl)) (room type bits) cs tbl 0
    {| t_tbl := tbl; t_count := count; t_huff := 0; t_sym := 0; t_len := min; t_next := table;
       t_curr := root; t_drop := 0; t_low := u32 (-1); t_used := 2 ^ root |}.
Proof.
  intros Hcl Hc Hk Hm Hr Hx Hsp. assert (0 < 2 ^ root) by (apply pow2_pos; lia).
  split; cbn [t_tbl t_count t_huff t_sym t_len t_next t_curr t_drop t_low t_used]; try (done || lia).
  - split; [done|]. intros l Hl. rewrite Hc, <- cntl_canon by lia. done.
  - left. split; [done|]. split; [done|]. split; [done|]. split; [done|lia].
  - intros h _ Hv. pose proof (rev15_range h). unfold pos in Hv. simpl in Hv. lia.
  - intros _. by left.
Qed.

Lemma codes_max max : type = CODES -> 1 <= max <= 15 -> cnt max ls <> 0 -> max <= bits.
Proof.
  intros Ht Hm Hc. destruct (cnt_lookup max Hm Hc) as (k & s & Hk). apply canon_sym in Hk as (_ & _ & Hg).
  specialize (Hcode Ht). rewrite Forall_lookup in Hcode. unfold aget in Hg. destruct (0 <=? s); [|done].
  by apply Hcode in Hg.
Qed.

Lemma space_enough root max :
  cnt max ls <> 0 -> 1 <= max <= 15 -> 1 <= root <= max ->
  forall used, 0 <= used -> not_enough type used = false -> (type = CODES -> used = 2 ^ root) -> used <= room type bits.
Proof.
  intros Hc Hm Hr used _ Hne Hu. pose proof (codes_max max) as Hx. destruct type; cbn [room not_enough] in *; [|lia..].
  rewrite Hu by done. specialize (Hx eq_refl Hm Hc). apply Z.pow_le_mono_r; lia.
Qed.

(** ** The sizes of the tables are enough *)

(** Few short codes cannot make a code complete. *)
Lemma kraft_levels x xs : 1 <= x < 15 -> lens_ok xs ->
  let n := Z.of_nat (length (filter (fun sl => sl.2 <= x) xs)) in kraft xs <= 2 ^ 14 * n + weight (x + 1) * (Z.of_nat (length xs) - n).
Proof.
  intros Hx. induction 1 as [|[s l] xs H _ IH]; [cbn; lia|]. cbn zeta in *. rewrite filter_cons. cbn [kraft foldr snd length] in *. fold (kraft xs).
  assert (Hw := weight_pos (x + 1) ltac:(lia)). case_decide as Hd; cbn [length].
  - assert (weight l <= 2 ^ 14) by (apply (weight_le 1 l); lia). lia.
  - assert (weight l <= weight (x + 1)) by (apply weight_le; lia). lia.
Qed.

Lemma shorts_dists max : kraft cs = 2 ^ 15 -> Z.of_nat (length cs) <= 30 -> (exists k s, cs !! k = Some (s, max)) -> 6 < max -> 3 <= shorts 6 cs.
Proof.
  intros Hk Hl (km & sm & Hkm) Hm. assert (Hok := canon_lens_ok ls). assert (Hs := fun i => short_count_iff cs (canon_sorted ls) 6 0 i). unfold shorts.
  assert (H := kraft_levels 6 cs ltac:(lia) Hok). cbn zeta in H. change (length (filter (fun sl => sl.2 <= 6) cs)) with (short_count cs 6 0) in H. change (weight (6 + 1)) with (2 ^ 8) in H.
  destruct (Z.le_gt_cases (Z.of_nat (short_count cs 6 0)) 1); [nia|]. destruct (decide (short_count cs 6 0 = 2%nat)) as [E2|]; [|lia]. exfalso. rewrite E2 in Hs.
  assert (Hkm2 := Hs km sm max Hkm). destruct cs as [|[s0 l0] [|[s1 l1] xs]] eqn:Ecs; [apply lookup_lt_Some in Hkm; cbn in Hkm; lia..|].
  assert (S0 := Hs 0%nat s0 l0 eq_refl). assert (S1 := Hs 1%nat s1 l1 eq_refl). apply Forall_cons_1 in Hok as [O0 Hok]. apply Forall_cons_1 in Hok as [O1 Hok]. cbn [snd] in O0, O1.
  assert (Hx : kraft xs <= 2 ^ 8 * Z.of_nat (length xs)).
  { assert (Hf := kraft_levels 6 xs ltac:(lia) Hok). cbn zeta in Hf. change (weight (6 + 1)) with (2 ^ 8) in Hf. destruct (filter_longer 6 xs) as [E _]; [|rewrite E in Hf; cbn [length] in Hf; lia].
    apply Forall_lookup_2. intros i [s l] Hi. cbn. pose proof (Hs (S (S i)) s l Hi). lia. }
  cbn [kraft foldr snd length] in *. fold (kraft xs) in *. assert (Hp := kraft_nonneg xs Hok).
  assert (W : weight l0 <= 2 ^ 14 /\ weight l1 <= 2 ^ 14 /\ (weight l0 = 2 ^ 14 /\ weight l1 = 2 ^ 14 \/ weight l0 + weight l1 <= 2 ^ 14 + 2 ^ 13)).
  { assert (A : forall l, 1 <= l <= 15 -> weight l = 2 ^ 14 \/ weight l <= 2 ^ 13).
    { intros l Hl'. destruct (decide (l = 1)) as [->|]; [by left|right]. apply (weight_le 2 l). lia. }
    destruct (A l0 O0), (A l1 O1); lia. }
  destruct W as (_ & _ & [[W0 W1]|W]); [|lia]. destruct xs as [|[s l] xs].
  - destruct km as [|[|km]]; cbn in Hkm; [injection Hkm as _ <-; lia|injection Hkm as _ <-; lia|done].
  - apply Forall_cons_1 in Hok as [O2 Hok]. cbn [kraft foldr snd] in *. fold (kraft xs) in *. pose proof (weight_pos l ltac:(cbn in O2; lia)). pose proof (kraft_nonneg xs Hok). lia.
Qed.

(** The bound is reached by a code of the maximal number of symbols; the sub-tables have an even number of entries. *)
Lemma meant_enough min max root :
  kraft cs = 2 ^ 15 -> (exists k s, cs !! k = Some (s, max)) -> (exists s, cs !! 0%nat = Some (s, min)) -> 1 <= min -> max <= 15 ->
  root <= bits \/ root <= min -> (root < max -> bits <= root) -> 1 <= root <= max ->
  meant type bits (Z.of_nat (length ls)) ->
  not_enough type (2 ^ root) = false /\ ~ too_many type root max cs.
Proof.
  intros Hk Hmax (s0 & H0) Hmin Hm15 Er1 Er2 Hr Hme. assert (Hln := length_canon ls). assert (Hst := start_le_length ls Hls). assert (Hok := canon_lens_ok ls).
  assert (Hall : kraft cs <= weight min * Z.of_nat (length cs)).
  { assert (Ha : Forall (fun sl => min <= sl.2 <= 15) cs).
    { apply Forall_lookup_2. intros i [s l] Hi. cbn. pose proof (canon_sorted ls 0%nat i _ _ _ _ ltac:(lia) H0 Hi). pose proof (lens_ok_lookup _ _ _ _ Hok Hi). lia. }
    clear -Ha Hmin. induction Ha as [|[s l] xs H _ IH]; [cbn; lia|]. cbn [kraft foldr snd length] in *. fold (kraft xs). pose proof (weight_le min l ltac:(lia)). lia. }
  assert (Hb : forall b n, bits = b -> Z.of_nat (length cs) <= n -> 1 <= b < 15 -> n * weight (b + 1) < 2 ^ 15 -> root <= b).
  { intros b n Eb Hnn Hb1 Hw. destruct (Z.le_gt_cases root b) as [|Hgt]; [done|]. exfalso.
    assert (b + 1 <= min) by lia.
    pose proof (lookup_lt_Some _ _ _ H0). pose proof (lens_ok_lookup _ _ _ _ Hok H0). pose proof (weight_le (b + 1) min ltac:(lia)). pose proof (weight_pos min ltac:(lia)). nia. }
  assert (Hdeep : forall c, 1 <= c <= max - root -> root <= bits -> root = bits).
  { intros c Hc Hle. lia. }
  unfold meant, not_enough, too_many, gain in *. destruct type.
  - split; [done|]. intros Ht. by destruct (Ht Hk) as (u & c & _ & _ & _ & ?).
  - destruct Hme as [Eb Hnn]. assert (Hle := Hb 9 286 Eb ltac:(lia) ltac:(lia) ltac:(done)). assert (2 ^ root <= 2 ^ 9) by (apply Z.pow_le_mono_r; lia). unfold ENOUGH_LENS. split; [apply Z.ltb_ge; lia|].
    intros Ht. destruct (Ht Hk) as (u & c & Hc & [v ->] & Hu & Hbad). apply Z.ltb_lt in Hbad. assert (Er9 : root = 9) by (rewrite <- Eb; apply (Hdeep c); lia). rewrite Er9 in *.
    assert (Hl := kraft_levels 9 cs ltac:(lia) Hok). cbn zeta in Hl. change (length (filter (fun sl => sl.2 <= 9) cs)) with (short_count cs 9 0) in Hl. change (weight (9 + 1)) with 32 in Hl. unfold shorts in *.
    assert (2 <= Z.of_nat (short_count cs 9 0)) by nia. pose proof (gain_mono cs c 6 ltac:(lia)) as Hg. unfold gain in Hg. change (2 ^ 6) with 64 in Hg. change ENOUGH_LENS with 852 in Hbad. lia.
  - destruct Hme as [Eb Hnn]. assert (Hle := Hb 6 30 Eb ltac:(lia) ltac:(lia) ltac:(done)). assert (2 ^ root <= 2 ^ 6) by (apply Z.pow_le_mono_r; lia). unfold ENOUGH_DISTS. split; [apply Z.ltb_ge; lia|].
    intros Ht. destruct (Ht Hk) as (u & c & Hc & [v ->] & Hu & Hbad). apply Z.ltb_lt in Hbad. assert (Er6 : root = 6) by (rewrite <- Eb; apply (Hdeep c); lia). rewrite Er6 in *.
    pose proof (shorts_dists max Hk ltac:(lia) Hmax ltac:(lia)). pose proof (gain_mono cs c 9 ltac:(lia)) as Hg. unfold gain in Hg. change (2 ^ 9) with 512 in Hg. change ENOUGH_DISTS with 592 in Hbad. lia.
Qed.

(** The sorted array and the lengths agree with the canonical code. *)
Lemma work_codes w max :
  (forall l, max < l <= 15 -> cnt l ls = 0) -> slots ls ls w ->
  forall k s l, cs !! k = Some (s, l) ->
    aget w (Z.of_nat k) = Some s /\ aget (ls ++ post) s = Some l /\ 0 <= s < type_syms type /\ l <= max.
Proof.
  intros Hz Hs k s l Hk. split; [by eapply slots_canon|]. destruct (lookup_cnt _ _ _ Hk) as [Hl Hc].
  apply canon_sym in Hk as (Hs0 & _ & Hg). split; [rewrite aget_app_l by lia; done|]. split; [lia|].
  destruct (Z.le_gt_cases l max); [done|]. exfalso. apply Hc, Hz. lia.
Qed.

Lemma inflate_table_spec :
  exists r, inflate_table type (ls ++ post) (Z.of_nat (length ls)) tbl table bits work = Some r /\
    table_spec type ls tbl table bits work r.
Proof.
  pose proof type_syms_le as Hsy. pose proof room_bounds as Hrb.
  unfold inflate_table. rewrite Nat2Z.id.
  destruct (count_lens_spec ls post Hls ltac:(lia)) as (count & -> & Hcl & Hc). cbn [mbind option_bind].
  destruct (find_max_spec ls count Hc 15 ltac:(lia)) as (max & -> & Hm & Hmz & Hmnz). cbn [mbind option_bind].
  destruct (Z.eqb_spec max 0) as [->|Hm0].
  { destruct invalid_table as (t1 & t2 & -> & E2 & Hl & Hf & Hd). cbn [mbind option_bind]. rewrite E2. cbn [mbind option_bind].
    assert (Hcs : cs = []) by (apply table_no_symbols; intros l Hl'; apply Hmz; lia).
    eexists. split; [done|]. split; cbn [tr_tbl tr_work tr_ret tr_next tr_bits]; try done.
    - left. split; [done|]. unfold code_ok. by rewrite Hcs.
    - intros _. split; [lia|]. split; [lia|]. split; [|intros t Ht h; unfold huff_decode; rewrite Hcs; by apply Hd].
      intros _. split; [lia|]. apply lens_max; [lia|]. intros l Hl'. apply Hmz. lia. }
  specialize (Hmnz Hm0).
  destruct (find_min_spec ls count Hc 15 1 max) as (min & -> & Hmin & Hminc & Hminz); [lia..|done|lia|]. cbn [mbind option_bind].
  rewrite (check_left_spec ls count Hc) by lia. cbn [mbind option_bind]. change (1 * weight (1 - 1)) with (2 ^ 15).
  fold cs. set (root := if _ <? min then min else _).
  assert (Hroot : min <= root <= max /\ 1 <= root /\ (max <= bits -> root = max) /\ (max = 1 -> root = 1) /\ (root <= bits \/ root <= min) /\ (root < max -> bits <= root)).
  { unfold root. destruct (Z.ltb_spec max bits); [destruct (Z.ltb_spec max min)|destruct (Z.ltb_spec bits min)]; lia. }
  destruct (Z.ltb_spec (2 ^ 15) (kraft cs)) as [Hover|Hk].
  { eexists. split; [done|]. split; cbn [tr_tbl tr_work tr_ret tr_next tr_bits]; try done.
    right. left. split; [done|]. by apply over_subscribed_not_ok. }
  pose proof (code_ok_max max ltac:(lia) Hmnz Hmz Hk) as Hok.
  replace (0 <? 2 ^ 15 - kraft cs) with (kraft cs <? 2 ^ 15).
  2:{ destruct (Z.ltb_spec (kraft cs) (2 ^ 15)), (Z.ltb_spec 0 (2 ^ 15 - kraft cs)); (done || lia). }
  destruct ((kraft cs <? 2 ^ 15) && _) eqn:Einc.
  { eexists. split; [done|]. split; cbn [tr_tbl tr_work tr_ret tr_next tr_bits]; try done. right. by left. }
  cbn [negb] in Hok. pose proof (start_le_length ls Hls) as Hst.
  destruct (make_offs_from ls count 14 1 (replicate 16 0)) as (offs & -> & Hol & Hoffs); [done|done|lia|lia|lia| |].
  { intros l Hl. replace l with 1 by lia. by rewrite start_1. }
  cbn [mbind option_bind].
  destruct (sort_syms_from ls post Hls ltac:(lia) [] ls offs work) as (w & Ew & Hwl & Hslots);
    [done|done|lia| |by intros l m s _ Hs| ].
  { intros l Hl. rewrite Hoffs by lia. f_equal. change (cnt l []) with 0. lia. }
  change (Z.of_nat (length [])) with 0 in Ew. rewrite Ew.
  assert (Hmeant : meant type bits (Z.of_nat (length ls)) -> not_enough type (2 ^ root) = false /\ (~ too_many type root max cs \/ max = 1)).
  { intros Hme. destruct (Z.eq_dec (kraft cs) (2 ^ 15)) as [Hfull|Hne].
    - destruct (meant_enough min max root Hfull (cnt_lookup max ltac:(lia) Hmnz) (first_code min ltac:(lia) Hminc Hminz) ltac:(lia) ltac:(lia) ltac:(lia) ltac:(lia) ltac:(lia) Hme) as [E1 E2]. split; [done|by left].
    - destruct (Z.ltb_spec (kraft cs) (2 ^ 15)); [|lia]. cbn [andb] in Einc. assert (Hm1 : type <> CODES /\ max = 1) by (destruct type; [done|by apply negb_false_iff, Z.eqb_eq in Einc..]).
      split; [|right; tauto]. replace root with 1 by lia. by destruct type. }
  cbn [mbind option_bind]. rewrite Z.shiftl_1_l. destruct (not_enough type (2 ^ root)) eqn:Ene.
  { eexists. split; [done|]. split; cbn [tr_tbl tr_work tr_ret tr_next tr_bits]; try done.
    right. right. split; [done|]. split; [by intros ->|]. split; [done|]. intros Hme. destruct (Hmeant Hme) as [E _]; congruence. }
  assert (Hcodes : type = CODES -> max <= root) by (intros Ht; pose proof (codes_max max Ht ltac:(lia) Hmnz); lia).
  assert (Hspace := space_enough root max Hmnz ltac:(lia) ltac:(lia)).
  destruct (code_loop_spec type (ls ++ post) w table root max (Z.of_nat (length tbl)) (room type bits) cs
    (canon_lens_ok ls) (canon_sorted ls) Hk ltac:(rewrite length_canon; lia) (work_codes w max Hmz Hslots)
    (cnt_lookup max ltac:(lia) Hmnz) ltac:(lia) ltac:(lia) Htable Hcodes Hspace ltac:(lia) tbl
    (S (length ls)) 0 _ (start_linv count min root max Hcl Hc (first_code min ltac:(lia) Hminc Hminz)
      ltac:(lia) ltac:(lia) ltac:(lia) (Hspace (2 ^ root) ltac:(apply Z.pow_nonneg; lia) Ene ltac:(done))))
    as [(t & -> & Hty & Hrm & Hmany & Hlt & Hft)|(s & -> & Hfin)].
  { pose proof (length_canon ls). lia. }
  { cbn [mbind option_bind]. eexists. split; [done|]. split; cbn [tr_tbl tr_work tr_ret tr_next tr_bits]; try (done || lia).
    right. right. split; [done|]. split; [done|]. split; [done|]. intros Hme. destruct (Hmeant Hme) as [_ [E|E1]]; [done|lia]. }
  cbn [mbind option_bind]. destruct (finish_spec max root s Hfin ltac:(lia) ltac:(lia)) as (t & -> & Hlt & Hft & Hd).
  { destruct (Z.ltb_spec (kraft cs) (2 ^ 15)) as [Hlt|]; [right|left; lia]. cbn [andb] in Einc.
    assert (max = 1) as -> by (destruct type; [done|by apply negb_false_iff, Z.eqb_eq in Einc..]).
    split; [|lia]. apply kraft_single; [|by intros Hcs; destruct (cnt_lookup 1 ltac:(lia) Hmnz) as (k & s0 & Hk1); rewrite Hcs in Hk1|done].
    apply Forall_lookup_2. intros i [s0 l0] Hi. cbn. destruct (lookup_cnt _ _ _ Hi) as [Hl0 Hc0].
    destruct (Z.eq_dec l0 1); [done|]. exfalso. apply Hc0, Hmz. lia. }
  cbn [mbind option_bind]. eexists. split; [done|]. pose proof (f_used _ _ _ _ _ _ _ _ _ Hfin).
  assert (0 < 2 ^ root) by (apply pow2_pos; lia).
  split; cbn [tr_tbl tr_work tr_ret tr_next tr_bits]; try (done || lia).
  - by left.
  - intros _. split; [lia|]. split; [lia|]. split; [|done].
    intros Ht. pose proof (codes_max max Ht ltac:(lia) Hmnz). split; [lia|]. replace root with max by lia. by apply lens_max; [lia|].
Qed.
End whole.

(** C8. [inflate_table], called with lengths of at most 15 bits and the space its callers give it, never
    reads or writes outside its arrays. It returns -1 exactly for the sets of lengths that are
    over-subscribed or incomplete (a single code of length 1 is accepted for literals and distances).
    [ENOUGH_LENS] and [ENOUGH_DISTS] are enough: it returns 1 only for more than 286 literal and length
    symbols or 30 distance symbols, or other root bits than 9 and 6. Otherwise it returns 0 with tables that decode, on
    every input, exactly the canonical Huffman code of the lengths: the entry found is that of the
    symbol decoded bit by bit, with the same number of bits consumed, or the invalid-code entry. *)
Theorem inflate_table_correct (type : codetype) (ls post : list Z) (tbl : list code) (table bits : Z) (work : list Z) :
  Forall (fun l => 0 <= l <= 15) ls -> Z.of_nat (length ls) <= type_syms type ->
  1 <= bits <= 15 -> (type = CODES -> Forall (fun l => l <= bits) ls) ->
  0 <= table -> table + room type bits <= Z.of_nat (length tbl) ->
  Z.of_nat (length ls) <= Z.of_nat (length work) ->
  exists r, inflate_table type (ls ++ post) (Z.of_nat (length ls)) tbl table bits work = Some r /\
    table_spec type ls tbl table bits work r.
Proof. intros. by apply inflate_table_spec. Qed.

Lemma inflate_table_correct_witness :
  exists r, inflate_table DISTS [2; 1; 0; 2] 4 (replicate 1000 invalid_code) 100 6 (replicate 288 0) = Some r /\
    table_spec DISTS [2; 1; 0; 2] (replicate 1000 invalid_code) 100 6 (replicate 288 0) r.
Proof.
  refine (inflate_table_correct DISTS [2; 1; 0; 2] [] (replicate 1000 invalid_code) 100 6 (replicate 288 0) _ _ _ _ _ _ _).
  - repeat (apply List.Forall_cons; [lia|]). apply List.Forall_nil.
  - simpl. lia.
  - lia.
  - discriminate.
  - lia.
  - simpl. unfold ENOUGH_DISTS. lia.
  - simpl. lia.
Defined.
