(* ===== verification/Record.v ===== *)
(** Functional update of record fields: [x <| f := v |>] is [x] with the field [f] changed to [v].

    Each field has an instance of [Setter] whose body is derived from the record's eta-expansion, so
    that a projection of an update computes. *)
From S2P Require Import Prelude.

Class Setter {R T : Type} (proj : R -> T) : Type := upd : (T -> T) -> R -> R.
Arguments upd {R T} proj {_} _ _.

Notation "x <| f := v |>" := (upd f (fun _ => v) x)
  (at level 1, f at level 0, v at level 200, left associativity, format "x  <| f  :=  v |>").
Notation "x <| f ::= g |>" := (upd f g x)
  (at level 1, f at level 0, g at level 200, left associativity, format "x  <| f  ::=  g |>").

(** [eta] is [fun r => Build (f1 r) ... (fn r)]. *)
Ltac mk_setter eta proj :=
  let e := eval unfold eta in eta in
  match eval pattern proj in e with
  | ?g _ =>
      let t := eval cbv beta in (fun f r => g (fun r' => f (proj r')) r) in
      exact t
  end.
