(* ===== verification/InfDecode.v ===== *)
(** What the decoder relies on in a decoding table, built by [inflate_table] or fixed: the symbols of a
    canonical Huffman code, their prefix property, and the ranges of the entries. *)
From S2P Require Import Prelude Bits Huffman InfTrees Inffixed InfTreesProof.

(** ** Symbols *)
Inductive symbol := Literal (b : Z) | EndBlock | Base (base extra : Z) | Invalid.
#[global] Instance symbol_eq_dec : EqDecision symbol.
Proof. solve_decision. Defined.

(** The entries that are not links, and their meaning. *)
Definition classify (o v : Z) : option symbol :=
  if o =? 0 then Some (Literal v)
  else if o =? 96 then Some EndBlock
  else if (16 <=? o) && (o <? 32) then Some (Base v (o - 16))
  else if (64 <=? o) && (o <? 80) then Some Invalid
  else None.

(** The tests of [inflate()] and [inflate_fast()] on [op]. *)
Definition op_tests (o : Z) : bool * bool * bool * bool * Z :=
  (nz (o .& 16), nz (o .& 32), nz (o .& 64), nz (o .& 0xf0), o .& 15).

Lemma classify_tests o v s :
  classify o v = Some s ->
  match s with
  | Literal b => o = 0 /\ b = v
  | EndBlock => o <> 0 /\ op_tests o = (false, true, true, true, 0)
  | Base w e => o <> 0 /\ w = v /\ 0 <= e < 16 /\ op_tests o = (true, false, false, true, e)
  | Invalid => o <> 0 /\ exists r, op_tests o = (false, false, true, true, r)
  end.
Proof.
  unfold classify. destruct (Z.eqb_spec o 0) as [->|]; [by intros [= <-]|].
  destruct (Z.eqb_spec o 96) as [->|]; [by intros [= <-]|].
  assert (Hen : forall a m, a <= o < a + Z.of_nat m -> In o ((fun i => a + Z.of_nat i) <$> seq 0 m)).
  { intros a m H. apply in_map_iff. exists (Z.to_nat (o - a)). rewrite in_seq. split; lia. }
  destruct (Z.leb_spec 16 o), (Z.ltb_spec o 32); cbn [andb];
    try (intros [= <-]; specialize (Hen 16 16%nat ltac:(lia)); cbn in Hen;
         split; [done|]; split; [done|]; split; [lia|];
         repeat (destruct Hen as [<-|Hen]; [reflexivity|]); done);
    (destruct (Z.leb_spec 64 o), (Z.ltb_spec o 80); cbn [andb]; try done;
     intros [= <-]; specialize (Hen 64 16%nat ltac:(lia)); cbn in Hen; split; [done|]; exists (o .& 15);
     repeat (destruct Hen as [<-|Hen]; [reflexivity|]); done).
Qed.

(** The symbol at the start of the stream [h], and its bits. *)
Definition symbol_at (type : codetype) (ls : list Z) (h : Z) : option (symbol * Z) :=
  '(o, v, k) ← decoded type (huff_decode ls (h mod 2 ^ 15));
  s ← classify o v;
  Some (s, k).

(** The symbols of each code. *)
Definition symbol_ok (type : codetype) (s : symbol) : Prop :=
  match s with
  | Literal b => 0 <= b < 256 /\ (type = LENS \/ type = CODES /\ b < 19)
  | EndBlock => type = LENS
  | Base v e =>
      type = LENS /\ 3 <= v /\ 0 <= e <= 5 /\ v + 2 ^ e - 1 <= 258 \/
      type = DISTS /\ 1 <= v /\ 0 <= e <= 13 /\ v + 2 ^ e - 1 <= 32768
  | Invalid => True
  end.

Definition symbol_okb (type : codetype) (s : symbol) : bool :=
  match s with
  | Literal b => (0 <=? b) && (b <? 256) && match type with LENS => true | CODES => b <? 19 | DISTS => false end
  | EndBlock => match type with LENS => true | _ => false end
  | Base v e =>
      match type with
      | LENS => (3 <=? v) && (0 <=? e) && (e <=? 5) && (v + 2 ^ e - 1 <=? 258)
      | DISTS => (1 <=? v) && (0 <=? e) && (e <=? 13) && (v + 2 ^ e - 1 <=? 32768)
      | CODES => false
      end
  | Invalid => true
  end.
Lemma symbol_okb_ok type s : symbol_okb type s = true -> symbol_ok type s.
Proof.
  destruct s as [b| |v e|], type; cbn; intros H; try done; rewrite ?andb_true_iff, ?Z.leb_le, ?Z.ltb_lt in H.
  - split; [lia|]. right. split; [done|lia].
  - split; [lia|]. by left.
  - lia.
  - left. split; [done|]. lia.
  - right. split; [done|]. lia.
Qed.

Lemma make_entry_symbol type s l e :
  0 <= s < type_syms type -> make_entry type s l = Some e ->
  exists sy, classify (op e) (val e) = Some sy /\ symbol_ok type sy /\ (type = CODES -> op e = 0 /\ 0 <= val e < 19).
Proof.
  intros Hs He.
  assert (H : forallb (fun n => match make_entry type (Z.of_nat n) 0 with
      | Some e => match classify (op e) (val e) with
          | Some sy => symbol_okb type sy && match type with CODES => (op e =? 0) && (0 <=? val e) && (val e <? 19) | _ => true end
          | None => false end
      | None => false end) (seq 0 (Z.to_nat (type_syms type))) = true).
  { by destruct type. }
  rewrite forallb_forall in H. specialize (H (Z.to_nat s)). rewrite in_seq, Z2Nat.id in H by lia.
  specialize (H ltac:(lia)). destruct (make_entry_bits _ _ _ 0 _ He) as [E _]. rewrite E in H. cbn [op val] in H.
  destruct (classify (op e) (val e)) as [sy|]; [|done]. exists sy. split; [done|].
  apply andb_true_iff in H as [H1 H2]. split; [by apply symbol_okb_ok|]. intros ->. lia.
Qed.

(** ** The prefix property *)
Lemma pos_cons sl cs k : pos (sl :: cs) (S k) = weight sl.2 + pos cs k.
Proof. done. Qed.

Lemma find_sym_inv cs p v sl :
  lens_ok cs -> p <= v -> find_sym cs p v = Some sl -> exists k, cs !! k = Some sl /\ p + pos cs k <= v < p + pos cs (S k).
Proof.
  intros Hl. revert p. induction Hl as [|[s l] cs Hl0 Hl IH]; intros p Hp H; [done|]. cbn [find_sym snd] in H.
  destruct (Z.ltb_spec v (p + weight l)) as [Hlt|Hge].
  - injection H as <-. exists 0%nat. rewrite pos_cons, !pos_0. cbn [snd]. split; [done|]. lia.
  - destruct (IH _ Hge H) as (k & Hk & Hv). exists (S k). split; [done|]. rewrite !pos_cons. cbn [snd]. lia.
Qed.

Lemma huff_decode_prefix ls h h' s l :
  kraft (canon ls) <= 2 ^ 15 -> 0 <= h < 2 ^ 15 -> 0 <= h' < 2 ^ 15 ->
  huff_decode ls h = Some (s, l) -> h mod 2 ^ l = h' mod 2 ^ l -> huff_decode ls h' = Some (s, l).
Proof.
  intros Hk Hh Hh' Hd Hm. assert (Hr := rev15_range h). pose proof (canon_lens_ok ls) as Hok.
  destruct (find_sym_inv _ _ _ _ Hok (proj1 (rev15_range h)) Hd) as (k & Hlk & Hv). rewrite !Z.add_0_l in Hv.
  assert (Hl := lens_ok_lookup _ _ _ _ Hok Hlk). assert (HP := pos_S _ _ _ _ Hlk).
  assert (Hal := pos_aligned _ _ _ _ Hok (canon_sorted ls) Hlk).
  assert (0 <= pos (canon ls) k) by (apply kraft_nonneg; by apply Forall_take).
  pose proof (pos_le_kraft (canon ls) (S k) Hok). pose proof (weight_pos l ltac:(lia)).
  eapply find_sym_pos; [done..|]. rewrite HP. apply rev15_interval; try done; [lia|]. rewrite <- Hm.
  apply rev15_interval; try done; lia.
Qed.

Lemma code_ok_kraft type ls : code_ok type ls = true -> kraft (canon ls) <= 2 ^ 15.
Proof.
  unfold code_ok. destruct (canon ls) eqn:E; [done|]. rewrite <- E. intros H%orb_true_iff.
  destruct H as [H|[[H _]%andb_true_iff _]%andb_true_iff]; lia.
Qed.

(** Without a symbol: the code is empty, or it is the one bit that is not the only code. *)
Lemma huff_decode_none type ls h h' :
  code_ok type ls = true -> 0 <= h < 2 ^ 15 -> 0 <= h' < 2 ^ 15 ->
  huff_decode ls h = None -> h mod 2 = h' mod 2 -> huff_decode ls h' = None.
Proof.
  intros Hok Hh Hh' Hn Hm. destruct (huff_decode ls h') as [[s l]|] eqn:E; [|done]. exfalso.
  assert (Hk := code_ok_kraft _ _ Hok).
  destruct (find_sym_inv _ _ _ _ (canon_lens_ok ls) (proj1 (rev15_range h')) E) as (k & Hlk & _).
  assert (l = 1) as ->.
  { unfold code_ok in Hok. destruct (canon ls) as [|sl xs] eqn:Ec; [done|]. rewrite <- Ec in *.
    apply orb_true_iff in Hok as [Hc|[[Hlt Hall]%andb_true_iff _]%andb_true_iff].
    - exfalso. apply Z.eqb_eq in Hc.
      enough (forall cs p v, p <= v < p + kraft cs -> exists sl, find_sym cs p v = Some sl) as Hex.
      { destruct (Hex (canon ls) 0 (rev 15 h)) as [sl' Hsl]; [|unfold huff_decode in Hn; congruence].
        rewrite Hc. apply rev15_range. }
      induction cs as [|[s' l'] cs IH]; intros p v Hv; [unfold kraft in Hv; simpl in Hv; lia|].
      cbn [find_sym snd]. destruct (Z.ltb_spec v (p + weight l')); [by eexists|]. apply IH.
      unfold kraft in *. cbn [foldr snd] in Hv. lia.
    - rewrite forallb_forall in Hall. apply list_elem_of_lookup_2, list_elem_of_In in Hlk.
      specialize (Hall _ Hlk). cbn in Hall. lia. }
  assert (huff_decode ls h = Some (s, 1)); [|congruence].
  by eapply (huff_decode_prefix ls h').
Qed.

(** ** Good tables *)
Record good_table (type : codetype) (rd : Z -> option code) (root : Z) (ls : list Z) : Prop := {
  gt_root : 1 <= root <= 15;
  gt_syms : Z.of_nat (length ls) <= type_syms type;
  gt_ok : code_ok type ls = true;
  gt_lookup : forall h, exists o v k sy, lookup rd root h = Some (o, v, k) /\ classify o v = Some sy /\
    symbol_at type ls h = Some (sy, k);
  gt_codes : type = CODES -> root <= 7 /\
    forall h o v k, lookup rd root h = Some (o, v, k) -> 0 <= v < 19 /\ k <= root /\ (o = 0 \/ v = 0) }.

(** Facts about a code that [inflate_table] accepts. *)
Section code.
Context (type : codetype) (ls : list Z).
Context (Hsy : Z.of_nat (length ls) <= type_syms type) (Hok : code_ok type ls = true).

Lemma symbol_at_facts h sy k :
  symbol_at type ls h = Some (sy, k) -> 1 <= k <= 15 /\ symbol_ok type sy.
Proof.
  unfold symbol_at. destruct (huff_decode ls (h mod 2 ^ 15)) as [[s l]|] eqn:E; cbn [decoded mbind option_bind].
  - destruct (find_sym_inv _ _ _ _ (canon_lens_ok ls) (proj1 (rev15_range _)) E) as (i & Hlk & _).
    apply canon_sym in Hlk as (Hs & Hl & _). destruct (make_entry type s l) as [e|] eqn:He; [|done].
    destruct (make_entry_symbol type s l e ltac:(lia) He) as (sy' & E' & Hs' & _). cbn [mbind option_bind].
    rewrite E'. intros [= <- <-]. split; [lia|done].
  - intros [= <- <-]. split; [lia|done].
Qed.

Lemma symbol_at_prefix h h' sy k :
  symbol_at type ls h = Some (sy, k) -> h mod 2 ^ k = h' mod 2 ^ k -> symbol_at type ls h' = Some (sy, k).
Proof.
  intros H Hm. destruct (symbol_at_facts _ _ _ H) as [Hk _]. assert (Hkr := code_ok_kraft _ _ Hok).
  assert (B1 := Z.mod_pos_bound h (2 ^ 15) ltac:(lia)). assert (B2 := Z.mod_pos_bound h' (2 ^ 15) ltac:(lia)).
  assert (Hm' : (h mod 2 ^ 15) mod 2 ^ k = (h' mod 2 ^ 15) mod 2 ^ k) by (rewrite !mod_mod_pow2 by lia; done).
  unfold symbol_at in *. destruct (huff_decode ls (h mod 2 ^ 15)) as [[s l]|] eqn:E; cbn [decoded mbind option_bind] in H.
  - destruct (make_entry type s l) as [e|] eqn:He; [|done]. cbn [mbind option_bind] in H.
    destruct (classify (op e) (val e)) as [sy'|] eqn:Ec; [|done]. cbn [mbind option_bind] in H. injection H as <- <-.
    rewrite (huff_decode_prefix ls _ _ _ _ Hkr B1 B2 E Hm'). cbn [decoded mbind option_bind]. rewrite He. cbn [mbind option_bind]. by rewrite Ec.
  - injection H as <- <-. rewrite (huff_decode_none type ls _ _ Hok B1 B2 E); [done|]. change (2 ^ 1) with 2 in Hm'. done.
Qed.
End code.

Section good.
Context (type : codetype) (rd : Z -> option code) (root : Z) (ls : list Z) (G : good_table type rd root ls).

Lemma lookup_facts h o v k :
  lookup rd root h = Some (o, v, k) -> 1 <= k <= 15 /\ exists sy, classify o v = Some sy /\ symbol_ok type sy /\
    symbol_at type ls h = Some (sy, k).
Proof.
  intros H. destruct (gt_lookup _ _ _ _ G h) as (o' & v' & k' & sy & E & Hc & Hs). rewrite E in H. injection H as -> -> ->.
  destruct G as [_ Hsy _ _ _]. destruct (symbol_at_facts type ls Hsy _ _ _ Hs). split; [done|]. by exists sy.
Qed.

Lemma lookup_prefix h h' o v k o' v' k' :
  lookup rd root h = Some (o, v, k) -> lookup rd root h' = Some (o', v', k') ->
  h mod 2 ^ k = h' mod 2 ^ k -> k' = k.
Proof.
  intros H H' Hm. apply lookup_facts in H as (_ & sy & _ & _ & H), H' as (_ & sy' & _ & _ & H').
  destruct G as [_ Hsy Hok _ _]. rewrite (symbol_at_prefix type ls Hsy Hok _ _ _ _ H Hm) in H'. by injection H'.
Qed.

Lemma lookup_symbol h h' o v k :
  lookup rd root h = Some (o, v, k) -> h mod 2 ^ k = h' mod 2 ^ k ->
  exists sy, classify o v = Some sy /\ symbol_ok type sy /\ symbol_at type ls h' = Some (sy, k).
Proof.
  intros H Hm. apply lookup_facts in H as (_ & sy & Hc & Hk & H). exists sy. split; [done|]. split; [done|].
  destruct G as [_ Hsy Hok _ _]. by eapply symbol_at_prefix.
Qed.
End good.

(** ** The tables that [inflate_table] builds *)
Lemma inflate_table_good type ls tbl table bits work r t :
  Z.of_nat (length ls) <= type_syms type -> Forall (fun l => 0 <= l <= 15) ls ->
  (type = CODES -> bits <= 7) ->
  table_spec type ls tbl table bits work r -> tr_ret r = 0 ->
  (forall j, table <= j < tr_next r -> aget t j = aget (tr_tbl r) j) ->
  good_table type (fun i => aget t (table + i)) (tr_bits r) ls.
Proof.
  intros Hsy Hls Hcodes Hts Hr Ht0. destruct (ts_table _ _ _ _ _ _ _ Hts Hr) as (_ & Hroot & Hcb & Hlk). specialize (Hlk t Ht0).
  assert (Hok : code_ok type ls = true).
  { destruct (ts_ret _ _ _ _ _ _ _ Hts) as [[_ ?]|[[? _]|[? _]]]; [done|lia|lia]. }
  assert (Hdec : forall h, exists s, decoded type (huff_decode ls (h mod 2 ^ 15)) = Some s /\
    (exists sy, classify s.1.1 s.1.2 = Some sy) /\ (type = CODES -> 0 <= s.1.2 < 19 /\ s.2 <= tr_bits r /\ (s.1.1 = 0 \/ s.1.2 = 0))).
  { intros h. destruct (huff_decode ls (h mod 2 ^ 15)) as [[s l]|] eqn:E; [|eexists; split; [done|]; split; [by eexists|]; cbn [fst snd]; lia].
    destruct (find_sym_inv _ _ _ _ (canon_lens_ok ls) (proj1 (rev15_range _)) E) as (i & Hi & _).
    apply canon_sym in Hi as (Hs & Hl & Hg). cbn [decoded]. destruct (make_entry_ok type s l ltac:(lia)) as (e & He & _).
    rewrite He. cbn [mbind option_bind]. eexists. split; [done|]. cbn [fst snd].
    destruct (make_entry_symbol type s l e ltac:(lia) He) as (sy & Hc & _ & Hv). split; [by exists sy|].
    intros Ht. destruct (Hv Ht) as [-> ?]. split; [done|]. split; [|by left].
    destruct (Hcb Ht) as [_ H7]. rewrite Forall_lookup in H7. unfold aget in Hg. destruct (0 <=? s); [|done]. by apply H7 in Hg. }
  split; try done.
  - intros h. destruct (Hdec h) as ([[o v] k] & E & (sy & Hc) & _). exists o, v, k, sy.
    fold (lookup_code t table (tr_bits r) h). unfold symbol_at. rewrite Hlk, E. cbn [mbind option_bind fst snd] in *.
    by rewrite Hc.
  - intros Ht. split; [specialize (Hcodes Ht); destruct (Hcb Ht); lia|]. intros h o v k H.
    change (lookup_code t table (tr_bits r) h = Some (o, v, k)) in H. rewrite Hlk in H.
    destruct (Hdec h) as ([[o' v'] k'] & E & _ & Hc). rewrite E in H. injection H as -> -> ->. by apply Hc.
Qed.
