(* ===== verification/Fixed.v ===== *)
(** The fixed codes: the tables of [inffixed.h] are what [makefixed()] of [src/zlib/inflate.c] prints, and
    they decode the fixed codes of the deflate format. *)
From S2P Require Import Prelude Bits Huffman InfTrees Inffixed InfTreesProof InfDecode.

(** The lengths set by [fixedtables()] under [BUILDFIXED]. *)
Definition fixed_lens : list Z :=
  replicate 144 8 ++ replicate 112 9 ++ replicate 24 7 ++ replicate 8 8.
Definition fixed_dists : list Z := replicate 32 5.

(** [fixedtables()] under [BUILDFIXED]: the array [fixed] and the start of the distance table. *)
Definition build_fixed (fixed : list code) (work : list Z) : option (list code * Z) :=
  r ← inflate_table LENS fixed_lens 288 fixed 0 9 work;
  let distfix := tr_next r in
  r ← inflate_table DISTS (fixed_dists ++ drop 32 fixed_lens) 32 (tr_tbl r) distfix 5 (tr_work r);
  Some (tr_tbl r, distfix).

(** The entries [makefixed()] prints. *)
Definition makefixed (fixed : list code) (work : list Z) : option (list code * list code) :=
  '(fixed, distfix) ← build_fixed fixed work;
  lenfix ← mapM (fun low => e ← aget fixed low;
                   Some (Code (if low .& 127 =? 99 then 64 else op e) (bits e) (val e))) (seqZ 0 512);
  distfix ← mapM (fun low => aget fixed (distfix + low)) (seqZ 0 32);
  Some (lenfix, distfix).

(** The tables of [inffixed.h] are those [makefixed()] prints: [inflate_table] on the lengths of the fixed
    codes, with the two unused length symbols marked invalid. *)
Theorem fixed_tables_generated :
  makefixed (replicate 544 (Code 0 0 0)) (replicate 288 0) = Some (lenfix, distfix).
Proof. vm_compute. reflexivity. Qed.

(** ** Decoding with the fixed tables *)

(** The entries of a table of [n] index bits and no second level agree with the canonical code. *)
Definition table_check (type : codetype) (tbl : list code) (n : Z) (cs : list (Z * Z)) : bool :=
  forallb (fun i =>
    match aget tbl i, find_sym cs 0 (rev 15 i) with
    | Some e, Some (s, l) =>
        match make_entry type s l with
        | Some e' => negb (is_link e) && (bits e =? l) && (l <=? n) &&
            match classify (op e) (val e), classify (op e') (val e') with
            | Some sy, Some sy' => bool_decide (sy = sy')
            | _, _ => false
            end
        | None => false
        end
    | _, _ => false
    end) (seqZ 0 (2 ^ n)).

Lemma table_check_good type tbl n ls :
  type <> CODES -> 1 <= n <= 15 -> Z.of_nat (length ls) <= type_syms type -> code_ok type ls = true ->
  table_check type tbl n (canon ls) = true -> good_table type (aget tbl) n ls.
Proof.
  intros Ht Hn Hsy Hok Hc. unfold table_check in Hc. rewrite forallb_forall in Hc. split; try done.
  intros h. assert (0 < 2 ^ n) by (apply pow2_pos; lia). assert (2 ^ n <= 2 ^ 15) by (apply Z.pow_le_mono_r; lia).
  assert (Hb := Z.mod_pos_bound h (2 ^ n) ltac:(lia)). specialize (Hc (h mod 2 ^ n)).
  rewrite <- list_elem_of_In, elem_of_seqZ in Hc. specialize (Hc ltac:(lia)).
  destruct (aget tbl (h mod 2 ^ n)) as [e|] eqn:Ee; [|done].
  destruct (find_sym (canon ls) 0 (rev 15 (h mod 2 ^ n))) as [[s l]|] eqn:Ef; [|done].
  destruct (make_entry type s l) as [e'|] eqn:Em; [|done].
  rewrite !andb_true_iff, negb_true_iff in Hc. destruct Hc as [[[Hl He] Hln] Hcl].
  destruct (classify (op e) (val e)) as [sy|] eqn:Ec; [|done]. destruct (classify (op e') (val e')) as [sy'|] eqn:Ec'; [|done].
  apply bool_decide_eq_true in Hcl. subst sy'.
  exists (op e), (val e), (bits e), sy. split; [|split; [done|]].
  - unfold lookup. rewrite Z.shiftl_1_l, land_mask, Ee by lia. cbn [mbind option_bind]. by rewrite Hl.
  - replace (bits e) with l by lia. apply (symbol_at_prefix type ls Hsy Hok (h mod 2 ^ n)).
    + unfold symbol_at, huff_decode. rewrite (Z.mod_small _ (2 ^ 15)), Ef by lia. cbn [decoded mbind option_bind].
      rewrite Em. cbn [mbind option_bind]. by rewrite Ec'.
    + apply mod_mod_pow2. destruct (find_sym_inv _ _ _ _ (canon_lens_ok ls) (proj1 (rev15_range _)) Ef) as (i & Hi & _).
      apply canon_sym in Hi. lia.
Qed.

Lemma lenfix_good : good_table LENS (aget lenfix) 9 fixed_lens.
Proof. apply table_check_good; [done|lia|done|vm_compute; reflexivity|vm_compute; reflexivity]. Qed.
Lemma distfix_good : good_table DISTS (aget distfix) 5 fixed_dists.
Proof. apply table_check_good; [done|lia|done|vm_compute; reflexivity|vm_compute; reflexivity]. Qed.

(** No fixed length code is shorter than seven bits. *)
Lemma lenfix_seven h o v k : lookup (aget lenfix) 9 h = Some (o, v, k) -> 7 <= k.
Proof.
  assert (Hc : forallb (fun e => negb (is_link e) && (7 <=? bits e)) lenfix = true) by (vm_compute; reflexivity).
  unfold lookup. rewrite Z.shiftl_1_l, land_mask by lia.
  destruct (aget lenfix (h mod 2 ^ 9)) as [e|] eqn:E; [|done]. cbn [mbind option_bind].
  rewrite forallb_forall in Hc. specialize (Hc e). rewrite <- list_elem_of_In in Hc. unfold aget in E.
  destruct (0 <=? h mod 2 ^ 9); [|done]. apply list_elem_of_lookup_2 in E. specialize (Hc E).
  apply andb_true_iff in Hc as [Hl%negb_true_iff H7%Z.leb_le]. rewrite Hl. by intros [= _ _ <-].
Qed.
