(* ===== verification/Lz.v ===== *)
(** The meaning of a deflate symbol: what one literal, match or end-of-block code does to the output, as a
    function of the remaining bits and of the bytes decoded so far. It is the reference for the two decoders
    ([inflate_fast()] and the cases [LEN] to [LIT] of [inflate()]). *)
From S2P Require Import Prelude Bits Huffman InfTrees InfTreesProof InfDecode.

(** [n] bytes copied from [dist] bytes back; the copy may overlap its source. *)
Fixpoint lz_copy (hist : list Z) (dist : Z) (n : nat) : list Z :=
  match n with
  | O => hist
  | S n => lz_copy (hist ++ [nth (length hist - Z.to_nat dist) hist 0]) dist n
  end.

(** The effect of a symbol: more output, the end of the block, or an error; with the bits consumed. *)
Inductive effect := Emit (used : Z) (hist : list Z) | Eob (used : Z) | Err.

Definition lz_step (ll dl : list Z) (s : Z) (hist : list Z) : effect :=
  match symbol_at LENS ll s with
  | Some (Literal b, k) => Emit k (hist ++ [b])
  | Some (EndBlock, k) => Eob k
  | Some (Base v e, k) =>
      let len := v + (s / 2 ^ k) mod 2 ^ e in
      match symbol_at DISTS dl (s / 2 ^ (k + e)) with
      | Some (Base w e2, k2) =>
          let dist := w + (s / 2 ^ (k + e + k2)) mod 2 ^ e2 in
          if Z.of_nat (length hist) <? dist then Err
          else Emit (k + e + k2 + e2) (lz_copy hist dist (Z.to_nat len))
      | _ => Err
      end
  | _ => Err
  end.

(** ** Copies *)
Lemma lz_copy_add hist dist a b : lz_copy hist dist (a + b) = lz_copy (lz_copy hist dist a) dist b.
Proof. revert hist. induction a as [|a IH]; intros hist; [done|]. cbn [Nat.add lz_copy]. apply IH. Qed.

Lemma lz_copy_length hist dist n : length (lz_copy hist dist n) = (length hist + n)%nat.
Proof.
  revert hist. induction n as [|n IH]; intros hist; cbn [lz_copy]; [lia|]. rewrite IH, length_app. cbn [length]. lia.
Qed.

Lemma lz_copy_bytes hist dist n : Forall byte_ok hist -> Forall byte_ok (lz_copy hist dist n).
Proof.
  revert hist. induction n as [|n IH]; intros hist H; [done|]. cbn [lz_copy]. apply IH, Forall_app. split; [done|].
  apply Forall_singleton. set (i := (length hist - Z.to_nat dist)%nat).
  destruct (Nat.lt_ge_cases i (length hist)) as [Hi|Hi].
  - apply (proj1 (List.Forall_forall _ _) H). by apply nth_In.
  - rewrite nth_overflow by lia. unfold byte_ok. lia.
Qed.

(** ** The bytes of the sliding window, oldest first *)
Definition win_hist (window : list Z) (wsize whave wnext : Z) : list Z :=
  if whave <? wsize then take (Z.to_nat whave) window
  else drop (Z.to_nat wnext) window ++ take (Z.to_nat wnext) window.

Definition win_ok (wsize whave wnext : Z) (window : option (list Z)) : Prop :=
  wsize = 0 /\ whave = 0 /\ wnext = 0 \/
  exists w, window = Some w /\ Z.of_nat (length w) = wsize /\ 0 < wsize <= 2 ^ 23 /\ 0 <= whave <= wsize /\
    0 <= wnext < wsize /\ (whave < wsize -> wnext = whave) /\ Forall byte_ok w.

Definition hist_of (wsize whave wnext : Z) (window : option (list Z)) : list Z :=
  match window with Some w => if wsize =? 0 then [] else win_hist w wsize whave wnext | None => [] end.

Lemma length_win_hist w wsize whave wnext :
  Z.of_nat (length w) = wsize -> 0 <= whave <= wsize -> 0 <= wnext < wsize -> Z.of_nat (length (win_hist w wsize whave wnext)) = whave.
Proof.
  intros Hl Hh Hn. unfold win_hist. destruct (Z.ltb_spec whave wsize).
  - rewrite length_take. lia.
  - rewrite length_app, length_drop, length_take. lia.
Qed.

Lemma length_hist_of wsize whave wnext window :
  win_ok wsize whave wnext window -> Z.of_nat (length (hist_of wsize whave wnext window)) = whave.
Proof.
  intros [(-> & -> & ->)|(w & -> & Hl & Hs & Hh & Hn & _)]; [by destruct window|].
  cbn [hist_of]. destruct (Z.eqb_spec wsize 0); [lia|]. by apply length_win_hist.
Qed.

Lemma hist_of_bytes wsize whave wnext window :
  win_ok wsize whave wnext window -> Forall byte_ok (hist_of wsize whave wnext window).
Proof.
  intros [(-> & -> & ->)|(w & -> & _ & _ & _ & _ & _ & Hb)]; [by destruct window|]. cbn [hist_of]. unfold win_hist.
  destruct (wsize =? 0); [done|]. destruct (whave <? wsize); [by apply Forall_take|]. apply Forall_app. split; [by apply Forall_drop|by apply Forall_take].
Qed.

(** The byte [op] back from the end of the window's bytes. *)
Lemma win_hist_back w wsize whave wnext op :
  Z.of_nat (length w) = wsize -> 0 <= whave <= wsize -> 0 <= wnext < wsize -> (whave < wsize -> wnext = whave) -> 1 <= op <= whave ->
  aget w (if op <=? wnext then wnext - op else wsize + wnext - op) = aget (win_hist w wsize whave wnext) (whave - op).
Proof.
  intros Hl Hh Hn Hw Ho. unfold win_hist, aget.
  destruct (Z.leb_spec op wnext), (Z.ltb_spec whave wsize); try lia;
    (destruct (Z.leb_spec 0 (whave - op)); [|lia]).
  - destruct (Z.leb_spec 0 (wnext - op)); [|lia]. rewrite Hw by lia. rewrite lookup_take_lt by lia. done.
  - destruct (Z.leb_spec 0 (wnext - op)); [|lia]. rewrite lookup_app_r by (rewrite length_drop; lia).
    rewrite length_drop, lookup_take_lt by lia. f_equal. lia.
  - destruct (Z.leb_spec 0 (wsize + wnext - op)); [|lia]. rewrite lookup_app_l by (rewrite length_drop; lia).
    rewrite lookup_drop. f_equal. lia.
Qed.

(** ** Sequences of literals and matches *)
Inductive lz_runs (ll dl : list Z) : Z -> list Z -> Z -> list Z -> Prop :=
  | runs_refl s h : lz_runs ll dl s h 0 h
  | runs_step s h u h1 v h2 :
      lz_step ll dl s h = Emit u h1 -> 0 <= u -> lz_runs ll dl (s / 2 ^ u) h1 v h2 -> lz_runs ll dl s h (u + v) h2.

Lemma lz_runs_nonneg ll dl s h u h' : lz_runs ll dl s h u h' -> 0 <= u.
Proof. induction 1; lia. Qed.

Lemma lz_runs_trans ll dl s h u h1 v h2 :
  lz_runs ll dl s h u h1 -> lz_runs ll dl (s / 2 ^ u) h1 v h2 -> lz_runs ll dl s h (u + v) h2.
Proof.
  induction 1 as [s h|s h u0 h1 v0 h3 Hs Hu H IH]; intros H2.
  - by rewrite Z.div_1_r in H2.
  - rewrite <- Z.add_assoc. eapply runs_step; [done..|]. apply IH.
    rewrite Z.div_div, <- Z.pow_add_r; try done; [apply (lz_runs_nonneg _ _ _ _ _ _ H)|by apply Z.pow_nonzero|apply pow2_pos].
    apply (lz_runs_nonneg _ _ _ _ _ _ H).
Qed.
