(* ===== verification/InflateState.v ===== *)
(** The data of the decompressor: [struct inflate_state] and [inflate_mode] of [src/zlib/inflate.h], and
    [z_stream] and [gz_header] of [src/zlib/zlib.h]. *)
From Stdlib Require Export String.
From S2P Require Import Prelude Record InfTrees.

Abbreviation length := List.length.

(** ** Constants of [zlib.h] *)
Definition Z_FINISH : Z := 4.
Definition Z_BLOCK : Z := 5.
Definition Z_TREES : Z := 6.

Definition Z_OK : Z := 0.
Definition Z_STREAM_END : Z := 1.
Definition Z_NEED_DICT : Z := 2.
Definition Z_STREAM_ERROR : Z := -2.
Definition Z_DATA_ERROR : Z := -3.
Definition Z_MEM_ERROR : Z := -4.
Definition Z_BUF_ERROR : Z := -5.
Definition Z_VERSION_ERROR : Z := -6.
Definition Z_DEFLATED : Z := 8.
Definition DEF_WBITS : Z := 15.

(** ** Modes *)
Inductive inflate_mode :=
  | HEAD | FLAGS | TIME | OS | EXLEN | EXTRA | NAME | COMMENT | HCRC | DICTID | DICT
  | TYPE | TYPEDO | STORED | COPY_ | COPY | TABLE | LENLENS | CODELENS
  | LEN_ | LEN | LENEXT | DIST | DISTEXT | MATCH | LIT
  | CHECK | LENGTH | DONE | BAD | MEM | SYNC.

#[global] Instance inflate_mode_eq_dec : EqDecision inflate_mode.
Proof. solve_decision. Defined.

(** The value of the enumeration, for the comparisons [mode < BAD]. *)
Definition mode_num (m : inflate_mode) : Z :=
  match m with
  | HEAD => 0 | FLAGS => 1 | TIME => 2 | OS => 3 | EXLEN => 4 | EXTRA => 5 | NAME => 6 | COMMENT => 7
  | HCRC => 8 | DICTID => 9 | DICT => 10 | TYPE => 11 | TYPEDO => 12 | STORED => 13 | COPY_ => 14
  | COPY => 15 | TABLE => 16 | LENLENS => 17 | CODELENS => 18 | LEN_ => 19 | LEN => 20 | LENEXT => 21
  | DIST => 22 | DISTEXT => 23 | MATCH => 24 | LIT => 25 | CHECK => 26 | LENGTH => 27 | DONE => 28
  | BAD => 29 | MEM => 30 | SYNC => 31
  end.

(** ** The gzip header structure, owned by the caller; a buffer is [None] when its pointer is NULL. *)
Record gz_header := GzHeader {
  h_text : Z; h_time : Z; h_xflags : Z; h_os : Z;
  h_extra : option (list Z); h_extra_len : Z; h_extra_max : Z;
  h_name : option (list Z); h_name_max : Z;
  h_comment : option (list Z); h_comm_max : Z;
  h_hcrc : Z; h_done : Z }.

Definition eta_header (h : gz_header) : gz_header :=
  GzHeader (h_text h) (h_time h) (h_xflags h) (h_os h) (h_extra h) (h_extra_len h) (h_extra_max h)
    (h_name h) (h_name_max h) (h_comment h) (h_comm_max h) (h_hcrc h) (h_done h).
#[export] Instance set_h_text : Setter h_text := ltac:(mk_setter eta_header h_text).
#[export] Instance set_h_time : Setter h_time := ltac:(mk_setter eta_header h_time).
#[export] Instance set_h_xflags : Setter h_xflags := ltac:(mk_setter eta_header h_xflags).
#[export] Instance set_h_os : Setter h_os := ltac:(mk_setter eta_header h_os).
#[export] Instance set_h_extra : Setter h_extra := ltac:(mk_setter eta_header h_extra).
#[export] Instance set_h_extra_len : Setter h_extra_len := ltac:(mk_setter eta_header h_extra_len).
#[export] Instance set_h_name : Setter h_name := ltac:(mk_setter eta_header h_name).
#[export] Instance set_h_comment : Setter h_comment := ltac:(mk_setter eta_header h_comment).
#[export] Instance set_h_hcrc : Setter h_hcrc := ltac:(mk_setter eta_header h_hcrc).
#[export] Instance set_h_done : Setter h_done := ltac:(mk_setter eta_header h_done).

(** ** The state kept between calls *)

(** [lencode] and [distcode] point into [state->codes] or to the fixed tables. *)
Inductive codeptr := InCodes (off : Z) | Lenfix | Distfix.

Record inflate_state := InflateState {
  s_mode : inflate_mode; s_last : Z; s_wrap : Z; s_havedict : Z; s_flags : Z; s_dmax : Z;
  s_check : Z; s_total : Z; s_head : option gz_header;
  s_wbits : Z; s_wsize : Z; s_whave : Z; s_wnext : Z; s_window : option (list Z);
  s_hold : Z; s_bits : Z;
  s_length : Z; s_offset : Z;
  s_extra : Z;
  s_lencode : codeptr; s_distcode : codeptr; s_lenbits : Z; s_distbits : Z;
  s_ncode : Z; s_nlen : Z; s_ndist : Z; s_have : Z; s_next : Z;
  s_lens : list Z; s_work : list Z; s_codes : list code;
  s_sane : Z; s_back : Z; s_was : Z }.

Definition eta_state (s : inflate_state) : inflate_state :=
  InflateState (s_mode s) (s_last s) (s_wrap s) (s_havedict s) (s_flags s) (s_dmax s)
    (s_check s) (s_total s) (s_head s)
    (s_wbits s) (s_wsize s) (s_whave s) (s_wnext s) (s_window s)
    (s_hold s) (s_bits s)
    (s_length s) (s_offset s)
    (s_extra s)
    (s_lencode s) (s_distcode s) (s_lenbits s) (s_distbits s)
    (s_ncode s) (s_nlen s) (s_ndist s) (s_have s) (s_next s)
    (s_lens s) (s_work s) (s_codes s)
    (s_sane s) (s_back s) (s_was s).
#[export] Instance set_s_mode : Setter s_mode := ltac:(mk_setter eta_state s_mode).
#[export] Instance set_s_last : Setter s_last := ltac:(mk_setter eta_state s_last).
#[export] Instance set_s_wrap : Setter s_wrap := ltac:(mk_setter eta_state s_wrap).
#[export] Instance set_s_havedict : Setter s_havedict := ltac:(mk_setter eta_state s_havedict).
#[export] Instance set_s_flags : Setter s_flags := ltac:(mk_setter eta_state s_flags).
#[export] Instance set_s_dmax : Setter s_dmax := ltac:(mk_setter eta_state s_dmax).
#[export] Instance set_s_check : Setter s_check := ltac:(mk_setter eta_state s_check).
#[export] Instance set_s_total : Setter s_total := ltac:(mk_setter eta_state s_total).
#[export] Instance set_s_head : Setter s_head := ltac:(mk_setter eta_state s_head).
#[export] Instance set_s_wbits : Setter s_wbits := ltac:(mk_setter eta_state s_wbits).
#[export] Instance set_s_wsize : Setter s_wsize := ltac:(mk_setter eta_state s_wsize).
#[export] Instance set_s_whave : Setter s_whave := ltac:(mk_setter eta_state s_whave).
#[export] Instance set_s_wnext : Setter s_wnext := ltac:(mk_setter eta_state s_wnext).
#[export] Instance set_s_window : Setter s_window := ltac:(mk_setter eta_state s_window).
#[export] Instance set_s_hold : Setter s_hold := ltac:(mk_setter eta_state s_hold).
#[export] Instance set_s_bits : Setter s_bits := ltac:(mk_setter eta_state s_bits).
#[export] Instance set_s_length : Setter s_length := ltac:(mk_setter eta_state s_length).
#[export] Instance set_s_offset : Setter s_offset := ltac:(mk_setter eta_state s_offset).
#[export] Instance set_s_extra : Setter s_extra := ltac:(mk_setter eta_state s_extra).
#[export] Instance set_s_lencode : Setter s_lencode := ltac:(mk_setter eta_state s_lencode).
#[export] Instance set_s_distcode : Setter s_distcode := ltac:(mk_setter eta_state s_distcode).
#[export] Instance set_s_lenbits : Setter s_lenbits := ltac:(mk_setter eta_state s_lenbits).
#[export] Instance set_s_distbits : Setter s_distbits := ltac:(mk_setter eta_state s_distbits).
#[export] Instance set_s_ncode : Setter s_ncode := ltac:(mk_setter eta_state s_ncode).
#[export] Instance set_s_nlen : Setter s_nlen := ltac:(mk_setter eta_state s_nlen).
#[export] Instance set_s_ndist : Setter s_ndist := ltac:(mk_setter eta_state s_ndist).
#[export] Instance set_s_have : Setter s_have := ltac:(mk_setter eta_state s_have).
#[export] Instance set_s_next : Setter s_next := ltac:(mk_setter eta_state s_next).
#[export] Instance set_s_lens : Setter s_lens := ltac:(mk_setter eta_state s_lens).
#[export] Instance set_s_work : Setter s_work := ltac:(mk_setter eta_state s_work).
#[export] Instance set_s_codes : Setter s_codes := ltac:(mk_setter eta_state s_codes).
#[export] Instance set_s_sane : Setter s_sane := ltac:(mk_setter eta_state s_sane).
#[export] Instance set_s_back : Setter s_back := ltac:(mk_setter eta_state s_back).
#[export] Instance set_s_was : Setter s_was := ltac:(mk_setter eta_state s_was).

(** ** The stream structure

    A pointer is an array ([None] for NULL) with an index into it. [z_zalloc] and [z_zfree] say whether
    the function pointers are set. [z_calls] counts the calls of [zalloc], whose results are a parameter
    of the model. *)
Record z_stream := ZStream {
  z_in : option (list Z); z_next_in : Z; z_avail_in : Z; z_total_in : Z;
  z_out : option (list Z); z_next_out : Z; z_avail_out : Z; z_total_out : Z;
  z_msg : option string; z_state : option inflate_state;
  z_zalloc : bool; z_zfree : bool; z_calls : nat;
  z_data_type : Z; z_adler : Z }.

Definition eta_stream (z : z_stream) : z_stream :=
  ZStream (z_in z) (z_next_in z) (z_avail_in z) (z_total_in z)
    (z_out z) (z_next_out z) (z_avail_out z) (z_total_out z)
    (z_msg z) (z_state z) (z_zalloc z) (z_zfree z) (z_calls z) (z_data_type z) (z_adler z).
#[export] Instance set_z_in : Setter z_in := ltac:(mk_setter eta_stream z_in).
#[export] Instance set_z_next_in : Setter z_next_in := ltac:(mk_setter eta_stream z_next_in).
#[export] Instance set_z_avail_in : Setter z_avail_in := ltac:(mk_setter eta_stream z_avail_in).
#[export] Instance set_z_total_in : Setter z_total_in := ltac:(mk_setter eta_stream z_total_in).
#[export] Instance set_z_out : Setter z_out := ltac:(mk_setter eta_stream z_out).
#[export] Instance set_z_next_out : Setter z_next_out := ltac:(mk_setter eta_stream z_next_out).
#[export] Instance set_z_avail_out : Setter z_avail_out := ltac:(mk_setter eta_stream z_avail_out).
#[export] Instance set_z_total_out : Setter z_total_out := ltac:(mk_setter eta_stream z_total_out).
#[export] Instance set_z_msg : Setter z_msg := ltac:(mk_setter eta_stream z_msg).
#[export] Instance set_z_state : Setter z_state := ltac:(mk_setter eta_stream z_state).
#[export] Instance set_z_zalloc : Setter z_zalloc := ltac:(mk_setter eta_stream z_zalloc).
#[export] Instance set_z_zfree : Setter z_zfree := ltac:(mk_setter eta_stream z_zfree).
#[export] Instance set_z_calls : Setter z_calls := ltac:(mk_setter eta_stream z_calls).
#[export] Instance set_z_data_type : Setter z_data_type := ltac:(mk_setter eta_stream z_data_type).
#[export] Instance set_z_adler : Setter z_adler := ltac:(mk_setter eta_stream z_adler).

(** The arrays behind [next_in] and [next_out]. *)
Definition in_buf (z : z_stream) : list Z := default [] (z_in z).
Definition out_buf (z : z_stream) : list Z := default [] (z_out z).

(** ** Memory

    [memcpy dst i src j n] copies [n] bytes between two arrays; out of range it is undefined. *)
Definition slice (src : list Z) (j n : Z) : option (list Z) :=
  if (0 <=? j) && (0 <=? n) && (j + n <=? Z.of_nat (length src))
  then Some (take (Z.to_nat n) (drop (Z.to_nat j) src)) else None.

Definition memcpy (dst : list Z) (i : Z) (src : list Z) (j n : Z) : option (list Z) :=
  bs ← slice src j n;
  if (0 <=? i) && (i + n <=? Z.of_nat (length dst))
  then Some (take (Z.to_nat i) dst ++ bs ++ drop (Z.to_nat (i + n)) dst) else None.

(** Shifts of a 32-bit integer; a count of 32 or more is undefined. *)
Definition shl32 (x n : Z) : option Z := if (0 <=? n) && (n <? 32) then Some (u32 (x ≪ n)) else None.
Definition shr32 (x n : Z) : option Z := if (0 <=? n) && (n <? 32) then Some (x ≫ n) else None.
