(* ===== verification/TreesTables.v ===== *)
(** The static tables of [src/zlib/trees.h], and the entries of Huffman trees ([ct_data] of [deflate.h]). *)
From S2P Require Import Prelude.

(** A tree entry: the unions [fc] ([Freq] or [Code]) and [dl] ([Dad] or [Len]), of 16 bits each. *)
Record ct_data := CtData { fc : Z; dl : Z }.
#[global] Instance ct_data_eq_dec : EqDecision ct_data.
Proof. solve_decision. Defined.
Notation Freq := fc (only parsing).
Notation Code_ := fc (only parsing).
Notation Dad := dl (only parsing).
Notation Len := dl (only parsing).
#[global] Instance ct_data_inhabited : Inhabited ct_data := populate (CtData 0 0).

Definition static_ltree : list ct_data :=
  [CtData 12 8; CtData 140 8; CtData 76 8; CtData 204 8; CtData 44 8; CtData 172 8; CtData 108 8; CtData 236 8;
   CtData 28 8; CtData 156 8; CtData 92 8; CtData 220 8; CtData 60 8; CtData 188 8; CtData 124 8; CtData 252 8;
   CtData 2 8; CtData 130 8; CtData 66 8; CtData 194 8; CtData 34 8; CtData 162 8; CtData 98 8; CtData 226 8;
   CtData 18 8; CtData 146 8; CtData 82 8; CtData 210 8; CtData 50 8; CtData 178 8; CtData 114 8; CtData 242 8;
   CtData 10 8; CtData 138 8; CtData 74 8; CtData 202 8; CtData 42 8; CtData 170 8; CtData 106 8; CtData 234 8;
   CtData 26 8; CtData 154 8; CtData 90 8; CtData 218 8; CtData 58 8; CtData 186 8; CtData 122 8; CtData 250 8;
   CtData 6 8; CtData 134 8; CtData 70 8; CtData 198 8; CtData 38 8; CtData 166 8; CtData 102 8; CtData 230 8;
   CtData 22 8; CtData 150 8; CtData 86 8; CtData 214 8; CtData 54 8; CtData 182 8; CtData 118 8; CtData 246 8;
   CtData 14 8; CtData 142 8; CtData 78 8; CtData 206 8; CtData 46 8; CtData 174 8; CtData 110 8; CtData 238 8;
   CtData 30 8; CtData 158 8; CtData 94 8; CtData 222 8; CtData 62 8; CtData 190 8; CtData 126 8; CtData 254 8;
   CtData 1 8; CtData 129 8; CtData 65 8; CtData 193 8; CtData 33 8; CtData 161 8; CtData 97 8; CtData 225 8;
   CtData 17 8; CtData 145 8; CtData 81 8; CtData 209 8; CtData 49 8; CtData 177 8; CtData 113 8; CtData 241 8;
   CtData 9 8; CtData 137 8; CtData 73 8; CtData 201 8; CtData 41 8; CtData 169 8; CtData 105 8; CtData 233 8;
   CtData 25 8; CtData 153 8; CtData 89 8; CtData 217 8; CtData 57 8; CtData 185 8; CtData 121 8; CtData 249 8;
   CtData 5 8; CtData 133 8; CtData 69 8; CtData 197 8; CtData 37 8; CtData 165 8; CtData 101 8; CtData 229 8;
   CtData 21 8; CtData 149 8; CtData 85 8; CtData 213 8; CtData 53 8; CtData 181 8; CtData 117 8; CtData 245 8;
   CtData 13 8; CtData 141 8; CtData 77 8; CtData 205 8; CtData 45 8; CtData 173 8; CtData 109 8; CtData 237 8;
   CtData 29 8; CtData 157 8; CtData 93 8; CtData 221 8; CtData 61 8; CtData 189 8; CtData 125 8; CtData 253 8;
   CtData 19 9; CtData 275 9; CtData 147 9; CtData 403 9; CtData 83 9; CtData 339 9; CtData 211 9; CtData 467 9;
   CtData 51 9; CtData 307 9; CtData 179 9; CtData 435 9; CtData 115 9; CtData 371 9; CtData 243 9; CtData 499 9;
   CtData 11 9; CtData 267 9; CtData 139 9; CtData 395 9; CtData 75 9; CtData 331 9; CtData 203 9; CtData 459 9;
   CtData 43 9; CtData 299 9; CtData 171 9; CtData 427 9; CtData 107 9; CtData 363 9; CtData 235 9; CtData 491 9;
   CtData 27 9; CtData 283 9; CtData 155 9; CtData 411 9; CtData 91 9; CtData 347 9; CtData 219 9; CtData 475 9;
   CtData 59 9; CtData 315 9; CtData 187 9; CtData 443 9; CtData 123 9; CtData 379 9; CtData 251 9; CtData 507 9;
   CtData 7 9; CtData 263 9; CtData 135 9; CtData 391 9; CtData 71 9; CtData 327 9; CtData 199 9; CtData 455 9;
   CtData 39 9; CtData 295 9; CtData 167 9; CtData 423 9; CtData 103 9; CtData 359 9; CtData 231 9; CtData 487 9;
   CtData 23 9; CtData 279 9; CtData 151 9; CtData 407 9; CtData 87 9; CtData 343 9; CtData 215 9; CtData 471 9;
   CtData 55 9; CtData 311 9; CtData 183 9; CtData 439 9; CtData 119 9; CtData 375 9; CtData 247 9; CtData 503 9;
   CtData 15 9; CtData 271 9; CtData 143 9; CtData 399 9; CtData 79 9; CtData 335 9; CtData 207 9; CtData 463 9;
   CtData 47 9; CtData 303 9; CtData 175 9; CtData 431 9; CtData 111 9; CtData 367 9; CtData 239 9; CtData 495 9;
   CtData 31 9; CtData 287 9; CtData 159 9; CtData 415 9; CtData 95 9; CtData 351 9; CtData 223 9; CtData 479 9;
   CtData 63 9; CtData 319 9; CtData 191 9; CtData 447 9; CtData 127 9; CtData 383 9; CtData 255 9; CtData 511 9;
   CtData 0 7; CtData 64 7; CtData 32 7; CtData 96 7; CtData 16 7; CtData 80 7; CtData 48 7; CtData 112 7;
   CtData 8 7; CtData 72 7; CtData 40 7; CtData 104 7; CtData 24 7; CtData 88 7; CtData 56 7; CtData 120 7;
   CtData 4 7; CtData 68 7; CtData 36 7; CtData 100 7; CtData 20 7; CtData 84 7; CtData 52 7; CtData 116 7;
   CtData 3 8; CtData 131 8; CtData 67 8; CtData 195 8; CtData 35 8; CtData 163 8; CtData 99 8; CtData 227 8].

Definition static_dtree : list ct_data :=
  [CtData 0 5; CtData 16 5; CtData 8 5; CtData 24 5; CtData 4 5; CtData 20 5; CtData 12 5; CtData 28 5;
   CtData 2 5; CtData 18 5; CtData 10 5; CtData 26 5; CtData 6 5; CtData 22 5; CtData 14 5; CtData 30 5;
   CtData 1 5; CtData 17 5; CtData 9 5; CtData 25 5; CtData 5 5; CtData 21 5; CtData 13 5; CtData 29 5;
   CtData 3 5; CtData 19 5; CtData 11 5; CtData 27 5; CtData 7 5; CtData 23 5].

Definition dist_code : list Z :=
  [0; 1; 2; 3; 4; 4; 5; 5; 6; 6; 6; 6; 7; 7; 7; 7; 8; 8; 8; 8; 8; 8; 8; 8; 9; 9; 9; 9; 9; 9; 9; 9;
   10; 10; 10; 10; 10; 10; 10; 10; 10; 10; 10; 10; 10; 10; 10; 10; 11; 11; 11; 11; 11; 11; 11; 11; 11; 11; 11; 11; 11; 11; 11; 11;
   12; 12; 12; 12; 12; 12; 12; 12; 12; 12; 12; 12; 12; 12; 12; 12; 12; 12; 12; 12; 12; 12; 12; 12; 12; 12; 12; 12; 12; 12; 12; 12;
   13; 13; 13; 13; 13; 13; 13; 13; 13; 13; 13; 13; 13; 13; 13; 13; 13; 13; 13; 13; 13; 13; 13; 13; 13; 13; 13; 13; 13; 13; 13; 13;
   14; 14; 14; 14; 14; 14; 14; 14; 14; 14; 14; 14; 14; 14; 14; 14; 14; 14; 14; 14; 14; 14; 14; 14; 14; 14; 14; 14; 14; 14; 14; 14;
   14; 14; 14; 14; 14; 14; 14; 14; 14; 14; 14; 14; 14; 14; 14; 14; 14; 14; 14; 14; 14; 14; 14; 14; 14; 14; 14; 14; 14; 14; 14; 14;
   15; 15; 15; 15; 15; 15; 15; 15; 15; 15; 15; 15; 15; 15; 15; 15; 15; 15; 15; 15; 15; 15; 15; 15; 15; 15; 15; 15; 15; 15; 15; 15;
   15; 15; 15; 15; 15; 15; 15; 15; 15; 15; 15; 15; 15; 15; 15; 15; 15; 15; 15; 15; 15; 15; 15; 15; 15; 15; 15; 15; 15; 15; 15; 15;
   0; 0; 16; 17; 18; 18; 19; 19; 20; 20; 20; 20; 21; 21; 21; 21; 22; 22; 22; 22; 22; 22; 22; 22; 23; 23; 23; 23; 23; 23; 23; 23;
   24; 24; 24; 24; 24; 24; 24; 24; 24; 24; 24; 24; 24; 24; 24; 24; 25; 25; 25; 25; 25; 25; 25; 25; 25; 25; 25; 25; 25; 25; 25; 25;
   26; 26; 26; 26; 26; 26; 26; 26; 26; 26; 26; 26; 26; 26; 26; 26; 26; 26; 26; 26; 26; 26; 26; 26; 26; 26; 26; 26; 26; 26; 26; 26;
   27; 27; 27; 27; 27; 27; 27; 27; 27; 27; 27; 27; 27; 27; 27; 27; 27; 27; 27; 27; 27; 27; 27; 27; 27; 27; 27; 27; 27; 27; 27; 27;
   28; 28; 28; 28; 28; 28; 28; 28; 28; 28; 28; 28; 28; 28; 28; 28; 28; 28; 28; 28; 28; 28; 28; 28; 28; 28; 28; 28; 28; 28; 28; 28;
   28; 28; 28; 28; 28; 28; 28; 28; 28; 28; 28; 28; 28; 28; 28; 28; 28; 28; 28; 28; 28; 28; 28; 28; 28; 28; 28; 28; 28; 28; 28; 28;
   29; 29; 29; 29; 29; 29; 29; 29; 29; 29; 29; 29; 29; 29; 29; 29; 29; 29; 29; 29; 29; 29; 29; 29; 29; 29; 29; 29; 29; 29; 29; 29;
   29; 29; 29; 29; 29; 29; 29; 29; 29; 29; 29; 29; 29; 29; 29; 29; 29; 29; 29; 29; 29; 29; 29; 29; 29; 29; 29; 29; 29; 29; 29; 29].

Definition length_code : list Z :=
  [0; 1; 2; 3; 4; 5; 6; 7; 8; 8; 9; 9; 10; 10; 11; 11; 12; 12; 12; 12; 13; 13; 13; 13; 14; 14; 14; 14; 15; 15; 15; 15;
   16; 16; 16; 16; 16; 16; 16; 16; 17; 17; 17; 17; 17; 17; 17; 17; 18; 18; 18; 18; 18; 18; 18; 18; 19; 19; 19; 19; 19; 19; 19; 19;
   20; 20; 20; 20; 20; 20; 20; 20; 20; 20; 20; 20; 20; 20; 20; 20; 21; 21; 21; 21; 21; 21; 21; 21; 21; 21; 21; 21; 21; 21; 21; 21;
   22; 22; 22; 22; 22; 22; 22; 22; 22; 22; 22; 22; 22; 22; 22; 22; 23; 23; 23; 23; 23; 23; 23; 23; 23; 23; 23; 23; 23; 23; 23; 23;
   24; 24; 24; 24; 24; 24; 24; 24; 24; 24; 24; 24; 24; 24; 24; 24; 24; 24; 24; 24; 24; 24; 24; 24; 24; 24; 24; 24; 24; 24; 24; 24;
   25; 25; 25; 25; 25; 25; 25; 25; 25; 25; 25; 25; 25; 25; 25; 25; 25; 25; 25; 25; 25; 25; 25; 25; 25; 25; 25; 25; 25; 25; 25; 25;
   26; 26; 26; 26; 26; 26; 26; 26; 26; 26; 26; 26; 26; 26; 26; 26; 26; 26; 26; 26; 26; 26; 26; 26; 26; 26; 26; 26; 26; 26; 26; 26;
   27; 27; 27; 27; 27; 27; 27; 27; 27; 27; 27; 27; 27; 27; 27; 27; 27; 27; 27; 27; 27; 27; 27; 27; 27; 27; 27; 27; 27; 27; 27; 28].

Definition base_length : list Z :=
  [0; 1; 2; 3; 4; 5; 6; 7; 8; 10; 12; 14; 16; 20; 24; 28; 32; 40; 48; 56; 64; 80; 96; 112; 128; 160; 192; 224; 0].

Definition base_dist : list Z :=
  [0; 1; 2; 3; 4; 6; 8; 12; 16; 24; 32; 48; 64; 96; 128; 192; 256; 384; 512; 768; 1024; 1536; 2048; 3072; 4096; 6144; 8192; 12288; 16384; 24576].
