(* ===== verification/Trees.v ===== *)
(** Model of [src/zlib/trees.c]: the output of deflated blocks, with the constants and structures it uses of
    [deflate.h] and [zutil.h].

    The state is the part of [deflate_state] that [trees.c] uses. [deflateInit2_()] overlays three arrays in one
    allocation of [4 * lit_bufsize] bytes: [pending_buf] from its start, [d_buf] (16-bit values, little-endian)
    from byte [lit_bufsize] and [l_buf] from byte [3 * lit_bufsize]. The model keeps that single array. *)
From S2P Require Import Prelude Record TreesTables InflateState.

(** ** Constants *)
Definition MAX_BITS : Z := 15.
Definition MAX_BL_BITS : Z := 7.
Definition END_BLOCK : Z := 256.
Definition REP_3_6 : Z := 16.
Definition REPZ_3_10 : Z := 17.
Definition REPZ_11_138 : Z := 18.
Definition LENGTH_CODES : Z := 29.
Definition LITERALS : Z := 256.
Definition L_CODES : Z := LITERALS + 1 + LENGTH_CODES.
Definition D_CODES : Z := 30.
Definition BL_CODES : Z := 19.
Definition HEAP_SIZE : Z := 2 * L_CODES + 1.
Definition Buf_size : Z := 16.
Definition STORED_BLOCK : Z := 0.
Definition STATIC_TREES : Z := 1.
Definition DYN_TREES : Z := 2.
Definition MIN_MATCH : Z := 3.
Definition MAX_MATCH : Z := 258.
Definition Z_FIXED : Z := 4.
Definition Z_BINARY : Z := 0.
Definition Z_TEXT : Z := 1.
Definition Z_UNKNOWN : Z := 2.

Definition extra_lbits : list Z := [0; 0; 0; 0; 0; 0; 0; 0; 1; 1; 1; 1; 2; 2; 2; 2; 3; 3; 3; 3; 4; 4; 4; 4; 5; 5; 5; 5; 0].
Definition extra_dbits : list Z :=
  [0; 0; 0; 0; 1; 1; 2; 2; 3; 3; 4; 4; 5; 5; 6; 6; 7; 7; 8; 8; 9; 9; 10; 10; 11; 11; 12; 12; 13; 13].
Definition extra_blbits : list Z := [0; 0; 0; 0; 0; 0; 0; 0; 0; 0; 0; 0; 0; 0; 0; 0; 2; 3; 7].
Definition bl_order : list Z := [16; 17; 18; 0; 8; 7; 9; 6; 10; 5; 11; 4; 12; 3; 13; 2; 14; 1; 15].

(** ** The bit buffer *)

(** [pending_buf], [pending], [bi_buf] and [bi_valid]. *)
Record writer := Writer { w_buf : list Z; w_pending : Z; w_bi_buf : Z; w_bi_valid : Z }.
Definition eta_writer (w : writer) : writer := Writer (w_buf w) (w_pending w) (w_bi_buf w) (w_bi_valid w).
#[export] Instance set_w_buf : Setter w_buf := ltac:(mk_setter eta_writer w_buf).
#[export] Instance set_w_pending : Setter w_pending := ltac:(mk_setter eta_writer w_pending).
#[export] Instance set_w_bi_buf : Setter w_bi_buf := ltac:(mk_setter eta_writer w_bi_buf).
#[export] Instance set_w_bi_valid : Setter w_bi_valid := ltac:(mk_setter eta_writer w_bi_valid).

(** Shifts of a value promoted to [int], undefined when the result is not an [int]. *)
Definition shl_int (x n : Z) : option Z :=
  if (0 <=? n) && (n <? 32) && (x ≪ n <? 2 ^ 31) then Some (x ≪ n) else None.
Definition shr_int (x n : Z) : option Z := if (0 <=? n) && (n <? 32) then Some (x ≫ n) else None.

Definition put_byte (w : writer) (c : Z) : option writer :=
  buf ← aset (w_buf w) (w_pending w) (u8 c);
  Some (w <| w_buf := buf |> <| w_pending := u32 (w_pending w + 1) |>).

Definition put_short (w : writer) (v : Z) : option writer :=
  w ← put_byte w (v .& 0xff);
  put_byte w (u16 v ≫ 8).

(** [send_bits] without [DEBUG]; [value] and [length] are of type [int]. *)
Definition send_bits (w : writer) (value length : Z) : option writer :=
  v ← shl_int (u16 value) (w_bi_valid w);
  if w_bi_valid w >? Buf_size - length then
    w ← put_short (w <| w_bi_buf := u16 (w_bi_buf w .| v) |>) (u16 (w_bi_buf w .| v));
    r ← shr_int (u16 value) (Buf_size - w_bi_valid w);
    Some (w <| w_bi_buf := u16 r |> <| w_bi_valid := w_bi_valid w + (length - Buf_size) |>)
  else
    Some (w <| w_bi_buf := u16 (w_bi_buf w .| v) |> <| w_bi_valid := w_bi_valid w + length |>).

Definition send_code (w : writer) (c : Z) (tree : list ct_data) : option writer :=
  e ← aget tree c;
  send_bits w (Code_ e) (Len e).

(** The loop body runs at least once. *)
Fixpoint bi_reverse_loop (n : nat) (code res : Z) : Z :=
  match n with
  | O => res
  | S n => bi_reverse_loop n (code ≫ 1) (u32 ((res .| (code .& 1)) ≪ 1))
  end.
Definition bi_reverse (code len : Z) : Z := bi_reverse_loop (Nat.max 1 (Z.to_nat len)) code 0 ≫ 1.

Definition bi_flush (w : writer) : option writer :=
  if w_bi_valid w =? 16 then
    w ← put_short w (w_bi_buf w);
    Some (w <| w_bi_buf := 0 |> <| w_bi_valid := 0 |>)
  else if w_bi_valid w >=? 8 then
    w ← put_byte w (w_bi_buf w);
    Some (w <| w_bi_buf := w_bi_buf w ≫ 8 |> <| w_bi_valid := w_bi_valid w - 8 |>)
  else Some w.

Definition bi_windup (w : writer) : option writer :=
  w ← (if w_bi_valid w >? 8 then put_short w (w_bi_buf w)
       else if w_bi_valid w >? 0 then put_byte w (w_bi_buf w)
       else Some w);
  Some (w <| w_bi_buf := 0 |> <| w_bi_valid := 0 |>).

Fixpoint put_bytes (n : nat) (w : writer) (buf : list Z) (i : Z) : option writer :=
  match n with
  | O => Some w
  | S n =>
      b ← aget buf i;
      w ← put_byte w b;
      put_bytes n w buf (i + 1)
  end.

Definition copy_block (w : writer) (buf : list Z) (len : Z) (header : bool) : option writer :=
  w ← bi_windup w;
  w ← (if header then
         w ← put_short w (u16 len);
         put_short w (u16 (Z.lnot len))
       else Some w);
  put_bytes (Z.to_nat len) w buf 0.

(** ** The state *)
Record trees_state := TreesState {
  t_w : writer;
  t_lit_bufsize : Z; t_last_lit : Z; t_matches : Z;
  t_ltree : list ct_data; t_dtree : list ct_data; t_bltree : list ct_data;
  t_lmax : Z; t_dmax : Z; t_blmax : Z;
  t_bl_count : list Z;
  t_heap : list Z; t_heap_len : Z; t_heap_max : Z;
  t_depth : list Z;
  t_opt_len : Z; t_static_len : Z;
  t_level : Z; t_strategy : Z; t_data_type : Z }.

Definition eta_trees (s : trees_state) : trees_state :=
  TreesState (t_w s) (t_lit_bufsize s) (t_last_lit s) (t_matches s)
    (t_ltree s) (t_dtree s) (t_bltree s) (t_lmax s) (t_dmax s) (t_blmax s)
    (t_bl_count s) (t_heap s) (t_heap_len s) (t_heap_max s) (t_depth s)
    (t_opt_len s) (t_static_len s) (t_level s) (t_strategy s) (t_data_type s).
#[export] Instance set_t_w : Setter t_w := ltac:(mk_setter eta_trees t_w).
#[export] Instance set_t_lit_bufsize : Setter t_lit_bufsize := ltac:(mk_setter eta_trees t_lit_bufsize).
#[export] Instance set_t_last_lit : Setter t_last_lit := ltac:(mk_setter eta_trees t_last_lit).
#[export] Instance set_t_matches : Setter t_matches := ltac:(mk_setter eta_trees t_matches).
#[export] Instance set_t_ltree : Setter t_ltree := ltac:(mk_setter eta_trees t_ltree).
#[export] Instance set_t_dtree : Setter t_dtree := ltac:(mk_setter eta_trees t_dtree).
#[export] Instance set_t_bltree : Setter t_bltree := ltac:(mk_setter eta_trees t_bltree).
#[export] Instance set_t_lmax : Setter t_lmax := ltac:(mk_setter eta_trees t_lmax).
#[export] Instance set_t_dmax : Setter t_dmax := ltac:(mk_setter eta_trees t_dmax).
#[export] Instance set_t_blmax : Setter t_blmax := ltac:(mk_setter eta_trees t_blmax).
#[export] Instance set_t_bl_count : Setter t_bl_count := ltac:(mk_setter eta_trees t_bl_count).
#[export] Instance set_t_heap : Setter t_heap := ltac:(mk_setter eta_trees t_heap).
#[export] Instance set_t_heap_len : Setter t_heap_len := ltac:(mk_setter eta_trees t_heap_len).
#[export] Instance set_t_heap_max : Setter t_heap_max := ltac:(mk_setter eta_trees t_heap_max).
#[export] Instance set_t_depth : Setter t_depth := ltac:(mk_setter eta_trees t_depth).
#[export] Instance set_t_opt_len : Setter t_opt_len := ltac:(mk_setter eta_trees t_opt_len).
#[export] Instance set_t_static_len : Setter t_static_len := ltac:(mk_setter eta_trees t_static_len).
#[export] Instance set_t_level : Setter t_level := ltac:(mk_setter eta_trees t_level).
#[export] Instance set_t_strategy : Setter t_strategy := ltac:(mk_setter eta_trees t_strategy).
#[export] Instance set_t_data_type : Setter t_data_type := ltac:(mk_setter eta_trees t_data_type).

(** Assignments to one half of a tree entry. *)
Definition set_fc (tree : list ct_data) (n v : Z) : option (list ct_data) :=
  e ← aget tree n; aset tree n (CtData (u16 v) (dl e)).
Definition set_dl (tree : list ct_data) (n v : Z) : option (list ct_data) :=
  e ← aget tree n; aset tree n (CtData (fc e) (u16 v)).
(** [tree[n].Freq += k] *)
Definition add_freq (tree : list ct_data) (n k : Z) : option (list ct_data) :=
  e ← aget tree n; aset tree n (CtData (u16 (Freq e + k)) (dl e)).

(** [struct static_tree_desc_s] *)
Record static_tree_desc := StaticTreeDesc {
  static_tree : option (list ct_data); extra_bits : list Z; extra_base : Z; elems : Z; max_length : Z }.
Definition static_l_desc : static_tree_desc := StaticTreeDesc (Some static_ltree) extra_lbits (LITERALS + 1) L_CODES MAX_BITS.
Definition static_d_desc : static_tree_desc := StaticTreeDesc (Some static_dtree) extra_dbits 0 D_CODES MAX_BITS.
Definition static_bl_desc : static_tree_desc := StaticTreeDesc None extra_blbits 0 BL_CODES MAX_BL_BITS.

(** ** The heap *)
Definition smaller (tree : list ct_data) (n m : Z) (depth : list Z) : option bool :=
  a ← aget tree n;
  b ← aget tree m;
  if Freq a <? Freq b then Some true
  else if Freq a =? Freq b then
    dn ← aget depth n;
    dm ← aget depth m;
    Some (dn <=? dm)
  else Some false.

(** The loop of [pqdownheap]: the heap and the place for [v]. *)
Fixpoint pqdown_loop (fuel : nat) (tree : list ct_data) (depth heap : list Z) (heap_len v k j : Z) : option (list Z * Z) :=
  match fuel with
  | O => None
  | S fuel =>
      if j <=? heap_len then
        j ← (if j <? heap_len then
               h1 ← aget heap (j + 1);
               h0 ← aget heap j;
               b ← smaller tree h1 h0 depth;
               Some (if (b : bool) then j + 1 else j)
             else Some j);
        hj ← aget heap j;
        b ← smaller tree v hj depth;
        if (b : bool) then Some (heap, k)
        else
          heap ← aset heap k hj;
          pqdown_loop fuel tree depth heap heap_len v j (j ≪ 1)
      else Some (heap, k)
  end.
Definition pqdownheap (tree : list ct_data) (depth heap : list Z) (heap_len k : Z) : option (list Z) :=
  v ← aget heap k;
  '(heap, k) ← pqdown_loop (S (Z.to_nat heap_len)) tree depth heap heap_len v k (k ≪ 1);
  aset heap k v.

Definition SMALLEST : Z := 1.
(** [pqremove(s, tree, top)]: the heap, its length and [top] *)
Definition pqremove (tree : list ct_data) (depth heap : list Z) (heap_len : Z) : option (list Z * Z * Z) :=
  top ← aget heap SMALLEST;
  last ← aget heap heap_len;
  heap ← aset heap SMALLEST last;
  heap ← pqdownheap tree depth heap (heap_len - 1) SMALLEST;
  Some (heap, heap_len - 1, top).

(** ** Bit lengths *)

(** What [gen_bitlen] changes. *)
Record bitlens := Bitlens { b_tree : list ct_data; b_count : list Z; b_opt_len : Z; b_static_len : Z }.

(** One iteration of the first loop, for the node [n]; the second component counts the overflow. *)
Definition bitlen_step (desc : static_tree_desc) (max_code : Z) (b : bitlens) (overflow n : Z) : option (bitlens * Z) :=
  e ← aget (b_tree b) n;
  d ← aget (b_tree b) (Dad e);
  let long := Len d + 1 >? max_length desc in
  let bits := if long then max_length desc else Len d + 1 in
  let overflow := if long then overflow + 1 else overflow in
  tree ← set_dl (b_tree b) n bits;
  if n >? max_code then Some (Bitlens tree (b_count b) (b_opt_len b) (b_static_len b), overflow)
  else
    c ← aget (b_count b) bits;
    count ← aset (b_count b) bits (u16 (c + 1));
    xbits ← (if n >=? extra_base desc then aget (extra_bits desc) (n - extra_base desc) else Some 0);
    let f := Freq e in
    static_len ← (match static_tree desc with
                  | Some stree => t ← aget stree n; Some (u32 (b_static_len b + f * (Len t + xbits)))
                  | None => Some (b_static_len b)
                  end);
    Some (Bitlens tree count (u32 (b_opt_len b + f * (bits + xbits))) static_len, overflow).

(** [for (h = heap_max+1; h < HEAP_SIZE; h++)] *)
Fixpoint bitlen_loop (fuel : nat) (desc : static_tree_desc) (max_code : Z) (heap : list Z) (b : bitlens) (overflow h : Z) :
    option (bitlens * Z) :=
  match fuel with
  | O => None
  | S fuel =>
      if h <? HEAP_SIZE then
        n ← aget heap h;
        '(b, overflow) ← bitlen_step desc max_code b overflow n;
        bitlen_loop fuel desc max_code heap b overflow (h + 1)
      else Some (b, overflow)
  end.

(** [while (s->bl_count[bits] == 0) bits--;] *)
Fixpoint find_bits (fuel : nat) (count : list Z) (bits : Z) : option Z :=
  match fuel with
  | O => None
  | S fuel =>
      c ← aget count bits;
      if c =? 0 then find_bits fuel count (bits - 1) else Some bits
  end.

(** [s->bl_count[bits] += k;] *)
Definition add_count (count : list Z) (bits k : Z) : option (list Z) :=
  c ← aget count bits; aset count bits (u16 (c + k)).

(** [do { ... } while (overflow > 0);] *)
Fixpoint overflow_loop (fuel : nat) (max_length : Z) (count : list Z) (overflow : Z) : option (list Z) :=
  match fuel with
  | O => None
  | S fuel =>
      bits ← find_bits (S (Z.to_nat max_length)) count (max_length - 1);
      count ← add_count count bits (-1);
      count ← add_count count (bits + 1) 2;
      count ← add_count count max_length (-1);
      let overflow := overflow - 2 in
      if overflow >? 0 then overflow_loop fuel max_length count overflow else Some count
  end.

(** [while (n != 0)]: the leaves that get [bits] bits, from the heap downwards *)
Fixpoint relen_loop (fuel : nat) (max_code : Z) (heap : list Z) (bits n h : Z) (tree : list ct_data) (opt_len : Z) :
    option (list ct_data * Z * Z) :=
  match fuel with
  | O => None
  | S fuel =>
      if n =? 0 then Some (tree, opt_len, h)
      else
        m ← aget heap (h - 1);
        if m >? max_code then relen_loop fuel max_code heap bits n (h - 1) tree opt_len
        else
          e ← aget tree m;
          if Len e =? bits then relen_loop fuel max_code heap bits (n - 1) (h - 1) tree opt_len
          else
            tree ← set_dl tree m bits;
            relen_loop fuel max_code heap bits (n - 1) (h - 1) tree (u32 (opt_len + (bits - Len e) * Freq e))
  end.
(** [for (bits = max_length; bits != 0; bits--)] *)
Fixpoint relens_loop (bits : nat) (max_code : Z) (heap count : list Z) (h : Z) (tree : list ct_data) (opt_len : Z) :
    option (list ct_data * Z) :=
  match bits with
  | O => Some (tree, opt_len)
  | S bits' =>
      n ← aget count (Z.of_nat bits);
      '(tree, opt_len, h) ← relen_loop (S (Z.to_nat HEAP_SIZE)) max_code heap (Z.of_nat bits) n h tree opt_len;
      relens_loop bits' max_code heap count h tree opt_len
  end.

Definition gen_bitlen (desc : static_tree_desc) (max_code : Z) (heap : list Z) (heap_max : Z)
    (tree : list ct_data) (opt_len static_len : Z) : option bitlens :=
  let count := replicate 16 0 in
  root ← aget heap heap_max;
  tree ← set_dl tree root 0;
  '(b, overflow) ← bitlen_loop (S (Z.to_nat HEAP_SIZE)) desc max_code heap (Bitlens tree count opt_len static_len) 0 (heap_max + 1);
  if overflow =? 0 then Some b
  else
    count ← overflow_loop (Z.to_nat overflow) (max_length desc) (b_count b) overflow;
    '(tree, opt_len) ← relens_loop (Z.to_nat (max_length desc)) max_code heap count HEAP_SIZE (b_tree b) (b_opt_len b);
    Some (Bitlens tree count opt_len (b_static_len b)).

(** ** Codes *)

(** [for (bits = 1; bits <= MAX_BITS; bits++) next_code[bits] = code = (code + bl_count[bits-1]) << 1;] *)
Fixpoint next_codes (n : nat) (bits code : Z) (count next_code : list Z) : option (list Z) :=
  match n with
  | O => Some next_code
  | S n =>
      c ← aget count (bits - 1);
      let code := u16 ((code + c) ≪ 1) in
      next_code ← aset next_code bits code;
      next_codes n (bits + 1) code count next_code
  end.

Fixpoint codes_loop (fuel : nat) (n : Z) (tree : list ct_data) (next_code : list Z) : option (list ct_data) :=
  match fuel with
  | O => Some tree
  | S fuel =>
      e ← aget tree n;
      if Len e =? 0 then codes_loop fuel (n + 1) tree next_code
      else
        c ← aget next_code (Len e);
        next_code ← aset next_code (Len e) (u16 (c + 1));
        tree ← set_fc tree n (bi_reverse c (Len e));
        codes_loop fuel (n + 1) tree next_code
  end.

(** The entry 0 of [next_code] is not initialised and not used. *)
Definition gen_codes (tree : list ct_data) (max_code : Z) (bl_count : list Z) : option (list ct_data) :=
  next_code ← next_codes 15 1 0 bl_count (replicate 16 0);
  codes_loop (Z.to_nat (max_code + 1)) 0 tree next_code.

(** ** Construction of a tree *)
Inductive tree_desc := l_desc | d_desc | bl_desc.
Definition stat_desc (desc : tree_desc) : static_tree_desc :=
  match desc with l_desc => static_l_desc | d_desc => static_d_desc | bl_desc => static_bl_desc end.
Definition dyn_tree (s : trees_state) (desc : tree_desc) : list ct_data :=
  match desc with l_desc => t_ltree s | d_desc => t_dtree s | bl_desc => t_bltree s end.
Definition set_dyn_tree (s : trees_state) (desc : tree_desc) (tree : list ct_data) : trees_state :=
  match desc with
  | l_desc => s <| t_ltree := tree |>
  | d_desc => s <| t_dtree := tree |>
  | bl_desc => s <| t_bltree := tree |>
  end.
Definition max_code (s : trees_state) (desc : tree_desc) : Z :=
  match desc with l_desc => t_lmax s | d_desc => t_dmax s | bl_desc => t_blmax s end.
Definition set_max_code (s : trees_state) (desc : tree_desc) (m : Z) : trees_state :=
  match desc with
  | l_desc => s <| t_lmax := m |>
  | d_desc => s <| t_dmax := m |>
  | bl_desc => s <| t_blmax := m |>
  end.

(** The tree, the heap with its length, the depths and [max_code] while the heap is filled. *)
Record building := Building {
  g_tree : list ct_data; g_heap : list Z; g_heap_len : Z; g_depth : list Z; g_max_code : Z }.

(** [for (n = 0; n < elems; n++)] *)
Fixpoint heap_init (fuel : nat) (n : Z) (g : building) : option building :=
  match fuel with
  | O => Some g
  | S fuel =>
      e ← aget (g_tree g) n;
      if nz (Freq e) then
        heap ← aset (g_heap g) (g_heap_len g + 1) n;
        depth ← aset (g_depth g) n 0;
        heap_init fuel (n + 1) (Building (g_tree g) heap (g_heap_len g + 1) depth n)
      else
        tree ← set_dl (g_tree g) n 0;
        heap_init fuel (n + 1) (Building tree (g_heap g) (g_heap_len g) (g_depth g) (g_max_code g))
  end.

(** [while (s->heap_len < 2)] *)
Fixpoint force_two (fuel : nat) (stree : option (list ct_data)) (g : building) (opt_len static_len : Z) :
    option (building * Z * Z) :=
  match fuel with
  | O => None
  | S fuel =>
      if g_heap_len g <? 2 then
        let '(node, max_code) := if g_max_code g <? 2 then (g_max_code g + 1, g_max_code g + 1) else (0, g_max_code g) in
        heap ← aset (g_heap g) (g_heap_len g + 1) node;
        tree ← set_fc (g_tree g) node 1;
        depth ← aset (g_depth g) node 0;
        static_len ← (match stree with
                      | Some stree => e ← aget stree node; Some (u32 (static_len - Len e))
                      | None => Some static_len
                      end);
        force_two fuel stree (Building tree heap (g_heap_len g + 1) depth max_code) (u32 (opt_len - 1)) static_len
      else Some (g, opt_len, static_len)
  end.

(** [for (n = s->heap_len/2; n >= 1; n--) pqdownheap(s, tree, n);] *)
Fixpoint heapify (n : nat) (tree : list ct_data) (depth heap : list Z) (heap_len : Z) : option (list Z) :=
  match n with
  | O => Some heap
  | S n' =>
      heap ← pqdownheap tree depth heap heap_len (Z.of_nat n);
      heapify n' tree depth heap heap_len
  end.

(** The construction of the Huffman tree: the tree, the heap and the depths. *)
Record merging := Merging { m_tree : list ct_data; m_heap : list Z; m_heap_len : Z; m_heap_max : Z; m_depth : list Z }.

Definition merge_step (m : merging) (node : Z) : option merging :=
  '(heap, heap_len, n) ← pqremove (m_tree m) (m_depth m) (m_heap m) (m_heap_len m);
  k ← aget heap SMALLEST;
  heap ← aset heap (m_heap_max m - 1) n;
  heap ← aset heap (m_heap_max m - 2) k;
  en ← aget (m_tree m) n;
  ek ← aget (m_tree m) k;
  tree ← set_fc (m_tree m) node (Freq en + Freq ek);
  dn ← aget (m_depth m) n;
  dk ← aget (m_depth m) k;
  depth ← aset (m_depth m) node (u8 ((if dn >=? dk then dn else dk) + 1));
  tree ← set_dl tree k node;
  tree ← set_dl tree n node;
  heap ← aset heap SMALLEST node;
  heap ← pqdownheap tree depth heap heap_len SMALLEST;
  Some (Merging tree heap heap_len (m_heap_max m - 2) depth).

(** [do { ... } while (s->heap_len >= 2);] *)
Fixpoint merge_loop (fuel : nat) (m : merging) (node : Z) : option merging :=
  match fuel with
  | O => None
  | S fuel =>
      m ← merge_step m node;
      if m_heap_len m >=? 2 then merge_loop fuel m (node + 1) else Some m
  end.

Definition build_tree (s : trees_state) (desc : tree_desc) : option trees_state :=
  let stat := stat_desc desc in
  g ← heap_init (Z.to_nat (elems stat)) 0 (Building (dyn_tree s desc) (t_heap s) 0 (t_depth s) (-1));
  '(g, opt_len, static_len) ← force_two 3 (static_tree stat) g (t_opt_len s) (t_static_len s);
  let max_code := g_max_code g in
  heap ← heapify (Z.to_nat (g_heap_len g / 2)) (g_tree g) (g_depth g) (g_heap g) (g_heap_len g);
  m ← merge_loop (Z.to_nat (g_heap_len g)) (Merging (g_tree g) heap (g_heap_len g) HEAP_SIZE (g_depth g)) (elems stat);
  top ← aget (m_heap m) SMALLEST;
  heap ← aset (m_heap m) (m_heap_max m - 1) top;
  let heap_max := m_heap_max m - 1 in
  b ← gen_bitlen stat max_code heap heap_max (m_tree m) opt_len static_len;
  tree ← gen_codes (b_tree b) max_code (b_count b);
  let s := s <| t_heap := heap |> <| t_heap_len := m_heap_len m |> <| t_heap_max := heap_max |>
             <| t_depth := m_depth m |> <| t_bl_count := b_count b |>
             <| t_opt_len := b_opt_len b |> <| t_static_len := b_static_len b |> in
  Some (set_max_code (set_dyn_tree s desc tree) desc max_code).

(** ** The code lengths of a block *)

(** The locals of [scan_tree] and [send_tree] that the iterations carry. *)
Record runs := Runs { q_prevlen : Z; q_nextlen : Z; q_count : Z; q_max : Z; q_min : Z }.

Definition runs_init (nextlen : Z) : runs :=
  if nextlen =? 0 then Runs (-1) nextlen 0 138 3 else Runs (-1) nextlen 0 7 4.

(** [count = 0; prevlen = curlen; if (nextlen == 0) ...] *)
Definition runs_next (curlen nextlen : Z) : runs :=
  if nextlen =? 0 then Runs curlen nextlen 0 138 3
  else if curlen =? nextlen then Runs curlen nextlen 0 6 3
  else Runs curlen nextlen 0 7 4.

Fixpoint scan_loop (fuel : nat) (n : Z) (tree bl_tree : list ct_data) (q : runs) : option (list ct_data) :=
  match fuel with
  | O => Some bl_tree
  | S fuel =>
      let curlen := q_nextlen q in
      e ← aget tree (n + 1);
      let nextlen := Len e in
      let count := q_count q + 1 in
      if (count <? q_max q) && (curlen =? nextlen) then
        scan_loop fuel (n + 1) tree bl_tree (Runs (q_prevlen q) nextlen count (q_max q) (q_min q))
      else
        bl_tree ←
          (if count <? q_min q then add_freq bl_tree curlen count
           else if nz curlen then
             bl_tree ← (if negb (curlen =? q_prevlen q) then add_freq bl_tree curlen 1 else Some bl_tree);
             add_freq bl_tree REP_3_6 1
           else if count <=? 10 then add_freq bl_tree REPZ_3_10 1
           else add_freq bl_tree REPZ_11_138 1);
        scan_loop fuel (n + 1) tree bl_tree (runs_next curlen nextlen)
  end.

(** The tree with its guard, and the frequencies of the bit length codes. *)
Definition scan_tree (tree : list ct_data) (max_code : Z) (bl_tree : list ct_data) : option (list ct_data * list ct_data) :=
  e ← aget tree 0;
  tree ← set_dl tree (max_code + 1) 0xffff;
  bl_tree ← scan_loop (Z.to_nat (max_code + 1)) 0 tree bl_tree (runs_init (Len e));
  Some (tree, bl_tree).

(** [do { send_code(s, curlen, s->bl_tree); } while (--count != 0);] *)
Fixpoint send_copies (count : nat) (w : writer) (curlen : Z) (bl_tree : list ct_data) : option writer :=
  match count with
  | O => Some w
  | S count => w ← send_code w curlen bl_tree; send_copies count w curlen bl_tree
  end.

Fixpoint send_loop (fuel : nat) (n : Z) (tree bl_tree : list ct_data) (q : runs) (w : writer) : option writer :=
  match fuel with
  | O => Some w
  | S fuel =>
      let curlen := q_nextlen q in
      e ← aget tree (n + 1);
      let nextlen := Len e in
      let count := q_count q + 1 in
      if (count <? q_max q) && (curlen =? nextlen) then
        send_loop fuel (n + 1) tree bl_tree (Runs (q_prevlen q) nextlen count (q_max q) (q_min q)) w
      else
        w ←
          (if count <? q_min q then send_copies (Z.to_nat count) w curlen bl_tree
           else if nz curlen then
             '(w, count) ← (if negb (curlen =? q_prevlen q) then w ← send_code w curlen bl_tree; Some (w, count - 1)
                            else Some (w, count));
             w ← send_code w REP_3_6 bl_tree;
             send_bits w (count - 3) 2
           else if count <=? 10 then
             w ← send_code w REPZ_3_10 bl_tree;
             send_bits w (count - 3) 3
           else
             w ← send_code w REPZ_11_138 bl_tree;
             send_bits w (count - 11) 7);
        send_loop fuel (n + 1) tree bl_tree (runs_next curlen nextlen) w
  end.

Definition send_tree (tree : list ct_data) (max_code : Z) (bl_tree : list ct_data) (w : writer) : option writer :=
  e ← aget tree 0;
  send_loop (Z.to_nat (max_code + 1)) 0 tree bl_tree (runs_init (Len e)) w.

(** [for (max_blindex = BL_CODES-1; max_blindex >= 3; max_blindex--)] *)
Fixpoint last_bl (fuel : nat) (bl_tree : list ct_data) (max_blindex : Z) : option Z :=
  match fuel with
  | O => None
  | S fuel =>
      if max_blindex >=? 3 then
        o ← aget bl_order max_blindex;
        e ← aget bl_tree o;
        if negb (Len e =? 0) then Some max_blindex else last_bl fuel bl_tree (max_blindex - 1)
      else Some max_blindex
  end.

Definition build_bl_tree (s : trees_state) : option (trees_state * Z) :=
  '(ltree, bl_tree) ← scan_tree (t_ltree s) (t_lmax s) (t_bltree s);
  '(dtree, bl_tree) ← scan_tree (t_dtree s) (t_dmax s) bl_tree;
  s ← build_tree (s <| t_ltree := ltree |> <| t_dtree := dtree |> <| t_bltree := bl_tree |>) bl_desc;
  max_blindex ← last_bl 17 (t_bltree s) (BL_CODES - 1);
  Some (s <| t_opt_len := u32 (t_opt_len s + 3 * (max_blindex + 1) + 5 + 5 + 4) |>, max_blindex).

(** [for (rank = 0; rank < blcodes; rank++)] *)
Fixpoint send_bl_lens (fuel : nat) (rank : Z) (bl_tree : list ct_data) (w : writer) : option writer :=
  match fuel with
  | O => Some w
  | S fuel =>
      o ← aget bl_order rank;
      e ← aget bl_tree o;
      w ← send_bits w (Len e) 3;
      send_bl_lens fuel (rank + 1) bl_tree w
  end.

Definition send_all_trees (s : trees_state) (lcodes dcodes blcodes : Z) : option trees_state :=
  w ← send_bits (t_w s) (lcodes - 257) 5;
  w ← send_bits w (dcodes - 1) 5;
  w ← send_bits w (blcodes - 4) 4;
  w ← send_bl_lens (Z.to_nat blcodes) 0 (t_bltree s) w;
  w ← send_tree (t_ltree s) (lcodes - 1) (t_bltree s) w;
  w ← send_tree (t_dtree s) (dcodes - 1) (t_bltree s) w;
  Some (s <| t_w := w |>).

(** ** Blocks *)
Fixpoint zero_freqs (fuel : nat) (n : Z) (tree : list ct_data) : option (list ct_data) :=
  match fuel with
  | O => Some tree
  | S fuel => tree ← set_fc tree n 0; zero_freqs fuel (n + 1) tree
  end.

Definition init_block (s : trees_state) : option trees_state :=
  ltree ← zero_freqs (Z.to_nat L_CODES) 0 (t_ltree s);
  dtree ← zero_freqs (Z.to_nat D_CODES) 0 (t_dtree s);
  bltree ← zero_freqs (Z.to_nat BL_CODES) 0 (t_bltree s);
  ltree ← set_fc ltree END_BLOCK 1;
  Some (s <| t_ltree := ltree |> <| t_dtree := dtree |> <| t_bltree := bltree |>
          <| t_opt_len := 0 |> <| t_static_len := 0 |> <| t_last_lit := 0 |> <| t_matches := 0 |>).

(** The tree descriptors are fixed in the model. *)
Definition tr_init (s : trees_state) : option trees_state :=
  init_block (s <| t_w := (t_w s) <| w_bi_buf := 0 |> <| w_bi_valid := 0 |> |>).

Definition tr_stored_block (s : trees_state) (buf : list Z) (stored_len last : Z) : option trees_state :=
  w ← send_bits (t_w s) (STORED_BLOCK * 2 + last) 3;
  w ← copy_block w buf stored_len true;
  Some (s <| t_w := w |>).

Definition tr_flush_bits (s : trees_state) : option trees_state :=
  w ← bi_flush (t_w s);
  Some (s <| t_w := w |>).

Definition tr_align (s : trees_state) : option trees_state :=
  w ← send_bits (t_w s) (STATIC_TREES * 2) 3;
  w ← send_code w END_BLOCK static_ltree;
  w ← bi_flush w;
  Some (s <| t_w := w |>).

(** [d_buf[lx]] and [l_buf[lx]] in the overlay *)
Definition d_buf_get (buf : list Z) (lit_bufsize lx : Z) : option Z :=
  lo ← aget buf (lit_bufsize + 2 * lx);
  hi ← aget buf (lit_bufsize + 2 * lx + 1);
  Some (lo + 256 * hi).
Definition d_buf_set (buf : list Z) (lit_bufsize lx v : Z) : option (list Z) :=
  buf ← aset buf (lit_bufsize + 2 * lx) (v mod 256);
  aset buf (lit_bufsize + 2 * lx + 1) (v / 256).
Definition l_buf_get (buf : list Z) (lit_bufsize lx : Z) : option Z := aget buf (3 * lit_bufsize + lx).
Definition l_buf_set (buf : list Z) (lit_bufsize lx v : Z) : option (list Z) := aset buf (3 * lit_bufsize + lx) v.

Definition d_code (dist : Z) : option Z :=
  if dist <? 256 then aget dist_code dist else aget dist_code (256 + dist ≫ 7).

(** [_tr_tally] without [TRUNCATE_BLOCK]; the second component is whether the block must be flushed. *)
Definition tr_tally (s : trees_state) (dist lc : Z) : option (trees_state * bool) :=
  buf ← d_buf_set (w_buf (t_w s)) (t_lit_bufsize s) (t_last_lit s) (u16 dist);
  buf ← l_buf_set buf (t_lit_bufsize s) (t_last_lit s) (u8 lc);
  let s := s <| t_w ::= upd w_buf (fun _ => buf) |> <| t_last_lit := u32 (t_last_lit s + 1) |> in
  s ← (if dist =? 0 then
         ltree ← add_freq (t_ltree s) lc 1;
         Some (s <| t_ltree := ltree |>)
       else
         code ← aget length_code lc;
         ltree ← add_freq (t_ltree s) (code + LITERALS + 1) 1;
         dc ← d_code (dist - 1);
         dtree ← add_freq (t_dtree s) dc 1;
         Some (s <| t_matches := u32 (t_matches s + 1) |> <| t_ltree := ltree |> <| t_dtree := dtree |>));
  Some (s, t_last_lit s =? t_lit_bufsize s - 1).

(** The inline versions of [deflate.h], which do not count [matches]. *)
Definition tr_tally_lit (s : trees_state) (c : Z) : option (trees_state * bool) :=
  let cc := u8 c in
  buf ← d_buf_set (w_buf (t_w s)) (t_lit_bufsize s) (t_last_lit s) 0;
  buf ← l_buf_set buf (t_lit_bufsize s) (t_last_lit s) cc;
  ltree ← add_freq (t_ltree s) cc 1;
  let s := s <| t_w ::= upd w_buf (fun _ => buf) |> <| t_last_lit := u32 (t_last_lit s + 1) |> <| t_ltree := ltree |> in
  Some (s, t_last_lit s =? t_lit_bufsize s - 1).
Definition tr_tally_dist (s : trees_state) (distance length : Z) : option (trees_state * bool) :=
  let len := u8 length in
  let dist := u16 distance in
  buf ← d_buf_set (w_buf (t_w s)) (t_lit_bufsize s) (t_last_lit s) dist;
  buf ← l_buf_set buf (t_lit_bufsize s) (t_last_lit s) len;
  let dist := u16 (dist - 1) in
  code ← aget length_code len;
  ltree ← add_freq (t_ltree s) (code + LITERALS + 1) 1;
  dc ← d_code dist;
  dtree ← add_freq (t_dtree s) dc 1;
  let s := s <| t_w ::= upd w_buf (fun _ => buf) |> <| t_last_lit := u32 (t_last_lit s + 1) |>
             <| t_ltree := ltree |> <| t_dtree := dtree |> in
  Some (s, t_last_lit s =? t_lit_bufsize s - 1).

(** One iteration of the loop of [compress_block]. *)
Definition compress_sym (ltree dtree : list ct_data) (w : writer) (dist lc : Z) : option writer :=
  if dist =? 0 then send_code w lc ltree
  else
    code ← aget length_code lc;
    w ← send_code w (code + LITERALS + 1) ltree;
    extra ← aget extra_lbits code;
    w ← (if negb (extra =? 0) then base ← aget base_length code; send_bits w (lc - base) extra else Some w);
    let dist := dist - 1 in
    code ← d_code dist;
    w ← send_code w code dtree;
    extra ← aget extra_dbits code;
    if negb (extra =? 0) then base ← aget base_dist code; send_bits w (dist - base) extra else Some w.

(** [do { ... } while (lx < s->last_lit);] *)
Fixpoint compress_loop (fuel : nat) (lit_bufsize last_lit : Z) (ltree dtree : list ct_data) (lx : Z) (w : writer) : option writer :=
  match fuel with
  | O => None
  | S fuel =>
      dist ← d_buf_get (w_buf w) lit_bufsize lx;
      lc ← l_buf_get (w_buf w) lit_bufsize lx;
      w ← compress_sym ltree dtree w dist lc;
      if lx + 1 <? last_lit then compress_loop fuel lit_bufsize last_lit ltree dtree (lx + 1) w else Some w
  end.

Definition compress_block (s : trees_state) (ltree dtree : list ct_data) : option trees_state :=
  w ← (if negb (t_last_lit s =? 0)
       then compress_loop (Z.to_nat (t_last_lit s)) (t_lit_bufsize s) (t_last_lit s) ltree dtree 0 (t_w s)
       else Some (t_w s));
  w ← send_code w END_BLOCK ltree;
  Some (s <| t_w := w |>).

(** Whether one of the entries [n], [n+1], ... with a bit set in the mask has a frequency. *)
Fixpoint any_freq (fuel : nat) (tree : list ct_data) (n mask : Z) : option bool :=
  match fuel with
  | O => Some false
  | S fuel =>
      e ← aget tree n;
      if nz (mask .& 1) && nz (Freq e) then Some true else any_freq fuel tree (n + 1) (mask ≫ 1)
  end.

(** The second loop has no mask: all its bits are set. *)
Definition detect_data_type (tree : list ct_data) : option Z :=
  black ← any_freq 32 tree 0 0xf3ffc07f;
  if (black : bool) then Some Z_BINARY
  else
    e9 ← aget tree 9;
    e10 ← aget tree 10;
    e13 ← aget tree 13;
    if nz (Freq e9) || nz (Freq e10) || nz (Freq e13) then Some Z_TEXT
    else
      white ← any_freq 224 tree 32 (-1);
      Some (if (white : bool) then Z_TEXT else Z_BINARY).

(** The two encodings of [_tr_flush_block] that use Huffman codes. *)
Definition huffman_block (s : trees_state) (max_blindex opt_lenb static_lenb last : Z) : option trees_state :=
  if (t_strategy s =? Z_FIXED) || (static_lenb =? opt_lenb) then
    w ← send_bits (t_w s) (STATIC_TREES * 2 + last) 3;
    compress_block (s <| t_w := w |>) static_ltree static_dtree
  else
    w ← send_bits (t_w s) (DYN_TREES * 2 + last) 3;
    s ← send_all_trees (s <| t_w := w |>) (t_lmax s + 1) (t_dmax s + 1) (max_blindex + 1);
    compress_block s (t_ltree s) (t_dtree s).

(** [buf] is [None] for NULL. *)
Definition tr_flush_block (s : trees_state) (buf : option (list Z)) (stored_len last : Z) : option trees_state :=
  '(s, max_blindex, opt_lenb, static_lenb) ←
    (if t_level s >? 0 then
       s ← (if t_data_type s =? Z_UNKNOWN then
              t ← detect_data_type (t_ltree s);
              Some (s <| t_data_type := t |>)
            else Some s);
       s ← build_tree s l_desc;
       s ← build_tree s d_desc;
       '(s, max_blindex) ← build_bl_tree s;
       let opt_lenb := u32 (t_opt_len s + 3 + 7) ≫ 3 in
       let static_lenb := u32 (t_static_len s + 3 + 7) ≫ 3 in
       Some (s, max_blindex, if static_lenb <=? opt_lenb then static_lenb else opt_lenb, static_lenb)
     else Some (s, 0, u32 (stored_len + 5), u32 (stored_len + 5)));
  s ← (if bool_decide (buf <> None) && (u32 (stored_len + 4) <=? opt_lenb)
       then tr_stored_block s (default [] buf) stored_len last
       else huffman_block s max_blindex opt_lenb static_lenb last);
  s ← init_block s;
  if nz last then
    w ← bi_windup (t_w s);
    Some (s <| t_w := w |>)
  else Some s.

(** ** Generation of the static tables *)

(** [for (n = 0; n < (1<<extra); n++) codes[i++] = code;] *)
Fixpoint fill_code (n : nat) (codes : list Z) (i code : Z) : option (list Z) :=
  match n with
  | O => Some codes
  | S n => codes ← aset codes i (u8 code); fill_code n codes (i + 1) code
  end.

(** [for (code = ...; code < last; code++)]: the bases, scaled by [2^shift], and the codes from the index [off]; the
    result ends with the next index *)
Fixpoint code_ranges (n : nat) (extra : list Z) (shift off code i : Z) (bases codes : list Z) : option (list Z * list Z * Z) :=
  match n with
  | O => Some (bases, codes, i)
  | S n =>
      bases ← aset bases code (i ≪ shift);
      e ← aget extra code;
      codes ← fill_code (Z.to_nat (1 ≪ (e - shift))) codes (off + i) code;
      code_ranges n extra shift off (code + 1) (i + 1 ≪ (e - shift)) bases codes
  end.

Definition static_lengths : option (list Z * list Z) :=
  '(base_length, length_code, length) ←
    code_ranges 28 extra_lbits 0 0 0 0 (replicate 29 0) (replicate 256 0);
  length_code ← aset length_code (length - 1) 28;
  Some (base_length, length_code).

Definition static_dists : option (list Z * list Z) :=
  '(base_dist, dist_code, dist) ← code_ranges 16 extra_dbits 0 0 0 0 (replicate 30 0) (replicate 512 0);
  '(base_dist, dist_code, _) ← code_ranges 14 extra_dbits 7 256 16 (dist ≫ 7) base_dist dist_code;
  Some (base_dist, dist_code).

(** [while (n <= last) static_ltree[n++].Len = len, bl_count[len]++;] *)
Fixpoint static_len_loop (k : nat) (n len : Z) (tree : list ct_data) (count : list Z) : option (list ct_data * list Z) :=
  match k with
  | O => Some (tree, count)
  | S k =>
      tree ← set_dl tree n len;
      count ← add_count count len 1;
      static_len_loop k (n + 1) len tree count
  end.

Fixpoint static_dtree_loop (k : nat) (n : Z) (tree : list ct_data) : option (list ct_data) :=
  match k with
  | O => Some tree
  | S k =>
      tree ← aset tree n (CtData (u16 (bi_reverse n 5)) 5);
      static_dtree_loop k (n + 1) tree
  end.

(** [tr_static_init] of the builds that generate the tables, in arrays that are zero at first: [static_ltree],
    [static_dtree], [_dist_code], [_length_code], [base_length] and [base_dist]. *)
Definition tr_static_init : option (list ct_data * list ct_data * list Z * list Z * list Z * list Z) :=
  '(base_length, length_code) ← static_lengths;
  '(base_dist, dist_code) ← static_dists;
  '(ltree, count) ← static_len_loop 144 0 8 (replicate 288 (CtData 0 0)) (replicate 16 0);
  '(ltree, count) ← static_len_loop 112 144 9 ltree count;
  '(ltree, count) ← static_len_loop 24 256 7 ltree count;
  '(ltree, count) ← static_len_loop 8 280 8 ltree count;
  ltree ← gen_codes ltree (L_CODES + 1) count;
  dtree ← static_dtree_loop 30 0 (replicate 30 (CtData 0 0));
  Some (ltree, dtree, dist_code, length_code, base_length, base_dist).

Example static_tables_ok :
  tr_static_init = Some (static_ltree, static_dtree, dist_code, length_code, base_length, base_dist).
Proof. vm_compute. reflexivity. Qed.
