(* ===== verification/BitWriter.v ===== *)
(** The bit buffer of [trees.c] as a stream of bits: the pending bytes and [bi_buf] are one number, first bit lowest,
    to which every output operation appends. *)
From S2P Require Import Prelude Record Bits TreesTables Trees.

(** ** Strings of bits: a value and its number of bits *)
Definition bitstr := (Z * Z)%type.
Definition bcat (a b : bitstr) : bitstr := (a.1 + 2 ^ a.2 * b.1, a.2 + b.2).
Notation "a ·· b" := (bcat a b) (at level 40, left associativity).
Definition bnil : bitstr := (0, 0).
Definition bits_ok (b : bitstr) : Prop := 0 <= b.2 /\ 0 <= b.1 < 2 ^ b.2.

Lemma bcat_nil_l a : bnil ·· a = a.
Proof. destruct a as [v n]. unfold bcat, bnil. cbn [fst snd]. f_equal. lia. Qed.
Lemma bcat_nil_r a : a ·· bnil = a.
Proof. destruct a as [v n]. unfold bcat, bnil. cbn [fst snd]. f_equal; lia. Qed.
Lemma bcat_assoc a b c : bits_ok a -> bits_ok b -> a ·· b ·· c = a ·· (b ·· c).
Proof.
  intros [Ha _] [Hb _]. unfold bcat. cbn [fst snd]. rewrite Z.pow_add_r by done. f_equal; ring.
Qed.
Lemma bits_ok_nil : bits_ok bnil.
Proof. split; cbn; lia. Qed.
Lemma bits_ok_cat a b : bits_ok a -> bits_ok b -> bits_ok (a ·· b).
Proof.
  intros [Ha Hva] [Hb Hvb]. unfold bits_ok, bcat. cbn [fst snd]. split; [lia|]. rewrite Z.pow_add_r by done. nia.
Qed.

(** The stream [a], then the bits of [rest]: what a decoder sees after [a] was written. *)
Definition then_rest (a : bitstr) (rest : Z) : Z := a.1 + 2 ^ a.2 * rest.

Lemma then_rest_cat a b rest : bits_ok a -> bits_ok b -> then_rest (a ·· b) rest = then_rest a (then_rest b rest).
Proof. intros [Ha _] [Hb _]. unfold then_rest, bcat. cbn [fst snd]. rewrite Z.pow_add_r by done. ring. Qed.
Lemma then_rest_div a rest : bits_ok a -> then_rest a rest / 2 ^ a.2 = rest.
Proof.
  intros [Ha Hv]. unfold then_rest. rewrite Z.mul_comm, Z.div_add by (apply Z.pow_nonzero; lia).
  rewrite Z.div_small by done. lia.
Qed.
Lemma then_rest_mod a rest : bits_ok a -> then_rest a rest mod 2 ^ a.2 = a.1.
Proof.
  intros [Ha Hv]. unfold then_rest. rewrite Z.mul_comm, Z.mod_add by (apply Z.pow_nonzero; lia). by apply Z.mod_small.
Qed.

(** ** The writer *)
Definition wbytes (w : writer) : list Z := take (Z.to_nat (w_pending w)) (w_buf w).
Definition wbits (w : writer) : bitstr := (le (wbytes w) + 2 ^ (8 * w_pending w) * w_bi_buf w, 8 * w_pending w + w_bi_valid w).

Record writer_ok (w : writer) : Prop := {
  wk_pending : 0 <= w_pending w <= Z.of_nat (length (w_buf w));
  wk_size : Z.of_nat (length (w_buf w)) < 2 ^ 32;
  wk_valid : 0 <= w_bi_valid w <= 16;
  wk_buf : 0 <= w_bi_buf w < 2 ^ w_bi_valid w;
  wk_bytes : Forall byte_ok (wbytes w) }.

(** [w'] is [w] with the bits [b] appended; the bytes beyond those written are unchanged. *)
Record emits (w : writer) (b : bitstr) (w' : writer) : Prop := {
  em_ok : writer_ok w';
  em_bits : wbits w' = wbits w ·· b;
  em_length : length (w_buf w') = length (w_buf w);
  em_frame : forall i, (wbits w').2 <= 8 * i -> aget (w_buf w') i = aget (w_buf w) i }.

Lemma length_wbytes w : writer_ok w -> Z.of_nat (length (wbytes w)) = w_pending w.
Proof. intros [H _ _ _ _]. unfold wbytes. rewrite length_take. lia. Qed.

Lemma wbits_ok w : writer_ok w -> bits_ok (wbits w).
Proof.
  intros H. assert (Hl := length_wbytes w H). destruct H as [Hp Hs Hv Hb Hy]. unfold bits_ok, wbits. cbn [fst snd].
  assert (Hr := le_range _ Hy). rewrite Hl in Hr. split; [lia|]. rewrite Z.pow_add_r by lia. nia.
Qed.

Lemma emits_refl w : writer_ok w -> emits w bnil w.
Proof. intros H. split; try done. by rewrite bcat_nil_r. Qed.

Lemma emits_trans w a w1 b w2 : writer_ok w -> bits_ok a -> bits_ok b -> emits w a w1 -> emits w1 b w2 -> emits w (a ·· b) w2.
Proof.
  intros Hw Ha Hb [Hk1 E1 L1 F1] [Hk2 E2 L2 F2]. split; [done| |lia|].
  - rewrite E2, E1. by apply bcat_assoc; [apply wbits_ok|].
  - intros i Hi. rewrite F2 by done. apply F1. rewrite E2 in Hi. cbn in Hi. destruct Hb as [Hb _]. cbn. lia.
Qed.

(** ** Bytes *)
Lemma put_byte_eq w c :
  0 <= w_pending w < Z.of_nat (length (w_buf w)) -> Z.of_nat (length (w_buf w)) < 2 ^ 32 ->
  put_byte w c = Some (Writer (<[Z.to_nat (w_pending w) := u8 c]> (w_buf w)) (w_pending w + 1) (w_bi_buf w) (w_bi_valid w)).
Proof.
  intros Hp Hs. unfold put_byte. rewrite aset_in by done. cbn [mbind option_bind].
  destruct w as [buf p bb bv]. cbn in *. by rewrite u32_small by lia.
Qed.

Lemma wbytes_snoc buf p c bb bv :
  0 <= p < Z.of_nat (length buf) ->
  wbytes (Writer (<[Z.to_nat p := c]> buf) (p + 1) bb bv) = take (Z.to_nat p) buf ++ [c].
Proof.
  intros Hp. unfold wbytes. cbn [w_pending w_buf]. replace (Z.to_nat (p + 1)) with (S (Z.to_nat p)) by lia.
  rewrite (take_S_r _ _ c) by (apply list_lookup_insert_eq; lia). by rewrite take_insert_ge by lia.
Qed.

(** A byte of [bi_buf] moved to the pending bytes. *)
Definition moves (w w' : writer) : Prop :=
  length (w_buf w') = length (w_buf w) /\
  le (wbytes w') = le (wbytes w) + 2 ^ (8 * w_pending w) * (w_bi_buf w mod 2 ^ (8 * (w_pending w' - w_pending w))) /\
  Forall byte_ok (wbytes w') /\ w_pending w <= w_pending w' <= Z.of_nat (length (w_buf w)) /\
  (forall i, w_pending w' <= i -> aget (w_buf w') i = aget (w_buf w) i) /\
  w_bi_buf w' = w_bi_buf w /\ w_bi_valid w' = w_bi_valid w.

Lemma put_byte_moves w :
  0 <= w_pending w < Z.of_nat (length (w_buf w)) -> Z.of_nat (length (w_buf w)) < 2 ^ 32 -> Forall byte_ok (wbytes w) ->
  exists w', put_byte w (w_bi_buf w) = Some w' /\ moves w w' /\ w_pending w' = w_pending w + 1.
Proof.
  intros Hp Hs Hb. rewrite put_byte_eq by done. eexists. split; [done|]. split; [|done].
  unfold moves. rewrite wbytes_snoc by done. cbn. rewrite le_snoc, length_take, length_insert.
  split; [done|]. split; [|split; [|split; [lia|split; [|done]]]].
  - unfold wbytes, u8. replace (w_pending w + 1 - w_pending w) with 1 by lia. do 3 f_equal. lia.
  - apply Forall_app. split; [done|]. apply Forall_singleton. unfold byte_ok. pose proof (u8_range (w_bi_buf w)). lia.
  - intros i Hi. rewrite aget_insert by done. destruct (Z.eqb_spec i (w_pending w)); [lia|done].
Qed.

Lemma put_short_moves w :
  0 <= w_pending w -> w_pending w + 2 <= Z.of_nat (length (w_buf w)) -> Z.of_nat (length (w_buf w)) < 2 ^ 32 ->
  Forall byte_ok (wbytes w) -> 0 <= w_bi_buf w < 2 ^ 16 ->
  exists w', put_short w (w_bi_buf w) = Some w' /\ moves w w' /\ w_pending w' = w_pending w + 2.
Proof.
  intros Hp Hl Hs Hb Hv. unfold put_short. rewrite put_byte_eq by lia. cbn [mbind option_bind].
  rewrite put_byte_eq by (cbn; rewrite length_insert; lia). eexists. split; [done|]. cbn.
  split; [|lia]. unfold moves. rewrite wbytes_snoc by (rewrite length_insert; lia). cbn. rewrite !length_insert.
  assert (E := wbytes_snoc (w_buf w) (w_pending w) (u8 (w_bi_buf w .& 255)) 0 0 ltac:(lia)). unfold wbytes in E. cbn in E.
  rewrite E. clear E.
  split; [done|]. split; [|split; [|split; [lia|split; [|done]]]].
  - rewrite !le_snoc, length_app, length_take. cbn [length]. unfold wbytes.
    replace (8 * (w_pending w + 1 + 1 - w_pending w)) with 16 by lia.
    replace (Z.of_nat (Z.to_nat (w_pending w) `min` length (w_buf w) + 1)) with (w_pending w + 1) by lia.
    replace (Z.of_nat (Z.to_nat (w_pending w) `min` length (w_buf w))) with (w_pending w) by lia.
    replace (8 * (w_pending w + 1)) with (8 * w_pending w + 8) by lia. rewrite Z.pow_add_r by lia.
    unfold u8, u16. rewrite land_0xff, Z.shiftr_div_pow2 by lia. rewrite (Z.mod_small _ (2 ^ 16)) by lia.
    assert (w_bi_buf w / 2 ^ 8 < 2 ^ 8) by (apply Z.div_lt_upper_bound; lia).
    rewrite Z.mod_mod by lia. rewrite (Z.mod_small (_ / _)) by (split; [apply Z.div_pos; lia|lia]).
    pose proof (Z.div_mod (w_bi_buf w) (2 ^ 8) ltac:(lia)). nia.
  - rewrite !Forall_app, !Forall_singleton. unfold byte_ok. pose proof (u8_range (w_bi_buf w .& 255)).
    pose proof (u8_range (u16 (w_bi_buf w) ≫ 8)). repeat split; (done || lia).
  - intros i Hi. rewrite aget_insert by (rewrite length_insert; lia). destruct (Z.eqb_spec i (w_pending w + 1)); [lia|].
    rewrite aget_insert by lia. destruct (Z.eqb_spec i (w_pending w)); [lia|done].
Qed.

(** ** Sending bits *)
Lemma shl_int_ok x n k : 0 <= n <= 16 -> 0 <= k <= 15 -> 0 <= x < 2 ^ k -> shl_int x n = Some (x * 2 ^ n).
Proof.
  intros Hn Hk Hx. assert (x * 2 ^ n < 2 ^ 31).
  { assert (2 ^ k <= 2 ^ 15) by (apply Z.pow_le_mono_r; lia). assert (2 ^ n <= 2 ^ 16) by (apply Z.pow_le_mono_r; lia).
    assert (0 < 2 ^ n) by (apply pow2_pos; lia). nia. }
  unfold shl_int. rewrite Z.shiftl_mul_pow2 by lia.
  destruct (Z.leb_spec 0 n), (Z.ltb_spec n 32), (Z.ltb_spec (x * 2 ^ n) (2 ^ 31)); cbn [andb]; (done || lia).
Qed.

(** The bits of [v] beyond the first [n] of [a + v * 2 ^ bv]. *)
Lemma div_shift a v bv : 0 <= bv <= 16 -> 0 <= a < 2 ^ bv -> (a + v * 2 ^ bv) / 2 ^ 16 = v / 2 ^ (16 - bv).
Proof.
  intros Hbv Ha. replace (2 ^ 16) with (2 ^ bv * 2 ^ (16 - bv)) by (rewrite <- Z.pow_add_r by lia; f_equal; lia).
  assert (0 < 2 ^ bv) by lia. assert (0 < 2 ^ (16 - bv)) by (apply pow2_pos; lia).
  rewrite <- Z.div_div by lia. rewrite Z.div_add by lia. by rewrite (Z.div_small a) by lia.
Qed.

Lemma send_bits_ok w v len :
  writer_ok w -> 0 <= len <= 15 -> 0 <= v < 2 ^ len -> (wbits w).2 + len <= 8 * Z.of_nat (length (w_buf w)) ->
  exists w', send_bits w v len = Some w' /\ emits w (v, len) w'.
Proof.
  intros [Hp Hs Hv Hb Hy] Hl Hx Hr. cbn [wbits snd] in Hr. unfold send_bits.
  assert (H15 : 2 ^ len <= 2 ^ 15) by (apply Z.pow_le_mono_r; lia).
  rewrite u16_small, (shl_int_ok v _ len) by lia. cbn [mbind option_bind].
  set (full := w_bi_buf w + v * 2 ^ w_bi_valid w).
  assert (Ef : w_bi_buf w .| (v * 2 ^ w_bi_valid w) = full).
  { rewrite <- (Z.shiftl_mul_pow2 v) by lia. by rewrite lor_shiftl_add by lia. }
  assert (Hf : 0 <= full < 2 ^ (w_bi_valid w + len)) by (unfold full; rewrite Z.pow_add_r by lia; nia).
  rewrite Ef. unfold Buf_size. rewrite Z.gtb_ltb. destruct (Z.ltb_spec (16 - len) (w_bi_valid w)) as [Hc|Hc].
  - set (w0 := w <| w_bi_buf := u16 full |>).
    destruct (put_short_moves w0) as (w1 & E1 & (M1 & M2 & M3 & M4 & M5 & M6 & M7) & M8).
    1-5: cbn; try (done || lia). 1: apply u16_range.
    change (w_bi_buf w0) with (u16 full) in E1. rewrite E1. cbn [mbind option_bind]. cbn in M1, M2, M3, M4, M5, M6, M7, M8. rewrite M7. unfold shr_int. destruct (Z.leb_spec 0 (16 - w_bi_valid w)), (Z.ltb_spec (16 - w_bi_valid w) 32); try lia.
    cbn [andb mbind option_bind]. eexists. split; [done|].
    rewrite Z.shiftr_div_pow2 by lia. rewrite <- (div_shift (w_bi_buf w) v) by lia. fold full.
    assert (Hd : 0 <= full / 2 ^ 16 < 2 ^ (w_bi_valid w + (len - 16))).
    { split; [apply Z.div_pos; lia|]. apply Z.div_lt_upper_bound; [lia|]. rewrite <- Z.pow_add_r by lia. replace (16 + _) with (w_bi_valid w + len) by lia. lia. }
    assert (2 ^ (w_bi_valid w + (len - 16)) <= 2 ^ 16) by (apply Z.pow_le_mono_r; lia).
    rewrite (u16_small (full / 2 ^ 16)) by lia.
    split; cbn.
    + split; cbn; try (done || lia).
    + unfold wbits, bcat. cbn. unfold wbytes in *. cbn in *. f_equal; [|lia]. rewrite M2, M8.
      replace (8 * (w_pending w + 2 - w_pending w)) with 16 by lia. replace (8 * (w_pending w + 2)) with (8 * w_pending w + 16) by lia.
      rewrite !Z.pow_add_r by lia. unfold u16. rewrite Z.mod_mod by lia.
      pose proof (Z.div_mod full (2 ^ 16) ltac:(lia)). unfold full in *. nia.
    + done.
    + intros i Hi. apply M5. lia.
  - eexists. split; [done|]. assert (2 ^ (w_bi_valid w + len) <= 2 ^ 16) by (apply Z.pow_le_mono_r; lia).
    rewrite u16_small by lia. split; cbn; try done.
    + split; cbn; try (done || lia).
    + unfold wbits, bcat. cbn. f_equal; [|lia]. unfold wbytes, full. cbn. rewrite Z.pow_add_r by lia. nia.
Qed.

Lemma send_code_ok w c tree v len :
  writer_ok w -> aget tree c = Some (CtData v len) -> 0 <= len <= 15 -> 0 <= v < 2 ^ len ->
  (wbits w).2 + len <= 8 * Z.of_nat (length (w_buf w)) ->
  exists w', send_code w c tree = Some w' /\ emits w (v, len) w'.
Proof. intros Hw Ht Hl Hv Hr. unfold send_code. rewrite Ht. by apply send_bits_ok. Qed.

(** ** Aligning *)

(** The number of bits up to the next byte boundary. *)
Definition pad (n : Z) : Z := (- n) mod 8.

Lemma pad_spec p v : 0 <= v <= 16 -> pad (8 * p + v) = if v =? 0 then 0 else if v <=? 8 then 8 - v else 16 - v.
Proof.
  intros Hv. unfold pad. replace (- (8 * p + v)) with (- v + (- p) * 8) by lia. rewrite Z.mod_add by lia.
  destruct (Z.eqb_spec v 0) as [->|]; [done|]. destruct (Z.leb_spec v 8).
  - rewrite <- (Z.mod_add _ 1), Z.mul_1_l by lia. destruct (Z.eq_dec v 8) as [->|]; [done|]. rewrite Z.mod_small; lia.
  - rewrite <- (Z.mod_add _ 2) by lia. destruct (Z.eq_dec v 16) as [->|]; [done|]. rewrite Z.mod_small; lia.
Qed.

(** Bits that [moves] to the pending bytes keep the stream. *)
Lemma moves_emits w w' bb bv n :
  writer_ok w -> moves w w' -> w_pending w' = w_pending w + n -> 0 <= n -> 0 <= bv <= 16 -> 0 <= bb < 2 ^ bv ->
  w_bi_valid w <= 8 * n + bv -> w_bi_buf w = w_bi_buf w mod 2 ^ (8 * n) + 2 ^ (8 * n) * bb ->
  emits w (0, 8 * n + bv - w_bi_valid w) (w' <| w_bi_buf := bb |> <| w_bi_valid := bv |>).
Proof.
  intros Hw (M1 & M2 & M3 & M4 & M5 & M6 & M7) En Hn Hbv Hbb Hv Eb. destruct Hw as [Hp Hs _ _ Hy]. split; cbn; try done.
  - split; cbn; try (done || lia).
  - unfold wbits, bcat. cbn. f_equal; [|lia]. unfold wbytes in *. cbn. rewrite M2, En.
    replace (w_pending w + n - w_pending w) with n by lia. replace (8 * (w_pending w + n)) with (8 * w_pending w + 8 * n) by lia.
    rewrite (Z.pow_add_r 2 (8 * w_pending w) (8 * n)) by lia. rewrite Eb at 2. ring.
  - intros i Hi. apply M5. lia.
Qed.

Lemma bi_flush_ok w :
  writer_ok w -> (wbits w).2 <= 8 * Z.of_nat (length (w_buf w)) ->
  exists w', bi_flush w = Some w' /\ emits w bnil w' /\ w_bi_valid w' < 8.
Proof.
  intros Hw Hr. assert (H := Hw). destruct H as [Hp Hs Hv Hb Hy]. cbn in Hr. unfold bi_flush.
  destruct (Z.eqb_spec (w_bi_valid w) 16) as [E|Hne].
  - destruct (put_short_moves w) as (w1 & -> & M & En); [lia..|done| |].
    { rewrite E in Hb. lia. }
    eexists. split; [done|]. split; [|cbn; lia].
    assert (Em := moves_emits w w1 0 0 2 Hw M En ltac:(lia) ltac:(lia) ltac:(lia) ltac:(lia)).
    rewrite E in Em, Hb. apply Em. rewrite Z.mod_small by lia. lia.
  - rewrite Z.geb_leb. destruct (Z.leb_spec 8 (w_bi_valid w)).
    + destruct (put_byte_moves w) as (w1 & E1 & M & En); [lia..|done|]. rewrite E1. cbn [mbind option_bind].
      assert (E' : w_bi_buf w1 = w_bi_buf w /\ w_bi_valid w1 = w_bi_valid w) by apply M. destruct E' as [-> ->].
      eexists. split; [done|]. split; [|cbn; lia]. rewrite Z.shiftr_div_pow2 by lia.
      assert (Hd : 0 <= w_bi_buf w / 2 ^ 8 < 2 ^ (w_bi_valid w - 8)).
      { split; [apply Z.div_pos; lia|]. apply Z.div_lt_upper_bound; [lia|]. rewrite <- Z.pow_add_r by lia.
        replace (8 + (w_bi_valid w - 8)) with (w_bi_valid w) by lia. lia. }
      assert (Em := moves_emits w w1 (w_bi_buf w / 2 ^ 8) (w_bi_valid w - 8) 1 Hw M En ltac:(lia) ltac:(lia) Hd ltac:(lia)).
      replace (8 * 1 + (w_bi_valid w - 8) - w_bi_valid w) with 0 in Em by lia. apply Em. change (8 * 1) with 8.
      pose proof (Z.div_mod (w_bi_buf w) (2 ^ 8) ltac:(lia)). lia.
    + exists w. split; [done|]. split; [by apply emits_refl|lia].
Qed.

Lemma bi_windup_ok w :
  writer_ok w -> (wbits w).2 + pad (wbits w).2 <= 8 * Z.of_nat (length (w_buf w)) ->
  exists w', bi_windup w = Some w' /\ emits w (0, pad (wbits w).2) w' /\ w_bi_valid w' = 0.
Proof.
  intros Hw Hr. assert (H := Hw). destruct H as [Hp Hs Hv Hb Hy]. cbn [wbits snd] in Hr |- *. rewrite pad_spec in Hr |- * by done.
  unfold bi_windup. rewrite !Z.gtb_ltb.
  destruct (Z.eqb_spec (w_bi_valid w) 0) as [E|Hne].
  - destruct (Z.ltb_spec 8 (w_bi_valid w)), (Z.ltb_spec 0 (w_bi_valid w)); try lia. cbn [mbind option_bind]. eexists. split; [done|].
    rewrite E in Hb. cbn in Hb. split; [|done]. destruct w as [buf p bb bv]. cbn in *. replace bb with 0 in * by lia. subst bv.
    by apply emits_refl.
  - destruct (Z.leb_spec (w_bi_valid w) 8), (Z.ltb_spec 8 (w_bi_valid w)); try lia.
    + destruct (Z.ltb_spec 0 (w_bi_valid w)); [|lia].
      destruct (put_byte_moves w) as (w1 & -> & M & En); [lia..|done|]. eexists. split; [done|]. split; [|done].
      assert (2 ^ w_bi_valid w <= 2 ^ 8) by (apply Z.pow_le_mono_r; lia).
      assert (Em := moves_emits w w1 0 0 1 Hw M En ltac:(lia) ltac:(lia) ltac:(lia) ltac:(lia)).
      replace (8 * 1 + 0 - w_bi_valid w) with (8 - w_bi_valid w) in Em by lia. apply Em. rewrite Z.mod_small by lia. lia.
    + assert (2 ^ w_bi_valid w <= 2 ^ 16) by (apply Z.pow_le_mono_r; lia).
      destruct (put_short_moves w) as (w1 & -> & M & En); [lia..|done|lia|]. eexists. split; [done|]. split; [|done].
      assert (Em := moves_emits w w1 0 0 2 Hw M En ltac:(lia) ltac:(lia) ltac:(lia) ltac:(lia)).
      replace (8 * 2 + 0 - w_bi_valid w) with (16 - w_bi_valid w) in Em by lia. apply Em. rewrite Z.mod_small by lia. lia.
Qed.

(** ** Bytes at a byte boundary *)
Lemma put_byte_ok w c :
  writer_ok w -> w_bi_valid w = 0 -> w_pending w < Z.of_nat (length (w_buf w)) -> byte_ok c ->
  exists w', put_byte w c = Some w' /\ emits w (c, 8) w' /\ w_bi_valid w' = 0.
Proof.
  intros Hw Hv Hr Hc. assert (Hl := length_wbytes w Hw). destruct Hw as [Hp Hs _ Hb Hy]. rewrite put_byte_eq by lia. eexists.
  split; [done|]. unfold byte_ok in Hc. rewrite u8_small by lia. rewrite Hv in Hb. cbn in Hb. split; [|done].
  assert (Ew := wbytes_snoc (w_buf w) (w_pending w) c (w_bi_buf w) (w_bi_valid w) ltac:(lia)). fold (wbytes w) in Ew.
  split; cbn.
  - split; cbn; try (rewrite ?length_insert; lia). rewrite Ew. apply Forall_app. split; [done|]. by apply Forall_singleton.
  - unfold wbits, bcat. cbn. f_equal; [|lia]. rewrite Ew, le_snoc, Hl. replace (w_bi_buf w) with 0 by lia. rewrite Hv, Z.add_0_r. ring.
  - by rewrite length_insert.
  - intros i Hi. rewrite aget_insert by lia. destruct (Z.eqb_spec i (w_pending w)); [lia|done].
Qed.

(** Two appended strings of bits, the second written from where the first ended. *)
Lemma emits_then w a w1 b (P : writer -> Prop) (m : option writer) :
  writer_ok w -> bits_ok a -> bits_ok b -> emits w a w1 ->
  (exists w2, m = Some w2 /\ emits w1 b w2 /\ P w2) -> exists w2, m = Some w2 /\ emits w (a ·· b) w2 /\ P w2.
Proof. intros Hw Ha Hb E1 (w2 & -> & E2 & H). exists w2. split; [done|]. split; [by apply (emits_trans w a w1 b)|done]. Qed.

(** The bits sent so far, when they are counted from the end. *)
Lemma emits_room w a w1 n :
  emits w a w1 -> (wbits w).2 + a.2 + n <= 8 * Z.of_nat (length (w_buf w)) -> (wbits w1).2 + n <= 8 * Z.of_nat (length (w_buf w1)).
Proof. intros [_ E L _] H. rewrite E, L. cbn in *. lia. Qed.

Lemma put_short_ok w v :
  writer_ok w -> w_bi_valid w = 0 -> w_pending w + 2 <= Z.of_nat (length (w_buf w)) -> 0 <= v < 2 ^ 16 ->
  exists w', put_short w v = Some w' /\ emits w (v, 16) w' /\ w_bi_valid w' = 0.
Proof.
  intros Hw Hb Hr Hv. unfold put_short. rewrite land_0xff, u16_small, Z.shiftr_div_pow2 by lia.
  assert (H1 : byte_ok (v mod 2 ^ 8)) by (apply Z.mod_pos_bound; lia).
  assert (H2 : byte_ok (v / 2 ^ 8)) by (split; [apply Z.div_pos; lia|apply Z.div_lt_upper_bound; lia]).
  destruct (put_byte_ok w (v mod 2 ^ 8) Hw Hb ltac:(lia) H1) as (w1 & -> & E1 & V1). cbn [mbind option_bind].
  replace (v, 16) with ((v mod 2 ^ 8, 8) ·· (v / 2 ^ 8, 8)).
  2:{ unfold bcat. cbn [fst snd]. f_equal. pose proof (Z.div_mod v (2 ^ 8) ltac:(lia)). lia. }
  eapply emits_then; [done|split; cbn; unfold byte_ok in *; lia..|done|].
  apply put_byte_ok; [apply E1|done| |done].
  pose proof (emits_room w _ w1 8 E1) as Hroom. destruct E1 as [_ E L _]. rewrite L. unfold wbits, bcat in *. cbn in *. injection E. lia.
Qed.

Lemma put_bytes_ok n : forall w buf i,
  writer_ok w -> w_bi_valid w = 0 -> 8 * w_pending w + 8 * Z.of_nat n <= 8 * Z.of_nat (length (w_buf w)) ->
  0 <= i -> i + Z.of_nat n <= Z.of_nat (length buf) -> Forall byte_ok buf ->
  exists w', put_bytes n w buf i = Some w' /\ emits w (le (bytes_at buf i (Z.of_nat n)), 8 * Z.of_nat n) w' /\ w_bi_valid w' = 0.
Proof.
  induction n as [|n IH]; intros w buf i Hw Hv Hr Hi Hl Hb; cbn [put_bytes].
  - exists w. split; [done|]. split; [|done]. by apply emits_refl.
  - destruct (aget_in buf i ltac:(lia)) as [b Eb]. rewrite Eb. cbn [mbind option_bind].
    assert (Hbb : byte_ok b).
    { unfold aget in Eb. destruct (Z.leb_spec 0 i); [|done]. by apply (Forall_lookup_1 _ _ _ _ Hb Eb). }
    destruct (put_byte_ok w b Hw Hv ltac:(lia) Hbb) as (w1 & -> & E1 & V1). cbn [mbind option_bind].
    assert (Hrest : Forall byte_ok (bytes_at buf (i + 1) (Z.of_nat n))) by (by apply Forall_take, Forall_drop).
    assert (Hlen : Z.of_nat (length (bytes_at buf (i + 1) (Z.of_nat n))) <= Z.of_nat n) by (unfold bytes_at; rewrite length_take; lia).
    replace (le (bytes_at buf i (Z.of_nat (S n))), 8 * Z.of_nat (S n)) with ((b, 8) ·· (le (bytes_at buf (i + 1) (Z.of_nat n)), 8 * Z.of_nat n)).
    2:{ rewrite (bytes_at_cons buf i (Z.of_nat (S n)) b) by (done || lia). unfold bcat. cbn [fst snd le].
        replace (Z.of_nat (S n) - 1) with (Z.of_nat n) by lia. f_equal; lia. }
    eapply emits_then; [done|split; cbn; unfold byte_ok in *; lia| |done|].
    { split; cbn [fst snd]; [lia|]. pose proof (le_range _ Hrest). split; [lia|].
      eapply Z.lt_le_trans; [apply le_range, Hrest|]. apply Z.pow_le_mono_r; lia. }
    apply IH; try (done || lia); [apply E1|]. destruct E1 as [_ E L _]. rewrite L.
    unfold wbits, bcat in E. cbn in E. injection E. lia.
Qed.

(** A stored block after its header: padding, the length twice, the bytes. *)
Definition stored_bits (at_ : Z) (buf : list Z) (len : Z) : bitstr :=
  (0, pad at_) ·· (len, 16) ·· (2 ^ 16 - 1 - len, 16) ·· (le (bytes_at buf 0 len), 8 * len).

Lemma pad_range n : 0 <= pad n < 8.
Proof. apply Z.mod_pos_bound. lia. Qed.
Lemma bits_ok_pad n : bits_ok (0, pad n).
Proof. pose proof (pad_range n). split; cbn; [lia|]. split; [lia|apply pow2_pos; lia]. Qed.

Lemma copy_block_ok w buf len :
  writer_ok w -> 0 <= len < 2 ^ 16 -> len <= Z.of_nat (length buf) -> Forall byte_ok buf ->
  (wbits w).2 + pad (wbits w).2 + 32 + 8 * len <= 8 * Z.of_nat (length (w_buf w)) ->
  exists w', copy_block w buf len true = Some w' /\ emits w (stored_bits (wbits w).2 buf len) w' /\ w_bi_valid w' = 0.
Proof.
  intros Hw Hl Hlen Hb Hr. unfold copy_block.
  destruct (bi_windup_ok w Hw ltac:(lia)) as (w1 & -> & E1 & V1). cbn [mbind option_bind].
  assert (Hpad := bits_ok_pad (wbits w).2). assert (Hk1 := em_ok _ _ _ E1).
  assert (P1 : 8 * w_pending w1 = (wbits w).2 + pad (wbits w).2).
  { pose proof (f_equal snd (em_bits _ _ _ E1)) as E. cbn [wbits bcat snd] in E. cbn [wbits snd]. lia. }
  assert (L1 := em_length _ _ _ E1).
  rewrite (u16_small len) by lia.
  assert (En : u16 (Z.lnot len) = 2 ^ 16 - 1 - len).
  { unfold u16. replace (Z.lnot len) with (- len - 1) by (unfold Z.lnot; lia).
    rewrite <- (Z.mod_add _ 1) by lia. rewrite Z.mod_small; lia. }
  rewrite En.
  destruct (put_short_ok w1 len Hk1 V1 ltac:(lia) ltac:(lia)) as (w2 & -> & E2 & V2). cbn [mbind option_bind].
  assert (Hk2 := em_ok _ _ _ E2). assert (L2 := em_length _ _ _ E2).
  assert (P2 : w_pending w2 = w_pending w1 + 2).
  { pose proof (f_equal snd (em_bits _ _ _ E2)) as E. cbn [wbits bcat snd] in E. lia. }
  destruct (put_short_ok w2 (2 ^ 16 - 1 - len) Hk2 V2 ltac:(lia) ltac:(lia)) as (w3 & -> & E3 & V3). cbn [mbind option_bind].
  assert (Hk3 := em_ok _ _ _ E3). assert (L3 := em_length _ _ _ E3).
  assert (P3 : w_pending w3 = w_pending w2 + 2).
  { pose proof (f_equal snd (em_bits _ _ _ E3)) as E. cbn [wbits bcat snd] in E. lia. }
  assert (B2 : bits_ok (len, 16)) by (split; cbn; lia). assert (B3 : bits_ok (2 ^ 16 - 1 - len, 16)) by (split; cbn [fst snd]; lia).
  unfold stored_bits. eapply emits_then.
  - done.
  - apply bits_ok_cat; [by apply bits_ok_cat|done].
  - split; cbn [fst snd]; [lia|]. assert (Hy : Forall byte_ok (bytes_at buf 0 len)) by (by apply Forall_take, Forall_drop).
    pose proof (le_range _ Hy). split; [lia|]. eapply Z.lt_le_trans; [apply le_range, Hy|]. apply Z.pow_le_mono_r; [lia|].
    unfold bytes_at. rewrite length_take. lia.
  - eapply emits_trans; [done|by apply bits_ok_cat|done| |done]. by eapply emits_trans.
  - pose proof (put_bytes_ok (Z.to_nat len) w3 buf 0 Hk3 V3) as H. rewrite Z2Nat.id in H by lia. apply H; (done || lia).
Qed.

(** ** Output operations *)

(** [m] appends the bits [b], given room for them. *)
Definition sends (m : writer -> option writer) (b : bitstr) : Prop :=
  bits_ok b /\ forall w, writer_ok w -> (wbits w).2 + b.2 <= 8 * Z.of_nat (length (w_buf w)) -> exists w', m w = Some w' /\ emits w b w'.

Lemma sends_ret : sends Some bnil.
Proof. split; [apply bits_ok_nil|]. intros w Hw _. exists w. split; [done|by apply emits_refl]. Qed.

Lemma sends_bind m k a b : sends m a -> sends k b -> sends (fun w => m w ≫= k) (a ·· b).
Proof.
  intros [Ha Hm] [Hb Hk]. split; [by apply bits_ok_cat|]. intros w Hw Hr. cbn [bcat snd] in Hr.
  destruct (Hm w Hw) as (w1 & -> & E1); [destruct Hb; lia|]. cbn [mbind option_bind].
  destruct (Hk w1 (em_ok _ _ _ E1)) as (w2 & -> & E2); [apply (emits_room w a w1 b.2 E1); lia|].
  exists w2. split; [done|]. by apply (emits_trans w a w1 b w2).
Qed.

Lemma sends_bits v len : 0 <= len <= 15 -> 0 <= v < 2 ^ len -> sends (fun w => send_bits w v len) (v, len).
Proof. intros Hl Hv. split; [split; cbn; lia|]. intros w Hw Hr. by apply send_bits_ok. Qed.

(** The bits of a code; none for an index out of range. *)
Definition code_bits (tree : list ct_data) (c : Z) : bitstr :=
  match aget tree c with Some e => (fc e, dl e) | None => bnil end.

Lemma sends_code tree c v len :
  aget tree c = Some (CtData v len) -> 0 <= len <= 15 -> 0 <= v < 2 ^ len -> sends (fun w => send_code w c tree) (code_bits tree c).
Proof.
  intros Ht Hl Hv. unfold code_bits. rewrite Ht. split; [split; cbn; lia|]. intros w Hw Hr. cbn in *. by apply (send_code_ok w c tree).
Qed.
