(* ===== verification/TreesCodes.v ===== *)
(** [gen_codes()] assigns the canonical Huffman code of the lengths: what it writes for a symbol is decoded, whatever
    follows, as that symbol. *)
From S2P Require Import Prelude Bits Huffman TreesTables Trees.

(** ** Reversal *)
Lemma bi_reverse_loop_rev n : forall c r,
  0 <= c -> 0 <= r -> Z.even r = true -> (r + 2) * 2 ^ Z.of_nat n <= 2 ^ 32 ->
  bi_reverse_loop n c r = r * 2 ^ Z.of_nat n + 2 * rev n c.
Proof.
  induction n as [|n IH]; intros c r Hc Hr He Hb; cbn [bi_reverse_loop rev]; [lia|].
  rewrite Nat2Z.inj_succ, Z.pow_succ_r in * by lia. assert (0 < 2 ^ Z.of_nat n) by (apply pow2_pos; lia).
  assert (Hm : 0 <= c mod 2 < 2) by (apply Z.mod_pos_bound; lia).
  assert (E : r .| (c .& 1) = r + c mod 2).
  { change (c .& 1) with (c .& (2 ^ 1 - 1)). rewrite land_mask by lia. change (2 ^ 1) with 2. apply Z.even_spec in He as [q ->].
    rewrite Z.lor_comm. replace (2 * q) with (q ≪ 1) by (rewrite Z.shiftl_mul_pow2; lia). rewrite lor_shiftl_add by lia.
    rewrite Z.shiftl_mul_pow2; lia. }
  rewrite E, Z.shiftl_mul_pow2, Z.shiftr_div_pow2 by lia. change (2 ^ 1) with 2. rewrite u32_small by nia.
  rewrite IH; [lia|apply Z.div_pos; lia|lia| |nia]. rewrite Z.even_mul. apply orb_true_r.
Qed.

Lemma bi_reverse_rev c len : 0 <= c -> 1 <= len <= 31 -> bi_reverse c len = rev (Z.to_nat len) c.
Proof.
  intros Hc Hl. unfold bi_reverse. replace (Nat.max 1 (Z.to_nat len)) with (Z.to_nat len) by lia.
  assert (2 ^ len <= 2 ^ 31) by (apply Z.pow_le_mono_r; lia).
  rewrite bi_reverse_loop_rev by (try done; rewrite ?Z2Nat.id by lia; lia).
  rewrite Z.shiftr_div_pow2 by lia. change (2 ^ 1) with 2. rewrite Z.mul_0_l, Z.add_0_l, Z.mul_comm. by rewrite Z.div_mul by lia.
Qed.

(** ** The positions of the codes *)

(** The position of the first symbol of length [l]. *)
Definition start_pos (l : Z) (lens : list Z) : Z := foldr (fun l' acc => cnt l' lens * weight l' + acc) 0 (seqZ 1 (l - 1)).

Lemma start_pos_1 lens : start_pos 1 lens = 0.
Proof. done. Qed.
Lemma start_pos_succ l lens : 1 <= l -> start_pos (l + 1) lens = start_pos l lens + cnt l lens * weight l.
Proof.
  intros Hl. unfold start_pos. replace (l + 1 - 1) with ((l - 1) + 1) by lia.
  rewrite seqZ_app by lia. rewrite foldr_app. replace (1 + (l - 1)) with l by lia.
  replace (seqZ l 1) with [l] by (rewrite seqZ_cons by lia; done). cbn [foldr].
  induction (seqZ 1 (l - 1)) as [|x xs IH]; cbn [foldr]; lia.
Qed.

Lemma start_pos_mono a l lens : 1 <= a <= l -> l <= 16 -> start_pos a lens <= start_pos l lens.
Proof.
  intros H Hl. enough (forall d : nat, a + Z.of_nat d <= 16 -> start_pos a lens <= start_pos (a + Z.of_nat d) lens) as Hd.
  { replace l with (a + Z.of_nat (Z.to_nat (l - a))) by lia. apply Hd. lia. }
  induction d as [|d IH]; intros Hd; [rewrite Z.add_0_r; lia|]. replace (a + Z.of_nat (S d)) with (a + Z.of_nat d + 1) by lia.
  rewrite start_pos_succ by lia. pose proof (cnt_nonneg (a + Z.of_nat d) lens). pose proof (weight_pos (a + Z.of_nat d) ltac:(lia)).
  assert (0 <= cnt (a + Z.of_nat d) lens * weight (a + Z.of_nat d)) by (apply Z.mul_nonneg_nonneg; lia). lia.
Qed.

Lemma start_pos_kraft lens : start_pos 16 lens = kraft (canon lens).
Proof.
  enough (forall n a, 1 <= a -> kraft (canon_from a n lens) = start_pos (a + Z.of_nat n) lens - start_pos a lens) as H.
  { unfold canon. rewrite H by lia. change (1 + Z.of_nat 15) with 16. rewrite start_pos_1. lia. }
  induction n as [|n IH]; intros a Ha; [rewrite Z.add_0_r; change (kraft (canon_from a 0 lens)) with 0; lia|].
  rewrite kraft_canon_S, IH by lia. replace (a + Z.of_nat (S n)) with (a + 1 + Z.of_nat n) by lia.
  rewrite (start_pos_succ a) by lia. lia.
Qed.

Lemma start_pos_le lens l : 1 <= l <= 16 -> start_pos l lens <= kraft (canon lens).
Proof. intros Hl. rewrite <- start_pos_kraft. apply start_pos_mono; lia. Qed.

(** The position of the [m]-th symbol of length [l]. *)
Lemma pos_canon_from a n lens l m s :
  1 <= a -> a <= l < a + Z.of_nat n -> syms_of l 0 lens !! m = Some s ->
  pos (canon_from a n lens) (Z.to_nat (start l lens - start a lens) + m) =
  start_pos l lens - start_pos a lens + Z.of_nat m * weight l.
Proof.
  revert a. induction n as [|n IH]; intros a Ha Hl Hm; [lia|]. unfold pos. rewrite canon_from_S.
  destruct (Z.eq_dec l a) as [->|Hne].
  - rewrite !Z.sub_diag. cbn [Z.to_nat Nat.add]. rewrite take_app_le by (apply lookup_lt_Some in Hm; rewrite length_fmap; lia).
    rewrite <- fmap_take, kraft_fmap, length_take. apply lookup_lt_Some in Hm. rewrite Nat.min_l by lia. lia.
  - assert (Hs : start (a + 1) lens = start a lens + cnt a lens) by (apply start_succ; lia).
    assert (Hge : start (a + 1) lens <= start l lens) by (apply start_mono; lia).
    rewrite take_app_ge by (rewrite length_fmap; unfold cnt in Hs; lia).
    rewrite kraft_app, kraft_fmap, length_fmap. fold (cnt a lens). rewrite <- (Z.add_comm (kraft _)).
    replace (Z.to_nat (start l lens - start a lens) + m - length (syms_of a 0 lens))%nat
      with (Z.to_nat (start l lens - start (a + 1) lens) + m)%nat by (unfold cnt in Hs; lia).
    pose proof (IH (a + 1) ltac:(lia) ltac:(lia) Hm) as IHa. unfold pos in IHa. rewrite IHa, start_pos_succ by lia. lia.
Qed.

(** The code word of a symbol is decoded as that symbol. *)
Lemma code_decodes lens l m s c h :
  1 <= l <= 15 -> kraft (canon lens) <= 2 ^ 15 -> syms_of l 0 lens !! m = Some s ->
  c * weight l = start_pos l lens + Z.of_nat m * weight l ->
  0 <= c < 2 ^ l /\ 0 <= rev (Z.to_nat l) c < 2 ^ l /\
  (h mod 2 ^ l = rev (Z.to_nat l) c -> huff_decode lens (h mod 2 ^ 15) = Some (s, l)).
Proof.
  intros Hl Hk Hm Ec. assert (Hc := canon_lookup lens l m s Hl Hm). set (k := (Z.to_nat (start l lens) + m)%nat) in *.
  assert (Hp : pos (canon lens) k = c * weight l).
  { rewrite Ec. pose proof (pos_canon_from 1 15 lens l m s ltac:(lia) ltac:(lia) Hm) as H.
    rewrite start_1, start_pos_1, !Z.sub_0_r in H. exact H. }
  assert (Hok := canon_lens_ok lens). assert (Hw := weight_pos l ltac:(lia)).
  assert (Hp1 := pos_S _ _ _ _ Hc). assert (H0 : 0 <= pos (canon lens) k) by (rewrite <- (pos_0 (canon lens)); apply pos_mono; [done|lia]).
  assert (H1 := pos_le_kraft (canon lens) (S k) Hok).
  assert (Hww : weight l * 2 ^ l = 2 ^ 15) by (unfold weight; rewrite <- Z.pow_add_r by lia; f_equal; lia).
  assert (Hr : rev (Z.to_nat l) c = rev 15 (c * weight l)).
  { unfold weight. replace (15 - l) with (Z.of_nat (15 - Z.to_nat l)) by lia. symmetry. apply rev_scale. lia. }
  assert (Hcl : 0 <= c < 2 ^ l) by nia. split; [done|]. split.
  { pose proof (rev_range (Z.to_nat l) c) as H. rewrite Z2Nat.id in H by lia. done. }
  intros Hh. rewrite Hr, <- Hp in Hh. unfold huff_decode. eapply find_sym_pos; [done..|]. rewrite Hp1.
  apply rev15_interval; [done|apply Z.mod_pos_bound; lia|lia|rewrite Hp; by exists c|].
  rewrite Z.mod_mod_divide.
  - rewrite Hh. symmetry. apply Z.mod_small. apply rev15_short; [lia|lia|]. rewrite Hp. by exists c.
  - exists (2 ^ (15 - l)). rewrite <- Z.pow_add_r by lia. f_equal. lia.
Qed.

(** ** [gen_codes] *)

(** The counts of the lengths, as [gen_bitlen] leaves them. *)
Definition counts_for (count lens : list Z) : Prop :=
  aget count 0 = Some 0 /\ forall l, 1 <= l <= 15 -> aget count l = Some (cnt l lens).

(** The next code of every length, after the first [n] symbols. *)
Definition nexts_for (next lens : list Z) (n : nat) : Prop :=
  length next = 16%nat /\
  forall l, 1 <= l <= 15 -> exists c, aget next l = Some c /\ c * weight l = start_pos l lens + cnt l (take n lens) * weight l.

(** The entries of a tree have the given lengths, and codes that are decoded as their symbols. *)
Definition has_lens (tree : list ct_data) (lens : list Z) : Prop := forall s l, aget lens s = Some l -> exists v, aget tree s = Some (CtData v l).
Definition code_for (tree : list ct_data) (lens : list Z) (s l : Z) : Prop :=
  exists v, aget tree s = Some (CtData v l) /\ 0 <= v < 2 ^ l /\ forall h, h mod 2 ^ l = v -> huff_decode lens (h mod 2 ^ 15) = Some (s, l).
Definition codes_for (tree : list ct_data) (lens : list Z) : Prop :=
  forall s l, aget lens s = Some l -> l <> 0 -> code_for tree lens s l.

Lemma weight_half l : 1 <= l <= 15 -> weight (l - 1) = 2 * weight l.
Proof. intros Hl. unfold weight. replace (15 - (l - 1)) with (Z.succ (15 - l)) by lia. by rewrite Z.pow_succ_r by lia. Qed.

Lemma next_codes_ok lens count :
  kraft (canon lens) <= 2 ^ 15 -> counts_for count lens ->
  forall n bits code next, 1 <= bits -> bits + Z.of_nat n = 16 -> length next = 16%nat ->
    (bits <= 15 -> exists c, aget count (bits - 1) = Some c /\ 0 <= code + c /\ (code + c) * 2 * weight bits = start_pos bits lens) ->
    (forall l, 1 <= l < bits -> exists c, aget next l = Some c /\ c * weight l = start_pos l lens) ->
    exists next', next_codes n bits code count next = Some next' /\ nexts_for next' lens 0.
Proof.
  intros Hk [_ Hcnt]. induction n as [|n IH]; intros bits code next Hb Hn Hl Hc Hnext; cbn [next_codes].
  - exists next. split; [done|]. split; [done|]. intros l Hl'. destruct (Hnext l ltac:(lia)) as (c' & -> & E). exists c'.
    split; [done|]. rewrite E. change (cnt l (take 0 lens)) with 0. lia.
  - destruct (Hc ltac:(lia)) as (c & -> & H0 & Eq). cbn [mbind option_bind]. rewrite Z.shiftl_mul_pow2 by lia. change (2 ^ 1) with 2.
    assert (Hw := weight_pos bits ltac:(lia)). assert (Hle := start_pos_le lens bits ltac:(lia)).
    rewrite u16_small by nia. set (code' := (code + c) * 2) in *.
    rewrite aset_in by lia. cbn [mbind option_bind]. apply IH; [lia..|by rewrite length_insert| |].
    + intros Hb'. replace (bits + 1 - 1) with bits by lia. exists (cnt bits lens). split; [apply Hcnt; lia|].
      pose proof (cnt_nonneg bits lens). split; [unfold code'; lia|]. rewrite start_pos_succ, <- Eq by lia.
      pose proof (weight_half (bits + 1) ltac:(lia)) as E. replace (bits + 1 - 1) with bits in E by lia. rewrite E. ring.
    + intros l Hl'. rewrite aget_insert by lia. destruct (Z.eqb_spec l bits) as [->|]; [by exists code'|]. apply Hnext. lia.
Qed.

Lemma syms_of_at lens n l : aget lens (Z.of_nat n) = Some l -> syms_of l 0 lens !! Z.to_nat (cnt l (take n lens)) = Some (Z.of_nat n).
Proof.
  rewrite aget_nat. intros H. replace (syms_of l 0 lens) with (syms_of l 0 (take n lens ++ l :: drop (S n) lens)) by (f_equal; by apply take_drop_middle).
  rewrite syms_of_app. unfold cnt. rewrite Nat2Z.id.
  rewrite lookup_app_r, Nat.sub_diag by lia. cbn [syms_of]. rewrite Z.eqb_refl. cbn. f_equal.
  apply lookup_lt_Some in H. rewrite length_take. lia.
Qed.

Lemma cnt_take_S lens n x l : lens !! n = Some x -> cnt l (take (S n) lens) = cnt l (take n lens) + (if x =? l then 1 else 0).
Proof. intros H. rewrite (take_S_r _ _ _ H), cnt_app, cnt_cons. change (cnt l []) with 0. lia. Qed.

Lemma aget_set_fc tree n v e :
  aget tree n = Some e -> set_fc tree n v = Some (<[Z.to_nat n := CtData (u16 v) (dl e)]> tree) /\
  forall i, aget (<[Z.to_nat n := CtData (u16 v) (dl e)]> tree) i = if i =? n then Some (CtData (u16 v) (dl e)) else aget tree i.
Proof.
  intros H. assert (Hn := aget_Some _ _ _ H). unfold set_fc. rewrite H. cbn [mbind option_bind].
  split; [by apply aset_in|]. intros i. by apply aget_insert.
Qed.

(** What [gen_codes] keeps: everything but the codes. *)
Definition same_lens (tree tree' : list ct_data) : Prop :=
  length tree' = length tree /\ forall i, dl <$> aget tree' i = dl <$> aget tree i.

Lemma codes_loop_ok lens :
  kraft (canon lens) <= 2 ^ 15 -> Forall (fun l => 0 <= l <= 15) lens ->
  forall fuel n tree next, (n + fuel = length lens)%nat -> has_lens tree lens -> nexts_for next lens n ->
    (forall s l, s < Z.of_nat n -> aget lens s = Some l -> l <> 0 -> code_for tree lens s l) ->
    exists tree', codes_loop fuel (Z.of_nat n) tree next = Some tree' /\ same_lens tree tree' /\ codes_for tree' lens /\
      forall i, Z.of_nat (length lens) <= i -> aget tree' i = aget tree i.
Proof.
  intros Hk Hls. induction fuel as [|fuel IH]; intros n tree next Hn Ht Hnx Hdone; cbn [codes_loop].
  - exists tree. split; [done|]. split; [done|]. split; [|done]. intros s l Hs. apply Hdone; [|done]. apply aget_Some in Hs. lia.
  - destruct (lookup_lt_is_Some_2 lens n ltac:(lia)) as [l Hl]. assert (Hl' : aget lens (Z.of_nat n) = Some l) by by rewrite aget_nat.
    destruct (Ht _ _ Hl') as [v Hv]. rewrite Hv. cbn [mbind option_bind dl].
    assert (Hlr := Forall_lookup_1 _ _ _ _ Hls Hl). cbn in Hlr.
    replace (Z.of_nat n + 1) with (Z.of_nat (S n)) by lia. destruct (Z.eqb_spec l 0) as [->|Hne].
    + apply IH; [lia|done| |].
      * destruct Hnx as [H1 H2]. split; [done|]. intros l' Hl2. destruct (H2 l' Hl2) as (c & Hc & E). exists c. split; [done|].
        rewrite E, (cnt_take_S _ _ _ _ Hl). destruct (Z.eqb_spec 0 l'); lia.
      * intros s l Hs Hsl Hl0. apply Hdone; [|done..]. destruct (Z.eq_dec s (Z.of_nat n)) as [->|]; [congruence|lia].
    + destruct Hnx as [Hnl Hnx]. destruct (Hnx l ltac:(lia)) as (c & -> & Ec). cbn [mbind option_bind].
      assert (Hcn := cnt_nonneg l (take n lens)).
      pose proof (fun h => code_decodes lens l (Z.to_nat (cnt l (take n lens))) (Z.of_nat n) c h ltac:(lia) Hk (syms_of_at _ _ _ Hl')) as Hcd.
      rewrite Z2Nat.id in Hcd by done. specialize (fun h => Hcd h Ec). destruct (Hcd 0) as (Hc & Hr & _).
      assert (2 ^ l <= 2 ^ 15) by (apply Z.pow_le_mono_r; lia).
      rewrite bi_reverse_rev, u16_small, aset_in by lia. cbn [mbind option_bind].
      destruct (aget_set_fc tree (Z.of_nat n) (rev (Z.to_nat l) c) _ Hv) as [-> Hg]. cbn [mbind option_bind dl] in *.
      rewrite u16_small in * by lia. set (tree1 := <[_ := _]> tree) in *.
      destruct (IH (S n) tree1 (<[Z.to_nat l := c + 1]> next)) as (tree' & E & [L1 L2] & Hcf & Hfr).
      * lia.
      * intros s l' Hs. rewrite Hg. destruct (Z.eqb_spec s (Z.of_nat n)) as [->|]; [|by apply Ht].
        rewrite Hl' in Hs. injection Hs as <-. by eexists.
      * split; [by rewrite length_insert|]. intros l' Hl2. rewrite aget_insert by lia. rewrite (cnt_take_S _ _ _ _ Hl).
        destruct (Z.eqb_spec l' l) as [->|Hne2].
        -- exists (c + 1). split; [done|]. rewrite Z.eqb_refl, Z.mul_add_distr_r, Ec. lia.
        -- destruct (Hnx l' Hl2) as (c' & -> & E). exists c'. split; [done|]. rewrite E. destruct (Z.eqb_spec l l'); lia.
      * intros s l' Hs Hsl Hl0. unfold code_for. rewrite Hg. destruct (Z.eqb_spec s (Z.of_nat n)) as [->|]; [|apply Hdone; (done || lia)].
        rewrite Hl' in Hsl. injection Hsl as <-. exists (rev (Z.to_nat l) c). split; [done|]. split; [done|].
        intros h. apply Hcd.
      * exists tree'. split; [done|]. split; [|split; [done|]].
        -- split; [rewrite L1; apply length_insert|]. intros i. rewrite L2, Hg. destruct (Z.eqb_spec i (Z.of_nat n)) as [->|]; [by rewrite Hv|done].
        -- intros i Hi. rewrite Hfr, Hg by done. destruct (Z.eqb_spec i (Z.of_nat n)); [lia|done].
Qed.

Lemma gen_codes_ok tree lens count :
  kraft (canon lens) <= 2 ^ 15 -> Forall (fun l => 0 <= l <= 15) lens -> has_lens tree lens -> counts_for count lens ->
  exists tree', gen_codes tree (Z.of_nat (length lens) - 1) count = Some tree' /\ same_lens tree tree' /\ codes_for tree' lens /\
    forall i, Z.of_nat (length lens) <= i -> aget tree' i = aget tree i.
Proof.
  intros Hk Hl Ht Hc. unfold gen_codes.
  destruct (next_codes_ok lens count Hk Hc 15 1 0 (replicate 16 0)) as (next & -> & Hn); [lia|done|done| |lia|].
  { intros _. exists 0. split; [apply Hc|]. done. }
  cbn [mbind option_bind]. replace (Z.to_nat (Z.of_nat (length lens) - 1 + 1)) with (length lens) by lia.
  apply (codes_loop_ok lens Hk Hl _ 0); try done. intros s l Hs H%aget_Some. lia.
Qed.
