(* ===== verification/TreesEmit.v ===== *)
(** The data of a block: [compress_block()] writes, for every literal or match that [_tr_tally()] saved, bits that the
    reference decoder [lz_step] reads back as that literal or match. *)
From S2P Require Import Prelude Record Bits Huffman InfTrees InfTreesProof InfDecode Lz.
From S2P Require Import TreesTables Trees BitWriter TreesCodes.

(** ** The symbols of a block: a distance, 0 for a literal, and a literal or a length less 3 *)
Definition sym := (Z * Z)%type.
Definition sym_ok (x : sym) : Prop := 0 <= x.2 < 256 /\ 0 <= x.1 <= 32768.

(** What a symbol means. *)
Definition apply_sym (hist : list Z) (x : sym) : list Z :=
  if x.1 =? 0 then hist ++ [x.2] else lz_copy hist x.1 (Z.to_nat (x.2 + 3)).
Definition sym_fits (hist : list Z) (x : sym) : Prop := x.1 <= Z.of_nat (length hist).

(** A table entry; 0 out of range. *)
Definition odef (o : option Z) : Z := match o with Some z => z | None => 0 end.
Definition lcode (lc : Z) : Z := odef (aget length_code lc).
Definition dcode (dist : Z) : Z := odef (d_code dist).
(** Extra bits, of which there may be none. *)
Definition xbits (v e : Z) : bitstr := if e =? 0 then bnil else (v, e).

(** Its bits. *)
Definition sym_bits (ltree dtree : list ct_data) (x : sym) : bitstr :=
  if x.1 =? 0 then code_bits ltree x.2
  else
    let c := lcode x.2 in
    let d := dcode (x.1 - 1) in
    code_bits ltree (c + LITERALS + 1) ··
    (xbits (x.2 - odef (aget base_length c)) (odef (aget extra_lbits c)) ··
     (code_bits dtree d ··
      xbits (x.1 - 1 - odef (aget base_dist d)) (odef (aget extra_dbits d)))).

(** ** The static tables *)

(** What a code of a type means. *)
Definition sym_class (type : codetype) (s : Z) : option symbol := e ← make_entry type s 0; classify (op e) (val e).

(** The length code of a match length, as the decoder understands it. *)
Definition length_check (lc : Z) : bool :=
  match aget length_code lc with
  | Some c =>
      match aget extra_lbits c, aget base_length c, sym_class LENS (c + LITERALS + 1) with
      | Some e, Some b, Some (Base v e') =>
          (0 <=? c) && (c <? LENGTH_CODES) && (e =? e') && (0 <=? e) && (e <=? 5) &&
          (if e =? 0 then v =? lc + 3 else (b <=? lc) && (lc - b <? 2 ^ e) && (v =? b + 3))
      | _, _, _ => false
      end
  | None => false
  end.
Lemma length_checks : forallb length_check (seqZ 0 256) = true.
Proof. vm_compute. reflexivity. Qed.

(** The same for the distances from [lo] to [hi], which all have the code at index [i]. *)
Definition dist_check (i lo hi : Z) : bool :=
  match aget dist_code i with
  | Some c =>
      match aget extra_dbits c, aget base_dist c, sym_class DISTS c with
      | Some e, Some b, Some (Base v e') =>
          (0 <=? c) && (c <? D_CODES) && (e =? e') && (0 <=? e) && (e <=? 13) &&
          (b <=? lo) && (hi - b <? 2 ^ e) && (v =? b + 1)
      | _, _, _ => false
      end
  | None => false
  end.
Lemma dist_checks :
  forallb (fun d => dist_check d d d) (seqZ 0 256) && forallb (fun q => dist_check (256 + q) (128 * q) (128 * q + 127)) (seqZ 2 254) = true.
Proof. vm_compute. reflexivity. Qed.

Lemma length_facts lc :
  0 <= lc < 256 -> exists c e b v,
    aget length_code lc = Some c /\ 0 <= c < LENGTH_CODES /\ aget extra_lbits c = Some e /\ aget base_length c = Some b /\
    sym_class LENS (c + LITERALS + 1) = Some (Base v e) /\ 0 <= e <= 5 /\ (e <> 0 -> 0 <= lc - b < 2 ^ e) /\
    v + (if e =? 0 then 0 else lc - b) = lc + 3.
Proof.
  intros H. assert (Hc := length_checks). rewrite forallb_forall in Hc. specialize (Hc lc).
  rewrite <- list_elem_of_In, elem_of_seqZ in Hc. specialize (Hc ltac:(lia)). unfold length_check in Hc.
  destruct (aget length_code lc) as [c|]; [|done]. exists c. destruct (aget extra_lbits c) as [e|]; [|done]. exists e.
  destruct (aget base_length c) as [b|]; [|done]. exists b. destruct (sym_class LENS (c + LITERALS + 1)) as [[| |v e'|]|]; try done. exists v.
  destruct (Z.eqb_spec e 0) as [->|].
  - assert (e' = 0) as -> by lia. repeat (split; [done || lia|]). lia.
  - assert (e' = e) as -> by lia. repeat (split; [done || lia|]). lia.
Qed.

Lemma dist_facts d :
  0 <= d < 32768 -> exists c e b v,
    d_code d = Some c /\ 0 <= c < D_CODES /\ aget extra_dbits c = Some e /\ aget base_dist c = Some b /\
    sym_class DISTS c = Some (Base v e) /\ 0 <= e <= 13 /\ 0 <= d - b < 2 ^ e /\ v = b + 1.
Proof.
  intros H. assert (Hc := dist_checks). apply andb_true_iff in Hc as [H1 H2]. rewrite forallb_forall in H1, H2.
  assert (exists i lo hi, d_code d = aget dist_code i /\ lo <= d <= hi /\ dist_check i lo hi = true) as (i & lo & hi & E & Hd & Hc).
  { unfold d_code. destruct (Z.ltb_spec d 256).
    - exists d, d, d. split; [done|]. split; [lia|]. apply H1. apply list_elem_of_In, elem_of_seqZ. lia.
    - assert (Hq : 2 <= d / 128 < 256) by (split; [apply Z.div_le_lower_bound|apply Z.div_lt_upper_bound]; lia).
      exists (256 + d / 128), (128 * (d / 128)), (128 * (d / 128) + 127). rewrite Z.shiftr_div_pow2 by lia. split; [done|].
      split; [pose proof (Z.div_mod d 128 ltac:(lia)); pose proof (Z.mod_pos_bound d 128 ltac:(lia)); lia|].
      apply (H2 (d / 128)). apply list_elem_of_In, elem_of_seqZ. lia. }
  rewrite E. unfold dist_check in Hc.
  destruct (aget dist_code i) as [c|]; [|done]. exists c. destruct (aget extra_dbits c) as [e|]; [|done]. exists e.
  destruct (aget base_dist c) as [b|]; [|done]. exists b. destruct (sym_class DISTS c) as [[| |v e'|]|]; try done. exists v.
  assert (e' = e) as -> by lia. repeat (split; [done || lia|]). lia.
Qed.

(** ** One symbol *)
Definition coded (tree : list ct_data) (lens : list Z) (s : Z) : Prop := exists l, 1 <= l <= 15 /\ code_for tree lens s l.

Lemma coded_sends tree lens s : coded tree lens s -> sends (fun w => send_code w s tree) (code_bits tree s).
Proof. intros (l & Hl & v & Hv & Hr & _). apply (sends_code tree s v l); (done || lia). Qed.

Lemma sends_xbits v e :
  0 <= e <= 15 -> (e <> 0 -> 0 <= v < 2 ^ e) -> sends (fun w => if negb (e =? 0) then send_bits w v e else Some w) (xbits v e).
Proof. intros He Hv. unfold xbits. destruct (Z.eqb_spec e 0); [apply sends_ret|]. apply sends_bits; [lia|auto]. Qed.

Section block.
Context (ltree dtree : list ct_data) (ll dl : list Z).

Definition sym_coded (x : sym) : Prop :=
  if x.1 =? 0 then coded ltree ll x.2
  else coded ltree ll (lcode x.2 + LITERALS + 1) /\ coded dtree dl (dcode (x.1 - 1)).

Lemma compress_sym_sends x :
  sym_ok x -> sym_coded x -> sends (fun w => compress_sym ltree dtree w x.1 x.2) (sym_bits ltree dtree x).
Proof.
  intros [H2 H1] Hc. unfold compress_sym, sym_bits, sym_coded in *. destruct (Z.eqb_spec x.1 0) as [E|Hne]; [by apply coded_sends with ll|].
  destruct (length_facts x.2 H2) as (c & e & b & v & Hlc & Hcr & He & Hb & _ & Her & Hx & _).
  destruct (dist_facts (x.1 - 1) ltac:(lia)) as (c' & e' & b' & v' & Hdc & Hcr' & He' & Hb' & _ & Her' & Hx' & _).
  unfold lcode, dcode in *. rewrite Hlc, Hdc in Hc |- *. cbn [odef mbind option_bind] in Hc |- *. rewrite He, He', Hb, Hb'. cbn [odef mbind option_bind].
  destruct Hc as [Hc Hc']. apply (sends_bind (fun w => send_code w _ ltree)); [by apply coded_sends with ll|].
  apply (sends_bind (fun w => if negb (e =? 0) then _ else _)); [apply sends_xbits; (done || lia)|].
  apply (sends_bind (fun w => send_code w _ dtree)); [by apply coded_sends with dl|].
  apply sends_xbits; (done || lia).
Qed.
End block.

(** ** Decoding *)
Lemma symbol_at_code type tree lens s l sy rest :
  1 <= l <= 15 -> code_for tree lens s l -> sym_class type s = Some sy ->
  symbol_at type lens (then_rest (code_bits tree s) rest) = Some (sy, l) /\ (code_bits tree s).2 = l /\ bits_ok (code_bits tree s).
Proof.
  intros Hl (v & Hv & Hr & Hh) Hs. unfold code_bits. rewrite Hv. assert (Hk : bits_ok (v, l)) by (split; cbn; lia).
  split; [|done]. unfold symbol_at. rewrite Hh by (apply (then_rest_mod (v, l)); done). cbn [decoded mbind option_bind].
  unfold sym_class in Hs. destruct (make_entry type s 0) as [e|] eqn:E; [|done]. cbn [mbind option_bind] in *.
  destruct (make_entry_bits type s 0 l e E) as [-> _]. cbn [mbind option_bind op val]. by rewrite Hs.
Qed.

Lemma bits_ok_xbits v e : 0 <= e -> (e <> 0 -> 0 <= v < 2 ^ e) -> bits_ok (xbits v e).
Proof. intros He Hv. unfold xbits. destruct (Z.eqb_spec e 0); [apply bits_ok_nil|]. split; cbn; auto. Qed.
Lemma xbits_len v e : (xbits v e).2 = e.
Proof. unfold xbits. destruct (Z.eqb_spec e 0); [done|done]. Qed.
Lemma xbits_val v e : (xbits v e).1 = if e =? 0 then 0 else v.
Proof. unfold xbits. by destruct (e =? 0). Qed.

Lemma sym_decodes ltree dtree ll dl x hist rest :
  sym_ok x -> sym_coded ltree dtree ll dl x -> sym_fits hist x ->
  lz_step ll dl (then_rest (sym_bits ltree dtree x) rest) hist = Emit (sym_bits ltree dtree x).2 (apply_sym hist x).
Proof.
  intros [H2 H1] Hc Hf. unfold sym_bits, sym_coded, apply_sym, lz_step, sym_fits in *. destruct (Z.eqb_spec x.1 0) as [E|Hne].
  - destruct Hc as (l & Hl & Hc). assert (Hs : sym_class LENS x.2 = Some (Literal x.2)).
    { unfold sym_class, make_entry. destruct (Z.ltb_spec x.2 (type_end LENS)); [done|cbn in *; lia]. }
    destruct (symbol_at_code LENS ltree ll x.2 l _ rest Hl Hc Hs) as (-> & -> & _). done.
  - destruct (length_facts x.2 H2) as (c & e & b & v & Hlc & Hcr & He & Hb & Hs & Her & Hx & Hv).
    destruct (dist_facts (x.1 - 1) ltac:(lia)) as (c' & e' & b' & v' & Hdc & Hcr' & He' & Hb' & Hs' & Her' & Hx' & Hv').
    unfold lcode, dcode in *. rewrite Hlc, Hdc in Hc |- *. cbn [odef] in Hc |- *. rewrite He, He', Hb, Hb'. cbn [odef].
    destruct Hc as [(l & Hl & Hc) (l' & Hl' & Hc')].
    set (A := code_bits ltree (c + LITERALS + 1)). set (B := xbits (x.2 - b) e). set (C := code_bits dtree c'). set (D := xbits (x.1 - 1 - b') e').
    destruct (symbol_at_code LENS ltree ll _ l _ (then_rest (B ·· (C ·· D)) rest) Hl Hc Hs) as (EA & LA & KA).
    destruct (symbol_at_code DISTS dtree dl _ l' _ (then_rest D rest) Hl' Hc' Hs') as (EC & LC & KC). fold A in EA, LA, KA. fold C in EC, LC, KC.
    assert (KB : bits_ok B) by (apply bits_ok_xbits; (done || lia)). assert (KD : bits_ok D) by (apply bits_ok_xbits; (done || lia)).
    assert (LB : B.2 = e) by apply xbits_len. assert (LD : D.2 = e') by apply xbits_len.
    assert (KCD := bits_ok_cat _ _ KC KD). rewrite !then_rest_cat in * by (done || by apply bits_ok_cat). rewrite EA.
    assert (DA : forall r, then_rest A r / 2 ^ l = r) by (intros r; rewrite <- LA; by apply then_rest_div).
    assert (DB : forall r, then_rest B r / 2 ^ e = r) by (intros r; rewrite <- LB; by apply then_rest_div).
    assert (DC : forall r, then_rest C r / 2 ^ l' = r) by (intros r; rewrite <- LC; by apply then_rest_div).
    assert (MB : forall r, then_rest B r mod 2 ^ e = B.1) by (intros r; rewrite <- LB; by apply then_rest_mod).
    assert (MD : forall r, then_rest D r mod 2 ^ e' = D.1) by (intros r; rewrite <- LD; by apply then_rest_mod).
    assert (Hpl : forall n m s, 0 <= n -> 0 <= m -> s / 2 ^ (n + m) = s / 2 ^ n / 2 ^ m).
    { intros n m s Hn Hm. rewrite Z.pow_add_r by done. rewrite Z.div_div; [done|apply Z.pow_nonzero; lia|apply pow2_pos; lia]. }
    rewrite !Hpl, !DA, !DB, MB, EC by lia. rewrite !Hpl, !DA, !DB, DC, MD by lia.
    unfold B, D. rewrite !xbits_val.
    assert (Ed : v' + (if e' =? 0 then 0 else x.1 - 1 - b') = x.1).
    { destruct (Z.eqb_spec e' 0) as [->|]; [change (2 ^ 0) with 1 in Hx'; lia|lia]. }
    rewrite Ed, Hv. destruct (Z.ltb_spec (Z.of_nat (length hist)) x.1); [lia|]. f_equal. cbn [bcat snd]. fold B D. lia.
Qed.

(** ** The symbols of a block *)
Fixpoint data_bits (ltree dtree : list ct_data) (syms : list sym) : bitstr :=
  match syms with
  | [] => bnil
  | x :: syms => sym_bits ltree dtree x ·· data_bits ltree dtree syms
  end.

(** The bytes that the symbols stand for, after [hist]; and whether every match stays inside of what precedes it. *)
Definition expand (hist : list Z) (syms : list sym) : list Z := fold_left apply_sym syms hist.
Fixpoint all_fit (hist : list Z) (syms : list sym) : Prop :=
  match syms with
  | [] => True
  | x :: syms => sym_fits hist x /\ all_fit (apply_sym hist x) syms
  end.

(** [d_buf] and [l_buf] hold the symbols, from index [lx]. *)
Definition holds (buf : list Z) (lit lx : Z) (syms : list sym) : Prop :=
  forall i x, syms !! i = Some x -> d_buf_get buf lit (lx + Z.of_nat i) = Some x.1 /\ l_buf_get buf lit (lx + Z.of_nat i) = Some x.2.

(** The output does not catch up with the symbols that are still to be read: before each of them, the [n] bits written
    so far end before its place in [d_buf]. *)
Fixpoint overlay_ok (ltree dtree : list ct_data) (n lit lx : Z) (syms : list sym) : Prop :=
  match syms with
  | [] => True
  | x :: syms => n <= 8 * (lit + 2 * lx) /\ overlay_ok ltree dtree (n + (sym_bits ltree dtree x).2) lit (lx + 1) syms
  end.

Section data.
Context (ltree dtree : list ct_data) (ll dl : list Z).
Definition codable (x : sym) : Prop := sym_ok x /\ sym_coded ltree dtree ll dl x.

Lemma sym_bits_ok x : codable x -> bits_ok (sym_bits ltree dtree x).
Proof. intros [H1 H2]. apply (compress_sym_sends ltree dtree ll dl x H1 H2). Qed.
Lemma data_bits_ok syms : Forall codable syms -> bits_ok (data_bits ltree dtree syms).
Proof. induction 1; cbn [data_bits]; [apply bits_ok_nil|]. apply bits_ok_cat; [by apply sym_bits_ok|done]. Qed.

Lemma holds_frame buf buf' lit lx syms :
  0 <= lx -> lx + Z.of_nat (length syms) <= 2 * lit -> (forall i, lit + 2 * lx <= i -> aget buf' i = aget buf i) ->
  holds buf lit lx syms -> holds buf' lit lx syms.
Proof.
  intros Hx Hl Hf H i x Hi. destruct (H i x Hi) as [H1 H2]. apply lookup_lt_Some in Hi.
  unfold d_buf_get, l_buf_get in *. rewrite !Hf by lia. done.
Qed.

Lemma compress_loop_ok lit syms : forall x lx w,
  writer_ok w -> Forall codable (x :: syms) -> holds (w_buf w) lit lx (x :: syms) ->
  0 <= lx -> lx + Z.of_nat (length (x :: syms)) <= 2 * lit -> overlay_ok ltree dtree (wbits w).2 lit lx (x :: syms) ->
  (wbits w).2 + (data_bits ltree dtree (x :: syms)).2 <= 8 * Z.of_nat (length (w_buf w)) ->
  exists w', compress_loop (length (x :: syms)) lit (lx + Z.of_nat (length (x :: syms))) ltree dtree lx w = Some w' /\
    emits w (data_bits ltree dtree (x :: syms)) w'.
Proof.
  induction syms as [|y syms IH]; intros x lx w Hw Hc Hh Hx Hl Ho Hr; cbn [compress_loop length];
    destruct (Hh 0%nat x eq_refl) as [H1 H2]; rewrite Z.add_0_r in H1, H2; rewrite H1, H2; cbn [mbind option_bind];
    apply Forall_cons_iff in Hc as [Hx' Hc]; assert (Hcx := Hx'); destruct Hcx as [Hx1 Hx2];
    destruct (compress_sym_sends ltree dtree ll dl x Hx1 Hx2) as [Hb Hs];
    assert (Hbr := data_bits_ok _ Hc); cbn [data_bits bcat snd] in Hr;
    (destruct (Hs w Hw) as (w1 & E1 & M1); [destruct Hbr; cbn [data_bits bcat snd] in *; lia|]); rewrite E1; cbn [mbind option_bind].
  - destruct (Z.ltb_spec (lx + 1) (lx + Z.of_nat 1)); [lia|]. exists w1. split; [done|]. cbn [data_bits]. by rewrite bcat_nil_r.
  - destruct (Z.ltb_spec (lx + 1) (lx + Z.of_nat (S (S (length syms))))); [|lia].
    cbn [overlay_ok] in Ho. destruct Ho as (_ & Ho1 & Ho).
    assert (B1 : (wbits w1).2 = (wbits w).2 + (sym_bits ltree dtree x).2) by by rewrite (em_bits _ _ _ M1).
    destruct (IH y (lx + 1) w1) as (w2 & E2 & M2).
    + apply M1.
    + done.
    + apply (holds_frame (w_buf w)); [lia|cbn [length] in *; lia| |].
      * intros i Hi. apply (em_frame _ _ _ M1). lia.
      * intros i z Hi. replace (lx + 1 + Z.of_nat i) with (lx + Z.of_nat (S i)) by lia. by apply Hh.
    + lia.
    + cbn [length] in *. lia.
    + cbn [overlay_ok]. rewrite B1. split; [done|]. done.
    + rewrite B1, (em_length _ _ _ M1). cbn [data_bits bcat snd] in Hr |- *. lia.
    + replace (lx + Z.of_nat (S (S (length syms)))) with (lx + 1 + Z.of_nat (length (y :: syms))) by (cbn [length]; lia).
      exists w2. split; [done|]. cbn [data_bits] in *. by eapply emits_trans.
Qed.

Lemma data_decodes syms : forall hist rest,
  Forall codable syms -> all_fit hist syms ->
  lz_runs ll dl (then_rest (data_bits ltree dtree syms) rest) hist (data_bits ltree dtree syms).2 (expand hist syms).
Proof.
  induction syms as [|x syms IH]; intros hist rest Hc Hf; cbn [data_bits expand fold_left]; [apply runs_refl|].
  apply Forall_cons_iff in Hc as [Hx Hc]. destruct Hf as [Hf1 Hf]. assert (Hb := sym_bits_ok x Hx). assert (Hbr := data_bits_ok _ Hc).
  rewrite then_rest_cat by done. cbn [bcat snd]. destruct Hx as [Hx1 Hx2].
  eapply runs_step; [by apply sym_decodes|apply Hb|]. rewrite then_rest_div by done. by apply IH.
Qed.

(** The whole block, with its end. *)
Definition block_bits (syms : list sym) : bitstr := data_bits ltree dtree syms ·· code_bits ltree END_BLOCK.

Lemma end_decodes hist rest :
  coded ltree ll END_BLOCK -> lz_step ll dl (then_rest (code_bits ltree END_BLOCK) rest) hist = Eob (code_bits ltree END_BLOCK).2.
Proof.
  intros (l & Hl & Hc). unfold lz_step. destruct (symbol_at_code LENS ltree ll END_BLOCK l EndBlock rest Hl Hc eq_refl) as (-> & -> & _). done.
Qed.

Lemma compress_block_ok s syms :
  writer_ok (t_w s) -> Forall codable syms -> coded ltree ll END_BLOCK ->
  t_last_lit s = Z.of_nat (length syms) -> t_last_lit s <= t_lit_bufsize s ->
  holds (w_buf (t_w s)) (t_lit_bufsize s) 0 syms -> overlay_ok ltree dtree (wbits (t_w s)).2 (t_lit_bufsize s) 0 syms ->
  (wbits (t_w s)).2 + (block_bits syms).2 <= 8 * Z.of_nat (length (w_buf (t_w s))) ->
  exists w', compress_block s ltree dtree = Some (s <| t_w := w' |>) /\ emits (t_w s) (block_bits syms) w'.
Proof.
  intros Hw Hc He Hn Hl Hh Ho Hr. unfold compress_block. destruct (coded_sends _ _ _ He) as [Hb Hs].
  assert (Hbr := data_bits_ok _ Hc). cbn [block_bits bcat snd] in Hr.
  assert (exists w1, (if negb (t_last_lit s =? 0)
       then compress_loop (Z.to_nat (t_last_lit s)) (t_lit_bufsize s) (t_last_lit s) ltree dtree 0 (t_w s)
       else Some (t_w s)) = Some w1 /\ emits (t_w s) (data_bits ltree dtree syms) w1) as (w1 & -> & M1).
  { rewrite Hn. destruct syms as [|x syms]; [exists (t_w s); split; [done|by apply emits_refl]|].
    destruct (Z.eqb_spec (Z.of_nat (length (x :: syms))) 0); [cbn [length] in *; lia|]. rewrite Nat2Z.id.
    apply (compress_loop_ok (t_lit_bufsize s) syms x 0 (t_w s)); try done; try lia. destruct Hb. lia. }
  cbn [mbind option_bind]. destruct (Hs w1 (em_ok _ _ _ M1)) as (w2 & -> & M2).
  { rewrite (em_bits _ _ _ M1), (em_length _ _ _ M1). cbn [bcat snd]. lia. }
  exists w2. split; [done|]. by eapply emits_trans.
Qed.
End data.
