(* ===== verification/TreesHeap.v ===== *)
(** The heap of [build_tree()]: [pqdownheap()] and [pqremove()] rearrange the elements [heap[1]] to [heap[heap_len]]
    and touch nothing else. *)
From S2P Require Import Prelude TreesTables Trees.

(** ** A heap as [heap[0]], the elements, and the rest of the array *)
Lemma heap_get (h0 : Z) (R T : list Z) k : 1 <= k <= Z.of_nat (length R) -> aget (h0 :: R ++ T) k = aget R (k - 1).
Proof.
  intros Hk. unfold aget. destruct (Z.leb_spec 0 k), (Z.leb_spec 0 (k - 1)); try lia.
  replace (Z.to_nat k) with (S (Z.to_nat (k - 1))) by lia. cbn. apply lookup_app_l. lia.
Qed.
Lemma heap_set (h0 : Z) (R T : list Z) k x :
  1 <= k <= Z.of_nat (length R) -> aset (h0 :: R ++ T) k x = Some (h0 :: <[Z.to_nat (k - 1) := x]> R ++ T).
Proof.
  intros Hk. rewrite aset_in by (cbn [length]; rewrite length_app; lia).
  replace (Z.to_nat k) with (S (Z.to_nat (k - 1))) by lia. cbn. f_equal. f_equal. apply insert_app_l. lia.
Qed.

(** Moving the value at [j] to [k], and what was to be at [k] to [j]. *)
Lemma hole_moves (R : list Z) (k j : nat) v x :
  (k < length R)%nat -> k <> j -> R !! j = Some x -> <[j := v]> (<[k := x]> R) ≡ₚ <[k := v]> R.
Proof.
  intros Hk Hne Hx. rewrite <- (Permutation_insert_swap (<[k := v]> R) k j v x).
  - by rewrite list_insert_insert_eq.
  - by apply list_lookup_insert_eq.
  - by rewrite list_lookup_insert_ne.
Qed.

Section heap.
Context (tree : list ct_data) (depth : list Z).
(** Nodes that can be compared. *)
Definition node_ok (n : Z) : Prop := 0 <= n < Z.of_nat (length tree) /\ n < Z.of_nat (length depth).

Lemma smaller_ok n m : node_ok n -> node_ok m -> exists b, smaller tree n m depth = Some b.
Proof.
  intros [Hn Hn'] [Hm Hm']. unfold smaller. destruct (aget_in tree n ltac:(lia)) as [a ->], (aget_in tree m ltac:(lia)) as [b ->].
  destruct (aget_in depth n ltac:(lia)) as [dn E1], (aget_in depth m ltac:(lia)) as [dm E2]. cbn [mbind option_bind].
  destruct (fc a <? fc b); [by eexists|]. destruct (fc a =? fc b); [|by eexists]. rewrite E1, E2. by eexists.
Qed.

Lemma nodes_get R j : Forall node_ok R -> 0 <= j < Z.of_nat (length R) -> exists x, aget R j = Some x /\ R !! Z.to_nat j = Some x /\ node_ok x.
Proof.
  intros H Hj. destruct (aget_in R j Hj) as [x Hx]. exists x. split; [done|]. unfold aget in Hx. destruct (Z.leb_spec 0 j); [|lia].
  split; [done|]. by apply (Forall_lookup_1 _ _ _ _ H Hx).
Qed.

(** The smaller son of [k]. *)
Lemma son_ok h0 R T j :
  Forall node_ok R -> 2 <= j <= Z.of_nat (length R) ->
  exists j', (if j <? Z.of_nat (length R) then
       h1 ← aget (h0 :: R ++ T) (j + 1); h0' ← aget (h0 :: R ++ T) j; b ← smaller tree h1 h0' depth; Some (if (b : bool) then j + 1 else j)
     else Some j) = Some j' /\ j <= j' <= Z.of_nat (length R).
Proof.
  intros HR Hj. destruct (Z.ltb_spec j (Z.of_nat (length R))); [|exists j; split; [done|lia]].
  rewrite !heap_get by lia. destruct (nodes_get R (j + 1 - 1) HR ltac:(lia)) as (a & -> & _ & Ha), (nodes_get R (j - 1) HR ltac:(lia)) as (b & -> & _ & Hb).
  cbn [mbind option_bind]. destruct (smaller_ok a b Ha Hb) as [c ->]. cbn [mbind option_bind]. destruct c; eexists; (split; [done|lia]).
Qed.

Lemma pqdown_loop_ok fuel : forall h0 R T v k,
  Forall node_ok R -> node_ok v -> 1 <= k <= Z.of_nat (length R) -> Z.of_nat (length R) - k < Z.of_nat fuel ->
  exists R' k', pqdown_loop fuel tree depth (h0 :: R ++ T) (Z.of_nat (length R)) v k (k ≪ 1) = Some (h0 :: R' ++ T, k') /\
    length R' = length R /\ 1 <= k' <= Z.of_nat (length R) /\ <[Z.to_nat (k' - 1) := v]> R' ≡ₚ <[Z.to_nat (k - 1) := v]> R.
Proof.
  induction fuel as [|fuel IH]; intros h0 R T v k HR Hv Hk Hf; [lia|]. cbn [pqdown_loop].
  rewrite Z.shiftl_mul_pow2 by lia. change (2 ^ 1) with 2. destruct (Z.leb_spec (k * 2) (Z.of_nat (length R))) as [Hj|Hj].
  2:{ exists R, k. done. }
  destruct (son_ok h0 R T (k * 2) HR ltac:(lia)) as (j & -> & Hj'). cbn [mbind option_bind]. rewrite heap_get by lia.
  destruct (nodes_get R (j - 1) HR ltac:(lia)) as (x & -> & Hx & Hxok). cbn [mbind option_bind].
  destruct (smaller_ok v x Hv Hxok) as [[] ->]; cbn [mbind option_bind]; [exists R, k; done|].
  rewrite heap_set by lia. cbn [mbind option_bind].
  assert (HR1 : Forall node_ok (<[Z.to_nat (k - 1) := x]> R)) by by apply Forall_insert.
  destruct (IH h0 (<[Z.to_nat (k - 1) := x]> R) T v j HR1 Hv) as (R' & k' & E & L & Hk' & P); rewrite ?length_insert in *; [lia..|].
  exists R', k'. split; [done|]. split; [done|]. split; [done|]. rewrite P. apply hole_moves; [lia..|done].
Qed.

Lemma pqdownheap_ok h0 R T k :
  Forall node_ok R -> 1 <= k <= Z.of_nat (length R) ->
  exists R', pqdownheap tree depth (h0 :: R ++ T) (Z.of_nat (length R)) k = Some (h0 :: R' ++ T) /\ R' ≡ₚ R.
Proof.
  intros HR Hk. unfold pqdownheap. rewrite heap_get by done. destruct (nodes_get R (k - 1) HR ltac:(lia)) as (v & -> & Hv & Hvok). cbn [mbind option_bind].
  destruct (pqdown_loop_ok (S (Z.to_nat (Z.of_nat (length R)))) h0 R T v k HR Hvok Hk ltac:(lia)) as (R' & k' & -> & L & Hk' & P).
  cbn [mbind option_bind]. rewrite heap_set by lia. eexists. split; [done|]. rewrite P. by rewrite list_insert_id.
Qed.

Lemma heapify_ok n : forall h0 R T,
  Forall node_ok R -> Z.of_nat n <= Z.of_nat (length R) ->
  exists R', heapify n tree depth (h0 :: R ++ T) (Z.of_nat (length R)) = Some (h0 :: R' ++ T) /\ R' ≡ₚ R.
Proof.
  induction n as [|n IH]; intros h0 R T HR Hn; cbn [heapify]; [by exists R|].
  destruct (pqdownheap_ok h0 R T (Z.of_nat (S n)) HR ltac:(lia)) as (R1 & -> & P1). cbn [mbind option_bind].
  rewrite <- (Permutation_length P1). destruct (IH h0 R1 T) as (R2 & -> & P2); [by rewrite P1|rewrite (Permutation_length P1); lia|].
  exists R2. split; [done|]. by rewrite P2.
Qed.

(** The element at the top is taken out; its place at the end is left over. *)
Lemma pqremove_ok h0 R T :
  Forall node_ok R -> (2 <= length R)%nat ->
  exists n R' y, pqremove tree depth (h0 :: R ++ T) (Z.of_nat (length R)) = Some (h0 :: R' ++ y :: T, Z.of_nat (length R'), n) /\
    n :: R' ≡ₚ R /\ length R = S (length R').
Proof.
  intros HR HL. destruct R as [|n R]; [cbn in HL; lia|]. cbn [length] in HL.
  destruct (exists_last (l := R)) as (R0 & y & ->); [intros ->; cbn in HL; lia|].
  unfold pqremove, SMALLEST. rewrite !heap_get by (cbn [length]; rewrite length_app; cbn [length]; lia).
  cbn [length]. rewrite length_app. cbn [length]. replace (Z.of_nat (S (length R0 + 1)) - 1) with (Z.of_nat (S (length R0))) by lia.
  assert (E0 : aget (n :: R0 ++ [y]) (Z.of_nat (S (length R0))) = Some y) by (rewrite aget_nat; by apply (list_lookup_middle R0 [] y)).
  rewrite E0. change (aget (n :: R0 ++ [y]) (1 - 1)) with (Some n). cbn [mbind option_bind].
  rewrite heap_set by (cbn [length]; rewrite length_app; lia). cbn [mbind option_bind]. change (Z.to_nat (1 - 1)) with 0%nat. cbn [insert list_insert].
  replace (h0 :: (y :: R0 ++ [y]) ++ T) with (h0 :: (y :: R0) ++ y :: T) by (cbn; by rewrite <- app_assoc).
  assert (HR' : Forall node_ok (y :: R0)).
  { apply Forall_cons_iff in HR as [_ HR]. apply Forall_app in HR as [HR Hy]. rewrite Forall_singleton in Hy. apply List.Forall_cons; [exact Hy|exact HR]. }
  destruct (pqdownheap_ok h0 (y :: R0) (y :: T) 1 HR' ltac:(cbn [length]; lia)) as (R' & E & P).
  cbn [length] in E. rewrite E. cbn [mbind option_bind]. exists n, R', y. assert (L := Permutation_length P). cbn [length] in L.
  rewrite L. split; [done|]. split; [|lia]. rewrite P. apply Permutation_skip. apply Permutation_cons_append.
Qed.
End heap.
