(* ===== verification/TreesBuild.v ===== *)
(** [build_tree()]: it constructs a complete prefix code whose lengths are within the limit of the tree. *)
From stdpp Require Import sets.
From S2P Require Import Prelude Record Bits Huffman TreesTables Trees TreesHeap TreesCodes.

Definition freq (tree : list ct_data) (i : Z) : Z := match aget tree i with Some e => fc e | None => 0 end.

Lemma aget_set_dl tree n v e :
  aget tree n = Some e -> exists tree', set_dl tree n v = Some tree' /\ length tree' = length tree /\
  forall i, aget tree' i = if i =? n then Some (CtData (fc e) (u16 v)) else aget tree i.
Proof.
  intros H. assert (Hn := aget_Some _ _ _ H). unfold set_dl. rewrite H. cbn [mbind option_bind]. rewrite aset_in by done.
  eexists. split; [done|]. split; [apply length_insert|]. intros i. by apply aget_insert.
Qed.

(** ** The leaves *)

(** The heap holds the symbols below [N] that have a frequency, and those added to have two of them. *)
Record filled (N : Z) (tree0 : list ct_data) (ndepth : nat) (g : building) (h0 : Z) (R T : list Z) : Prop := {
  fl_heap : g_heap g = h0 :: R ++ T;
  fl_len : g_heap_len g = Z.of_nat (length R);
  fl_nodup : NoDup R;
  fl_range : forall i, i ∈ R -> 0 <= i <= g_max_code g;
  fl_max : g_max_code g = -1 /\ R = [] \/ g_max_code g ∈ R;
  fl_maxN : g_max_code g < N;
  fl_used : forall i, 0 <= i < N -> freq tree0 i <> 0 -> i ∈ R;
  fl_zero : forall i, 0 <= i < N -> i ∉ R -> dl <$> aget (g_tree g) i = Some 0;
  fl_tree : length (g_tree g) = length tree0;
  fl_depth : length (g_depth g) = ndepth }.

Lemma heap_init_ok tree0 ndepth fuel : forall n g h0 R T,
  filled n tree0 ndepth g h0 R T -> (forall i, n <= i -> aget (g_tree g) i = aget tree0 i) -> 0 <= n ->
  n + Z.of_nat fuel <= Z.of_nat (length tree0) -> n + Z.of_nat fuel <= Z.of_nat ndepth -> (fuel <= length T)%nat ->
  exists g' R' T', heap_init fuel n g = Some g' /\ filled (n + Z.of_nat fuel) tree0 ndepth g' h0 R' T' /\
    length (R' ++ T') = length (R ++ T) /\ (length R' <= length R + fuel)%nat.
Proof.
  induction fuel as [|fuel IH]; intros n g h0 R T F Hsame Hn Ht Hd HT; cbn [heap_init].
  { exists g, R, T. rewrite Z.add_0_r. split; [done|]. split; [done|]. split; [done|lia]. }
  destruct F. destruct (aget_in (g_tree g) n ltac:(lia)) as [e Ee]. rewrite Ee. cbn [mbind option_bind].
  assert (Hfr : freq tree0 n = fc e) by (unfold freq; by rewrite <- Hsame, Ee by lia).
  replace (n + Z.of_nat (S fuel)) with (n + 1 + Z.of_nat fuel) by lia.
  destruct (nz (fc e)) eqn:Hz.
  - apply nz_true in Hz. destruct T as [|t T]; [cbn in HT; lia|]. rewrite fl_heap0, fl_len0.
    replace (h0 :: R ++ t :: T) with (h0 :: (R ++ [t]) ++ T) by (by rewrite <- app_assoc).
    rewrite heap_set by (rewrite length_app; cbn [length]; lia). cbn [mbind option_bind].
    replace (Z.to_nat (Z.of_nat (length R) + 1 - 1)) with (length R) by lia. rewrite insert_app_r_alt, Nat.sub_diag by lia. cbn [insert list_insert].
    rewrite aset_in by lia. cbn [mbind option_bind].
    destruct (IH (n + 1) (Building (g_tree g) (h0 :: (R ++ [n]) ++ T) (Z.of_nat (length R) + 1) (<[Z.to_nat n := 0]> (g_depth g)) n) h0 (R ++ [n]) T)
      as (g' & R' & T' & -> & F' & L' & LR'); cbn [g_tree g_heap g_heap_len g_depth g_max_code].
    + split; cbn; try done.
      * rewrite length_app. cbn [length]. lia.
      * apply list.NoDup_app. split; [done|]. split; [|apply list.NoDup_singleton]. intros i Hi Hin%list_elem_of_singleton. subst. apply fl_range0 in Hi. lia.
      * intros i. rewrite elem_of_app, list_elem_of_singleton. intros [Hi| ->]; [|lia]. apply fl_range0 in Hi. lia.
      * right. rewrite elem_of_app, list_elem_of_singleton. by right.
      * lia.
      * intros i Hi Hf. rewrite elem_of_app, list_elem_of_singleton. destruct (Z.eq_dec i n); [by right|]. left. apply fl_used0; [lia|done].
      * intros i Hi Hnot. apply fl_zero0; [|set_solver]. destruct (Z.eq_dec i n) as [->|]; [|lia]. exfalso. apply Hnot. set_solver.
      * by rewrite length_insert.
    + intros i Hi. apply Hsame. lia.
    + lia.
    + lia.
    + lia.
    + cbn in HT. lia.
    + exists g', R', T'. split; [done|]. split; [done|]. rewrite length_app in LR'. cbn [length] in LR'. split; [|lia].
      rewrite L', !length_app. cbn [length]. lia.
  - apply nz_false in Hz. destruct (aget_set_dl (g_tree g) n 0 e Ee) as (tree1 & -> & Lt & Hg). cbn [mbind option_bind].
    destruct (IH (n + 1) (Building tree1 (g_heap g) (g_heap_len g) (g_depth g) (g_max_code g)) h0 R T)
      as (g' & R' & T' & -> & F' & L' & LR'); cbn [g_tree g_heap g_heap_len g_depth g_max_code].
    + split; cbn; try done.
      * lia.
      * intros i Hi Hf. apply fl_used0; [|done]. destruct (Z.eq_dec i n) as [->|]; [congruence|lia].
      * intros i Hi Hnot. rewrite Hg. destruct (Z.eqb_spec i n); [done|]. apply fl_zero0; [lia|done].
      * lia.
    + intros i Hi. rewrite Hg. destruct (Z.eqb_spec i n); [lia|]. apply Hsame. lia.
    + lia.
    + lia.
    + lia.
    + lia.
    + exists g', R', T'. split; [done|]. split; [done|]. split; [done|lia].
Qed.

(** A symbol that is not in the heap. *)
Lemma fresh_node N tree0 ndepth g h0 R T :
  filled N tree0 ndepth g h0 R T -> (length R < 2)%nat ->
  exists node max', (if g_max_code g <? 2 then (g_max_code g + 1, g_max_code g + 1) else (0, g_max_code g)) = (node, max') /\
    0 <= node <= 2 /\ node ∉ R /\ node <= max' /\ g_max_code g <= max' /\ (max' = node \/ max' ∈ R) /\ (max' < N \/ max' <= 2).
Proof.
  intros F HR. destruct F. destruct fl_max0 as [[E ->]|Hin].
  - rewrite E. exists 0, 0. split; [done|]. split; [lia|]. split; [set_solver|]. lia.
  - destruct R as [|x [|y R]]; [set_solver| |cbn in HR; lia]. apply list_elem_of_singleton in Hin. subst x.
    assert (Hr := fl_range0 (g_max_code g) ltac:(set_solver)).
    destruct (Z.ltb_spec (g_max_code g) 2); eexists _, _; (split; [done|]); rewrite list_elem_of_singleton; [lia|].
    split; [lia|]. split; [lia|]. split; [lia|]. split; [lia|]. split; [|lia]. right. set_solver.
Qed.

Lemma force_two_ok N tree0 ndepth stree fuel : forall g h0 R T opt_len static_len,
  3 <= N -> N <= Z.of_nat (length tree0) -> N <= Z.of_nat ndepth -> (forall t, stree = Some t -> (3 <= length t)%nat) ->
  filled N tree0 ndepth g h0 R T -> (3 <= fuel + length R)%nat -> (1 <= fuel)%nat -> (2 <= length R + length T)%nat ->
  exists g' R' T' o s, force_two fuel stree g opt_len static_len = Some (g', o, s) /\ filled N tree0 ndepth g' h0 R' T' /\
    (2 <= length R')%nat /\ length (R' ++ T') = length (R ++ T) /\ (length R' <= Nat.max 2 (length R))%nat.
Proof.
  induction fuel as [|fuel IH]; intros g h0 R T opt_len static_len HN Ht Hd Hs F Hf Hf1 HT; [lia|]. cbn [force_two].
  assert (F' := F). destruct F'. rewrite fl_len0. destruct (Z.ltb_spec (Z.of_nat (length R)) 2) as [Hlt|Hge].
  2:{ eexists g, R, T, _, _. split; [done|]. split; [done|]. split; [lia|]. split; [done|lia]. }
  destruct (fresh_node _ _ _ _ _ _ _ F ltac:(lia)) as (node & max' & -> & Hn & Hnew & Hle & Hmx & Hin & HmN).
  destruct T as [|t T]; [cbn in HT; lia|]. rewrite fl_heap0.
  replace (h0 :: R ++ t :: T) with (h0 :: (R ++ [t]) ++ T) by (by rewrite <- app_assoc).
  rewrite heap_set by (rewrite length_app; cbn [length]; lia). cbn [mbind option_bind].
  replace (Z.to_nat (Z.of_nat (length R) + 1 - 1)) with (length R) by lia. rewrite insert_app_r_alt, Nat.sub_diag by lia. cbn [insert list_insert].
  destruct (aget_in (g_tree g) node ltac:(lia)) as [e Ee]. destruct (aget_set_fc (g_tree g) node 1 e Ee) as [-> Hg]. cbn [mbind option_bind].
  rewrite aset_in by lia. cbn [mbind option_bind].
  assert (exists s1, match stree with Some st => e ← aget st node; Some (u32 (static_len - dl e)) | None => Some static_len end = Some s1) as [s1 ->].
  { destruct stree as [t'|]; [|by eexists]. specialize (Hs t' eq_refl). destruct (aget_in t' node ltac:(lia)) as [e' ->]. by eexists. }
  cbn [mbind option_bind]. set (tree1 := <[_ := _]> (g_tree g)) in *.
  destruct (IH (Building tree1 (h0 :: (R ++ [node]) ++ T) (Z.of_nat (length R) + 1) (<[Z.to_nat node := 0]> (g_depth g)) max') h0 (R ++ [node]) T
              (u32 (opt_len - 1)) s1) as (g' & R' & T' & o & s & -> & F2 & L1 & L2 & L3); try done.
  - split; cbn; try done.
    + rewrite length_app. cbn [length]. lia.
    + apply list.NoDup_app. split; [done|]. split; [|apply list.NoDup_singleton]. set_solver.
    + intros i. rewrite elem_of_app, list_elem_of_singleton. intros [Hi| ->]; [|lia]. apply fl_range0 in Hi. lia.
    + right. set_solver.
    + lia.
    + set_solver.
    + intros i Hi Hnot. rewrite Hg. destruct (Z.eqb_spec i node); [set_solver|]. apply fl_zero0; [lia|set_solver].
    + unfold tree1. by rewrite length_insert.
    + by rewrite length_insert.
  - rewrite length_app. cbn [length]. lia.
  - lia.
  - rewrite length_app. cbn [length] in *. lia.
  - eexists g', R', T', o, s. split; [done|]. split; [done|]. split; [done|]. rewrite length_app in L3. cbn [length] in L3.
    split; [|lia]. rewrite L2, !length_app. cbn [length]. lia.
Qed.

(** ** Merging *)
Definition dad (tree : list ct_data) (q : Z) : Z := match aget tree q with Some e => dl e | None => -1 end.

Lemma aset_middle {A} (pre post : list A) (x y : A) k :
  k = Z.of_nat (length pre) -> aset (pre ++ x :: post) k y = Some (pre ++ y :: post).
Proof.
  intros ->. rewrite aset_in by (rewrite length_app; cbn [length]; lia). rewrite Nat2Z.id. by rewrite insert_app_r_alt, Nat.sub_diag by lia.
Qed.

(** The forest after some merges: the roots [R] are in the heap, the nodes that have a father are at its end, [Q], the
    last merged first; the fathers are the inner nodes, twice each, and every father is a root or comes before. *)
Record merged (N : Z) (leaves : list Z) (tree0 : list ct_data) (ndepth : nat) (node : Z) (m : merging) (h0 : Z) (R J Q : list Z) : Prop := {
  mg_heap : m_heap m = h0 :: R ++ J ++ Q;
  mg_len : m_heap_len m = Z.of_nat (length R);
  mg_max : m_heap_max m = 1 + Z.of_nat (length R) + Z.of_nat (length J);
  mg_node : N <= node;
  mg_nodes : R ++ Q ≡ₚ leaves ++ seqZ N (node - N);
  mg_dads : (dad (m_tree m) <$> Q) ≡ₚ seqZ N (node - N) ++ seqZ N (node - N);
  mg_order : forall Q1 q Q2, Q = Q1 ++ q :: Q2 -> dad (m_tree m) q ∈ R ++ Q1;
  mg_tree : length (m_tree m) = length tree0;
  mg_depth : length (m_depth m) = ndepth;
  mg_same : forall i, 0 <= i < N -> i ∉ leaves -> aget (m_tree m) i = aget tree0 i;
  mg_size : length (h0 :: R ++ J ++ Q) = Z.to_nat HEAP_SIZE }.

Section merge.
Context (N : Z) (leaves : list Z) (tree0 : list ct_data) (ndepth : nat).
Context (HN : 0 <= N <= L_CODES) (Hnd : NoDup leaves) (Hrange : forall i, i ∈ leaves -> 0 <= i < N) (Hleaves : Z.of_nat (length leaves) <= N).
Context (Htree : 2 * N + 1 <= Z.of_nat (length tree0)) (Hdepth : 2 * N + 1 <= Z.of_nat ndepth).

Lemma merged_counts node m h0 R J Q :
  merged N leaves tree0 ndepth node m h0 R J Q ->
  Z.of_nat (length Q) = 2 * (node - N) /\ Z.of_nat (length R) = Z.of_nat (length leaves) - (node - N) /\
  1 + Z.of_nat (length R) + Z.of_nat (length J) + Z.of_nat (length Q) = HEAP_SIZE.
Proof.
  intros []. apply Permutation_length in mg_nodes0, mg_dads0. rewrite length_fmap, !length_app, !length_seqZ in *.
  cbn [length] in mg_size0. rewrite !length_app in mg_size0. split; [lia|]. split; [lia|]. unfold HEAP_SIZE, L_CODES, LITERALS, LENGTH_CODES in *. lia.
Qed.

Lemma merged_in node m h0 R J Q i : merged N leaves tree0 ndepth node m h0 R J Q -> i ∈ R ++ Q -> 0 <= i < node.
Proof.
  intros [] Hi. rewrite mg_nodes0, elem_of_app, elem_of_seqZ in Hi. destruct Hi as [Hi|Hi]; [|lia]. apply Hrange in Hi. lia.
Qed.

Lemma merged_nodup node m h0 R J Q : merged N leaves tree0 ndepth node m h0 R J Q -> NoDup (R ++ Q).
Proof.
  intros []. rewrite mg_nodes0. apply list.NoDup_app. split; [done|]. split; [|apply NoDup_seqZ].
  intros i Hi. rewrite elem_of_seqZ. apply Hrange in Hi. lia.
Qed.

Lemma dad_set_other tree tree' q e i :
  (forall j, aget tree' j = if j =? q then Some e else aget tree j) -> i <> q -> dad tree' i = dad tree i.
Proof. intros H Hi. unfold dad. rewrite H. by destruct (Z.eqb_spec i q). Qed.

(** The tree after a merge of [n] and [k] under [node]. *)
Lemma merge_tree tree n k node f :
  0 <= n < Z.of_nat (length tree) -> 0 <= k < Z.of_nat (length tree) -> 0 <= node < Z.of_nat (length tree) -> node < 2 ^ 16 -> n <> node -> k <> node ->
  exists tree1 tree2 tree3, set_fc tree node f = Some tree1 /\ set_dl tree1 k node = Some tree2 /\ set_dl tree2 n node = Some tree3 /\
    length tree3 = length tree /\ dad tree3 n = node /\ dad tree3 k = node /\
    (forall i, i <> n -> i <> k -> dad tree3 i = dad tree i) /\ (forall i, i <> n -> i <> k -> i <> node -> aget tree3 i = aget tree i).
Proof.
  intros Hn Hk Hnode Hs Hne1 Hne2.
  destruct (aget_in tree node Hnode) as [e E]. destruct (aget_set_fc tree node f e E) as [E1 G1]. set (tree1 := <[_ := _]> tree) in *.
  assert (L1 : length tree1 = length tree) by apply length_insert.
  destruct (aget_in tree1 k ltac:(lia)) as [ek Ek]. destruct (aget_set_dl tree1 k node ek Ek) as (tree2 & E2 & L2 & G2).
  destruct (aget_in tree2 n ltac:(lia)) as [en En]. destruct (aget_set_dl tree2 n node en En) as (tree3 & E3 & L3 & G3).
  exists tree1, tree2, tree3. split; [done|]. split; [done|]. split; [done|]. split; [lia|].
  split; [unfold dad; rewrite G3, Z.eqb_refl; apply u16_small; lia|].
  split. { unfold dad. rewrite G3, G2, Z.eqb_refl. destruct (k =? n); apply u16_small; lia. }
  split.
  - intros i Hi1 Hi2. rewrite (dad_set_other tree2 tree3 n _ i G3 Hi1), (dad_set_other tree1 tree2 k _ i G2 Hi2). unfold dad. rewrite G1.
    destruct (Z.eqb_spec i node) as [->|]; [by rewrite E|done].
  - intros i Hi1 Hi2 Hi3. rewrite G3, G2, G1. destruct (Z.eqb_spec i n), (Z.eqb_spec i k), (Z.eqb_spec i node); done.
Qed.

(** The junk between the heap and the nodes at its end has room for two. *)
Lemma split_last2 (l : list Z) : (2 <= length l)%nat -> exists l' a b, l = l' ++ [a; b].
Proof.
  intros H. destruct (exists_last (l := l)) as (l1 & b & ->); [intros ->; cbn in H; lia|]. rewrite length_app in H. cbn [length] in H.
  destruct (exists_last (l := l1)) as (l2 & a & ->); [intros ->; cbn in H; lia|]. exists l2, a, b. by rewrite <- app_assoc.
Qed.

(** The permutations and the order after a merge. *)
Lemma merged_lists tree tree' node n k R R2 Q :
  N <= node -> NoDup (R ++ Q) -> n :: k :: R2 ≡ₚ R -> R ++ Q ≡ₚ leaves ++ seqZ N (node - N) ->
  (dad tree <$> Q) ≡ₚ seqZ N (node - N) ++ seqZ N (node - N) -> (forall Q1 q Q2, Q = Q1 ++ q :: Q2 -> dad tree q ∈ R ++ Q1) ->
  dad tree' n = node -> dad tree' k = node -> (forall i, i <> n -> i <> k -> dad tree' i = dad tree i) ->
  (node :: R2) ++ k :: n :: Q ≡ₚ leaves ++ seqZ N (node + 1 - N) /\
  (dad tree' <$> k :: n :: Q) ≡ₚ seqZ N (node + 1 - N) ++ seqZ N (node + 1 - N) /\
  (forall Q1 q Q2, k :: n :: Q = Q1 ++ q :: Q2 -> dad tree' q ∈ (node :: R2) ++ Q1).
Proof.
  intros Hnode Hnd' P Pn Pd Ho Dn Dk Ds.
  assert (Es : seqZ N (node + 1 - N) = seqZ N (node - N) ++ [node]).
  { replace (node + 1 - N) with (node - N + 1) by lia. rewrite seqZ_app by lia. f_equal. replace (N + (node - N)) with node by lia. done. }
  assert (Hq : forall q, q ∈ Q -> q <> n /\ q <> k).
  { intros q Hq. apply list.NoDup_app in Hnd' as (_ & Hd & _). split; intros ->; (eapply Hd; [|exact Hq]); rewrite <- P; set_solver. }
  rewrite Es. split; [|split].
  - transitivity (node :: (n :: k :: R2) ++ Q).
    { cbn. apply Permutation_skip. rewrite <- (Permutation_middle R2). apply Permutation_trans with (k :: R2 ++ n :: Q); [done|].
      rewrite <- (Permutation_middle R2). by rewrite Permutation_swap. }
    rewrite P, Pn. rewrite app_assoc. apply Permutation_cons_append.
  - rewrite !fmap_cons, Dn, Dk. rewrite (list_fmap_ext (dad tree') (dad tree) Q) by (intros i q Hq'; apply list_elem_of_lookup_2, Hq in Hq' as []; auto).
    rewrite Pd. rewrite <- !Permutation_cons_append. cbn. rewrite <- Permutation_middle. done.
  - intros Q1 q Q2 E. destruct Q1 as [|x Q1]; cbn in E; injection E as -> E; [rewrite Dk; set_solver|].
    destruct Q1 as [|y Q1]; cbn in E; injection E as -> E; [rewrite Dn; set_solver|].
    assert (Hin : q ∈ Q) by (rewrite E; set_solver). destruct (Hq q Hin) as [H1 H2]. rewrite Ds by done.
    specialize (Ho Q1 q Q2 E). rewrite <- P in Ho. set_solver.
Qed.

Lemma merge_step_ok node m h0 R J Q :
  merged N leaves tree0 ndepth node m h0 R J Q -> (2 <= length R)%nat ->
  exists m' R' J' Q', merge_step m node = Some m' /\ merged N leaves tree0 ndepth (node + 1) m' h0 R' J' Q' /\ length R = S (length R').
Proof.
  intros M HR. assert (Hin := fun i => merged_in node m h0 R J Q i M). assert (Hnd' := merged_nodup _ _ _ _ _ _ M).
  assert (Hc := merged_counts _ _ _ _ _ _ M). destruct M. unfold HEAP_SIZE, L_CODES, LITERALS, LENGTH_CODES in *.
  assert (HR' : forall i, i ∈ R -> 0 <= i < node) by (intros i Hi; apply Hin; set_solver).
  assert (Hok : forall tree depth, length tree = length tree0 -> length depth = ndepth -> forall l, (forall i, i ∈ l -> 0 <= i <= node) -> Forall (node_ok tree depth) l).
  { intros tree depth Lt Ld l Hl. apply Forall_forall. intros i Hi%list_elem_of_In. apply Hl in Hi. unfold node_ok. lia. }
  unfold merge_step. rewrite mg_heap0, mg_len0, mg_max0.
  destruct (pqremove_ok (m_tree m) (m_depth m) h0 R (J ++ Q)) as (n & R1 & y & -> & P & L1).
  { apply Hok; [done..|]. intros i Hi. apply HR' in Hi. lia. }
  { done. }
  cbn [mbind option_bind]. destruct R1 as [|k R2]; [cbn in L1; lia|].
  unfold SMALLEST. rewrite heap_get by (cbn [length]; lia). change (aget (k :: R2) (1 - 1)) with (Some k). cbn [mbind option_bind].
  assert (Hn : 0 <= n < node) by (apply HR'; rewrite <- P; set_solver). assert (Hk : 0 <= k < node) by (apply HR'; rewrite <- P; set_solver).
  destruct (split_last2 (y :: J)) as (J1 & a & b & EJ); [cbn [length]; lia|]. assert (LJ := f_equal length EJ). rewrite length_app in LJ. cbn [length] in LJ, L1.
  replace (h0 :: (k :: R2) ++ y :: J ++ Q) with ((h0 :: (k :: R2) ++ J1 ++ [a]) ++ b :: Q).
  2:{ change (y :: J ++ Q) with ((y :: J) ++ Q). rewrite EJ. cbn. by rewrite <- !app_assoc. }
  rewrite aset_middle by (cbn [length]; rewrite !length_app; cbn [length]; lia). cbn [mbind option_bind].
  replace ((h0 :: (k :: R2) ++ J1 ++ [a]) ++ n :: Q) with ((h0 :: (k :: R2) ++ J1) ++ a :: n :: Q) by (cbn; by rewrite <- !app_assoc).
  rewrite aset_middle by (cbn [length]; rewrite !length_app; cbn [length]; lia). cbn [mbind option_bind].
  destruct (aget_in (m_tree m) n ltac:(lia)) as [en ->], (aget_in (m_tree m) k ltac:(lia)) as [ek ->]. cbn [mbind option_bind].
  destruct (merge_tree (m_tree m) n k node (fc en + fc ek)) as (tree1 & tree2 & tree3 & -> & E2 & E3 & L3 & Dn & Dk & Ds & Dsame); [lia..|]. cbn [mbind option_bind].
  destruct (aget_in (m_depth m) n ltac:(lia)) as [dn ->], (aget_in (m_depth m) k ltac:(lia)) as [dk ->]. cbn [mbind option_bind].
  rewrite (aset_in (m_depth m)) by lia. cbn [mbind option_bind]. rewrite E2. cbn [mbind option_bind]. rewrite E3. cbn [mbind option_bind].
  set (depth := <[_ := _]> (m_depth m)). assert (Ld : length depth = ndepth) by (unfold depth; by rewrite length_insert).
  replace ((h0 :: (k :: R2) ++ J1) ++ k :: n :: Q) with (h0 :: (k :: R2) ++ J1 ++ k :: n :: Q) by (cbn; by rewrite <- !app_assoc).
  rewrite heap_set by (cbn [length]; lia). cbn [mbind option_bind]. change (Z.to_nat (1 - 1)) with 0%nat. cbn [insert list_insert].
  destruct (pqdownheap_ok tree3 depth h0 (node :: R2) (J1 ++ k :: n :: Q) 1) as (R' & E & P'); [|cbn [length]; lia|].
  { apply Hok; [lia|done|]. intros i. rewrite elem_of_cons. intros [->|Hi]; [lia|]. assert (i ∈ R) as HiR by (rewrite <- P; set_solver). apply HR' in HiR. lia. }
  cbn [length] in E |- *. rewrite E. cbn [mbind option_bind].
  destruct (merged_lists (m_tree m) tree3 node n k R R2 Q mg_node0 Hnd' P mg_nodes0 mg_dads0 mg_order0 Dn Dk Ds) as (A1 & A2 & A3).
  assert (LR' := Permutation_length P'). cbn [length] in LR'.
  eexists _, R', J1, (k :: n :: Q). split; [done|]. split; [|lia]. split; cbn [m_tree m_heap m_heap_len m_heap_max m_depth]; try done; try lia.
  - by rewrite P'.
  - intros Q1 q Q2 EQ. rewrite P'. by apply (A3 Q1 q Q2).
  - intros i Hi Hnl. rewrite Dsame; [by apply mg_same0| | |lia].
    + intros ->. assert (n ∈ R ++ Q) as HnQ by (rewrite <- P; set_solver). rewrite mg_nodes0 in HnQ. rewrite elem_of_app, elem_of_seqZ in HnQ. lia || (destruct HnQ; [done|lia]).
    + intros ->. assert (k ∈ R ++ Q) as HkQ by (rewrite <- P; set_solver). rewrite mg_nodes0 in HkQ. rewrite elem_of_app, elem_of_seqZ in HkQ. destruct HkQ; [done|lia].
  - cbn [length]. rewrite !length_app. cbn [length]. unfold HEAP_SIZE, L_CODES, LITERALS, LENGTH_CODES. lia.
Qed.

Lemma merge_loop_ok fuel : forall node m h0 R J Q,
  merged N leaves tree0 ndepth node m h0 R J Q -> (2 <= length R)%nat -> (length R <= S fuel)%nat ->
  exists m' node' root J' Q', merge_loop fuel m node = Some m' /\ merged N leaves tree0 ndepth node' m' h0 [root] J' Q'.
Proof.
  induction fuel as [|fuel IH]; intros node m h0 R J Q M HR Hf; [lia|]. cbn [merge_loop].
  destruct (merge_step_ok node m h0 R J Q M HR) as (m1 & R1 & J1 & Q1 & -> & M1 & L1). cbn [mbind option_bind].
  rewrite (mg_len _ _ _ _ _ _ _ _ _ _ M1), Z.geb_leb. destruct (Z.leb_spec 2 (Z.of_nat (length R1))).
  - apply (IH (node + 1) m1 h0 R1 J1 Q1 M1); lia.
  - destruct R1 as [|root [|? ?]]; cbn [length] in *; [lia| |lia]. by exists m1, (node + 1), root, J1, Q1.
Qed.
End merge.
