(* ===== verification/TreesLens.v ===== *)
(** [gen_bitlen()]: the lengths it assigns form a complete code within the limit. *)
From stdpp Require Import sets.
From S2P Require Import Prelude Record Bits Huffman TreesTables Trees TreesHeap TreesCodes TreesBuild.

(** What the code relies on in a static tree descriptor. *)
Record desc_ok (desc : static_tree_desc) : Prop := {
  dk_elems : 3 <= elems desc <= L_CODES;
  dk_max : 1 <= max_length desc <= 15;
  dk_few : elems desc < 2 ^ max_length desc;
  dk_extra : forall i, extra_base desc <= i < elems desc -> exists x, aget (extra_bits desc) (i - extra_base desc) = Some x;
  dk_static : forall t, static_tree desc = Some t -> elems desc <= Z.of_nat (length t) }.

Lemma stat_desc_ok desc : desc_ok (stat_desc desc).
Proof.
  destruct desc; (split; [vm_compute; split; congruence|vm_compute; split; congruence|vm_compute; reflexivity| |]).
  all: cbn [stat_desc static_l_desc static_d_desc static_bl_desc extra_base elems extra_bits static_tree].
  all: try (intros t [= <-]; vm_compute; congruence).
  all: intros i; unfold L_CODES, D_CODES, BL_CODES, LITERALS, LENGTH_CODES; intros Hi; apply aget_in; cbn; lia.
Qed.

Section lens.
Context (desc : static_tree_desc) (Hdesc : desc_ok desc) (max_code : Z) (T0 : list ct_data) (root : Z) (Q : list Z).
Context (Hnd : NoDup (root :: Q)) (Hin : forall i, i ∈ root :: Q -> 0 <= i < Z.of_nat (length T0)).
Context (Horder : forall Q1 q Q2, Q = Q1 ++ q :: Q2 -> dad T0 q ∈ root :: Q1).
Context (Hleaf : forall q, q ∈ Q -> q <= max_code -> q < elems desc) (HQ : Z.of_nat (length Q) < 2 ^ 16).

Definition mx := max_length desc.
Definition leaf (q : Z) : bool := negb (q >? max_code).
(** The length of a node, from that of its father. *)
Definition clip (x : Z) : Z := if x + 1 >? mx then mx else x + 1.

Record lens_inv (P Qr : list Z) (b : bitlens) (ov : Z) : Prop := {
  li_len : length (b_tree b) = length T0;
  li_rest : forall q, q ∈ Qr -> dad (b_tree b) q = dad T0 q;
  li_root : dad (b_tree b) root = 0;
  li_dad : forall p, p ∈ P -> dad T0 p ∈ root :: P;
  li_clip : forall p, p ∈ P -> dad (b_tree b) p = clip (dad (b_tree b) (dad T0 p));
  li_range : forall p, p ∈ root :: P -> 0 <= dad (b_tree b) p <= mx;
  li_ov : ov = zcount (fun p => dad (b_tree b) (dad T0 p) =? mx) P;
  li_size : length (b_count b) = 16%nat;
  li_cnt : forall l, 0 <= l <= 15 -> aget (b_count b) l = Some (zcount (fun p => leaf p && (dad (b_tree b) p =? l)) P);
  li_other : forall i, i ∉ root :: Q -> aget (b_tree b) i = aget T0 i }.

Lemma clip_range x : 0 <= x <= mx -> 1 <= clip x <= mx.
Proof.
  clear HQ. intros Hx. destruct Hdesc. unfold clip, mx in *. rewrite Z.gtb_ltb. destruct (Z.ltb_spec (max_length desc) (x + 1)); lia. Qed.

(** The counts after one more node. *)
Lemma counts_step (count count' : list Z) P q (L L' : Z -> Z) bits :
  q ∉ P -> (forall p, p ∈ P -> L' p = L p) -> L' q = bits -> 0 <= bits <= 15 -> length count = 16%nat ->
  (forall l, 0 <= l <= 15 -> aget count l = Some (zcount (fun p => leaf p && (L p =? l)) P)) ->
  count' = (if leaf q then <[Z.to_nat bits := zcount (fun p => leaf p && (L p =? bits)) P + 1]> count else count) ->
  length count' = 16%nat /\ forall l, 0 <= l <= 15 -> aget count' l = Some (zcount (fun p => leaf p && (L' p =? l)) (P ++ [q])).
Proof.
  intros Hq HL Hb Hbr Hl Hc ->.
  assert (E : forall l, zcount (fun p => leaf p && (L' p =? l)) (P ++ [q]) = zcount (fun p => leaf p && (L p =? l)) P + (if leaf q && (bits =? l) then 1 else 0)).
  { intros l. rewrite zcount_app, zcount_cons. change (zcount _ []) with 0. rewrite Hb.
    rewrite (zcount_ext _ (fun p => leaf p && (L p =? l)) P) by (intros p Hp; by rewrite HL). lia. }
  destruct (leaf q); (split; [rewrite ?length_insert; done|]); intros l Hlr; rewrite E.
  - rewrite aget_insert by lia. rewrite (Z.eqb_sym bits). destruct (Z.eqb_spec l bits) as [->|]; [done|]. rewrite Hc by done. f_equal. cbn [andb]. lia.
  - rewrite Hc by done. f_equal. cbn [andb]. lia.
Qed.

Lemma bitlen_step_ok P q Qr b ov :
  Q = P ++ q :: Qr -> lens_inv P (q :: Qr) b ov ->
  exists b' ov', bitlen_step desc max_code b ov q = Some (b', ov') /\ lens_inv (P ++ [q]) Qr b' ov'.
Proof.
  intros EQ I. assert (Hpos := Horder P q Qr EQ). destruct I.
  assert (HqQ : q ∈ Q) by (rewrite EQ; set_solver).
  assert (HqP : q ∉ root :: P).
  { apply list.NoDup_cons in Hnd as [Hr HndQ]. rewrite EQ in Hr, HndQ. apply list.NoDup_app in HndQ as (_ & Hd & _).
    rewrite not_elem_of_cons. split; [set_solver|]. intros Hqp. apply (Hd q Hqp). set_solver. }
  assert (Hsub : forall i, i ∈ root :: P -> i ∈ root :: Q) by (rewrite EQ; set_solver).
  destruct (aget_in (b_tree b) q) as [e Ee]; [rewrite li_len0; apply Hin; set_solver|].
  assert (Ed : dl e = dad T0 q) by (rewrite <- li_rest0 by set_solver; unfold dad; by rewrite Ee).
  unfold bitlen_step. rewrite Ee. cbn [mbind option_bind]. rewrite Ed.
  destruct (aget_in (b_tree b) (dad T0 q)) as [d Ee2]; [rewrite li_len0; by apply Hin, Hsub|]. rewrite Ee2. cbn [mbind option_bind].
  assert (EL : dl d = dad (b_tree b) (dad T0 q)) by (unfold dad at 1; by rewrite Ee2). fold mx.
  assert (Hr := li_range0 _ Hpos). rewrite <- EL in Hr. assert (Hcr := clip_range _ Hr). assert (Hmx := dk_max _ Hdesc). fold mx in Hmx.
  set (bits := clip (dl d)) in *. assert (Eb : (if dl d + 1 >? mx then mx else dl d + 1) = bits) by done. rewrite Eb.
  destruct (aget_set_dl (b_tree b) q bits e Ee) as (tree1 & -> & L1 & G1). cbn [mbind option_bind]. rewrite u16_small in G1 by lia.
  assert (Dq : dad tree1 q = bits) by (unfold dad; by rewrite G1, Z.eqb_refl).
  assert (Do : forall i, i <> q -> dad tree1 i = dad (b_tree b) i) by (intros i Hi; by apply (dad_set_other (b_tree b) tree1 q _ i G1)).
  assert (Dp : forall p, p ∈ root :: P -> dad tree1 p = dad (b_tree b) p) by (intros p Hp; apply Do; intros ->; done).
  set (ov' := if dl d + 1 >? mx then ov + 1 else ov).
  assert (Hmain : forall count o s,
    count = (if leaf q then <[Z.to_nat bits := zcount (fun p => leaf p && (dad (b_tree b) p =? bits)) P + 1]> (b_count b) else b_count b) ->
    lens_inv (P ++ [q]) Qr (Bitlens tree1 count o s) ov').
  { intros count o s Ec. destruct (counts_step (b_count b) count P q (dad (b_tree b)) (dad tree1) bits) as [C1 C2]; try done; try lia; [set_solver| |].
    { intros p Hp. apply Dp. set_solver. }
    split; cbn; try done; try lia.
    - intros q' Hq'. rewrite Do; [apply li_rest0; set_solver|]. intros ->. apply list.NoDup_cons in Hnd as [_ HndQ]. rewrite EQ in HndQ.
      apply list.NoDup_app in HndQ as (_ & _ & HndQ). apply list.NoDup_cons in HndQ as [? _]. done.
    - rewrite Dp by set_solver. done.
    - intros p. rewrite elem_of_app, list_elem_of_singleton. intros [Hp| ->]; [|set_solver]. apply li_dad0 in Hp. set_solver.
    - intros p. rewrite elem_of_app, list_elem_of_singleton. intros [Hp| ->].
      + rewrite !Dp by (set_solver || by apply li_dad0). by apply li_clip0.
      + rewrite Dq, Dp by done. unfold bits. by rewrite EL.
    - intros p. rewrite elem_of_cons, elem_of_app, list_elem_of_singleton. intros [->|[Hp| ->]]; [rewrite Dp by set_solver; apply li_range0; set_solver| |lia].
      rewrite Dp by set_solver. apply li_range0. set_solver.
    - rewrite zcount_app, zcount_cons. change (zcount _ []) with 0.
      rewrite (zcount_ext _ (fun p => dad (b_tree b) (dad T0 p) =? mx) P) by (intros p Hp; by rewrite Dp by (by apply li_dad0)).
      rewrite Dp, <- EL by done. rewrite <- li_ov0. unfold ov'. rewrite Z.gtb_ltb. destruct (Z.ltb_spec mx (dl d + 1)), (Z.eqb_spec (dl d) mx); lia.
    - intros i Hi. rewrite G1. destruct (Z.eqb_spec i q) as [->|]; [set_solver|]. by apply li_other0. }
  destruct (q >? max_code) eqn:El.
  - eexists _, ov'. split; [done|]. apply Hmain. unfold leaf. by rewrite El.
  - assert (Hq : q < elems desc) by (apply Hleaf; [done|lia]). rewrite li_cnt0 by lia. cbn [mbind option_bind]. rewrite aset_in by lia. cbn [mbind option_bind].
    assert (exists x, (if q >=? extra_base desc then aget (extra_bits desc) (q - extra_base desc) else Some 0) = Some x) as [x ->].
    { rewrite Z.geb_leb. destruct (Z.leb_spec (extra_base desc) q); [|by eexists]. by apply (dk_extra _ Hdesc). }
    cbn [mbind option_bind].
    assert (exists s, match static_tree desc with Some stree => t ← aget stree q; Some (u32 (b_static_len b + fc e * (dl t + x))) | None => Some (b_static_len b) end = Some s) as [s ->].
    { destruct (static_tree desc) as [t|] eqn:Et; [|by eexists]. assert (Ht := dk_static _ Hdesc _ Et).
      destruct (aget_in t q) as [y ->]; [|by eexists]. split; [apply Hin; set_solver|lia]. }
    cbn [mbind option_bind]. eexists _, ov'. split; [done|]. apply Hmain. assert (El' : leaf q = true) by (unfold leaf; by rewrite El). rewrite El'.
    rewrite u16_small; [done|]. pose proof (zcount_nonneg (fun p => leaf p && (dad (b_tree b) p =? bits)) P).
    pose proof (zcount_le (fun p => leaf p && (dad (b_tree b) p =? bits)) P). rewrite EQ, length_app in HQ. cbn [length] in HQ. lia.
Qed.

Lemma bitlen_loop_ok Qr : forall fuel P pre heap b ov,
  Q = P ++ Qr -> heap = pre ++ Qr -> Z.of_nat (length heap) = HEAP_SIZE -> (length Qr < fuel)%nat -> lens_inv P Qr b ov ->
  exists b' ov', bitlen_loop fuel desc max_code heap b ov (Z.of_nat (length pre)) = Some (b', ov') /\ lens_inv Q [] b' ov'.
Proof.
  induction Qr as [|q Qr IH]; intros [|fuel] P pre heap b ov EQ Eh Hl Hf I; cbn [length] in Hf; try lia; cbn [bitlen_loop].
  - rewrite Eh, app_nil_r in Hl. destruct (Z.ltb_spec (Z.of_nat (length pre)) HEAP_SIZE); [lia|]. rewrite app_nil_r in EQ. subst P. by exists b, ov.
  - destruct (Z.ltb_spec (Z.of_nat (length pre)) HEAP_SIZE) as [_|]; [|rewrite Eh, length_app in Hl; cbn [length] in Hl; lia].
    assert (Eg : aget heap (Z.of_nat (length pre)) = Some q) by (rewrite Eh; apply aget_middle). rewrite Eg. cbn [mbind option_bind].
    destruct (bitlen_step_ok P q Qr b ov EQ I) as (b1 & ov1 & -> & I1). cbn [mbind option_bind].
    replace (Z.of_nat (length pre) + 1) with (Z.of_nat (length (pre ++ [q]))) by (rewrite length_app; cbn [length]; lia).
    apply (IH fuel (P ++ [q]) (pre ++ [q]) heap b1 ov1); try done; [by rewrite <- app_assoc|by rewrite <- app_assoc|lia].
Qed.

(** ** Kraft's equation *)
Context (leaves inner : list Z).
Context (Hnodes : root :: Q ≡ₚ leaves ++ inner) (Hdads : (dad T0 <$> Q) ≡ₚ inner ++ inner).
Context (Hl_leaf : forall i, i ∈ leaves -> leaf i = true) (Hi_inner : forall i, i ∈ inner -> leaf i = false).
Context (Hroot : root ∈ inner).

Section kraft.
Context (b : bitlens) (ov : Z) (I : lens_inv Q [] b ov).
Notation L := (dad (b_tree b)).

(** Over the nodes with a father, sums of a function of the father count every inner node twice. *)
Lemma sum_dads (f : Z -> Z) : zsum (fun q => f (dad T0 q)) Q = 2 * zsum f inner.
Proof. rewrite <- zsum_fmap, (zsum_perm _ _ _ Hdads), zsum_app. lia. Qed.

Lemma sum_nodes (f : Z -> Z) : f root + zsum f Q = zsum f leaves + zsum f inner.
Proof. rewrite <- zsum_app, <- (zsum_perm _ _ _ Hnodes). done. Qed.

Lemma inner_in p : p ∈ inner -> p ∈ root :: Q.
Proof. intros Hp. rewrite Hnodes. set_solver. Qed.

(** The nodes beyond the limit are counted in pairs. *)
Lemma overflow_even : ov = 2 * zcount (fun p => L p =? mx) inner.
Proof. rewrite (li_ov _ _ _ _ I). apply (sum_dads (fun p => if L p =? mx then 1 else 0)). Qed.

(** Twice the weight of a node: that of its father's share, and one for each node cut off. *)
Lemma clip_weight x : 0 <= x <= mx -> 2 * 2 ^ (mx - clip x) = 2 ^ (mx - x) + (if x =? mx then 1 else 0).
Proof.
  intros Hx. unfold clip. rewrite Z.gtb_ltb. destruct (Z.ltb_spec mx (x + 1)), (Z.eqb_spec x mx) as [->|]; try lia.
  - rewrite Z.sub_diag. done.
  - replace (mx - x) with (Z.succ (mx - (x + 1))) by lia. rewrite Z.pow_succ_r by lia. lia.
Qed.

Lemma kraft_leaves : 2 * zsum (fun q => 2 ^ (mx - L q)) leaves = 2 * 2 ^ mx + ov.
Proof.
  assert (HQ1 : zsum (fun q => 2 * 2 ^ (mx - L q)) Q = zsum (fun q => 2 ^ (mx - L (dad T0 q)) + (if L (dad T0 q) =? mx then 1 else 0)) Q).
  { apply zsum_ext. intros q Hq. rewrite (li_clip _ _ _ _ I q Hq). apply clip_weight. apply (li_range _ _ _ _ I), (li_dad _ _ _ _ I), Hq. }
  rewrite zsum_add, zsum_scale, (sum_dads (fun p => 2 ^ (mx - L p))) in HQ1. fold (zcount (fun q => L (dad T0 q) =? mx) Q) in HQ1.
  rewrite <- (li_ov _ _ _ _ I) in HQ1.
  pose proof (sum_nodes (fun q => 2 ^ (mx - L q))) as Hs. cbv beta in Hs. rewrite (li_root _ _ _ _ I), Z.sub_0_r in Hs. lia.
Qed.

(** The counts are those of the leaves. *)
Lemma count_leaves (p : Z -> bool) : zcount (fun q => leaf q && p q) Q = zcount p leaves.
Proof.
  pose proof (sum_nodes (fun q => if leaf q && p q then 1 else 0)) as Hs. cbv beta in Hs. rewrite (Hi_inner root Hroot) in Hs. cbn [andb] in Hs.
  assert (E1 : zsum (fun q => if leaf q && p q then 1 else 0) leaves = zcount p leaves).
  { apply zcount_ext. intros x Hx. by rewrite Hl_leaf. }
  assert (E2 : zsum (fun q => if leaf q && p q then 1 else 0) inner = 0).
  { rewrite (zsum_ext _ (fun _ => 0 * 0)); [rewrite zsum_scale; lia|]. intros x Hx. by rewrite Hi_inner. }
  unfold zcount at 1. lia.
Qed.

Lemma leaf_in q : q ∈ leaves -> q ∈ Q.
Proof.
  clear Hdesc Hnd Hin Horder Hleaf HQ Hdads I.
  intros Hq. assert (q ∈ root :: Q) as Hin' by (rewrite Hnodes; set_solver). rewrite elem_of_cons in Hin'. destruct Hin' as [->|]; [|done].
  apply Hl_leaf in Hq. rewrite (Hi_inner root Hroot) in Hq. done.
Qed.

(** The limit is reached by enough leaves: at least half of the nodes that are beyond it are leaves. *)
Lemma long_leaves : ov <= 2 * zcount (fun q => L q =? mx) leaves.
Proof.
  clear Hdesc Hnd Hin Horder Hleaf HQ.
  assert (H1 := li_ov _ _ _ _ I). assert (H2 := overflow_even). set (p := fun q => L (dad T0 q) =? mx) in *. fold p in H1.
  assert (Hp : forall q, q ∈ Q -> p q = true -> (L q =? mx) = true).
  { intros q Hq Hpq. unfold p in Hpq. rewrite (li_clip _ _ _ _ I q Hq). unfold clip. rewrite Z.gtb_ltb. destruct (Z.ltb_spec mx (L (dad T0 q) + 1)); lia. }
  assert (H3 : zcount p Q <= zcount (fun q => leaf q && (L q =? mx)) Q + zcount (fun q => negb (leaf q) && p q) Q).
  { unfold zcount. rewrite <- zsum_add. cut (forall l, (forall q, q ∈ l -> q ∈ Q) ->
      zsum (fun x => if p x then 1 else 0) l <= zsum (fun x => (if leaf x && (L x =? mx) then 1 else 0) + (if negb (leaf x) && p x then 1 else 0)) l); [auto|].
    induction l as [|x l IH]; intros Hl; [done|]. rewrite !zsum_cons. specialize (IH ltac:(set_solver)). specialize (Hp x ltac:(set_solver)).
    destruct (p x); [rewrite Hp by done|]; destruct (leaf x); cbn [negb andb]; try (destruct (L x =? mx)); lia. }
  rewrite count_leaves in H3.
  assert (H4 : zcount (fun q => negb (leaf q) && p q) Q <= zcount (fun q => L q =? mx) inner).
  { pose proof (sum_nodes (fun q => if negb (leaf q) && (L q =? mx) then 1 else 0)) as Hs. cbv beta in Hs.
    assert (E1 : zsum (fun q => if negb (leaf q) && (L q =? mx) then 1 else 0) leaves = 0).
    { rewrite (zsum_ext _ (fun _ => 0 * 0)); [rewrite zsum_scale; lia|]. intros x Hx. by rewrite Hl_leaf. }
    assert (E2 : zsum (fun q => if negb (leaf q) && (L q =? mx) then 1 else 0) inner = zcount (fun q => L q =? mx) inner).
    { apply zcount_ext. intros x Hx. by rewrite Hi_inner. }
    assert (E3 : zcount (fun q => negb (leaf q) && p q) Q <= zcount (fun q => negb (leaf q) && (L q =? mx)) Q).
    { apply zcount_mono. intros x Hx. specialize (Hp x Hx). destruct (leaf x); cbn; auto. }
    unfold zcount in E3 at 2. destruct (negb (leaf root) && (L root =? mx)); lia. }
  lia.
Qed.
End kraft.
End lens.
