(* ===== verification/TreesOverflow.v ===== *)
(** The correction of lengths beyond the limit in [gen_bitlen()]: the counts are changed until the code is complete,
    then the leaves get their lengths again. *)
From stdpp Require Import sets.
From S2P Require Import Prelude Record TreesTables Trees TreesBuild TreesLens.

Definition cget (count : list Z) (b : Z) : Z := match aget count b with Some c => c | None => 0 end.

Lemma cget_Some count b : 0 <= b < Z.of_nat (length count) -> aget count b = Some (cget count b).
Proof. intros Hb. unfold cget. by destruct (aget_in count b Hb) as [c ->]. Qed.

Lemma add_count_ok count b k :
  0 <= b < Z.of_nat (length count) -> 0 <= cget count b + k < 2 ^ 16 ->
  exists count', add_count count b k = Some count' /\ length count' = length count /\
    forall i, cget count' i = cget count i + (if i =? b then k else 0).
Proof.
  intros Hb Hk. unfold add_count. rewrite cget_Some by done. cbn [mbind option_bind]. rewrite aset_in by done. eexists. split; [done|].
  split; [apply length_insert|]. intros i. rewrite u16_small by done. unfold cget at 1. rewrite aget_insert by done.
  destruct (Z.eqb_spec i b) as [->|]; [done|]. fold (cget count i). lia.
Qed.

(** Changing one term of a sum. *)
Lemma zsum_single (g : Z -> Z) b l : NoDup l -> zsum (fun i => if i =? b then g i else 0) l = if bool_decide (b ∈ l) then g b else 0.
Proof.
  induction 1 as [|x l Hx Hl IH]; [done|]. rewrite zsum_cons, IH. destruct (Z.eqb_spec x b) as [->|Hne].
  - rewrite (bool_decide_true (b ∈ b :: l)) by set_solver. rewrite bool_decide_false by done. lia.
  - destruct (decide (b ∈ l)); [rewrite !bool_decide_true by set_solver|rewrite !bool_decide_false by set_solver]; lia.
Qed.

Section counts.
Context (max : Z) (Hmax : 1 <= max <= 15).
Notation range := (seqZ 1 max).

(** The weight of the code and the number of its symbols. *)
Definition cweight (count : list Z) : Z := zsum (fun b => cget count b * 2 ^ (max - b)) range.
Definition ctotal (count : list Z) : Z := zsum (cget count) range.

Lemma add_sums count count' b k :
  1 <= b <= max -> (forall i, cget count' i = cget count i + (if i =? b then k else 0)) ->
  cweight count' = cweight count + k * 2 ^ (max - b) /\ ctotal count' = ctotal count + k.
Proof.
  intros Hb H. assert (Hin : b ∈ range) by (rewrite elem_of_seqZ; lia). unfold cweight, ctotal. split.
  - rewrite (zsum_ext _ (fun i => cget count i * 2 ^ (max - i) + (if i =? b then k * 2 ^ (max - i) else 0))).
    + by rewrite zsum_add, (zsum_single (fun i => k * 2 ^ (max - i))), bool_decide_true by (done || apply NoDup_seqZ).
    + intros i _. rewrite H. destruct (i =? b); lia.
  - rewrite (zsum_ext _ (fun i => cget count i + (if i =? b then k else 0))) by auto.
    by rewrite zsum_add, (zsum_single (fun _ => k)), bool_decide_true by (done || apply NoDup_seqZ).
Qed.

Lemma find_bits_ok fuel : forall count b0 b,
  (forall i, 0 <= cget count i) -> 1 <= b <= b0 -> cget count b <> 0 -> b0 < Z.of_nat (length count) -> b0 - b < Z.of_nat fuel ->
  exists b', find_bits fuel count b0 = Some b' /\ 1 <= b' <= b0 /\ 0 < cget count b'.
Proof.
  induction fuel as [|fuel IH]; intros count b0 b Hn Hb Hc Hl Hf; [lia|]. cbn [find_bits]. rewrite cget_Some by lia. cbn [mbind option_bind].
  specialize (Hn b0) as Hn0. destruct (Z.eqb_spec (cget count b0) 0) as [E|E].
  - assert (b <> b0) by congruence. destruct (IH count (b0 - 1) b) as (b' & -> & Hb' & Hc'); [done|lia|done|lia|lia|]. exists b'. split; [done|]. split; [lia|done].
  - exists b0. split; [done|]. lia.
Qed.

Lemma range_last : range = seqZ 1 (max - 1) ++ [max].
Proof. replace max with (max - 1 + 1) at 1 by lia. rewrite seqZ_app by lia. f_equal. by replace (1 + (max - 1)) with max by lia. Qed.

(** A code heavier than a complete one, with few symbols, has one below the limit. *)
Lemma short_exists count :
  (forall i, 0 <= cget count i) -> ctotal count < cweight count -> exists b, 1 <= b <= max - 1 /\ cget count b <> 0.
Proof.
  intros Hn Hlt. destruct (forallb (fun b => cget count b =? 0) (seqZ 1 (max - 1))) eqn:E.
  - exfalso. rewrite forallb_forall in E. unfold ctotal, cweight in Hlt. rewrite range_last, !zsum_app in Hlt.
    assert (H0 : forall b, b ∈ seqZ 1 (max - 1) -> cget count b = 0).
    { intros b Hb. apply Z.eqb_eq. apply E. by apply list_elem_of_In. }
    rewrite (zsum_ext (cget count) (fun _ => 0 * 0) (seqZ 1 (max - 1))) in Hlt by auto.
    rewrite (zsum_ext (fun b => cget count b * 2 ^ (max - b)) (fun _ => 0 * 0) (seqZ 1 (max - 1))) in Hlt by (intros b Hb; by rewrite H0).
    rewrite !zsum_scale, !zsum_cons, Z.sub_diag in Hlt. cbn in Hlt. lia.
  - assert (exists b, b ∈ seqZ 1 (max - 1) /\ (cget count b =? 0) = false) as (b & Hb & Hc).
    { revert E. generalize (seqZ 1 (max - 1)). induction l as [|x l IH]; [done|]. cbn. destruct (cget count x =? 0) eqn:Ex; cbn.
      - intros E. destruct (IH E) as (b & Hb & Hc). exists b. split; [set_solver|done].
      - intros _. exists x. split; [set_solver|done]. }
    exists b. rewrite elem_of_seqZ in Hb. split; [lia|]. lia.
Qed.

Lemma ctotal_bound count b : (forall i, 0 <= cget count i) -> 1 <= b <= max -> cget count b <= ctotal count.
Proof.
  intros Hn Hb. unfold ctotal. assert (b ∈ range) as Hin by (rewrite elem_of_seqZ; lia). apply list_elem_of_split in Hin as (l1 & l2 & ->).
  rewrite zsum_app, zsum_cons. assert (0 <= zsum (cget count) l1) by (by apply zsum_nonneg). assert (0 <= zsum (cget count) l2) by (by apply zsum_nonneg). lia.
Qed.

Lemma overflow_loop_ok fuel : forall count e,
  length count = 16%nat -> (forall i, 0 <= cget count i) -> 1 <= e <= Z.of_nat fuel -> cweight count = 2 ^ max + e ->
  ctotal count < 2 ^ max -> e <= cget count max ->
  exists count', overflow_loop fuel max count (2 * e) = Some count' /\ length count' = 16%nat /\ (forall i, 0 <= cget count' i) /\
    cweight count' = 2 ^ max /\ ctotal count' = ctotal count /\ forall i, i < 1 \/ max < i -> cget count' i = cget count i.
Proof.
  induction fuel as [|fuel IH]; intros count e Hl Hn He Hw Ht Hm; [lia|]. cbn [overflow_loop].
  assert (2 ^ max <= 2 ^ 15) by (apply Z.pow_le_mono_r; lia).
  destruct (short_exists count Hn ltac:(lia)) as (b0 & Hb0 & Hc0).
  destruct (find_bits_ok (S (Z.to_nat max)) count (max - 1) b0 Hn Hb0 Hc0 ltac:(lia) ltac:(lia)) as (b & -> & Hb & Hc). cbn [mbind option_bind].
  assert (B1 := ctotal_bound count b Hn ltac:(lia)). assert (B2 := ctotal_bound count (b + 1) Hn ltac:(lia)). assert (B3 := ctotal_bound count max Hn ltac:(lia)).
  destruct (add_count_ok count b (-1) ltac:(lia) ltac:(lia)) as (c1 & -> & L1 & G1). cbn [mbind option_bind].
  assert (Hg1 : cget c1 (b + 1) = cget count (b + 1)) by (rewrite G1; destruct (Z.eqb_spec (b + 1) b); lia).
  assert (Hn1 := Hn (b + 1)).
  destruct (add_count_ok c1 (b + 1) 2 ltac:(lia) ltac:(lia)) as (c2 & -> & L2 & G2). cbn [mbind option_bind].
  assert (Hg2 : cget c2 max = cget count max + (if max =? b + 1 then 2 else 0)).
  { rewrite G2, G1. destruct (Z.eqb_spec max b); lia. }
  destruct (add_count_ok c2 max (-1)) as (c3 & -> & L3 & G3); [lia|rewrite Hg2; destruct (max =? b + 1); lia|]. cbn [mbind option_bind].
  destruct (add_sums count c1 b (-1) ltac:(lia) G1) as [W1 T1]. destruct (add_sums c1 c2 (b + 1) 2 ltac:(lia) G2) as [W2 T2].
  destruct (add_sums c2 c3 max (-1) ltac:(lia) G3) as [W3 T3]. rewrite Z.sub_diag in W3. change (2 ^ 0) with 1 in W3.
  assert (Hp : 2 ^ (max - b) = 2 * 2 ^ (max - (b + 1))) by (rewrite <- Z.pow_succ_r by lia; f_equal; lia).
  assert (Hn3 : forall i, 0 <= cget c3 i).
  { intros i. rewrite G3, G2, G1. specialize (Hn i). destruct (Z.eqb_spec i max) as [->|];
      [destruct (Z.eqb_spec max (b + 1)), (Z.eqb_spec max b)|destruct (Z.eqb_spec i (b + 1)), (Z.eqb_spec i b) as [->|]]; lia. }
  assert (Hout : forall i, i < 1 \/ max < i -> cget c3 i = cget count i).
  { intros i Hi. rewrite G3, G2, G1. destruct (Z.eqb_spec i max), (Z.eqb_spec i (b + 1)), (Z.eqb_spec i b); lia. }
  rewrite Z.gtb_ltb. destruct (Z.ltb_spec 0 (2 * e - 2)).
  - replace (2 * e - 2) with (2 * (e - 1)) by lia. destruct (IH c3 (e - 1)) as (c' & -> & Lc & Nc & Wc & Tc & Oc); try lia.
    + done.
    + rewrite G3, Z.eqb_refl, Hg2. destruct (max =? b + 1); lia.
    + exists c'. split; [done|]. split; [done|]. split; [done|]. split; [done|]. split; [lia|]. intros i Hi. rewrite Oc by done. by apply Hout.
  - exists c3. split; [done|]. split; [lia|]. split; [done|]. split; [lia|]. split; [lia|done].
Qed.
End counts.

(** ** The lengths again *)
Section relens.
Context (max_code : Z) (len0 : nat).
Notation leaf := (leaf max_code).

(** [tree'] is [tree] with the lengths of the leaves in [B] set to [bits]. *)
Definition relabelled (tree tree' : list ct_data) (B : list Z) (bits : Z) : Prop :=
  length tree' = length tree /\ (forall i, i ∈ B -> leaf i = true -> dad tree' i = bits) /\
  (forall i, i ∉ B \/ leaf i = false -> aget tree' i = aget tree i).

Lemma relen_loop_ok fuel : forall A pre post heap bits n tree opt_len,
  heap = pre ++ A ++ post -> 0 <= n <= zcount leaf A -> (length A < fuel)%nat -> 0 <= bits < 2 ^ 16 -> NoDup A ->
  (forall i, i ∈ A -> 0 <= i < Z.of_nat (length tree)) ->
  exists A' B tree' o, relen_loop fuel max_code heap bits n (Z.of_nat (length pre + length A)) tree opt_len =
      Some (tree', o, Z.of_nat (length pre + length A')) /\
    A = A' ++ B /\ zcount leaf B = n /\ relabelled tree tree' B bits.
Proof.
  induction fuel as [|fuel IH]; intros A pre post heap bits n tree opt_len Eh Hn Hf Hb HA Hin; [lia|]. cbn [relen_loop].
  destruct (Z.eqb_spec n 0) as [->|Hne].
  { eexists A, [], tree, opt_len. split; [done|]. rewrite app_nil_r. split; [done|]. split; [done|]. split; [done|]. split; [set_solver|done]. }
  destruct (exists_last (l := A)) as (A0 & m & ->); [intros ->; cbn in Hn; lia|]. rewrite length_app in Hf |- *. cbn [length] in *.
  replace (Z.of_nat (length pre + (length A0 + 1)) - 1) with (Z.of_nat (length (pre ++ A0))) by (rewrite length_app; lia).
  assert (Eg : aget heap (Z.of_nat (length (pre ++ A0))) = Some m).
  { rewrite Eh. replace (pre ++ (A0 ++ [m]) ++ post) with ((pre ++ A0) ++ m :: post) by (rewrite <- !app_assoc; done). apply aget_middle. }
  rewrite Eg. cbn [mbind option_bind]. rewrite zcount_app, zcount_cons in Hn. change (zcount leaf []) with 0 in Hn.
  apply list.NoDup_app in HA as (HA & Hm & _). rewrite length_app.
  assert (IH' := fun n' tree' o' => IH A0 pre (m :: post) heap bits n' tree' o' ltac:(by rewrite Eh, <- !app_assoc)). clear IH.
  assert (Em' : leaf m = negb (m >? max_code)) by done. rewrite Em' in Hn. destruct (m >? max_code) eqn:Em; cbn [negb] in Hn, Em'.
  - destruct (IH' n tree opt_len) as (A' & B & tree' & o & -> & -> & C & L1 & L2 & L3); [lia|lia|done|done|set_solver|].
    exists A', (B ++ [m]), tree', o. split; [done|]. split; [by rewrite app_assoc|]. split.
    { rewrite zcount_app, zcount_cons, Em'. change (zcount leaf []) with 0. lia. }
    split; [done|]. split; [|set_solver]. intros i. rewrite elem_of_app, list_elem_of_singleton. intros [Hi| ->]; [by apply L2|].
    congruence.
  - assert (Hlm : leaf m = true) by done.
    destruct (aget_in tree m) as [e Ee]; [apply Hin; set_solver|]. rewrite Ee. cbn [mbind option_bind].
    destruct (aget_set_dl tree m bits e Ee) as (tree1 & E1 & L1 & G1). rewrite u16_small in G1 by done.
    assert (Hfin : forall A' B tree' tree2, A0 = A' ++ B -> zcount leaf B = n - 1 -> relabelled tree2 tree' B bits ->
      length tree2 = length tree -> (forall i, aget tree2 i = if i =? m then Some (CtData (fc e) bits) else aget tree i) ->
      zcount leaf (B ++ [m]) = n /\ relabelled tree tree' (B ++ [m]) bits).
    { intros A' B tree' tree2 EA C (M1 & M2 & M3) L2 G2. split.
      { rewrite zcount_app, zcount_cons, Hlm. change (zcount leaf []) with 0. lia. }
      split; [lia|]. split.
      - intros i. rewrite elem_of_app, list_elem_of_singleton. intros [Hi| ->] Hl; [by apply M2|].
        assert (m ∉ B) by (intros HmB; apply (Hm m); [rewrite EA|]; set_solver). unfold dad. rewrite M3 by (by left). by rewrite G2, Z.eqb_refl.
      - intros i Hi. rewrite M3 by set_solver. rewrite G2. destruct (Z.eqb_spec i m) as [->|]; [|done]. destruct Hi as [Hi|Hi]; [set_solver|congruence]. }
    destruct (Z.eqb_spec (dl e) bits) as [Edl|Edl].
    + destruct (IH' (n - 1) tree opt_len) as (A' & B & tree' & o & -> & EA & C & R); [lia|lia|done|done|set_solver|].
      destruct (Hfin A' B tree' tree EA C R eq_refl) as [C' R'].
      { intros i. destruct (Z.eqb_spec i m) as [->|]; [|done]. rewrite Ee. subst bits. by destruct e. }
      exists A', (B ++ [m]), tree', o. rewrite EA, <- app_assoc. done.
    + rewrite E1. cbn [mbind option_bind].
      destruct (IH' (n - 1) tree1 (u32 (opt_len + (bits - dl e) * fc e))) as (A' & B & tree' & o & -> & EA & C & R); [lia|lia|done|done|rewrite L1; set_solver|].
      destruct (Hfin A' B tree' tree1 EA C R L1 G1) as [C' R']. exists A', (B ++ [m]), tree', o. rewrite EA, <- app_assoc. done.
Qed.

Lemma relens_loop_ok bits : forall A pre post heap count tree opt_len,
  heap = pre ++ A ++ post -> (length A <= Z.to_nat HEAP_SIZE)%nat -> (bits <= 15)%nat -> NoDup A ->
  (forall i, i ∈ A -> 0 <= i < Z.of_nat (length tree)) -> length count = 16%nat -> (forall i, 0 <= cget count i) ->
  zcount leaf A = zsum (cget count) (seqZ 1 (Z.of_nat bits)) ->
  exists tree' o, relens_loop bits max_code heap count (Z.of_nat (length pre + length A)) tree opt_len = Some (tree', o) /\
    length tree' = length tree /\ (forall i, i ∉ A \/ leaf i = false -> aget tree' i = aget tree i) /\
    (forall i, i ∈ A -> leaf i = true -> 1 <= dad tree' i <= Z.of_nat bits) /\
    (forall b, 1 <= b <= Z.of_nat bits -> zcount (fun q => leaf q && (dad tree' q =? b)) A = cget count b).
Proof.
  induction bits as [|bits IH]; intros A pre post heap count tree opt_len Eh HA Hb Hnd Hin Hl Hn Hc.
  { exists tree, opt_len. split; [done|]. split; [done|]. split; [done|]. split; [|lia]. intros i Hi Hli. exfalso.
    change (zsum (cget count) (seqZ 1 (Z.of_nat 0))) with 0 in Hc. apply list_elem_of_split in Hi as (l1 & l2 & ->).
    rewrite zcount_app, zcount_cons, Hli in Hc. pose proof (zcount_nonneg leaf l1). pose proof (zcount_nonneg leaf l2). lia. }
  unfold relens_loop; fold relens_loop. rewrite cget_Some by lia. cbn [mbind option_bind].
  assert (Er : seqZ 1 (Z.of_nat (S bits)) = seqZ 1 (Z.of_nat bits) ++ [Z.of_nat (S bits)]).
  { replace (Z.of_nat (S bits)) with (Z.of_nat bits + 1) by lia. rewrite seqZ_app by lia. f_equal. by replace (1 + Z.of_nat bits) with (Z.of_nat bits + 1) by lia. }
  rewrite Er, zsum_app, zsum_cons in Hc. change (zsum (cget count) []) with 0 in Hc.
  assert (Hn0 : 0 <= zsum (cget count) (seqZ 1 (Z.of_nat bits))) by (apply zsum_nonneg; auto). assert (Hn1 := Hn (Z.of_nat (S bits))).
  destruct (relen_loop_ok (S (Z.to_nat HEAP_SIZE)) A pre post heap (Z.of_nat (S bits)) (cget count (Z.of_nat (S bits))) tree opt_len)
    as (A' & B & tree1 & o1 & -> & EA & CB & L1 & M1 & S1); [done|lia|lia|lia|done|done|]. cbn [mbind option_bind].
  rewrite EA in Hc, Hnd. rewrite zcount_app in Hc. apply list.NoDup_app in Hnd as (HndA & Hdis & HndB).
  destruct (IH A' pre (B ++ post) heap count tree1 o1) as (tree2 & o2 & -> & L2 & S2 & R2 & C2); try done; try lia.
  { rewrite Eh, EA. by rewrite <- !app_assoc. }
  { rewrite EA, length_app in HA. lia. }
  { intros i Hi. rewrite L1. apply Hin. rewrite EA. set_solver. }
  exists tree2, o2. split; [done|]. split; [lia|].
  assert (DB : forall i, i ∈ B -> leaf i = true -> dad tree2 i = Z.of_nat (S bits)).
  { intros i Hi Hli. unfold dad. rewrite S2 by (left; intros HiA; by apply (Hdis i)). fold (dad tree1 i). by apply M1. }
  split; [|split].
  - intros i Hi. rewrite S2, S1; [done|rewrite EA in Hi; set_solver..].
  - intros i. rewrite EA, elem_of_app. intros [Hi|Hi] Hli; [apply R2 in Hi; [lia|done]|rewrite DB by done; lia].
  - intros b Hbb. rewrite EA, zcount_app. destruct (Z.eq_dec b (Z.of_nat (S bits))) as [->|Hne].
    + rewrite (zcount_none _ A') by (intros x Hx; destruct (leaf x) eqn:Ex; [|done]; specialize (R2 x Hx Ex); apply Z.eqb_neq; lia).
      rewrite (zcount_ext _ leaf B), CB; [lia|]. intros x Hx. destruct (leaf x) eqn:Ex; [rewrite DB by done; by rewrite Z.eqb_refl|done].
    + rewrite C2 by lia. rewrite (zcount_none _ B); [lia|]. intros x Hx. destruct (leaf x) eqn:Ex; [|done]. rewrite DB by done. apply Z.eqb_neq. lia.
Qed.
End relens.
