(* ===== verification/TreesBitlen.v ===== *)
(** [gen_bitlen()] as a whole: complete lengths within the limit, and their counts. *)
From stdpp Require Import sets.
From S2P Require Import Prelude Record Bits Huffman TreesTables Trees TreesHeap TreesCodes TreesBuild.
From S2P Require Import TreesLens TreesOverflow.

(** A sum over elements, by the values of a function on them. *)
Lemma zsum_buckets (f L : Z -> Z) (m : Z) (l : list Z) :
  (forall x, x ∈ l -> 1 <= L x <= m) -> zsum (fun x => f (L x)) l = zsum (fun b => zcount (fun x => L x =? b) l * f b) (seqZ 1 m).
Proof.
  induction l as [|x l IH]; intros H.
  - rewrite (zsum_ext (fun b => zcount (fun x => L x =? b) [] * f b) (fun _ => 0 * 0)) by (intros b _; reflexivity). by rewrite zsum_scale.
  - rewrite zsum_cons, IH by (intros y Hy; apply H; by right).
    rewrite (zsum_ext (fun b => zcount (fun y => L y =? b) (x :: l) * f b) (fun b => (if b =? L x then f b else 0) + zcount (fun y => L y =? b) l * f b)).
    + rewrite zsum_add, (zsum_single f), bool_decide_true; [done|rewrite elem_of_seqZ; specialize (H x ltac:(by left)); lia|apply NoDup_seqZ].
    + intros b _. rewrite zcount_cons, (Z.eqb_sym (L x)). destruct (b =? L x); lia.
Qed.

Lemma zcount_all {A} (p : A -> bool) l : (forall x, x ∈ l -> p x = true) -> zcount p l = Z.of_nat (length l).
Proof.
  induction l as [|x l IH]; intros H; [done|]. rewrite zcount_cons, (H x), IH; [cbn [length]; lia| |by left]. intros y Hy. apply H. by right.
Qed.

(** The lengths of a complete code and their counts. *)
Record complete_lens (mx : Z) (leaves : list Z) (L : Z -> Z) (count : list Z) : Prop := {
  cl_range : forall q, q ∈ leaves -> 1 <= L q <= mx;
  cl_size : length count = 16%nat;
  cl_count : forall l, 0 <= l <= 15 -> aget count l = Some (zcount (fun q => L q =? l) leaves);
  cl_kraft : zsum (fun q => 2 ^ (mx - L q)) leaves = 2 ^ mx }.

Section bitlen.
Context (desc : static_tree_desc) (Hdesc : desc_ok desc) (max_code : Z) (T0 : list ct_data) (root : Z) (Q : list Z).
Context (Hnd : NoDup (root :: Q)) (Hin : forall i, i ∈ root :: Q -> 0 <= i < Z.of_nat (length T0)).
Context (Horder : forall Q1 q Q2, Q = Q1 ++ q :: Q2 -> dad T0 q ∈ root :: Q1).
Context (Hleaf : forall q, q ∈ Q -> q <= max_code -> q < elems desc).
Context (leaves inner : list Z).
Context (Hnodes : root :: Q ≡ₚ leaves ++ inner) (Hdads : (dad T0 <$> Q) ≡ₚ inner ++ inner).
Context (Hl_leaf : forall i, i ∈ leaves -> leaf max_code i = true) (Hi_inner : forall i, i ∈ inner -> leaf max_code i = false).
Context (Hroot : root ∈ inner) (Hlv : Z.of_nat (length leaves) <= elems desc).
Context (heap pre : list Z) (Hheap : heap = pre ++ root :: Q) (Hsize : Z.of_nat (length heap) = HEAP_SIZE).

(** Counting the leaves among all nodes. *)
Lemma count_nodes (p : Z -> bool) : zcount (fun q => leaf max_code q && p q) (root :: Q) = zcount p leaves.
Proof.
  rewrite (zcount_perm _ _ _ Hnodes), zcount_app, (zcount_none _ inner), Z.add_0_r by (intros x Hx; by rewrite Hi_inner).
  apply zcount_ext. intros x Hx. by rewrite Hl_leaf.
Qed.

(** The second phase, from lengths that are cut off at the limit. *)
Lemma correct_lens b ov :
  lens_inv desc max_code T0 root Q Q [] b ov -> ov <> 0 ->
  exists count tree o, overflow_loop (Z.to_nat ov) (max_length desc) (b_count b) ov = Some count /\
    relens_loop (Z.to_nat (max_length desc)) max_code heap count HEAP_SIZE (b_tree b) (b_opt_len b) = Some (tree, o) /\
    length tree = length T0 /\ (forall i, i ∉ root :: Q -> aget tree i = aget T0 i) /\ complete_lens (max_length desc) leaves (dad tree) count.
Proof.
  intros I Hov. assert (Hmx := dk_max _ Hdesc). assert (Hfew := dk_few _ Hdesc). set (mx := max_length desc) in *.
  assert (E := overflow_even desc max_code T0 root Q inner Hdads b ov I). change (TreesLens.mx desc) with mx in E.
  assert (He := zcount_nonneg (fun p => dad (b_tree b) p =? mx) inner). set (e := zcount _ inner) in *.
  assert (K := kraft_leaves desc max_code T0 root Q leaves inner Hnodes Hdads b ov I).
  assert (B := long_leaves desc max_code T0 root Q leaves inner Hnodes Hdads Hl_leaf Hi_inner Hroot b ov I). change (TreesLens.mx desc) with mx in K, B.
  assert (Cl := count_leaves max_code root Q leaves inner Hnodes Hl_leaf Hi_inner Hroot).
  assert (HL : forall q, q ∈ leaves -> 1 <= dad (b_tree b) q <= mx).
  { intros q Hq. assert (HqQ := leaf_in max_code root Q leaves inner Hnodes Hl_leaf Hi_inner Hroot q Hq).
    rewrite (li_clip _ _ _ _ _ _ _ _ _ I q HqQ). apply (clip_range desc Hdesc). apply (li_range _ _ _ _ _ _ _ _ _ I), (li_dad _ _ _ _ _ _ _ _ _ I), HqQ. }
  assert (Hc : forall l, 0 <= l <= 15 -> cget (b_count b) l = zcount (fun q => dad (b_tree b) q =? l) leaves).
  { intros l Hl. unfold cget. rewrite (li_cnt _ _ _ _ _ _ _ _ _ I l Hl). apply Cl. }
  assert (Hn : forall i, 0 <= cget (b_count b) i).
  { intros i. destruct (Z.le_gt_cases 0 i); [destruct (Z.le_gt_cases i 15)|].
    - rewrite Hc by lia. apply zcount_nonneg.
    - unfold cget. destruct (aget (b_count b) i) eqn:Ei; [|lia]. apply aget_Some in Ei. rewrite (li_size _ _ _ _ _ _ _ _ _ I) in Ei. lia.
    - unfold cget. destruct (aget (b_count b) i) eqn:Ei; [|lia]. apply aget_Some in Ei. lia. }
  assert (Hr : forall i, i ∈ seqZ 1 mx -> cget (b_count b) i = zcount (fun q => dad (b_tree b) q =? i) leaves) by (intros i; rewrite elem_of_seqZ; intros; apply Hc; lia).
  assert (W : cweight mx (b_count b) = zsum (fun q => 2 ^ (mx - dad (b_tree b) q)) leaves).
  { rewrite (zsum_buckets (fun l => 2 ^ (mx - l)) (dad (b_tree b)) mx) by done. apply zsum_ext. intros i Hi. by rewrite Hr. }
  assert (T : ctotal mx (b_count b) = Z.of_nat (length leaves)).
  { rewrite <- (zcount_all (fun _ => true) leaves) by done. unfold ctotal, zcount at 1.
    rewrite (zsum_buckets (fun _ => 1) (dad (b_tree b)) mx) by done. apply zsum_ext. intros i Hi. rewrite Hr by done. lia. }
  rewrite E. destruct (overflow_loop_ok mx Hmx (Z.to_nat (2 * e)) (b_count b) e) as (count & -> & Lc & Nc & Wc & Tc & Oc).
  { apply (li_size _ _ _ _ _ _ _ _ _ I). } { done. } { lia. } { lia. } { lia. } { rewrite Hc by lia. lia. }
  exists count.
  assert (Hsz := Hsize). rewrite Hheap, length_app in Hsz.
  destruct (relens_loop_ok max_code (Z.to_nat mx) (root :: Q) pre [] heap count (b_tree b) (b_opt_len b)) as (tree & o & Er & Lt & St & Rt & Ct).
  { by rewrite app_nil_r. } { lia. } { lia. } { done. } { rewrite (li_len _ _ _ _ _ _ _ _ _ I). done. } { done. } { done. }
  { rewrite Z2Nat.id by lia. fold (ctotal mx count). rewrite Tc, T.
    rewrite (zcount_ext _ (fun q => leaf max_code q && true)) by (intros; by rewrite andb_true_r). rewrite count_nodes. by apply zcount_all. }
  rewrite Z2Nat.id in Rt, Ct by lia. replace (Z.of_nat (length pre + length (root :: Q))) with HEAP_SIZE in Er by lia.
  exists tree, o. split; [done|]. split; [done|]. split; [rewrite Lt; apply (li_len _ _ _ _ _ _ _ _ _ I)|]. split.
  { intros i Hi. rewrite St by (by left). by apply (li_other _ _ _ _ _ _ _ _ _ I). }
  assert (Rl : forall q, q ∈ leaves -> 1 <= dad tree q <= mx).
  { intros q Hq. apply Rt; [|by apply Hl_leaf]. rewrite Hnodes. set_solver. }
  assert (Cr : forall i, i ∈ seqZ 1 mx -> cget count i = zcount (fun q => dad tree q =? i) leaves).
  { intros i. rewrite elem_of_seqZ. intros Hi. rewrite <- Ct by lia. apply count_nodes. }
  split; [done|done| |].
  - intros l Hl. rewrite cget_Some by lia. f_equal. destruct (decide (l ∈ seqZ 1 mx)) as [Hd|Hd]; [by apply Cr|]. rewrite elem_of_seqZ in Hd.
    rewrite Oc, Hc by lia. rewrite !zcount_none; [done| |]; intros q Hq; apply Z.eqb_neq; [specialize (Rl q Hq)|specialize (HL q Hq)]; lia.
  - rewrite <- Wc. unfold cweight. rewrite (zsum_buckets (fun l => 2 ^ (mx - l)) (dad tree) mx) by done. apply zsum_ext. intros i Hi. by rewrite Cr.
Qed.

Lemma gen_bitlen_ok opt_len static_len :
  exists b, gen_bitlen desc max_code heap (Z.of_nat (length pre)) T0 opt_len static_len = Some b /\
    length (b_tree b) = length T0 /\ (forall i, i ∉ root :: Q -> aget (b_tree b) i = aget T0 i) /\
    complete_lens (max_length desc) leaves (dad (b_tree b)) (b_count b).
Proof.
  unfold gen_bitlen. assert (Eg : aget heap (Z.of_nat (length pre)) = Some root) by (rewrite Hheap; apply aget_middle). rewrite Eg. cbn [mbind option_bind].
  destruct (aget_in T0 root) as [e Ee]; [apply Hin; set_solver|].
  destruct (aget_set_dl T0 root 0 e Ee) as (tree1 & -> & L1 & G1). change (u16 0) with 0 in G1. cbn [mbind option_bind].
  assert (Hsz := Hsize). rewrite Hheap, length_app in Hsz. cbn [length] in Hsz. assert (Hmx := dk_max _ Hdesc).
  assert (HQ : Z.of_nat (length Q) < 2 ^ 16) by (unfold HEAP_SIZE, L_CODES, LITERALS, LENGTH_CODES in Hsz; lia).
  assert (I0 : lens_inv desc max_code T0 root Q [] Q (Bitlens tree1 (replicate 16 0) opt_len static_len) 0).
  { split; cbn [b_tree b_count]; try done; try (intros p Hp; by apply not_elem_of_nil in Hp).
    - intros q Hq. apply (dad_set_other T0 tree1 root _ q G1). intros ->. apply list.NoDup_cons in Hnd as [? _]. done.
    - unfold dad. by rewrite G1, Z.eqb_refl.
    - intros p. rewrite list_elem_of_singleton. intros ->. unfold dad. rewrite G1, Z.eqb_refl. cbn [dl]. unfold mx. lia.
    - intros l Hl. change (zcount _ []) with 0. unfold aget. destruct (Z.leb_spec 0 l); [|lia]. apply lookup_replicate. lia.
    - intros i Hi. rewrite G1. destruct (Z.eqb_spec i root) as [->|]; [set_solver|done]. }
  destruct (bitlen_loop_ok desc Hdesc max_code T0 root Q Hnd Hin Horder Hleaf HQ Q (S (Z.to_nat HEAP_SIZE)) [] (pre ++ [root]) heap _ 0 eq_refl
    ltac:(by rewrite Hheap, <- app_assoc) Hsize ltac:(lia) I0) as (b & ov & E & I).
  rewrite length_app in E. cbn [length] in E. replace (Z.of_nat (length pre + 1)) with (Z.of_nat (length pre) + 1) in E by lia. rewrite E. cbn [mbind option_bind].
  destruct (Z.eqb_spec ov 0) as [Eov|Hov].
  - exists b. split; [done|]. split; [apply (li_len _ _ _ _ _ _ _ _ _ I)|]. split; [apply (li_other _ _ _ _ _ _ _ _ _ I)|].
    assert (K := kraft_leaves desc max_code T0 root Q leaves inner Hnodes Hdads b ov I). unfold mx in K. split.
    + intros q Hq. assert (HqQ := leaf_in max_code root Q leaves inner Hnodes Hl_leaf Hi_inner Hroot q Hq).
      rewrite (li_clip _ _ _ _ _ _ _ _ _ I q HqQ). apply (clip_range desc Hdesc). apply (li_range _ _ _ _ _ _ _ _ _ I), (li_dad _ _ _ _ _ _ _ _ _ I), HqQ.
    + apply (li_size _ _ _ _ _ _ _ _ _ I).
    + intros l Hl. rewrite (li_cnt _ _ _ _ _ _ _ _ _ I l Hl). f_equal. apply (count_leaves max_code root Q leaves inner Hnodes Hl_leaf Hi_inner Hroot).
    + lia.
  - destruct (correct_lens b ov I Hov) as (count & tree & o & -> & E2 & Lt & St & Hcl). cbn [mbind option_bind]. rewrite E2. cbn [mbind option_bind].
    by eexists.
Qed.
End bitlen.
