(* ===== verification/TreesTree.v ===== *)
(** [build_tree()] returns, for all frequencies, a complete prefix code within the length limit that has a code word
    for every symbol that is used. *)
From stdpp Require Import sets.
From S2P Require Import Prelude Record Bits Huffman TreesTables Trees TreesHeap TreesCodes TreesBuild.
From S2P Require Import TreesLens TreesOverflow TreesBitlen.

(** ** From lengths of leaves to a list of lengths *)
Definition lens_of (tree : list ct_data) (max_code : Z) : list Z := dl <$> take (Z.to_nat (max_code + 1)) tree.

Lemma aget_lens_of tree max_code i :
  0 <= i <= max_code -> max_code < Z.of_nat (length tree) -> aget (lens_of tree max_code) i = Some (dad tree i).
Proof.
  intros Hi Hl. unfold lens_of, dad. destruct (aget_in tree i ltac:(lia)) as [e Ee]. rewrite Ee. unfold aget in *.
  destruct (Z.leb_spec 0 i); [|done]. rewrite list_lookup_fmap, lookup_take_lt by lia. by rewrite Ee.
Qed.
Lemma length_lens_of tree max_code : -1 <= max_code < Z.of_nat (length tree) -> Z.of_nat (length (lens_of tree max_code)) = max_code + 1.
Proof. intros H. unfold lens_of. rewrite length_fmap, length_take. lia. Qed.

Lemma lens_of_ext tree tree' max_code :
  max_code < Z.of_nat (length tree) -> length tree' = length tree -> (forall i, 0 <= i <= max_code -> dad tree' i = dad tree i) ->
  lens_of tree' max_code = lens_of tree max_code.
Proof.
  intros Hm Hl Hd. apply list_eq. intros i. rewrite <- !aget_nat. destruct (decide (Z.of_nat i <= max_code)).
  - rewrite !aget_lens_of by lia. by rewrite Hd by lia.
  - unfold lens_of. rewrite !aget_nat, !list_lookup_fmap, !lookup_take_ge by lia. done.
Qed.

Lemma cnt_zcount l lens : cnt l lens = zcount (fun i => bool_decide (aget lens i = Some l)) (seqZ 0 (Z.of_nat (length lens))).
Proof.
  induction lens as [|x lens IH] using rev_ind; [done|]. rewrite cnt_app, cnt_cons. change (cnt l []) with 0.
  rewrite length_app. cbn [length]. replace (Z.of_nat (length lens + 1)) with (Z.of_nat (length lens) + 1) by lia.
  rewrite seqZ_app, zcount_app by lia. f_equal.
  - rewrite IH. apply zcount_ext. intros i. rewrite elem_of_seqZ. intros Hi. by rewrite aget_app_l by lia.
  - rewrite Z.add_0_l. replace (seqZ (Z.of_nat (length lens)) 1) with [Z.of_nat (length lens)] by (rewrite seqZ_cons by lia; done).
    rewrite zcount_cons, aget_middle. change (zcount _ []) with 0. destruct (Z.eqb_spec x l) as [->|]; [by rewrite bool_decide_true|]. rewrite bool_decide_false by congruence. done.
Qed.

(** Sums over a set of symbols that has all the non-zero terms. *)
Lemma zcount_subset (p : Z -> bool) n lv :
  NoDup lv -> (forall i, i ∈ lv -> 0 <= i < n) -> (forall i, 0 <= i < n -> i ∉ lv -> p i = false) -> zcount p (seqZ 0 n) = zcount p lv.
Proof.
  intros Hnd Hr Hp. assert (Hs : lv ⊆+ seqZ 0 n). { apply NoDup_submseteq; [done|]. intros i Hi. rewrite elem_of_seqZ. apply Hr in Hi. lia. }
  apply submseteq_Permutation in Hs as [rest P]. rewrite (zcount_perm _ _ _ P), zcount_app, (zcount_none _ rest); [lia|].
  intros i Hi. assert (Hin : i ∈ seqZ 0 n) by (rewrite P; set_solver). rewrite elem_of_seqZ in Hin. apply Hp; [lia|]. intros Hlv.
  assert (Hnd' : NoDup (lv ++ rest)) by (rewrite <- P; apply NoDup_seqZ). apply list.NoDup_app in Hnd' as (_ & Hd & _). by apply (Hd i).
Qed.

Section lengths.
Context (mx : Z) (Hmx : 1 <= mx <= 15) (lv : list Z) (tree : list ct_data) (count : list Z) (max_code : Z).
Context (Hcl : complete_lens mx lv (dad tree) count) (Hnd : NoDup lv) (Hr : forall i, i ∈ lv -> 0 <= i <= max_code).
Context (Hmc : 0 <= max_code < Z.of_nat (length tree)).
Context (Hzero : forall i, 0 <= i <= max_code -> i ∉ lv -> dad tree i = 0).
Notation lens := (lens_of tree max_code).

Lemma cnt_leaves l : 1 <= l <= 15 -> cnt l lens = zcount (fun q => dad tree q =? l) lv.
Proof.
  intros Hl. rewrite cnt_zcount, length_lens_of by lia. rewrite (zcount_subset _ (max_code + 1) lv); [|done|intros i Hi; apply Hr in Hi; lia|].
  - apply zcount_ext. intros i Hi. specialize (Hr i Hi). rewrite aget_lens_of by lia. destruct (Z.eqb_spec (dad tree i) l) as [->|]; [by rewrite bool_decide_true|].
    rewrite bool_decide_false by congruence. done.
  - intros i Hi Hn. rewrite aget_lens_of by lia. rewrite Hzero by (done || lia). apply bool_decide_false. intros [= <-]. lia.
Qed.

Lemma counts_for_lens : counts_for count lens.
Proof.
  split.
  - rewrite (cl_count _ _ _ _ Hcl 0) by lia. f_equal. apply zcount_none. intros q Hq. apply Z.eqb_neq. pose proof (cl_range _ _ _ _ Hcl q Hq). lia.
  - intros l Hl. rewrite (cl_count _ _ _ _ Hcl l) by lia. by rewrite cnt_leaves.
Qed.

Lemma kraft_lens : kraft (canon lens) = 2 ^ 15.
Proof.
  rewrite <- start_pos_kraft. unfold start_pos. change (16 - 1) with 15.
  change (zsum (fun l => cnt l lens * weight l) (seqZ 1 15) = 2 ^ 15).
  rewrite (zsum_ext _ (fun b => zcount (fun q => dad tree q =? b) lv * weight b)).
  2:{ intros l. rewrite elem_of_seqZ. intros Hl. rewrite cnt_leaves by lia. done. }
  rewrite <- zsum_buckets by (intros q Hq; pose proof (cl_range _ _ _ _ Hcl q Hq); lia).
  rewrite (zsum_ext _ (fun q => 2 ^ (15 - mx) * 2 ^ (mx - dad tree q))).
  - rewrite zsum_scale, (cl_kraft _ _ _ _ Hcl), <- Z.pow_add_r by lia. f_equal. lia.
  - intros q Hq. pose proof (cl_range _ _ _ _ Hcl q Hq). unfold weight. rewrite <- Z.pow_add_r by lia. f_equal. lia.
Qed.

Lemma lens_range : Forall (fun l => 0 <= l <= mx) lens.
Proof.
  apply Forall_lookup_2. intros i l Hi. assert (Hi2 : aget lens (Z.of_nat i) = Some l) by by rewrite aget_nat.
  assert (Hi3 := aget_Some _ _ _ Hi2). rewrite length_lens_of in Hi3 by lia. rewrite aget_lens_of in Hi2 by lia. injection Hi2 as <-.
  destruct (decide (Z.of_nat i ∈ lv)) as [Hd|Hd]; [pose proof (cl_range _ _ _ _ Hcl _ Hd); lia|]. rewrite Hzero by (done || lia). lia.
Qed.
End lengths.

(** ** The contract of [build_tree] *)

(** [tree'] with [max_code] is a code for the frequencies of [tree]. *)
Record tree_built (desc : static_tree_desc) (tree tree' : list ct_data) (max_code : Z) : Prop := {
  tb_max : 1 <= max_code < elems desc;
  tb_length : length tree' = length tree;
  tb_kraft : kraft (canon (lens_of tree' max_code)) = 2 ^ 15;
  tb_range : Forall (fun l => 0 <= l <= max_length desc) (lens_of tree' max_code);
  tb_codes : codes_for tree' (lens_of tree' max_code);
  tb_used : forall i, 0 <= i < elems desc -> freq tree i <> 0 -> i <= max_code /\ dad tree' i <> 0;
  tb_beyond : forall i, max_code < i < elems desc -> dad tree' i = 0 }.

(** The sizes of the arrays. *)
Record sizes_ok (s : trees_state) : Prop := {
  sz_tree : forall desc, Z.of_nat (length (dyn_tree s desc)) = 2 * elems (stat_desc desc) + 1;
  sz_heap : Z.of_nat (length (t_heap s)) = HEAP_SIZE;
  sz_depth : Z.of_nat (length (t_depth s)) = HEAP_SIZE }.

(** What [build_tree] leaves alone. *)
Record only_tree (desc : tree_desc) (s s' : trees_state) : Prop := {
  ot_tree : forall d, d <> desc -> dyn_tree s' d = dyn_tree s d;
  ot_max : forall d, d <> desc -> max_code s' d = max_code s d;
  ot_w : t_w s' = t_w s; ot_lit : t_lit_bufsize s' = t_lit_bufsize s; ot_last : t_last_lit s' = t_last_lit s;
  ot_level : t_level s' = t_level s; ot_strategy : t_strategy s' = t_strategy s }.

(** Before the first symbol. *)
Lemma filled_start tree0 nd depth h0 T : length depth = nd -> filled 0 tree0 nd (Building tree0 (h0 :: T) 0 depth (-1)) h0 [] T.
Proof.
  intros Hd. split; cbn; try done; try lia; try (by left); try (intros; lia).
  - intros i Hi. by apply not_elem_of_nil in Hi.
Qed.

(** The forest before any merge. *)
Lemma merged_start N tree0 ndepth g h0 R R' T h :
  filled N tree0 ndepth g h0 R T -> R' ≡ₚ R -> h = h0 :: R' ++ T -> Z.of_nat (length h) = HEAP_SIZE ->
  merged N R (g_tree g) ndepth N (Merging (g_tree g) h (g_heap_len g) HEAP_SIZE (g_depth g)) h0 R' T [].
Proof.
  intros F P -> Hl. destruct F. cbn [length] in Hl. rewrite length_app in Hl. assert (LP := Permutation_length P).
  split; cbn [m_tree m_heap m_heap_len m_heap_max m_depth]; try done; try lia.
  - by rewrite app_nil_r.
  - rewrite app_nil_r, Z.sub_diag. cbn. by rewrite app_nil_r.
  - rewrite Z.sub_diag. done.
  - intros [|? Q1] q Q2; discriminate.
  - cbn [length]. rewrite !length_app. cbn [length]. lia.
Qed.

Section forest.
Context (desc : static_tree_desc) (Hd : desc_ok desc) (lv : list Z) (tree0 : list ct_data) (nd : nat) (max_code : Z).
Context (Hnd : NoDup lv) (Hlv : forall i, i ∈ lv -> 0 <= i <= max_code) (Hmax : 0 <= max_code < elems desc) (H2 : (2 <= length lv)%nat).
Context (Ht : Z.of_nat (length tree0) = 2 * elems desc + 1).
Context (Hzero : forall i, 0 <= i < elems desc -> i ∉ lv -> dl <$> aget tree0 i = Some 0).
Notation N := (elems desc).

Lemma leaves_few : Z.of_nat (length lv) <= N.
Proof.
  clear Hzero Ht H2 Hd tree0 nd.
  assert (Hs : lv ⊆+ seqZ 0 N) by (apply NoDup_submseteq; [done|]; intros i Hi; rewrite elem_of_seqZ; apply Hlv in Hi; lia).
  apply submseteq_length in Hs. rewrite length_seqZ in Hs. lia.
Qed.

Lemma inner_root node m h0 root J Q : merged N lv tree0 nd node m h0 [root] J Q -> root ∈ seqZ N (node - N).
Proof.
  intros M. assert (HN := dk_elems _ Hd). assert (Hc := merged_counts N lv tree0 nd node m h0 [root] J Q M). cbn [length] in Hc. destruct M.
  destruct Q as [|q Q]; [cbn [length] in Hc; lia|]. specialize (mg_order [] q Q eq_refl). rewrite app_nil_r, list_elem_of_singleton in mg_order.
  assert (Hin : dad (m_tree m) q ∈ seqZ N (node - N) ++ seqZ N (node - N)) by (rewrite <- mg_dads; by left).
  rewrite mg_order, elem_of_app in Hin. by destruct Hin.
Qed.

(** The lengths and the codes of a finished tree. *)
Lemma merged_codes node m h0 root J0 x Q opt_len static_len :
  merged N lv tree0 nd node m h0 [root] (J0 ++ [x]) Q ->
  exists b tree', gen_bitlen desc max_code (h0 :: root :: J0 ++ root :: Q) (Z.of_nat (length (h0 :: root :: J0))) (m_tree m) opt_len static_len = Some b /\
    gen_codes (b_tree b) max_code (b_count b) = Some tree' /\ length tree' = length tree0 /\
    kraft (canon (lens_of tree' max_code)) = 2 ^ 15 /\ Forall (fun l => 0 <= l <= max_length desc) (lens_of tree' max_code) /\
    codes_for tree' (lens_of tree' max_code) /\ (forall i, i ∈ lv -> dad tree' i <> 0) /\ forall i, max_code < i < N -> dad tree' i = 0.
Proof.
  intros M. assert (HN := dk_elems _ Hd). assert (Hmx := dk_max _ Hd). assert (Hfew := leaves_few). assert (Hroot := inner_root _ _ _ _ _ _ M).
  assert (HlvN : forall i, i ∈ lv -> 0 <= i < N) by (intros i Hi; apply Hlv in Hi; lia).
  assert (Hnodup := merged_nodup N lv tree0 nd Hnd HlvN node m h0 [root] _ Q M).
  assert (Hin := fun i => merged_in N lv tree0 nd ltac:(lia) HlvN node m h0 [root] _ Q i M).
  assert (Hc := merged_counts N lv tree0 nd node m h0 [root] _ Q M). cbn [length] in Hc. destruct M.
  assert (Hnode : node <= 2 * N) by lia.
  destruct (gen_bitlen_ok desc Hd max_code (m_tree m) root Q Hnodup) with (leaves := lv) (inner := seqZ N (node - N))
    (heap := h0 :: root :: J0 ++ root :: Q) (pre := h0 :: root :: J0) (opt_len := opt_len) (static_len := static_len) as (b & Eb & Lb & Sb & Cb); try done.
  { intros i Hi. specialize (Hin i Hi). lia. }
  { lia. }
  { intros i Hi. apply Hlv in Hi. unfold leaf. destruct (Z.gtb_spec i max_code); [lia|done]. }
  { intros i. rewrite elem_of_seqZ. intros Hi. unfold leaf. destruct (Z.gtb_spec i max_code); [done|lia]. }
  { cbn [length]. rewrite length_app in *. cbn [length] in *. lia. }
  exists b.
  assert (HzN : forall i, 0 <= i < N -> i ∉ lv -> dad (b_tree b) i = 0).
  { intros i Hi Hn. assert (Hnq : i ∉ root :: Q).
    { intros Hq. change (root :: Q) with ([root] ++ Q) in Hq. rewrite mg_nodes, elem_of_app, elem_of_seqZ in Hq. destruct Hq as [Hq|Hq]; [done|lia]. }
    unfold dad. rewrite Sb, mg_same by (done || lia). specialize (Hzero i ltac:(lia) Hn). destruct (aget tree0 i); [|done]. cbn in *. congruence. }
  assert (Hz : forall i, 0 <= i <= max_code -> i ∉ lv -> dad (b_tree b) i = 0) by (intros; apply HzN; [lia|done]).
  assert (Hmc : 0 <= max_code < Z.of_nat (length (b_tree b))) by lia.
  assert (K := kraft_lens (max_length desc) Hmx lv (b_tree b) (b_count b) max_code Cb Hnd Hlv Hmc Hz).
  assert (R := lens_range (max_length desc) Hmx lv (b_tree b) (b_count b) max_code Cb Hmc Hz).
  assert (C := counts_for_lens (max_length desc) lv (b_tree b) (b_count b) max_code Cb Hnd Hlv Hmc Hz).
  assert (LL := length_lens_of (b_tree b) max_code ltac:(lia)).
  destruct (gen_codes_ok (b_tree b) (lens_of (b_tree b) max_code) (b_count b)) as (tree' & Eg & [Ls Hs] & Hcf & _); try done; try lia.
  { eapply Forall_impl; [|exact R]. cbn. lia. }
  { intros i l Hi. assert (Hi2 := aget_Some _ _ _ Hi). rewrite aget_lens_of in Hi by lia. injection Hi as <-. unfold dad.
    destruct (aget_in (b_tree b) i ltac:(lia)) as [[v l] ->]. by exists v. }
  replace (Z.of_nat (length (lens_of (b_tree b) max_code)) - 1) with max_code in Eg by lia.
  assert (Hdad : forall i, dad tree' i = dad (b_tree b) i).
  { intros i. unfold dad. specialize (Hs i). destruct (aget tree' i), (aget (b_tree b) i); cbn in Hs; congruence. }
  assert (El : lens_of tree' max_code = lens_of (b_tree b) max_code) by (apply lens_of_ext; [lia|done|auto]).
  exists tree'. rewrite El. split; [done|]. split; [done|]. split; [lia|]. split; [done|]. split; [done|]. split; [done|].
  split; intros i Hi; rewrite Hdad; [pose proof (cl_range _ _ _ _ Cb i Hi); lia|]. apply HzN; [lia|]. intros Hin'%Hlv. lia.
Qed.
End forest.

#[export] Instance tree_desc_eq_dec : EqDecision tree_desc.
Proof. solve_decision. Defined.
Lemma dyn_tree_set s desc tree d : dyn_tree (set_dyn_tree s desc tree) d = if decide (d = desc) then tree else dyn_tree s d.
Proof. by destruct desc, d. Qed.
Lemma dyn_tree_max s desc m d : dyn_tree (set_max_code s desc m) d = dyn_tree s d.
Proof. by destruct desc, d. Qed.
Lemma max_code_max s desc m d : max_code (set_max_code s desc m) d = if decide (d = desc) then m else max_code s d.
Proof. by destruct desc, d. Qed.
Lemma max_code_tree s desc tree d : max_code (set_dyn_tree s desc tree) d = max_code s d.
Proof. by destruct desc, d. Qed.

Lemma build_tree_ok s desc :
  sizes_ok s ->
  exists s', build_tree s desc = Some s' /\ tree_built (stat_desc desc) (dyn_tree s desc) (dyn_tree s' desc) (max_code s' desc) /\
    sizes_ok s' /\ only_tree desc s s'.
Proof.
  intros [Hst Hsh Hsd]. assert (Hd := stat_desc_ok desc). assert (HN := dk_elems _ Hd).
  set (N := elems (stat_desc desc)) in *. assert (Ht := Hst desc). fold N in Ht. set (tree0 := dyn_tree s desc) in *.
  assert (E573 : HEAP_SIZE = 573) by done. assert (E286 : L_CODES = 286) by done.
  unfold build_tree. fold N tree0. destruct (t_heap s) as [|h0 T0] eqn:Eh0; [cbn in Hsh; lia|]. cbn [length] in Hsh.
  destruct (heap_init_ok tree0 (length (t_depth s)) (Z.to_nat N) 0 (Building tree0 (h0 :: T0) 0 (t_depth s) (-1)) h0 [] T0) as (g1 & R1 & T1 & -> & F1 & L1 & LR1);
    [by apply filled_start|done|lia..|].
  cbn [mbind option_bind]. rewrite Z2Nat.id, Z.add_0_l in F1 by lia. rewrite length_app in L1. cbn [length app] in L1, LR1.
  destruct (force_two_ok N tree0 (length (t_depth s)) (static_tree (stat_desc desc)) 3 g1 h0 R1 T1 (t_opt_len s) (t_static_len s))
    as (g & lv & T & o & st & -> & F & L2 & L3 & L4); [lia|lia|lia| |done|lia|lia|lia|].
  { intros t Et. pose proof (dk_static _ Hd t Et). fold N in H. lia. }
  cbn [mbind option_bind]. rewrite !length_app in L3. assert (F' := F). destruct F'.
  assert (Hmax : 0 <= g_max_code g < N) by (destruct fl_max as [[_ ->]|Hin]; [cbn in L2; lia|apply fl_range in Hin; lia]).
  assert (Hok : Forall (node_ok (g_tree g) (g_depth g)) lv).
  { apply Forall_forall. intros i Hi%list_elem_of_In. apply fl_range in Hi. unfold node_ok. lia. }
  rewrite fl_heap, fl_len. destruct (heapify_ok (g_tree g) (g_depth g) (Z.to_nat (Z.of_nat (length lv) / 2)) h0 lv T Hok) as (R2 & -> & P2).
  { rewrite Z2Nat.id by (apply Z.div_pos; lia). apply Z.div_le_upper_bound; lia. }
  cbn [mbind option_bind]. assert (LP := Permutation_length P2).
  assert (M0 := merged_start N tree0 _ g h0 lv R2 T (h0 :: R2 ++ T) F P2 eq_refl ltac:(cbn [length]; rewrite length_app; lia)). rewrite fl_len in M0.
  assert (Hfew := leaves_few (stat_desc desc) lv (g_max_code g) fl_nodup fl_range Hmax).
  destruct (merge_loop_ok N lv (g_tree g) (length (t_depth s)) ltac:(lia) fl_nodup ltac:(intros i Hi; apply fl_range in Hi; lia) Hfew ltac:(lia) ltac:(lia)
              (Z.to_nat (Z.of_nat (length lv))) N _ h0 R2 T [] M0) as (m & node & root & J & Q & -> & M); [lia..|].
  cbn [mbind option_bind]. assert (Hc := merged_counts _ _ _ _ _ _ _ _ _ _ M). cbn [length] in Hc.
  destruct J as [|x J0 _] using rev_ind; [cbn [length] in Hc; lia|]. rewrite length_app in Hc. cbn [length] in Hc.
  rewrite (mg_heap _ _ _ _ _ _ _ _ _ _ M), (mg_max _ _ _ _ _ _ _ _ _ _ M), length_app. cbn [length app].
  change (aget (h0 :: root :: (J0 ++ [x]) ++ Q) SMALLEST) with (Some root). cbn [mbind option_bind].
  replace (1 + Z.of_nat 1 + Z.of_nat (length J0 + 1) - 1) with (Z.of_nat (length (h0 :: root :: J0))) by (cbn [length]; lia).
  rewrite aset_in by (cbn [length]; rewrite !length_app; lia). rewrite Nat2Z.id. rewrite <- app_assoc. cbn [app].
  change (h0 :: root :: J0 ++ x :: Q) with ((h0 :: root :: J0) ++ x :: Q). rewrite insert_app_r_alt, Nat.sub_diag by lia. cbn [insert list_insert mbind option_bind app].
  destruct (merged_codes (stat_desc desc) Hd lv (g_tree g) _ (g_max_code g) fl_nodup fl_range Hmax L2 ltac:(rewrite fl_tree; done) fl_zero node m h0 root J0 x Q o st M)
    as (b & tree' & -> & Eg & Lt & K & Rg & C & U & B). cbn [mbind option_bind]. rewrite Eg. cbn [mbind option_bind].
  eexists. split; [done|]. rewrite dyn_tree_max, dyn_tree_set, max_code_max, !decide_True by done.
  split; [|split].
  - split; try done; try lia.
    + assert (2 <= Z.of_nat (length lv) <= g_max_code g + 1); [|fold N; lia]. split; [lia|].
      apply (leaves_few (StaticTreeDesc None [] 0 (g_max_code g + 1) 0) lv (g_max_code g)); try done. cbn. lia.
    + intros i Hi Hf. fold N in Hi. specialize (fl_used i Hi Hf). split; [apply fl_range in fl_used; lia|auto].
  - split.
    + intros d. rewrite dyn_tree_max, dyn_tree_set. destruct (decide (d = desc)) as [->|]; [fold N; lia|]. apply Hst.
    + transitivity (Z.of_nat (length (h0 :: root :: J0 ++ root :: Q))); [by destruct desc|]. cbn [length]. rewrite length_app. cbn [length]. lia.
    + rewrite <- Hsd. destruct desc; cbn; apply (f_equal Z.of_nat), (mg_depth _ _ _ _ _ _ _ _ _ _ M).
  - split; [| |by destruct desc..].
    + intros d Hne. rewrite dyn_tree_max, dyn_tree_set, decide_False by done. done.
    + intros d Hne. rewrite max_code_max, decide_False, max_code_tree by done. done.
Qed.
