(* ===== verification/DeflateFormat.v ===== *)
(** The deflate format, as a relation between the bits of a block and the bytes that it stands for. Bits are read from
    an integer, the first in the lowest position. *)
From S2P Require Import Prelude Bits Huffman InfTrees InfTreesProof Lz Fixed.

(** ** The code lengths of a block with dynamic trees *)

(** One symbol of the code length code [cl], after the lengths [acc]; with the bits that it takes. *)
Definition lens_step (cl : list Z) (s : Z) (acc : list Z) : option (list Z * Z) :=
  '(sym, k) ← huff_decode cl (s mod 2 ^ 15);
  let repeat_ v base extra := Some (acc ++ replicate (Z.to_nat (base + (s / 2 ^ k) mod 2 ^ extra)) v, k + extra) in
  if sym <? 16 then Some (acc ++ [sym], k)
  else if sym =? 16 then prev ← list.last acc; repeat_ prev 3 2
  else if sym =? 17 then repeat_ 0 3 3
  else repeat_ 0 11 7.

Inductive lens_runs (cl : list Z) : Z -> list Z -> Z -> list Z -> Prop :=
  | lens_refl s acc : lens_runs cl s acc 0 acc
  | lens_cons s acc k acc1 u acc2 :
      lens_step cl s acc = Some (acc1, k) -> 0 <= k -> lens_runs cl (s / 2 ^ k) acc1 u acc2 -> lens_runs cl s acc (k + u) acc2.

(** The order in which the lengths of the code length code are sent. *)
Definition cl_order : list Z := [16; 17; 18; 0; 8; 7; 9; 6; 10; 5; 11; 4; 12; 3; 13; 2; 14; 1; 15].

(** [n] lengths of three bits each, from the stream [s]; the others are 0. *)
Fixpoint read_cl (n : nat) (order : list Z) (s : Z) (cl : list Z) : list Z :=
  match n, order with
  | S n, o :: order => read_cl n order (s / 2 ^ 3) (<[Z.to_nat o := s mod 2 ^ 3]> cl)
  | _, _ => cl
  end.

(** The codes that may be described: complete ones (or a single code of one bit, or none), with a code for the end of the
    block. *)
Record codes_valid (cl ll dl : list Z) : Prop := {
  cv_cl : code_ok CODES cl = true;
  cv_ll : code_ok LENS ll = true;
  cv_dl : code_ok DISTS dl = true;
  cv_end : exists l, aget ll 256 = Some l /\ l <> 0;
  cv_range : Forall (fun l => 0 <= l <= 15) (ll ++ dl) }.

(** The stream [s] starts with a description of [used] bits of the two codes. *)
Definition trees_read (s : Z) (ll dl : list Z) (used : Z) : Prop :=
  let nlen := s mod 2 ^ 5 + 257 in
  let ndist := (s / 2 ^ 5) mod 2 ^ 5 + 1 in
  let ncode := (s / 2 ^ 10) mod 2 ^ 4 + 4 in
  exists u, let cl := read_cl (Z.to_nat ncode) cl_order (s / 2 ^ 14) (replicate 19 0) in
    lens_runs cl (s / 2 ^ (14 + 3 * ncode)) [] u (ll ++ dl) /\
    (Z.of_nat (length ll) = nlen /\ nlen <= 286) /\ (Z.of_nat (length dl) = ndist /\ ndist <= 30) /\ used = 14 + 3 * ncode + u /\ codes_valid cl ll dl.

(** ** Blocks *)

(** Literals and matches up to the end of the block. *)
Definition data_read (ll dl : list Z) (s : Z) (hist : list Z) (used : Z) (hist' : list Z) : Prop :=
  exists u k, lz_runs ll dl s hist u hist' /\ lz_step ll dl (s / 2 ^ u) hist' = Eob k /\ used = u + k.

(** A block at bit position [at_] of the stream, after the bytes [hist]: whether it is the last one, how many bits it
    takes and the bytes up to its end. *)
Inductive block_read (at_ s : Z) (hist : list Z) : bool -> Z -> list Z -> Prop :=
  | read_stored data :
      s / 2 mod 4 = 0 ->
      let n := 3 + (- (at_ + 3)) mod 8 in
      (s / 2 ^ n) mod 2 ^ 16 = Z.of_nat (length data) ->
      (s / 2 ^ (n + 16)) mod 2 ^ 16 = 2 ^ 16 - 1 - Z.of_nat (length data) ->
      (s / 2 ^ (n + 32)) mod 2 ^ (8 * Z.of_nat (length data)) = le data -> Forall byte_ok data ->
      block_read at_ s hist (s mod 2 =? 1) (n + 32 + 8 * Z.of_nat (length data)) (hist ++ data)
  | read_fixed used hist' :
      s / 2 mod 4 = 1 -> data_read fixed_lens fixed_dists (s / 2 ^ 3) hist used hist' ->
      block_read at_ s hist (s mod 2 =? 1) (3 + used) hist'
  | read_dynamic ll dl used used' hist' :
      s / 2 mod 4 = 2 -> trees_read (s / 2 ^ 3) ll dl used -> data_read ll dl (s / 2 ^ (3 + used)) hist used' hist' ->
      block_read at_ s hist (s mod 2 =? 1) (3 + used + used') hist'.

(** Blocks that are not the last one. *)
Inductive blocks_read : Z -> Z -> list Z -> Z -> list Z -> Prop :=
  | blocks_nil at_ s hist : blocks_read at_ s hist 0 hist
  | blocks_cons at_ s hist u hist1 v hist2 :
      block_read at_ s hist false u hist1 -> 0 <= u -> blocks_read (at_ + u) (s / 2 ^ u) hist1 v hist2 -> blocks_read at_ s hist (u + v) hist2.

(** A whole stream: blocks, the last one, and [pad] bits up to a byte boundary. *)
Definition stream_read (s : Z) (used : Z) (data : list Z) : Prop :=
  exists u hist v, blocks_read 0 s [] u hist /\ block_read u (s / 2 ^ u) hist true v data /\ used = u + v + (- (u + v)) mod 8.

(** Only the position in a byte matters. *)
Lemma block_read_mod at1 at2 s hist last used hist' :
  at1 mod 8 = at2 mod 8 -> block_read at1 s hist last used hist' -> block_read at2 s hist last used hist'.
Proof.
  intros E. assert (En : (- (at1 + 3)) mod 8 = (- (at2 + 3)) mod 8) by (Z.to_euclidean_division_equations; lia).
  intros [data Ht n H1 H2 H3 H4|used0 hist0 Ht Hd|ll dl used0 used1 hist0 Ht Hl Hd].
  - unfold n in *. rewrite En in *. by apply read_stored.
  - by apply read_fixed.
  - by apply (read_dynamic at2 s hist ll dl).
Qed.
Lemma blocks_read_mod at1 at2 s hist used hist' : at1 mod 8 = at2 mod 8 -> blocks_read at1 s hist used hist' -> blocks_read at2 s hist used hist'.
Proof.
  intros E H. revert at2 E. induction H as [at_ s hist|at_ s hist u hist1 v hist2 Hb Hu _ IH]; intros at2 E; [constructor|].
  apply blocks_cons with hist1; [by apply (block_read_mod at_)|done|]. apply IH. Z.to_euclidean_division_equations; lia.
Qed.
Lemma blocks_read_nonneg at_ s hist used hist' : blocks_read at_ s hist used hist' -> 0 <= used.
Proof. induction 1; lia. Qed.
Lemma blocks_read_app at_ s hist u hist1 v hist2 :
  blocks_read at_ s hist u hist1 -> blocks_read (at_ + u) (s / 2 ^ u) hist1 v hist2 -> blocks_read at_ s hist (u + v) hist2.
Proof.
  induction 1 as [at_ s hist|at_ s hist u0 hist0 v0 hist3 Hb Hu Hr IH]; intros H2.
  - rewrite Z.add_0_r, Z.pow_0_r, Z.div_1_r in H2. done.
  - assert (Hv := blocks_read_nonneg _ _ _ _ _ Hr). rewrite <- Z.add_assoc. apply blocks_cons with hist0; [done|done|]. apply IH.
    rewrite Z.div_div, <- Z.pow_add_r, <- Z.add_assoc by (try apply Z.pow_nonzero; try apply pow2_pos; lia). done.
Qed.
