(* ===== verification/TreesRle.v ===== *)
(** The run lengths of [scan_tree()] and [send_tree()]: both walk over the code lengths in the same way; the symbols that
    one counts are those that the other sends, and they stand for the code lengths. *)
From S2P Require Import Prelude Record Bits Huffman Lz Fixed DeflateFormat TreesTables Trees.
From S2P Require Import BitWriter TreesCodes TreesEmit TreesBuild TreesBitlen.

(** ** Symbols of the code length code *)
Inductive token := TLen (l : Z) | TRep (n : Z) | TZero (n : Z).

Definition tok_sym (t : token) : Z :=
  match t with TLen l => l | TRep _ => REP_3_6 | TZero n => if n <=? 10 then REPZ_3_10 else REPZ_11_138 end.
Definition tok_ok (t : token) : Prop :=
  match t with TLen l => 0 <= l <= 15 | TRep n => 3 <= n <= 6 | TZero n => 3 <= n <= 138 end.
Definition tok_extra (t : token) : bitstr :=
  match t with TLen _ => bnil | TRep n => (n - 3, 2) | TZero n => if n <=? 10 then (n - 3, 3) else (n - 11, 7) end.
Definition tok_bits (bl : list ct_data) (t : token) : bitstr := code_bits bl (tok_sym t) ·· tok_extra t.
Fixpoint toks_bits (bl : list ct_data) (ts : list token) : bitstr :=
  match ts with [] => bnil | t :: ts => tok_bits bl t ·· toks_bits bl ts end.

(** The lengths that they stand for. *)
Definition tok_expand (acc : list Z) (t : token) : option (list Z) :=
  match t with
  | TLen l => Some (acc ++ [l])
  | TRep n => v ← list.last acc; Some (acc ++ replicate (Z.to_nat n) v)
  | TZero n => Some (acc ++ replicate (Z.to_nat n) 0)
  end.
Fixpoint toks_expand (acc : list Z) (ts : list token) : option (list Z) :=
  match ts with [] => Some acc | t :: ts => acc ← tok_expand acc t; toks_expand acc ts end.

Lemma toks_expand_app acc ts ts' : toks_expand acc (ts ++ ts') = toks_expand acc ts ≫= fun acc => toks_expand acc ts'.
Proof. revert acc. induction ts as [|t ts IH]; intros acc; [done|]. cbn [app toks_expand]. destruct (tok_expand acc t); [apply IH|done]. Qed.

Lemma tok_expand_longer acc t acc' : tok_ok t -> tok_expand acc t = Some acc' -> (S (length acc) <= length acc')%nat.
Proof.
  intros Ht H. destruct t as [l|n|n]; cbn in Ht, H.
  - injection H as <-. rewrite length_app. cbn. lia.
  - destruct (list.last acc); [|done]. injection H as <-. rewrite length_app, length_replicate. lia.
  - injection H as <-. rewrite length_app, length_replicate. lia.
Qed.
Lemma toks_expand_longer ts : forall acc acc', Forall tok_ok ts -> toks_expand acc ts = Some acc' -> (length acc + length ts <= length acc')%nat.
Proof.
  induction ts as [|t ts IH]; intros acc acc' Hf H; cbn [toks_expand] in H; [injection H as <-; cbn; lia|].
  apply Forall_cons_iff in Hf as [Ht Hf]. destruct (tok_expand acc t) as [a|] eqn:E; [|done]. apply tok_expand_longer in E; [|done].
  apply IH in H; [|done]. cbn [length]. lia.
Qed.

(** ** Decoding *)
Lemma tok_sym_range t : tok_ok t -> 0 <= tok_sym t < BL_CODES.
Proof. destruct t; cbn; unfold BL_CODES, REP_3_6, REPZ_3_10, REPZ_11_138; [lia|lia|]. destruct (_ <=? _); lia. Qed.

Lemma tok_extra_ok t : tok_ok t -> bits_ok (tok_extra t).
Proof.
  destruct t; cbn; intros H; [apply bits_ok_nil|split; cbn; lia|]. destruct (Z.leb_spec n 10); split; cbn; lia.
Qed.

Section tokens.
Context (bl : list ct_data) (cl : list Z).
Definition tok_coded (t : token) : Prop := tok_ok t /\ coded bl cl (tok_sym t).

Lemma tok_bits_ok t : tok_coded t -> bits_ok (tok_bits bl t).
Proof. intros [Ht Hc]. apply bits_ok_cat; [apply (coded_sends _ _ _ Hc)|by apply tok_extra_ok]. Qed.
Lemma toks_bits_ok ts : Forall tok_coded ts -> bits_ok (toks_bits bl ts).
Proof. induction 1; cbn [toks_bits]; [apply bits_ok_nil|]. apply bits_ok_cat; [by apply tok_bits_ok|done]. Qed.

Lemma tok_decodes t acc acc' rest :
  tok_coded t -> tok_expand acc t = Some acc' -> lens_step cl (then_rest (tok_bits bl t) rest) acc = Some (acc', (tok_bits bl t).2).
Proof.
  intros [Ht (l & Hl & v & Hv & Hr & Hh)] Ha. assert (Hx := tok_extra_ok t Ht).
  unfold tok_bits, code_bits. rewrite Hv. cbn [fc dl]. assert (Hk : bits_ok (v, l)) by (split; cbn; lia).
  rewrite then_rest_cat by done. unfold lens_step. rewrite Hh by (apply (then_rest_mod (v, l)); done). cbn [mbind option_bind].
  assert (E := then_rest_div (v, l) (then_rest (tok_extra t) rest) Hk). cbn [snd] in E. rewrite E.
  assert (E2 := then_rest_mod (tok_extra t) rest Hx). destruct t as [x|n|n]; cbn [tok_ok tok_sym tok_expand tok_extra] in *.
  - destruct (Z.ltb_spec x 16); [|lia]. rewrite bcat_nil_r. cbn [snd]. congruence.
  - cbn [REP_3_6 Z.ltb Z.eqb Z.compare Pos.compare Pos.compare_cont Pos.eqb]. destruct (list.last acc) as [p|]; [|done]. cbn [mbind option_bind snd] in *.
    rewrite E2. cbn [bcat fst snd]. injection Ha as <-. repeat f_equal; lia.
  - destruct (Z.leb_spec n 10); cbn [fst snd] in E2; rewrite E2; cbn; injection Ha as <-; repeat f_equal; lia.
Qed.

Lemma toks_decode ts : forall acc acc' rest,
  Forall tok_coded ts -> toks_expand acc ts = Some acc' -> lens_runs cl (then_rest (toks_bits bl ts) rest) acc (toks_bits bl ts).2 acc'.
Proof.
  induction ts as [|t ts IH]; intros acc acc' rest Hf H; cbn [toks_expand toks_bits] in *; [injection H as <-; apply lens_refl|].
  apply Forall_cons_iff in Hf as [Ht Hf]. destruct (tok_expand acc t) as [a|] eqn:E; [|done]. cbn [mbind option_bind] in H.
  assert (Hb := tok_bits_ok t Ht). assert (Hbs := toks_bits_ok _ Hf). rewrite then_rest_cat by done. cbn [bcat snd].
  eapply lens_cons; [by apply tok_decodes|apply Hb|]. rewrite then_rest_div by done. by apply IH.
Qed.
End tokens.

(** ** The walk over the lengths *)

(** The symbols for a run of [count] times [q_nextlen q]. *)
Definition run_toks (q : runs) (count : Z) : list token :=
  let curlen := q_nextlen q in
  if count <? q_min q then replicate (Z.to_nat count) (TLen curlen)
  else if nz curlen then if negb (curlen =? q_prevlen q) then [TLen curlen; TRep (count - 1)] else [TRep count]
  else [TZero count].

(** [l] is what follows the current length. *)
Fixpoint tok_loop (l : list Z) (q : runs) : list token :=
  match l with
  | [] => []
  | nextlen :: l =>
      let count := q_count q + 1 in
      if (count <? q_max q) && (q_nextlen q =? nextlen) then tok_loop l (Runs (q_prevlen q) nextlen count (q_max q) (q_min q))
      else run_toks q count ++ tok_loop l (runs_next (q_nextlen q) nextlen)
  end.

Record runs_ok (q : runs) : Prop := {
  ro_count : 0 <= q_count q < q_max q;
  ro_limits : q_nextlen q = 0 /\ q_max q = 138 /\ q_min q = 3 \/
              q_nextlen q <> 0 /\ q_nextlen q = q_prevlen q /\ q_max q = 6 /\ q_min q = 3 \/
              q_nextlen q <> 0 /\ q_nextlen q <> q_prevlen q /\ q_max q = 7 /\ q_min q = 4 }.
Definition prev_ok (acc : list Z) (q : runs) : Prop := q_prevlen q = -1 \/ list.last acc = Some (q_prevlen q).

Lemma runs_next_ok c n : runs_ok (runs_next c n) /\ q_nextlen (runs_next c n) = n /\ q_count (runs_next c n) = 0 /\ q_prevlen (runs_next c n) = c.
Proof.
  unfold runs_next. destruct (Z.eqb_spec n 0); [|destruct (Z.eqb_spec c n)]; (split; [split; cbn; [lia|]|done]).
  - by left.
  - right. left. lia.
  - right. right. lia.
Qed.
Lemma runs_init_ok n : 0 <= n -> runs_ok (runs_init n) /\ q_nextlen (runs_init n) = n /\ q_count (runs_init n) = 0 /\ q_prevlen (runs_init n) = -1.
Proof.
  intros Hn. unfold runs_init. destruct (Z.eqb_spec n 0); (split; [split; cbn; [lia|]|done]).
  - by left.
  - right. right. lia.
Qed.
Lemma runs_more q : runs_ok q -> q_count q + 1 < q_max q -> runs_ok (Runs (q_prevlen q) (q_nextlen q) (q_count q + 1) (q_max q) (q_min q)).
Proof. intros [H1 H2] H. split; cbn; [lia|done]. Qed.

Lemma last_copies (acc : list Z) n v : (0 < n)%nat -> list.last (acc ++ replicate n v) = Some v.
Proof. intros Hn. destruct n as [|n]; [lia|]. rewrite replicate_S_end, app_assoc. apply last_snoc. Qed.

Lemma copies_expand n : forall acc v, toks_expand acc (replicate n (TLen v)) = Some (acc ++ replicate n v).
Proof.
  induction n as [|n IH]; intros acc v; cbn [replicate toks_expand tok_expand mbind option_bind]; [by rewrite app_nil_r|]. rewrite IH, <- app_assoc. done.
Qed.

Lemma run_toks_ok q acc :
  runs_ok q -> prev_ok acc q -> 0 <= q_nextlen q <= 15 ->
  Forall tok_ok (run_toks q (q_count q + 1)) /\
  toks_expand acc (run_toks q (q_count q + 1)) = Some (acc ++ replicate (Z.to_nat (q_count q + 1)) (q_nextlen q)).
Proof.
  intros [H1 H2] Hp Hn. unfold run_toks. set (c := q_count q + 1). destruct (Z.ltb_spec c (q_min q)) as [Hlt|Hge].
  { split; [by apply Forall_replicate|apply copies_expand]. }
  destruct (nz (q_nextlen q)) eqn:Hz.
  - apply nz_true in Hz. destruct (Z.eqb_spec (q_nextlen q) (q_prevlen q)) as [E|Hne]; cbn [negb].
    + split; [apply Forall_singleton; cbn; lia|]. destruct Hp as [Hp|Hp]; [lia|]. cbn. rewrite Hp. cbn. by rewrite E.
    + split; [apply List.Forall_cons; [done|]; apply Forall_singleton; cbn; lia|]. cbn. rewrite last_snoc. cbn.
      rewrite <- app_assoc. do 2 f_equal. replace (Z.to_nat c) with (S (Z.to_nat (c - 1))) by lia. done.
  - apply nz_false in Hz. rewrite Hz. split; [apply Forall_singleton; cbn; lia|]. done.
Qed.

(** The last of the lengths is the guard. *)
Definition guard : Z := 0xffff.

Lemma tok_loop_ok rest : forall q acc,
  runs_ok q -> prev_ok acc q -> 0 <= q_nextlen q <= 15 -> Forall (fun l => 0 <= l <= 15) rest ->
  Forall tok_ok (tok_loop (rest ++ [guard]) q) /\
  toks_expand acc (tok_loop (rest ++ [guard]) q) = Some (acc ++ replicate (Z.to_nat (q_count q)) (q_nextlen q) ++ q_nextlen q :: rest).
Proof.
  induction rest as [|r rest IH]; intros q acc Hq Hp Hn Hf; cbn [app tok_loop];
    destruct (run_toks_ok q acc Hq Hp Hn) as [Hr1 Hr2]; assert (Hc := ro_count _ Hq);
    assert (Es : replicate (Z.to_nat (q_count q + 1)) (q_nextlen q) = replicate (Z.to_nat (q_count q)) (q_nextlen q) ++ [q_nextlen q])
      by (rewrite <- replicate_S_end; f_equal; lia).
  - destruct (Z.eqb_spec (q_nextlen q) guard) as [E|_]; [unfold guard in E; lia|]. rewrite andb_false_r, app_nil_r. split; [done|]. by rewrite Hr2, Es.
  - apply Forall_cons_iff in Hf as [Hr Hf]. destruct (Z.ltb_spec (q_count q + 1) (q_max q)) as [Hlt|Hge], (Z.eqb_spec (q_nextlen q) r) as [E|Hne]; cbn [andb].
    1:{ rewrite <- E. destruct (IH _ acc (runs_more q Hq Hlt) Hp Hn Hf) as [I1 I2]. split; [done|]. rewrite I2. cbn. rewrite Es, <- !app_assoc. done. }
    all: destruct (runs_next_ok (q_nextlen q) r) as (N1 & N2 & N3 & N4).
    all: destruct (IH (runs_next (q_nextlen q) r) (acc ++ replicate (Z.to_nat (q_count q + 1)) (q_nextlen q)) N1) as [I1 I2]; [|lia|done|].
    1,3,5: right; rewrite N4; apply last_copies; lia.
    all: rewrite N2, N3 in I2; split; [by apply Forall_app|]; rewrite toks_expand_app, Hr2; cbn [mbind option_bind]; rewrite I2, Es, <- !app_assoc; done.
Qed.

(** ** Sending *)
Lemma sends_ext (m m' : writer -> option writer) b : (forall w, m w = m' w) -> sends m b -> sends m' b.
Proof. intros H [Hb Hs]. split; [done|]. intros w Hw Hr. rewrite <- H. by apply Hs. Qed.

(** The lengths of the entries from [n] on. *)
Definition lens_from (tree : list ct_data) (n : Z) (l : list Z) : Prop :=
  forall i x, l !! i = Some x -> exists e, aget tree (n + Z.of_nat i) = Some e /\ dl e = x.
Lemma lens_from_cons tree n x l : lens_from tree n (x :: l) -> (exists e, aget tree n = Some e /\ dl e = x) /\ lens_from tree (n + 1) l.
Proof.
  intros H. split.
  - destruct (H 0%nat x eq_refl) as (e & He & Hx). rewrite Z.add_0_r in He. by exists e.
  - intros i y Hi. destruct (H (S i) y Hi) as (e & He & Hy). exists e. split; [|done]. by replace (n + 1 + Z.of_nat i) with (n + Z.of_nat (S i)) by lia.
Qed.

Section send.
Context (bl : list ct_data) (cl : list Z).
Notation tok_coded := (tok_coded bl cl).

Lemma toks_bits_app a b : Forall tok_coded a -> Forall tok_coded b -> toks_bits bl (a ++ b) = toks_bits bl a ·· toks_bits bl b.
Proof.
  intros Ha Hb. induction Ha as [|t a Ht Ha IHa]; cbn [app toks_bits]; [by rewrite bcat_nil_l|].
  rewrite IHa, bcat_assoc; [done|by apply tok_bits_ok with cl|by apply toks_bits_ok with cl].
Qed.

Lemma sends_len l : tok_coded (TLen l) -> sends (fun w => send_code w l bl) (tok_bits bl (TLen l)).
Proof. intros [_ H]. unfold tok_bits. cbn [tok_extra]. rewrite bcat_nil_r. by apply coded_sends with cl. Qed.

Lemma sends_copies n l :
  Forall tok_coded (replicate n (TLen l)) -> sends (fun w => send_copies n w l bl) (toks_bits bl (replicate n (TLen l))).
Proof.
  induction n as [|n IH]; intros H; cbn [send_copies replicate toks_bits] in *; [apply sends_ret|]. apply Forall_cons_iff in H as [H1 H2].
  apply (sends_bind (fun w => send_code w l bl) (fun w => send_copies n w l bl)); [by apply sends_len|auto].
Qed.

Lemma sends_extra t v k : tok_coded t -> tok_extra t = (v, k) -> k <= 15 ->
  sends (fun w => w ← send_code w (tok_sym t) bl; send_bits w v k) (tok_bits bl t).
Proof.
  intros [Ht Hc] E Hk. assert (Hx := tok_extra_ok t Ht). unfold tok_bits. rewrite E in *. destruct Hx as [Hx1 Hx2]. cbn in Hx1, Hx2.
  apply (sends_bind (fun w => send_code w (tok_sym t) bl)); [by apply coded_sends with cl|]. apply sends_bits; [lia|done].
Qed.

(** The body of the loop of [send_tree] at the end of a run. *)
Lemma sends_run q count :
  Forall tok_coded (run_toks q count) ->
  sends (fun w =>
    if count <? q_min q then send_copies (Z.to_nat count) w (q_nextlen q) bl
    else if nz (q_nextlen q) then
      '(w, count) ← (if negb (q_nextlen q =? q_prevlen q) then w ← send_code w (q_nextlen q) bl; Some (w, count - 1) else Some (w, count));
      w ← send_code w REP_3_6 bl; send_bits w (count - 3) 2
    else if count <=? 10 then w ← send_code w REPZ_3_10 bl; send_bits w (count - 3) 3
    else w ← send_code w REPZ_11_138 bl; send_bits w (count - 11) 7) (toks_bits bl (run_toks q count)).
Proof.
  unfold run_toks. destruct (count <? q_min q); [apply sends_copies|]. destruct (nz (q_nextlen q)).
  - destruct (negb (q_nextlen q =? q_prevlen q)); intros H; apply Forall_cons_iff in H as [H1 H2]; cbn [toks_bits]; rewrite bcat_nil_r.
    + apply Forall_cons_iff in H2 as [H2 _].
      eapply sends_ext; [|apply (sends_bind (fun w => send_code w (q_nextlen q) bl) _ _ _ (sends_len _ H1) (sends_extra _ _ _ H2 eq_refl ltac:(lia)))].
      intros w. cbn [tok_sym]. by destruct (send_code w (q_nextlen q) bl).
    + eapply sends_ext; [|apply (sends_extra _ _ _ H1 eq_refl); lia]. done.
  - intros H. apply Forall_cons_iff in H as [H _]. cbn [toks_bits]. rewrite bcat_nil_r.
    destruct (Z.leb_spec count 10) as [Hc|Hc]; (eapply sends_ext; [|eapply (sends_extra _ _ _ H); [cbn [tok_extra]|]]); cbn [tok_sym].
    2:{ destruct (Z.leb_spec count 10); [done|lia]. } 2:{ lia. }
    3:{ destruct (Z.leb_spec count 10); [lia|done]. } 3:{ lia. }
    all: intros w; destruct (Z.leb_spec count 10); (done || lia).
Qed.

Lemma sends_loop l : forall n tree q,
  lens_from tree (n + 1) l -> Forall tok_coded (tok_loop l q) ->
  sends (fun w => send_loop (length l) n tree bl q w) (toks_bits bl (tok_loop l q)).
Proof.
  induction l as [|x l IH]; intros n tree q Ht Hf; cbn [length send_loop tok_loop]; [apply sends_ret|].
  apply lens_from_cons in Ht as [(e & He & Hx) Ht]. rewrite He. cbn [mbind option_bind]. rewrite Hx. cbn [tok_loop] in Hf.
  destruct ((q_count q + 1 <? q_max q) && (q_nextlen q =? x)); [by apply IH|]. apply Forall_app in Hf as [Hf1 Hf2].
  rewrite toks_bits_app by done. apply (sends_bind _ (fun w => send_loop (length l) (n + 1) tree bl (runs_next (q_nextlen q) x) w)); [by apply sends_run|by apply IH].
Qed.
End send.

(** ** Counting *)
Definition occurs (i : Z) (ts : list token) : Z := zcount (fun t => tok_sym t =? i) ts.

(** The counts of [bl'] are those of [bl] and the symbols [ts], up to the width of the field. *)
Definition tallies (bl : list ct_data) (ts : list token) (bl' : list ct_data) : Prop :=
  length bl' = length bl /\ forall i, 0 <= i < Z.of_nat (length bl) -> u16 (freq bl' i) = u16 (freq bl i + occurs i ts).

Lemma tallies_refl bl : tallies bl [] bl.
Proof. split; [done|]. intros i _. change (occurs i []) with 0. by rewrite Z.add_0_r. Qed.
Lemma tallies_trans bl ts bl1 ts' bl2 : tallies bl ts bl1 -> tallies bl1 ts' bl2 -> tallies bl (ts ++ ts') bl2.
Proof.
  intros [L1 H1] [L2 H2]. split; [congruence|]. intros i Hi. rewrite H2 by lia. unfold occurs in *. rewrite zcount_app.
  unfold u16 in *. rewrite <- Zplus_mod_idemp_l, H1, Zplus_mod_idemp_l by lia. f_equal. lia.
Qed.

Lemma tallies_add bl i k ts :
  0 <= i < Z.of_nat (length bl) -> (forall j, occurs j ts = if j =? i then k else 0) -> exists bl', add_freq bl i k = Some bl' /\ tallies bl ts bl'.
Proof.
  intros Hi Ho. unfold add_freq. destruct (aget_in bl i Hi) as [e Ee]. rewrite Ee. cbn [mbind option_bind]. rewrite aset_in by done. eexists. split; [done|].
  split; [apply length_insert|]. intros j Hj. rewrite Ho. unfold freq.
  assert (Eg : aget (<[Z.to_nat i := CtData (u16 (fc e + k)) (dl e)]> bl) j = if j =? i then Some (CtData (u16 (fc e + k)) (dl e)) else aget bl j).
  { apply aget_aset with (i := i). by rewrite aset_in. }
  rewrite Eg. destruct (Z.eqb_spec j i) as [->|]; [rewrite Ee; cbn; unfold u16; by rewrite Zmod_mod|by rewrite Z.add_0_r].
Qed.
Lemma occurs_one t j : occurs j [t] = if j =? tok_sym t then 1 else 0.
Proof. unfold occurs. rewrite zcount_cons, Z.eqb_sym. change (zcount _ []) with 0. destruct (_ =? _); lia. Qed.

(** The body of the loop of [scan_tree] at the end of a run. *)
Lemma tallies_run bl q count :
  Z.of_nat (length bl) >= BL_CODES -> 0 <= count -> Forall tok_ok (run_toks q count) -> 0 <= q_nextlen q <= 15 ->
  exists bl', (if count <? q_min q then add_freq bl (q_nextlen q) count
     else if nz (q_nextlen q) then
       bl_tree ← (if negb (q_nextlen q =? q_prevlen q) then add_freq bl (q_nextlen q) 1 else Some bl);
       add_freq bl_tree REP_3_6 1
     else if count <=? 10 then add_freq bl REPZ_3_10 1
     else add_freq bl REPZ_11_138 1) = Some bl' /\ tallies bl (run_toks q count) bl'.
Proof.
  unfold BL_CODES. intros Hl Hc Hf Hn. unfold run_toks in *. destruct (count <? q_min q).
  { apply tallies_add; [lia|]. intros j. rewrite Z.eqb_sym. unfold occurs. destruct (Z.eqb_spec (q_nextlen q) j).
    - rewrite zcount_all; [rewrite length_replicate; lia|]. intros t Ht. apply elem_of_replicate in Ht as [-> _]. by apply Z.eqb_eq.
    - apply zcount_none. intros t Ht. apply elem_of_replicate in Ht as [-> _]. by apply Z.eqb_neq. }
  destruct (nz (q_nextlen q)).
  - destruct (negb (q_nextlen q =? q_prevlen q)); cbn [mbind option_bind].
    + destruct (tallies_add bl (q_nextlen q) 1 [TLen (q_nextlen q)] ltac:(lia) (occurs_one _)) as (b1 & -> & T1). cbn [mbind option_bind].
      destruct (tallies_add b1 REP_3_6 1 [TRep (count - 1)]) as (b2 & -> & T2); [destruct T1; unfold REP_3_6; lia|apply (occurs_one (TRep _))|].
      exists b2. split; [done|]. by apply (tallies_trans _ [_] b1 [_]).
    + apply tallies_add; [unfold REP_3_6; lia|apply (occurs_one (TRep _))].
  - assert (Ho := occurs_one (TZero count)). cbn [tok_sym] in Ho. destruct (count <=? 10); (apply tallies_add; [unfold REPZ_3_10, REPZ_11_138; lia|done]).
Qed.

Lemma scan_loop_ok rest : forall n tree bl q,
  lens_from tree (n + 1) (rest ++ [guard]) -> Z.of_nat (length bl) >= BL_CODES -> runs_ok q ->
  0 <= q_nextlen q <= 15 -> Forall (fun l => 0 <= l <= 15) rest -> Forall tok_ok (tok_loop (rest ++ [guard]) q) ->
  exists bl', scan_loop (length (rest ++ [guard])) n tree bl q = Some bl' /\ tallies bl (tok_loop (rest ++ [guard]) q) bl'.
Proof.
  induction rest as [|r rest IH]; intros n tree bl q Ht Hl Hq Hn Hf Htk; cbn [app length scan_loop tok_loop] in *; assert (Hc := ro_count _ Hq);
    apply lens_from_cons in Ht as [(e & He & Hx) Ht]; rewrite He; cbn [mbind option_bind]; rewrite Hx.
  - destruct (Z.eqb_spec (q_nextlen q) guard) as [E|_]; [unfold guard in E; lia|]. rewrite andb_false_r in *. rewrite app_nil_r in *.
    destruct (tallies_run bl q (q_count q + 1) Hl ltac:(lia) Htk Hn) as (b & -> & T). by exists b.
  - apply Forall_cons_iff in Hf as [Hr Hf]. destruct (Z.ltb_spec (q_count q + 1) (q_max q)) as [Hlt|Hge], (Z.eqb_spec (q_nextlen q) r) as [E|Hne]; cbn [andb] in *.
    1:{ rewrite <- E in *. apply IH; try done. by apply runs_more. }
    all: apply Forall_app in Htk as [Hk1 Hk2]; destruct (tallies_run bl q (q_count q + 1) Hl ltac:(lia) Hk1 Hn) as (b & -> & T); cbn [mbind option_bind].
    all: destruct (runs_next_ok (q_nextlen q) r) as (N1 & N2 & N3 & N4).
    all: destruct (IH (n + 1) tree b (runs_next (q_nextlen q) r) Ht ltac:(destruct T; lia) N1 ltac:(lia) Hf Hk2) as (b' & -> & T').
    all: exists b'; split; [done|]; by apply (tallies_trans _ _ b).
Qed.
