(* ===== verification/TreesHeader.v ===== *)
(** The description of the dynamic trees: [scan_tree()], [build_bl_tree()] and [send_all_trees()] send bits from which the
    lengths of the two codes are read back. *)
From S2P Require Import Prelude Record Bits Huffman InfTreesProof Lz Fixed DeflateFormat TreesTables Trees.
From S2P Require Import BitWriter TreesCodes TreesEmit TreesBuild TreesLens TreesBitlen TreesTree TreesRle.

Definition lens15 (lens : list Z) : Prop := Forall (fun l => 0 <= l <= 15) lens.

(** ** The lengths of one tree *)
Definition toks_of (lens : list Z) : list token :=
  match lens with [] => [] | l :: rest => tok_loop (rest ++ [guard]) (runs_init l) end.

Lemma toks_of_ok lens acc : lens15 lens -> Forall tok_ok (toks_of lens) /\ toks_expand acc (toks_of lens) = Some (acc ++ lens).
Proof.
  intros H. destruct lens as [|l rest]; [split; [constructor|cbn; by rewrite app_nil_r]|]. apply Forall_cons_iff in H as [Hl Hr]. cbn [toks_of].
  destruct (runs_init_ok l ltac:(lia)) as (R1 & R2 & R3 & R4).
  destruct (tok_loop_ok rest (runs_init l) acc R1 ltac:(by left) ltac:(by rewrite R2) Hr) as [T1 T2]. split; [done|]. rewrite T2, R2, R3. done.
Qed.

(** A tree with the guard of [scan_tree] behind its last code. *)
Definition guarded (tree : list ct_data) (max_code : Z) : Prop :=
  0 <= max_code /\ max_code + 1 < Z.of_nat (length tree) /\ dad tree (max_code + 1) = guard.

Lemma guarded_from tree max_code : guarded tree max_code -> lens_from tree 0 (lens_of tree max_code ++ [guard]).
Proof.
  intros (H0 & Hl & Hg) i x Hi. assert (HL := length_lens_of tree max_code ltac:(lia)). rewrite Z.add_0_l.
  assert (Hi' := lookup_lt_Some _ _ _ Hi). rewrite length_app in Hi'. cbn [length] in Hi'.
  destruct (aget_in tree (Z.of_nat i) ltac:(lia)) as [e Ee]. exists e. split; [done|].
  assert (Hd : dad tree (Z.of_nat i) = dl e) by (unfold dad; by rewrite Ee). destruct (decide (i < length (lens_of tree max_code))%nat).
  - rewrite lookup_app_l in Hi by done. rewrite <- aget_nat, aget_lens_of in Hi by lia. congruence.
  - rewrite lookup_app_r in Hi by lia. destruct (i - length (lens_of tree max_code))%nat eqn:En; [|done]. injection Hi as <-.
    replace (Z.of_nat i) with (max_code + 1) in Hd by lia. congruence.
Qed.

(** The same, in the shape of the loops. *)
Lemma guarded_loop tree max_code :
  guarded tree max_code -> exists l rest e, lens_of tree max_code = l :: rest /\ aget tree 0 = Some e /\ dl e = l /\
    lens_from tree (0 + 1) (rest ++ [guard]) /\ length (rest ++ [guard]) = Z.to_nat (max_code + 1).
Proof.
  intros Hg. assert (Hf := guarded_from _ _ Hg). destruct Hg as (H0 & Hl & Hg). assert (HL := length_lens_of tree max_code ltac:(lia)).
  destruct (lens_of tree max_code) as [|l rest]; [cbn in HL; lia|]. cbn [app] in Hf. apply lens_from_cons in Hf as [(e & He & Hx) Hf].
  exists l, rest, e. split; [done|]. split; [done|]. split; [done|]. split; [done|]. rewrite length_app. cbn [length] in *. lia.
Qed.

Lemma scan_tree_ok tree max_code bl :
  0 <= max_code -> max_code + 1 < Z.of_nat (length tree) -> lens15 (lens_of tree max_code) -> Z.of_nat (length bl) >= BL_CODES ->
  exists tree' bl', scan_tree tree max_code bl = Some (tree', bl') /\ tallies bl (toks_of (lens_of tree max_code)) bl' /\
    guarded tree' max_code /\ length tree' = length tree /\ lens_of tree' max_code = lens_of tree max_code /\
    forall i, i <> max_code + 1 -> aget tree' i = aget tree i.
Proof.
  intros H0 Hl Hr Hb. unfold scan_tree. destruct (aget_in tree 0 ltac:(lia)) as [e0 E0]. rewrite E0. cbn [mbind option_bind].
  destruct (aget_in tree (max_code + 1) ltac:(lia)) as [e Ee]. destruct (aget_set_dl tree (max_code + 1) 0xffff e Ee) as (tree' & -> & Lt & G). cbn [mbind option_bind].
  assert (Hs : forall i, i <> max_code + 1 -> aget tree' i = aget tree i) by (intros i Hi; rewrite G; by destruct (Z.eqb_spec i (max_code + 1))).
  assert (Hg : guarded tree' max_code) by (split; [lia|]; split; [lia|]; unfold dad; by rewrite G, Z.eqb_refl).
  assert (El : lens_of tree' max_code = lens_of tree max_code) by (apply lens_of_ext; [lia|done|]; intros i Hi; unfold dad; by rewrite Hs by lia).
  destruct (toks_of_ok _ [] Hr) as [Hk _]. destruct (guarded_loop _ _ Hg) as (l & rest & e' & E1 & E2 & E3 & E4 & E5).
  rewrite El in E1. rewrite E1 in *. apply Forall_cons_iff in Hr as [Hr1 Hr2]. rewrite Hs, E0 in E2 by lia. injection E2 as <-.
  destruct (runs_init_ok l ltac:(lia)) as (R1 & R2 & _). rewrite <- E5, E3.
  destruct (scan_loop_ok rest 0 tree' bl (runs_init l) E4 Hb R1 ltac:(by rewrite R2) Hr2 Hk) as (bl' & -> & T). cbn [mbind option_bind].
  by exists tree', bl'.
Qed.

Lemma send_tree_ok tree max_code bl cl :
  guarded tree max_code -> Forall (tok_coded bl cl) (toks_of (lens_of tree max_code)) ->
  sends (send_tree tree max_code bl) (toks_bits bl (toks_of (lens_of tree max_code))).
Proof.
  intros Hg Hc. destruct (guarded_loop _ _ Hg) as (l & rest & e & E1 & E2 & E3 & E4 & E5). rewrite E1 in *. cbn [toks_of] in *.
  eapply sends_ext; [|apply (sends_loop bl cl _ _ _ _ E4 Hc)]. intros w. unfold send_tree. rewrite E2. cbn [mbind option_bind]. by rewrite E5, E3.
Qed.

(** ** The code length code *)

(** Lengths 0 at the end do not matter. *)
Lemma syms_of_zeros l n : forall lens i, 1 <= l -> syms_of l i (lens ++ replicate n 0) = syms_of l i lens.
Proof.
  intros lens. induction lens as [|x lens IH]; intros i Hl; cbn [app syms_of].
  - revert i. induction n as [|n IH]; intros i; cbn [replicate syms_of]; [done|]. destruct (Z.eqb_spec 0 l); [lia|]. apply IH.
  - by rewrite IH.
Qed.
Lemma canon_zeros lens n : canon (lens ++ replicate n 0) = canon lens.
Proof.
  unfold canon, canon_from. rewrite !flat_map_concat_map. f_equal. apply List.map_ext_in. intros l Hl%list_elem_of_In.
  rewrite elem_of_seqZ in Hl. by rewrite syms_of_zeros by lia.
Qed.
Lemma huff_decode_zeros lens n h : huff_decode (lens ++ replicate n 0) h = huff_decode lens h.
Proof. unfold huff_decode. by rewrite canon_zeros. Qed.
(** The decoder accepts a complete code. *)
Lemma complete_ok type lens : kraft (canon lens) = 2 ^ 15 -> code_ok type lens = true.
Proof. intros H. unfold code_ok. rewrite H. by destruct (canon lens). Qed.
Lemma coded_zeros tree lens n s : coded tree lens s -> coded tree (lens ++ replicate n 0) s.
Proof.
  intros (l & Hl & v & Hv & Hr & Hh). exists l. split; [done|]. exists v. split; [done|]. split; [done|]. intros h H. rewrite huff_decode_zeros. auto.
Qed.

(** All its lengths. *)
Definition cl_of (bl : list ct_data) : list Z := dad bl <$> seqZ 0 BL_CODES.

Lemma cl_of_zeros bl max_code :
  0 <= max_code < BL_CODES -> BL_CODES <= Z.of_nat (length bl) -> (forall i, max_code < i < BL_CODES -> dad bl i = 0) ->
  cl_of bl = lens_of bl max_code ++ replicate (Z.to_nat (BL_CODES - 1 - max_code)) 0.
Proof.
  intros Hm Hl Hz. assert (HL := length_lens_of bl max_code ltac:(lia)). apply list_eq. intros i. unfold cl_of. rewrite list_lookup_fmap.
  destruct (decide (Z.of_nat i < BL_CODES)) as [Hi|Hi].
  - rewrite (proj2 (lookup_seqZ 0 BL_CODES i (Z.of_nat i))) by lia. cbn [fmap option_fmap option_map]. destruct (decide (Z.of_nat i <= max_code)).
    + rewrite lookup_app_l by lia. by rewrite <- aget_nat, aget_lens_of by lia.
    + rewrite lookup_app_r, lookup_replicate_2 by lia. by rewrite Hz by lia.
  - rewrite lookup_seqZ_ge by lia. rewrite lookup_ge_None_2; [done|]. rewrite length_app, length_replicate. lia.
Qed.

(** Its lengths in the order [os]. *)
Fixpoint cl_bits (bl : list ct_data) (os : list Z) : bitstr :=
  match os with [] => bnil | o :: os => (dad bl o, 3) ·· cl_bits bl os end.

Definition cl_ok (bl : list ct_data) : Prop := BL_CODES <= Z.of_nat (length bl) /\ forall i, 0 <= i < BL_CODES -> 0 <= dad bl i <= 7.
Definition orders (os : list Z) : Prop := Forall (fun o => 0 <= o < BL_CODES) os.

Lemma cl_bits_ok bl os : cl_ok bl -> orders os -> bits_ok (cl_bits bl os) /\ (cl_bits bl os).2 = 3 * Z.of_nat (length os).
Proof.
  intros [_ H]. induction 1 as [|o os Ho Hos [IH1 IH2]]; cbn [cl_bits]; [split; [apply bits_ok_nil|done]|]. specialize (H o Ho).
  split; [apply bits_ok_cat; [split; cbn; lia|done]|]. cbn [bcat snd length]. rewrite IH2. lia.
Qed.

Lemma orders_bl : orders bl_order.
Proof. unfold orders, bl_order, BL_CODES. repeat (apply List.Forall_cons; [lia|]). apply List.Forall_nil. Qed.
Lemma orders_take n m : orders (take n (drop m bl_order)).
Proof. apply Forall_take, Forall_drop, orders_bl. Qed.

Lemma sends_cl bl n : forall rank,
  cl_ok bl -> 0 <= rank -> rank + Z.of_nat n <= BL_CODES ->
  sends (fun w => send_bl_lens n rank bl w) (cl_bits bl (take n (drop (Z.to_nat rank) bl_order))).
Proof.
  induction n as [|n IH]; intros rank Hc H0 Hn; cbn [send_bl_lens]; [apply sends_ret|]. unfold BL_CODES in Hn.
  destruct (aget_in bl_order rank ltac:(cbn; lia)) as [o Eo]. rewrite Eo. cbn [mbind option_bind].
  assert (Ho : 0 <= o < BL_CODES) by (apply (Forall_lookup_1 (fun o => 0 <= o < BL_CODES) bl_order (Z.to_nat rank)); [apply orders_bl|]; unfold aget in Eo; destruct (0 <=? rank); done).
  destruct Hc as [Hc1 Hc2]. destruct (aget_in bl o ltac:(lia)) as [e Ee]. rewrite Ee. cbn [mbind option_bind].
  assert (Ed : dad bl o = dl e) by (unfold dad; by rewrite Ee). specialize (Hc2 o Ho) as Hr.
  assert (Ed2 : drop (Z.to_nat rank) bl_order = o :: drop (Z.to_nat (rank + 1)) bl_order).
  { replace (Z.to_nat (rank + 1)) with (S (Z.to_nat rank)) by lia. apply drop_S. unfold aget in Eo. destruct (0 <=? rank); done. }
  rewrite Ed2. cbn [take cl_bits]. rewrite Ed. apply (sends_bind (fun w => send_bits w (dl e) 3)); [apply sends_bits; lia|].
  apply IH; [done|lia|unfold BL_CODES; lia].
Qed.

Lemma read_cl_ok bl rest : forall n order cl0, cl_ok bl -> orders order -> (n <= length order)%nat ->
  length (read_cl n order (then_rest (cl_bits bl (take n order)) rest) cl0) = length cl0 /\
  forall i, (i < length cl0)%nat -> read_cl n order (then_rest (cl_bits bl (take n order)) rest) cl0 !! i =
    if decide (Z.of_nat i ∈ take n order) then Some (dad bl (Z.of_nat i)) else cl0 !! i.
Proof.
  induction n as [|n IH]; intros order cl0 Hc Ho Hn; [done|]. destruct order as [|o order]; [cbn in Hn; lia|]. cbn [length] in Hn.
  assert (Ho' := Ho). apply Forall_cons_iff in Ho as [Ho1 Ho2]. cbn [take cl_bits read_cl].
  assert (Hk : bits_ok (dad bl o, 3)) by (split; cbn; [lia|]; destruct Hc as [_ Hc]; specialize (Hc o Ho1); lia).
  destruct (cl_bits_ok bl (take n order) Hc ltac:(by apply Forall_take)) as [Hk2 _]. rewrite then_rest_cat by done.
  assert (E1 := then_rest_mod _ (then_rest (cl_bits bl (take n order)) rest) Hk). assert (E2 := then_rest_div _ (then_rest (cl_bits bl (take n order)) rest) Hk).
  cbn [fst snd] in E1, E2. rewrite E1, E2. destruct (IH order (<[Z.to_nat o := dad bl o]> cl0) Hc Ho2 ltac:(lia)) as [L I]. rewrite length_insert in L, I.
  split; [done|]. intros i Hi. rewrite I by done. destruct (decide (Z.of_nat i ∈ take n order)) as [D|D]; [by rewrite decide_True by (by right)|].
  destruct (decide (Z.of_nat i = o)) as [<-|Hne].
  - rewrite decide_True by (by left). rewrite Nat2Z.id. by apply list_lookup_insert_eq.
  - rewrite decide_False by (rewrite elem_of_cons; tauto). apply list_lookup_insert_ne. lia.
Qed.

(** ** [build_bl_tree] *)
Lemma built_coded desc t t' m i :
  desc_ok desc -> tree_built desc t t' m -> elems desc <= Z.of_nat (length t) -> 0 <= i < elems desc -> freq t i <> 0 -> coded t' (lens_of t' m) i.
Proof.
  intros Hd [] Hl Hi Hf. destruct (tb_used i Hi Hf) as [Hm Hn]. assert (Hg := aget_lens_of t' m i ltac:(lia) ltac:(lia)).
  exists (dad t' i). split; [|by apply tb_codes]. assert (Hx := dk_max _ Hd). unfold aget in Hg. destruct (Z.leb_spec 0 i); [|lia].
  apply (Forall_lookup_1 _ _ _ _ tb_range) in Hg. cbn in Hg. lia.
Qed.

Lemma last_bl_ok bl fuel : forall m,
  BL_CODES <= Z.of_nat (length bl) -> 2 <= m <= 18 -> Z.of_nat fuel = m - 1 ->
  exists mb, last_bl fuel bl m = Some mb /\ 2 <= mb <= m /\ forall k o, mb < k <= m -> aget bl_order k = Some o -> dad bl o = 0.
Proof.
  induction fuel as [|fuel IH]; intros m Hl Hm Hf; [lia|]. cbn [last_bl]. rewrite Z.geb_leb. destruct (Z.leb_spec 3 m) as [H3|H3].
  2:{ exists m. split; [done|]. split; [lia|]. intros; lia. }
  destruct (aget_in bl_order m ltac:(cbn; lia)) as [o Eo]. rewrite Eo. cbn [mbind option_bind].
  assert (Ho : 0 <= o < BL_CODES) by (apply (Forall_lookup_1 (fun o => 0 <= o < BL_CODES) bl_order (Z.to_nat m)); [apply orders_bl|]; unfold aget in Eo; destruct (0 <=? m); done).
  destruct (aget_in bl o ltac:(lia)) as [e Ee]. rewrite Ee. cbn [mbind option_bind]. destruct (Z.eqb_spec (dl e) 0) as [Ez|]; cbn [negb].
  - destruct (IH (m - 1) Hl ltac:(lia) ltac:(lia)) as (mb & -> & Hmb & Hz). exists mb. split; [done|]. split; [lia|]. intros k o' Hk Ho'.
    destruct (decide (k = m)) as [->|]; [|apply (Hz k); (done || lia)]. rewrite Eo in Ho'. injection Ho' as <-. unfold dad. by rewrite Ee.
  - exists m. split; [done|]. split; [lia|]. intros; lia.
Qed.

(** A length that is not 0 is sent as itself at least once. *)
Definition zero_tok (t : token) : Prop := match t with TLen l => l = 0 | _ => True end.
#[export] Instance zero_tok_dec t : Decision (zero_tok t).
Proof. destruct t; cbn; apply _. Defined.

Lemma zero_toks ts : forall acc acc', Forall zero_tok ts -> Forall (eq 0) acc -> toks_expand acc ts = Some acc' -> Forall (eq 0) acc'.
Proof.
  induction ts as [|t ts IH]; intros acc acc' Ht Ha H; cbn [toks_expand] in H; [by injection H as <-|]. apply Forall_cons_iff in Ht as [Ht1 Ht2].
  destruct (tok_expand acc t) as [a|] eqn:E; [|done]. cbn [mbind option_bind] in H. apply (IH a); try done.
  destruct t as [l|n|n]; cbn in Ht1, E.
  - injection E as <-. apply Forall_app. split; [done|]. by apply Forall_singleton.
  - destruct (list.last acc) as [v|] eqn:El; [|done]. injection E as <-. apply Forall_app. split; [done|]. apply Forall_replicate.
    rewrite last_lookup in El. by apply (Forall_lookup_1 _ _ _ _ Ha) in El.
  - injection E as <-. apply Forall_app. split; [done|]. by apply Forall_replicate.
Qed.

Lemma some_len lens i l : lens15 lens -> lens !! i = Some l -> l <> 0 -> exists l', 1 <= l' <= 15 /\ TLen l' ∈ toks_of lens.
Proof.
  intros H Hi Hl. destruct (toks_of_ok lens [] H) as [Hk He]. destruct (decide (Forall zero_tok (toks_of lens))) as [Hz|Hz].
  - destruct Hl. symmetry. apply (Forall_lookup_1 (eq 0) lens i); [|done]. by apply (zero_toks (toks_of lens) []).
  - apply not_Forall_Exists in Hz; [|apply _]. apply Exists_exists in Hz as (t & Ht & Hz). apply list_elem_of_In in Ht.
    destruct t as [l'|n|n]; [|by destruct Hz..]. exists l'. split; [|done]. assert (Hr := proj1 (List.Forall_forall _ _) Hk _ (proj1 (list_elem_of_In _ _) Ht)).
    cbn in Hz, Hr. lia.
Qed.

(** What [build_bl_tree] prepares for the codes with the lengths [ll] and [dd]. *)
Record header_ready (s : trees_state) (max_blindex : Z) (ll dd : list Z) : Prop := {
  hr_ltree : guarded (t_ltree s) (t_lmax s) /\ lens_of (t_ltree s) (t_lmax s) = ll;
  hr_dtree : guarded (t_dtree s) (t_dmax s) /\ lens_of (t_dtree s) (t_dmax s) = dd;
  hr_lens : lens15 ll /\ lens15 dd;
  hr_lmax : 256 <= t_lmax s < L_CODES;
  hr_dmax : 0 <= t_dmax s < D_CODES;
  hr_cl : cl_ok (t_bltree s);
  hr_index : 3 <= max_blindex < BL_CODES;
  hr_zero : forall k o, max_blindex < k < BL_CODES -> aget bl_order k = Some o -> dad (t_bltree s) o = 0;
  hr_toks : Forall (tok_coded (t_bltree s) (cl_of (t_bltree s))) (toks_of ll ++ toks_of dd);
  hr_valid : codes_valid (cl_of (t_bltree s)) ll dd }.

Lemma tallied_nonzero bl ts bl' t :
  tallies bl ts bl' -> Forall tok_ok ts -> (forall i, 0 <= i < BL_CODES -> freq bl i = 0) -> BL_CODES <= Z.of_nat (length bl) ->
  Z.of_nat (length ts) < 2 ^ 16 -> t ∈ ts -> freq bl' (tok_sym t) <> 0.
Proof.
  intros [_ H] Hk H0 Hl Hn Ht Hz. assert (Hr := proj1 (List.Forall_forall _ _) Hk _ (proj1 (list_elem_of_In _ _) Ht)). apply tok_sym_range in Hr.
  specialize (H (tok_sym t) ltac:(lia)). rewrite Hz, H0, Z.add_0_l in H by done. unfold occurs in H.
  assert (H1 : 1 <= zcount (fun t' => tok_sym t' =? tok_sym t) ts <= Z.of_nat (length ts)).
  { split; [|apply zcount_le]. apply (zcount_pos _ _ t Ht). apply Z.eqb_refl. }
  rewrite (u16_small (zcount _ _)) in H by lia. change (u16 0) with 0 in H. lia.
Qed.

(** The length of every code of the code length code fits in the three bits sent for it. *)
Lemma built_cl t t' m : tree_built static_bl_desc t t' m -> BL_CODES <= Z.of_nat (length t) -> cl_ok t'.
Proof.
  intros [] Hl. cbn [elems static_bl_desc max_length] in *. split; [lia|]. intros i Hi. destruct (decide (i <= m)) as [Hm|Hm]; [|rewrite tb_beyond by lia; lia].
  assert (Hg := aget_lens_of t' m i ltac:(lia) ltac:(lia)). unfold aget in Hg. destruct (Z.leb_spec 0 i); [|lia].
  apply (Forall_lookup_1 _ _ _ _ tb_range) in Hg. cbn in Hg. unfold MAX_BL_BITS in Hg. lia.
Qed.

Lemma order_of i : 0 <= i < 16 -> exists k, 3 <= k < BL_CODES /\ aget bl_order k = Some i.
Proof.
  intros Hi. assert (Hc : forallb (fun i => existsb (fun k => bool_decide (aget bl_order k = Some i)) (seqZ 3 16)) (seqZ 0 16) = true) by (vm_compute; reflexivity).
  rewrite forallb_forall in Hc. specialize (Hc i). rewrite <- list_elem_of_In, elem_of_seqZ in Hc. specialize (Hc ltac:(lia)).
  apply existsb_exists in Hc as (k & Hk & E). rewrite <- list_elem_of_In, elem_of_seqZ in Hk. apply bool_decide_eq_true in E. exists k. split; [unfold BL_CODES; lia|done].
Qed.

(** The fields that the construction of the trees does not change. *)
Definition same_output (s s' : trees_state) : Prop :=
  t_w s' = t_w s /\ t_lit_bufsize s' = t_lit_bufsize s /\ t_last_lit s' = t_last_lit s /\ t_level s' = t_level s /\ t_strategy s' = t_strategy s.

Lemma built_lens15 desc t t' m : desc_ok desc -> tree_built desc t t' m -> lens15 (lens_of t' m).
Proof. intros Hd B. assert (Hx := dk_max _ Hd). eapply Forall_impl; [|apply (tb_range _ _ _ _ B)]. cbn. lia. Qed.

Lemma coded_agree t t' lens i : aget t' i = aget t i -> coded t lens i -> coded t' lens i.
Proof. intros E (l & Hl & v & Hv & Hr & Hh). exists l. split; [done|]. exists v. by rewrite E. Qed.

Section bl.
Context (s : trees_state) (tl td : list ct_data).
Context (Hsz : sizes_ok s) (Bl : tree_built static_l_desc tl (t_ltree s) (t_lmax s)) (Bd : tree_built static_d_desc td (t_dtree s) (t_dmax s)).
Context (Hend : freq tl END_BLOCK <> 0) (Hbl : forall i, 0 <= i < BL_CODES -> freq (t_bltree s) i = 0).
Notation ll := (lens_of (t_ltree s) (t_lmax s)).
Notation dd := (lens_of (t_dtree s) (t_dmax s)).

Lemma built_end : 256 <= t_lmax s < L_CODES /\ ll !! 256%nat = Some (dad (t_ltree s) 256) /\ dad (t_ltree s) 256 <> 0.
Proof.
  clear Bd Hbl. destruct (tb_used _ _ _ _ Bl END_BLOCK ltac:(cbn; unfold END_BLOCK, L_CODES, LITERALS, LENGTH_CODES; lia) Hend) as [H1 H2].
  assert (H3 := tb_max _ _ _ _ Bl). assert (Hs := sz_tree _ Hsz l_desc). cbn [elems static_l_desc dyn_tree stat_desc] in H3, Hs. split; [unfold END_BLOCK in H1; lia|]. split; [|done].
  assert (Hg := aget_lens_of (t_ltree s) (t_lmax s) 256 ltac:(unfold END_BLOCK in H1; lia) ltac:(lia)). done.
Qed.

Lemma build_bl_tree_ok :
  exists s' max_blindex, build_bl_tree s = Some (s', max_blindex) /\ header_ready s' max_blindex ll dd /\ sizes_ok s' /\ same_output s s' /\
    (forall i, i <= t_lmax s -> aget (t_ltree s') i = aget (t_ltree s) i) /\ (forall i, i <= t_dmax s -> aget (t_dtree s') i = aget (t_dtree s) i).
Proof.
  destruct built_end as (Hl1 & Hl2 & Hl3). assert (Hd1 := tb_max _ _ _ _ Bd). cbn [elems static_d_desc] in Hd1.
  assert (S1 := sz_tree _ Hsz l_desc). assert (S2 := sz_tree _ Hsz d_desc). assert (S3 := sz_tree _ Hsz bl_desc). cbn [elems static_l_desc static_d_desc static_bl_desc dyn_tree stat_desc] in S1, S2, S3.
  assert (El : L_CODES = 286) by done. assert (Ed : D_CODES = 30) by done. assert (Eb : BL_CODES = 19) by done.
  assert (R1 := built_lens15 _ _ _ _ (stat_desc_ok l_desc) Bl). assert (R2 := built_lens15 _ _ _ _ (stat_desc_ok d_desc) Bd).
  unfold build_bl_tree. destruct (scan_tree_ok (t_ltree s) (t_lmax s) (t_bltree s)) as (lt & b1 & -> & T1 & G1 & L1 & E1 & A1); [lia|lia|done|lia|]. cbn [mbind option_bind].
  destruct (scan_tree_ok (t_dtree s) (t_dmax s) b1) as (dt & b2 & -> & T2 & G2 & L2 & E2 & A2); [lia|lia|done|destruct T1; lia|]. cbn [mbind option_bind].
  assert (T := tallies_trans _ _ _ _ _ T1 T2). destruct (toks_of_ok ll [] R1) as [K1 X1]. destruct (toks_of_ok dd [] R2) as [K2 X2].
  assert (HK : Forall tok_ok (toks_of ll ++ toks_of dd)) by (by apply Forall_app).
  assert (HN : Z.of_nat (length (toks_of ll ++ toks_of dd)) < 2 ^ 16).
  { apply toks_expand_longer in X1, X2; [|done..]. cbn [app] in X1, X2. assert (Q1 := length_lens_of (t_ltree s) (t_lmax s) ltac:(lia)).
    assert (Q2 := length_lens_of (t_dtree s) (t_dmax s) ltac:(lia)). rewrite length_app. cbn [length] in *. lia. }
  set (s1 := s <| t_ltree := lt |> <| t_dtree := dt |> <| t_bltree := b2 |>).
  assert (Hsz1 : sizes_ok s1).
  { destruct Hsz. destruct T as [LT _]. split; [|done..]. intros []; cbn; lia. }
  destruct (build_tree_ok s1 bl_desc Hsz1) as (s2 & -> & B & Hsz2 & O). cbn [mbind option_bind]. cbn [stat_desc] in B. change (dyn_tree s1 bl_desc) with b2 in B. cbn [dyn_tree max_code] in B.
  assert (L3 := sz_tree _ Hsz2 bl_desc). cbn [elems static_bl_desc dyn_tree stat_desc] in L3.
  assert (HT : Forall (tok_coded (t_bltree s2) (cl_of (t_bltree s2))) (toks_of ll ++ toks_of dd)).
  { apply List.Forall_forall. intros t Ht%list_elem_of_In. assert (Hk := proj1 (List.Forall_forall _ _) HK _ (proj1 (list_elem_of_In _ _) Ht)). split; [done|].
    assert (Hr := tok_sym_range t Hk). assert (Hm := tb_max _ _ _ _ B). cbn [elems static_bl_desc] in Hm.
    rewrite (cl_of_zeros _ (t_blmax s2)); [apply coded_zeros|lia|lia|apply (tb_beyond _ _ _ _ B)].
    apply (built_coded _ _ _ _ _ (stat_desc_ok bl_desc) B); [cbn; destruct T; lia|done|]. apply (tallied_nonzero _ _ _ t T); (done || lia). }
  destruct (last_bl_ok (t_bltree s2) 17 18) as (mb & Emb & Hmb & Hz); [lia..|]. change (BL_CODES - 1) with 18. rewrite Emb. cbn [mbind option_bind].
  assert (ot := ot_tree _ _ _ O). assert (om := ot_max _ _ _ O).
  assert (Et : t_ltree s2 = lt /\ t_dtree s2 = dt) by (split; [apply (ot l_desc)|apply (ot d_desc)]; done).
  assert (Em : t_lmax s2 = t_lmax s /\ t_dmax s2 = t_dmax s) by (split; [apply (om l_desc)|apply (om d_desc)]; done).
  destruct Et as [Et1 Et2], Em as [Em1 Em2]. eexists _, mb. split; [done|].
  split; [|split; [|split; [|split]]].
  - split; cbn; rewrite ?Et1, ?Et2, ?Em1, ?Em2; try done; try lia.
    + by apply (built_cl b2 _ (t_blmax s2)); [|destruct T; lia].
    + destruct (some_len ll 256 _ R1 Hl2 Hl3) as (l' & Hl' & Hin). destruct (order_of l' ltac:(lia)) as (k & Hk & Ek).
      assert (Hc := proj1 (List.Forall_forall _ _) HT (TLen l')). rewrite <- list_elem_of_In, elem_of_app in Hc. destruct (Hc ltac:(by left)) as [_ (x & Hx & v & Hv & _)].
      cbn [tok_sym] in Hv. assert (dad (t_bltree s2) l' = x) by (unfold dad; by rewrite Hv).
      destruct (decide (mb < 3)); [|lia]. specialize (Hz k l' ltac:(lia) Ek). lia.
    + intros k o Hk. apply Hz. lia.
    + assert (Hm := tb_max _ _ _ _ B). cbn [elems static_bl_desc] in Hm. split.
      * rewrite (cl_of_zeros _ (t_blmax s2)); [|lia|lia|apply (tb_beyond _ _ _ _ B)]. apply complete_ok. rewrite canon_zeros. apply (tb_kraft _ _ _ _ B).
      * apply complete_ok, (tb_kraft _ _ _ _ Bl).
      * apply complete_ok, (tb_kraft _ _ _ _ Bd).
      * by eexists.
      * by apply Forall_app.
  - destruct Hsz2. split; done.
  - split; [apply (ot_w _ _ _ O)|]. split; [apply (ot_lit _ _ _ O)|]. split; [apply (ot_last _ _ _ O)|]. split; [apply (ot_level _ _ _ O)|apply (ot_strategy _ _ _ O)].
  - intros i Hi. cbn. rewrite Et1. apply A1. lia.
  - intros i Hi. cbn. rewrite Et2. apply A2. lia.
Qed.
End bl.

(** ** [send_all_trees] *)
Definition header_bits (s : trees_state) (max_blindex : Z) (ll dd : list Z) : bitstr :=
  (t_lmax s - 256, 5) ·· ((t_dmax s, 5) ·· ((max_blindex - 3, 4) ··
    (cl_bits (t_bltree s) (take (Z.to_nat (max_blindex + 1)) bl_order) ··
      (toks_bits (t_bltree s) (toks_of ll) ·· toks_bits (t_bltree s) (toks_of dd))))).

Section header.
Context (s : trees_state) (mb : Z) (ll dd : list Z) (H : header_ready s mb ll dd).
Notation bl := (t_bltree s).

Lemma send_all_trees_ok :
  bits_ok (header_bits s mb ll dd) /\
  (writer_ok (t_w s) -> (wbits (t_w s)).2 + (header_bits s mb ll dd).2 <= 8 * Z.of_nat (length (w_buf (t_w s))) ->
   exists w', send_all_trees s (t_lmax s + 1) (t_dmax s + 1) (mb + 1) = Some (s <| t_w := w' |>) /\ emits (t_w s) (header_bits s mb ll dd) w').
Proof.
  destruct H as [[G1 E1] [G2 E2] Hl Hlm Hdm Hcl Hmb Hz Hk _]. apply Forall_app in Hk as [Hk1 Hk2].
  assert (El : L_CODES = 286) by done. assert (Ed : D_CODES = 30) by done. assert (Eb : BL_CODES = 19) by done.
  assert (S : sends (fun w =>
    w ← send_bits w (t_lmax s - 256) 5; w ← send_bits w (t_dmax s) 5; w ← send_bits w (mb - 3) 4;
    w ← send_bl_lens (Z.to_nat (mb + 1)) 0 bl w; w ← send_tree (t_ltree s) (t_lmax s) bl w; send_tree (t_dtree s) (t_dmax s) bl w) (header_bits s mb ll dd)).
  { unfold header_bits.
    apply (sends_bind (fun w => send_bits w (t_lmax s - 256) 5)); [apply sends_bits; lia|].
    apply (sends_bind (fun w => send_bits w (t_dmax s) 5)); [apply sends_bits; lia|].
    apply (sends_bind (fun w => send_bits w (mb - 3) 4)); [apply sends_bits; lia|].
    apply (sends_bind (fun w => send_bl_lens (Z.to_nat (mb + 1)) 0 bl w)); [apply (sends_cl bl _ 0); [done|lia|lia]|].
    rewrite <- E1, <- E2 in *. apply (sends_bind (fun w => send_tree (t_ltree s) (t_lmax s) bl w)); by apply send_tree_ok with (cl_of bl). }
  destruct S as [Sb S]. split; [done|]. intros Hw Hr. destruct (S (t_w s) Hw Hr) as (w' & E & Em). exists w'. split; [|done].
  unfold send_all_trees. replace (t_lmax s + 1 - 257) with (t_lmax s - 256) by lia. replace (t_dmax s + 1 - 1) with (t_dmax s) by lia.
  replace (mb + 1 - 4) with (mb - 3) by lia. replace (t_lmax s + 1 - 1) with (t_lmax s) by lia.
  repeat (match goal with E : ?m ≫= _ = Some _ |- _ => destruct m; [|discriminate E] end; cbn [mbind option_bind] in E |- *). rewrite E. done.
Qed.

(** The lengths of the code length code, as they are read. *)
Lemma read_cl_all rest :
  read_cl (Z.to_nat (mb + 1)) cl_order (then_rest (cl_bits bl (take (Z.to_nat (mb + 1)) bl_order)) rest) (replicate 19 0) = cl_of bl.
Proof.
  destruct H as [_ _ _ _ _ Hcl Hmb Hz _ _]. assert (Eb : BL_CODES = 19) by done.
  destruct (read_cl_ok bl rest (Z.to_nat (mb + 1)) bl_order (replicate 19 0) Hcl orders_bl ltac:(cbn; lia)) as [L I]. change cl_order with bl_order.
  rewrite length_replicate in L, I. apply list_eq. intros i. unfold cl_of. rewrite list_lookup_fmap. destruct (decide (i < 19)%nat) as [Hi|Hi].
  2:{ rewrite lookup_ge_None_2 by lia. by rewrite lookup_seqZ_ge by lia. }
  rewrite I, (proj2 (lookup_seqZ 0 BL_CODES i (Z.of_nat i))) by lia. cbn [fmap option_fmap option_map]. destruct (decide _) as [D|D]; [done|].
  rewrite lookup_replicate_2 by done. f_equal. assert (Hin : Z.of_nat i ∈ bl_order).
  { clear -Hi. assert (Hc : forallb (fun i => bool_decide (i ∈ bl_order)) (seqZ 0 19) = true) by (vm_compute; reflexivity).
    rewrite forallb_forall in Hc. specialize (Hc (Z.of_nat i)). rewrite <- list_elem_of_In, elem_of_seqZ in Hc. by apply bool_decide_eq_true in Hc; [|lia]. }
  apply list_elem_of_lookup in Hin as [k Hk]. assert (Hk' := lookup_lt_Some _ _ _ Hk). cbn in Hk'.
  symmetry. apply (Hz (Z.of_nat k)); [|by rewrite aget_nat]. split; [|lia]. destruct (decide (Z.of_nat k <= mb)); [|lia]. destruct D.
  apply list_elem_of_lookup. exists k. by rewrite lookup_take_lt by lia.
Qed.

Lemma header_decodes rest : trees_read (then_rest (header_bits s mb ll dd) rest) ll dd (header_bits s mb ll dd).2.
Proof.
  assert (Hall := read_cl_all). destruct H as [[G1 E1] [G2 E2] [Hl1 Hl2] Hlm Hdm Hcl Hmb Hz Hk Hv].
  assert (El : L_CODES = 286) by done. assert (Ed : D_CODES = 30) by done. assert (Eb : BL_CODES = 19) by done.
  destruct (cl_bits_ok bl (take (Z.to_nat (mb + 1)) bl_order) Hcl ltac:(apply Forall_take, orders_bl)) as [Kc Lc].
  rewrite length_take in Lc. change (length bl_order) with 19%nat in Lc.
  assert (Kt := toks_bits_ok _ _ _ Hk). assert (Hk' := Hk). apply Forall_app in Hk' as [Hk1 Hk2].
  unfold header_bits. rewrite <- (toks_bits_app bl (cl_of bl)) by done.
  set (d := cl_bits _ _) in *. set (e := toks_bits _ _) in *.
  assert (Ka : bits_ok (t_lmax s - 256, 5)) by (split; cbn; lia). assert (Kb : bits_ok (t_dmax s, 5)) by (split; cbn; lia). assert (Kd : bits_ok (mb - 3, 4)) by (split; cbn; lia).
  rewrite !then_rest_cat by (repeat apply bits_ok_cat; done). set (s4 := then_rest e rest). set (s3 := then_rest d s4) in *.
  assert (D1 := fun r => then_rest_div _ r Ka). assert (D2 := fun r => then_rest_div _ r Kb). assert (D3 := fun r => then_rest_div _ r Kd). assert (D4 := fun r => then_rest_div _ r Kc).
  assert (M1 := fun r => then_rest_mod _ r Ka). assert (M2 := fun r => then_rest_mod _ r Kb). assert (M3 := fun r => then_rest_mod _ r Kd). cbn [fst snd] in D1, D2, D3, M1, M2, M3.
  unfold trees_read. rewrite M1, D1, M2.
  replace (2 ^ 10) with (2 ^ 5 * 2 ^ 5) by done. rewrite <- Z.div_div, D1, D2, M3 by done. replace (2 ^ 14) with (2 ^ 5 * (2 ^ 5 * 2 ^ 4)) by done.
  rewrite <- !Z.div_div, D1, D2, D3 by done. replace (14 + 3 * (mb - 3 + 4)) with (5 + (5 + (4 + d.2))) by lia.
  destruct Kc as [Kc0 Kc]. rewrite !Z.pow_add_r by lia. rewrite <- !Z.div_div by (try apply pow2_pos; try apply Z.pow_nonzero; lia). rewrite D1, D2, D3. unfold s3 at 2. rewrite D4.
  replace (mb - 3 + 4) with (mb + 1) by lia. unfold s3, d. rewrite Hall. exists e.2. split; [|split; [|split; [|split]]].
  - apply toks_decode; [done|]. destruct (toks_of_ok ll [] Hl1) as [_ X1]. destruct (toks_of_ok dd ll Hl2) as [_ X2].
    by rewrite toks_expand_app, X1.
  - rewrite <- E1. destruct G1 as (G1 & G1' & _). rewrite length_lens_of by lia. lia.
  - rewrite <- E2. destruct G2 as (G2 & G2' & _). rewrite length_lens_of by lia. lia.
  - cbn [bcat snd]. fold d. lia.
  - done.
Qed.
End header.
