(* ===== verification/TreesTally.v ===== *)
(** The state between blocks and while the symbols of a block are collected: [init_block()] and [_tr_tally()] keep the
    symbol buffers and the frequencies in step. The static trees hold the fixed codes. *)
From S2P Require Import Prelude Record Bits Huffman Lz Fixed DeflateFormat TreesTables Trees.
From S2P Require Import BitWriter TreesCodes TreesEmit TreesBuild TreesTree TreesHeader.

(** ** The static trees *)
Lemma has_lens_map tree lens : dl <$> tree = lens -> has_lens tree lens.
Proof.
  intros <- s l Hs. assert (Hr := aget_Some _ _ _ Hs). rewrite length_fmap in Hr. destruct (aget_in tree s Hr) as [[v l'] Ee]. exists v. rewrite Ee.
  unfold aget in *. destruct (0 <=? s); [|done]. rewrite list_lookup_fmap, Ee in Hs. cbn in Hs. congruence.
Qed.
Lemma counts_check count lens :
  forallb (fun l => bool_decide (aget count l = Some (if l =? 0 then 0 else cnt l lens))) (seqZ 0 16) = true -> counts_for count lens.
Proof.
  intros H. rewrite forallb_forall in H.
  assert (Hl : forall l, 0 <= l < 16 -> aget count l = Some (if l =? 0 then 0 else cnt l lens)).
  { intros l Hl. specialize (H l). rewrite <- list_elem_of_In, elem_of_seqZ in H. by apply bool_decide_eq_true in H; [|lia]. }
  split; [apply (Hl 0); lia|]. intros l Hr. rewrite Hl by lia. by destruct (Z.eqb_spec l 0); [lia|].
Qed.
Lemma codes_check tree lens count :
  dl <$> tree = lens -> kraft (canon lens) <= 2 ^ 15 -> forallb (fun l => (0 <=? l) && (l <=? 15)) lens = true ->
  forallb (fun l => bool_decide (aget count l = Some (if l =? 0 then 0 else cnt l lens))) (seqZ 0 16) = true ->
  gen_codes tree (Z.of_nat (length lens) - 1) count = Some tree -> codes_for tree lens.
Proof.
  intros Ht Hk Hl Hc Hg. destruct (gen_codes_ok tree lens count Hk) as (tree' & E & _ & Hf & _); [|by apply has_lens_map|by apply counts_check|rewrite Hg in E; by injection E as <-].
  apply List.Forall_forall. rewrite forallb_forall in Hl. intros l Hin. specialize (Hl l Hin). lia.
Qed.

Lemma static_ltree_codes : codes_for static_ltree fixed_lens.
Proof.
  apply (codes_check _ _ [0; 0; 0; 0; 0; 0; 0; 24; 152; 112; 0; 0; 0; 0; 0; 0]); vm_compute; (reflexivity || congruence).
Qed.
(** The distance codes of the format, with the two that the compressor does not use. *)
Definition all_dists : list ct_data := static_dtree ++ [CtData 15 5; CtData 31 5].
Lemma static_dtree_codes : codes_for all_dists fixed_dists.
Proof.
  apply (codes_check _ _ [0; 0; 0; 0; 0; 32; 0; 0; 0; 0; 0; 0; 0; 0; 0; 0]); vm_compute; (reflexivity || congruence).
Qed.

Lemma static_lcoded i : 0 <= i < 288 -> coded static_ltree fixed_lens i.
Proof.
  intros Hi. destruct (aget_in fixed_lens i ltac:(cbn; lia)) as [l Hl].
  assert (Hr : 1 <= l <= 15).
  { assert (Hc : forallb (fun l => (1 <=? l) && (l <=? 15)) fixed_lens = true) by (vm_compute; reflexivity). rewrite forallb_forall in Hc.
    unfold aget in Hl. destruct (0 <=? i); [|done]. specialize (Hc l). apply list_elem_of_lookup_2, list_elem_of_In, Hc in Hl. lia. }
  exists l. split; [done|]. apply static_ltree_codes; [done|lia].
Qed.
Lemma static_dcoded i : 0 <= i < D_CODES -> coded static_dtree fixed_dists i.
Proof.
  unfold D_CODES. intros Hi. apply (coded_agree all_dists); [symmetry; apply aget_app_l; cbn; lia|]. exists 5. split; [lia|].
  apply static_dtree_codes; [|lia]. unfold aget. destruct (Z.leb_spec 0 i); [|lia]. apply lookup_replicate_2. lia.
Qed.

(** ** The state of a block *)

(** The code of a symbol in the literal and length tree, and whether its distance has the code [i]. *)
Definition lsym (x : sym) : Z := if x.1 =? 0 then x.2 else lcode x.2 + LITERALS + 1.
Definition has_dcode (i : Z) (x : sym) : bool := negb (x.1 =? 0) && (dcode (x.1 - 1) =? i).

(** The symbols [syms] have been collected. *)
Record collected (s : trees_state) (syms : list sym) : Prop := {
  bs_sizes : sizes_ok s;
  bs_writer : writer_ok (t_w s);
  bs_lit : 128 <= t_lit_bufsize s <= 2 ^ 15;
  bs_buf : Z.of_nat (length (w_buf (t_w s))) = 4 * t_lit_bufsize s;
  bs_last : t_last_lit s = Z.of_nat (length syms);
  bs_count : t_last_lit s < t_lit_bufsize s;
  bs_syms : Forall sym_ok syms;
  bs_holds : holds (w_buf (t_w s)) (t_lit_bufsize s) 0 syms;
  bs_lfreq : forall i, 0 <= i < L_CODES -> freq (t_ltree s) i = zcount (fun x => lsym x =? i) syms + (if i =? END_BLOCK then 1 else 0);
  bs_dfreq : forall i, 0 <= i < D_CODES -> freq (t_dtree s) i = zcount (has_dcode i) syms;
  bs_blfreq : forall i, 0 <= i < BL_CODES -> freq (t_bltree s) i = 0 }.

(** [init_block] *)
Lemma freq_set_fc tree i v : 0 <= i < Z.of_nat (length tree) ->
  exists tree', set_fc tree i v = Some tree' /\ length tree' = length tree /\ forall j, freq tree' j = if j =? i then u16 v else freq tree j.
Proof.
  intros Hi. destruct (aget_in tree i Hi) as [e Ee]. destruct (aget_set_fc tree i v e Ee) as [E G]. eexists. split; [exact E|]. split; [apply length_insert|].
  intros j. unfold freq. rewrite G. by destruct (j =? i).
Qed.

Lemma zero_freqs_ok fuel : forall n tree, 0 <= n -> n + Z.of_nat fuel <= Z.of_nat (length tree) ->
  exists tree', zero_freqs fuel n tree = Some tree' /\ length tree' = length tree /\
    forall i, freq tree' i = if (n <=? i) && (i <? n + Z.of_nat fuel) then 0 else freq tree i.
Proof.
  induction fuel as [|fuel IH]; intros n tree Hn Hl; cbn [zero_freqs].
  - exists tree. split; [done|]. split; [done|]. intros i. destruct (Z.leb_spec n i), (Z.ltb_spec i (n + Z.of_nat 0)); (lia || done).
  - destruct (freq_set_fc tree n 0) as (t1 & -> & L1 & F1); [lia|]. cbn [mbind option_bind]. destruct (IH (n + 1) t1) as (t2 & -> & L2 & F2); [lia..|].
    exists t2. split; [done|]. split; [lia|]. intros i. rewrite F2, F1. change (u16 0) with 0.
    destruct (Z.leb_spec (n + 1) i), (Z.ltb_spec i (n + 1 + Z.of_nat fuel)), (Z.leb_spec n i), (Z.ltb_spec i (n + Z.of_nat (S fuel))), (Z.eqb_spec i n); cbn [andb]; (done || lia).
Qed.

(** What a new block needs of the state. *)
Record between_blocks (s : trees_state) : Prop := {
  bb_sizes : sizes_ok s;
  bb_writer : writer_ok (t_w s);
  bb_lit : 128 <= t_lit_bufsize s <= 2 ^ 15;
  bb_buf : Z.of_nat (length (w_buf (t_w s))) = 4 * t_lit_bufsize s }.

Lemma init_block_ok s : between_blocks s -> exists s', init_block s = Some s' /\ collected s' [] /\ t_w s' = t_w s /\ t_level s' = t_level s /\ t_lit_bufsize s' = t_lit_bufsize s.
Proof.
  intros [Hsz Hw Hlit Hbuf]. assert (S1 := sz_tree _ Hsz l_desc). assert (S2 := sz_tree _ Hsz d_desc). assert (S3 := sz_tree _ Hsz bl_desc).
  cbn [elems static_l_desc static_d_desc static_bl_desc dyn_tree stat_desc] in S1, S2, S3.
  assert (El : L_CODES = 286) by done. assert (Ed : D_CODES = 30) by done. assert (Eb : BL_CODES = 19) by done. unfold init_block.
  destruct (zero_freqs_ok (Z.to_nat L_CODES) 0 (t_ltree s)) as (lt & -> & L1 & F1); [lia..|]. cbn [mbind option_bind].
  destruct (zero_freqs_ok (Z.to_nat D_CODES) 0 (t_dtree s)) as (dt & -> & L2 & F2); [lia..|]. cbn [mbind option_bind].
  destruct (zero_freqs_ok (Z.to_nat BL_CODES) 0 (t_bltree s)) as (bt & -> & L3 & F3); [lia..|]. cbn [mbind option_bind].
  destruct (freq_set_fc lt END_BLOCK 1) as (lt2 & -> & L4 & F4); [unfold END_BLOCK; lia|]. cbn [mbind option_bind].
  eexists. split; [done|]. split; [|done]. split; cbn; try done; try lia.
  - destruct Hsz. split; [|done..]. intros []; cbn; lia.
  - intros i Hi. rewrite F4. change (u16 1) with 1. destruct (i =? END_BLOCK); [done|]. rewrite F1. destruct (Z.leb_spec 0 i), (Z.ltb_spec i (0 + Z.of_nat (Z.to_nat L_CODES))); (done || lia).
  - intros i Hi. rewrite F2. destruct (Z.leb_spec 0 i), (Z.ltb_spec i (0 + Z.of_nat (Z.to_nat D_CODES))); (done || lia).
  - intros i Hi. rewrite F3. destruct (Z.leb_spec 0 i), (Z.ltb_spec i (0 + Z.of_nat (Z.to_nat BL_CODES))); (done || lia).
Qed.

(** [_tr_tally] *)
Lemma freq_add tree i : 0 <= i < Z.of_nat (length tree) -> 0 <= freq tree i < 2 ^ 16 - 1 ->
  exists tree', add_freq tree i 1 = Some tree' /\ length tree' = length tree /\ forall j, freq tree' j = freq tree j + (if j =? i then 1 else 0).
Proof.
  intros Hi Hf. unfold add_freq. destruct (aget_in tree i Hi) as [e Ee]. rewrite Ee. cbn [mbind option_bind]. unfold freq in Hf. rewrite Ee in Hf. rewrite u16_small by lia.
  rewrite aset_in by done. eexists. split; [done|]. split; [apply length_insert|]. intros j. unfold freq.
  rewrite (aget_aset tree i (CtData (fc e + 1) (dl e)) _ j) by (by rewrite aset_in). destruct (Z.eqb_spec j i) as [->|]; [by rewrite Ee|lia].
Qed.

(** Both buffers after a symbol was added. *)
Lemma buffers_add w lit syms dist lc :
  writer_ok w -> Z.of_nat (length (w_buf w)) = 4 * lit -> (wbits w).2 <= 8 * lit -> Z.of_nat (length syms) < lit -> holds (w_buf w) lit 0 syms -> sym_ok (dist, lc) ->
  exists b1 b2, d_buf_set (w_buf w) lit (Z.of_nat (length syms)) (u16 dist) = Some b1 /\ l_buf_set b1 lit (Z.of_nat (length syms)) (u8 lc) = Some b2 /\
    length b2 = length (w_buf w) /\ holds b2 lit 0 (syms ++ [(dist, lc)]) /\ forall i, i < lit -> aget b2 i = aget (w_buf w) i.
Proof.
  intros Hw Hl Hp Hn Hh [Hs1 Hs2]. cbn [fst snd] in Hs1, Hs2. rewrite u16_small, u8_small by lia. unfold d_buf_set, l_buf_set. set (n := Z.of_nat (length syms)) in *.
  destruct (aset (w_buf w) (lit + 2 * n) (dist mod 256)) as [c1|] eqn:E1; [|rewrite aset_in in E1 by lia; done]. cbn [mbind option_bind].
  assert (L1 := length_aset _ _ _ _ E1). destruct (aset c1 (lit + 2 * n + 1) (dist / 256)) as [c2|] eqn:E2; [|rewrite aset_in in E2 by lia; done].
  assert (L2 := length_aset _ _ _ _ E2). destruct (aset c2 (3 * lit + n) lc) as [c3|] eqn:E3; [|rewrite aset_in in E3 by lia; done].
  assert (L3 := length_aset _ _ _ _ E3).
  assert (G : forall j, aget c3 j = if j =? 3 * lit + n then Some lc else if j =? lit + 2 * n + 1 then Some (dist / 256) else if j =? lit + 2 * n then Some (dist mod 256) else aget (w_buf w) j).
  { intros j. rewrite (aget_aset _ _ _ _ j E3), (aget_aset _ _ _ _ j E2), (aget_aset _ _ _ _ j E1). done. }
  exists c2, c3. split; [done|]. split; [done|]. split; [congruence|]. split.
  - intros i x Hi. apply lookup_snoc_Some in Hi as [[Hlt Hi]|[-> <-]].
    + destruct (Hh i x Hi) as [H1 H2]. unfold d_buf_get, l_buf_get in *. rewrite !G. rewrite Z.add_0_l in *.
      assert (Hin : Z.of_nat i < n) by (unfold n; change (i < @length sym syms)%nat in Hlt; lia). do 9 (match goal with |- context [?a =? ?b] => destruct (Z.eqb_spec a b); [lia|] end). done.
    + unfold d_buf_get, l_buf_get. rewrite !G, Z.add_0_l. change (Z.of_nat (@length (Z * Z) syms)) with n. cbn [fst snd].
      destruct (Z.eqb_spec (lit + 2 * n) (3 * lit + n)); [lia|]. destruct (Z.eqb_spec (lit + 2 * n) (lit + 2 * n + 1)); [lia|]. rewrite Z.eqb_refl.
      destruct (Z.eqb_spec (lit + 2 * n + 1) (3 * lit + n)); [lia|]. rewrite !Z.eqb_refl. cbn [mbind option_bind]. split; [|done]. f_equal.
      pose proof (Z.div_mod dist 256 ltac:(lia)). lia.
  - intros i Hi. rewrite G. do 3 (match goal with |- context [?a =? ?b] => destruct (Z.eqb_spec a b); [lia|] end). done.
Qed.

(** Writes behind the pending output do not change it. *)
Lemma writer_beyond w buf n :
  writer_ok w -> length buf = length (w_buf w) -> (wbits w).2 <= 8 * n -> (forall i, i < n -> aget buf i = aget (w_buf w) i) ->
  writer_ok (w <| w_buf := buf |>) /\ wbits (w <| w_buf := buf |>) = wbits w.
Proof.
  intros [Hp Hs Hv Hb Hy] Hl Hn Hsame. cbn [wbits snd] in Hn.
  assert (E : wbytes (w <| w_buf := buf |>) = wbytes w).
  { unfold wbytes. cbn. apply list_eq. intros i. destruct (decide (i < Z.to_nat (w_pending w))%nat).
    - rewrite !lookup_take_lt by done. rewrite <- !aget_nat. apply Hsame. lia.
    - by rewrite !lookup_take_ge by lia. }
  split; [|unfold wbits; by rewrite E]. split; [|cbn; try done..]; cbn; [lia|lia|by rewrite E].
Qed.

Lemma lsym_range x : sym_ok x -> 0 <= lsym x < L_CODES /\ lsym x <> END_BLOCK.
Proof.
  intros [H2 H1]. unfold lsym. destruct (x.1 =? 0); [unfold L_CODES, END_BLOCK, LITERALS, LENGTH_CODES; lia|].
  destruct (length_facts x.2 H2) as (c & e & b & v & Hlc & Hcr & _). unfold lcode. rewrite Hlc. cbn [odef]. unfold L_CODES, END_BLOCK, LITERALS, LENGTH_CODES in *. lia.
Qed.
Lemma dcode_range x : sym_ok x -> x.1 <> 0 -> d_code (x.1 - 1) = Some (dcode (x.1 - 1)) /\ 0 <= dcode (x.1 - 1) < D_CODES.
Proof.
  intros [H2 H1] Hx. destruct (dist_facts (x.1 - 1) ltac:(lia)) as (c & e & b & v & Hdc & Hcr & _). unfold dcode. rewrite Hdc. done.
Qed.
Lemma zcount_snoc {A} (p : A -> bool) l x : zcount p (l ++ [x]) = zcount p l + (if p x then 1 else 0).
Proof. rewrite zcount_app, zcount_cons. change (zcount p []) with 0. lia. Qed.

Lemma freq_small s syms : collected s syms -> forall i, (0 <= i < L_CODES -> 0 <= freq (t_ltree s) i < 2 ^ 16 - 1) /\ (0 <= i < D_CODES -> 0 <= freq (t_dtree s) i < 2 ^ 16 - 1).
Proof.
  intros B i. assert (Hn := bs_last _ _ B). assert (Hc := bs_count _ _ B). assert (Hl := bs_lit _ _ B). split; intros Hi.
  - rewrite (bs_lfreq _ _ B i Hi). pose proof (zcount_nonneg (fun x => lsym x =? i) syms). pose proof (zcount_le (fun x => lsym x =? i) syms). destruct (i =? END_BLOCK); lia.
  - rewrite (bs_dfreq _ _ B i Hi). pose proof (zcount_nonneg (has_dcode i) syms). pose proof (zcount_le (has_dcode i) syms). lia.
Qed.

Lemma tr_tally_ok s syms dist lc :
  collected s syms -> (wbits (t_w s)).2 <= 8 * t_lit_bufsize s -> t_last_lit s + 1 < t_lit_bufsize s -> sym_ok (dist, lc) ->
  exists s', tr_tally s dist lc = Some (s', t_last_lit s + 1 =? t_lit_bufsize s - 1) /\ collected s' (syms ++ [(dist, lc)]) /\
    wbits (t_w s') = wbits (t_w s) /\ t_lit_bufsize s' = t_lit_bufsize s /\ t_level s' = t_level s.
Proof.
  intros B Hp Hlt Hx. assert (Hsmall := freq_small _ _ B). destruct (lsym_range _ Hx) as [Hls Hne]. assert (HD := dcode_range _ Hx). destruct B as [Bsz Bw Blit Bbuf Blast Bcount Bsyms Bholds Blfreq Bdfreq Bblfreq].
  assert (S1 := sz_tree _ Bsz l_desc). assert (S2 := sz_tree _ Bsz d_desc). cbn [elems static_l_desc static_d_desc dyn_tree stat_desc] in S1, S2.
  assert (El : L_CODES = 286) by done. assert (Ed : D_CODES = 30) by done.
  unfold tr_tally. rewrite Blast. destruct (buffers_add (t_w s) (t_lit_bufsize s) syms dist lc) as (b1 & b2 & -> & E2 & Lb & Hh & Hf); try done; [lia|]. cbn [mbind option_bind]. rewrite E2. cbn [mbind option_bind].
  destruct (writer_beyond (t_w s) b2 (t_lit_bufsize s) Bw Lb Hp Hf) as [Hw Ew]. assert (Hsz := Bsz). destruct Hsz as [Hszt Hszh Hszd].
  rewrite u32_small by lia. destruct (freq_add (t_ltree s) (lsym (dist, lc))) as (lt & Alt & Llt & Flt); [lia|by apply Hsmall|].
  assert (Hcount : forall i, zcount (fun x => lsym x =? i) (syms ++ [(dist, lc)]) = zcount (fun x => lsym x =? i) syms + (if i =? lsym (dist, lc) then 1 else 0)).
  { intros i. rewrite zcount_snoc. by rewrite Z.eqb_sym. }
  unfold lsym in Alt. cbn [fst snd] in *. destruct (Z.eqb_spec dist 0) as [E0|Hd].
  - cbn [t_ltree]. change (t_ltree _) with (t_ltree s). rewrite Alt. cbn [mbind option_bind]. eexists. split; [done|]. split; [|split; [exact Ew|done]].
    split; cbn; try done; try lia.
    + split; [|done..]. intros []; cbn; [lia|apply (Hszt d_desc)|apply (Hszt bl_desc)].
    + rewrite length_app. cbn [length]. lia.
    + apply Forall_app. split; [done|]. by apply Forall_singleton.
    + intros i Hi. rewrite Flt, (Blfreq i Hi), Hcount. lia.
    + intros i Hi. rewrite (Bdfreq i Hi), zcount_snoc. unfold has_dcode at 3. cbn [fst]. rewrite E0. cbn. lia.
  - destruct HD as [HD1 HD2]; [done|]. destruct (freq_add (t_dtree s) (dcode (dist - 1))) as (dt & Adt & Ldt & Fdt); [lia|by apply Hsmall|].
    destruct (length_facts lc ltac:(apply Hx)) as (c & e & b & v & Hlc & _). unfold lcode in Alt. rewrite Hlc in *. cbn [odef mbind option_bind] in *.
    change (t_ltree _) with (t_ltree s). rewrite Alt. cbn [mbind option_bind]. rewrite HD1. cbn [mbind option_bind].
    change (t_dtree _) with (t_dtree s). rewrite Adt. cbn [mbind option_bind]. eexists. split; [done|]. split; [|split; [exact Ew|done]].
    split; cbn; try done; try lia.
    + split; [|done..]. intros []; cbn; [lia|lia|apply (Hszt bl_desc)].
    + rewrite length_app. cbn [length]. lia.
    + apply Forall_app. split; [done|]. by apply Forall_singleton.
    + intros i Hi. rewrite Flt, (Blfreq i Hi), Hcount. lia.
    + intros i Hi. rewrite Fdt, (Bdfreq i Hi), zcount_snoc. unfold has_dcode at 3. cbn [fst]. destruct (Z.eqb_spec dist 0); [done|]. cbn [negb andb]. by rewrite Z.eqb_sym.
Qed.

(** ** The inline tallies *)
Lemma tally_macros s dist lc :
  0 < dist <= 32768 -> 0 <= lc < 256 ->
  tr_tally_lit s lc = tr_tally s 0 lc /\
  forall s' full, tr_tally s dist lc = Some (s', full) -> tr_tally_dist s dist lc = Some (s' <| t_matches := t_matches s |>, full).
Proof.
  intros Hd Hl. unfold tr_tally_lit, tr_tally_dist, tr_tally. rewrite !(u16_small dist), (u16_small (dist - 1)), u8_small, Z.eqb_refl by lia. change (u16 0) with 0. split.
  - destruct (d_buf_set _ _ _ _) as [b1|]; [|done]. cbn [mbind option_bind]. destruct (l_buf_set _ _ _ _) as [b2|]; [|done]. cbn [mbind option_bind].
    change (t_ltree (_ <| t_last_lit := _ |>)) with (t_ltree s). by destruct (add_freq _ _ _).
  - intros s' full. destruct (d_buf_set _ _ _ _) as [b1|]; [|done]. cbn [mbind option_bind]. destruct (l_buf_set _ _ _ _) as [b2|]; [|done]. cbn [mbind option_bind].
    destruct (Z.eqb_spec dist 0); [lia|]. destruct (aget length_code lc) as [c|]; [|done]. cbn [mbind option_bind].
    change (t_ltree (_ <| t_last_lit := _ |>)) with (t_ltree s). destruct (add_freq (t_ltree s) _ _) as [lt|]; [|done]. cbn [mbind option_bind].
    destruct (d_code _) as [dc|]; [|done]. cbn [mbind option_bind]. change (t_dtree (_ <| t_last_lit := _ |>)) with (t_dtree s).
    destruct (add_freq (t_dtree s) _ _) as [dt|]; [|done]. cbn [mbind option_bind]. intros [= <- <-]. by destruct s.
Qed.
