(* ===== verification/TreesFlush.v ===== *)
(** [_tr_flush_block()]: whatever encoding it chooses, the block is read back as the data of the symbols collected. *)
From S2P Require Import Prelude Record Bits Huffman Lz Fixed DeflateFormat TreesTables Trees.
From S2P Require Import BitWriter TreesCodes TreesEmit TreesBuild TreesLens TreesTree TreesRle TreesHeader TreesTally.

(** ** Room *)

(** The longest description of trees, with the three bits before it: 14 bits, 19 lengths of three bits, and 316 code
    lengths of at most seven bits and seven extra bits each. *)
Definition HEADER_MAX : Z := 3 + 14 + 3 * 19 + 14 * 316.
(** The longest codes of a symbol. *)
Definition sym_max (x : sym) : Z := if x.1 =? 0 then 15 else 48.

(** With [n] bits pending, at index [lx], the longest codes for [syms] never reach the symbols that are still to be read
    from the buffer, and there is room for the end of the block. *)
Fixpoint room_for (n lit lx : Z) (syms : list sym) : bool :=
  match syms with
  | [] => n + 23 <=? 32 * lit
  | x :: syms => (n <=? 8 * (lit + 2 * lx)) && room_for (n + sym_max x) lit (lx + 1) syms
  end.

Lemma code_bits_len tree lens s : coded tree lens s -> 1 <= (code_bits tree s).2 <= 15.
Proof. intros (l & Hl & v & Hv & _). unfold code_bits. rewrite Hv. cbn. lia. Qed.

Section room.
Context (lt dt : list ct_data) (ll dd : list Z).
Lemma sym_bits_len x : codable lt dt ll dd x -> 0 <= (sym_bits lt dt x).2 <= sym_max x.
Proof.
  intros [[H2 H1] Hc]. unfold sym_bits, sym_max, sym_coded in *. destruct (Z.eqb_spec x.1 0) as [|Hne]; [pose proof (code_bits_len _ _ _ Hc); lia|].
  destruct Hc as [Hc1 Hc2]. apply code_bits_len in Hc1, Hc2.
  destruct (length_facts x.2 H2) as (c & e & b & v & Hlc & Hcr & He & Hb & _ & Her & _).
  destruct (dist_facts (x.1 - 1) ltac:(lia)) as (c' & e' & b' & v' & Hdc & Hcr' & He' & Hb' & _ & Her' & _).
  cbn [bcat snd]. rewrite !xbits_len. unfold lcode, dcode in *. rewrite Hlc, Hdc in *. cbn [odef] in *. rewrite He, He'. cbn [odef]. lia.
Qed.

Lemma room_overlay syms lit : forall n n' lx,
  Forall (codable lt dt ll dd) syms -> coded lt ll END_BLOCK -> room_for n lit lx syms = true -> n' <= n ->
  overlay_ok lt dt n' lit lx syms /\ n' + (block_bits lt dt syms).2 + 8 <= 32 * lit.
Proof.
  induction syms as [|x syms IH]; intros n n' lx Hc He Hr Hn; cbn [room_for overlay_ok] in *.
  - apply Z.leb_le in Hr. split; [done|]. apply code_bits_len in He. unfold block_bits. cbn [data_bits bcat snd bnil]. lia.
  - apply andb_true_iff in Hr as [Hr1 Hr2]. apply Z.leb_le in Hr1. apply Forall_cons_iff in Hc as [Hx Hc]. apply sym_bits_len in Hx.
    destruct (IH _ (n' + (sym_bits lt dt x).2) _ Hc He Hr2 ltac:(lia)) as [I1 I2]. split; [split; [lia|done]|].
    unfold block_bits in *. cbn [data_bits bcat snd] in *. lia.
Qed.
End room.

Lemma header_len s mb ll dd : header_ready s mb ll dd -> 0 <= (header_bits s mb ll dd).2 <= HEADER_MAX - 3.
Proof.
  intros [[G1 E1] [G2 E2] [Hl1 Hl2] Hlm Hdm Hcl Hmb Hz Hk _]. unfold header_bits. cbn [bcat snd].
  assert (El : L_CODES = 286) by done. assert (Ed : D_CODES = 30) by done. assert (Eb : BL_CODES = 19) by done.
  destruct (cl_bits_ok (t_bltree s) (take (Z.to_nat (mb + 1)) bl_order) Hcl ltac:(apply Forall_take, orders_bl)) as [_ ->].
  rewrite length_take. change (length bl_order) with 19%nat.
  assert (Ht : forall ts, Forall (tok_coded (t_bltree s) (cl_of (t_bltree s))) ts -> 0 <= (toks_bits (t_bltree s) ts).2 <= 14 * Z.of_nat (length ts)).
  { induction 1 as [|t ts [Ht Hc] Hts IH]; cbn [toks_bits bcat snd length]; [cbn; lia|]. unfold tok_bits. cbn [bcat snd].
    assert (0 <= (code_bits (t_bltree s) (tok_sym t)).2 <= 7).
    { destruct Hc as (l & Hlr & v & Hv & _). unfold code_bits. rewrite Hv. cbn. destruct Hcl as [_ Hcl]. specialize (Hcl _ (tok_sym_range t Ht)). unfold dad in Hcl. rewrite Hv in Hcl. cbn in Hcl. lia. }
    assert (0 <= (tok_extra t).2 <= 7) by (destruct t; cbn; [lia|lia|]; destruct (_ <=? _); cbn; lia). lia. }
  apply Forall_app in Hk as [Hk1 Hk2]. specialize (Ht _ Hk1) as T1. specialize (Ht _ Hk2) as T2.
  destruct (toks_of_ok ll [] Hl1) as [K1 X1]. destruct (toks_of_ok dd [] Hl2) as [K2 X2]. apply toks_expand_longer in X1, X2; [|done..].
  destruct G1 as (G1 & G1' & _), G2 as (G2 & G2' & _). rewrite <- E1, <- E2 in *. assert (Q1 := length_lens_of (t_ltree s) (t_lmax s) ltac:(lia)).
  assert (Q2 := length_lens_of (t_dtree s) (t_dmax s) ltac:(lia)). cbn [app length] in *. unfold HEADER_MAX. lia.
Qed.

(** ** The trees of a block *)
Lemma block_used s syms x : collected s syms -> x ∈ syms -> sym_ok x /\ freq (t_ltree s) (lsym x) <> 0 /\ (x.1 <> 0 -> freq (t_dtree s) (dcode (x.1 - 1)) <> 0).
Proof.
  intros B Hx. assert (Hok := proj1 (List.Forall_forall _ _) (bs_syms _ _ B) x (proj1 (list_elem_of_In _ _) Hx)). split; [done|].
  destruct (lsym_range x Hok) as [Hl _]. split.
  - rewrite (bs_lfreq _ _ B) by done. pose proof (zcount_pos (fun y => lsym y =? lsym x) syms x Hx (Z.eqb_refl _)). destruct (_ =? END_BLOCK); lia.
  - intros Hne. destruct (dcode_range x Hok Hne) as [_ Hd]. rewrite (bs_dfreq _ _ B) by done.
    assert (Hc : has_dcode (dcode (x.1 - 1)) x = true) by (unfold has_dcode; destruct (Z.eqb_spec x.1 0); [done|]; apply Z.eqb_refl).
    pose proof (zcount_pos _ syms x Hx Hc). lia.
Qed.

(** The trees are ready, for the codes with the lengths [ll] and [dd]. *)
Record trees_ready (s0 s : trees_state) (mb : Z) (ll dd : list Z) (syms : list sym) : Prop := {
  tr_header : header_ready s mb ll dd;
  tr_sizes : sizes_ok s;
  tr_same : same_output s0 s;
  tr_codable : Forall (codable (t_ltree s) (t_dtree s) ll dd) syms;
  tr_end : coded (t_ltree s) ll END_BLOCK }.

Lemma all_trees_ok s syms :
  collected s syms ->
  exists s1 s2 s3 mb ll dd, build_tree s l_desc = Some s1 /\ build_tree s1 d_desc = Some s2 /\ build_bl_tree s2 = Some (s3, mb) /\ trees_ready s s3 mb ll dd syms.
Proof.
  intros B. assert (Hsz := bs_sizes _ _ B). assert (S1 := sz_tree _ Hsz l_desc). assert (S2 := sz_tree _ Hsz d_desc). cbn [elems static_l_desc static_d_desc dyn_tree stat_desc] in S1, S2.
  assert (El : L_CODES = 286) by done. assert (Ed : D_CODES = 30) by done.
  destruct (build_tree_ok s l_desc Hsz) as (s1 & E1 & B1 & Z1 & O1). destruct (build_tree_ok s1 d_desc Z1) as (s2 & E2 & B2 & Z2 & O2).
  cbn [stat_desc dyn_tree max_code] in B1, B2. assert (Xd : t_dtree s1 = t_dtree s) by (apply (ot_tree _ _ _ O1 d_desc); done).
  assert (Xl : t_ltree s2 = t_ltree s1) by (apply (ot_tree _ _ _ O2 l_desc); done). assert (Xm : t_lmax s2 = t_lmax s1) by (apply (ot_max _ _ _ O2 l_desc); done).
  assert (Xb : t_bltree s2 = t_bltree s) by (transitivity (t_bltree s1); [apply (ot_tree _ _ _ O2 bl_desc)|apply (ot_tree _ _ _ O1 bl_desc)]; done).
  rewrite <- Xl, <- Xm in B1. rewrite Xd in B2.
  assert (Hend : freq (t_ltree s) END_BLOCK <> 0).
  { rewrite (bs_lfreq _ _ B) by (unfold END_BLOCK; lia). rewrite Z.eqb_refl. pose proof (zcount_nonneg (fun x => lsym x =? END_BLOCK) syms). lia. }
  destruct (build_bl_tree_ok s2 (t_ltree s) (t_dtree s) Z2 B1 B2 Hend) as (s3 & mb & E3 & HR & Z3 & SO & A1 & A2); [intros i; rewrite Xb; apply (bs_blfreq _ _ B)|].
  set (ll := lens_of (t_ltree s2) (t_lmax s2)) in *. set (dd := lens_of (t_dtree s2) (t_dmax s2)) in *.
  assert (CL : forall i, 0 <= i < L_CODES -> freq (t_ltree s) i <> 0 -> coded (t_ltree s3) ll i).
  { intros i Hi Hf. apply (coded_agree (t_ltree s2)); [apply A1, (tb_used _ _ _ _ B1); done|]. apply (built_coded _ _ _ _ _ (stat_desc_ok l_desc) B1); cbn; (done || lia). }
  assert (CD : forall i, 0 <= i < D_CODES -> freq (t_dtree s) i <> 0 -> coded (t_dtree s3) dd i).
  { intros i Hi Hf. apply (coded_agree (t_dtree s2)); [apply A2, (tb_used _ _ _ _ B2); done|]. apply (built_coded _ _ _ _ _ (stat_desc_ok d_desc) B2); cbn; (done || lia). }
  exists s1, s2, s3, mb, ll, dd. split; [done|]. split; [done|]. split; [done|]. split; [done|done| | |].
  - destruct O1, O2, SO as (? & ? & ? & ? & ?). unfold same_output. split_and!; congruence.
  - apply List.Forall_forall. intros x Hx%list_elem_of_In. destruct (block_used s syms x B Hx) as (Hok & Hl & Hd). split; [done|].
    destruct (lsym_range x Hok) as [Hr _]. specialize (CL _ Hr Hl). unfold sym_coded, lsym in *. destruct (Z.eqb_spec x.1 0) as [|Hne]; [done|].
    split; [done|]. destruct (dcode_range x Hok Hne) as [_ Hr2]. auto.
  - apply CL; [unfold END_BLOCK; lia|done].
Qed.

(** ** The encodings of a block *)

(** At bit position [at_], [b] is a block that adds the bytes from [hist] to [hist'], whatever follows it. *)
Definition reads_as (at_ : Z) (b : bitstr) (last : Z) (hist hist' : list Z) : Prop :=
  bits_ok b /\ forall rest, block_read at_ (then_rest b rest) hist (last =? 1) b.2 hist'.

Lemma block_type t last r :
  0 <= t < 4 -> 0 <= last <= 1 ->
  then_rest (t * 2 + last, 3) r mod 2 = last /\ then_rest (t * 2 + last, 3) r / 2 mod 4 = t /\ then_rest (t * 2 + last, 3) r / 2 ^ 3 = r /\ bits_ok (t * 2 + last, 3).
Proof.
  intros Ht Hl. unfold then_rest, bits_ok. cbn [fst snd]. change (2 ^ 3) with 8. split_and!; Z.to_euclidean_division_equations; lia.
Qed.

Lemma then_rest_div_cat a b n rest : bits_ok a -> 0 <= n -> then_rest a (then_rest b rest) / 2 ^ (a.2 + n) = then_rest b rest / 2 ^ n.
Proof.
  intros Ha Hn. assert (Ha0 := Ha). destruct Ha0 as [Ha0 _]. rewrite Z.pow_add_r by lia. rewrite <- Z.div_div by (try apply Z.pow_nonzero; try apply pow2_pos; lia).
  by rewrite then_rest_div.
Qed.

Section encodings.
Context (hist : list Z) (syms : list sym) (Hfit : all_fit hist syms).

Lemma data_reads lt dt ll dd rest :
  Forall (codable lt dt ll dd) syms -> coded lt ll END_BLOCK ->
  data_read ll dd (then_rest (block_bits lt dt syms) rest) hist (block_bits lt dt syms).2 (expand hist syms).
Proof.
  intros Hc He. assert (Hk := data_bits_ok _ _ _ _ _ Hc). destruct (coded_sends _ _ _ He) as [Hb _]. unfold block_bits. rewrite then_rest_cat by done.
  exists (data_bits lt dt syms).2, (code_bits lt END_BLOCK).2. split; [by apply data_decodes|]. split; [|done].
  rewrite then_rest_div by done. by apply end_decodes.
Qed.

Lemma block_bits_ok lt dt ll dd : Forall (codable lt dt ll dd) syms -> coded lt ll END_BLOCK -> bits_ok (block_bits lt dt syms).
Proof. intros Hc He. apply bits_ok_cat; [by apply data_bits_ok with ll dd|]. apply (coded_sends _ _ _ He). Qed.

Definition static_bits (last : Z) : bitstr := (STATIC_TREES * 2 + last, 3) ·· block_bits static_ltree static_dtree syms.
Lemma static_reads at_ last :
  0 <= last <= 1 -> Forall (codable static_ltree static_dtree fixed_lens fixed_dists) syms -> reads_as at_ (static_bits last) last hist (expand hist syms).
Proof.
  intros Hl Hc. assert (He := static_lcoded END_BLOCK ltac:(unfold END_BLOCK; lia)). assert (Hk := block_bits_ok _ _ _ _ Hc He).
  split; [apply bits_ok_cat; [|done]; by apply (block_type STATIC_TREES last 0)|]. intros rest. unfold static_bits.
  destruct (block_type STATIC_TREES last (then_rest (block_bits static_ltree static_dtree syms) rest) ltac:(done) Hl) as (T1 & T2 & T3 & T4).
  rewrite then_rest_cat by done. rewrite <- T1 at 2. apply read_fixed; [done|]. rewrite T3. by apply data_reads.
Qed.

Definition dynamic_bits (s : trees_state) (mb : Z) (ll dd : list Z) (last : Z) : bitstr :=
  (DYN_TREES * 2 + last, 3) ·· (header_bits s mb ll dd ·· block_bits (t_ltree s) (t_dtree s) syms).
Lemma dynamic_reads s mb ll dd at_ last :
  0 <= last <= 1 -> header_ready s mb ll dd -> Forall (codable (t_ltree s) (t_dtree s) ll dd) syms -> coded (t_ltree s) ll END_BLOCK ->
  reads_as at_ (dynamic_bits s mb ll dd last) last hist (expand hist syms).
Proof.
  intros Hl Hh Hc He. assert (Hk := block_bits_ok _ _ _ _ Hc He). destruct (send_all_trees_ok s mb ll dd Hh) as [Hkh _].
  assert (Hk2 : bits_ok (header_bits s mb ll dd ·· block_bits (t_ltree s) (t_dtree s) syms)) by (by apply bits_ok_cat).
  split; [apply bits_ok_cat; [|done]; by apply (block_type DYN_TREES last 0)|]. intros rest. unfold dynamic_bits.
  set (r := then_rest (block_bits (t_ltree s) (t_dtree s) syms) rest).
  destruct (block_type DYN_TREES last (then_rest (header_bits s mb ll dd) r) ltac:(done) Hl) as (T1 & T2 & T3 & T4).
  rewrite !then_rest_cat by done. fold r. rewrite <- T1 at 2. cbn [bcat snd]. rewrite Z.add_assoc. apply (read_dynamic _ _ _ ll dd); [done|rewrite T3; by apply header_decodes|].
  rewrite (then_rest_div_cat _ _ _ _ T4 (proj1 Hkh)). rewrite then_rest_div by done. by apply data_reads.
Qed.
End encodings.

Lemma stored_bits_ok at_ buf len : 0 <= len < 2 ^ 16 -> len <= Z.of_nat (length buf) -> Forall byte_ok buf -> bits_ok (stored_bits at_ buf len).
Proof.
  intros Hlen Hb Hby. assert (Ld : Z.of_nat (length (bytes_at buf 0 len)) = len) by (rewrite length_bytes_at by lia; lia).
  repeat apply bits_ok_cat; [apply bits_ok_pad|split; cbn; lia|split; cbn; lia|]. split; cbn [fst snd]; [lia|]. rewrite <- Ld at 3. by apply le_range, bytes_at_bytes.
Qed.

Lemma stored_reads at_ buf len last hist :
  0 <= last <= 1 -> 0 <= len < 2 ^ 16 -> len <= Z.of_nat (length buf) -> Forall byte_ok buf ->
  reads_as at_ ((STORED_BLOCK * 2 + last, 3) ·· stored_bits (at_ + 3) buf len) last hist (hist ++ bytes_at buf 0 len).
Proof.
  intros Hl Hlen Hb Hby. assert (Ld : Z.of_nat (length (bytes_at buf 0 len)) = len) by (rewrite length_bytes_at by lia; lia).
  assert (Hbd := bytes_at_bytes buf 0 len Hby).
  assert (K4 : bits_ok (le (bytes_at buf 0 len), 8 * len)) by (split; cbn [fst snd]; [lia|]; rewrite <- Ld at 3; by apply le_range).
  assert (K1 := bits_ok_pad (at_ + 3)). assert (K2 : bits_ok (len, 16)) by (split; cbn; lia). assert (K3 : bits_ok (2 ^ 16 - 1 - len, 16)) by (split; cbn; lia).
  unfold stored_bits. rewrite !bcat_assoc by (repeat apply bits_ok_cat; done). set (data := bytes_at buf 0 len) in *.
  destruct (block_type STORED_BLOCK last 0 ltac:(done) Hl) as (_ & _ & _ & K0).
  split; [repeat apply bits_ok_cat; done|]. intros rest. rewrite !then_rest_cat by (repeat apply bits_ok_cat; done).
  set (r4 := then_rest (le data, 8 * len) rest). set (r3 := then_rest (2 ^ 16 - 1 - len, 16) r4). set (r2 := then_rest (len, 16) r3). set (r1 := then_rest (0, pad (at_ + 3)) r2).
  destruct (block_type STORED_BLOCK last r1 ltac:(done) Hl) as (T1 & T2 & T3 & _).
  assert (P := pad_range (at_ + 3)).
  assert (D2 : then_rest (STORED_BLOCK * 2 + last, 3) r1 / 2 ^ (3 + pad (at_ + 3)) = r2).
  { unfold r1. rewrite (then_rest_div_cat _ _ _ _ K0) by lia. by apply (then_rest_div (0, pad (at_ + 3))). }
  assert (D3 : r2 / 2 ^ 16 = r3) by (by apply (then_rest_div (len, 16))). assert (D4 : r3 / 2 ^ 16 = r4) by (by apply (then_rest_div (2 ^ 16 - 1 - len, 16))).
  assert (M2 : r2 mod 2 ^ 16 = len) by (by apply (then_rest_mod (len, 16))). assert (M3 : r3 mod 2 ^ 16 = 2 ^ 16 - 1 - len) by (by apply (then_rest_mod (2 ^ 16 - 1 - len, 16))).
  assert (M4 : r4 mod 2 ^ (8 * len) = le data) by (by apply (then_rest_mod (le data, 8 * len))).
  cbn [bcat snd]. rewrite <- T1 at 2.
  replace (3 + (pad (at_ + 3) + (16 + (16 + 8 * len)))) with (3 + (- (at_ + 3)) mod 8 + 32 + 8 * Z.of_nat (length data)) by (rewrite Ld; unfold pad; lia).
  assert (Hp : 2 ^ 32 = 2 ^ 16 * 2 ^ 16) by done. apply read_stored; fold (pad (at_ + 3)); try done; rewrite ?Ld.
  - by rewrite D2.
  - rewrite Z.pow_add_r, <- Z.div_div, D2, D3 by (try apply Z.pow_nonzero; lia). done.
  - rewrite Z.pow_add_r, <- Z.div_div, D2, Hp, <- Z.div_div, D3, D4 by (try apply Z.pow_nonzero; lia). done.
Qed.

(** ** [_tr_flush_block] *)
Lemma static_codable x : sym_ok x -> codable static_ltree static_dtree fixed_lens fixed_dists x.
Proof.
  intros Hx. split; [done|]. destruct (lsym_range x Hx) as [Hr _]. assert (Hc := static_lcoded (lsym x)). change L_CODES with 286 in Hr. specialize (Hc ltac:(lia)).
  unfold sym_coded, lsym in *. destruct (Z.eqb_spec x.1 0) as [|Hne]; [done|]. split; [done|]. by apply static_dcoded, (dcode_range x Hx).
Qed.

Lemma room_first n n' lit syms : room_for n lit 0 syms = true -> n' <= n -> syms = [] \/ n' <= 8 * lit.
Proof. destruct syms; cbn [room_for]; [by left|]. intros [H%Z.leb_le _]%andb_true_iff Hn. right. lia. Qed.

(** Symbols that the output has not reached. *)
Lemma holds_emits w b w1 lit syms :
  emits w b w1 -> syms = [] \/ (wbits w1).2 <= 8 * lit -> 0 <= lit -> Z.of_nat (length syms) <= 2 * lit -> holds (w_buf w) lit 0 syms -> holds (w_buf w1) lit 0 syms.
Proof.
  intros E [->|Hn] Hl Hs Hh; [done|]. apply (holds_frame (w_buf w) (w_buf w1) lit 0 syms); [lia|lia| |done]. intros i Hi. apply (em_frame _ _ _ E). lia.
Qed.

Section flush.
Context (s0 : trees_state) (syms : list sym) (hist : list Z) (last : Z).
Context (B : collected s0 syms) (Hfit : all_fit hist syms) (Hlast : 0 <= last <= 1).
Context (Hroom : room_for ((wbits (t_w s0)).2 + HEADER_MAX) (t_lit_bufsize s0) 0 syms = true).
Notation at_ := (wbits (t_w s0)).2.

(** The symbols with the codes of two trees, after the header [h]. *)
Lemma compress_after s h w1 lt dt ll dd :
  same_output s0 s -> emits (t_w s0) h w1 -> 0 <= h.2 <= HEADER_MAX ->
  Forall (codable lt dt ll dd) syms -> coded lt ll END_BLOCK ->
  exists w', compress_block (s <| t_w := w1 |>) lt dt = Some (s <| t_w := w' |>) /\ emits w1 (block_bits lt dt syms) w' /\ (wbits w').2 + 8 <= 32 * t_lit_bufsize s0.
Proof.
  intros (Ew & El & Ell & _) E Hh Hc He. destruct B as [Bsz Bw Blit Bbuf Blast Bcount Bsyms Bholds _ _ _].
  assert (Hn : (wbits w1).2 <= at_ + HEADER_MAX) by (rewrite (em_bits _ _ _ E); cbn [bcat snd]; lia).
  destruct (room_overlay lt dt ll dd syms _ _ (wbits w1).2 0 Hc He Hroom Hn) as [Ho Hr].
  destruct (compress_block_ok lt dt ll dd (s <| t_w := w1 |>) syms) as (w' & Ec & Ew'); cbn; rewrite ?El, ?Ell; try done; try lia.
  - apply (em_ok _ _ _ E).
  - apply (holds_emits (t_w s0) h); try done; [by apply (room_first _ _ _ _ Hroom)|lia|lia].
  - rewrite (em_length _ _ _ E). cbn in Hr. lia.
  - exists w'. split; [exact Ec|]. split; [done|]. change ((wbits w').2 + 8 <= 32 * t_lit_bufsize s0). rewrite (em_bits _ _ _ Ew'). cbn [bcat snd]. change (t_w _) with w1. lia.
Qed.

Lemma huffman_block_ok s mb ll dd opt_lenb static_lenb :
  trees_ready s0 s mb ll dd syms ->
  exists w' b, huffman_block s mb opt_lenb static_lenb last = Some (s <| t_w := w' |>) /\ emits (t_w s0) b w' /\ reads_as at_ b last hist (expand hist syms) /\
    (wbits w').2 + 8 <= 32 * t_lit_bufsize s0.
Proof.
  intros [Hh Hsz SO Hc He]. assert (Hw := bs_writer _ _ B). assert (Hbuf := bs_buf _ _ B). assert (Hlit := bs_lit _ _ B). assert (Hhl := header_len _ _ _ _ Hh).
  assert (Hroom3 : at_ + HEADER_MAX <= 32 * t_lit_bufsize s0).
  { destruct (room_overlay (t_ltree s) (t_dtree s) ll dd syms _ _ (at_ + HEADER_MAX) 0 Hc He Hroom ltac:(lia)) as [_ Hr]. pose proof (proj1 (block_bits_ok _ _ _ _ _ Hc He)). lia. }
  assert (Ew := proj1 SO). unfold huffman_block. rewrite Ew. destruct (_ || _).
  - destruct (send_bits_ok (t_w s0) (STATIC_TREES * 2 + last) 3 Hw) as (w1 & -> & E1); [lia|unfold STATIC_TREES; lia|unfold HEADER_MAX in *; lia|]. cbn [mbind option_bind].
    assert (Hcs : Forall (codable static_ltree static_dtree fixed_lens fixed_dists) syms) by (eapply Forall_impl; [apply static_codable|apply (bs_syms _ _ B)]).
    assert (Hes := static_lcoded END_BLOCK ltac:(unfold END_BLOCK; lia)).
    destruct (compress_after s _ w1 static_ltree static_dtree fixed_lens fixed_dists SO E1 ltac:(cbn; unfold HEADER_MAX; lia) Hcs Hes) as (w2 & -> & E2 & Hr2).
    destruct (static_reads hist syms Hfit at_ last Hlast Hcs) as [Hk Hrd]. exists w2, (static_bits syms last). split; [done|]. split; [|by split].
    apply (emits_trans _ _ w1); [done|by apply (block_type STATIC_TREES last 0)|by apply block_bits_ok with fixed_lens fixed_dists|done|done].
  - destruct (send_bits_ok (t_w s0) (DYN_TREES * 2 + last) 3 Hw) as (w1 & -> & E1); [lia|unfold DYN_TREES; lia|unfold HEADER_MAX in *; lia|]. cbn [mbind option_bind].
    assert (Hh1 : header_ready (s <| t_w := w1 |>) mb ll dd) by (destruct Hh; by split).
    destruct (send_all_trees_ok _ _ _ _ Hh1) as [Hkh Hsend]. change (header_bits (s <| t_w := w1 |>) mb ll dd) with (header_bits s mb ll dd) in *.
    assert (T := proj2 (proj2 (proj2 (block_type DYN_TREES last 0 ltac:(done) Hlast)))).
    destruct (Hsend (em_ok _ _ _ E1)) as (w2 & Es & E2); [change (t_w (s <| t_w := w1 |>)) with w1; rewrite (em_bits _ _ _ E1), (em_length _ _ _ E1); cbn [bcat snd]; unfold HEADER_MAX in *; lia|].
    change (t_lmax (s <| t_w := w1 |>)) with (t_lmax s) in Es. change (t_dmax (s <| t_w := w1 |>)) with (t_dmax s) in Es. rewrite Es. cbn [mbind option_bind].
    assert (E12 := emits_trans _ _ _ _ _ Hw T Hkh E1 E2).
    destruct (compress_after s _ w2 (t_ltree s) (t_dtree s) ll dd SO E12 ltac:(cbn [bcat snd]; lia) Hc He) as (w3 & Ec & E3 & Hr3).
    exists w3, (dynamic_bits syms s mb ll dd last). split; [exact Ec|]. split; [|split; [by apply dynamic_reads|done]].
    unfold dynamic_bits. assert (Hkb := block_bits_ok _ _ _ _ _ Hc He). rewrite <- bcat_assoc by done. apply (emits_trans _ _ w2); [done|by apply bits_ok_cat|done|done|done].
Qed.
End flush.

(** The bits up to a byte boundary after the last block. *)
Definition end_bits (last n : Z) : bitstr := if nz last then (0, pad n) else bnil.

Lemma collected_writer s w : collected s [] -> writer_ok w -> length (w_buf w) = length (w_buf (t_w s)) -> collected (s <| t_w := w |>) [].
Proof. intros [[] ? ? Hb ? ? ? ? ? ? ?] Hw Hl. split; try done; cbn; by rewrite Hl. Qed.

Lemma finish_ok s last :
  between_blocks s -> (wbits (t_w s)).2 + 8 <= 32 * t_lit_bufsize s ->
  exists s', (s1 ← init_block s; if nz last then w ← bi_windup (t_w s1); Some (s1 <| t_w := w |>) else Some s1) = Some s' /\ collected s' [] /\
    emits (t_w s) (end_bits last (wbits (t_w s)).2) (t_w s').
Proof.
  intros Bb Hr. destruct (init_block_ok s Bb) as (s1 & -> & B1 & Ew & _ & El). cbn [mbind option_bind]. unfold end_bits. destruct Bb as [_ Hw _ Hbuf]. destruct (nz last).
  - rewrite Ew. pose proof (pad_range (wbits (t_w s)).2). destruct (bi_windup_ok (t_w s) Hw) as (w & -> & E & _); [lia|]. cbn [mbind option_bind].
    eexists. split; [done|]. split; [|done]. apply collected_writer; [done|apply (em_ok _ _ _ E)|]. rewrite Ew. apply (em_length _ _ _ E).
  - exists s1. split; [done|]. split; [done|]. rewrite Ew. by apply emits_refl.
Qed.

Lemma any_freq_total fuel : forall tree n mask, 0 <= n -> n + Z.of_nat fuel <= Z.of_nat (length tree) -> exists b, any_freq fuel tree n mask = Some b.
Proof.
  induction fuel as [|fuel IH]; intros tree n mask Hn Hl; cbn [any_freq]; [by eexists|]. destruct (aget_in tree n ltac:(lia)) as [e ->]. cbn [mbind option_bind].
  destruct (_ && _); [by eexists|]. apply IH; lia.
Qed.
Lemma detect_total tree : 256 <= Z.of_nat (length tree) -> exists t, detect_data_type tree = Some t.
Proof.
  intros Hl. unfold detect_data_type. destruct (any_freq_total 32 tree 0 0xf3ffc07f ltac:(lia) ltac:(lia)) as [[] ->]; cbn [mbind option_bind]; [by eexists|].
  destruct (aget_in tree 9 ltac:(lia)) as [e9 ->], (aget_in tree 10 ltac:(lia)) as [e10 ->], (aget_in tree 13 ltac:(lia)) as [e13 ->]. cbn [mbind option_bind].
  destruct (_ || _); [by eexists|]. destruct (any_freq_total 224 tree 32 (-1) ltac:(lia) ltac:(lia)) as [b ->]. by eexists.
Qed.

(** What the caller says about the bytes of the block, when it still has them. *)
Record stored_ok (s : trees_state) (syms : list sym) (hist buf : list Z) (stored_len : Z) : Prop := {
  so_len : 0 <= stored_len < 2 ^ 16 /\ stored_len <= Z.of_nat (length buf);
  so_bytes : Forall byte_ok buf;
  so_data : expand hist syms = hist ++ bytes_at buf 0 stored_len;
  so_room : (wbits (t_w s)).2 + 50 + 8 * stored_len <= 32 * t_lit_bufsize s }.

Lemma tr_stored_block_ok s0 s syms hist buf stored_len last :
  writer_ok (t_w s0) -> Z.of_nat (length (w_buf (t_w s0))) = 4 * t_lit_bufsize s0 -> t_w s = t_w s0 -> stored_ok s0 syms hist buf stored_len -> 0 <= last <= 1 ->
  exists w' b, tr_stored_block s buf stored_len last = Some (s <| t_w := w' |>) /\ emits (t_w s0) b w' /\ reads_as (wbits (t_w s0)).2 b last hist (expand hist syms) /\
    (wbits w').2 + 8 <= 32 * t_lit_bufsize s0.
Proof.
  intros Hw Hbuf Ew [[Hl1 Hl2] Hby Hd Hr] Hlast. unfold tr_stored_block. rewrite Ew. rewrite Hd.
  destruct (stored_reads (wbits (t_w s0)).2 buf stored_len last hist Hlast Hl1 Hl2 Hby) as [Hk Hrd].
  destruct (send_bits_ok (t_w s0) (STORED_BLOCK * 2 + last) 3 Hw) as (w1 & -> & E1); [lia|unfold STORED_BLOCK; lia|lia|]. cbn [mbind option_bind].
  assert (Eb : (wbits w1).2 = (wbits (t_w s0)).2 + 3) by (by rewrite (em_bits _ _ _ E1)). pose proof (pad_range (wbits w1).2) as P.
  destruct (copy_block_ok w1 buf stored_len (em_ok _ _ _ E1) Hl1 Hl2 Hby) as (w2 & -> & E2 & _); [rewrite (em_length _ _ _ E1); lia|]. cbn [mbind option_bind].
  rewrite Eb in E2, P. assert (K0 := proj2 (proj2 (proj2 (block_type STORED_BLOCK last 0 ltac:(done) Hlast)))).
  exists w2, ((STORED_BLOCK * 2 + last, 3) ·· stored_bits ((wbits (t_w s0)).2 + 3) buf stored_len). split; [done|]. split; [|split; [done|]].
  - apply (emits_trans _ _ w1); try done. by apply stored_bits_ok.
  - rewrite (em_bits _ _ _ E2). cbn [stored_bits bcat snd]. lia.
Qed.

(** [b] was appended to the output of [s], and is a block with the data. *)
Record encoded (s : trees_state) (hist hist' : list Z) (last : Z) (b : bitstr) (s' : trees_state) : Prop := {
  en_state : between_blocks s';
  en_emits : emits (t_w s) b (t_w s');
  en_reads : reads_as (wbits (t_w s)).2 b last hist hist';
  en_room : (wbits (t_w s')).2 + 8 <= 32 * t_lit_bufsize s' }.

Lemma encoded_writer s s1 hist hist' last b w :
  128 <= t_lit_bufsize s <= 2 ^ 15 -> Z.of_nat (length (w_buf (t_w s))) = 4 * t_lit_bufsize s -> sizes_ok s1 -> t_lit_bufsize s1 = t_lit_bufsize s ->
  emits (t_w s) b w -> reads_as (wbits (t_w s)).2 b last hist hist' -> (wbits w).2 + 8 <= 32 * t_lit_bufsize s -> encoded s hist hist' last b (s1 <| t_w := w |>).
Proof.
  intros Hlit Hbuf [] El E Hrd Hr. split; try done; [|change (t_lit_bufsize _) with (t_lit_bufsize s1); by rewrite El].
  split; cbn; [by split|apply (em_ok _ _ _ E)|by rewrite El|]. rewrite (em_length _ _ _ E), El. done.
Qed.

Section choice.
Context (s : trees_state) (syms : list sym) (hist : list Z) (buf : option (list Z)) (stored_len last : Z).
Context (B : collected s syms) (Hfit : all_fit hist syms) (Hlast : 0 <= last <= 1).
Context (Hroom : room_for ((wbits (t_w s)).2 + HEADER_MAX) (t_lit_bufsize s) 0 syms = true).
Context (Hst : forall b, buf = Some b -> stored_ok s syms hist b stored_len).

Lemma data_type_ok :
  exists s0, (if t_data_type s =? Z_UNKNOWN then t ← detect_data_type (t_ltree s); Some (s <| t_data_type := t |>) else Some s) = Some s0 /\
    collected s0 syms /\ t_w s0 = t_w s /\ t_lit_bufsize s0 = t_lit_bufsize s.
Proof.
  destruct (_ =? Z_UNKNOWN); [|by exists s]. assert (S1 := sz_tree _ (bs_sizes _ _ B) l_desc). cbn [dyn_tree stat_desc static_l_desc elems] in S1. change L_CODES with 286 in S1.
  destruct (detect_total (t_ltree s)) as [t ->]; [lia|]. eexists. split; [done|]. split; [|done]. destruct B as [[]]. by split.
Qed.

(** The stored encoding. *)
Lemma choose_stored b s1 : buf = Some b -> sizes_ok s1 -> t_w s1 = t_w s -> t_lit_bufsize s1 = t_lit_bufsize s ->
  exists s2 bits, tr_stored_block s1 b stored_len last = Some s2 /\ encoded s hist (expand hist syms) last bits s2.
Proof.
  intros Eb Hsz Ew El. destruct (tr_stored_block_ok s s1 syms hist b stored_len last (bs_writer _ _ B) (bs_buf _ _ B) Ew (Hst b Eb) Hlast) as (w & bits & Es & Em & Hrd & Hr).
  exists (s1 <| t_w := w |>), bits. split; [done|]. apply encoded_writer; try done; [apply (bs_lit _ _ B)|apply (bs_buf _ _ B)].
Qed.

(** The two others. *)
Lemma choose_huffman s0 s1 mb ll dd o st : collected s0 syms -> t_w s0 = t_w s -> t_lit_bufsize s0 = t_lit_bufsize s -> trees_ready s0 s1 mb ll dd syms ->
  exists s2 bits, huffman_block s1 mb o st last = Some s2 /\ encoded s hist (expand hist syms) last bits s2.
Proof.
  intros B0 Ew El R. rewrite <- Ew, <- El in Hroom. destruct (huffman_block_ok s0 syms hist last B0 Hfit Hlast Hroom s1 mb ll dd o st R) as (w & bits & Es & Em & Hrd & Hr).
  rewrite Ew in Em, Hrd. rewrite El in Hr. exists (s1 <| t_w := w |>), bits. split; [done|].
  apply encoded_writer; try done; [apply (bs_lit _ _ B)|apply (bs_buf _ _ B)|apply (tr_sizes _ _ _ _ _ _ R)|]. destruct (tr_same _ _ _ _ _ _ R) as (_ & E & _). congruence.
Qed.

Lemma tr_flush_block_ok :
  t_level s > 0 \/ is_Some buf ->
  exists s' b, tr_flush_block s buf stored_len last = Some s' /\ collected s' [] /\ reads_as (wbits (t_w s)).2 b last hist (expand hist syms) /\
    emits (t_w s) (b ·· end_bits last ((wbits (t_w s)).2 + b.2)) (t_w s') /\ (wbits (t_w s')).2 <= 8 * Z.of_nat (length (w_buf (t_w s))).
Proof.
  intros Hlev. assert (Hfin : forall s2 b, encoded s hist (expand hist syms) last b s2 ->
    exists s', (s1 ← init_block s2; if nz last then w ← bi_windup (t_w s1); Some (s1 <| t_w := w |>) else Some s1) = Some s' /\ collected s' [] /\
      reads_as (wbits (t_w s)).2 b last hist (expand hist syms) /\ emits (t_w s) (b ·· end_bits last ((wbits (t_w s)).2 + b.2)) (t_w s') /\
      (wbits (t_w s')).2 <= 8 * Z.of_nat (length (w_buf (t_w s)))).
  { intros s2 b [Hb Em Hrd Hr]. destruct (finish_ok s2 last Hb Hr) as (s' & E & B' & Em'). exists s'. split; [done|]. split; [done|]. split; [done|]. split.
    2:{ rewrite <- (em_length _ _ _ Em), (bb_buf _ Hb), (em_bits _ _ _ Em'). unfold end_bits. pose proof (pad_range (wbits (t_w s2)).2). destruct (nz last); cbn [bcat snd bnil]; lia. }
    rewrite (em_bits _ _ _ Em) in Em'. apply (emits_trans _ _ (t_w s2)); try done; [apply (bs_writer _ _ B)|apply Hrd|].
    unfold end_bits. destruct (nz last); [apply bits_ok_pad|apply bits_ok_nil]. }
  unfold tr_flush_block. destruct (Z.gtb_spec (t_level s) 0) as [Hl|Hl].
  - destruct data_type_ok as (s0 & -> & B0 & Ew0 & El0). cbn [mbind option_bind].
    destruct (all_trees_ok s0 syms B0) as (s1 & s2 & s3 & mb & ll & dd & -> & E2 & E3 & R). cbn [mbind option_bind]. rewrite E2. cbn [mbind option_bind]. rewrite E3. cbn [mbind option_bind].
    set (st := u32 (t_static_len s3 + 3 + 7) ≫ 3). set (o := u32 (t_opt_len s3 + 3 + 7) ≫ 3). set (oo := if st <=? o then st else o). destruct (tr_same _ _ _ _ _ _ R) as (Ew & El & _). destruct (bool_decide _ && _) eqn:Ec.
    + apply andb_true_iff in Ec as [Ec%bool_decide_eq_true _]. assert (exists b, buf = Some b) as [b Eb] by (destruct buf; [by eexists|done]). replace (default [] buf) with b by (by rewrite Eb).
      destruct (choose_stored b s3) as (s4 & bits & -> & En); [done|apply (tr_sizes _ _ _ _ _ _ R)|congruence|congruence|]. cbn [mbind option_bind].
      destruct (Hfin s4 bits En) as (s' & Hs'). by exists s', bits.
    + destruct (choose_huffman s0 s3 mb ll dd oo st B0 Ew0 El0 R) as (s4 & bits & -> & En). cbn [mbind option_bind].
      destruct (Hfin s4 bits En) as (s' & Hs'). by exists s', bits.
  - cbn [mbind option_bind]. destruct Hlev as [|[b Eb]]; [lia|].
    destruct (so_len _ _ _ _ _ (Hst b Eb)) as [Hlen _]. rewrite !u32_small by lia. rewrite bool_decide_true by (by rewrite Eb). rewrite (proj2 (Z.leb_le _ _)) by lia. cbn [andb]. replace (default [] buf) with b by (by rewrite Eb).
    destruct (choose_stored b s) as (s4 & bits & -> & En); [done|apply (bs_sizes _ _ B)|done|done|]. cbn [mbind option_bind].
    destruct (Hfin s4 bits En) as (s' & Hs'). by exists s', bits.
Qed.
End choice.

(** ** Flushes *)
Lemma tr_align_sends s hist :
  writer_ok (t_w s) -> (wbits (t_w s)).2 + 10 <= 8 * Z.of_nat (length (w_buf (t_w s))) ->
  exists w' b, tr_align s = Some (s <| t_w := w' |>) /\ emits (t_w s) b w' /\ b.2 = 10 /\ w_bi_valid w' < 8 /\ reads_as (wbits (t_w s)).2 b 0 hist hist.
Proof.
  intros Hw Hr. assert (He := static_lcoded END_BLOCK ltac:(unfold END_BLOCK; lia)). destruct (coded_sends _ _ _ He) as [Hk _].
  assert (Eb : code_bits static_ltree END_BLOCK = (0, 7)) by reflexivity. unfold tr_align.
  destruct (send_bits_ok (t_w s) (STATIC_TREES * 2) 3 Hw) as (w1 & -> & E1); [lia|unfold STATIC_TREES; lia|lia|]. cbn [mbind option_bind].
  destruct (send_code_ok w1 END_BLOCK static_ltree 0 7 (em_ok _ _ _ E1) eq_refl) as (w2 & -> & E2); [lia|lia|apply (emits_room _ _ _ 7 E1); cbn [snd]; lia|]. cbn [mbind option_bind].
  assert (K0 : bits_ok (STATIC_TREES * 2, 3)) by (split; [done|split; done]). rewrite Eb in Hk. assert (E12 := emits_trans _ _ _ _ _ Hw K0 Hk E1 E2).
  destruct (bi_flush_ok w2 (em_ok _ _ _ E2)) as (w3 & -> & E3 & Hv); [assert (H0 := emits_room _ _ _ 0 E12); cbn [bcat snd] in H0; lia|]. cbn [mbind option_bind].
  exists w3, (static_bits [] 0). split; [done|]. split; [|split; [done|split; [done|by apply (static_reads hist [] I _ 0)]]].
  rewrite <- (bcat_nil_r (static_bits [] 0)). apply (emits_trans _ _ w2); [done|by apply bits_ok_cat|apply bits_ok_nil|exact E12|exact E3].
Qed.

Lemma tr_stored_sends s buf stored_len last hist :
  writer_ok (t_w s) -> 0 <= stored_len < 2 ^ 16 -> stored_len <= Z.of_nat (length buf) -> Forall byte_ok buf -> 0 <= last <= 1 ->
  (wbits (t_w s)).2 + 42 + 8 * stored_len <= 8 * Z.of_nat (length (w_buf (t_w s))) ->
  exists w' b, tr_stored_block s buf stored_len last = Some (s <| t_w := w' |>) /\ emits (t_w s) b w' /\ w_bi_valid w' = 0 /\
    b.2 <= 42 + 8 * stored_len /\ reads_as (wbits (t_w s)).2 b last hist (hist ++ bytes_at buf 0 stored_len).
Proof.
  intros Hw Hl1 Hl2 Hby Hlast Hr. unfold tr_stored_block. assert (Hrd := stored_reads (wbits (t_w s)).2 buf stored_len last hist Hlast Hl1 Hl2 Hby).
  destruct (send_bits_ok (t_w s) (STORED_BLOCK * 2 + last) 3 Hw) as (w1 & -> & E1); [lia|unfold STORED_BLOCK; lia|lia|]. cbn [mbind option_bind].
  assert (Eb : (wbits w1).2 = (wbits (t_w s)).2 + 3) by (by rewrite (em_bits _ _ _ E1)). pose proof (pad_range (wbits w1).2) as P.
  destruct (copy_block_ok w1 buf stored_len (em_ok _ _ _ E1) Hl1 Hl2 Hby) as (w2 & -> & E2 & V2); [rewrite (em_length _ _ _ E1); lia|]. cbn [mbind option_bind].
  rewrite Eb in E2, P. exists w2, ((STORED_BLOCK * 2 + last, 3) ·· stored_bits ((wbits (t_w s)).2 + 3) buf stored_len). split; [done|]. split; [|split; [done|split; [unfold stored_bits; cbn [bcat snd]; lia|exact Hrd]]].
  apply (emits_trans _ _ w1); [done|by apply (block_type STORED_BLOCK last 0)|by apply stored_bits_ok|exact E1|exact E2].
Qed.
