(* ===== verification/TreesClaims.v ===== *)
(** The properties of the output of blocks ([src/zlib/trees.c]), with examples on which their hypotheses hold. *)
From S2P Require Import Prelude Record Bits Huffman Lz Fixed DeflateFormat TreesTables Trees.
From S2P Require Import BitWriter TreesCodes TreesEmit TreesBuild TreesLens TreesTree TreesRle TreesHeader TreesTally.
From S2P Require Import TreesFlush.

(** ** Blocks *)

(** The calls of [_tr_tally] for the symbols of a block. *)
Fixpoint tally_all (s : trees_state) (syms : list sym) : option trees_state :=
  match syms with
  | [] => Some s
  | x :: syms => '(s, _) ← tr_tally s x.1 x.2; tally_all s syms
  end.

Lemma tally_all_ok syms : forall s done_,
  collected s done_ -> (wbits (t_w s)).2 <= 8 * t_lit_bufsize s -> Z.of_nat (length (done_ ++ syms)) < t_lit_bufsize s -> Forall sym_ok syms ->
  exists s', tally_all s syms = Some s' /\ collected s' (done_ ++ syms) /\ wbits (t_w s') = wbits (t_w s) /\ t_lit_bufsize s' = t_lit_bufsize s /\ t_level s' = t_level s.
Proof.
  induction syms as [|[d l] syms IH]; intros s done_ B Hp Hn Hs; cbn [tally_all]; [exists s; by rewrite app_nil_r|].
  apply Forall_cons_iff in Hs as [Hx Hs]. rewrite length_app in Hn. cbn [length] in Hn. assert (Hl := bs_last _ _ B).
  destruct (tr_tally_ok s done_ d l B Hp ltac:(lia) Hx) as (s1 & E & B1 & Ew & El & Ev). cbn [fst snd]. rewrite E. cbn [mbind option_bind].
  destruct (IH s1 (done_ ++ [(d, l)]) B1) as (s2 & E2 & B2 & Ew2 & El2 & Ev2); [by rewrite Ew, El|rewrite El, <- app_assoc, length_app; cbn [app length]; lia|done|].
  rewrite <- app_assoc in B2. exists s2. split; [done|]. split; [done|]. split_and!; congruence.
Qed.

Definition ex_entry : ct_data := CtData 0 0.
(** Arrays as large as [deflateInit2_] allocates them for memLevel 4. *)
Definition ex_trees : trees_state :=
  TreesState (Writer (replicate 4096 0) 0 0 0) 1024 0 0 (replicate 573 ex_entry) (replicate 61 ex_entry) (replicate 39 ex_entry)
    0 0 0 (replicate 16 0) (replicate 573 0) 0 0 (replicate 573 0) 0 0 6 0 2.
(** The bytes "abcabcabcd". *)
Definition ex_syms : list sym := [(0, 97); (0, 98); (0, 99); (3, 3); (0, 100)].
Definition ex_data : list Z := [97; 98; 99; 97; 98; 99; 97; 98; 99; 100].

Lemma ex_between : between_blocks ex_trees.
Proof.
  split; [split; [intros []; reflexivity|reflexivity..]| |split; vm_compute; congruence|reflexivity].
  split; cbn; try lia. apply List.Forall_nil.
Qed.
Lemma ex_syms_ok : Forall sym_ok ex_syms.
Proof. repeat (apply List.Forall_cons; [split; cbn; lia|]). apply List.Forall_nil. Qed.
Lemma ex_fit : all_fit [] ex_syms.
Proof. cbn. unfold sym_fits. cbn. lia. Qed.



(** C21. [_tr_tally] keeps the symbol buffers, their count and the frequencies of both trees in step with the symbols it was
    given, leaves the pending output alone, and asks for a flush exactly when one place is left. *)
Theorem tr_tally_keeps (s : trees_state) (syms : list sym) (dist lc : Z) :
  collected s syms -> (wbits (t_w s)).2 <= 8 * t_lit_bufsize s -> t_last_lit s + 1 < t_lit_bufsize s -> sym_ok (dist, lc) ->
  exists s', tr_tally s dist lc = Some (s', t_last_lit s + 1 =? t_lit_bufsize s - 1) /\ collected s' (syms ++ [(dist, lc)]) /\ wbits (t_w s') = wbits (t_w s).
Proof. intros B Hp Hn Hx. destruct (tr_tally_ok s syms dist lc B Hp Hn Hx) as (s' & E & B' & Ew & _). by exists s'. Qed.

Lemma ex_block : exists s, init_block ex_trees = Some s /\ collected s [] /\ t_w s = t_w ex_trees /\ t_lit_bufsize s = 1024.
Proof. destruct (init_block_ok ex_trees ex_between) as (s & E & B & Ew & _ & El). exists s. split; [exact E|]. split; [exact B|]. split; [exact Ew|exact El]. Qed.

Lemma tr_tally_keeps_witness :
  exists s s', init_block ex_trees = Some s /\ tr_tally s 0 97 = Some (s', t_last_lit s + 1 =? t_lit_bufsize s - 1) /\ collected s' ([] ++ [(0, 97)]) /\ wbits (t_w s') = wbits (t_w s).
Proof.
  destruct ex_block as (s & E & B & Ew & El). exists s. assert (Hl := bs_last _ _ B). cbn in Hl.
  destruct (tr_tally_keeps s [] 0 97 B) as (s' & H); [rewrite Ew, El; cbn; lia|rewrite Hl, El; lia|split; cbn; lia|]. exists s'. split; [exact E|exact H].
Defined.

(** ** Trees *)

(** C9. [build_tree] returns for all frequencies, also when fewer than two symbols are used and when the tree is deeper
    than the limit: the lengths are a complete code ([kraft]) within the limit, every symbol with a frequency has a code
    word, the code words are those of the canonical code, and the other trees and the output do not change. *)
Theorem build_tree_correct (s : trees_state) (desc : tree_desc) :
  sizes_ok s ->
  exists s', build_tree s desc = Some s' /\ tree_built (stat_desc desc) (dyn_tree s desc) (dyn_tree s' desc) (max_code s' desc) /\
    sizes_ok s' /\ only_tree desc s s'.
Proof. apply build_tree_ok. Qed.

Lemma build_tree_correct_witness :
  exists s', build_tree ex_trees l_desc = Some s' /\ tree_built (stat_desc l_desc) (dyn_tree ex_trees l_desc) (dyn_tree s' l_desc) (max_code s' l_desc) /\
    sizes_ok s' /\ only_tree l_desc ex_trees s'.
Proof. exact (build_tree_correct ex_trees l_desc (bb_sizes _ ex_between)). Defined.

(** C19. The description of the dynamic trees is read back: [build_bl_tree] and [send_all_trees] send at most
    [HEADER_MAX - 3] bits, from which the lengths of both codes are recovered, whatever follows. *)
Theorem header_roundtrip (s : trees_state) (tl td : list ct_data) :
  sizes_ok s -> tree_built static_l_desc tl (t_ltree s) (t_lmax s) -> tree_built static_d_desc td (t_dtree s) (t_dmax s) ->
  freq tl END_BLOCK <> 0 -> (forall i, 0 <= i < BL_CODES -> freq (t_bltree s) i = 0) ->
  writer_ok (t_w s) -> (wbits (t_w s)).2 + HEADER_MAX <= 8 * Z.of_nat (length (w_buf (t_w s))) ->
  exists s1 max_blindex s2 b, build_bl_tree s = Some (s1, max_blindex) /\
    send_all_trees s1 (t_lmax s1 + 1) (t_dmax s1 + 1) (max_blindex + 1) = Some s2 /\
    wbits (t_w s2) = wbits (t_w s) ·· b /\ 0 <= b.2 <= HEADER_MAX - 3 /\
    forall rest, trees_read (then_rest b rest) (lens_of (t_ltree s) (t_lmax s)) (lens_of (t_dtree s) (t_dmax s)) b.2.
Proof.
  intros Hsz Bl Bd He Hbl Hw Hr. destruct (build_bl_tree_ok s tl td Hsz Bl Bd He Hbl) as (s1 & mb & E1 & HR & _ & (Ew & _) & _).
  destruct (send_all_trees_ok _ _ _ _ HR) as [_ Hs]. assert (Hl := header_len _ _ _ _ HR). rewrite Ew in Hs.
  destruct (Hs Hw ltac:(lia)) as (w & E2 & Em). exists s1, mb, (s1 <| t_w := w |>), (header_bits s1 mb (lens_of (t_ltree s) (t_lmax s)) (lens_of (t_dtree s) (t_dmax s))).
  split; [done|]. split; [done|]. split; [apply (em_bits _ _ _ Em)|]. split; [done|]. intros rest. by apply header_decodes.
Qed.

(** The trees of the example. *)
Lemma ex_built : exists s tl td, sizes_ok s /\ tree_built static_l_desc tl (t_ltree s) (t_lmax s) /\ tree_built static_d_desc td (t_dtree s) (t_dmax s) /\
  freq tl END_BLOCK <> 0 /\ (forall i, 0 <= i < BL_CODES -> freq (t_bltree s) i = 0) /\ t_w s = t_w ex_trees.
Proof.
  destruct ex_block as (s & _ & B & Ew & _). destruct (build_tree_ok s l_desc (bs_sizes _ _ B)) as (s1 & _ & B1 & Z1 & O1).
  destruct (build_tree_ok s1 d_desc Z1) as (s2 & _ & B2 & Z2 & O2). exists s2, (t_ltree s), (t_dtree s1). split; [exact Z2|].
  assert (Xl := ot_tree _ _ _ O2 l_desc ltac:(discriminate)). assert (Xm := ot_max _ _ _ O2 l_desc ltac:(discriminate)).
  assert (Xb := ot_tree _ _ _ O2 bl_desc ltac:(discriminate)). assert (Xb1 := ot_tree _ _ _ O1 bl_desc ltac:(discriminate)).
  cbn [dyn_tree max_code stat_desc] in *. split; [rewrite Xl, Xm; exact B1|]. split; [exact B2|].
  split; [rewrite (bs_lfreq _ _ B) by (split; vm_compute; congruence); cbn; lia|]. split; [intros i; rewrite Xb, Xb1; apply (bs_blfreq _ _ B)|].
  rewrite (ot_w _ _ _ O2), (ot_w _ _ _ O1). exact Ew.
Qed.

Lemma header_roundtrip_witness :
  exists s s1 max_blindex s2 b, t_w s = t_w ex_trees /\ build_bl_tree s = Some (s1, max_blindex) /\
    send_all_trees s1 (t_lmax s1 + 1) (t_dmax s1 + 1) (max_blindex + 1) = Some s2 /\
    wbits (t_w s2) = wbits (t_w s) ·· b /\ 0 <= b.2 <= HEADER_MAX - 3 /\
    forall rest, trees_read (then_rest b rest) (lens_of (t_ltree s) (t_lmax s)) (lens_of (t_dtree s) (t_dmax s)) b.2.
Proof.
  destruct ex_built as (s & tl & td & H1 & H2 & H3 & H4 & H5 & Ew). exists s.
  destruct (header_roundtrip s tl td H1 H2 H3 H4 H5) as (s1 & mb & s2 & b & H); [rewrite Ew; exact (bb_writer _ ex_between)|rewrite Ew; vm_compute; congruence|].
  exists s1, mb, s2, b. split; [exact Ew|exact H].
Defined.

(** C22. [gen_codes] assigns the canonical code of the lengths: the code of every symbol, sent with its lowest bit first, is
    decoded as that symbol, whatever follows. *)
Theorem gen_codes_correct (tree : list ct_data) (lens count : list Z) :
  kraft (canon lens) <= 2 ^ 15 -> Forall (fun l => 0 <= l <= 15) lens -> has_lens tree lens -> counts_for count lens ->
  exists tree', gen_codes tree (Z.of_nat (length lens) - 1) count = Some tree' /\ same_lens tree tree' /\
    forall s l, aget lens s = Some l -> l <> 0 ->
      exists v, aget tree' s = Some (CtData v l) /\ 0 <= v < 2 ^ l /\ forall h, h mod 2 ^ l = v -> huff_decode lens (h mod 2 ^ 15) = Some (s, l).
Proof. intros H1 H2 H3 H4. destruct (gen_codes_ok tree lens count H1 H2 H3 H4) as (tree' & E & S & C & _). by exists tree'. Qed.

Lemma gen_codes_correct_witness :
  exists tree', gen_codes [CtData 9 2; CtData 9 1; CtData 9 3; CtData 9 3] 3 [0; 1; 1; 2; 0; 0; 0; 0; 0; 0; 0; 0; 0; 0; 0; 0] = Some tree' /\
    same_lens [CtData 9 2; CtData 9 1; CtData 9 3; CtData 9 3] tree' /\
    forall s l, aget [2; 1; 3; 3] s = Some l -> l <> 0 ->
      exists v, aget tree' s = Some (CtData v l) /\ 0 <= v < 2 ^ l /\ forall h, h mod 2 ^ l = v -> huff_decode [2; 1; 3; 3] (h mod 2 ^ 15) = Some (s, l).
Proof.
  apply (gen_codes_correct _ [2; 1; 3; 3] [0; 1; 1; 2; 0; 0; 0; 0; 0; 0; 0; 0; 0; 0; 0; 0]); [vm_compute; congruence| |by apply has_lens_map|by apply counts_check].
  repeat (apply List.Forall_cons; [lia|]). apply List.Forall_nil.
Defined.


(** ** Flushes *)

(** C27. [_tr_align] sends an empty block with the fixed codes, 10 bits that add no data, and leaves fewer than eight bits
    outside of the output buffer. *)
Theorem tr_align_correct (s : trees_state) (hist : list Z) :
  writer_ok (t_w s) -> (wbits (t_w s)).2 + 10 <= 8 * Z.of_nat (length (w_buf (t_w s))) ->
  exists s' b, tr_align s = Some s' /\ wbits (t_w s') = wbits (t_w s) ·· b /\ b.2 = 10 /\ w_bi_valid (t_w s') < 8 /\
    forall rest, block_read (wbits (t_w s)).2 (then_rest b rest) hist false b.2 hist.
Proof.
  intros Hw Hr. destruct (tr_align_sends s hist Hw Hr) as (w' & b & E & Em & Hb & Hv & _ & Hrd). exists (s <| t_w := w' |>), b. split; [done|]. split; [exact (em_bits _ _ _ Em)|]. done.
Qed.

Lemma tr_align_correct_witness :
  exists s' b, tr_align ex_trees = Some s' /\ wbits (t_w s') = wbits (t_w ex_trees) ·· b /\ b.2 = 10 /\ w_bi_valid (t_w s') < 8 /\
    forall rest, block_read (wbits (t_w ex_trees)).2 (then_rest b rest) [] false b.2 [].
Proof. apply (tr_align_correct ex_trees [] (bb_writer _ ex_between)). vm_compute. congruence. Defined.

(** C28. [_tr_stored_block] sends the bytes as a stored block, aligned to a byte boundary. *)
Theorem tr_stored_block_correct (s : trees_state) (buf : list Z) (stored_len last : Z) (hist : list Z) :
  writer_ok (t_w s) -> 0 <= stored_len < 2 ^ 16 -> stored_len <= Z.of_nat (length buf) -> Forall byte_ok buf -> 0 <= last <= 1 ->
  (wbits (t_w s)).2 + 42 + 8 * stored_len <= 8 * Z.of_nat (length (w_buf (t_w s))) ->
  exists w' b, tr_stored_block s buf stored_len last = Some (s <| t_w := w' |>) /\ wbits w' = wbits (t_w s) ·· b /\ w_bi_valid w' = 0 /\
    forall rest, block_read (wbits (t_w s)).2 (then_rest b rest) hist (last =? 1) b.2 (hist ++ bytes_at buf 0 stored_len).
Proof.
  intros Hw Hl1 Hl2 Hby Hlast Hr. destruct (tr_stored_sends s buf stored_len last hist Hw Hl1 Hl2 Hby Hlast Hr) as (w' & b & E & Em & Hv & _ & _ & Hrd).
  exists w', b. split; [done|]. split; [exact (em_bits _ _ _ Em)|]. done.
Qed.

Lemma tr_stored_block_correct_witness :
  exists w' b, tr_stored_block ex_trees ex_data 10 0 = Some (ex_trees <| t_w := w' |>) /\ wbits w' = wbits (t_w ex_trees) ·· b /\ w_bi_valid w' = 0 /\
    forall rest, block_read (wbits (t_w ex_trees)).2 (then_rest b rest) [] (0 =? 1) b.2 ([] ++ bytes_at ex_data 0 10).
Proof.
  apply (tr_stored_block_correct ex_trees ex_data 10 0 [] (bb_writer _ ex_between)); [lia|cbn; lia| |lia|vm_compute; congruence].
  repeat (apply List.Forall_cons; [split; lia|]). apply List.Forall_nil.
Defined.

(** ** The inline tallies and the data type *)

(** C35. The macros [_tr_tally_lit] and [_tr_tally_dist] of [deflate.h] do what [_tr_tally] does, except that they do not
    count the matches. *)
Theorem tally_macros_agree (s : trees_state) (dist lc : Z) :
  0 < dist <= 32768 -> 0 <= lc < 256 ->
  tr_tally_lit s lc = tr_tally s 0 lc /\
  forall s' full, tr_tally s dist lc = Some (s', full) -> tr_tally_dist s dist lc = Some (s' <| t_matches := t_matches s |>, full).
Proof. apply tally_macros. Qed.

Lemma tally_macros_agree_witness :
  tr_tally_lit ex_trees 97 = tr_tally ex_trees 0 97 /\
  forall s' full, tr_tally ex_trees 1 97 = Some (s', full) -> tr_tally_dist ex_trees 1 97 = Some (s' <| t_matches := t_matches ex_trees |>, full).
Proof. apply (tally_macros_agree ex_trees 1 97); lia. Defined.

(** The bytes that make data binary, and those that are text. *)
Definition black (i : Z) : bool := (i <=? 6) || (14 <=? i) && (i <=? 25) || (28 <=? i) && (i <=? 31).
Definition white (i : Z) : bool := (i =? 9) || (i =? 10) || (i =? 13) || (32 <=? i).
Definition used (tree : list ct_data) (p : Z -> bool) : bool := existsb (fun i => p i && nz (freq tree i)) (seqZ 0 256).

Lemma existsb_eq {A} (p q : A -> bool) l : (forall x, x ∈ l -> p x = q x) -> existsb p l = existsb q l.
Proof. induction l as [|x l IH]; intros H; [done|]. cbn [existsb]. rewrite (H x), IH; [done| |by left]. intros y Hy. apply H. by right. Qed.

Lemma any_freq_spec fuel : forall tree n mask, 0 <= n -> n + Z.of_nat fuel <= Z.of_nat (length tree) ->
  any_freq fuel tree n mask = Some (existsb (fun i => Z.testbit mask (i - n) && nz (freq tree i)) (seqZ n (Z.of_nat fuel))).
Proof.
  induction fuel as [|fuel IH]; intros tree n mask Hn Hl; cbn [any_freq]; [done|]. destruct (aget_in tree n ltac:(lia)) as [e Ee]. rewrite Ee. cbn [mbind option_bind].
  rewrite seqZ_cons by lia. cbn [existsb]. rewrite Z.sub_diag. assert (Ef : freq tree n = fc e) by (unfold freq; by rewrite Ee). rewrite Ef.
  assert (Em : nz (mask .& 1) = Z.testbit mask 0).
  { change 1 with (Z.ones 1). rewrite Z.land_ones by lia. change (2 ^ 1) with 2. rewrite <- Z.bit0_mod. by destruct (Z.testbit mask 0). }
  rewrite Em. destruct (_ && _) eqn:Eh; [done|]. cbn [orb]. rewrite IH by lia. f_equal. replace (Z.succ n) with (n + 1) by lia. replace (Z.pred (Z.of_nat (S fuel))) with (Z.of_nat fuel) by lia.
  apply existsb_eq. intros i. rewrite elem_of_seqZ. intros Hi. rewrite Z.shiftr_spec by lia. do 2 f_equal. lia.
Qed.

Lemma used_split tree p : used tree p = existsb (fun i => p i && nz (freq tree i)) (seqZ 0 32) || existsb (fun i => p i && nz (freq tree i)) (seqZ 32 224).
Proof. unfold used. change 256 with (32 + 224). rewrite seqZ_app by lia. apply existsb_app. Qed.

Lemma used_black tree : used tree black = existsb (fun i => Z.testbit 0xf3ffc07f (i - 0) && nz (freq tree i)) (seqZ 0 32).
Proof.
  rewrite used_split, (existsb_eq _ (fun _ => false) (seqZ 32 224)), (existsb_eq _ (fun i => Z.testbit 0xf3ffc07f (i - 0) && nz (freq tree i)) (seqZ 0 32)).
  - assert (H : forall l : list Z, existsb (fun _ => false) l = false) by (intros l; by induction l). by rewrite H, orb_false_r.
  - intros i Hi. f_equal. assert (Hc : forallb (fun i => Bool.eqb (black i) (Z.testbit 0xf3ffc07f (i - 0))) (seqZ 0 32) = true) by reflexivity.
    rewrite forallb_forall in Hc. specialize (Hc i). rewrite <- list_elem_of_In in Hc. by apply Bool.eqb_prop, Hc.
  - intros i. rewrite elem_of_seqZ. intros Hi. unfold black. destruct (Z.leb_spec i 6), (Z.leb_spec i 25), (Z.leb_spec i 31); lia.
Qed.

Lemma used_white tree :
  used tree white = nz (freq tree 9) || nz (freq tree 10) || nz (freq tree 13) || existsb (fun i => Z.testbit (-1) (i - 32) && nz (freq tree i)) (seqZ 32 224).
Proof.
  rewrite used_split. assert (H : forall f : Z -> bool, existsb (fun i => white i && f i) (seqZ 0 32) = f 9 || f 10 || f 13) by (intros f; vm_compute; by destruct (f 9), (f 10), (f 13)).
  rewrite (H (fun i => nz (freq tree i))). done.
Qed.

(** C36. [detect_data_type] says text exactly when no byte of the black list occurs and some byte of the white list does. *)
Theorem detect_data_type_correct (tree : list ct_data) :
  256 <= Z.of_nat (length tree) ->
  detect_data_type tree = Some (if negb (used tree black) && used tree white then Z_TEXT else Z_BINARY).
Proof.
  intros Hl. unfold detect_data_type. rewrite (any_freq_spec 32), (any_freq_spec 224) by lia. change (Z.of_nat 32) with 32. change (Z.of_nat 224) with 224.
  rewrite <- used_black. cbn [mbind option_bind]. destruct (used tree black); [done|]. cbn [negb andb].
  destruct (aget_in tree 9 ltac:(lia)) as [e9 E9], (aget_in tree 10 ltac:(lia)) as [e10 E10], (aget_in tree 13 ltac:(lia)) as [e13 E13].
  rewrite used_white. unfold freq at 2 3 4. rewrite E9, E10, E13. cbn [mbind option_bind]. by destruct (_ || _ || _).
Qed.

Lemma detect_data_type_correct_witness :
  detect_data_type (t_ltree ex_trees) = Some (if negb (used (t_ltree ex_trees) black) && used (t_ltree ex_trees) white then Z_TEXT else Z_BINARY).
Proof. apply (detect_data_type_correct (t_ltree ex_trees)). vm_compute. congruence. Defined.
