(* ===== verification/InfFast.v ===== *)
(** Model of [src/zlib/inffast.c]: the fast decoding loop, for the build with pre-increment ([OFF] is 1). *)
From S2P Require Import Prelude Record InfTrees Inffixed InflateState.

(** [ptr[i]] for a table pointer of the state. *)
Definition table_at (codes : list code) (ptr : codeptr) (i : Z) : option code :=
  match ptr with
  | InCodes off => aget codes (off + i)
  | Lenfix => aget lenfix i
  | Distfix => aget distfix i
  end.
Definition code_at (st : inflate_state) (ptr : codeptr) (i : Z) : option code := table_at (s_codes st) ptr i.

(** The local variables that change in the loop; [f_in] and [f_out] are [OFF] before the next byte. *)
Record fast := Fast { f_in : Z; f_out : Z; f_hold : Z; f_bits : Z; f_obuf : list Z }.

(** What [from] points into. *)
Inductive source := FromWindow (i : Z) | FromOut (i : Z).

Definition OFF : Z := 1.

Section fast.
Context (ibuf : list Z) (st : inflate_state) (beg : Z).

(** [hold += (unsigned long)(PUP(in)) << bits; bits += 8;] *)
Definition pull (f : fast) : option fast :=
  let i := f_in f + 1 in
  b ← aget ibuf i;
  v ← shl32 b (f_bits f);
  Some (Fast i (f_out f) (u32 (f_hold f + v)) (u32 (f_bits f + 8)) (f_obuf f)).

(** [if (bits < 15) { two bytes }] *)
Definition refill (f : fast) : option fast :=
  if f_bits f <? 15 then f ← pull f; pull f else Some f.

(** [hold >>= n; bits -= n;] *)
Definition fdrop (n : Z) (f : fast) : option fast :=
  h ← shr32 (f_hold f) n;
  Some (Fast (f_in f) (f_out f) h (u32 (f_bits f - n)) (f_obuf f)).

(** [(unsigned)hold & ((1U << n) - 1)] *)
Definition fbits (n : Z) (f : fast) : option Z :=
  m ← shl32 1 n;
  Some (f_hold f .& u32 (m - 1)).

(** [PUP(out) = v;] *)
Definition fput (v : Z) (f : fast) : option fast :=
  let o := f_out f + 1 in
  b ← aset (f_obuf f) o v;
  Some (Fast (f_in f) o (f_hold f) (f_bits f) b).

(** [PUP(out) = PUP(from);] *)
Definition copy1 (sf : source * fast) : option (source * fast) :=
  let '(from, f) := sf in
  match from with
  | FromWindow i =>
      w ← s_window st;
      v ← aget w (i + 1);
      f ← fput v f;
      Some (FromWindow (i + 1), f)
  | FromOut i =>
      v ← aget (f_obuf f) (i + 1);
      f ← fput v f;
      Some (FromOut (i + 1), f)
  end.

Fixpoint copyn (n : nat) (sf : source * fast) : option (source * fast) :=
  match n with
  | O => Some sf
  | S n => sf ← copy1 sf; copyn n sf
  end.

(** [do { PUP(out) = PUP(from); } while (--op);]: for [op] 0 the loop would run past the arrays. *)
Definition do_copy (op : Z) (sf : source * fast) : option (source * fast) :=
  if op =? 0 then None else copyn (Z.to_nat op) sf.

(** [while (len > 2) { three bytes; len -= 3; }] *)
Fixpoint copy3_loop (fuel : nat) (len : Z) (sf : source * fast) : option (Z * (source * fast)) :=
  match fuel with
  | O => None
  | S fuel =>
      if 2 <? len then sf ← copyn 3 sf; copy3_loop fuel (u32 (len - 3)) sf else Some (len, sf)
  end.

(** [if (len) { one byte; if (len > 1) one byte; }] *)
Definition copy_tail (lsf : Z * (source * fast)) : option fast :=
  let '(len, sf) := lsf in
  if nz len then
    sf ← copy1 sf;
    if 1 <? len then sf ← copy1 sf; Some sf.2 else Some sf.2
  else Some sf.2.

(** copy direct from output; minimum length is three *)
Definition copy_direct (len dist : Z) (f : fast) : option fast :=
  sf ← copyn 3 (FromOut (f_out f - dist), f);
  r ← copy3_loop (Z.to_nat len) (u32 (len - 3)) sf;
  copy_tail r.

(** copy from the window, [op] bytes back from its end; then the rest from the output *)
Definition copy_window (op len dist : Z) (f : fast) : option fast :=
  let wsize := s_wsize st in
  let wnext := s_wnext st in
  r ← (if wnext =? 0 then
         let from := FromWindow (- OFF + u32 (wsize - op)) in
         if op <? len then
           sf ← do_copy op (from, f);
           Some (u32 (len - op), (FromOut (f_out sf.2 - dist), sf.2))
         else Some (len, (from, f))
       else if wnext <? op then
         let from := FromWindow (- OFF + u32 (wsize + wnext - op)) in
         let op := u32 (op - wnext) in
         if op <? len then
           let len := u32 (len - op) in
           sf ← do_copy op (from, f);
           let from := FromWindow (- OFF) in
           if wnext <? len then
             let len := u32 (len - wnext) in
             sf ← do_copy wnext (from, sf.2);
             Some (len, (FromOut (f_out sf.2 - dist), sf.2))
           else Some (len, (from, sf.2))
         else Some (len, (from, f))
       else
         let from := FromWindow (- OFF + u32 (wnext - op)) in
         if op <? len then
           sf ← do_copy op (from, f);
           Some (u32 (len - op), (FromOut (f_out sf.2 - dist), sf.2))
         else Some (len, (from, f)));
  let '(len, sf) := r in
  r ← copy3_loop (S (Z.to_nat len)) len sf;
  copy_tail r.

(** How an iteration ends: the loop condition is tested, or a [break] with the mode and the message. *)
Inductive fend := Again | Break (m : inflate_mode) (msg : option string).

(** the distance is known: lines 174 to 267 *)
Definition fast_match (len dist : Z) (f : fast) : option (fend * fast) :=
  let op := u32 (f_out f - beg) in
  if op <? dist then
    let op := u32 (dist - op) in
    if (s_whave st <? op) && nz (s_sane st) then
      Some (Break BAD (Some "invalid distance too far back"%string), f)
    else f ← copy_window op len dist f; Some (Again, f)
  else f ← copy_direct len dist f; Some (Again, f).

(** [dodist:] *)
Fixpoint dodist (fuel : nat) (len : Z) (here : code) (f : fast) : option (fend * fast) :=
  match fuel with
  | O => None
  | S fuel =>
      f ← fdrop (bits here) f;
      if nz (op here .& 16) then
        let dist := val here in
        let op := op here .& 15 in
        f ← (if f_bits f <? op then
               f ← pull f;
               if f_bits f <? op then pull f else Some f
             else Some f);
        e ← fbits op f;
        let dist := u32 (dist + e) in
        f ← fdrop op f;
        fast_match len dist f
      else if op here .& 64 =? 0 then
        i ← fbits (op here) f;
        here ← code_at st (s_distcode st) (val here + i);
        dodist fuel len here f
      else Some (Break BAD (Some "invalid distance code"%string), f)
  end.

(** [dolen:] *)
Fixpoint dolen (fuel : nat) (here : code) (f : fast) : option (fend * fast) :=
  match fuel with
  | O => None
  | S fuel =>
      f ← fdrop (bits here) f;
      if op here =? 0 then
        f ← fput (u8 (val here)) f; Some (Again, f)
      else if nz (op here .& 16) then
        let len := val here in
        let op := op here .& 15 in
        '(len, f) ← (if nz op then
                       f ← (if f_bits f <? op then pull f else Some f);
                       e ← fbits op f;
                       f ← fdrop op f;
                       Some (u32 (len + e), f)
                     else Some (len, f));
        f ← refill f;
        i ← fbits (s_distbits st) f;
        here ← code_at st (s_distcode st) i;
        dodist 3 len here f
      else if op here .& 64 =? 0 then
        i ← fbits (op here) f;
        here ← code_at st (s_lencode st) (val here + i);
        dolen fuel here f
      else if nz (op here .& 32) then Some (Break TYPE None, f)
      else Some (Break BAD (Some "invalid literal/length code"%string), f)
  end.

(** one iteration of the loop *)
Definition fast_step (f : fast) : option (fend * fast) :=
  f ← refill f;
  i ← fbits (s_lenbits st) f;
  here ← code_at st (s_lencode st) i;
  dolen 3 here f.

(** [do { ... } while (in < last && out < end);] *)
Fixpoint fast_loop (fuel : nat) (last end_ : Z) (f : fast) : option (fend * fast) :=
  match fuel with
  | O => None
  | S fuel =>
      r ← fast_step f;
      match r with
      | (Again, f) => if (f_in f <? last) && (f_out f <? end_) then fast_loop fuel last end_ f else Some (Again, f)
      | (Break m msg, f) => Some (Break m msg, f)
      end
  end.
End fast.

(** Every iteration of the loop consumes a bit of the input or of [hold]. *)
Definition fast_fuel (avail_in bits : Z) : nat := S (Z.to_nat (8 * avail_in + bits)).

Definition inflate_fast (strm : z_stream) (st : inflate_state) (start : Z) : option (z_stream * inflate_state) :=
  let in_ := z_next_in strm - OFF in
  let last := in_ + u32 (z_avail_in strm - 5) in
  let out := z_next_out strm - OFF in
  let beg := out - u32 (start - z_avail_out strm) in
  let end_ := out + u32 (z_avail_out strm - 257) in
  r ← fast_loop (in_buf strm) st beg (fast_fuel (z_avail_in strm) (s_bits st)) last end_
        (Fast in_ out (s_hold st) (s_bits st) (out_buf strm));
  let '(e, f) := r in
  let strm := match e with Break _ (Some m) => strm <| z_msg := Some m |> | _ => strm end in
  let st := match e with Break m _ => st <| s_mode := m |> | Again => st end in
  (* return unused bytes *)
  let len := f_bits f ≫ 3 in
  let in_ := f_in f - len in
  let bits := u32 (f_bits f - len ≪ 3) in
  m ← shl32 1 bits;
  let hold := f_hold f .& u32 (m - 1) in
  Some (strm <| z_next_in := in_ + OFF |> <| z_next_out := f_out f + OFF |>
             <| z_avail_in := u32 (if in_ <? last then 5 + (last - in_) else 5 - (in_ - last)) |>
             <| z_avail_out := u32 (if f_out f <? end_ then 257 + (end_ - f_out f) else 257 - (f_out f - end_)) |>
             <| z_out := (fun _ => f_obuf f) <$> z_out strm |>,
        st <| s_hold := hold |> <| s_bits := bits |>).
