(* ===== verification/InflateMonad.v ===== *)
(** The control structure of [inflate()] in [src/zlib/inflate.c]: its local variables, the macros, and the
    ways a [case] of its state machine ends. *)
From S2P Require Import Prelude Record InfTrees Crc32 Adler32 InflateState.

(** ** The local variables *)
Record regs := Regs {
  r_put : Z; r_left : Z; r_next : Z; r_have : Z; r_hold : Z; r_bits : Z;
  r_in : Z; r_out : Z; r_ret : Z }.
Definition eta_regs (r : regs) : regs :=
  Regs (r_put r) (r_left r) (r_next r) (r_have r) (r_hold r) (r_bits r) (r_in r) (r_out r) (r_ret r).
#[export] Instance set_r_put : Setter r_put := ltac:(mk_setter eta_regs r_put).
#[export] Instance set_r_left : Setter r_left := ltac:(mk_setter eta_regs r_left).
#[export] Instance set_r_next : Setter r_next := ltac:(mk_setter eta_regs r_next).
#[export] Instance set_r_have : Setter r_have := ltac:(mk_setter eta_regs r_have).
#[export] Instance set_r_hold : Setter r_hold := ltac:(mk_setter eta_regs r_hold).
#[export] Instance set_r_bits : Setter r_bits := ltac:(mk_setter eta_regs r_bits).
#[export] Instance set_r_in : Setter r_in := ltac:(mk_setter eta_regs r_in).
#[export] Instance set_r_out : Setter r_out := ltac:(mk_setter eta_regs r_out).
#[export] Instance set_r_ret : Setter r_ret := ltac:(mk_setter eta_regs r_ret).

(** [*strm] (its [z_state] is not used here), [*state] and the local variables. *)
Record ctx := Ctx { c_strm : z_stream; c_st : inflate_state; c_r : regs }.
Definition eta_ctx (c : ctx) : ctx := Ctx (c_strm c) (c_st c) (c_r c).
#[export] Instance set_c_strm : Setter c_strm := ltac:(mk_setter eta_ctx c_strm).
#[export] Instance set_c_st : Setter c_st := ltac:(mk_setter eta_ctx c_st).
#[export] Instance set_c_r : Setter c_r := ltac:(mk_setter eta_ctx c_r).

(** ** The monad: a statement completes, jumps to [inf_leave], returns from [inflate()], or is undefined. *)
Inductive outcome (A : Type) :=
  | Ok (a : A) (c : ctx)
  | Leave (c : ctx)
  | Return (ret : Z) (c : ctx)
  | Fault.
Arguments Ok {A}. Arguments Leave {A}. Arguments Return {A}. Arguments Fault {A}.

Definition M (A : Type) : Type := ctx -> outcome A.

#[export] Instance M_ret : MRet M := fun A a c => Ok a c.
#[export] Instance M_bind : MBind M := fun A B k m c =>
  match m c with
  | Ok a c => k a c
  | Leave c => Leave c
  | Return ret c => Return ret c
  | Fault => Fault
  end.

Definition gets {A} (f : ctx -> A) : M A := fun c => Ok (f c) c.
Definition modify (f : ctx -> ctx) : M unit := fun c => Ok tt (f c).
Definition lift {A} (o : option A) : M A := fun c => match o with Some a => Ok a c | None => Fault end.
Definition inf_leave {A} : M A := fun c => Leave c.
Definition return_ {A} (ret : Z) : M A := fun c => Return ret c.

(** Reading and writing [state->f], [strm->f] and the locals. *)
Definition sget {T} (f : inflate_state -> T) : M T := gets (fun c => f (c_st c)).
Definition zget {T} (f : z_stream -> T) : M T := gets (fun c => f (c_strm c)).
Definition rget {T} (f : regs -> T) : M T := gets (fun c => f (c_r c)).
Definition sput {T} (f : inflate_state -> T) `{!Setter f} (v : T) : M unit :=
  modify (fun c => c <| c_st ::= upd f (fun _ => v) |>).
Definition zput {T} (f : z_stream -> T) `{!Setter f} (v : T) : M unit :=
  modify (fun c => c <| c_strm ::= upd f (fun _ => v) |>).
Definition rput {T} (f : regs -> T) `{!Setter f} (v : T) : M unit :=
  modify (fun c => c <| c_r ::= upd f (fun _ => v) |>).

(** The [break] of the switch. *)
Definition break_ : M unit := mret ().

(** [strm->msg = msg; state->mode = BAD; break;] *)
Definition bad (msg : string) : M unit := zput z_msg (Some msg);; sput s_mode BAD;; break_.

(** [if (c) m] *)
Definition when_ (c : bool) (m : M unit) : M unit := if c then m else mret ().

(** Assignment through [state->head], when it is not NULL. *)
Definition set_head (f : gz_header -> gz_header) : M unit :=
  h ← sget s_head;
  match h with Some h => sput s_head (Some (f h)) | None => mret () end.

(** ** The macros *)
Definition LOAD : M unit := modify (fun c =>
  c <| c_r ::= fun r =>
      r <| r_put := z_next_out (c_strm c) |> <| r_left := z_avail_out (c_strm c) |>
        <| r_next := z_next_in (c_strm c) |> <| r_have := z_avail_in (c_strm c) |>
        <| r_hold := s_hold (c_st c) |> <| r_bits := s_bits (c_st c) |> |>).

Definition RESTORE : M unit := modify (fun c =>
  c <| c_strm ::= fun z =>
      z <| z_next_out := r_put (c_r c) |> <| z_avail_out := r_left (c_r c) |>
        <| z_next_in := r_next (c_r c) |> <| z_avail_in := r_have (c_r c) |> |>
    <| c_st ::= fun s => s <| s_hold := r_hold (c_r c) |> <| s_bits := r_bits (c_r c) |> |>).

Definition INITBITS : M unit := rput r_hold 0;; rput r_bits 0.

Definition PULLBYTE : M unit :=
  have ← rget r_have;
  if have =? 0 then inf_leave else
  rput r_have (u32 (have - 1));;
  next ← rget r_next;
  buf ← zget in_buf;
  b ← lift (aget buf next);
  rput r_next (next + 1);;
  bits ← rget r_bits;
  v ← lift (shl32 b bits);
  hold ← rget r_hold;
  rput r_hold (u32 (hold + v));;
  rput r_bits (u32 (bits + 8)).

(** [while (bits < n) PULLBYTE();]: each round adds eight bits, and a shift by 32 or more is undefined. *)
Fixpoint needbits_loop (fuel : nat) (n : Z) : M unit :=
  match fuel with
  | O => lift None
  | S fuel =>
      bits ← rget r_bits;
      if bits <? n then PULLBYTE;; needbits_loop fuel n else mret ()
  end.
Definition NEEDBITS (n : Z) : M unit := needbits_loop 5 n.

Definition BITS (n : Z) : M Z :=
  hold ← rget r_hold;
  m ← lift (shl32 1 n);
  mret (hold .& u32 (m - 1)).

Definition DROPBITS (n : Z) : M unit :=
  hold ← rget r_hold;
  h ← lift (shr32 hold n);
  rput r_hold h;;
  bits ← rget r_bits;
  rput r_bits (u32 (bits - n)).

Definition BYTEBITS : M unit :=
  hold ← rget r_hold;
  bits ← rget r_bits;
  rput r_hold (hold ≫ (bits .& 7));;
  rput r_bits (u32 (bits - (bits .& 7))).

(** [UPDATE], [CRC2] and [CRC4] *)
Definition UPDATE (flags check : Z) (buf : list Z) : Z :=
  if nz flags then crc32 check (Some buf) else adler32 check (Some buf).
Definition CRC2 (check word : Z) : Z := crc32 check (Some [u8 word; u8 (word ≫ 8)]).
Definition CRC4 (check word : Z) : Z :=
  crc32 check (Some [u8 word; u8 (word ≫ 8); u8 (word ≫ 16); u8 (word ≫ 24)]).
