(* ===== verification/Inflate.v ===== *)
(** Model of [src/zlib/inflate.c], except for the state machine's proofs: the state machine of [inflate()],
    one definition per [case] (a [case] that falls through calls the next), and the other functions of the
    interface. *)
From S2P Require Import Prelude Record InfTrees Inffixed Crc32 Adler32 InflateState InflateMonad InfFast.

Section inflate.
(** Results of the calls of [zalloc]: for the [n]-th call, an array of the requested size or NULL; and the
    memory obtained for the state. *)
Context (zalloc : nat -> Z -> option (list Z)) (zalloc_state : nat -> option inflate_state).

Definition order : list Z := [16; 17; 18; 0; 8; 7; 9; 6; 10; 5; 11; 4; 12; 3; 13; 2; 14; 1; 15].

(** ** Initialisation *)
Definition inflateResetKeep (strm : z_stream) : z_stream * Z :=
  match z_state strm with
  | None => (strm, Z_STREAM_ERROR)
  | Some st =>
      let strm := strm <| z_total_in := 0 |> <| z_total_out := 0 |> <| z_msg := None |> in
      let strm := if nz (s_wrap st) then strm <| z_adler := s_wrap st .& 1 |> else strm in
      let st := st <| s_total := 0 |> <| s_mode := HEAD |> <| s_last := 0 |> <| s_havedict := 0 |>
                   <| s_dmax := 32768 |> <| s_head := None |> <| s_hold := 0 |> <| s_bits := 0 |>
                   <| s_lencode := InCodes 0 |> <| s_distcode := InCodes 0 |> <| s_next := 0 |>
                   <| s_sane := 1 |> <| s_back := -1 |> in
      (strm <| z_state := Some st |>, Z_OK)
  end.

Definition inflateReset (strm : z_stream) : z_stream * Z :=
  match z_state strm with
  | None => (strm, Z_STREAM_ERROR)
  | Some st =>
      inflateResetKeep (strm <| z_state := Some (st <| s_wsize := 0 |> <| s_whave := 0 |> <| s_wnext := 0 |>) |>)
  end.

Definition inflateReset2 (strm : z_stream) (windowBits : Z) : z_stream * Z :=
  match z_state strm with
  | None => (strm, Z_STREAM_ERROR)
  | Some st =>
      let '(wrap, windowBits) :=
        if windowBits <? 0 then (0, - windowBits)
        else ((windowBits ≫ 4) + 1, if windowBits <? 48 then windowBits .& 15 else windowBits) in
      if nz windowBits && ((windowBits <? 8) || (15 <? windowBits)) then (strm, Z_STREAM_ERROR) else
      let st := match s_window st with
                | Some _ => if negb (s_wbits st =? u32 windowBits) then st <| s_window := None |> else st
                | None => st
                end in
      inflateReset (strm <| z_state := Some (st <| s_wrap := wrap |> <| s_wbits := u32 windowBits |>) |>)
  end.

(** [version_ok] is the outcome of the checks of [version] and [stream_size]. *)
Definition inflateInit2_ (strm : z_stream) (windowBits : Z) (version_ok : bool) : z_stream * Z :=
  if negb version_ok then (strm, Z_VERSION_ERROR) else
  let strm := strm <| z_msg := None |> <| z_zalloc := true |> <| z_zfree := true |> in
  let call := z_calls strm in
  let strm := strm <| z_calls := S call |> in
  match zalloc_state call with
  | None => (strm, Z_MEM_ERROR)
  | Some st =>
      let '(strm, ret) := inflateReset2 (strm <| z_state := Some (st <| s_window := None |>) |>) windowBits in
      if negb (ret =? Z_OK) then (strm <| z_state := None |>, ret) else (strm, ret)
  end.

Definition inflateInit_ (strm : z_stream) (version_ok : bool) : z_stream * Z :=
  inflateInit2_ strm DEF_WBITS version_ok.

(** [None]: the shift of [value] is undefined. *)
Definition inflatePrime (strm : z_stream) (bits value : Z) : option (z_stream * Z) :=
  match z_state strm with
  | None => Some (strm, Z_STREAM_ERROR)
  | Some st =>
      if bits <? 0 then
        Some (strm <| z_state := Some (st <| s_hold := 0 |> <| s_bits := 0 |>) |>, Z_OK)
      else if (16 <? bits) || (32 <? u32 (s_bits st + bits)) then Some (strm, Z_STREAM_ERROR)
      else
        let value := value .& ((1 ≪ bits) - 1) in
        v ← shl32 value (s_bits st);
        Some (strm <| z_state := Some (st <| s_hold := u32 (s_hold st + v) |>
                                          <| s_bits := u32 (s_bits st + bits) |>) |>, Z_OK)
  end.

(** ** Fixed tables *)
Definition fixedtables (st : inflate_state) : inflate_state :=
  st <| s_lencode := Lenfix |> <| s_lenbits := 9 |> <| s_distcode := Distfix |> <| s_distbits := 5 |>.

(** ** The window

    [updatewindow] for the array [buf] and the index [end_] of its end; the state, the allocation
    count and the return value. *)
Definition updatewindow (st : inflate_state) (calls : nat) (buf : list Z) (end_ copy : Z)
    : option (inflate_state * nat * Z) :=
  let '(st, calls) :=
    match s_window st with
    | None => (st <| s_window := zalloc calls (1 ≪ s_wbits st) |>, S calls)
    | Some _ => (st, calls)
    end in
  match s_window st with
  | None => Some (st, calls, 1)
  | Some window =>
      let st := if s_wsize st =? 0
                then st <| s_wsize := 1 ≪ s_wbits st |> <| s_wnext := 0 |> <| s_whave := 0 |> else st in
      if s_wsize st <=? copy then
        window ← memcpy window 0 buf (end_ - s_wsize st) (s_wsize st);
        Some (st <| s_window := Some window |> <| s_wnext := 0 |> <| s_whave := s_wsize st |>, calls, 0)
      else
        let dist := u32 (s_wsize st - s_wnext st) in
        let dist := if copy <? dist then copy else dist in
        window ← memcpy window (s_wnext st) buf (end_ - copy) dist;
        let copy := u32 (copy - dist) in
        if nz copy then
          window ← memcpy window 0 buf (end_ - copy) copy;
          Some (st <| s_window := Some window |> <| s_wnext := copy |> <| s_whave := s_wsize st |>, calls, 0)
        else
          let wnext := u32 (s_wnext st + dist) in
          let wnext := if wnext =? s_wsize st then 0 else wnext in
          let whave := if s_whave st <? s_wsize st then u32 (s_whave st + dist) else s_whave st in
          Some (st <| s_window := Some window |> <| s_wnext := wnext |> <| s_whave := whave |>, calls, 0)
  end.

(** ** The cases of the state machine, last to first *)
Section cases.
Context (flush : Z).

Definition case_BAD : M unit := rput r_ret Z_DATA_ERROR;; inf_leave.
Definition case_DONE : M unit := rput r_ret Z_STREAM_END;; inf_leave.

Definition case_LENGTH : M unit :=
  wrap ← sget s_wrap;
  flags ← sget s_flags;
  let next := sput s_mode DONE;; case_DONE in
  if nz wrap && nz flags then
    NEEDBITS 32;;
    hold ← rget r_hold;
    total ← sget s_total;
    if negb (hold =? total .& 0xffffffff) then bad "incorrect length check" else
    INITBITS;; next
  else next.

Definition case_CHECK : M unit :=
  wrap ← sget s_wrap;
  let next := sput s_mode LENGTH;; case_LENGTH in
  if nz wrap then
    NEEDBITS 32;;
    out ← rget r_out;
    left ← rget r_left;
    let out := u32 (out - left) in
    total_out ← zget z_total_out;
    zput z_total_out (u32 (total_out + out));;
    total ← sget s_total;
    sput s_total (u32 (total + out));;
    flags ← sget s_flags;
    when_ (nz out) (
      put ← rget r_put;
      obuf ← zget out_buf;
      buf ← lift (slice obuf (put - out) out);
      check ← sget s_check;
      let check := UPDATE flags check buf in
      sput s_check check;; zput z_adler check);;
    rput r_out left;;
    hold ← rget r_hold;
    check ← sget s_check;
    if negb ((if nz flags then hold else ZSWAP32 hold) =? check) then bad "incorrect data check" else
    INITBITS;; next
  else next.

Definition case_LIT : M unit :=
  left ← rget r_left;
  if left =? 0 then inf_leave else
  put ← rget r_put;
  obuf ← zget out_buf;
  length ← sget s_length;
  obuf ← lift (aset obuf put (u8 length));
  zput z_out (Some obuf);;
  rput r_put (put + 1);;
  rput r_left (u32 (left - 1));;
  sput s_mode LEN;; break_.

(** [do { *put++ = *from++; } while (--copy);]: [window] is the source array, or [None] for the output. *)
Fixpoint copy_loop (fuel : nat) (window : option (list Z)) (from copy : Z) : M unit :=
  match fuel with
  | O => lift None
  | S fuel =>
      put ← rget r_put;
      obuf ← zget out_buf;
      b ← lift (aget (default obuf window) from);
      obuf ← lift (aset obuf put b);
      zput z_out (Some obuf);;
      rput r_put (put + 1);;
      let copy := u32 (copy - 1) in
      if nz copy then copy_loop fuel window (from + 1) copy else mret ()
  end.

Definition case_MATCH : M unit :=
  left ← rget r_left;
  if left =? 0 then inf_leave else
  out ← rget r_out;
  offset ← sget s_offset;
  length ← sget s_length;
  put ← rget r_put;
  let finish window from copy :=
    (let copy := if left <? copy then left else copy in
     rput r_left (u32 (left - copy));;
     sput s_length (u32 (length - copy));;
     copy_loop (Z.to_nat copy) window from copy;;
     length ← sget s_length;
     when_ (length =? 0) (sput s_mode LEN);;
     break_) in
  let copy := u32 (out - left) in
  if copy <? offset then
    let copy := u32 (offset - copy) in
    whave ← sget s_whave;
    sane ← sget s_sane;
    if (whave <? copy) && nz sane then bad "invalid distance too far back" else
    wnext ← sget s_wnext;
    wsize ← sget s_wsize;
    window ← sget s_window;
    window ← lift window;
    let '(from, copy) :=
      if wnext <? copy then let copy := u32 (copy - wnext) in (u32 (wsize - copy), copy)
      else (u32 (wnext - copy), copy) in
    let copy := if length <? copy then length else copy in
    finish (Some window) from copy
  else finish None (put - offset) length.

(** [if (state->extra) { NEEDBITS(extra); f += BITS(extra); DROPBITS(extra); back += extra; }] *)
Definition add_extra (f : inflate_state -> Z) `{!Setter f} : M unit :=
  extra ← sget s_extra;
  when_ (nz extra) (
    NEEDBITS extra;;
    e ← BITS extra;
    v ← sget f;
    sput f (u32 (v + e));;
    DROPBITS extra;;
    back ← sget s_back;
    sput s_back (back + extra)).

Definition case_DISTEXT : M unit :=
  add_extra s_offset;;
  sput s_mode MATCH;; case_MATCH.

(** [for (;;) { here = table[...]; if (base + here.bits <= bits) break; PULLBYTE(); }] where the index
    is [val + (BITS(n) >> drop)]: the entry found *)
Fixpoint get_code (fuel : nat) (table : codeptr) (val n drop base : Z) : M code :=
  match fuel with
  | O => lift None
  | S fuel =>
      b ← BITS n;
      st ← sget id;
      here ← lift (code_at st table (val + (b ≫ drop)));
      bits ← rget r_bits;
      if base + InfTrees.bits here <=? bits then mret here
      else PULLBYTE;; get_code fuel table val n drop base
  end.

(** A symbol of the code [table]: the entry, through a link to a second-level table if [link] says that
    the entry is one; its bits are dropped and counted in [back]. *)
Definition decode_symbol (link : code -> bool) (table : codeptr) (n : Z) : M code :=
  here ← get_code 5 table 0 n 0 0;
  here ← (if link here then
            let last := here in
            here ← get_code 5 table (InfTrees.val last) (InfTrees.bits last + op last) (InfTrees.bits last) (InfTrees.bits last);
            DROPBITS (InfTrees.bits last);;
            back ← sget s_back;
            sput s_back (back + InfTrees.bits last);;
            mret here
          else mret here);
  DROPBITS (InfTrees.bits here);;
  back ← sget s_back;
  sput s_back (back + InfTrees.bits here);;
  mret here.

Definition case_DIST : M unit :=
  distcode ← sget s_distcode;
  distbits ← sget s_distbits;
  here ← decode_symbol (fun here => op here .& 0xf0 =? 0) distcode distbits;
  if nz (op here .& 64) then bad "invalid distance code" else
  sput s_offset (InfTrees.val here);;
  sput s_extra (op here .& 15);;
  sput s_mode DISTEXT;; case_DISTEXT.

Definition case_LENEXT : M unit :=
  add_extra s_length;;
  length ← sget s_length;
  sput s_was length;;
  sput s_mode DIST;; case_DIST.

Definition case_LEN : M unit :=
  have ← rget r_have;
  left ← rget r_left;
  if (6 <=? have) && (258 <=? left) then
    RESTORE;;
    strm ← zget id;
    st ← sget id;
    out ← rget r_out;
    '(strm, st) ← lift (inflate_fast strm st out);
    modify (fun c => c <| c_strm := strm |> <| c_st := st |>);;
    LOAD;;
    mode ← sget s_mode;
    when_ (bool_decide (mode = TYPE)) (sput s_back (-1));;
    break_
  else
  sput s_back 0;;
  lencode ← sget s_lencode;
  lenbits ← sget s_lenbits;
  here ← decode_symbol (fun here => nz (op here) && (op here .& 0xf0 =? 0)) lencode lenbits;
  sput s_length (InfTrees.val here);;
  if op here =? 0 then sput s_mode LIT;; break_
  else if nz (op here .& 32) then sput s_back (-1);; sput s_mode TYPE;; break_
  else if nz (op here .& 64) then bad "invalid literal/length code"
  else
  sput s_extra (op here .& 15);;
  sput s_mode LENEXT;; case_LENEXT.

Definition case_LEN_ : M unit := sput s_mode LEN;; case_LEN.

(** [inflate_table(type, lens, codes, &(state->next), &(state->bits), state->work)] on the state; the
    return value goes to [ret]. *)
Definition build_table (type : codetype) (lens : list Z) (codes : Z) (bits : inflate_state -> Z)
    `{!Setter bits} : M Z :=
  st ← sget id;
  r ← lift (inflate_table type lens codes (s_codes st) (s_next st) (bits st) (s_work st));
  sput s_codes (tr_tbl r);;
  sput s_next (tr_next r);;
  sput bits (tr_bits r);;
  sput s_work (tr_work r);;
  rput r_ret (tr_ret r);;
  mret (tr_ret r).

(** The end of [case CODELENS]: lines 995 to 1030. *)
Definition build_codes : M unit :=
  lens ← sget s_lens;
  l256 ← lift (aget lens 256);
  if l256 =? 0 then bad "invalid code -- missing end-of-block" else
  sput s_next 0;;
  sput s_lencode (InCodes 0);;
  sput s_lenbits 9;;
  nlen ← sget s_nlen;
  ret ← build_table LENS lens nlen s_lenbits;
  if nz ret then bad "invalid literal/lengths set" else
  next ← sget s_next;
  sput s_distcode (InCodes next);;
  sput s_distbits 6;;
  lens ← sget s_lens;
  ndist ← sget s_ndist;
  ret ← build_table DISTS (drop (Z.to_nat nlen) lens) ndist s_distbits;
  if nz ret then bad "invalid distances set" else
  sput s_mode LEN_;;
  if flush =? Z_TREES then inf_leave else case_LEN_.

(** [while (copy--) state->lens[state->have++] = (unsigned short)len;] *)
Fixpoint repeat_len (copy : nat) (len : Z) : M unit :=
  match copy with
  | O => mret ()
  | S copy =>
      lens ← sget s_lens;
      have ← sget s_have;
      lens ← lift (aset lens have (u16 len));
      sput s_lens lens;;
      sput s_have (u32 (have + 1));;
      repeat_len copy len
  end.

(** One round of the loop of [case CODELENS]; [false] is the [break] out of it. *)
Definition codelens_step : M bool :=
  lencode ← sget s_lencode;
  lenbits ← sget s_lenbits;
  here ← get_code 5 lencode 0 lenbits 0 0;
  if InfTrees.val here <? 16 then
    DROPBITS (InfTrees.bits here);;
    lens ← sget s_lens;
    have ← sget s_have;
    lens ← lift (aset lens have (InfTrees.val here));
    sput s_lens lens;;
    sput s_have (u32 (have + 1));;
    mret true
  else
    let rep '(len, copy) :=
      (have ← sget s_have;
       nlen ← sget s_nlen;
       ndist ← sget s_ndist;
       if u32 (nlen + ndist) <? u32 (have + copy) then bad "invalid bit length repeat";; mret false
       else repeat_len (Z.to_nat copy) len;; mret true) in
    if InfTrees.val here =? 16 then
      NEEDBITS (InfTrees.bits here + 2);;
      DROPBITS (InfTrees.bits here);;
      have ← sget s_have;
      if have =? 0 then bad "invalid bit length repeat";; mret false else
      lens ← sget s_lens;
      len ← lift (aget lens (have - 1));
      b ← BITS 2;
      DROPBITS 2;;
      rep (len, 3 + b)
    else if InfTrees.val here =? 17 then
      NEEDBITS (InfTrees.bits here + 3);;
      DROPBITS (InfTrees.bits here);;
      b ← BITS 3;
      DROPBITS 3;;
      rep (0, 3 + b)
    else
      NEEDBITS (InfTrees.bits here + 7);;
      DROPBITS (InfTrees.bits here);;
      b ← BITS 7;
      DROPBITS 7;;
      rep (0, 11 + b).

(** [while (state->have < state->nlen + state->ndist) { ... }]: every round reads a length. *)
Fixpoint codelens_loop (fuel : nat) : M unit :=
  match fuel with
  | O => lift None
  | S fuel =>
      have ← sget s_have;
      nlen ← sget s_nlen;
      ndist ← sget s_ndist;
      if have <? u32 (nlen + ndist) then
        b ← codelens_step;
        if (b : bool) then codelens_loop fuel else mret ()
      else mret ()
  end.

Definition case_CODELENS : M unit :=
  codelens_loop 321;;
  mode ← sget s_mode;
  if bool_decide (mode = BAD) then break_ else build_codes.

(** [while (state->have < state->ncode) { ... }] *)
Fixpoint lenlens_loop (fuel : nat) : M unit :=
  match fuel with
  | O => lift None
  | S fuel =>
      have ← sget s_have;
      ncode ← sget s_ncode;
      if have <? ncode then
        NEEDBITS 3;;
        o ← lift (aget order have);
        sput s_have (u32 (have + 1));;
        b ← BITS 3;
        lens ← sget s_lens;
        lens ← lift (aset lens o b);
        sput s_lens lens;;
        DROPBITS 3;;
        lenlens_loop fuel
      else mret ()
  end.

(** [while (state->have < 19) state->lens[order[state->have++]] = 0;] *)
Fixpoint zero_lens_loop (fuel : nat) : M unit :=
  match fuel with
  | O => lift None
  | S fuel =>
      have ← sget s_have;
      if have <? 19 then
        o ← lift (aget order have);
        sput s_have (u32 (have + 1));;
        lens ← sget s_lens;
        lens ← lift (aset lens o 0);
        sput s_lens lens;;
        zero_lens_loop fuel
      else mret ()
  end.

Definition case_LENLENS : M unit :=
  lenlens_loop 20;;
  zero_lens_loop 20;;
  sput s_next 0;;
  sput s_lencode (InCodes 0);;
  sput s_lenbits 7;;
  lens ← sget s_lens;
  ret ← build_table CODES lens 19 s_lenbits;
  if nz ret then bad "invalid code lengths set" else
  sput s_have 0;;
  sput s_mode CODELENS;; case_CODELENS.

Definition case_TABLE : M unit :=
  NEEDBITS 14;;
  b ← BITS 5; sput s_nlen (b + 257);; DROPBITS 5;;
  b ← BITS 5; sput s_ndist (b + 1);; DROPBITS 5;;
  b ← BITS 4; sput s_ncode (b + 4);; DROPBITS 4;;
  nlen ← sget s_nlen;
  ndist ← sget s_ndist;
  if (286 <? nlen) || (30 <? ndist) then bad "too many length or distance symbols" else
  sput s_have 0;;
  sput s_mode LENLENS;; case_LENLENS.

Definition case_COPY : M unit :=
  length ← sget s_length;
  if nz length then
    have ← rget r_have;
    left ← rget r_left;
    let copy := length in
    let copy := if have <? copy then have else copy in
    let copy := if left <? copy then left else copy in
    if copy =? 0 then inf_leave else
    put ← rget r_put;
    next ← rget r_next;
    obuf ← zget out_buf;
    ibuf ← zget in_buf;
    obuf ← lift (memcpy obuf put ibuf next copy);
    zput z_out (Some obuf);;
    rput r_have (u32 (have - copy));;
    rput r_next (next + copy);;
    rput r_left (u32 (left - copy));;
    rput r_put (put + copy);;
    sput s_length (u32 (length - copy));;
    break_
  else sput s_mode TYPE;; break_.

Definition case_COPY_ : M unit := sput s_mode COPY;; case_COPY.

Definition case_STORED : M unit :=
  BYTEBITS;;
  NEEDBITS 32;;
  hold ← rget r_hold;
  if negb (hold .& 0xffff =? (hold ≫ 16) .^ 0xffff) then bad "invalid stored block lengths" else
  sput s_length (hold .& 0xffff);;
  INITBITS;;
  sput s_mode COPY_;;
  if flush =? Z_TREES then inf_leave else case_COPY_.

Definition case_TYPEDO : M unit :=
  last ← sget s_last;
  if nz last then BYTEBITS;; sput s_mode CHECK;; break_ else
  NEEDBITS 3;;
  b ← BITS 1; sput s_last b;; DROPBITS 1;;
  b ← BITS 2;
  if b =? 0 then sput s_mode STORED;; DROPBITS 2;; break_
  else if b =? 1 then
    modify (fun c => c <| c_st ::= fixedtables |>);;
    sput s_mode LEN_;;
    if flush =? Z_TREES then DROPBITS 2;; inf_leave else DROPBITS 2;; break_
  else if b =? 2 then sput s_mode TABLE;; DROPBITS 2;; break_
  else bad "invalid block type";; DROPBITS 2;; break_.

Definition case_TYPE : M unit :=
  if (flush =? Z_BLOCK) || (flush =? Z_TREES) then inf_leave else case_TYPEDO.

Definition case_DICT : M unit :=
  havedict ← sget s_havedict;
  if havedict =? 0 then RESTORE;; return_ Z_NEED_DICT else
  let check := adler32 0 None in
  sput s_check check;; zput z_adler check;;
  sput s_mode TYPE;; case_TYPE.

Definition case_DICTID : M unit :=
  NEEDBITS 32;;
  hold ← rget r_hold;
  sput s_check (ZSWAP32 hold);; zput z_adler (ZSWAP32 hold);;
  INITBITS;;
  sput s_mode DICT;; case_DICT.

Definition case_HCRC : M unit :=
  flags ← sget s_flags;
  let next :=
    (set_head (fun h => h <| h_hcrc := (flags ≫ 9) .& 1 |> <| h_done := 1 |>);;
     let check := crc32 0 None in
     sput s_check check;; zput z_adler check;;
     sput s_mode TYPE;; break_) in
  if nz (flags .& 0x0200) then
    NEEDBITS 16;;
    hold ← rget r_hold;
    check ← sget s_check;
    if negb (hold =? check .& 0xffff) then bad "header crc mismatch" else
    INITBITS;; next
  else next.

(** [do { len = next[copy++]; ... } while (len && copy < have);] of [case NAME] and [case COMMENT];
    [store] writes a byte to the field of the header. The last byte and the count. *)
Fixpoint string_loop (fuel : nat) (store : Z -> M unit) (copy : Z) : M (Z * Z) :=
  match fuel with
  | O => lift None
  | S fuel =>
      next ← rget r_next;
      have ← rget r_have;
      ibuf ← zget in_buf;
      len ← lift (aget ibuf (next + copy));
      let copy := copy + 1 in
      store len;;
      if nz len && (copy <? have) then string_loop fuel store copy else mret (len, copy)
  end.

(** [if (head != NULL && head->f != NULL && state->length < head->max) head->f[state->length++] = len;] *)
Definition store_byte (f : gz_header -> option (list Z)) `{!Setter f} (max : gz_header -> Z) (len : Z) : M unit :=
  head ← sget s_head;
  match head with
  | Some h =>
      match f h with
      | Some buf =>
          length ← sget s_length;
          if length <? max h then
            buf ← lift (aset buf length (u8 len));
            sput s_head (Some (h <| f := Some buf |>));;
            sput s_length (u32 (length + 1))
          else mret ()
      | None => mret ()
      end
  | None => mret ()
  end.

(** Reading a zero-terminated string of the gzip header, lines 755 to 769 and 776 to 790. *)
Definition read_string (store : Z -> M unit) : M unit :=
  have ← rget r_have;
  if have =? 0 then inf_leave else
  '(len, copy) ← string_loop (Z.to_nat have) store 0;
  next ← rget r_next;
  flags ← sget s_flags;
  when_ (nz (flags .& 0x0200)) (
    ibuf ← zget in_buf;
    buf ← lift (slice ibuf next copy);
    check ← sget s_check;
    sput s_check (crc32 check (Some buf)));;
  rput r_have (u32 (have - copy));;
  rput r_next (next + copy);;
  if nz len then inf_leave else mret ().

Definition case_COMMENT : M unit :=
  flags ← sget s_flags;
  (if nz (flags .& 0x1000) then read_string (store_byte h_comment h_comm_max)
   else set_head (fun h => h <| h_comment := None |>));;
  sput s_mode HCRC;; case_HCRC.

Definition case_NAME : M unit :=
  flags ← sget s_flags;
  (if nz (flags .& 0x0800) then read_string (store_byte h_name h_name_max)
   else set_head (fun h => h <| h_name := None |>));;
  sput s_length 0;;
  sput s_mode COMMENT;; case_COMMENT.

(** [zmemcpy(head->extra + len, next, len + copy > extra_max ? extra_max - len : copy)] *)
Definition store_extra (copy : Z) : M unit :=
  head ← sget s_head;
  match head with
  | Some h =>
      match h_extra h with
      | Some extra =>
          length ← sget s_length;
          let len := u32 (h_extra_len h - length) in
          next ← rget r_next;
          ibuf ← zget in_buf;
          let n := if h_extra_max h <? u32 (len + copy) then u32 (h_extra_max h - len) else copy in
          extra ← lift (memcpy extra len ibuf next n);
          sput s_head (Some (h <| h_extra := Some extra |>))
      | None => mret ()
      end
  | None => mret ()
  end.

Definition case_EXTRA : M unit :=
  flags ← sget s_flags;
  when_ (nz (flags .& 0x0400)) (
    length ← sget s_length;
    have ← rget r_have;
    let copy := if have <? length then have else length in
    when_ (nz copy) (
      store_extra copy;;
      next ← rget r_next;
      when_ (nz (flags .& 0x0200)) (
        ibuf ← zget in_buf;
        buf ← lift (slice ibuf next copy);
        check ← sget s_check;
        sput s_check (crc32 check (Some buf)));;
      rput r_have (u32 (have - copy));;
      rput r_next (next + copy);;
      sput s_length (u32 (length - copy)));;
    length ← sget s_length;
    if nz length then inf_leave else mret ());;
  sput s_length 0;;
  sput s_mode NAME;; case_NAME.

(** [if (state->flags & 0x0200) CRC2(state->check, hold);] *)
Definition header_crc (crc : Z -> Z -> Z) : M unit :=
  flags ← sget s_flags;
  when_ (nz (flags .& 0x0200)) (
    check ← sget s_check;
    hold ← rget r_hold;
    sput s_check (crc check hold)).

Definition case_EXLEN : M unit :=
  flags ← sget s_flags;
  (if nz (flags .& 0x0400) then
     NEEDBITS 16;;
     hold ← rget r_hold;
     sput s_length hold;;
     set_head (fun h => h <| h_extra_len := hold |>);;
     header_crc CRC2;;
     INITBITS
   else set_head (fun h => h <| h_extra := None |>));;
  sput s_mode EXTRA;; case_EXTRA.

Definition case_OS : M unit :=
  NEEDBITS 16;;
  hold ← rget r_hold;
  set_head (fun h => h <| h_xflags := hold .& 0xff |> <| h_os := hold ≫ 8 |>);;
  header_crc CRC2;;
  INITBITS;;
  sput s_mode EXLEN;; case_EXLEN.

Definition case_TIME : M unit :=
  NEEDBITS 32;;
  hold ← rget r_hold;
  set_head (fun h => h <| h_time := hold |>);;
  header_crc CRC4;;
  INITBITS;;
  sput s_mode OS;; case_OS.

Definition case_FLAGS : M unit :=
  NEEDBITS 16;;
  hold ← rget r_hold;
  sput s_flags hold;;
  if negb (hold .& 0xff =? Z_DEFLATED) then bad "unknown compression method" else
  if nz (hold .& 0xe000) then bad "unknown header flags set" else
  set_head (fun h => h <| h_text := (hold ≫ 8) .& 1 |>);;
  header_crc CRC2;;
  INITBITS;;
  sput s_mode TIME;; case_TIME.

Definition case_HEAD : M unit :=
  wrap ← sget s_wrap;
  if wrap =? 0 then sput s_mode TYPEDO;; break_ else
  NEEDBITS 16;;
  hold ← rget r_hold;
  if nz (wrap .& 2) && (hold =? 0x8b1f) then
    sput s_check (CRC2 (crc32 0 None) hold);;
    INITBITS;;
    sput s_mode FLAGS;; break_
  else
  sput s_flags 0;;
  set_head (fun h => h <| h_done := -1 |>);;
  b8 ← BITS 8;
  if negb (nz (wrap .& 1)) || nz (u32 (u32 (b8 ≪ 8) + (hold ≫ 8)) mod 31) then bad "incorrect header check" else
  b4 ← BITS 4;
  if negb (b4 =? Z_DEFLATED) then bad "unknown compression method" else
  DROPBITS 4;;
  b4 ← BITS 4;
  let len := b4 + 8 in
  wbits ← sget s_wbits;
  when_ (wbits =? 0) (sput s_wbits len);;
  if negb (wbits =? 0) && (wbits <? len) then bad "invalid window size" else
  sput s_dmax (1 ≪ len);;
  let check := adler32 0 None in
  sput s_check check;; zput z_adler check;;
  hold ← rget r_hold;
  sput s_mode (if nz (hold .& 0x200) then DICTID else TYPE);;
  INITBITS;;
  break_.

(** [switch (state->mode)] *)
Definition switch_mode (m : inflate_mode) : M unit :=
  match m with
  | HEAD => case_HEAD | FLAGS => case_FLAGS | TIME => case_TIME | OS => case_OS | EXLEN => case_EXLEN
  | EXTRA => case_EXTRA | NAME => case_NAME | COMMENT => case_COMMENT | HCRC => case_HCRC
  | DICTID => case_DICTID | DICT => case_DICT | TYPE => case_TYPE | TYPEDO => case_TYPEDO
  | STORED => case_STORED | COPY_ => case_COPY_ | COPY => case_COPY | TABLE => case_TABLE
  | LENLENS => case_LENLENS | CODELENS => case_CODELENS | LEN_ => case_LEN_ | LEN => case_LEN
  | LENEXT => case_LENEXT | DIST => case_DIST | DISTEXT => case_DISTEXT | MATCH => case_MATCH
  | LIT => case_LIT | CHECK => case_CHECK | LENGTH => case_LENGTH | DONE => case_DONE | BAD => case_BAD
  | MEM => return_ Z_MEM_ERROR
  | SYNC => return_ Z_STREAM_ERROR
  end.

(** [for (;;) switch (state->mode) ...] *)
Fixpoint inflate_loop (fuel : nat) : M unit :=
  match fuel with
  | O => lift None
  | S fuel => mode ← sget s_mode; switch_mode mode;; inflate_loop fuel
  end.
End cases.

(** ** [inflate()] *)

(** Lines 1223 to 1251, after [inf_leave]. *)
Definition leave (flush : Z) (c : ctx) : option (z_stream * inflate_state * Z) :=
  let r := c_r c in
  let strm := (c_strm c) <| z_next_out := r_put r |> <| z_avail_out := r_left r |>
                       <| z_next_in := r_next r |> <| z_avail_in := r_have r |> in
  let st := (c_st c) <| s_hold := r_hold r |> <| s_bits := r_bits r |> in
  let mode := mode_num (s_mode st) in
  '(st, calls, fail) ←
    (if nz (s_wsize st) ||
        (negb (r_out r =? z_avail_out strm) && (mode <? mode_num BAD) &&
         ((mode <? mode_num CHECK) || negb (flush =? Z_FINISH)))
     then updatewindow st (z_calls strm) (out_buf strm) (z_next_out strm) (u32 (r_out r - z_avail_out strm))
     else Some (st, z_calls strm, 0));
  let strm := strm <| z_calls := calls |> in
  if nz fail then Some (strm, st <| s_mode := MEM |>, Z_MEM_ERROR) else
  let in_ := u32 (r_in r - z_avail_in strm) in
  let out := u32 (r_out r - z_avail_out strm) in
  let strm := strm <| z_total_in := u32 (z_total_in strm + in_) |>
                   <| z_total_out := u32 (z_total_out strm + out) |> in
  let st := st <| s_total := u32 (s_total st + out) |> in
  '(strm, st) ←
    (if nz (s_wrap st) && nz out then
       buf ← slice (out_buf strm) (z_next_out strm - out) out;
       let check := UPDATE (s_flags st) (s_check st) buf in
       Some (strm <| z_adler := check |>, st <| s_check := check |>)
     else Some (strm, st));
  let strm := strm <| z_data_type := s_bits st + (if nz (s_last st) then 64 else 0) +
                        (if bool_decide (s_mode st = TYPE) then 128 else 0) +
                        (if bool_decide (s_mode st = LEN_) || bool_decide (s_mode st = COPY_) then 256 else 0) |> in
  let ret := r_ret r in
  Some (strm, st, if (((in_ =? 0) && (out =? 0)) || (flush =? Z_FINISH)) && (ret =? Z_OK) then Z_BUF_ERROR else ret).

(** Rounds of the main loop: every four rounds consume a bit of the input or fill a byte of the output. *)
Definition inflate_fuel (avail_in avail_out bits : Z) : nat :=
  Z.to_nat (4 * (8 * avail_in + bits + avail_out) + 5).

(** The state at the start of the loop. *)
Definition inflate_enter (strm : z_stream) (st : inflate_state) : ctx :=
  let st := if bool_decide (s_mode st = TYPE) then st <| s_mode := TYPEDO |> else st in
  Ctx strm st (Regs (z_next_out strm) (z_avail_out strm) (z_next_in strm) (z_avail_in strm) (s_hold st) (s_bits st)
                 (z_avail_in strm) (z_avail_out strm) Z_OK).

Definition inflate (strm : z_stream) (flush : Z) : option (z_stream * Z) :=
  match z_state strm, z_out strm with
  | Some st, Some _ =>
      if match z_in strm with None => nz (z_avail_in strm) | Some _ => false end then Some (strm, Z_STREAM_ERROR) else
      match inflate_loop flush (inflate_fuel (z_avail_in strm) (z_avail_out strm) (s_bits st)) (inflate_enter strm st) with
      | Leave c =>
          '(strm, st, ret) ← leave flush c;
          Some (strm <| z_state := Some st |>, ret)
      | Return ret c => Some ((c_strm c) <| z_state := Some (c_st c) |>, ret)
      | Ok _ _ | Fault => None
      end
  | _, _ => Some (strm, Z_STREAM_ERROR)
  end.

Definition inflateEnd (strm : z_stream) : z_stream * Z :=
  match z_state strm with
  | None => (strm, Z_STREAM_ERROR)
  | Some _ => if negb (z_zfree strm) then (strm, Z_STREAM_ERROR) else (strm <| z_state := None |>, Z_OK)
  end.

(** The dictionary, the length and the return value. *)
Definition inflateGetDictionary (strm : z_stream) (dictionary : option (list Z)) : option (option (list Z) * option Z * Z) :=
  match z_state strm with
  | None => Some (dictionary, None, Z_STREAM_ERROR)
  | Some st =>
      dictionary ← (match dictionary with
        | Some d =>
            if nz (s_whave st) then
              window ← s_window st;
              d ← memcpy d 0 window (s_wnext st) (u32 (s_whave st - s_wnext st));
              d ← memcpy d (s_whave st - s_wnext st) window 0 (s_wnext st);
              Some (Some d)
            else Some (Some d)
        | None => Some None
        end);
      Some (dictionary, Some (s_whave st), Z_OK)
  end.

Definition inflateSetDictionary (strm : z_stream) (dictionary : list Z) (dictLength : Z) : option (z_stream * Z) :=
  match z_state strm with
  | None => Some (strm, Z_STREAM_ERROR)
  | Some st =>
      if nz (s_wrap st) && negb (bool_decide (s_mode st = DICT)) then Some (strm, Z_STREAM_ERROR) else
      ok ← (if bool_decide (s_mode st = DICT) then
              buf ← slice dictionary 0 dictLength;
              let dictid := adler32 (adler32 0 None) (Some buf) in
              Some (dictid =? s_check st)
            else Some true);
      if negb ok then Some (strm, Z_DATA_ERROR) else
      '(st, calls, fail) ← updatewindow st (z_calls strm) dictionary dictLength dictLength;
      let strm := strm <| z_calls := calls |> in
      if nz fail then Some (strm <| z_state := Some (st <| s_mode := MEM |>) |>, Z_MEM_ERROR)
      else Some (strm <| z_state := Some (st <| s_havedict := 1 |>) |>, Z_OK)
  end.

Definition inflateGetHeader (strm : z_stream) (head : gz_header) : z_stream * Z :=
  match z_state strm with
  | None => (strm, Z_STREAM_ERROR)
  | Some st =>
      if s_wrap st .& 2 =? 0 then (strm, Z_STREAM_ERROR)
      else (strm <| z_state := Some (st <| s_head := Some (head <| h_done := 0 |>) |>) |>, Z_OK)
  end.

(** ** Synchronisation *)

(** [while (next < len && got < 4)] over the bytes of [buf]: the new [got] and the bytes read *)
Fixpoint syncsearch (got : Z) (buf : list Z) : Z * Z :=
  match buf with
  | [] => (got, 0)
  | b :: buf =>
      if got <? 4 then
        let got := if b =? (if got <? 2 then 0 else 0xff) then got + 1
                   else if nz b then 0 else 4 - got in
        let '(got, next) := syncsearch got buf in (got, next + 1)
      else (got, 0)
  end.

(** [while (state->bits >= 8) { buf[len++] = hold; hold >>= 8; bits -= 8; }] *)
Fixpoint sync_bytes (fuel : nat) (hold bits : Z) (buf : list Z) (len : Z) : option (Z * Z * list Z * Z) :=
  match fuel with
  | O => None
  | S fuel =>
      if 8 <=? bits then
        buf ← aset buf len (u8 hold);
        sync_bytes fuel (hold ≫ 8) (bits - 8) buf (len + 1)
      else Some (hold, bits, buf, len)
  end.

Definition inflateSync (strm : z_stream) : option (z_stream * Z) :=
  match z_state strm with
  | None => Some (strm, Z_STREAM_ERROR)
  | Some st =>
      if (z_avail_in strm =? 0) && (s_bits st <? 8) then Some (strm, Z_BUF_ERROR) else
      st ← (if negb (bool_decide (s_mode st = SYNC)) then
              let hold := u32 (s_hold st ≪ (s_bits st .& 7)) in
              let bits := s_bits st - (s_bits st .& 7) in
              '(hold, bits, buf, len) ← sync_bytes 6 hold bits [0; 0; 0; 0] 0;
              let '(have, _) := syncsearch 0 (take (Z.to_nat len) buf) in
              Some (st <| s_mode := SYNC |> <| s_hold := hold |> <| s_bits := bits |> <| s_have := have |>)
            else Some st);
      buf ← slice (in_buf strm) (z_next_in strm) (z_avail_in strm);
      let '(have, len) := syncsearch (s_have st) buf in
      let st := st <| s_have := have |> in
      let strm := strm <| z_avail_in := u32 (z_avail_in strm - len) |> <| z_next_in := z_next_in strm + len |>
                       <| z_total_in := u32 (z_total_in strm + len) |> <| z_state := Some st |> in
      if negb (have =? 4) then Some (strm, Z_DATA_ERROR) else
      let in_ := z_total_in strm in
      let out := z_total_out strm in
      let '(strm, _) := inflateReset strm in
      st ← z_state strm;
      Some (strm <| z_total_in := in_ |> <| z_total_out := out |>
                 <| z_state := Some (st <| s_mode := TYPE |>) |>, Z_OK)
  end.

Definition inflateSyncPoint (strm : z_stream) : Z :=
  match z_state strm with
  | None => Z_STREAM_ERROR
  | Some st => if bool_decide (s_mode st = STORED) && (s_bits st =? 0) then 1 else 0
  end.

(** [dest] and the return value; the pointers into [codes] are copied as offsets. A state with fixed
    length codes and a distance code in [codes] would leave the copy with a pointer into the source. *)
Definition inflateCopy (dest source : z_stream) : option (z_stream * nat * Z) :=
  let calls := z_calls source in
  match z_state source with
  | None => Some (dest, calls, Z_STREAM_ERROR)
  | Some st =>
      if negb (z_zalloc source) || negb (z_zfree source) then Some (dest, calls, Z_STREAM_ERROR) else
      match zalloc_state calls with
      | None => Some (dest, S calls, Z_MEM_ERROR)
      | Some _ =>
          let ptrs_ok := match s_lencode st, s_distcode st with
                         | InCodes _, InCodes _ => true
                         | InCodes _, _ => false
                         | _, InCodes _ => false
                         | _, _ => true
                         end in
          let copy window := st <| s_window := window |> in
          match s_window st with
          | None => if ptrs_ok then Some (source <| z_state := Some (copy None) |>, S calls, Z_OK) else None
          | Some w =>
              match zalloc (S calls) (1 ≪ s_wbits st) with
              | None => Some (dest, S (S calls), Z_MEM_ERROR)
              | Some window =>
                  window ← memcpy window 0 w 0 (1 ≪ s_wbits st);
                  if ptrs_ok then Some (source <| z_state := Some (copy (Some window)) |>, S (S calls), Z_OK) else None
              end
          end
      end
  end.

Definition inflateUndermine (strm : z_stream) (subvert : Z) : z_stream * Z :=
  match z_state strm with
  | None => (strm, Z_STREAM_ERROR)
  | Some st => (strm <| z_state := Some (st <| s_sane := 1 |>) |>, Z_DATA_ERROR)
  end.

Definition inflateMark (strm : z_stream) : Z :=
  match z_state strm with
  | None => - 65536
  | Some st =>
      (s_back st ≪ 16) +
      (if bool_decide (s_mode st = COPY) then s_length st
       else if bool_decide (s_mode st = MATCH) then u32 (s_was st - s_length st) else 0)
  end.
End inflate.
