(* ===== verification/InflateWp.v ===== *)
(** Weakest preconditions for the statements of [inflate()], and the rules of its macros.

    The bits that remain to be read are seen as one number: [hold] in its low [bits] bits, then the bytes
    of the input in little-endian order. *)
From S2P Require Import Prelude Bits Record InfTrees InflateState InflateMonad.

(** ** The input

    An array has less than [2^32] bytes. *)
Definition in_ok (buf : list Z) (next have : Z) : Prop :=
  0 <= next /\ 0 <= have /\ next + have <= Z.of_nat (length buf) < 2 ^ 32 /\ Forall byte_ok buf.
Definition hold_ok (hold bits : Z) : Prop := 0 <= bits <= 32 /\ 0 <= hold < 2 ^ bits.

Definition stream (buf : list Z) (next have hold bits : Z) : Z := hold + 2 ^ bits * le (bytes_at buf next have).

(** Reading a byte into [hold]. *)
Lemma pull_byte buf next have hold bits b :
  in_ok buf next have -> hold_ok hold bits -> bits <= 24 -> have <> 0 -> aget buf next = Some b ->
  in_ok buf (next + 1) (have - 1) /\ hold_ok (hold + b * 2 ^ bits) (bits + 8) /\
  u32 (hold + u32 (b ≪ bits)) = hold + b * 2 ^ bits /\
  stream buf (next + 1) (have - 1) (hold + b * 2 ^ bits) (bits + 8) = stream buf next have hold bits.
Proof.
  intros (Hn & Hh & Hl & Hby) (Hb0 & Hho) H24 Hh0 Hg. assert (Hbb : byte_ok b).
  { unfold aget in Hg. destruct (0 <=? next); [|done]. by apply (Forall_lookup_1 _ _ _ _ Hby Hg). }
  unfold byte_ok in Hbb. assert (0 < 2 ^ bits) by (apply pow2_pos; lia).
  assert (Hp : 2 ^ (bits + 8) = 256 * 2 ^ bits) by (rewrite Z.pow_add_r by lia; lia).
  assert (2 ^ (bits + 8) <= 2 ^ 32) by (apply Z.pow_le_mono_r; lia).
  split; [unfold in_ok; repeat split; (done || lia)|]. split; [unfold hold_ok; rewrite Hp; repeat split; nia|].
  split.
  - rewrite Z.shiftl_mul_pow2 by lia. rewrite (u32_small (b * _)) by nia. apply u32_small. nia.
  - unfold stream. rewrite (bytes_at_cons buf next have b) by (done || lia). cbn [le]. rewrite Hp. lia.
Qed.

(** ** Weakest preconditions *)
Section wp.
(** What holds at [inf_leave] and at a [return]. *)
Context (L : ctx -> Prop) (R : Z -> ctx -> Prop).

Definition wp {A} (m : M A) (Q : A -> ctx -> Prop) (c : ctx) : Prop :=
  match m c with
  | Ok a c => Q a c
  | Leave c => L c
  | Return ret c => R ret c
  | Fault => False
  end.

Lemma wp_mono {A} (m : M A) (Q Q' : A -> ctx -> Prop) c :
  wp m Q c -> (forall a c, Q a c -> Q' a c) -> wp m Q' c.
Proof. unfold wp. destruct (m c); auto. Qed.

Lemma wp_bind {A B} (m : M A) (k : A -> M B) Q c : wp m (fun a => wp (k a) Q) c -> wp (m ≫= k) Q c.
Proof. unfold wp, mbind, M_bind. by destruct (m c). Qed.
Lemma wp_ret {A} (a : A) (Q : A -> ctx -> Prop) c : Q a c -> wp (mret a) Q c.
Proof. done. Qed.
Lemma wp_gets {A} (f : ctx -> A) (Q : A -> ctx -> Prop) c : Q (f c) c -> wp (gets f) Q c.
Proof. done. Qed.
Lemma wp_sget {T} (f : inflate_state -> T) Q c : Q (f (c_st c)) c -> wp (sget f) Q c.
Proof. done. Qed.
Lemma wp_zget {T} (f : z_stream -> T) Q c : Q (f (c_strm c)) c -> wp (zget f) Q c.
Proof. done. Qed.
Lemma wp_rget {T} (f : regs -> T) Q c : Q (f (c_r c)) c -> wp (rget f) Q c.
Proof. done. Qed.
Lemma wp_modify (f : ctx -> ctx) (Q : () -> ctx -> Prop) c : Q tt (f c) -> wp (modify f) Q c.
Proof. done. Qed.
Lemma wp_sput {T} (f : inflate_state -> T) `{!Setter f} v (Q : () -> ctx -> Prop) c :
  Q tt (Ctx (c_strm c) (upd f (fun _ => v) (c_st c)) (c_r c)) -> wp (sput f v) Q c.
Proof. done. Qed.
Lemma wp_zput {T} (f : z_stream -> T) `{!Setter f} v (Q : () -> ctx -> Prop) c :
  Q tt (Ctx (upd f (fun _ => v) (c_strm c)) (c_st c) (c_r c)) -> wp (zput f v) Q c.
Proof. done. Qed.
Lemma wp_rput {T} (f : regs -> T) `{!Setter f} v (Q : () -> ctx -> Prop) c :
  Q tt (Ctx (c_strm c) (c_st c) (upd f (fun _ => v) (c_r c))) -> wp (rput f v) Q c.
Proof. done. Qed.
Lemma wp_lift {A} (o : option A) a (Q : A -> ctx -> Prop) c : o = Some a -> Q a c -> wp (lift o) Q c.
Proof. intros ->. done. Qed.
Lemma wp_leave {A} (Q : A -> ctx -> Prop) c : L c -> wp inf_leave Q c.
Proof. done. Qed.
Lemma wp_return {A} ret (Q : A -> ctx -> Prop) c : R ret c -> wp (return_ ret) Q c.
Proof. done. Qed.
Lemma wp_break (Q : () -> ctx -> Prop) c : Q tt c -> wp break_ Q c.
Proof. done. Qed.
Lemma wp_if {A} (b : bool) (m1 m2 : M A) Q c :
  (b = true -> wp m1 Q c) -> (b = false -> wp m2 Q c) -> wp (if b then m1 else m2) Q c.
Proof. destruct b; auto. Qed.
Lemma wp_when (b : bool) (m : M unit) (Q : () -> ctx -> Prop) c :
  (b = true -> wp m Q c) -> (b = false -> Q tt c) -> wp (when_ b m) Q c.
Proof. unfold when_. destruct b; intros H1 H2; [by apply H1|by apply wp_ret, H2]. Qed.
Lemma wp_bad msg (Q : () -> ctx -> Prop) c :
  Q tt (Ctx (upd z_msg (fun _ => Some msg) (c_strm c)) (upd s_mode (fun _ => BAD) (c_st c)) (c_r c)) -> wp (bad msg) Q c.
Proof. done. Qed.

End wp.

(** The context with another position in the input. *)
Definition at_input (c : ctx) (next have hold bits : Z) : ctx :=
  Ctx (c_strm c) (c_st c)
    (Regs (r_put (c_r c)) (r_left (c_r c)) next have hold bits (r_in (c_r c)) (r_out (c_r c)) (r_ret (c_r c))).

(** Computing the projections of updated records. *)
Ltac csimp :=
  cbn [upd c_strm set_c_strm c_st set_c_st c_r set_c_r r_put set_r_put r_left set_r_left r_next set_r_next
    r_have set_r_have r_hold set_r_hold r_bits set_r_bits r_in set_r_in r_out set_r_out r_ret set_r_ret z_in
    set_z_in z_next_in set_z_next_in z_avail_in set_z_avail_in z_total_in set_z_total_in z_out set_z_out
    z_next_out set_z_next_out z_avail_out set_z_avail_out z_total_out set_z_total_out z_msg set_z_msg z_state
    set_z_state z_zalloc set_z_zalloc z_zfree set_z_zfree z_calls set_z_calls z_data_type set_z_data_type
    z_adler set_z_adler s_mode set_s_mode s_last set_s_last s_wrap set_s_wrap s_havedict set_s_havedict
    s_flags set_s_flags s_dmax set_s_dmax s_check set_s_check s_total set_s_total s_head set_s_head s_wbits
    set_s_wbits s_wsize set_s_wsize s_whave set_s_whave s_wnext set_s_wnext s_window set_s_window s_hold
    set_s_hold s_bits set_s_bits s_length set_s_length s_offset set_s_offset s_extra set_s_extra s_lencode
    set_s_lencode s_distcode set_s_distcode s_lenbits set_s_lenbits s_distbits set_s_distbits s_ncode
    set_s_ncode s_nlen set_s_nlen s_ndist set_s_ndist s_have set_s_have s_next set_s_next s_lens set_s_lens
    s_work set_s_work s_codes set_s_codes s_sane set_s_sane s_back set_s_back s_was set_s_was at_input] in *.
Ltac csimp_goal :=
  cbn [upd c_strm set_c_strm c_st set_c_st c_r set_c_r r_put set_r_put r_left set_r_left r_next set_r_next
    r_have set_r_have r_hold set_r_hold r_bits set_r_bits r_in set_r_in r_out set_r_out r_ret set_r_ret z_in
    set_z_in z_next_in set_z_next_in z_avail_in set_z_avail_in z_total_in set_z_total_in z_out set_z_out
    z_next_out set_z_next_out z_avail_out set_z_avail_out z_total_out set_z_total_out z_msg set_z_msg z_state
    set_z_state z_zalloc set_z_zalloc z_zfree set_z_zfree z_calls set_z_calls z_data_type set_z_data_type
    z_adler set_z_adler s_mode set_s_mode s_last set_s_last s_wrap set_s_wrap s_havedict set_s_havedict
    s_flags set_s_flags s_dmax set_s_dmax s_check set_s_check s_total set_s_total s_head set_s_head s_wbits
    set_s_wbits s_wsize set_s_wsize s_whave set_s_whave s_wnext set_s_wnext s_window set_s_window s_hold
    set_s_hold s_bits set_s_bits s_length set_s_length s_offset set_s_offset s_extra set_s_extra s_lencode
    set_s_lencode s_distcode set_s_distcode s_lenbits set_s_lenbits s_distbits set_s_distbits s_ncode
    set_s_ncode s_nlen set_s_nlen s_ndist set_s_ndist s_have set_s_have s_next set_s_next s_lens set_s_lens
    s_work set_s_work s_codes set_s_codes s_sane set_s_sane s_back set_s_back s_was set_s_was at_input].

(** One statement. *)
Ltac wp_prim :=
  lazymatch goal with
  | |- wp _ _ (mbind _ _) _ _ => apply wp_bind
  | |- wp _ _ (mret _) _ _ => apply wp_ret
  | |- wp _ _ (sget _) _ _ => apply wp_sget
  | |- wp _ _ (zget _) _ _ => apply wp_zget
  | |- wp _ _ (rget _) _ _ => apply wp_rget
  | |- wp _ _ (sput _ _) _ _ => apply wp_sput
  | |- wp _ _ (zput _ _) _ _ => apply wp_zput
  | |- wp _ _ (rput _ _) _ _ => apply wp_rput
  | |- wp _ _ (modify _) _ _ => apply wp_modify
  | |- wp _ _ inf_leave _ _ => apply wp_leave
  | |- wp _ _ break_ _ _ => apply wp_break
  | |- wp _ _ (bad _) _ _ => apply wp_bad
  | |- wp _ _ (return_ _) _ _ => apply wp_return
  end.
Ltac wp_steps := repeat (wp_prim; csimp_goal).

Section macros.
Context (L : ctx -> Prop) (R : Z -> ctx -> Prop).
Abbreviation wp := (wp L R).

(** ** The macros *)

Definition input_ok (c : ctx) : Prop :=
  in_ok (in_buf (c_strm c)) (r_next (c_r c)) (r_have (c_r c)) /\ hold_ok (r_hold (c_r c)) (r_bits (c_r c)).
Definition stream_of (c : ctx) : Z :=
  stream (in_buf (c_strm c)) (r_next (c_r c)) (r_have (c_r c)) (r_hold (c_r c)) (r_bits (c_r c)).

(** Another position with the same bits to read. *)
Record same_input (c : ctx) (next have hold bits : Z) : Prop := {
  si_in : in_ok (in_buf (c_strm c)) next have;
  si_hold : hold_ok hold bits;
  si_end : next + have = r_next (c_r c) + r_have (c_r c);
  si_bits : bits + 8 * have = r_bits (c_r c) + 8 * r_have (c_r c);
  si_more : r_bits (c_r c) <= bits;
  si_stream : stream (in_buf (c_strm c)) next have hold bits = stream_of c }.

Lemma same_input_refl c : input_ok c -> same_input c (r_next (c_r c)) (r_have (c_r c)) (r_hold (c_r c)) (r_bits (c_r c)).
Proof. intros [H1 H2]. split; (done || lia). Qed.

Lemma at_input_same c : at_input c (r_next (c_r c)) (r_have (c_r c)) (r_hold (c_r c)) (r_bits (c_r c)) = c.
Proof. by destruct c as [? ? []]. Qed.

Lemma wp_pullbyte (Q : () -> ctx -> Prop) c :
  input_ok c -> r_bits (c_r c) <= 24 ->
  (r_have (c_r c) = 0 -> L c) ->
  (forall next have hold, same_input c next have hold (r_bits (c_r c) + 8) ->
     Q tt (at_input c next have hold (r_bits (c_r c) + 8))) ->
  wp PULLBYTE Q c.
Proof.
  intros [Hin Hh] H24 HL HQ. unfold PULLBYTE. wp_steps.
  destruct (Z.eqb_spec (r_have (c_r c)) 0) as [E|E]; [by apply wp_leave, HL|].
  destruct Hin as (Hn & Hv & Hl & Hby). destruct (aget_in (in_buf (c_strm c)) (r_next (c_r c)) ltac:(lia)) as [b Hb].
  destruct (pull_byte _ _ _ _ _ b (conj Hn (conj Hv (conj Hl Hby))) Hh H24 E Hb) as (Hi' & Hh' & Eu & Es).
  wp_steps. eapply wp_lift; [exact Hb|]. wp_steps.
  destruct Hh as [Hbt Hhd]. eapply wp_lift.
  { unfold shl32. destruct (Z.leb_spec 0 (r_bits (c_r c))), (Z.ltb_spec (r_bits (c_r c)) 32); (lia || done). }
  wp_steps. rewrite Eu, !u32_small by lia. apply (HQ (r_next (c_r c) + 1) (r_have (c_r c) - 1)).
  split; try (done || lia).
Qed.

Lemma same_input_trans c n h o b n' h' o' b' :
  same_input c n h o b -> same_input (at_input c n h o b) n' h' o' b' -> same_input c n' h' o' b'.
Proof.
  intros [? ? ? ? ? Es] [? ? ? ? ? Es']. cbn [at_input c_strm c_r r_next r_have r_bits] in *.
  split; try (done || lia). rewrite Es'. unfold stream_of. cbn. exact Es.
Qed.

Lemma wp_needbits n (Q : () -> ctx -> Prop) c :
  input_ok c -> n <= 32 -> (n <= 25 \/ r_bits (c_r c) mod 8 = 0) ->
  (forall next have hold bits, same_input c next have hold bits -> n <= bits -> bits <= Z.max (r_bits (c_r c)) (n + 7) ->
     bits mod 8 = r_bits (c_r c) mod 8 -> Q tt (at_input c next have hold bits)) ->
  (forall next hold bits, same_input c next 0 hold bits -> bits < n ->
     bits mod 8 = r_bits (c_r c) mod 8 -> L (at_input c next 0 hold bits)) ->
  wp (NEEDBITS n) Q c.
Proof.
  unfold NEEDBITS. intros Hc Hn Hmod HQ HL.
  enough (forall fuel next have hold bits, same_input c next have hold bits -> bits mod 8 = r_bits (c_r c) mod 8 ->
    bits <= Z.max (r_bits (c_r c)) (n + 7) -> n - bits <= 8 * (Z.of_nat fuel - 1) -> (0 < fuel)%nat ->
    wp (needbits_loop fuel n) Q (at_input c next have hold bits)) as H.
  { rewrite <- (at_input_same c). destruct Hc as [Hc1 [? ?]]. apply H; [by apply same_input_refl|done|lia|lia|lia]. }
  induction fuel as [|fuel IH]; intros next have hold bits Hs Hm8 Hmx Hf Hf0; cbn [needbits_loop].
  { lia. }
  apply wp_bind, wp_rget. cbn [at_input c_r r_bits]. destruct (Z.ltb_spec bits n) as [Hlt|Hge]; [|by apply HQ].
  assert (bits <= 24).
  { destruct Hmod as [|Hm]; [lia|]. destruct Hs as [_ [? _] _ _ _ _].
    rewrite Hm in Hm8. dlia. }
  apply wp_bind, wp_pullbyte; cbn [at_input c_r r_bits r_have].
  - by destruct Hs.
  - done.
  - intros E. subst have. by apply HL.
  - intros nx hv hd Hs'. change (at_input (at_input c next have hold bits) nx hv hd (bits + 8)) with (at_input c nx hv hd (bits + 8)).
    apply IH; [by eapply same_input_trans| |lia|lia|lia].
    rewrite <- Hm8. rewrite <- (Z.mod_add bits 1 8) by lia. f_equal. 
Qed.

Lemma shl32_1 n : 0 <= n < 32 -> shl32 1 n = Some (2 ^ n) /\ u32 (2 ^ n - 1) = 2 ^ n - 1.
Proof.
  intros Hn. unfold shl32. destruct (Z.leb_spec 0 n), (Z.ltb_spec n 32); try lia. cbn [andb].
  assert (2 ^ n < 2 ^ 32) by (apply Z.pow_lt_mono_r; lia). assert (0 < 2 ^ n) by (apply pow2_pos; lia).
  rewrite Z.shiftl_1_l, !u32_small by lia. done.
Qed.

Lemma wp_bits n (Q : Z -> ctx -> Prop) c :
  0 <= n < 32 -> Q (r_hold (c_r c) mod 2 ^ n) c -> wp (BITS n) Q c.
Proof.
  intros Hn HQ. destruct (shl32_1 n Hn) as [E1 E2]. unfold BITS. wp_steps. eapply wp_lift; [exact E1|]. wp_steps.
  rewrite E2, land_mask by lia. done.
Qed.

Lemma hold_drop hold bits n :
  hold_ok hold bits -> 0 <= n <= bits -> hold_ok (hold / 2 ^ n) (bits - n).
Proof.
  intros [Hb Hh] Hn. assert (0 < 2 ^ n) by (apply pow2_pos; lia). split; [lia|].
  split; [apply Z.div_pos; lia|]. apply Z.div_lt_upper_bound; [lia|]. rewrite <- Z.pow_add_r by lia.
  replace (n + (bits - n)) with bits by lia. lia.
Qed.

Lemma stream_drop buf next have hold bits n :
  0 <= n <= bits -> stream buf next have (hold / 2 ^ n) (bits - n) = stream buf next have hold bits / 2 ^ n.
Proof.
  intros Hn. unfold stream. replace (2 ^ bits) with (2 ^ (bits - n) * 2 ^ n).
  2:{ rewrite <- Z.pow_add_r by lia. f_equal. lia. }
  assert (0 < 2 ^ n) by (apply pow2_pos; lia).
  replace (hold + 2 ^ (bits - n) * 2 ^ n * le (bytes_at buf next have))
    with (hold + (2 ^ (bits - n) * le (bytes_at buf next have)) * 2 ^ n) by lia.
  rewrite Z.div_add by lia. lia.
Qed.

Lemma wp_dropbits n (Q : () -> ctx -> Prop) c :
  hold_ok (r_hold (c_r c)) (r_bits (c_r c)) -> 0 <= n <= r_bits (c_r c) -> n < 32 ->
  Q tt (at_input c (r_next (c_r c)) (r_have (c_r c)) (r_hold (c_r c) / 2 ^ n) (r_bits (c_r c) - n)) -> wp (DROPBITS n) Q c.
Proof.
  intros [Hb Hh] Hn H32 HQ. unfold DROPBITS. wp_steps. eapply wp_lift.
  { unfold shr32. destruct (Z.leb_spec 0 n), (Z.ltb_spec n 32); try lia. done. }
  wp_steps. rewrite Z.shiftr_div_pow2, u32_small by lia. exact HQ.
Qed.

Lemma wp_bytebits (Q : () -> ctx -> Prop) c :
  hold_ok (r_hold (c_r c)) (r_bits (c_r c)) ->
  (let n := r_bits (c_r c) mod 8 in
   Q tt (at_input c (r_next (c_r c)) (r_have (c_r c)) (r_hold (c_r c) / 2 ^ n) (r_bits (c_r c) - n))) -> wp BYTEBITS Q c.
Proof.
  intros [Hb Hh] HQ. unfold BYTEBITS. wp_steps.
  change (r_bits (c_r c) .& 7) with (r_bits (c_r c) .& (2 ^ 3 - 1)). rewrite land_mask by lia. change (2 ^ 3) with 8.
  assert (Hm := Z.mod_pos_bound (r_bits (c_r c)) 8 ltac:(lia)). assert (r_bits (c_r c) mod 8 <= r_bits (c_r c)) by (apply Z.mod_le; lia).
  rewrite Z.shiftr_div_pow2, u32_small by lia. exact HQ.
Qed.

Lemma wp_initbits (Q : () -> ctx -> Prop) c :
  Q tt (at_input c (r_next (c_r c)) (r_have (c_r c)) 0 0) -> wp INITBITS Q c.
Proof. done. Qed.

Lemma hold_init : hold_ok 0 0.
Proof. unfold hold_ok. simpl. lia. Qed.
End macros.
