(* ===== verification/InflateSym.v ===== *)
(** Reading a symbol bit by bit in [inflate()]: the loops that pull just enough bytes to decode a code find
    the symbol of the canonical code, or leave with fewer bits than the next code has. *)
From S2P Require Import Prelude Record Bits Huffman InfTrees InfTreesProof InfDecode InflateState InflateMonad.
From S2P Require Import InfFast Inflate InflateWp.

(** The first-level entry behind a lookup. *)
Lemma lookup_first rd root h o v k :
  0 <= root <= 15 -> lookup rd root h = Some (o, v, k) ->
  exists here, rd (h mod 2 ^ root) = Some here /\
    (is_link here = false /\ op here = o /\ val here = v /\ bits here = k \/
     is_link here = true /\ bits here = root /\ 1 <= op here <= 15 /\
     exists e, rd (val here + (h mod 2 ^ (root + op here)) / 2 ^ root) = Some e /\
       op e = o /\ val e = v /\ root + bits e = k /\ 0 < bits e).
Proof.
  intros Hr. unfold lookup. rewrite Z.shiftl_1_l, land_mask by lia.
  destruct (rd (h mod 2 ^ root)) as [here|]; [|done]. cbn [mbind option_bind]. intros H. exists here. split; [done|].
  destruct (is_link here) eqn:El; [right|left; by injection H].
  destruct (rd _) as [e|] eqn:Ee in H; [|done]. cbn [mbind option_bind] in H.
  destruct (Z.eqb_spec (bits here) root) as [Eb|], (Z.ltb_spec 0 (op here)), (Z.ltb_spec (op here) 16), (Z.ltb_spec 0 (bits e)); try done.
  cbn [andb] in H. injection H as <- <- <-. rewrite Eb in Ee.
  rewrite Z.shiftl_1_l, land_mask, Z.shiftr_div_pow2 in Ee by lia.
  split; [done|]. split; [done|]. split; [lia|]. exists e. rewrite Eb. done.
Qed.

Section get_code.
Context (L : ctx -> Prop) (R : Z -> ctx -> Prop).
Abbreviation wp := (wp L R).
Context (type : codetype) (st : inflate_state) (ptr : codeptr) (root : Z) (ls : list Z)
  (G : good_table type (code_at st ptr) root ls).
Abbreviation rd := (code_at st ptr).

(** Fewer bits than the next code has. *)
Definition hungry (hold bits : Z) : Prop :=
  exists o v k, lookup rd root hold = Some (o, v, k) /\ bits < k.

Lemma hungry_15 hold bits : hungry hold bits -> bits < 15.
Proof. intros (o & v & k & E & H). apply (lookup_facts _ _ _ _ G) in E as (? & _). lia. Qed.

(** More bits do not make the code shorter. *)
Lemma hungry_more hold bits hold' o v k :
  hungry hold bits -> hold' mod 2 ^ bits = hold mod 2 ^ bits -> 0 <= bits -> lookup rd root hold' = Some (o, v, k) -> bits < k.
Proof.
  intros (o0 & v0 & k0 & E & Hk) Hm Hb E'. destruct (Z.le_gt_cases k bits) as [Hle|]; [|done]. exfalso.
  destruct (lookup_facts _ _ _ _ G _ _ _ _ E') as (Hk' & _).
  assert (k0 = k); [|lia]. apply (lookup_prefix _ _ _ _ G _ _ _ _ _ _ _ _ E' E).
  rewrite <- (mod_mod_pow2 hold' bits k), <- (mod_mod_pow2 hold bits k), Hm by lia. done.
Qed.

(** No more bits were pulled than the code found needs. *)
Definition just_fed (c : ctx) (hold bits : Z) : Prop :=
  bits = r_bits (c_r c) \/ forall o v k, lookup rd root hold = Some (o, v, k) -> bits - 8 < k.

Lemma same_input_low c next have hold bits :
  same_input c next have hold bits -> 0 <= r_bits (c_r c) ->
  0 <= r_hold (c_r c) < 2 ^ r_bits (c_r c) -> hold mod 2 ^ r_bits (c_r c) = r_hold (c_r c) mod 2 ^ r_bits (c_r c).
Proof.
  intros [_ [Hb Hh] _ _ Hm Es] Hb0 Hh0. unfold stream_of, stream in Es.
  assert (Hp : forall x b, r_bits (c_r c) <= b -> (x + 2 ^ b * le (bytes_at (in_buf (c_strm c)) next have)) mod 2 ^ r_bits (c_r c) = x mod 2 ^ r_bits (c_r c)).
  { intros x b Hle. replace (2 ^ b) with (2 ^ (b - r_bits (c_r c)) * 2 ^ r_bits (c_r c)).
    - rewrite <- (Z_mod_plus_full x (2 ^ (b - r_bits (c_r c)) * le (bytes_at (in_buf (c_strm c)) next have)) (2 ^ r_bits (c_r c))). f_equal. lia.
    - rewrite <- Z.pow_add_r by lia. f_equal. lia. }
  rewrite <- (Hp hold bits Hm), Es. rewrite (Z.mul_comm (2 ^ r_bits (c_r c))). apply Z_mod_plus_full.
Qed.

(** The loop, for a family [P] of positions at which the entry read is the one the lookup uses. *)
Lemma wp_get_code (P : Z -> Z -> Prop) vl n dr base (Q : code -> ctx -> Prop) c :
  0 <= n < 32 -> 0 <= dr ->
  (forall o b, P o b -> exists here, rd (vl + (o mod 2 ^ n) / 2 ^ dr) = Some here /\ (b < base + bits here -> hungry o b)) ->
  (forall o b o', P o b -> o' mod 2 ^ b = o mod 2 ^ b -> P o' (b + 8)) ->
  c_st c = st -> input_ok c -> P (r_hold (c_r c)) (r_bits (c_r c)) ->
  (forall next have hold bits here, same_input c next have hold bits -> just_fed c hold bits -> P hold bits ->
     rd (vl + (hold mod 2 ^ n) / 2 ^ dr) = Some here -> base + InfTrees.bits here <= bits ->
     hold mod 2 ^ r_bits (c_r c) = r_hold (c_r c) mod 2 ^ r_bits (c_r c) -> Q here (at_input c next have hold bits)) ->
  (forall next hold bits, same_input c next 0 hold bits -> hungry hold bits -> L (at_input c next 0 hold bits)) ->
  wp (get_code 5 ptr vl n dr base) Q c.
Proof.
  intros Hn Hdr HP HP' Est Hc Hp0 HQ HL. assert (Hc' := Hc). destruct Hc' as [_ [Hb0 Hh0]].
  enough (forall fuel next have hold bits, same_input c next have hold bits -> just_fed c hold bits -> P hold bits ->
    (0 < fuel)%nat -> 15 <= bits + 8 * (Z.of_nat fuel - 1) ->
    wp (get_code fuel ptr vl n dr base) Q (at_input c next have hold bits)) as H.
  { rewrite <- (at_input_same c). apply H; [by apply same_input_refl|by left|done|lia|lia]. }
  induction fuel as [|fuel IH]; intros next have hold bits Hs Hf Hp H0 H15; [lia|]. cbn [get_code].
  apply wp_bind, wp_bits; [done|]. csimp_goal. wp_steps. unfold id. rewrite Est.
  destruct (HP _ _ Hp) as (here & Hr & Hh). rewrite Z.shiftr_div_pow2 by lia.
  eapply wp_lift; [exact Hr|]. wp_steps.
  destruct (Z.leb_spec (base + InfTrees.bits here) bits) as [Hle|Hgt].
  { apply wp_ret. apply HQ; try done. eapply same_input_low; done || lia. }
  specialize (Hh Hgt). assert (H14 := hungry_15 _ _ Hh).
  apply wp_bind, wp_pullbyte; csimp_goal.
  - by destruct Hs.
  - lia.
  - intros ->. by apply HL.
  - intros nx hv hd Hs'. change (at_input (at_input c next have hold bits) nx hv hd (bits + 8)) with (at_input c nx hv hd (bits + 8)).
    assert (Hlow : hd mod 2 ^ bits = hold mod 2 ^ bits).
    { destruct Hs as [_ [? ?] _ _ _ _]. apply (same_input_low (at_input c next have hold bits) nx hv hd (bits + 8)); [done|csimp_goal; lia..]. }
    assert (0 <= bits) by (destruct Hs as [_ [? ?] _ _ _ _]; lia).
    apply IH; [by eapply same_input_trans| |by eapply HP'|lia|lia].
    right. intros o v k E. replace (bits + 8 - 8) with bits by lia. by eapply hungry_more.
Qed.

Lemma first_entry h : exists here, rd (h mod 2 ^ root) = Some here /\
  forall b, b < bits here -> hungry h b.
Proof.
  destruct (gt_lookup _ _ _ _ G h) as (o & v & k & sy & E & _). assert (Hr : 0 <= root <= 15) by (pose proof (gt_root _ _ _ _ G); lia).
  destruct (lookup_first _ _ _ _ _ _ Hr E) as (here & Hh & [(_ & _ & _ & Ek)|(_ & Eb & _ & e & _ & _ & _ & Ek & He)]);
    (exists here; split; [done|]; intros b Hb; exists o, v, k; split; [done|lia]).
Qed.

Lemma linked_entry here h :
  is_link here = true -> rd (h mod 2 ^ root) = Some here ->
  exists o v k e, lookup rd root h = Some (o, v, k) /\
    rd (val here + (h mod 2 ^ (root + op here)) / 2 ^ root) = Some e /\ bits here = root /\
    op e = o /\ val e = v /\ root + bits e = k /\ 0 < bits e.
Proof.
  intros Hl Hrd. assert (Hr : 0 <= root <= 15) by (pose proof (gt_root _ _ _ _ G); lia).
  destruct (gt_lookup _ _ _ _ G h) as (o & v & k & sy & E & _).
  destruct (lookup_first _ _ _ _ _ _ Hr E) as (here' & Hh' & Hcase). rewrite Hrd in Hh'. injection Hh' as <-.
  destruct Hcase as [(Hl' & _)|(_ & Eb & _ & e & He & Eo & Ev & Ek & He0)]; [congruence|].
  exists o, v, k, e. done.
Qed.

Lemma wp_decode_symbol link (Q : code -> ctx -> Prop) c :
  (forall h e, rd (h mod 2 ^ root) = Some e -> link e = is_link e) ->
  c_st c = st -> input_ok c ->
  (forall next have hold bits o v k here back, same_input c next have hold bits -> just_fed c hold bits ->
     lookup rd root hold = Some (o, v, k) -> k <= bits -> op here = o -> val here = v ->
     Q here (Ctx (c_strm c) (upd s_back (fun _ => back) st)
               (c_r (at_input c next have (hold / 2 ^ k) (bits - k))))) ->
  (forall next hold bits, same_input c next 0 hold bits -> hungry hold bits -> L (at_input c next 0 hold bits)) ->
  wp (decode_symbol link ptr root) Q c.
Proof.
  intros Hlink Est Hc HQ HL. assert (Hr : 0 <= root <= 15) by (pose proof (gt_root _ _ _ _ G); lia). unfold decode_symbol.
  apply wp_bind, (wp_get_code (fun _ _ => True)); try (done || lia).
  { intros o b _. destruct (first_entry o) as (here & E & Hh). exists here.
    rewrite Z.add_0_l, Z.div_1_r. split; [done|]. intros Hb. apply Hh. lia. }
  intros next have hold bits here Hs Hf _ Hrd Hbits Hlow. rewrite Z.add_0_l, Z.div_1_r in Hrd.
  destruct (gt_lookup _ _ _ _ G hold) as (o & v & k & sy & E & _).
  destruct (lookup_first _ _ _ _ _ _ Hr E) as (here' & Hh' & Hcase).
  rewrite Hrd in Hh'. injection Hh' as <-. rewrite (Hlink _ _ Hrd).
  destruct Hcase as [(Hl & Eo & Ev & Ek)|(Hl & Eb & Hop & e & He & Eo & Ev & Ek & He0)]; rewrite Hl.
  - wp_steps. assert (Hho : hold_ok hold bits) by (by destruct Hs).
    destruct (lookup_facts _ _ _ _ G _ _ _ _ E) as (Hk & _).
    apply wp_dropbits; csimp_goal; [done|lia|lia|]. wp_steps. rewrite ?Est, Ek.
    apply (HQ next have hold bits o v k here); (done || lia).
  - apply wp_bind, wp_bind, (wp_get_code (fun o' b' => root <= b' /\ rd (o' mod 2 ^ root) = Some here)); csimp_goal.
    + lia.
    + lia.
    + intros o' b' [Hb' Hrd']. destruct (linked_entry here o' Hl Hrd') as (o1 & v1 & k1 & e1 & E1 & He1 & Eb1 & _ & _ & Ek1 & _).
      rewrite Eb. exists e1. split; [done|]. intros Hlt. exists o1, v1, k1. split; [done|lia].
    + intros o' b' o2 [Hb' Hrd'] Hm. split; [lia|]. rewrite <- Hrd'. f_equal.
      rewrite <- (mod_mod_pow2 o2 b' root), <- (mod_mod_pow2 o' b' root), Hm by lia. done.
    + done.
    + by destruct Hs.
    + split; [lia|done].
    + intros nx2 hv2 hold2 bits2 here2 Hs2 Hf2 [Hb2 Hrd2] Hr2 Hbits2 Hlow2. rewrite Eb in Hr2, Hbits2.
      destruct (linked_entry here hold2 Hl Hrd2) as (o1 & v1 & k1 & e1 & E1 & He1 & Eb1 & Eo1 & Ev1 & Ek1 & He10).
      rewrite He1 in Hr2. injection Hr2 as <-. assert (Hs3 := same_input_trans _ _ _ _ _ _ _ _ _ Hs Hs2).
      assert (Hho : hold_ok hold2 bits2) by (by destruct Hs3).
      destruct (lookup_facts _ _ _ _ G _ _ _ _ E1) as (Hk & _).
      apply wp_bind, wp_dropbits; csimp_goal; [done|lia|lia|]. wp_steps.
      apply wp_dropbits; csimp_goal; [by apply hold_drop; lia || done|lia|lia|]. wp_steps. rewrite ?Est.
      rewrite Eb, Z.div_div, <- Z.pow_add_r, Ek1 by (lia || (apply pow2_pos; lia) || (apply Z.pow_nonzero; lia)).
      replace (bits2 - root - InfTrees.bits e1) with (bits2 - k1) by lia.
      apply (HQ nx2 hv2 hold2 bits2 o1 v1 k1 e1); try (done || lia).
      destruct Hf2 as [Hf2|Hf2]; [|by right]. csimp. subst bits2.
      assert (hold2 = hold) as ->.
      { destruct Hs as [_ [_ ?] _ _ _ _]. destruct Hho as [_ ?]. rewrite !Z.mod_small in Hlow2 by lia. done. }
      destruct Hf as [Hf|Hf]; [by left|by right].
    + intros nx2 hold2 bits2 Hs2 Hh2. apply HL; [|done]. by eapply same_input_trans.
Qed.
End get_code.
