(* ===== verification/InfFastProof.v ===== *)
(** [inflate_fast()] decodes the symbols of the block: the copies through the window equal the reference
    copy, every access is in range given six bytes of input and 258 of output, and unused input bytes are
    returned to the stream. *)
From S2P Require Import Prelude Record Bits Huffman InfTrees InfTreesProof InfDecode Lz InflateState.
From S2P Require Import InfFast InflateWp InflateSym.

(** ** Unrolled copies *)
Section copies.
Context (st : inflate_state).
Abbreviation copyn := (copyn st).

Lemma copyn_add a b sf : copyn (a + b) sf = (copyn a sf ≫= copyn b).
Proof.
  revert sf. induction a as [|a IH]; intros sf; [done|]. cbn [Nat.add InfFast.copyn].
  destruct (copy1 st sf) as [sf'|]; [|done]. cbn [mbind option_bind]. apply IH.
Qed.

(** The loops unrolled three times copy [len] bytes. *)
Lemma copy3_copyn fuel len sf :
  0 <= len < 2 ^ 32 -> len < 3 * Z.of_nat fuel ->
  (copy3_loop st fuel len sf ≫= copy_tail st) = (sf' ← copyn (Z.to_nat len) sf; Some sf'.2).
Proof.
  revert len sf. induction fuel as [|fuel IH]; intros len sf Hl Hf; [lia|]. cbn [copy3_loop].
  destruct (Z.ltb_spec 2 len) as [H2|H2].
  - replace (Z.to_nat len) with (3 + Z.to_nat (len - 3))%nat by lia. rewrite copyn_add.
    destruct (copyn 3 sf) as [sf'|]; [|done]. cbn [mbind option_bind].
    rewrite u32_small by lia. apply IH; lia.
  - cbn [mbind option_bind copy_tail]. destruct (nz len) eqn:E.
    + apply nz_true in E. destruct (Z.ltb_spec 1 len).
      * replace len with 2 by lia. cbn [Z.to_nat Pos.to_nat Pos.iter_op Nat.add InfFast.copyn].
        change (Z.to_nat 2) with 2%nat. cbn [InfFast.copyn].
        destruct (copy1 st sf) as [sf'|]; [|done]. cbn [mbind option_bind]. by destruct (copy1 st sf').
      * replace len with 1 by lia. change (Z.to_nat 1) with 1%nat. cbn [InfFast.copyn].
        by destruct (copy1 st sf) as [sf'|].
    + apply nz_false in E as ->. done.
Qed.

Lemma copy_direct_copyn len dist f :
  3 <= len < 2 ^ 32 -> copy_direct st len dist f = (sf ← copyn (Z.to_nat len) (FromOut (f_out f - dist), f); Some sf.2).
Proof.
  intros Hl. unfold copy_direct. assert (E : Z.to_nat len = (3 + Z.to_nat (len - 3))%nat) by lia.
  rewrite E, copyn_add. destruct (copyn 3 _) as [sf|]; [|done]. cbn [mbind option_bind]. rewrite u32_small by lia.
  apply copy3_copyn; lia.
Qed.
End copies.

Section fast_proof.
Context (ibuf : list Z) (st : inflate_state) (beg iend oend : Z) (osize : nat) (ll dl : list Z).
Context (Hib : iend <= Z.of_nat (length ibuf) < 2 ^ 32) (Hibytes : Forall byte_ok ibuf).
Context (Hwin : win_ok (s_wsize st) (s_whave st) (s_wnext st) (s_window st)).
Context (Gl : good_table LENS (code_at st (s_lencode st)) (s_lenbits st) ll).
Context (Gd : good_table DISTS (code_at st (s_distcode st)) (s_distbits st) dl).
Context (Hsane : nz (s_sane st) = true).
Context (Hbeg : 0 <= beg + 1) (Hoend : oend <= Z.of_nat osize) (Hosz : oend - (beg + 1) < 2 ^ 32).

Definition whist : list Z := hist_of (s_wsize st) (s_whave st) (s_wnext st) (s_window st).

(** The bytes decoded so far that a match can refer to. *)
Definition fhist (f : fast) : list Z := whist ++ bytes_at (f_obuf f) (beg + 1) (f_out f - beg).

Definition frem (f : fast) : Z := iend - (f_in f + 1).
Definition fstream (f : fast) : Z := stream ibuf (f_in f + 1) (frem f) (f_hold f) (f_bits f).
Definition fnbits (f : fast) : Z := f_bits f + 8 * frem f.

Record finv (f : fast) : Prop := {
  fi_in : 0 <= f_in f + 1 <= iend;
  fi_hold : hold_ok (f_hold f) (f_bits f);
  fi_out : beg <= f_out f < oend;
  fi_obuf : length (f_obuf f) = osize;
  fi_bytes : Forall byte_ok (f_obuf f) }.

Lemma finv_in f : finv f -> in_ok ibuf (f_in f + 1) (frem f).
Proof. intros [H _ _ _ _]. unfold in_ok, frem. repeat split; (done || lia). Qed.

(** Another input position with the same output. *)
Record fsame (f f' : fast) : Prop := {
  fs_inv : finv f';
  fs_out : f_out f' = f_out f;
  fs_obuf : f_obuf f' = f_obuf f }.

Lemma fhist_same f f' : fsame f f' -> fhist f' = fhist f.
Proof. intros [_ E1 E2]. unfold fhist. by rewrite E1, E2. Qed.
Lemma fsame_trans f f' f'' : fsame f f' -> fsame f' f'' -> fsame f f''.
Proof. intros [H1 H2 H3] [H4 H5 H6]. split; [done|congruence..]. Qed.

Lemma pull_spec f :
  finv f -> f_bits f <= 24 -> 0 < frem f ->
  exists f', pull ibuf f = Some f' /\ fsame f f' /\ f_in f' = f_in f + 1 /\ f_bits f' = f_bits f + 8 /\ fstream f' = fstream f.
Proof.
  intros Hf H24 Hr. assert (Hin := finv_in f Hf). destruct Hf as [Hi Hh Ho Hl Hby].
  destruct (aget_in ibuf (f_in f + 1) ltac:(unfold frem in Hr; lia)) as [b Hb].
  destruct (pull_byte _ _ _ _ _ b Hin Hh H24 ltac:(lia) Hb) as (Hin' & Hh' & Eu & Es).
  unfold pull. rewrite Hb. cbn [mbind option_bind]. destruct Hh as [Hbt Hhd].
  unfold shl32. destruct (Z.leb_spec 0 (f_bits f)), (Z.ltb_spec (f_bits f) 32); try lia. cbn [andb mbind option_bind].
  rewrite Eu, u32_small by lia. eexists. split; [done|]. split; [|split; [done|split; [done|]]].
  - split; [|done|done]. unfold frem in *. split; cbn [f_in f_out f_hold f_bits f_obuf]; (done || lia).
  - unfold fstream, frem in *. cbn [f_in f_out f_hold f_bits f_obuf]. rewrite <- Es. f_equal. lia.
Qed.

Lemma refill_spec f :
  finv f -> (f_bits f < 15 -> 2 <= frem f) ->
  exists f', refill ibuf f = Some f' /\ fsame f f' /\ 15 <= f_bits f' /\ fstream f' = fstream f /\
    (f_bits f < 15 /\ f_in f' = f_in f + 2 /\ f_bits f' = f_bits f + 16 \/ 15 <= f_bits f /\ f' = f).
Proof.
  intros Hf Hr. unfold refill. destruct (Z.ltb_spec (f_bits f) 15) as [H15|H15].
  - destruct (pull_spec f Hf ltac:(lia) ltac:(lia)) as (f1 & -> & S1 & I1 & B1 & E1). cbn [mbind option_bind].
    destruct (pull_spec f1 (fs_inv _ _ S1) ltac:(lia) ltac:(unfold frem in *; lia)) as (f2 & -> & S2 & I2 & B2 & E2).
    destruct (fi_hold _ Hf) as [Hb _].
    exists f2. split; [done|]. split; [by eapply fsame_trans|]. split; [lia|]. split; [congruence|]. left. lia.
  - exists f. split; [done|]. split; [by split|]. split; [done|]. split; [done|]. by right.
Qed.

Lemma fdrop_spec n f :
  finv f -> 0 <= n <= f_bits f -> n < 32 ->
  exists f', fdrop n f = Some f' /\ fsame f f' /\ f_in f' = f_in f /\ f_bits f' = f_bits f - n /\
    f_hold f' = f_hold f / 2 ^ n /\ fstream f' = fstream f / 2 ^ n.
Proof.
  intros Hf Hn H32. destruct Hf as [Hi Hh Ho Hl Hby]. unfold fdrop, shr32.
  destruct (Z.leb_spec 0 n), (Z.ltb_spec n 32); try lia. cbn [andb mbind option_bind].
  assert (Hh' := hold_drop _ _ _ Hh Hn). destruct Hh as [Hb _]. rewrite Z.shiftr_div_pow2, u32_small by lia.
  eexists. split; [done|]. split; [by split|]. split; [done|]. split; [done|]. split; [done|].
  unfold fstream, frem. cbn [f_in f_out f_hold f_bits f_obuf]. by apply stream_drop.
Qed.

Lemma fbits_spec n f : 0 <= n < 32 -> fbits n f = Some (f_hold f mod 2 ^ n).
Proof.
  intros Hn. destruct (shl32_1 n Hn) as [E1 E2]. unfold fbits. rewrite E1. cbn [mbind option_bind].
  rewrite E2, land_mask by lia. done.
Qed.

(** The low bits of [hold] are those of the stream. *)
Lemma stream_low f n : 0 <= n <= f_bits f -> fstream f mod 2 ^ n = f_hold f mod 2 ^ n.
Proof.
  intros Hn. unfold fstream, stream. replace (2 ^ f_bits f) with (2 ^ (f_bits f - n) * 2 ^ n).
  2:{ rewrite <- Z.pow_add_r by lia. f_equal. lia. }
  rewrite <- (Z_mod_plus_full (f_hold f) (2 ^ (f_bits f - n) * le (bytes_at ibuf (f_in f + 1) (frem f))) (2 ^ n)). f_equal. lia.
Qed.

(** ** Output *)
Lemma bytes_at_snoc (l : list Z) s n v :
  0 <= s -> 0 <= n -> s + n < Z.of_nat (length l) ->
  bytes_at (<[Z.to_nat (s + n) := v]> l) s (n + 1) = bytes_at l s n ++ [v].
Proof.
  intros Hs Hn Hl. unfold bytes_at. apply list_eq. intros i.
  destruct (Nat.lt_ge_cases i (Z.to_nat (n + 1))) as [Hi|Hi].
  - rewrite lookup_take_lt, lookup_drop by lia. destruct (Nat.eq_dec i (Z.to_nat n)) as [->|Hne].
    + rewrite lookup_app_r by (rewrite length_take, length_drop; lia). rewrite length_take, length_drop.
      replace (Z.to_nat n - Z.to_nat n `min` (length l - Z.to_nat s))%nat with 0%nat by lia.
      replace (Z.to_nat s + Z.to_nat n)%nat with (Z.to_nat (s + n)) by lia. apply list_lookup_insert_eq. lia.
    + rewrite lookup_app_l by (rewrite length_take, length_drop; lia).
      rewrite lookup_take_lt, lookup_drop by lia. apply list_lookup_insert_ne. lia.
  - rewrite !lookup_ge_None_2; [done|..]; rewrite ?length_app, !length_take, length_drop; cbn [length]; lia.
Qed.

(** [n] more bytes of output. *)
Record fout (f f' : fast) (n : Z) (hist : list Z) : Prop := {
  fo_inv : finv f';
  fo_in : f_in f' = f_in f;
  fo_hold : f_hold f' = f_hold f;
  fo_bits : f_bits f' = f_bits f;
  fo_out : f_out f' = f_out f + n;
  fo_hist : fhist f' = hist }.

Lemma length_fhist f : finv f -> Z.of_nat (length (fhist f)) = s_whave st + (f_out f - beg).
Proof.
  intros [_ _ Ho Hl _]. unfold fhist. rewrite length_app. assert (Hw := length_hist_of _ _ _ _ Hwin).
  fold whist in Hw. unfold bytes_at. rewrite length_take, length_drop. lia.
Qed.

Lemma fput_spec v f :
  finv f -> f_out f + 1 < oend -> byte_ok v ->
  exists f', fput v f = Some f' /\ fout f f' 1 (fhist f ++ [v]).
Proof.
  intros [Hi Hh Ho Hl Hby] Hlt Hv. unfold fput. rewrite aset_in by lia. cbn [mbind option_bind].
  eexists. split; [done|]. split; try done; cbn [f_in f_out f_hold f_bits f_obuf].
  - split; cbn [f_in f_out f_hold f_bits f_obuf]; try (done || lia).
    + by rewrite length_insert.
    + by apply Forall_insert.
  - unfold fhist. cbn [f_out f_obuf]. rewrite <- app_assoc. f_equal.
    replace (f_out f + 1 - beg) with ((f_out f - beg) + 1) by lia.
    rewrite <- (bytes_at_snoc (f_obuf f) (beg + 1) (f_out f - beg)) by lia. do 2 f_equal. lia.
Qed.

Lemma fout_trans f f1 f2 a b h1 h2 : fout f f1 a h1 -> fout f1 f2 b h2 -> fout f f2 (a + b) h2.
Proof. intros [? ? ? ? ? ?] [? ? ? ? ? ?]. split; (done || congruence || lia). Qed.

(** The byte of the history a copy reads. *)
Lemma hist_byte f i :
  finv f -> 0 <= i < s_whave st + (f_out f - beg) -> nth (Z.to_nat i) (fhist f) 0 =
    (if i <? s_whave st then default 0 (aget whist i) else default 0 (aget (f_obuf f) (beg + 1 + (i - s_whave st)))).
Proof.
  intros Hf Hi. assert (Hw := length_hist_of _ _ _ _ Hwin). fold whist in Hw. unfold fhist.
  rewrite nth_lookup. unfold aget, bytes_at. destruct Hf as [_ _ Ho Hl _]. destruct (Z.ltb_spec i (s_whave st)).
  - destruct (Z.leb_spec 0 i); [|lia]. rewrite lookup_app_l by lia. done.
  - destruct (Z.leb_spec 0 (beg + 1 + (i - s_whave st))); [|lia]. rewrite lookup_app_r by lia.
    rewrite lookup_take_lt, lookup_drop by lia. do 2 f_equal. lia.
Qed.

Lemma copyn_window n j i f w :
  s_window st = Some w -> finv f -> f_out f + Z.of_nat n < oend -> 0 <= i -> i + Z.of_nat n <= s_whave st ->
  (forall t, 0 <= t < Z.of_nat n -> aget w (j + 1 + t) = aget whist (i + t)) ->
  exists f', copyn st n (FromWindow j, f) = Some (FromWindow (j + Z.of_nat n), f') /\
    fout f f' (Z.of_nat n) (lz_copy (fhist f) (Z.of_nat (length (fhist f)) - i) n).
Proof.
  intros Ew. revert j i f. induction n as [|n IH]; intros j i f Hf Ho Hi Hn Hr; cbn [copyn lz_copy].
  { exists f. replace (j + Z.of_nat 0) with j by lia. split; [done|]. split; (done || lia). }
  assert (Hlh := length_fhist f Hf). assert (Hlw := length_hist_of _ _ _ _ Hwin). fold whist in Hlw.
  destruct (aget_in whist i ltac:(lia)) as [b Hb].
  unfold copy1 at 1. rewrite Ew. cbn [mbind option_bind]. specialize (Hr 0 ltac:(lia)) as Hr0. rewrite !Z.add_0_r in Hr0.
  rewrite Hr0, Hb. cbn [mbind option_bind].
  destruct (fput_spec b f Hf ltac:(lia) (aget_byte _ _ _ (hist_of_bytes _ _ _ _ Hwin) Hb)) as (f1 & -> & F1). cbn [mbind option_bind].
  destruct (fo_inv _ _ _ _ F1) as [_ _ Ho1 _ _]. assert (Eo := fo_out _ _ _ _ F1).
  destruct (IH (j + 1) (i + 1) f1 (fo_inv _ _ _ _ F1)) as (f2 & E2 & F2); [lia|lia|lia| |].
  { intros t Ht. replace (j + 1 + 1 + t) with (j + 1 + (t + 1)) by lia. rewrite Hr by lia. f_equal. lia. }
  exists f2. rewrite E2. split; [do 3 f_equal; lia|].
  replace (Z.of_nat (S n)) with (1 + Z.of_nat n) by lia. eapply fout_trans; [exact F1|].
  replace (length (fhist f) - Z.to_nat (Z.of_nat (length (fhist f)) - i))%nat with (Z.to_nat i) by lia.
  assert (Hs := s_whave st). rewrite (hist_byte f i Hf) by (destruct Hf as [_ _ ? _ _]; lia).
  destruct (Z.ltb_spec i (s_whave st)); [|lia]. rewrite Hb. cbn [default]. rewrite (fo_hist _ _ _ _ F1) in F2.
  rewrite length_app in F2. cbn [length] in F2.
  replace (Z.of_nat (length (fhist f) + 1) - (i + 1)) with (Z.of_nat (length (fhist f)) - i) in F2 by lia. exact F2.
Qed.

Lemma copyn_out n i f :
  finv f -> f_out f + Z.of_nat n < oend -> s_whave st <= i -> i < Z.of_nat (length (fhist f)) ->
  exists f', copyn st n (FromOut (beg + (i - s_whave st)), f) = Some (FromOut (beg + (i - s_whave st) + Z.of_nat n), f') /\
    fout f f' (Z.of_nat n) (lz_copy (fhist f) (Z.of_nat (length (fhist f)) - i) n).
Proof.
  revert i f. induction n as [|n IH]; intros i f Hf Ho Hi Hn; cbn [copyn lz_copy].
  { exists f. rewrite Z.add_0_r. split; [done|]. split; (done || lia). }
  assert (Hlh := length_fhist f Hf). destruct Hf as [Hf1 Hf2 Hf3 Hf4 Hf5]. assert (Hf : finv f) by done.
  assert (Hlw := length_hist_of _ _ _ _ Hwin). fold whist in Hlw.
  unfold copy1 at 1. destruct (aget_in (f_obuf f) (beg + (i - s_whave st) + 1) ltac:(lia)) as [b Hb].
  rewrite Hb. cbn [mbind option_bind].
  destruct (fput_spec b f Hf ltac:(lia) (aget_byte _ _ _ Hf5 Hb)) as (f1 & -> & F1). cbn [mbind option_bind].
  assert (Eo := fo_out _ _ _ _ F1). assert (Eh := fo_hist _ _ _ _ F1).
  destruct (IH (i + 1) f1 (fo_inv _ _ _ _ F1)) as (f2 & E2 & F2); [lia|lia|rewrite Eh, length_app; cbn [length]; lia|].
  exists f2. replace (beg + (i - s_whave st) + 1) with (beg + (i + 1 - s_whave st)) by lia. rewrite E2.
  split; [do 3 f_equal; lia|].
  replace (Z.of_nat (S n)) with (1 + Z.of_nat n) by lia. eapply fout_trans; [exact F1|].
  replace (length (fhist f) - Z.to_nat (Z.of_nat (length (fhist f)) - i))%nat with (Z.to_nat i) by lia.
  rewrite (hist_byte f i Hf) by lia. destruct (Z.ltb_spec i (s_whave st)); [lia|].
  replace (beg + 1 + (i - s_whave st)) with (beg + (i - s_whave st) + 1) by lia. rewrite Hb. cbn [default].
  rewrite Eh, length_app in F2. cbn [length] in F2.
  replace (Z.of_nat (length (fhist f) + 1) - (i + 1)) with (Z.of_nat (length (fhist f)) - i) in F2 by lia. exact F2.
Qed.

(** ** Matches *)

(** Copying [n] bytes from the window, [back] bytes from its end, without crossing its boundary. *)
Lemma window_run n j back f :
  finv f -> f_out f + n < oend -> 0 < n <= back -> back <= s_whave st ->
  (back <= s_wnext st /\ j + 1 = s_wnext st - back \/ s_wnext st <= back - n /\ j + 1 = s_wsize st + s_wnext st - back) ->
  exists f', copyn st (Z.to_nat n) (FromWindow j, f) = Some (FromWindow (j + n), f') /\
    fout f f' n (lz_copy (fhist f) (back + (f_out f - beg)) (Z.to_nat n)).
Proof.
  intros Hf Ho Hn Hb Hj. destruct Hwin as [(_ & ? & _)|(w & Ew & Hl & Hs & Hh & Hnx & Hlt & Hby)]; [lia|].
  assert (Ewh : whist = win_hist w (s_wsize st) (s_whave st) (s_wnext st)).
  { unfold whist. rewrite Ew. cbn [hist_of]. destruct (Z.eqb_spec (s_wsize st) 0); [lia|done]. }
  destruct (copyn_window (Z.to_nat n) j (s_whave st - back) f w Ew Hf) as (f' & E & F); [lia|lia|lia| |].
  - intros t Ht. rewrite Ewh. replace (s_whave st - back + t) with (s_whave st - (back - t)) by lia.
    rewrite <- win_hist_back by lia. f_equal. destruct (Z.leb_spec (back - t) (s_wnext st)); lia.
  - exists f'. rewrite E, (length_fhist f Hf) in *. rewrite Z2Nat.id in * by lia. split; [done|].
    replace (s_whave st + (f_out f - beg) - (s_whave st - back)) with (back + (f_out f - beg)) in F by lia. exact F.
Qed.

(** The rest of a match from the output, once it reaches the output's start. *)
Lemma out_run n dist f :
  finv f -> f_out f + n < oend -> 0 <= n -> 1 <= dist <= f_out f - beg ->
  exists f', copyn st (Z.to_nat n) (FromOut (f_out f - dist), f) = Some (FromOut (f_out f - dist + n), f') /\
    fout f f' n (lz_copy (fhist f) dist (Z.to_nat n)).
Proof.
  intros Hf Ho Hn Hd. assert (Hlh := length_fhist f Hf).
  assert (0 <= s_whave st) by (assert (Hlw := length_hist_of _ _ _ _ Hwin); lia).
  destruct (copyn_out (Z.to_nat n) (s_whave st + (f_out f - beg) - dist) f Hf) as (f' & E & F); [lia|lia|lia|].
  exists f'. rewrite Hlh, Z2Nat.id in * by lia.
  replace (beg + (s_whave st + (f_out f - beg) - dist - s_whave st)) with (f_out f - dist) in E by lia.
  replace (s_whave st + (f_out f - beg) - (s_whave st + (f_out f - beg) - dist)) with dist in F by lia. done.
Qed.

Lemma do_copy_copyn n sf : n <> 0 -> do_copy st n sf = copyn st (Z.to_nat n) sf.
Proof. intros Hn. unfold do_copy. by destruct (Z.eqb_spec n 0). Qed.

(** The end of [copy_window]. *)
Definition window_end (len : Z) (sf : source * fast) : option fast :=
  r ← copy3_loop st (S (Z.to_nat len)) len sf; copy_tail st r.

Lemma window_end_copyn len sf : 0 <= len < 2 ^ 32 -> window_end len sf = (sf' ← copyn st (Z.to_nat len) sf; Some sf'.2).
Proof. intros Hl. unfold window_end. apply copy3_copyn; lia. Qed.

Section match_.
Context (op len : Z) (f : fast).
Context (Hf : finv f) (Hop : 1 <= op <= s_whave st) (Hlen : 3 <= len <= 258) (Hroom : f_out f + len < oend).
Abbreviation dist := (op + (f_out f - beg)).

(** [a] bytes were copied from the window up to its end: the rest comes from the output. *)
Lemma finish_out a f1 :
  0 < a < len -> fout f f1 a (lz_copy (fhist f) dist (Z.to_nat a)) -> a = op ->
  exists f', window_end (u32 (len - a)) (FromOut (f_out f1 - dist), f1) = Some f' /\
    fout f f' len (lz_copy (fhist f) dist (Z.to_nat len)).
Proof.
  intros Ha F1 ->. assert (Eo := fo_out _ _ _ _ F1). rewrite u32_small, window_end_copyn by lia.
  destruct Hf as [_ _ Hfo _ _].
  destruct (out_run (len - op) dist f1 (fo_inv _ _ _ _ F1)) as (f' & -> & F2); [lia|lia|lia|].
  cbn [mbind option_bind snd]. exists f'. split; [done|]. rewrite (fo_hist _ _ _ _ F1) in F2.
  rewrite <- lz_copy_add in F2. replace (Z.to_nat op + Z.to_nat (len - op))%nat with (Z.to_nat len) in F2 by lia.
  replace len with (op + (len - op)) at 1 by lia. by eapply fout_trans.
Qed.

(** All of the rest comes from the window. *)
Lemma finish_window a j f1 :
  0 <= a < len -> len <= op -> fout f f1 a (lz_copy (fhist f) dist (Z.to_nat a)) ->
  (op - a <= s_wnext st /\ j + 1 = s_wnext st - (op - a) \/
   s_wnext st <= op - len /\ j + 1 = s_wsize st + s_wnext st - (op - a)) ->
  exists f', window_end (len - a) (FromWindow j, f1) = Some f' /\ fout f f' len (lz_copy (fhist f) dist (Z.to_nat len)).
Proof.
  intros Ha Hlo F1 Hj. assert (Eo := fo_out _ _ _ _ F1). rewrite window_end_copyn by lia.
  destruct (window_run (len - a) j (op - a) f1 (fo_inv _ _ _ _ F1)) as (f' & -> & F2); [lia..|].
  cbn [mbind option_bind snd]. exists f'. split; [done|]. rewrite (fo_hist _ _ _ _ F1) in F2.
  replace (op - a + (f_out f1 - beg)) with dist in F2 by lia.
  rewrite <- lz_copy_add in F2. replace (Z.to_nat a + Z.to_nat (len - a))%nat with (Z.to_nat len) in F2 by lia.
  replace len with (a + (len - a)) at 1 by lia. by eapply fout_trans.
Qed.

Lemma fout_refl : fout f f 0 (lz_copy (fhist f) dist (Z.to_nat 0)).
Proof. split; (done || lia). Qed.

(** Copying up to the end of the window, then the rest. *)
Lemma window_then_out j :
  (op <= s_wnext st /\ j + 1 = s_wnext st - op \/ s_wnext st = 0 /\ j + 1 = s_wsize st - op) ->
  exists f', (r ← (if op <? len then
                    sf ← do_copy st op (FromWindow j, f);
                    Some (u32 (len - op), (FromOut (f_out sf.2 - dist), sf.2))
                  else Some (len, (FromWindow j, f)));
              let '(len, sf) := r in window_end len sf) = Some f' /\
    fout f f' len (lz_copy (fhist f) dist (Z.to_nat len)).
Proof.
  intros Hj. destruct (Z.ltb_spec op len) as [Hlt|Hge].
  - rewrite do_copy_copyn by lia.
    destruct (window_run op j op f Hf) as (f1 & -> & F1); [lia..|]. cbn [mbind option_bind snd].
    apply finish_out; [lia|done|done].
  - cbn [mbind option_bind]. destruct (finish_window 0 j f ltac:(lia) ltac:(lia) fout_refl) as (f' & E & F); [lia|].
    rewrite Z.sub_0_r in E. by exists f'.
Qed.

Lemma copy_window_spec :
  exists f', copy_window st op len dist f = Some f' /\ fout f f' len (lz_copy (fhist f) dist (Z.to_nat len)).
Proof.
  destruct (Hwin) as [(_ & ? & _)|(w & Ew & Hl & Hs & Hh & Hnx & Hlt & Hby)]; [lia|].
  unfold copy_window. cbv zeta.
  unfold OFF. destruct (Z.eqb_spec (s_wnext st) 0) as [E0|E0].
  - rewrite (u32_small (s_wsize st - op)) by lia. apply window_then_out. lia.
  - destruct (Z.ltb_spec (s_wnext st) op) as [Hwo|Hwo].
    2:{ rewrite (u32_small (s_wnext st - op)) by lia. apply window_then_out. lia. }
    rewrite (u32_small (s_wsize st + s_wnext st - op)), (u32_small (op - s_wnext st)) by lia. set (a := op - s_wnext st). assert (Ha : 0 < a) by lia.
    destruct (Z.ltb_spec a len) as [Hal|Hal].
    + rewrite (do_copy_copyn a) by lia.
      destruct (window_run a (- (1) + (s_wsize st + s_wnext st - op)) op f Hf) as (f1 & -> & F1); [lia..|].
      cbn [mbind option_bind snd]. rewrite (u32_small (len - a)) by lia. assert (Eo := fo_out _ _ _ _ F1).
      destruct (Z.ltb_spec (s_wnext st) (len - a)) as [Hwl|Hwl].
      * rewrite do_copy_copyn by lia.
        destruct (window_run (s_wnext st) (- (1)) (s_wnext st) f1 (fo_inv _ _ _ _ F1)) as (f2 & -> & F2); [lia..|].
        cbn [mbind option_bind snd]. replace (len - a - s_wnext st) with (len - op) by lia. apply finish_out; [lia| |done].
        replace op with (a + s_wnext st) at 1 by lia. eapply fout_trans; [exact F1|].
        rewrite (fo_hist _ _ _ _ F1), Eo in F2. replace (s_wnext st + (f_out f + a - beg)) with dist in F2 by lia.
        rewrite <- lz_copy_add in F2. replace (Z.to_nat a + Z.to_nat (s_wnext st))%nat with (Z.to_nat op) in F2 by lia. exact F2.
      * cbn [mbind option_bind]. apply finish_window; [lia|lia|done|lia].
    + cbn [mbind option_bind]. destruct (finish_window 0 (- (1) + (s_wsize st + s_wnext st - op)) f ltac:(lia) ltac:(lia) fout_refl)
        as (f' & E & F); [lia|]. rewrite Z.sub_0_r in E. by exists f'.
Qed.
End match_.

Definition too_far : string := "invalid distance too far back".

Lemma fast_match_spec len dist f :
  finv f -> 1 <= dist <= 32768 -> 3 <= len <= 258 -> f_out f + len < oend ->
  exists f', fast_match st beg len dist f =
    Some (if Z.of_nat (length (fhist f)) <? dist then Break BAD (Some too_far) else Again, f') /\
    (if Z.of_nat (length (fhist f)) <? dist then f' = f
     else fout f f' len (lz_copy (fhist f) dist (Z.to_nat len))).
Proof.
  intros Hf Hd Hl Ho. assert (Hlh := length_fhist f Hf). assert (Hf' := Hf). destruct Hf' as [_ _ Hfo _ _].
  unfold fast_match. rewrite (u32_small (f_out f - beg)) by lia. rewrite Hsane, andb_true_r.
  destruct (Z.ltb_spec (f_out f - beg) dist) as [Hw|Hw].
  - rewrite (u32_small (dist - (f_out f - beg))) by lia.
    destruct (Z.ltb_spec (s_whave st) (dist - (f_out f - beg))), (Z.ltb_spec (Z.of_nat (length (fhist f))) dist); try lia.
    + by exists f.
    + destruct (copy_window_spec (dist - (f_out f - beg)) len f Hf) as (f' & E & F); [lia|lia|lia|].
      replace (dist - (f_out f - beg) + (f_out f - beg)) with dist in * by lia. rewrite E. by exists f'.
  - assert (0 <= s_whave st) by (assert (Hlw := length_hist_of _ _ _ _ Hwin); lia).
    destruct (Z.ltb_spec (Z.of_nat (length (fhist f))) dist); [lia|].
    rewrite copy_direct_copyn by lia. destruct (out_run len dist f Hf) as (f' & -> & F); [lia..|]. by exists f'.
Qed.

(** [used] bits of the input consumed. *)
Record advance (f f' : fast) (used : Z) : Prop := {
  ad_inv : finv f';
  ad_stream : fstream f' = fstream f / 2 ^ used;
  ad_nbits : fnbits f' = fnbits f - used }.

Lemma advance_trans f f1 f2 a b : 0 <= a -> 0 <= b -> advance f f1 a -> advance f1 f2 b -> advance f f2 (a + b).
Proof.
  intros Ha Hb [_ E1 N1] [I2 E2 N2]. split; [done| |lia]. rewrite E2, E1, Z.div_div, Z.pow_add_r; (lia || done || apply Z.pow_nonzero || apply pow2_pos); lia.
Qed.
Lemma advance_out f f1 f2 a n h : advance f f1 a -> fout f1 f2 n h -> advance f f2 a.
Proof.
  intros [_ E1 N1] [I2 E2 E3 E4 _ _]. split; [done|..]; unfold fstream, fnbits, frem in *; by rewrite ?E2, ?E3, ?E4.
Qed.
Lemma advance_same f f1 : fsame f f1 -> fstream f1 = fstream f -> fnbits f1 = fnbits f -> advance f f1 0.
Proof. intros [I _ _] Es En. split; [done|by rewrite Z.div_1_r|lia]. Qed.
Lemma advance_drop f f1 n :
  fsame f f1 -> f_in f1 = f_in f -> f_bits f1 = f_bits f - n -> fstream f1 = fstream f / 2 ^ n -> advance f f1 n.
Proof. intros [I _ _] Ei Eb Es. split; [done..|]. unfold fnbits, frem. rewrite Ei, Eb. lia. Qed.

Lemma frem_bits f n : n <= fnbits f -> f_bits f < n -> 0 < frem f.
Proof. unfold fnbits. lia. Qed.

(** Reading [n] extra bits, of which at most [2] bytes are missing. *)
Definition fextra (n : Z) (f : fast) : option fast :=
  if f_bits f <? n then f ← pull ibuf f; if f_bits f <? n then pull ibuf f else Some f else Some f.

Lemma fextra_spec n f :
  finv f -> 0 <= n <= 13 -> n <= fnbits f ->
  exists f', fextra n f = Some f' /\ fsame f f' /\ fstream f' = fstream f /\ fnbits f' = fnbits f /\ n <= f_bits f'.
Proof.
  intros Hf Hn Hnb. destruct (fi_hold _ Hf) as [Hb _]. unfold fextra. destruct (Z.ltb_spec (f_bits f) n) as [Hlt|Hge].
  - destruct (pull_spec f Hf ltac:(lia) (frem_bits _ _ Hnb Hlt)) as (f1 & -> & S1 & I1 & B1 & E1). cbn [mbind option_bind].
    assert (N1 : fnbits f1 = fnbits f) by (unfold fnbits, frem in *; lia).
    destruct (Z.ltb_spec (f_bits f1) n) as [Hlt1|Hge1].
    + destruct (pull_spec f1 (fs_inv _ _ S1) ltac:(lia) (frem_bits f1 n ltac:(lia) Hlt1)) as (f2 & -> & S2 & I2 & B2 & E2).
      exists f2. split; [done|]. split; [by eapply fsame_trans|]. split; [congruence|].
      split; [unfold fnbits, frem in *; lia|lia].
    + exists f1. done.
  - exists f. done.
Qed.

(** The entries of the two levels. *)
Lemma link_tests o : 1 <= o <= 15 -> nz (o .& 16) = false /\ (o .& 64 =? 0) = true /\ o <> 0.
Proof.
  intros Ho. assert (Hen : In o ((fun i => 1 + Z.of_nat i) <$> seq 0 15)).
  { apply in_map_iff. exists (Z.to_nat (o - 1)). rewrite in_seq. split; lia. }
  cbn in Hen. repeat (destruct Hen as [<-|Hen]; [split; [reflexivity|split; [reflexivity|discriminate]]|]). done.
Qed.

Lemma hold_index h a b : 0 <= a -> 0 <= b -> (h mod 2 ^ (a + b)) / 2 ^ a = (h / 2 ^ a) mod 2 ^ b.
Proof.
  intros Ha Hb. assert (0 < 2 ^ a) by (apply pow2_pos; lia). rewrite mod_split by lia.
  rewrite (Z.mul_comm (2 ^ a)), Z.div_add, Z.div_small, Z.add_0_l by (lia || (apply Z.mod_pos_bound; lia)). done.
Qed.

(** What a distance code and its extra bits do. *)
Definition dist_effect (sy : symbol) (k s : Z) (hist : list Z) (len : Z) : effect :=
  match sy with
  | Base w e2 =>
      let dist := w + (s / 2 ^ k) mod 2 ^ e2 in
      if Z.of_nat (length hist) <? dist then Err else Emit (k + e2) (lz_copy hist dist (Z.to_nat len))
  | _ => Err
  end.

(** How an iteration ends for each effect, with at least [k] bits consumed. *)
Definition fast_post (f : fast) (k : Z) (x : effect) (r : fend * fast) : Prop :=
  exists used, k <= used /\ advance f r.2 used /\
    match x with
    | Emit u h => r.1 = Again /\ u = used /\ fhist r.2 = h /\ f_out f <= f_out r.2 <= f_out f + 258
    | Eob u => r.1 = Break TYPE None /\ u = used /\ fhist r.2 = fhist f /\ f_out r.2 = f_out f
    | Err => (exists msg, r.1 = Break BAD (Some msg)) /\ fhist r.2 = fhist f /\ f_out r.2 = f_out f
    end.

Lemma dist_terminal fuel len here f sy :
  finv f -> 1 <= bits here <= f_bits f -> f_bits f <= 32 -> bits here <= 15 ->
  classify (op here) (val here) = Some sy -> symbol_ok DISTS sy ->
  bits here + 13 <= fnbits f -> 3 <= len <= 258 -> f_out f + len < oend ->
  exists r, dodist ibuf st beg (S fuel) len here f = Some r /\
    fast_post f (bits here) (dist_effect sy (bits here) (fstream f) (fhist f) len) r.
Proof.
  intros Hf Hb H32 H15 Hc Hok Hnb Hl Ho. cbn [dodist].
  destruct (fdrop_spec (bits here) f Hf ltac:(lia) ltac:(lia)) as (f1 & -> & S1 & I1 & B1 & _ & E1). cbn [mbind option_bind].
  assert (A1 := advance_drop f f1 _ S1 I1 B1 E1). assert (H1 := fhist_same _ _ S1). assert (O1 := fs_out _ _ S1).
  assert (T := classify_tests _ _ _ Hc). destruct sy as [b| |w e2|]; cbn [symbol_ok] in Hok.
  - destruct Hok as [_ [?|[? _]]]; done.
  - done.
  - destruct Hok as [[? _]|(_ & Hw & He & Hmax)]; [done|]. destruct T as (T0 & -> & _ & T). injection T as -> T32 T64 _ ->.
    change (exists r, (f ← fextra e2 f1; e ← fbits e2 f; f ← fdrop e2 f; fast_match st beg len (u32 (val here + e)) f) = Some r /\
      fast_post f (bits here) (dist_effect (Base (val here) e2) (bits here) (fstream f) (fhist f) len) r).
    destruct (fextra_spec e2 f1 (fs_inv _ _ S1)) as (f2 & -> & S2 & E2 & N2 & B2);
      [lia|rewrite (ad_nbits _ _ _ A1); lia|]. cbn [mbind option_bind].
    rewrite fbits_spec by lia. cbn [mbind option_bind].
    assert (A2 := advance_same _ _ S2 E2 N2). assert (H2 := fhist_same _ _ S2).
    destruct (fi_hold _ (fs_inv _ _ S2)) as [Hb2 _].
    destruct (fdrop_spec e2 f2 (fs_inv _ _ S2) ltac:(lia) ltac:(lia)) as (f3 & -> & S3 & I3 & B3 & _ & E3). cbn [mbind option_bind].
    assert (A3 := advance_drop f2 f3 _ S3 I3 B3 E3).
    rewrite <- stream_low, E2, E1 by lia. assert (0 < 2 ^ e2) by (apply pow2_pos; lia).
    assert (Hm := Z.mod_pos_bound (fstream f / 2 ^ bits here) (2 ^ e2) ltac:(lia)).
    rewrite u32_small by lia. set (dist := val here + (fstream f / 2 ^ bits here) mod 2 ^ e2) in *.
    assert (Hh : fhist f3 = fhist f) by (rewrite (fhist_same _ _ S3); congruence).
    assert (Ho3 : f_out f3 = f_out f) by (rewrite (fs_out _ _ S3), (fs_out _ _ S2); congruence).
    assert (A : advance f f3 (bits here + e2)).
    { replace (bits here + e2) with (bits here + 0 + e2) by lia.
      eapply advance_trans; [lia|lia| |exact A3]. eapply advance_trans; [lia|lia|exact A1|exact A2]. }
    destruct (fast_match_spec len dist f3 (fs_inv _ _ S3)) as (f4 & -> & F4); [unfold dist in *; lia|lia|lia|].
    rewrite Hh in F4 |- *. eexists. split; [done|]. exists (bits here + e2). cbn [dist_effect fst snd]. fold dist. split; [lia|].
    destruct (Z.ltb_spec (Z.of_nat (length (fhist f))) dist).
    + subst f4. split; [done|]. split; [by eexists|]. split; [done|lia].
    + split; [by eapply advance_out|]. assert (Eo := fo_out _ _ _ _ F4). split; [done|]. split; [done|].
      split; [by apply (fo_hist _ _ _ _ F4)|lia].
  - destruct T as (T0 & r & T). injection T as -> T32 T64 _ _.
    replace (op here .& 64 =? 0) with false by (unfold nz in T64; destruct (op here .& 64 =? 0); done).
    eexists. split; [done|]. exists (bits here). split; [lia|]. split; [done|]. split; [by eexists|]. split; [done|]. done.
Qed.

Lemma dodist_spec len f :
  finv f -> 15 <= f_bits f -> 28 <= fnbits f -> 3 <= len <= 258 -> f_out f + len < oend ->
  exists here sy k r, code_at st (s_distcode st) (f_hold f mod 2 ^ s_distbits st) = Some here /\
    symbol_at DISTS dl (fstream f) = Some (sy, k) /\ dodist ibuf st beg 3 len here f = Some r /\
    fast_post f k (dist_effect sy k (fstream f) (fhist f) len) r.
Proof.
  intros Hf H15 Hnb Hl Ho. destruct (fi_hold _ Hf) as [Hb _]. assert (Hr := gt_root _ _ _ _ Gd).
  destruct (gt_lookup _ _ _ _ Gd (f_hold f)) as (o & v & k & sy & E & Hc & Hs).
  destruct (lookup_facts _ _ _ _ Gd _ _ _ _ E) as (Hk & sy' & Hc' & Hok & _). rewrite Hc in Hc'. injection Hc' as <-.
  assert (Hst : symbol_at DISTS dl (fstream f) = Some (sy, k)).
  { eapply (symbol_at_prefix DISTS dl (gt_syms _ _ _ _ Gd) (gt_ok _ _ _ _ Gd)); [exact Hs|]. symmetry. apply stream_low. lia. }
  destruct (lookup_first _ _ _ _ _ _ ltac:(instantiate (1 := s_distbits st); lia) E) as (here & Hh & Hcase).
  exists here, sy, k. destruct Hcase as [(Hlk & <- & <- & Ek)|(Hlk & Eb & Hop & e & He & <- & <- & Ek & He0)].
  - destruct (dist_terminal 2 len here f sy Hf) as (r & E2 & F2); [lia|lia|lia|done|done|lia|done|done|].
    rewrite Ek in F2. exists r. done.
  - destruct (link_tests _ Hop) as (L1 & L2 & L3).
    assert (Hdo : exists f1, fdrop (bits here) f = Some f1 /\ fsame f f1 /\ advance f f1 (bits here) /\
      f_bits f1 = f_bits f - bits here /\ f_hold f1 = f_hold f / 2 ^ bits here).
    { destruct (fdrop_spec (bits here) f Hf ltac:(lia) ltac:(lia)) as (f1 & E1 & S1 & I1 & B1 & D1 & T1).
      exists f1. split; [done|]. split; [done|]. split; [by apply advance_drop|done]. }
    destruct Hdo as (f1 & E1 & S1 & A1 & B1 & D1).
    destruct (dist_terminal 1 len e f1 sy (fs_inv _ _ S1)) as (r & E2 & used & F2 & F3 & F4);
      [lia|lia|lia|done|done|rewrite (ad_nbits _ _ _ A1); lia|done|rewrite (fs_out _ _ S1); done|].
    exists r. split; [done|]. split; [done|]. split.
    + cbn [dodist]. rewrite E1. cbn [mbind option_bind]. rewrite L1, L2, fbits_spec, D1, Eb by lia. cbn [mbind option_bind].
      rewrite <- hold_index, He by lia. cbn [mbind option_bind]. exact E2.
    + exists (bits here + used). split; [lia|]. split; [eapply advance_trans; [lia|lia|exact A1|exact F3]|].
      rewrite (fhist_same _ _ S1), (fs_out _ _ S1), (ad_stream _ _ _ A1) in F4.
      unfold dist_effect in *. destruct sy as [b| |w e2|]; try done.
      rewrite Z.div_div, <- Z.pow_add_r, Eb, Ek in F4 by (lia || (apply Z.pow_nonzero; lia) || (apply pow2_pos; lia)).
      destruct (Z.of_nat (length (fhist f)) <? _); [done|]. destruct F4 as (F4 & F5 & F6). split; [done|]. split; [lia|done].
Qed.

Definition shift_effect (a : Z) (x : effect) : effect :=
  match x with Emit u h => Emit (a + u) h | Eob u => Eob (a + u) | Err => Err end.

(** What a literal/length code does. *)
Definition len_effect (sy : symbol) (k s : Z) (hist : list Z) : effect :=
  match sy with
  | Literal b => Emit k (hist ++ [b])
  | EndBlock => Eob k
  | Base v e =>
      match symbol_at DISTS dl (s / 2 ^ (k + e)) with
      | Some (sy2, k2) =>
          shift_effect (k + e) (dist_effect sy2 k2 (s / 2 ^ (k + e)) hist (v + (s / 2 ^ k) mod 2 ^ e))
      | None => Err
      end
  | Invalid => Err
  end.

Lemma lz_step_effect s hist sy k :
  symbol_at LENS ll s = Some (sy, k) -> lz_step ll dl s hist = len_effect sy k s hist.
Proof.
  intros H. unfold lz_step. rewrite H. destruct sy as [b| |v e|]; try done. cbn [len_effect].
  destruct (symbol_at_facts LENS ll (gt_syms _ _ _ _ Gl) _ _ _ H) as (Hk & Hok). cbn in Hok.
  assert (0 <= e) by (destruct Hok as [Hok|Hok]; lia).
  destruct (symbol_at DISTS dl (s / 2 ^ (k + e))) as [[sy2 k2]|] eqn:E2; [|done].
  destruct (symbol_at_facts DISTS dl (gt_syms _ _ _ _ Gd) _ _ _ E2) as (Hk2 & _).
  destruct sy2 as [b| |w e2|]; try done. cbn [dist_effect].
  rewrite Z.div_div, <- Z.pow_add_r by (lia || (apply Z.pow_nonzero; lia) || (apply pow2_pos; lia)).
  destruct (Z.of_nat (length hist) <? _); [done|]. cbn [shift_effect]. f_equal. lia.
Qed.

(** The extra bits of a length. *)
Lemma len_extra v e f :
  finv f -> 0 <= e <= 5 -> 0 <= v <= 258 -> e <= fnbits f ->
  exists f', (if nz e then
                f ← (if f_bits f <? e then pull ibuf f else Some f);
                x ← fbits e f; f ← fdrop e f; Some (u32 (v + x), f)
              else Some (v, f)) = Some (v + fstream f mod 2 ^ e, f') /\
    advance f f' e /\ fhist f' = fhist f /\ f_out f' = f_out f.
Proof.
  intros Hf He Hv Hnb. destruct (nz e) eqn:E0.
  2:{ apply nz_false in E0 as ->. exists f. rewrite Z.mod_1_r, Z.add_0_r. split; [done|].
      split; [|done]. split; [done|by rewrite Z.div_1_r|lia]. }
  destruct (fi_hold _ Hf) as [Hb _].
  assert (Hp : exists f1, (if f_bits f <? e then pull ibuf f else Some f) = Some f1 /\ fsame f f1 /\
    fstream f1 = fstream f /\ fnbits f1 = fnbits f /\ e <= f_bits f1).
  { destruct (Z.ltb_spec (f_bits f) e) as [Hlt|Hge]; [|by exists f].
    destruct (pull_spec f Hf ltac:(lia) (frem_bits _ _ Hnb Hlt)) as (f1 & -> & S1 & I1 & B1 & E1).
    exists f1. split; [done|]. split; [done|]. split; [done|]. split; [unfold fnbits, frem in *; lia|lia]. }
  destruct Hp as (f1 & -> & S1 & E1 & N1 & B1). cbn [mbind option_bind].
  rewrite fbits_spec by lia. cbn [mbind option_bind].
  destruct (fdrop_spec e f1 (fs_inv _ _ S1) ltac:(lia) ltac:(lia)) as (f2 & -> & S2 & I2 & B2 & _ & E2). cbn [mbind option_bind].
  rewrite <- stream_low, E1 by lia. assert (0 < 2 ^ e) by (apply pow2_pos; lia). assert (2 ^ e <= 2 ^ 5) by (apply Z.pow_le_mono_r; lia).
  assert (Hm := Z.mod_pos_bound (fstream f) (2 ^ e) ltac:(lia)). rewrite u32_small by lia.
  exists f2. split; [done|]. split; [|split; [by rewrite (fhist_same _ _ S2), (fhist_same _ _ S1)|by rewrite (fs_out _ _ S2), (fs_out _ _ S1)]].
  apply (advance_trans f f1 f2 0 e); [lia|lia|by apply advance_same|by apply advance_drop].
Qed.

Lemma len_terminal fuel here f sy :
  finv f -> 1 <= bits here <= f_bits f -> f_bits f <= 32 -> bits here <= 15 ->
  classify (op here) (val here) = Some sy -> symbol_ok LENS sy ->
  bits here + 33 <= fnbits f -> f_out f + 258 < oend ->
  exists r, dolen ibuf st beg (S fuel) here f = Some r /\
    fast_post f (bits here) (len_effect sy (bits here) (fstream f) (fhist f)) r.
Proof.
  intros Hf Hb H32 H15 Hc Hok Hnb Ho. cbn [dolen].
  destruct (fdrop_spec (bits here) f Hf ltac:(lia) ltac:(lia)) as (f1 & -> & S1 & I1 & B1 & _ & E1). cbn [mbind option_bind].
  assert (A1 := advance_drop f f1 _ S1 I1 B1 E1). assert (H1 := fhist_same _ _ S1). assert (O1 := fs_out _ _ S1).
  assert (T := classify_tests _ _ _ Hc). destruct sy as [b| |v e|]; cbn [symbol_ok] in Hok.
  - destruct T as [T0 ->]. rewrite T0. cbn [Z.eqb].
    destruct (fput_spec (u8 (val here)) f1 (fs_inv _ _ S1)) as (f2 & -> & F2);
      [lia|rewrite u8_small by lia; unfold byte_ok; lia|]. cbn [mbind option_bind].
    eexists. split; [done|]. exists (bits here). split; [lia|]. split; [by eapply advance_out|]. cbn [len_effect fst snd].
    assert (Eo := fo_out _ _ _ _ F2). split; [done|]. split; [done|].
    split; [rewrite (fo_hist _ _ _ _ F2), H1, u8_small by lia; done|lia].
  - destruct T as [T0 T]. injection T as T16 T32 T64 _ _. destruct (Z.eqb_spec (op here) 0); [lia|]. rewrite T16.
    replace (op here .& 64 =? 0) with false by (unfold nz in T64; destruct (op here .& 64 =? 0); done). rewrite T32.
    eexists. split; [done|]. exists (bits here). split; [lia|]. split; [done|]. done.
  - destruct Hok as [(_ & Hv & He & Hmax)|[? _]]; [|done]. destruct T as (T0 & -> & _ & T). injection T as T16 T32 T64 _ T15.
    destruct (Z.eqb_spec (op here) 0); [lia|]. rewrite T16, T15.
    assert (0 < 2 ^ e) by (apply pow2_pos; lia).
    destruct (len_extra (val here) e f1 (fs_inv _ _ S1)) as (f2 & -> & A2 & H2 & O2);
      [lia|lia|rewrite (ad_nbits _ _ _ A1); lia|]. cbn [mbind option_bind].
    assert (A12 : advance f f2 (bits here + e)) by (eapply advance_trans; [lia|lia|exact A1|exact A2]).
    assert (N12 := ad_nbits _ _ _ A12).
    destruct (refill_spec f2 (ad_inv _ _ _ A2)) as (f3 & -> & S3 & B3 & E3 & C3); [unfold fnbits in N12, Hnb; lia|].
    cbn [mbind option_bind]. assert (N3 : fnbits f3 = fnbits f2).
    { destruct C3 as [(_ & ? & ?)|(_ & ->)]; [unfold fnbits, frem; lia|done]. }
    rewrite fbits_spec by (pose proof (gt_root _ _ _ _ Gd); lia). cbn [mbind option_bind].
    assert (Hm := Z.mod_pos_bound (fstream f1) (2 ^ e) ltac:(lia)).
    destruct (dodist_spec (val here + fstream f1 mod 2 ^ e) f3 (fs_inv _ _ S3)) as (hd & sy2 & k2 & r & -> & Hs2 & Ed & F);
      [lia|lia|lia|rewrite (fs_out _ _ S3), O2, O1; lia|]. cbn [mbind option_bind].
    exists r. split; [done|]. cbn [len_effect].
    rewrite E3, (ad_stream _ _ _ A12) in Hs2, F. rewrite Hs2.
    rewrite E1, (fhist_same _ _ S3), H2, H1 in F.
    destruct F as (used & Fk & Fa & Fx). assert (k2pos : 0 <= used).
    { apply (symbol_at_facts DISTS dl (gt_syms _ _ _ _ Gd)) in Hs2 as [? _]. lia. }
    exists (bits here + e + used). split; [lia|]. split.
    { eapply advance_trans; [lia|lia| |exact Fa]. replace (bits here + e) with (bits here + e + 0) by lia.
      eapply advance_trans; [lia|lia|exact A12|by apply advance_same]. }
    rewrite (fs_out _ _ S3), O2, O1, (fhist_same _ _ S3), H2, H1 in Fx.
    destruct (dist_effect sy2 k2 _ _ _); cbn [shift_effect]; try done;
      (destruct Fx as (? & ? & ? & ?); split; [done|]; split; [lia|]; done).
  - destruct T as (T0 & r & T). injection T as T16 T32 T64 _ _. destruct (Z.eqb_spec (op here) 0); [lia|]. rewrite T16.
    replace (op here .& 64 =? 0) with false by (unfold nz in T64; destruct (op here .& 64 =? 0); done). rewrite T32.
    eexists. split; [done|]. exists (bits here). split; [lia|]. split; [done|]. split; [by eexists|]. done.
Qed.

Lemma dolen_spec f :
  finv f -> 15 <= f_bits f -> 48 <= fnbits f -> f_out f + 258 < oend ->
  exists here sy k r, code_at st (s_lencode st) (f_hold f mod 2 ^ s_lenbits st) = Some here /\
    symbol_at LENS ll (fstream f) = Some (sy, k) /\ dolen ibuf st beg 3 here f = Some r /\
    fast_post f k (len_effect sy k (fstream f) (fhist f)) r.
Proof.
  intros Hf H15 Hnb Ho. destruct (fi_hold _ Hf) as [Hb _]. assert (Hr := gt_root _ _ _ _ Gl).
  destruct (gt_lookup _ _ _ _ Gl (f_hold f)) as (o & v & k & sy & E & Hc & Hs).
  destruct (lookup_facts _ _ _ _ Gl _ _ _ _ E) as (Hk & sy' & Hc' & Hok & _). rewrite Hc in Hc'. injection Hc' as <-.
  assert (Hst : symbol_at LENS ll (fstream f) = Some (sy, k)).
  { eapply (symbol_at_prefix LENS ll (gt_syms _ _ _ _ Gl) (gt_ok _ _ _ _ Gl)); [exact Hs|]. symmetry. apply stream_low. lia. }
  destruct (lookup_first _ _ _ _ _ _ ltac:(instantiate (1 := s_lenbits st); lia) E) as (here & Hh & Hcase).
  exists here, sy, k. destruct Hcase as [(Hlk & <- & <- & Ek)|(Hlk & Eb & Hop & e & He & <- & <- & Ek & He0)].
  - destruct (len_terminal 2 here f sy Hf) as (r & E2 & F2); [lia|lia|lia|done|done|lia|done|].
    rewrite Ek in F2. exists r. done.
  - destruct (link_tests _ Hop) as (L1 & L2 & L3).
    destruct (fdrop_spec (bits here) f Hf ltac:(lia) ltac:(lia)) as (f1 & E1 & S1 & I1 & B1 & D1 & T1).
    assert (A1 := advance_drop f f1 _ S1 I1 B1 T1).
    destruct (len_terminal 1 e f1 sy (fs_inv _ _ S1)) as (r & E2 & used & F2 & F3 & F4);
      [lia|lia|lia|done|done|rewrite (ad_nbits _ _ _ A1); lia|rewrite (fs_out _ _ S1); done|].
    exists r. split; [done|]. split; [done|]. split.
    + cbn [dolen]. rewrite E1. cbn [mbind option_bind]. destruct (Z.eqb_spec (op here) 0); [lia|].
      rewrite L1, L2, fbits_spec, D1, Eb by lia. cbn [mbind option_bind].
      rewrite <- hold_index, He by lia. cbn [mbind option_bind]. exact E2.
    + exists (bits here + used). split; [lia|]. split; [eapply advance_trans; [lia|lia|exact A1|exact F3]|].
      rewrite (fhist_same _ _ S1), (fs_out _ _ S1), T1 in F4. rewrite Eb in F4 |- *.
      assert (Esh : len_effect sy k (fstream f) (fhist f) =
        shift_effect (s_lenbits st) (len_effect sy (bits e) (fstream f / 2 ^ s_lenbits st) (fhist f))).
      { unfold len_effect. destruct sy as [b| |v e0|]; cbn [shift_effect]; try done; try (f_equal; lia).
        cbn in Hok. assert (0 <= e0) by (destruct Hok as [Hok|Hok]; lia).
        rewrite !Z.div_div, <- !Z.pow_add_r by (lia || (apply Z.pow_nonzero; lia) || (apply pow2_pos; lia)).
        replace (s_lenbits st + (bits e + e0)) with (k + e0) by lia. rewrite Ek.
        destruct (symbol_at DISTS dl (fstream f / 2 ^ (k + e0))) as [[sy2 k2]|]; [|done].
        destruct (dist_effect _ _ _ _ _); cbn [shift_effect]; try done; f_equal; lia. }
      rewrite Esh. destruct (len_effect sy (bits e) _ _); cbn [shift_effect]; try done;
        (destruct F4 as (? & ? & ? & ?); split; [done|]; split; [lia|]; done).
Qed.

Lemma fast_step_spec f :
  finv f -> 6 <= frem f -> f_out f + 258 < oend ->
  exists sy k r, symbol_at LENS ll (fstream f) = Some (sy, k) /\ fast_step ibuf st beg f = Some r /\
    fast_post f k (lz_step ll dl (fstream f) (fhist f)) r.
Proof.
  intros Hf H6 Ho. destruct (fi_hold _ Hf) as [Hb _]. unfold fast_step.
  destruct (refill_spec f Hf ltac:(lia)) as (f1 & -> & S1 & B1 & E1 & C1). cbn [mbind option_bind].
  assert (N1 : fnbits f1 = fnbits f).
  { destruct C1 as [(_ & ? & ?)|(_ & ->)]; [unfold fnbits, frem; lia|done]. }
  rewrite fbits_spec by (pose proof (gt_root _ _ _ _ Gl); lia). cbn [mbind option_bind].
  destruct (dolen_spec f1 (fs_inv _ _ S1) B1) as (here & sy & k & r & -> & Hs & Ed & used & Fk & Fa & Fx);
    [unfold fnbits in *; lia|rewrite (fs_out _ _ S1); done|]. cbn [mbind option_bind].
  exists sy, k, r. rewrite E1 in Hs, Fx. split; [done|]. split; [done|]. exists used. split; [done|]. split.
  - apply (advance_trans f f1 r.2 0 used); [lia| |by apply advance_same|done].
    apply (symbol_at_facts LENS ll (gt_syms _ _ _ _ Gl)) in Hs as [? _]. lia.
  - rewrite (fhist_same _ _ S1), (fs_out _ _ S1) in Fx. rewrite (lz_step_effect _ _ _ _ Hs). exact Fx.
Qed.

(** ** The loop *)

(** After some literals and matches the loop ends: at its condition, at the end of the block, or at an
    error. *)
Definition loop_post (f : fast) (r : fend * fast) : Prop :=
  exists used hist', lz_runs ll dl (fstream f) (fhist f) used hist' /\ fhist r.2 = hist' /\ f_out f <= f_out r.2 /\
    match r.1 with
    | Again => advance f r.2 used
    | Break TYPE None => exists u, lz_step ll dl (fstream f / 2 ^ used) hist' = Eob u /\ advance f r.2 (used + u)
    | Break BAD (Some _) => lz_step ll dl (fstream f / 2 ^ used) hist' = Err /\ exists u, used <= u /\ advance f r.2 u
    | _ => False
    end.

Lemma lz_step_used s h u E : E = Eob u -> lz_step ll dl s h = E -> 0 <= u.
Proof.
  intros -> H. unfold lz_step in H. destruct (symbol_at LENS ll s) as [[sy k]|] eqn:Es; [|done].
  destruct (symbol_at_facts LENS ll (gt_syms _ _ _ _ Gl) _ _ _ Es) as [Hk _].
  destruct sy as [b| |v e|]; try done; [injection H as <-; lia|].
  destruct (symbol_at DISTS dl _) as [[[b| |w e2|] k2]|]; try done. by destruct (_ <? _).
Qed.

Lemma advance_le f f' u : 0 <= u -> advance f f' u -> fnbits f' <= fnbits f.
Proof. intros Hu [_ _ E]. lia. Qed.

Lemma fnbits_nonneg f : finv f -> 0 <= fnbits f.
Proof. intros [Hi [Hb _] _ _ _]. unfold fnbits, frem. lia. Qed.

Lemma loop_post_stream f r :
  loop_post f r -> fstream r.2 = fstream f / 2 ^ (fnbits f - fnbits r.2).
Proof.
  intros (used & h & _ & _ & _ & He). assert (Ha : forall u, advance f r.2 u -> fstream r.2 = fstream f / 2 ^ (fnbits f - fnbits r.2)).
  { intros u [_ Es En]. rewrite Es, En. do 2 f_equal. lia. }
  destruct r.1 as [|m msg]; [by eapply Ha|]. destruct m, msg as [msg|]; try done.
  - destruct He as (u & _ & He). by eapply Ha.
  - destruct He as (_ & u & _ & He). by eapply Ha.
Qed.

Lemma fast_loop_spec fuel f :
  finv f -> 6 <= frem f -> f_out f + 258 < oend -> fnbits f < Z.of_nat fuel ->
  exists r sy k, fast_loop ibuf st beg fuel (iend - 6) (oend - 258) f = Some r /\ finv r.2 /\ loop_post f r /\
    symbol_at LENS ll (fstream f) = Some (sy, k) /\ fnbits r.2 <= fnbits f - k.
Proof.
  revert f. induction fuel as [|fuel IH]; intros f Hf H6 Ho Hfu; [pose proof (fnbits_nonneg f Hf); lia|]. cbn [fast_loop].
  destruct (fast_step_spec f Hf H6 Ho) as (sy & k & [e f1] & Hs & -> & used & Hk & Ha & Hx). cbn [mbind option_bind fst snd] in *.
  destruct (symbol_at_facts LENS ll (gt_syms _ _ _ _ Gl) _ _ _ Hs) as [Hk1 _]. assert (Hn := ad_nbits _ _ _ Ha).
  destruct (lz_step ll dl (fstream f) (fhist f)) as [u h|u|] eqn:El.
  - destruct Hx as (-> & -> & Hh & Hout).
    destruct ((f_in f1 <? iend - 6) && (f_out f1 <? oend - 258)) eqn:Econd.
    + apply andb_true_iff in Econd as [E1 E2].
      destruct (IH f1 (ad_inv _ _ _ Ha)) as (r & sy1 & k1 & -> & Hr1 & Hr2 & Hr3 & Hr4); [unfold frem; lia|lia|lia|].
      exists r, sy, k. split; [done|]. split; [done|]. split; [|split; [done|]].
      2:{ destruct (symbol_at_facts LENS ll (gt_syms _ _ _ _ Gl) _ _ _ Hr3) as [? _]. lia. }
      destruct Hr2 as (u2 & h2 & Hruns & Hh2 & Ho2 & Hend). rewrite (ad_stream _ _ _ Ha), Hh in Hruns.
      assert (Hu2 := lz_runs_nonneg _ _ _ _ _ _ Hruns).
      exists (used + u2), h2. split; [by eapply runs_step; [done|lia|]|]. split; [done|]. split; [lia|].
      rewrite (ad_stream _ _ _ Ha), Z.div_div, <- Z.pow_add_r in Hend by (lia || (apply Z.pow_nonzero; lia) || (apply pow2_pos; lia)).
      destruct r.1 as [|m msg]; [by eapply advance_trans; [lia|lia|done|done]|].
      destruct m, msg as [msg|]; try done.
      * destruct Hend as (u3 & E3 & A3). exists u3. split; [done|]. rewrite <- Z.add_assoc.
        assert (H3 := lz_step_used _ _ _ _ eq_refl E3). eapply advance_trans; [lia|lia|done|done].
      * destruct Hend as (E3 & u3 & H3 & A3). split; [done|]. exists (used + u3). split; [lia|]. eapply advance_trans; [lia|lia|done|done].
    + exists (Again, f1), sy, k. split; [done|]. split; [by apply Ha|]. split; [|split; [done|simpl; lia]].
      exists used, h. split.
      { rewrite <- (Z.add_0_r used). eapply runs_step; [done|lia|apply runs_refl]. }
      split; [done|]. split; [simpl; lia|done].
  - destruct Hx as (-> & -> & Hh & Hout). exists (Break TYPE None, f1), sy, k. split; [done|]. split; [by apply Ha|].
    split; [|split; [done|simpl; lia]]. exists 0, (fhist f). split; [apply runs_refl|]. split; [done|]. split; [simpl; lia|].
    exists used. rewrite Z.div_1_r. split; [done|]. by rewrite Z.add_0_l.
  - destruct Hx as ((msg & ->) & Hh & Hout). exists (Break BAD (Some msg), f1), sy, k. split; [done|]. split; [by apply Ha|].
    split; [|split; [done|simpl; lia]]. exists 0, (fhist f). split; [apply runs_refl|]. split; [done|]. split; [simpl; lia|].
    rewrite Z.div_1_r. split; [done|]. exists used. split; [lia|done].
Qed.
End fast_proof.

(** ** The function *)

(** Bytes of the input that follow [n] others. *)
Lemma le_bytes_drop buf next have q :
  in_ok buf next have -> 0 <= q <= have -> le (bytes_at buf next have) / 2 ^ (8 * q) = le (bytes_at buf (next + q) (have - q)).
Proof.
  intros (Hn & Hh & Hl & Hby) Hq.
  assert (E : bytes_at buf next have = bytes_at buf next q ++ bytes_at buf (next + q) (have - q)).
  { unfold bytes_at. replace (Z.to_nat have) with (Z.to_nat q + Z.to_nat (have - q))%nat by lia.
    rewrite <- take_take_drop. f_equal. rewrite drop_drop. do 2 f_equal. lia. }
  assert (Hlen : Z.of_nat (length (bytes_at buf next q)) = q) by (unfold bytes_at; rewrite length_take, length_drop; lia).
  assert (Hr := le_range (bytes_at buf next q) ltac:(by apply Forall_take, Forall_drop)). rewrite Hlen in Hr.
  rewrite E, le_app, Hlen. assert (0 < 2 ^ (8 * q)) by (apply pow2_pos; lia).
  rewrite Z.mul_comm, Z.div_add, Z.div_small by lia. lia.
Qed.

(** Returning the unused bytes of [hold] to the input does not change the stream. *)
Lemma return_bytes buf next have hold bits next' have' hold' bits' :
  in_ok buf next have -> hold_ok hold bits -> in_ok buf next' have' -> hold_ok hold' bits' ->
  next' + have' = next + have -> bits' + 8 * have' <= 8 * have + 7 ->
  stream buf next' have' hold' bits' = stream buf next have hold bits / 2 ^ (bits + 8 * have - (bits' + 8 * have')) ->
  bits' + 8 * have' <= bits + 8 * have ->
  let len := bits' / 8 in
  in_ok buf (next' - len) (have' + len) /\ hold_ok (hold' mod 2 ^ (bits' mod 8)) (bits' mod 8) /\
  stream buf (next' - len) (have' + len) (hold' mod 2 ^ (bits' mod 8)) (bits' mod 8) = stream buf next' have' hold' bits'.
Proof.
  intros Hin [Hb Hh] Hin' [Hb' Hh'] Hend Hle Hst Hnb len.
  assert (Hm := Z.mod_pos_bound bits' 8 ltac:(lia)). assert (Hdm := Z.div_mod bits' 8 ltac:(lia)).
  assert (Hq : have' + len <= have) by (unfold len in *; lia).
  assert (Hi2 : in_ok buf (next' - len) (have' + len)).
  { destruct Hin as (? & ? & ? & ?), Hin' as (? & ? & ? & ?). unfold in_ok. repeat split; (done || lia). }
  split; [done|]. split.
  { split; [lia|]. apply Z.mod_pos_bound, pow2_pos. lia. }
  set (T := stream buf next have hold bits) in *. set (S' := stream buf next' have' hold' bits') in *.
  assert (HT : T / 2 ^ bits = le (bytes_at buf next have)).
  { unfold T, stream. rewrite Z.mul_comm, Z.div_add, Z.div_small by lia. lia. }
  set (q := have - (have' + len)). assert (0 <= q) by lia. assert (q <= have) by (destruct Hi2 as (? & ? & ?); lia).
  assert (Hhigh : S' / 2 ^ (bits' mod 8) = le (bytes_at buf (next' - len) (have' + len))).
  { rewrite Hst, Z.div_div, <- Z.pow_add_r by (lia || (apply Z.pow_nonzero; lia) || (apply pow2_pos; lia)).
    replace (bits + 8 * have - (bits' + 8 * have') + bits' mod 8) with (bits + 8 * q) by (unfold q, len; lia).
    rewrite Z.pow_add_r, <- Z.div_div, HT by (lia || (apply Z.pow_nonzero; lia) || (apply pow2_pos; lia)).
    rewrite le_bytes_drop by (done || (unfold q in *; lia)). f_equal. f_equal; unfold q; lia. }
  assert (Hlow : S' mod 2 ^ (bits' mod 8) = hold' mod 2 ^ (bits' mod 8)).
  { unfold S', stream. replace (2 ^ bits') with (2 ^ (bits' - bits' mod 8) * 2 ^ (bits' mod 8)).
    - rewrite <- (Z_mod_plus_full hold' (2 ^ (bits' - bits' mod 8) * le (bytes_at buf next' have')) (2 ^ (bits' mod 8))). f_equal. lia.
    - rewrite <- Z.pow_add_r by lia. f_equal. lia. }
  unfold stream. rewrite <- Hhigh, <- Hlow. assert (0 < 2 ^ (bits' mod 8)) by (apply pow2_pos; lia).
  rewrite (Z.div_mod S' (2 ^ (bits' mod 8))) at 3 by lia. lia.
Qed.

(** What the caller provides. *)
Record fast_pre (strm : z_stream) (st : inflate_state) (start : Z) (ll dl : list Z) : Prop := {
  fp_in : in_ok (in_buf strm) (z_next_in strm) (z_avail_in strm);
  fp_have : 6 <= z_avail_in strm;
  fp_hold : hold_ok (s_hold st) (s_bits st);
  fp_bits : forall sy k, symbol_at LENS ll (stream (in_buf strm) (z_next_in strm) (z_avail_in strm) (s_hold st) (s_bits st)) = Some (sy, k) ->
    s_bits st - 8 < k;
  fp_obuf : z_out strm = Some (out_buf strm);
  fp_out : 258 <= z_avail_out strm <= start /\ start < 2 ^ 32;
  fp_oend : 0 <= z_next_out strm - (start - z_avail_out strm) /\ z_next_out strm + z_avail_out strm <= Z.of_nat (length (out_buf strm));
  fp_obytes : Forall byte_ok (out_buf strm);
  fp_win : win_ok (s_wsize st) (s_whave st) (s_wnext st) (s_window st);
  fp_len : good_table LENS (code_at st (s_lencode st)) (s_lenbits st) ll;
  fp_dist : good_table DISTS (code_at st (s_distcode st)) (s_distbits st) dl;
  fp_sane : nz (s_sane st) = true }.

Definition st_hist (st : inflate_state) : list Z := hist_of (s_wsize st) (s_whave st) (s_wnext st) (s_window st).

(** The bytes a match can refer to: the window, then what was written since [start]. *)
Definition strm_hist (strm : z_stream) (st : inflate_state) (start : Z) : list Z :=
  st_hist st ++ bytes_at (out_buf strm) (z_next_out strm - (start - z_avail_out strm)) (start - z_avail_out strm).

Definition strm_stream (strm : z_stream) (st : inflate_state) : Z :=
  stream (in_buf strm) (z_next_in strm) (z_avail_in strm) (s_hold st) (s_bits st).

(** What [inflate_fast] does. *)
Record fast_done (strm : z_stream) (st : inflate_state) (start : Z) (ll dl : list Z) (strm' : z_stream) (st' : inflate_state) : Prop := {
  fd_strm : exists msg, strm' = strm <| z_next_in := z_next_in strm' |> <| z_avail_in := z_avail_in strm' |>
    <| z_next_out := z_next_out strm' |> <| z_avail_out := z_avail_out strm' |> <| z_out := z_out strm' |> <| z_msg := msg |>;
  fd_st : exists m, st' = st <| s_mode := m |> <| s_hold := s_hold st' |> <| s_bits := s_bits st' |> /\
    exists used hist', lz_runs ll dl (strm_stream strm st) (strm_hist strm st start) used hist' /\
      strm_hist strm' st' start = hist' /\
      (m = s_mode st /\ strm_stream strm' st' = strm_stream strm st / 2 ^ used /\
         8 * z_avail_in strm' + s_bits st' = 8 * z_avail_in strm + s_bits st - used \/
       m = TYPE /\ (exists u, lz_step ll dl (strm_stream strm st / 2 ^ used) hist' = Eob u /\
         strm_stream strm' st' = strm_stream strm st / 2 ^ (used + u) /\
         8 * z_avail_in strm' + s_bits st' = 8 * z_avail_in strm + s_bits st - (used + u)) \/
       m = BAD /\ lz_step ll dl (strm_stream strm st / 2 ^ used) hist' = Err);
  fd_in : in_ok (in_buf strm) (z_next_in strm') (z_avail_in strm');
  fd_iend : z_next_in strm' + z_avail_in strm' = z_next_in strm + z_avail_in strm;
  fd_have : z_avail_in strm' <= z_avail_in strm;
  fd_hold : hold_ok (s_hold st') (s_bits st') /\ s_bits st' < 8;
  fd_less : 8 * z_avail_in strm' + s_bits st' < 8 * z_avail_in strm + s_bits st;
  fd_obuf : z_out strm' = Some (out_buf strm');
  fd_oend : z_next_out strm' + z_avail_out strm' = z_next_out strm + z_avail_out strm;
  fd_left : 0 <= z_avail_out strm' <= z_avail_out strm;
  fd_olen : length (out_buf strm') = length (out_buf strm);
  fd_obytes : Forall byte_ok (out_buf strm') }.

Lemma inflate_fast_spec strm st start ll dl :
  fast_pre strm st start ll dl ->
  exists strm' st', inflate_fast strm st start = Some (strm', st') /\ fast_done strm st start ll dl strm' st'.
Proof.
  intros [Pin Phave Phold Pbits Pobuf [Pout Pstart] [Poe1 Poe2] Poby Pwin Plen Pdist Psane].
  set (ni := z_next_in strm) in *. set (ai := z_avail_in strm) in *. set (no := z_next_out strm) in *. set (ao := z_avail_out strm) in *.
  set (ib := in_buf strm) in *. set (ob := out_buf strm) in *.
  assert (Hib : ni + ai <= Z.of_nat (length ib) < 2 ^ 32) by (destruct Pin as (? & ? & ? & ?); lia).
  assert (Hni : 0 <= ni) by (destruct Pin as (? & ? & ? & ?); lia).
  assert (Hiby : Forall byte_ok ib) by (by destruct Pin as (? & ? & ? & ?)).
  set (beg := no - 1 - (start - ao)). set (f0 := Fast (ni - 1) (no - 1) (s_hold st) (s_bits st) ob).
  assert (Hf0 : finv beg (ni + ai) (no + ao) (length ob) f0).
  { destruct Pin as (? & ? & ? & ?). split; unfold f0; cbn [f_in f_out f_hold f_bits f_obuf]; try done; unfold beg; lia. }
  assert (Hfr : frem (ni + ai) f0 = ai) by (unfold frem, f0; cbn [f_in]; lia).
  assert (Hnb : fnbits (ni + ai) f0 = s_bits st + 8 * ai) by (unfold fnbits; rewrite Hfr; done).
  destruct (fast_loop_spec ib st beg (ni + ai) (no + ao) (length ob) ll dl Hib Hiby Pwin Plen Pdist Psane
    ltac:(unfold beg; lia) ltac:(lia) ltac:(unfold beg; lia) (fast_fuel ai (s_bits st)) f0 Hf0
    ltac:(lia) ltac:(unfold f0; cbn [f_out]; lia) ltac:(rewrite Hnb; unfold fast_fuel; destruct Phold; lia))
    as ([e f'] & sy & k & El & Hf' & Hpost & Hsy & Hk). cbn [snd fst] in *.
  assert (Est : fstream ib (ni + ai) f0 = stream ib ni ai (s_hold st) (s_bits st)).
  { unfold fstream. rewrite Hfr. unfold f0; cbn [f_in f_hold f_bits]. f_equal. lia. }
  assert (Hk8 : s_bits st - 8 < k) by (eapply Pbits; rewrite <- Est; exact Hsy).
  destruct (symbol_at_facts LENS ll (gt_syms _ _ _ _ Plen) _ _ _ Hsy) as [Hk1 _].
  assert (Hn' : f_bits f' + 8 * frem (ni + ai) f' <= 8 * ai + 7) by (unfold fnbits in *; lia).
  assert (Hfs : fstream ib (ni + ai) f' = stream ib ni ai (s_hold st) (s_bits st) / 2 ^ (s_bits st + 8 * ai - (f_bits f' + 8 * frem (ni + ai) f'))).
  { rewrite <- Est. assert (Hps := Hpost). apply loop_post_stream in Hps. cbn [snd] in Hps. by rewrite Hps, Hnb. }
  assert (Hin' : in_ok ib (f_in f' + 1) (frem (ni + ai) f')) by (by eapply finv_in).
  destruct (return_bytes ib ni ai (s_hold st) (s_bits st) (f_in f' + 1) (frem (ni + ai) f') (f_hold f') (f_bits f') Pin Phold Hin'
    (fi_hold _ _ _ _ _ Hf') ltac:(unfold frem; lia) Hn' Hfs ltac:(unfold fnbits in *; lia)) as (Rin & Rhold & Rst).
  destruct (fi_hold _ _ _ _ _ Hf') as [Hb' Hh']. destruct (fi_out _ _ _ _ _ Hf') as [Ho1 Ho2].
  assert (Hm := Z.mod_pos_bound (f_bits f') 8 ltac:(lia)). assert (Hdm := Z.div_mod (f_bits f') 8 ltac:(lia)).
  set (len := f_bits f' / 8) in *.
  unfold inflate_fast. fold ni ai no ao ib ob. unfold OFF. rewrite (u32_small (ai - 5)), (u32_small (start - ao)), (u32_small (ao - 257)) by lia. fold beg.
  replace (ni - 1 + (ai - 5)) with (ni + ai - 6) by lia. replace (no - 1 + (ao - 257)) with (no + ao - 258) by lia.
  fold f0. rewrite El. cbn [mbind option_bind].
  rewrite Z.shiftr_div_pow2 by lia. change (2 ^ 3) with 8. fold len.
  rewrite Z.shiftl_mul_pow2 by lia. change (2 ^ 3) with 8. replace (f_bits f' - len * 8) with (f_bits f' mod 8) by lia.
  rewrite (u32_small (f_bits f' mod 8)) by lia. destruct (shl32_1 (f_bits f' mod 8) ltac:(lia)) as [-> E2]. cbn [mbind option_bind].
  rewrite E2, land_mask by lia.
  replace (if f_in f' - len <? ni + ai - 6 then _ else _) with (frem (ni + ai) f' + len) by (unfold frem; destruct (Z.ltb_spec (f_in f' - len) (ni + ai - 6)); lia).
  replace (if f_out f' <? no + ao - 258 then _ else _) with (no + ao - (f_out f' + 1)) by (destruct (Z.ltb_spec (f_out f') (no + ao - 258)); lia).
  rewrite (u32_small (frem (ni + ai) f' + len)), (u32_small (no + ao - (f_out f' + 1))) by (destruct Rin as (? & ? & ? & ?); unfold beg in *; lia).
  set (strm1 := match e with Break _ (Some m) => strm <| z_msg := Some m |> | _ => strm end).
  set (st1 := match e with Break m _ => st <| s_mode := m |> | Again => st end).
  assert (Hs1 : exists msg, strm1 = strm <| z_msg := msg |>).
  { unfold strm1. destruct e as [|m [msg|]]; [exists (z_msg strm)|by eexists|exists (z_msg strm)]; by destruct strm. }
  destruct Hs1 as [msg ->]. set (m := match e with Break m _ => m | Again => s_mode st end).
  assert (Hm1 : st1 = st <| s_mode := m |>).
  { unfold st1, m. destruct e; [by destruct st|done]. }
  rewrite Hm1. eexists _, _. split; [done|]. csimp_goal. rewrite Pobuf. cbn [fmap option_fmap option_map].
  split; unfold in_buf, out_buf; csimp_goal; cbn [default]; fold ni ai no ao ib ob.
  - exists msg. by destruct strm.
  - exists m. split; [by destruct st|].
    destruct Hpost as (used & hist' & Hruns & Hh & Hmono & Hend). cbn [snd fst] in *. exists used, hist'.
    assert (Hh0 : fhist st beg f0 = strm_hist strm st start).
    { unfold fhist, strm_hist. unfold f0; cbn [f_obuf f_out]. fold no ao ob. unfold whist, st_hist, beg. do 2 f_equal; lia. }
    rewrite Est, Hh0 in Hruns. unfold strm_stream in *. fold ni ai ib. split; [exact Hruns|].
    split.
    { rewrite <- Hh. unfold strm_hist, fhist, st_hist, whist, out_buf. csimp_goal. cbn [default].
      do 2 f_equal; unfold beg; lia. }
    rewrite <- Est in *. unfold in_buf; csimp_goal. fold (in_buf strm); fold ib.
    replace (f_in f' - len + 1) with (f_in f' + 1 - len) by lia. rewrite Rst.
    change (stream ib (f_in f' + 1) (frem (ni + ai) f') (f_hold f') (f_bits f')) with (fstream ib (ni + ai) f').
    replace (8 * (frem (ni + ai) f' + len) + f_bits f' mod 8) with (fnbits (ni + ai) f') by (unfold fnbits; lia).
    replace (8 * ai + s_bits st) with (fnbits (ni + ai) f0) by lia.
    destruct e as [|m0 ms]; [left|right].
    + destruct Hend as [_ Es En]. done.
    + destruct m0, ms as [ms|]; try done.
      * left. destruct Hend as (u & Hu & [_ Es En]). split; [done|]. exists u. done.
      * right. destruct Hend as (Hu & _). done.
  - replace (f_in f' - len + 1) with (f_in f' + 1 - len) by lia. exact Rin.
  - unfold frem. lia.
  - unfold frem in *. lia.
  - split; [done|lia].
  - rewrite Hnb in Hk. unfold fnbits in Hk. lia.
  - done.
  - lia.
  - destruct Hpost as (_ & _ & _ & _ & Hmono & _). unfold f0 in Hmono. cbn [snd f_out] in Hmono. lia.
  - apply Hf'.
  - apply Hf'.
Qed.
