(* ===== verification/InflateInv.v ===== *)
(** The invariant of [inflate()]: what holds at every round of its loop and between calls.

    The number of bits kept in [hold] matters: [inflate_fast()] returns whole bytes of [hold] to the input, so
    at its entry no more than seven bits beyond the next code may be there. *)
From S2P Require Import Prelude Record Bits Huffman InfTrees Inffixed InfTreesProof InfDecode Fixed.
From S2P Require Import Lz InflateState InflateMonad InfFast Inflate InflateWp InflateSym InfFastProof.

(** ** Decoding tables *)
Definition same_kind (l d : codeptr) : Prop :=
  match l, d with InCodes _, InCodes _ | Lenfix, Distfix => True | _, _ => False end.

Definition tables_ok (st : inflate_state) : Prop :=
  exists ll dl, good_table LENS (code_at st (s_lencode st)) (s_lenbits st) ll /\
    good_table DISTS (code_at st (s_distcode st)) (s_distbits st) dl /\ same_kind (s_lencode st) (s_distcode st).

(** At most seven bits beyond the next code. *)
Definition fed (st : inflate_state) (ptr : codeptr) (n hold bits : Z) : Prop :=
  forall o v k, lookup (code_at st ptr) n hold = Some (o, v, k) -> bits - 8 < k.

(** The extra bits of a code length symbol. *)
Definition rep_bits (v : Z) : Z := if v <? 16 then 0 else if v =? 16 then 2 else if v =? 17 then 3 else 7.

Definition fed_codes (st : inflate_state) (hold bits : Z) : Prop :=
  forall o v k, lookup (code_at st (s_lencode st)) (s_lenbits st) hold = Some (o, v, k) -> bits - 8 < k + rep_bits v.

(** ** The modes *)
Definition dims_ok (st : inflate_state) : Prop :=
  257 <= s_nlen st <= 286 /\ 1 <= s_ndist st <= 30.

(** The code lengths set so far: the code length code's, in their order, then the others. *)
Definition lens_set7 (have : Z) (lens : list Z) : Prop :=
  forall i o, 0 <= i < have -> aget order i = Some o -> exists l, aget lens o = Some l /\ 0 <= l <= 7.
Definition lens_set (have : Z) (lens : list Z) : Prop :=
  forall i, 0 <= i < have -> exists l, aget lens i = Some l /\ 0 <= l <= 15.

Definition mode_ok (m : inflate_mode) (st : inflate_state) (hold bits : Z) : Prop :=
  match m with
  | HEAD => s_wrap st = 0 /\ bits <= 16 \/ bits mod 8 = 0 /\ bits < 16
  | FLAGS | OS | HCRC => bits mod 8 = 0 /\ bits < 16
  | EXLEN => bits mod 8 = 0 /\ bits < 16 /\ (nz (s_flags st .& 0x0400) = false -> bits = 0)
  | EXTRA => bits = 0 /\ (nz (s_flags st .& 0x0400) = true -> 0 <= s_length st < 2 ^ 32)
  | NAME | COMMENT => bits = 0 /\ 0 <= s_length st < 2 ^ 32
  | TIME | DICTID | CHECK | LENGTH => bits mod 8 = 0 /\ bits < 32
  | DICT => bits = 0
  | TYPE | TYPEDO => bits <= 16
  | STORED => bits <= 13 \/ bits mod 8 = 0 /\ bits < 32
  | COPY_ | COPY => bits = 0 /\ 0 <= s_length st < 65536
  | TABLE => bits <= 13
  | LENLENS => bits <= 7 /\ dims_ok st /\ 4 <= s_ncode st <= 19 /\ 0 <= s_have st <= s_ncode st /\ lens_set7 (s_have st) (s_lens st)
  | CODELENS => dims_ok st /\ 0 <= s_have st < s_nlen st + s_ndist st /\ lens_set (s_have st) (s_lens st) /\
      s_lencode st = InCodes 0 /\ (exists ls, good_table CODES (code_at st (InCodes 0)) (s_lenbits st) ls) /\ fed_codes st hold bits
  | LEN_ | LEN => tables_ok st /\ fed st (s_lencode st) (s_lenbits st) hold bits
  | LENEXT => tables_ok st /\ bits - 8 < s_extra st /\ 0 <= s_extra st <= 5 /\ 3 <= s_length st /\
      s_length st + 2 ^ s_extra st - 1 <= 258
  | DIST => tables_ok st /\ fed st (s_distcode st) (s_distbits st) hold bits /\ 3 <= s_length st <= 258
  | DISTEXT => tables_ok st /\ bits - 8 < s_extra st /\ 0 <= s_extra st <= 13 /\ 1 <= s_offset st /\
      s_offset st + 2 ^ s_extra st - 1 <= 32768 /\ 3 <= s_length st <= 258
  | MATCH => tables_ok st /\ bits <= 7 /\ 1 <= s_length st <= 258 /\ 1 <= s_offset st <= 32768
  | LIT => tables_ok st /\ bits <= 7
  | DONE | BAD | MEM | SYNC => True
  end.

(** ** The window and the header

    With 16 or 32 as [windowBits] ([wbits] 0 and a gzip stream) the window would have one byte, and a later
    zlib stream would use it as a larger one: the invariant excludes it. *)
Definition wbits_ok (m : inflate_mode) (wrap wbits wsize : Z) (window : option (list Z)) : Prop :=
  8 <= wbits <= 23 /\ (wsize = 0 \/ wsize = 2 ^ wbits) /\
    (forall w, window = Some w -> Z.of_nat (length w) = 2 ^ wbits /\ Forall byte_ok w) \/
  wbits = 0 /\ wrap = 1 /\ window = None /\ wsize = 0 /\ (m = HEAD \/ m = BAD).

(** The caller's header: no [extra] field (see the finding on [case EXTRA]), and buffers as large as it
    says. *)
Definition head_ok (head : option gz_header) : Prop :=
  match head with
  | None => True
  | Some h => h_extra h = None /\ (forall b, h_name h = Some b -> h_name_max h <= Z.of_nat (length b)) /\
      (forall b, h_comment h = Some b -> h_comm_max h <= Z.of_nat (length b))
  end.

Definition out_ok (obuf : option (list Z)) (put left out : Z) : Prop :=
  exists b, obuf = Some b /\ 0 <= left <= out /\ out < 2 ^ 32 /\ 0 <= put - (out - left) /\
    put + left <= Z.of_nat (length b) /\ Forall byte_ok b.

(** ** The invariant *)
Record state_ok (m : inflate_mode) (st : inflate_state) (hold bits : Z) : Prop := {
  so_hold : hold_ok hold bits;
  so_win : win_ok (s_wsize st) (s_whave st) (s_wnext st) (s_window st);
  so_wbits : wbits_ok m (s_wrap st) (s_wbits st) (s_wsize st) (s_window st);
  so_head : head_ok (s_head st);
  so_lens : length (s_lens st) = 320%nat;
  so_work : length (s_work st) = 288%nat;
  so_codes : Z.of_nat (length (s_codes st)) = ENOUGH;
  so_sane : nz (s_sane st) = true;
  so_mode : mode_ok m st hold bits }.

(** What does not change during a call: the input and where it ends, where the output ends and its size, and
    the input and the output available at the start. *)
Record consts := Consts { k_in : option (list Z); k_iend : Z; k_oend : Z; k_osize : nat; k_in0 : Z; k_out0 : Z }.

(** The loop runs in these modes; nothing is written before the header is read. *)
Definition runs (m : inflate_mode) (left out : Z) : Prop :=
  match m with MEM | SYNC => False | HEAD => left = out | _ => True end.

(** [ret] is only used for errors by the calls of [inflate_table]. *)
Definition ret_ok (m : inflate_mode) (ret : Z) : Prop := match m with BAD => True | _ => ret = Z_OK end.

Record inv (K : consts) (c : ctx) : Prop := {
  i_in : in_ok (in_buf (c_strm c)) (r_next (c_r c)) (r_have (c_r c));
  i_out : out_ok (z_out (c_strm c)) (r_put (c_r c)) (r_left (c_r c)) (r_out (c_r c));
  i_zin : z_in (c_strm c) = k_in K;
  i_iend : r_next (c_r c) + r_have (c_r c) = k_iend K;
  i_oend : r_put (c_r c) + r_left (c_r c) = k_oend K /\ r_out (c_r c) <= k_out0 K;
  i_osize : length (out_buf (c_strm c)) = k_osize K;
  i_in0 : r_in (c_r c) = k_in0 K /\ r_have (c_r c) <= k_in0 K < 2 ^ 32;
  i_run : runs (s_mode (c_st c)) (r_left (c_r c)) (r_out (c_r c));
  i_ret : ret_ok (s_mode (c_st c)) (r_ret (c_r c));
  i_st : state_ok (s_mode (c_st c)) (c_st c) (r_hold (c_r c)) (r_bits (c_r c)) }.

(** ** The measure *)
Definition rank (m : inflate_mode) : Z :=
  match m with
  | TYPE | TYPEDO => 2
  | CHECK | LENGTH => 1
  | DONE | BAD | MEM | SYNC => 0
  | _ => 3
  end.
Definition measure (c : ctx) : Z :=
  4 * (8 * r_have (c_r c) + r_bits (c_r c) + r_left (c_r c)) + rank (s_mode (c_st c)).

(** ** At [inf_leave] *)
Definition ret_code (m : inflate_mode) : Z :=
  match m with DONE => Z_STREAM_END | BAD => Z_DATA_ERROR | _ => Z_OK end.
Definition left_ok (K : consts) (c : ctx) : Prop :=
  inv K (Ctx (c_strm c) (c_st c) ((c_r c) <| r_ret := Z_OK |>)) /\ r_ret (c_r c) = ret_code (s_mode (c_st c)).

Lemma left_intro K c : inv K c -> s_mode (c_st c) <> BAD -> s_mode (c_st c) <> DONE -> left_ok K c.
Proof.
  intros H H1 H2. assert (Hr : r_ret (c_r c) = Z_OK) by (assert (Hr := i_ret _ _ H); unfold ret_ok in Hr; destruct (s_mode (c_st c)); congruence).
  assert (Ec : ret_code (s_mode (c_st c)) = Z_OK) by (destruct (s_mode (c_st c)); cbn; congruence).
  split; [|congruence]. destruct c as [strm st []]. cbn in *. by subst.
Qed.
