(* ===== verification/InflateSafe1.v ===== *)
(** Every case of [inflate()] preserves the invariant and makes progress, and none of its accesses is out of
    range: the trailer, stored blocks and the copies. *)
From S2P Require Import Prelude Record Bits Huffman InfTrees Inffixed InfTreesProof InfDecode Fixed.
From S2P Require Import Lz Crc32 Adler32 InflateState InflateMonad InfFast Inflate InflateWp InflateSym.
From S2P Require Import InfFastProof InflateInv.

(** What holds at a [return] out of the loop: the stream and the state were written back. *)
Definition returned (K : consts) (ret : Z) (c : ctx) : Prop :=
  inv K c /\ (ret = Z_NEED_DICT /\ s_mode (c_st c) = DICT) /\
  z_next_out (c_strm c) = r_put (c_r c) /\ z_avail_out (c_strm c) = r_left (c_r c) /\
  z_next_in (c_strm c) = r_next (c_r c) /\ z_avail_in (c_strm c) = r_have (c_r c) /\
  s_hold (c_st c) = r_hold (c_r c) /\ s_bits (c_st c) = r_bits (c_r c).

Definition progress (K : consts) (mu : Z) (_ : ()) (c : ctx) : Prop := inv K c /\ measure c < mu.

Definition case_ok (m : M unit) (mode : inflate_mode) : Prop :=
  forall K mu c, inv K c -> s_mode (c_st c) = mode -> measure c <= mu ->
    wp (left_ok K) (returned K) m (progress K mu) c.

(** Unpacking the invariant of a context with known components. *)
Ltac start :=
  let K := fresh "K" in let mu := fresh "mu" in
  intros K mu [strm st [put left next have hold bits in_ out ret]] Hinv Emode Hmu; assert (Hinv' := Hinv);
  destruct Hinv' as [Iin Iout Izin Iiend Ioend Iosize [Iin0 Iin1] Irun Iret Ist];
  unfold measure in Hmu; csimp; rewrite Emode in Hmu, Irun, Iret, Ist; destruct Ist as [Shold Swin Swbits Shead Slens Swork Scodes Ssane Smode];
  cbn [mode_ok rank runs ret_ok] in Hmu, Smode, Irun, Iret; csimp.

Lemma wbits_ok_mode m m' wrap wbits wsize window :
  wbits_ok m wrap wbits wsize window -> m <> HEAD -> m <> BAD -> wbits_ok m' wrap wbits wsize window.
Proof. intros [H|(_ & _ & _ & _ & [->| ->])] H1 H2; [by left|done|done]. Qed.
Lemma wbits_ok_bad m wrap wbits wsize window : wbits_ok m wrap wbits wsize window -> wbits_ok BAD wrap wbits wsize window.
Proof. intros [H|(H1 & H2 & H3 & H4 & _)]; [by left|right]. repeat (split; [done|]). by right. Qed.

(** Rebuilding it after the updates: what is left is the condition of the mode. *)
Ltac wbits_tac := first [done | eapply wbits_ok_mode; done | eapply wbits_ok_bad; done].
Ltac leaving := apply left_intro; [|csimp_goal; congruence..].
Ltac mu := unfold measure; csimp_goal; cbn [rank]; lia.
Ltac rebuild :=
  split; csimp_goal;
  [ try done | try done | try done | try (done || lia) | try (done || lia) | try done | try (split; [done|lia]) | try done | try done
  | split; csimp_goal; [try (done || apply hold_init) | try done | try wbits_tac | try done | try done | try done | try done | try done | try done] ].

Lemma case_BAD_ok : case_ok case_BAD BAD.
Proof. start. unfold case_BAD. wp_steps. split; csimp_goal; rewrite ?Emode; [rebuild; rewrite ?Emode|]; done. Qed.

Lemma case_DONE_ok : case_ok case_DONE DONE.
Proof. start. unfold case_DONE. wp_steps. split; csimp_goal; rewrite ?Emode; [rebuild; rewrite ?Emode|]; done. Qed.

(** The rule for [NEEDBITS]: [go] for the bits that are there, [stop] at the end of the input. *)
Ltac needbits :=
  apply wp_needbits; csimp_goal;
  [ split; csimp_goal; done | lia | first [left; lia | right; lia] | | ];
  [ let Hs := fresh in intros nx hv hd bt Hs Hn Hmx Hm8; destruct Hs as [Sin Shold' Siend Sbits Smore Sstream]; csimp
  | let Hs := fresh in intros nx hd bt Hs Hn Hm8; destruct Hs as [Sin Shold' Siend Sbits Smore Sstream]; csimp; leaving ].

Lemma case_LENGTH_ok : case_ok case_LENGTH LENGTH.
Proof.
  start. unfold case_LENGTH. wp_steps.
  assert (Hnext : forall nx hv hd bt, in_ok (in_buf strm) nx hv -> hold_ok hd bt -> nx + hv = k_iend K -> hv <= k_in0 K ->
    4 * (8 * hv + bt + left) + 1 <= mu ->
    wp (left_ok K) (returned K) (sput s_mode DONE;; case_DONE) (progress K mu) (Ctx strm st (Regs put left nx hv hd bt in_ out ret))).
  { intros. wp_steps. apply case_DONE_ok; csimp_goal; try done; [|mu].
    rebuild. }
  destruct (nz (s_wrap st) && nz (s_flags st)).
  - apply wp_bind. needbits.
    + wp_steps. destruct (negb _).
      * wp_steps. split; [|mu]. rebuild.
      * apply wp_bind, wp_initbits. csimp_goal. apply Hnext; try (done || lia).
    + rebuild; rewrite ?Emode; try done; try lia. cbn [mode_ok]. lia.
  - apply Hnext; try (done || lia).
Qed.

(** Slices of an array. *)
Lemma slice_in (l : list Z) j n : 0 <= j -> 0 <= n -> j + n <= Z.of_nat (length l) -> slice l j n = Some (bytes_at l j n).
Proof.
  intros H1 H2 H3. unfold slice. destruct (Z.leb_spec 0 j), (Z.leb_spec 0 n), (Z.leb_spec (j + n) (Z.of_nat (length l))); (lia || done).
Qed.

Lemma memcpy_in dst i src j n :
  0 <= i -> 0 <= j -> 0 <= n -> i + n <= Z.of_nat (length dst) -> j + n <= Z.of_nat (length src) ->
  exists d, memcpy dst i src j n = Some d /\ length d = length dst /\
    (Forall byte_ok dst -> Forall byte_ok src -> Forall byte_ok d).
Proof.
  intros H1 H2 H3 H4 H5. unfold memcpy. rewrite slice_in by done. cbn [mbind option_bind].
  destruct (Z.leb_spec 0 i), (Z.leb_spec (i + n) (Z.of_nat (length dst))); try lia. cbn [andb]. eexists. split; [done|]. split.
  - rewrite !length_app, length_take, length_drop. unfold bytes_at. rewrite length_take, length_drop. lia.
  - intros Hd Hs. rewrite !Forall_app. split; [by apply Forall_take|]. split; [|by apply Forall_drop].
    by apply Forall_take, Forall_drop.
Qed.

Lemma case_CHECK_ok : case_ok case_CHECK CHECK.
Proof.
  start. unfold case_CHECK. wp_steps. destruct Iout as (ob & Eob & Hout1 & Hout2 & Hout3 & Hout4 & Hob).
  assert (Hnext : forall z s nx hv hd bt o, in_ok (in_buf z) nx hv -> hold_ok hd bt -> nx + hv = k_iend K -> hv <= k_in0 K ->
    bt mod 8 = 0 -> bt < 32 -> z_in z = k_in K -> z_out z = Some ob -> 0 <= left <= o -> o <= out -> o < 2 ^ 32 -> 0 <= put - (o - left) ->
    4 * (8 * hv + bt + left) + 1 <= mu -> state_ok LENGTH (upd s_mode (fun _ => LENGTH) s) hd bt ->
    wp (left_ok K) (returned K) (sput s_mode LENGTH;; case_LENGTH) (progress K mu) (Ctx z s (Regs put left nx hv hd bt in_ o ret))).
  { intros. wp_steps. apply case_LENGTH_ok; csimp_goal; try done.
    split; csimp_goal; try (done || lia).
    - exists ob. done.
    - unfold out_buf in *. congruence. }
  destruct (nz (s_wrap st)) eqn:Ew.
  - apply wp_bind. needbits.
    + wp_steps. rewrite (u32_small (out - left)) by lia. wp_steps.
      assert (Hob' : out_buf strm = ob) by (unfold out_buf; by rewrite Eob).
      assert (Hcont : forall z s check, in_buf z = in_buf strm -> z_in z = z_in strm -> z_out z = z_out strm ->
        state_ok LENGTH (upd s_mode (fun _ => LENGTH) s) 0 0 -> state_ok BAD (upd s_mode (fun _ => BAD) s) hd bt ->
        wp (left_ok K) (returned K)
          (if negb ((if nz (s_flags st) then hd else ZSWAP32 hd) =? check) then bad "incorrect data check"
           else INITBITS;; sput s_mode LENGTH;; case_LENGTH) (progress K mu) (Ctx z s (Regs put left nx hv hd bt in_ left ret))).
      { intros z s check Ez1 Ez2 Ez3 Hs1 Hs2. destruct (negb _).
        - wp_steps. split; [|mu].
          split; csimp_goal; unfold out_buf; csimp_goal; rewrite ?Ez3; try (done || lia).
          + unfold in_buf in *; csimp_goal. by rewrite Ez1.
          + exists ob. split; [done|]. repeat (split; [done || lia|]). done.
          + congruence.
        - apply wp_bind, wp_initbits. csimp_goal. apply Hnext; csimp_goal; rewrite ?Ez1; try (done || lia || congruence). }
      apply wp_when.
      * intros Hz. wp_steps. eapply wp_lift; [apply slice_in; unfold out_buf; csimp_goal; rewrite ?Eob; cbn [default]; unfold id; lia|]. wp_steps. apply Hcont; try done.
        -- split; csimp_goal; try done. by eapply wbits_ok_mode.
        -- split; csimp_goal; try done. by eapply wbits_ok_bad.
      * intros Hz. wp_steps. apply Hcont; try done.
        -- split; csimp_goal; try done. by eapply wbits_ok_mode.
        -- split; csimp_goal; try done. by eapply wbits_ok_bad.
    + split; csimp_goal; rewrite ?Emode; try (done || lia).
      * exists ob. done.
      * split; try done. cbn [mode_ok]. lia.
  - apply Hnext; try (done || lia). split; csimp_goal; try done. by eapply wbits_ok_mode.
Qed.

(** ** Literals and matches *)
Lemma tables_ok_upd st st' :
  s_codes st' = s_codes st -> s_lencode st' = s_lencode st -> s_lenbits st' = s_lenbits st ->
  s_distcode st' = s_distcode st -> s_distbits st' = s_distbits st -> tables_ok st -> tables_ok st'.
Proof. intros E1 E2 E3 E4 E5 H. unfold tables_ok, code_at in *. by rewrite E1, E2, E3, E4, E5. Qed.

(** With at most seven bits the next code is not reached. *)
Lemma fed_few st ptr n type ls hold bits :
  good_table type (code_at st ptr) n ls -> bits <= 7 -> fed st ptr n hold bits.
Proof. intros G Hb o v k E. apply (lookup_facts _ _ _ _ G) in E as [? _]. lia. Qed.

Lemma tables_fed_few st hold bits :
  tables_ok st -> bits <= 7 -> fed st (s_lencode st) (s_lenbits st) hold bits /\ fed st (s_distcode st) (s_distbits st) hold bits.
Proof. intros (ll & dl & Gl & Gd & _) Hb. split; by eapply fed_few. Qed.

(** The state of [LEN] after a literal or a match. *)
Lemma mode_ok_LEN st st' hold bits :
  s_codes st' = s_codes st -> s_lencode st' = s_lencode st -> s_lenbits st' = s_lenbits st ->
  s_distcode st' = s_distcode st -> s_distbits st' = s_distbits st -> tables_ok st -> bits <= 7 -> mode_ok LEN st' hold bits.
Proof.
  intros E1 E2 E3 E4 E5 H Hb. assert (H' : tables_ok st') by (by eapply tables_ok_upd).
  split; [done|]. by apply (tables_fed_few st' hold bits H' Hb).
Qed.

Lemma case_LIT_ok : case_ok case_LIT LIT.
Proof.
  start. unfold case_LIT. wp_steps. destruct Smode as [Ht Hb].
  destruct Iout as (ob & Eob & Hout1 & Hout2 & Hout3 & Hout4 & Hob).
  destruct (Z.eqb_spec left 0) as [E0|E0].
  - wp_steps. leaving. exact Hinv.
  - wp_steps. assert (Hob' : out_buf strm = ob) by (unfold out_buf; by rewrite Eob).
    eapply wp_lift; [apply aset_in; rewrite Hob'; lia|]. wp_steps. rewrite (u32_small (left - 1)) by lia.
    split; [|mu]. rewrite Hob'.
    split; csimp_goal; try (done || lia).
    + eexists. split; [done|]. rewrite length_insert. repeat (split; [lia|]). apply Forall_insert; [done|]. apply u8_range.
    + unfold out_buf; csimp_goal. cbn [from_option]. unfold id. rewrite length_insert. congruence.
    + split; csimp_goal; try done; [by eapply wbits_ok_mode|]. by eapply (mode_ok_LEN st).
Qed.

(** Copying [n] bytes, from the window or from the output. *)
Lemma wp_copy_loop (L : ctx -> Prop) (R : Z -> ctx -> Prop) (n : nat) window from (Q : () -> ctx -> Prop) strm st put left next have hold bits in_ out ret ob :
  z_out strm = Some ob -> Forall byte_ok ob -> 0 <= put -> put + Z.of_nat n <= Z.of_nat (length ob) -> (0 < n)%nat -> Z.of_nat n < 2 ^ 32 ->
  match window with
  | Some w => Forall byte_ok w /\ 0 <= from /\ from + Z.of_nat n <= Z.of_nat (length w)
  | None => 0 <= from < put
  end ->
  (forall ob', length ob' = length ob -> Forall byte_ok ob' ->
     Q tt (Ctx (upd z_out (fun _ => Some ob') strm) st (Regs (put + Z.of_nat n) left next have hold bits in_ out ret))) ->
  wp L R (copy_loop n window from (Z.of_nat n)) Q (Ctx strm st (Regs put left next have hold bits in_ out ret)).
Proof.
  revert strm put from ob. induction n as [|n IH]; intros strm put from ob Eob Hob Hp Hl Hn H32 Hw HQ; [lia|].
  cbn [copy_loop]. wp_steps. assert (Hob' : out_buf strm = ob) by (unfold out_buf; by rewrite Eob). rewrite Hob'.
  assert (Hsrc : exists b, aget (default ob window) from = Some b /\ byte_ok b).
  { destruct window as [w|]; cbn [from_option]; unfold id.
    - destruct Hw as (Hwb & H0 & H1). destruct (aget_in w from ltac:(lia)) as [b Hb]. exists b. split; [done|]. by eapply aget_byte.
    - destruct (aget_in ob from ltac:(lia)) as [b Hb]. exists b. split; [done|]. by eapply aget_byte. }
  destruct Hsrc as (b & Hb & Hbb). eapply wp_lift; [exact Hb|]. wp_steps. eapply wp_lift; [apply aset_in; lia|]. wp_steps.
  rewrite (u32_small (Z.of_nat (S n) - 1)) by lia. replace (Z.of_nat (S n) - 1) with (Z.of_nat n) by lia.
  set (ob1 := <[Z.to_nat put := b]> ob). assert (Hl1 : length ob1 = length ob) by apply length_insert.
  assert (Hby1 : Forall byte_ok ob1) by (by apply Forall_insert).
  destruct (nz (Z.of_nat n)) eqn:Ez.
  - apply nz_true in Ez. apply (IH _ (put + 1) (from + 1) ob1); try done; try lia.
    + destruct window as [w|]; [|lia]. destruct Hw as (? & ? & ?). split; [done|]. lia.
    + intros ob2 Hl2 Hby2. replace (put + 1 + Z.of_nat n) with (put + Z.of_nat (S n)) by lia. apply HQ; [congruence|done].
  - apply nz_false in Ez. assert (n = 0%nat) as -> by lia. wp_steps. by apply HQ.
Qed.

Lemma wp_copy (L : ctx -> Prop) (R : Z -> ctx -> Prop) n window from (Q : () -> ctx -> Prop) strm st put left next have hold bits in_ out ret ob :
  z_out strm = Some ob -> Forall byte_ok ob -> 0 <= put -> put + n <= Z.of_nat (length ob) -> 0 < n < 2 ^ 32 ->
  match window with
  | Some w => Forall byte_ok w /\ 0 <= from /\ from + n <= Z.of_nat (length w)
  | None => 0 <= from < put
  end ->
  (forall ob', length ob' = length ob -> Forall byte_ok ob' ->
     Q tt (Ctx (upd z_out (fun _ => Some ob') strm) st (Regs (put + n) left next have hold bits in_ out ret))) ->
  wp L R (copy_loop (Z.to_nat n) window from n) Q (Ctx strm st (Regs put left next have hold bits in_ out ret)).
Proof.
  intros. assert (E : n = Z.of_nat (Z.to_nat n)) by lia. rewrite E at 2. rewrite E in *. rewrite Nat2Z.id in *.
  eapply wp_copy_loop; try done; try lia; by rewrite Nat2Z.id in *.
Qed.

Lemma case_MATCH_ok : case_ok case_MATCH MATCH.
Proof.
  start. destruct Smode as (Ht & Hb & Hlen & Hoff).
  destruct Iout as (ob & Eob & Hout1 & Hout2 & Hout3 & Hout4 & Hob).
  unfold case_MATCH. wp_steps. destruct (Z.eqb_spec left 0) as [E0|E0]; [wp_steps; leaving; exact Hinv|]. wp_steps.
  rewrite (u32_small (out - left)) by lia.
  (* the copy, from either source *)
  assert (Hfin : forall window from copy, 1 <= copy <= s_length st ->
    match window with
    | Some w => Forall byte_ok w /\ 0 <= from /\ from + copy <= Z.of_nat (length w)
    | None => 0 <= from < put
    end ->
    wp (left_ok K) (returned K)
      (let copy := if left <? copy then left else copy in
       rput r_left (u32 (left - copy));; sput s_length (u32 (s_length st - copy));;
       copy_loop (Z.to_nat copy) window from copy;;
       length ← sget s_length; when_ (length =? 0) (sput s_mode LEN);; break_)
      (progress K mu) (Ctx strm st (Regs put left next have hold bits in_ out ret))).
  { intros window from copy Hc Hw. set (n := if left <? copy then left else copy).
    assert (Hn : 1 <= n <= copy /\ n <= left) by (unfold n; destruct (Z.ltb_spec left copy); lia). cbv zeta. fold n. wp_steps.
    rewrite !u32_small by lia. 
    apply (wp_copy _ _ _ _ _ _ _ _ _ _ _ _ _ _ _ _ _ ob); csimp_goal; try (done || lia).
    { destruct window as [w|]; [|exact Hw]. destruct Hw as (? & ? & ?). split; [done|]. lia. }
    intros ob' Hl' Hby'. wp_steps.
    assert (Hinv' : forall m, m = LEN \/ m = MATCH /\ s_length st <> n ->
      inv K (Ctx (upd z_out (fun _ => Some ob') strm) (upd s_mode (fun _ => m) (upd s_length (fun _ => s_length st - n) st))
        (Regs (put + n) (left - n) next have hold bits in_ out ret))).
    { intros m Hm. split; csimp_goal; try (done || lia).
      - exists ob'. split; [done|]. repeat (split; [lia|]). done.
      - unfold out_buf; csimp_goal. cbn [from_option]. unfold id. rewrite Hl'. unfold out_buf in Iosize. by rewrite Eob in Iosize.
      - by destruct Hm as [->|[-> _]].
      - by destruct Hm as [->|[-> _]].
      - split; csimp_goal; try done; [by eapply wbits_ok_mode|]. destruct Hm as [->|[-> Hne]].
        + by eapply (mode_ok_LEN st).
        + cbn [mode_ok]; csimp_goal. split; [by eapply (tables_ok_upd st)|]. lia. }
    apply wp_when; intros Hz; wp_steps; (split; [|unfold measure; csimp_goal; rewrite ?Emode; cbn [rank]; lia]).
    - apply Hinv'. by left.
    - specialize (Hinv' MATCH ltac:(right; split; [done|lia])).
      replace (upd s_length (fun _ => s_length st - n) st) with (upd s_mode (fun _ => MATCH) (upd s_length (fun _ => s_length st - n) st)); [done|].
      rewrite <- Emode. by destruct st. }
  destruct (Z.ltb_spec (out - left) (s_offset st)) as [Hw|Hw].
  - rewrite (u32_small (s_offset st - (out - left))) by lia. wp_steps. rewrite Ssane, andb_true_r.
    destruct (Z.ltb_spec (s_whave st) (s_offset st - (out - left))) as [Hfar|Hnear].
    + wp_steps. split; [|mu].
      split; csimp_goal; try (done || lia); [exists ob; done|]. split; csimp_goal; try done. by eapply wbits_ok_bad.
    + destruct Swin as [(_ & ? & _)|(w & Ew & Hwl & Hws & Hwh & Hwn & Hwlt & Hwb)]; [lia|].
      wp_steps. rewrite Ew. eapply wp_lift; [done|].
      destruct (Z.ltb_spec (s_wnext st) (s_offset st - (out - left))).
      * rewrite !u32_small by lia.
        apply (Hfin (Some w) _ (if s_length st <? _ then _ else _)); [destruct (Z.ltb_spec (s_length st) (s_offset st - (out - left) - s_wnext st)); lia|].
        split; [done|]. destruct (Z.ltb_spec (s_length st) (s_offset st - (out - left) - s_wnext st)); lia.
      * rewrite !u32_small by lia.
        apply (Hfin (Some w) _ (if s_length st <? _ then _ else _)); [destruct (Z.ltb_spec (s_length st) (s_offset st - (out - left))); lia|].
        split; [done|]. destruct (Z.ltb_spec (s_length st) (s_offset st - (out - left))); lia.
  - apply (Hfin None (put - s_offset st) (s_length st)); lia.
Qed.
