(* ===== verification/InflateSafe2.v ===== *)
(** The cases of [inflate()] for stored blocks and for the symbols of a compressed block. *)
From S2P Require Import Prelude Record Bits Huffman InfTrees Inffixed InfTreesProof InfDecode Fixed.
From S2P Require Import Lz Crc32 Adler32 InflateState InflateMonad InfFast Inflate InflateWp InflateSym.
From S2P Require Import InfFastProof InflateInv InflateSafe1.

(** ** Stored blocks *)
Lemma case_COPY_ok : case_ok case_COPY COPY.
Proof.
  start. destruct Smode as (Hb & Hlen). destruct Iout as (ob & Eob & Hout1 & Hout2 & Hout3 & Hout4 & Hob).
  unfold case_COPY. wp_steps. destruct (nz (s_length st)) eqn:Ez.
  - apply nz_true in Ez. wp_steps. set (copy1 := if have <? s_length st then have else s_length st).
    set (copy := if left <? copy1 then left else copy1).
    destruct Iin as (Hi1 & Hi2 & Hi3 & Hi4).
    assert (Hc : 0 <= copy <= s_length st /\ copy <= have /\ copy <= left).
    { assert (0 <= copy1 <= s_length st /\ copy1 <= have) by (unfold copy1; destruct (Z.ltb_spec have (s_length st)); lia).
      unfold copy. destruct (Z.ltb_spec left copy1); lia. }
    destruct (Z.eqb_spec copy 0) as [E0|E0]; [wp_steps; leaving; exact Hinv|]. wp_steps.
    assert (Hob' : out_buf strm = ob) by (unfold out_buf; by rewrite Eob). rewrite Hob'.
    destruct (memcpy_in ob put (in_buf strm) next copy) as (d & Ed & Hd & Hdb); [lia..|].
    eapply wp_lift; [exact Ed|]. wp_steps. rewrite !u32_small by lia.
    split; [|unfold measure; csimp_goal; rewrite Emode; cbn [rank]; lia].
    split; csimp_goal; rewrite ?Emode; try (done || lia).
    + change (in_ok (in_buf strm) (next + copy) (have - copy)). unfold in_ok. repeat split; (done || lia).
    + exists d. split; [done|]. repeat (split; [lia|]). by apply Hdb.
    + unfold out_buf; csimp_goal. cbn [from_option]. unfold id. congruence.
    + split; csimp_goal; try done. cbn [mode_ok]; csimp_goal. lia.
  - wp_steps. split; [|mu].
    split; csimp_goal; try (done || lia); [exists ob; done|]. split; csimp_goal; try done; [by eapply wbits_ok_mode|].
    cbn [mode_ok]. lia.
Qed.

Lemma case_COPY__ok : case_ok case_COPY_ COPY_.
Proof.
  start. unfold case_COPY_. wp_steps. apply case_COPY_ok; csimp_goal; try done.
  rebuild.
Qed.

Lemma case_STORED_ok flush : case_ok (case_STORED flush) STORED.
Proof.
  start. unfold case_STORED. assert (Hbits := Shold). destruct Hbits as [Hbits _]. apply wp_bind, wp_bytebits; csimp_goal; [done|].
  assert (Hm := Z.mod_pos_bound bits 8 ltac:(lia)). assert (bits mod 8 <= bits) by (apply Z.mod_le; lia).
  assert (Hh1 := hold_drop _ _ (bits mod 8) Shold ltac:(lia)).
  assert (Hm0 : (bits - bits mod 8) mod 8 = 0) by dlia.
  apply wp_bind. needbits.
  - wp_steps. destruct (negb _).
    + wp_steps. split; [|mu]. rebuild.
    + wp_steps. apply wp_initbits. csimp_goal. wp_steps.
      assert (Hlen : 0 <= hd .& 0xffff < 65536) by (rewrite land_0xffff; apply Z.mod_pos_bound; lia).
      assert (Hi : inv K (Ctx strm (upd s_mode (fun _ => COPY_) (upd s_length (fun _ => hd .& 0xffff) st)) (Regs put left nx hv 0 0 in_ out ret))).
      { rebuild. }
      destruct (flush =? Z_TREES); [apply wp_leave; leaving; exact Hi|]. apply case_COPY__ok; csimp_goal; try done.
      unfold measure; csimp_goal. cbn [rank]. lia.
  - rebuild; rewrite ?Emode; try done. cbn [mode_ok]. lia.
Qed.

(** ** Length and distance codes *)
Lemma wp_add_extra (L : ctx -> Prop) (R : Z -> ctx -> Prop) (f : inflate_state -> Z) `{!Setter f} (Q : () -> ctx -> Prop) c :
  input_ok c -> 0 <= s_extra (c_st c) <= 13 -> r_bits (c_r c) - 8 < s_extra (c_st c) -> 0 <= f (c_st c) < 65536 ->
  (s_extra (c_st c) = 0 -> Q tt c) ->
  (forall next have hold bits e back, in_ok (in_buf (c_strm c)) next have -> hold_ok hold bits -> bits <= 7 ->
     next + have = r_next (c_r c) + r_have (c_r c) -> 8 * have + bits + s_extra (c_st c) = 8 * r_have (c_r c) + r_bits (c_r c) ->
     have <= r_have (c_r c) ->
     0 <= e <= 2 ^ s_extra (c_st c) - 1 ->
     Q tt (Ctx (c_strm c) (upd s_back (fun _ => back) (upd f (fun _ => f (c_st c) + e) (c_st c))) (c_r (at_input c next have hold bits)))) ->
  (forall next hold bits, same_input c next 0 hold bits -> bits < s_extra (c_st c) -> L (at_input c next 0 hold bits)) ->
  wp L R (add_extra f) Q c.
Proof.
  intros Hc He Hb Hf Q0 Q1 HL. unfold add_extra. wp_steps. set (x := s_extra (c_st c)) in *. apply wp_when.
  2:{ intros E%nz_false. by apply Q0. }
  intros E%nz_true. apply wp_bind, wp_needbits; [done|lia|left; lia| |].
  2:{ intros. by apply HL. }
  intros nx hv hd bt Hs Hn Hmx _. wp_steps. apply wp_bits; csimp_goal; [lia|]. wp_steps.
  assert (Hho := si_hold _ _ _ _ _ Hs). apply wp_dropbits; csimp_goal; [done|lia|lia|]. wp_steps.
  assert (Hp : 0 < 2 ^ x) by (apply pow2_pos; lia). assert (2 ^ x <= 2 ^ 13) by (apply Z.pow_le_mono_r; lia).
  assert (Hm := Z.mod_pos_bound hd (2 ^ x) Hp). rewrite (u32_small (f (c_st c) + hd mod 2 ^ x)) by lia.
  destruct Hs as [Si _ Se Sb Sm _]. apply Q1; try (done || lia). apply hold_drop; (done || lia).
Qed.

Lemma case_DISTEXT_ok : case_ok case_DISTEXT DISTEXT.
Proof.
  start. destruct Smode as (Ht & Hb & He & Ho & Ho' & Hl). assert (0 < 2 ^ s_extra st) by (apply pow2_pos; lia).
  unfold case_DISTEXT. apply wp_bind, wp_add_extra; csimp_goal; try (done || lia).
  - intros E0. rewrite E0 in Ho'. wp_steps. apply case_MATCH_ok; csimp_goal; [|done|mu].
    rebuild. cbn [mode_ok]; csimp_goal. split; [by eapply (tables_ok_upd st)|]. lia.
  - intros nx hv hd bt e back Hi Hho Hb7 Hend Hbits Hhv He'. wp_steps. apply case_MATCH_ok; csimp_goal; [|done|mu].
    rebuild. cbn [mode_ok]; csimp_goal. split; [by eapply (tables_ok_upd st)|]. lia.
  - intros nx hd bt [Hi Hho Hend Hbits Hmore _] Hlt. csimp. leaving. rebuild; rewrite ?Emode; try done. cbn [mode_ok]; csimp_goal. split; [done|lia].
Qed.

(** The link tests of [case DIST] and [case LEN]. *)
Lemma dist_link rd root ls h e :
  good_table DISTS rd root ls -> rd (h mod 2 ^ root) = Some e -> (op e .& 0xf0 =? 0) = is_link e.
Proof.
  intros G He. assert (Hr : 0 <= root <= 15) by (pose proof (gt_root _ _ _ _ G); lia).
  destruct (gt_lookup _ _ _ _ G h) as (o & v & k & sy & E & Hc & _).
  destruct (lookup_first _ _ _ _ _ _ Hr E) as (e' & He' & Hcase). rewrite He in He'. injection He' as <-.
  destruct Hcase as [(Hl & Eo & _)|(Hl & _)]; rewrite Hl.
  - destruct (lookup_facts _ _ _ _ G _ _ _ _ E) as (_ & sy' & Hc' & Hok & _). rewrite Eo.
    assert (H := classify_tests _ _ _ Hc'). unfold op_tests in H. destruct sy' as [b| |w x|]; cbn in Hok.
    + destruct Hok as [_ [?|[? _]]]; done.
    + done.
    + destruct H as (_ & _ & _ & [= _ _ _ H _]). apply nz_true in H. by apply Z.eqb_neq.
    + destruct H as (_ & r & [= _ _ _ H _]). apply nz_true in H. by apply Z.eqb_neq.
  - unfold is_link in Hl. by apply andb_true_iff in Hl as [_ ?].
Qed.

(** At most seven bits are left after the code. *)
Lemma fed_after st ptr n c next have hold bits o v k :
  same_input c next have hold bits ->
  fed st ptr n (r_hold (c_r c)) (r_bits (c_r c)) -> hold_ok (r_hold (c_r c)) (r_bits (c_r c)) -> just_fed st ptr n c hold bits ->
  lookup (code_at st ptr) n hold = Some (o, v, k) -> bits - k <= 7.
Proof.
  intros Hs Hf [Hb Hh] [Hj|Hj] E; [|specialize (Hj _ _ _ E); lia]. subst bits.
  assert (hold = r_hold (c_r c)) as ->; [|specialize (Hf _ _ _ E); lia].
  assert (Hl := same_input_low _ _ _ _ _ Hs ltac:(lia) Hh). destruct Hs as [_ [_ ?] _ _ _ _]. by rewrite !Z.mod_small in Hl by lia.
Qed.

Lemma hungry_fed st ptr n hold bits : hungry st ptr n hold bits -> fed st ptr n hold bits.
Proof. intros (o & v & k & E & H) o' v' k' E'. rewrite E in E'. injection E' as -> -> ->. lia. Qed.

Lemma case_DIST_ok : case_ok case_DIST DIST.
Proof.
  start. destruct Smode as (Ht & Hf & Hl). assert (Ht' := Ht). destruct Ht' as (ll & dl & Gl & Gd & _).
  unfold case_DIST. wp_steps. eapply (wp_decode_symbol _ _ DISTS st); [exact Gd|intros h e He; by eapply dist_link|done|by split| |].
  - intros nx hv hd bt o v k here back Hs Hj E Hk Eo Ev. csimp_goal.
    assert (Hb7 := fed_after _ _ _ _ _ _ _ _ _ _ _ Hs Hf Shold Hj E).
    destruct Hs as [Hi Hho Hend Hbits Hmore _]. csimp. destruct (lookup_facts _ _ _ _ Gd _ _ _ _ E) as (Hk1 & sy & Hc & Hok & _).
    assert (Hh' := hold_drop _ _ k Hho ltac:(lia)).
    assert (H := classify_tests _ _ _ Hc). unfold op_tests in H. rewrite Eo, Ev. destruct sy as [b| |w x|]; cbn in Hok.
    + exfalso. destruct Hok as [_ [?|[? _]]]; done.
    + done.
    + destruct H as (_ & -> & Hx & [= _ _ H64 _ H15]). rewrite H64. wp_steps. rewrite H15.
      destruct Hok as [(? & _)|(_ & Hv & Hx' & Hvx)]; [done|].
      apply case_DISTEXT_ok; csimp_goal; [|done|mu]. rebuild. cbn [mode_ok]; csimp_goal.
      split; [by eapply (tables_ok_upd st)|]. lia.
    + destruct H as (_ & r & [= _ _ H64 _ _]). rewrite H64. wp_steps. split; [|mu]. rebuild.
  - intros nx hd bt [Hi Hho Hend Hbits Hmore _] Hh. csimp. leaving. rebuild; rewrite ?Emode; try done.
    cbn [mode_ok]. split; [done|]. split; [by apply hungry_fed|done].
Qed.

Lemma case_LENEXT_ok : case_ok case_LENEXT LENEXT.
Proof.
  start. destruct Smode as (Ht & Hb & He & Ho & Ho'). assert (0 < 2 ^ s_extra st) by (apply pow2_pos; lia).
  assert (Hdist : forall st' hold bits, s_codes st' = s_codes st -> s_lencode st' = s_lencode st -> s_lenbits st' = s_lenbits st ->
    s_distcode st' = s_distcode st -> s_distbits st' = s_distbits st -> bits <= 7 -> 3 <= s_length st' <= 258 -> mode_ok DIST st' hold bits).
  { intros st' h b E1 E2 E3 E4 E5 Hb7 Hl. assert (Ht' : tables_ok st') by (by eapply (tables_ok_upd st)).
    split; [done|]. split; [|lia]. by apply (tables_fed_few st' h b). }
  unfold case_LENEXT. apply wp_bind, wp_add_extra; csimp_goal; try (done || lia).
  - intros E0. rewrite E0 in Ho'. wp_steps. apply case_DIST_ok; csimp_goal; [|done|mu].
    rebuild. apply Hdist; csimp_goal; (done || lia).
  - intros nx hv hd bt e back Hi Hho Hb7 Hend Hbits Hhv He'. wp_steps. apply case_DIST_ok; csimp_goal; [|done|mu].
    rebuild. apply Hdist; csimp_goal; (done || lia).
  - intros nx hd bt [Hi Hho Hend Hbits Hmore _] Hlt. csimp. leaving. rebuild; rewrite ?Emode; try done. cbn [mode_ok]; csimp_goal. split; [done|lia].
Qed.
