(* ===== verification/InflateSafe3.v ===== *)
(** The cases of [inflate()] for the length codes, with the calls of [inflate_fast()], and for the block
    types. *)
From S2P Require Import Prelude Record Bits Huffman InfTrees Inffixed InfTreesProof InfDecode Fixed.
From S2P Require Import Lz Crc32 Adler32 InflateState InflateMonad InfFast Inflate InflateWp InflateSym.
From S2P Require Import InfFastProof InflateInv InflateSafe1 InflateSafe2.

Lemma stream_mod buf next have hold bits k :
  0 <= k <= bits -> stream buf next have hold bits mod 2 ^ k = hold mod 2 ^ k.
Proof.
  intros Hk. unfold stream. replace (2 ^ bits) with (2 ^ (bits - k) * 2 ^ k).
  - rewrite <- (Z_mod_plus_full hold (2 ^ (bits - k) * le (bytes_at buf next have)) (2 ^ k)). f_equal. lia.
  - rewrite <- Z.pow_add_r by lia. f_equal. lia.
Qed.

(** The bound on [bits] that [inflate_fast()] needs. *)
Lemma fed_stream st ptr n ls buf next have hold bits sy k :
  good_table LENS (code_at st ptr) n ls -> fed st ptr n hold bits ->
  symbol_at LENS ls (stream buf next have hold bits) = Some (sy, k) -> bits - 8 < k.
Proof.
  intros G Hf Hs. destruct (Z.lt_ge_cases (bits - 8) k) as [|Hge]; [done|].
  destruct (symbol_at_facts LENS ls (gt_syms _ _ _ _ G) _ _ _ Hs) as [Hk _].
  assert (Hs' := symbol_at_prefix LENS ls (gt_syms _ _ _ _ G) (gt_ok _ _ _ _ G) _ hold _ _ Hs ltac:(apply stream_mod; lia)).
  destruct (gt_lookup _ _ _ _ G hold) as (o & v & k' & sy' & E & _ & Hs2). specialize (Hf _ _ _ E).
  rewrite Hs' in Hs2. injection Hs2 as _ <-. lia.
Qed.

(** [RESTORE()], [LOAD()] and an assignment of both records. *)
Section regs_rules.
Context (L : ctx -> Prop) (R : Z -> ctx -> Prop).
Lemma wp_restore (Q : () -> ctx -> Prop) strm st put left next have hold bits in_ out ret :
  Q tt (Ctx (strm <| z_next_out := put |> <| z_avail_out := left |> <| z_next_in := next |> <| z_avail_in := have |>)
          (st <| s_hold := hold |> <| s_bits := bits |>) (Regs put left next have hold bits in_ out ret)) ->
  wp L R RESTORE Q (Ctx strm st (Regs put left next have hold bits in_ out ret)).
Proof. done. Qed.
Lemma wp_load (Q : () -> ctx -> Prop) strm st put left next have hold bits in_ out ret :
  Q tt (Ctx strm st (Regs (z_next_out strm) (z_avail_out strm) (z_next_in strm) (z_avail_in strm) (s_hold st) (s_bits st) in_ out ret)) ->
  wp L R LOAD Q (Ctx strm st (Regs put left next have hold bits in_ out ret)).
Proof. done. Qed.
Lemma wp_assign (Q : () -> ctx -> Prop) strm' st' strm st r :
  Q tt (Ctx strm' st' r) -> wp L R (modify (fun c => c <| c_strm := strm' |> <| c_st := st' |>)) Q (Ctx strm st r).
Proof. done. Qed.
End regs_rules.

(** The call of [inflate_fast()]. *)
Lemma len_fast_pre strm st put left next have hold bits out ll dl :
  in_ok (in_buf strm) next have -> out_ok (z_out strm) put left out -> state_ok LEN st hold bits ->
  good_table LENS (code_at st (s_lencode st)) (s_lenbits st) ll ->
  good_table DISTS (code_at st (s_distcode st)) (s_distbits st) dl -> 6 <= have -> 258 <= left ->
  fast_pre (strm <| z_next_out := put |> <| z_avail_out := left |> <| z_next_in := next |> <| z_avail_in := have |>)
    (st <| s_hold := hold |> <| s_bits := bits |>) out ll dl.
Proof.
  intros Hi (ob & Eob & Ho) [Sh Sw _ _ _ _ _ Ss [_ Hf]] Gl Gd H6 H258. 
  assert (Hob : out_buf strm = ob) by (unfold out_buf; by rewrite Eob).
  split; csimp_goal; try (done || lia).
  - intros sy k. eapply (fed_stream st); done.
  - change (out_buf _) with (out_buf strm). by rewrite Hob.
  - change (out_buf _) with (out_buf strm). rewrite Hob. lia.
  - change (out_buf _) with (out_buf strm). rewrite Hob. tauto.
Qed.

Lemma case_LEN_ok : case_ok case_LEN LEN.
Proof.
  start. assert (Hlen := Smode). destruct Smode as (Ht & Hf). assert (Ht' := Ht). destruct Ht' as (ll & dl & Gl & Gd & Hkind).
  unfold case_LEN. wp_steps. destruct ((6 <=? have) && (258 <=? left)) eqn:Ec.
  { (* inflate_fast *) apply andb_true_iff in Ec as [Ec1%Z.leb_le Ec2%Z.leb_le].
    apply wp_bind, wp_restore. wp_steps. unfold id.
    assert (Hst : state_ok LEN st hold bits) by (by split).
    destruct (inflate_fast_spec _ _ _ _ _ (len_fast_pre _ _ _ _ _ _ _ _ _ _ _ Iin Iout Hst Gl Gd ltac:(done) ltac:(done)))
      as (strm' & st' & E & D).
    eapply wp_lift; [exact E|]. cbv beta iota. apply wp_bind, wp_assign, wp_bind, wp_load. wp_steps. clear E.
    destruct D as [(msg & Es) (m & Est & used & hist & _ & _ & Hm) Din Diend Dhave [Dhold Db7] Dless Dobuf Doend Dleft Dolen Doby].
    csimp. destruct Iout as (ob & Eob & Hout1 & Hout2 & Hout3 & Hout4 & Hob).
    assert (Hob' : out_buf strm = ob) by (unfold out_buf; by rewrite Eob).
    assert (Dolen' : length (out_buf strm') = length ob) by (rewrite <- Hob'; exact Dolen). clear Dolen.
    set (r := Regs _ _ _ _ _ _ _ _ _).
    assert (Hin : in_buf strm' = in_buf strm /\ z_in strm' = z_in strm).
    { rewrite Es. done. }
    assert (Hinv2 : forall back, inv K (Ctx strm' (upd s_back back st') r) /\ inv K (Ctx strm' st' r)).
    { intros back. assert (Hm' : m = LEN \/ m = TYPE \/ m = BAD).
      { destruct Hm as [[-> _]|[[-> _]|[-> _]]]; [left; by csimp_goal|tauto|tauto]. }
      assert (Hsame : s_codes st' = s_codes st /\ s_lencode st' = s_lencode st /\ s_lenbits st' = s_lenbits st /\
        s_distcode st' = s_distcode st /\ s_distbits st' = s_distbits st) by (rewrite Est; done).
      assert (Hok : state_ok m st' (s_hold st') (s_bits st')).
      { destruct Hsame as (E1 & E2 & E3 & E4 & E5). split; try done; try (rewrite Est; csimp_goal; try done).
        - destruct Hm' as [->|[->| ->]]; wbits_tac.
        - destruct Hm' as [->|[->| ->]]; try done; [|cbn [mode_ok]; lia]. rewrite <- Est. eapply (mode_ok_LEN st); (done || lia). }
      assert (Em : s_mode st' = m) by (by rewrite Est).
      split; (split; csimp_goal; unfold r; csimp_goal; rewrite ?Em; rewrite ?(proj1 Hin), ?(proj2 Hin); try (done || lia);
        first [exists (out_buf strm'); split; [done|]; repeat (split; [lia|]); done
          |rewrite Dolen'; congruence
          |by destruct Hm' as [->|[->| ->]]
          |destruct Hok; split; try done; by destruct m]). }
    apply wp_when; intros _; wp_steps; (split; [by apply (Hinv2 (fun _ => -1))|]); unfold measure, r; csimp_goal;
      (assert (rank (s_mode st') <= 3) by (by destruct (s_mode st'))); lia. }
  clear Ec. wp_steps. set (st0 := upd s_back (fun _ => 0) st). eapply (wp_decode_symbol _ _ LENS st0); [exact Gl|done|done|by split| |].
  - intros nx hv hd bt o v k here back Hs Hj E Hk Eo Ev. csimp_goal.
    assert (Hb7 := fed_after _ _ _ _ _ _ _ _ _ _ _ Hs Hf Shold Hj E).
    destruct Hs as [Hi Hho Hend Hbits Hmore _]. csimp. destruct (lookup_facts _ _ _ _ Gl _ _ _ _ E) as (Hk1 & sy & Hc & Hok & _).
    assert (Hh' := hold_drop _ _ k Hho ltac:(lia)). wp_steps.
    assert (H := classify_tests _ _ _ Hc). unfold op_tests in H. rewrite Eo, Ev. destruct sy as [b| |w x|]; cbn in Hok.
    + destruct H as (-> & ->). cbn [Z.eqb]. wp_steps. split; [|mu]. rebuild.
    + destruct H as (Ho & [= _ H32 H64 _ _]). apply Z.eqb_neq in Ho. rewrite Ho, H32. wp_steps. split; [|mu]. rebuild. cbn [mode_ok]. lia.
    + destruct H as (Ho & -> & Hx & [= _ H32 H64 _ H15]). apply Z.eqb_neq in Ho. rewrite Ho, H32, H64. wp_steps. rewrite H15.
      destruct Hok as [(_ & Hv & Hx' & Hvx)|(? & _)]; [|done].
      apply case_LENEXT_ok; csimp_goal; [|done|mu]. rebuild. cbn [mode_ok]; csimp_goal.
      split; [by eapply (tables_ok_upd st)|]. lia.
    + destruct H as (Ho & r & [= _ H32 H64 _ _]). apply Z.eqb_neq in Ho. rewrite Ho, H32, H64. wp_steps. split; [|mu]. rebuild.
  - intros nx hd bt [Hi Hho Hend Hbits Hmore _] Hh. subst st0. csimp. leaving. rebuild; rewrite ?Emode; try done. cbn [mode_ok].
    split; [by eapply (tables_ok_upd st)|]. by apply hungry_fed.
Qed.

Lemma case_LEN__ok : case_ok case_LEN_ LEN_.
Proof.
  start. unfold case_LEN_. wp_steps. apply case_LEN_ok; csimp_goal; [|done|mu]. rebuild.
Qed.

(** ** The block types *)
Lemma fixedtables_ok st hold bits :
  bits <= 13 -> mode_ok LEN_ (fixedtables st <| s_mode := LEN_ |>) hold bits.
Proof.
  intros Hb. split.
  - exists fixed_lens, fixed_dists. split; [exact lenfix_good|]. split; [exact distfix_good|done].
  - intros o v k E. apply (lenfix_seven hold o v) in E. lia.
Qed.

(** [case TYPE] falls into [case TYPEDO] without changing the mode. *)
Lemma case_TYPEDO_ok flush mode : mode = TYPE \/ mode = TYPEDO -> case_ok (case_TYPEDO flush) mode.
Proof.
  intros Hmode. start. assert (Hret : ret = Z_OK) by (by destruct Hmode as [->| ->]). assert (mode <> BAD /\ mode <> DONE) as [? ?] by (by destruct Hmode as [->| ->]).
  assert (Hr : rank mode = 2) by (by destruct Hmode as [->| ->]). rewrite Hr in Hmu.
  assert (Hmok : forall h b, mode_ok mode st h b <-> b <= 16) by (by destruct Hmode as [->| ->]). rewrite Hmok in Smode.
  assert (Hwb : forall m, wbits_ok m (s_wrap st) (s_wbits st) (s_wsize st) (s_window st)).
  { intros m. eapply wbits_ok_mode; [done|by destruct Hmode as [->| ->]..]. } assert (Hbits := Shold). destruct Hbits as [Hbits _]. unfold case_TYPEDO. wp_steps. destruct (nz (s_last st)).
  { apply wp_bind, wp_bytebits; csimp_goal; [done|]. cbv zeta. wp_steps.
    assert (Hm := Z.mod_pos_bound bits 8 ltac:(lia)). assert (bits mod 8 <= bits) by (apply Z.mod_le; lia).
    assert (Hh1 := hold_drop _ _ (bits mod 8) Shold ltac:(lia)).
    split; [|mu]. rebuild. cbn [mode_ok]. split; [dlia|lia]. }
  apply wp_bind. needbits.
  2:{ rebuild; rewrite ?Emode; try done. apply Hmok. lia. }
  apply wp_bind, wp_bits; csimp_goal; [lia|]. wp_steps. apply wp_dropbits; csimp_goal; [done|lia|lia|]. wp_steps.
  apply wp_bits; csimp_goal; [lia|]. assert (Hh1 := hold_drop _ _ 1 Shold' ltac:(lia)).
  assert (Hh3 := hold_drop _ _ 2 Hh1 ltac:(lia)). set (b := (hd / 2 ^ 1) mod 2 ^ 2).
  destruct (b =? 0); [|destruct (b =? 1); [|destruct (b =? 2)]].
  - wp_steps. apply wp_dropbits; csimp_goal; [done|lia|lia|]. wp_steps. split; [|mu]. rebuild. cbn [mode_ok]. lia.
  - wp_steps. destruct (flush =? Z_TREES); wp_steps; (apply wp_dropbits; csimp_goal; [done|lia|lia|]); wp_steps.
    + leaving. rebuild. apply fixedtables_ok. lia.
    + split; [|mu]. rebuild. apply fixedtables_ok. lia.
  - wp_steps. apply wp_dropbits; csimp_goal; [done|lia|lia|]. wp_steps. split; [|mu]. rebuild. cbn [mode_ok]. lia.
  - wp_steps. apply wp_dropbits; csimp_goal; [done|lia|lia|]. wp_steps. split; [|mu]. rebuild.
Qed.

Lemma case_TYPE_ok flush : case_ok (case_TYPE flush) TYPE.
Proof.
  intros K mu c Hi Em Hmu. unfold case_TYPE. destruct (_ || _); [apply wp_leave; leaving; exact Hi|]. by apply (case_TYPEDO_ok flush TYPE); [left|..].
Qed.
