(* ===== verification/InflateSafe4.v ===== *)
(** The cases of [inflate()] that read the code lengths of a dynamic block and build its tables. *)
From S2P Require Import Prelude Record Bits Huffman InfTrees Inffixed InfTreesProof InfDecode Fixed.
From S2P Require Import Lz Crc32 Adler32 InflateState InflateMonad InfFast Inflate InflateWp InflateSym.
From S2P Require Import InfFastProof InflateInv InflateSafe1 InflateSafe2 InflateSafe3.

(** ** The invariant without the condition of the mode and of [ret] *)
Definition with_mode (m : inflate_mode) (c : ctx) : ctx := Ctx (c_strm c) ((c_st c) <| s_mode := m |>) (c_r c).
Definition inv_base (K : consts) (c : ctx) : Prop :=
  inv K (Ctx (c_strm c) ((c_st c) <| s_mode := DONE |>) ((c_r c) <| r_ret := Z_OK |>)).

Lemma inv_base_intro K c : inv K c -> s_mode (c_st c) <> HEAD -> s_mode (c_st c) <> BAD -> inv_base K c.
Proof.
  intros [? ? ? ? ? ? ? _ _ [? ? Hw ? ? ? ? ? ?]] H1 H2. split; csimp_goal; try done. split; csimp_goal; try done.
  by eapply wbits_ok_mode.
Qed.

Lemma inv_base_mode K m c :
  inv_base K c -> runs m 0 1 -> ret_ok m (r_ret (c_r c)) ->
  mode_ok m ((c_st c) <| s_mode := m |>) (r_hold (c_r c)) (r_bits (c_r c)) ->
  inv K (with_mode m c).
Proof.
  intros [? ? ? ? ? ? ? _ _ [? ? Hw ? ? ? ? ? ?]] H1 H2 Hm. split; csimp_goal; try done.
  - by destruct m.
  - split; csimp_goal; try done. by eapply wbits_ok_mode.
Qed.

Lemma inv_base_bad K msg c :
  inv_base K c -> inv K (Ctx (upd z_msg (fun _ => Some msg) (c_strm c)) (upd s_mode (fun _ => BAD) (c_st c)) (c_r c)).
Proof. intros H. apply (inv_base_mode K BAD c) in H as []; done. Qed.

Lemma with_mode_same m c : s_mode (c_st c) = m -> with_mode m c = c.
Proof. intros <-. by destruct c as [? [] ?]. Qed.

(** ** [inflate_table] on the state *)
Lemma wp_build_table (L : ctx -> Prop) (R : Z -> ctx -> Prop) type ls post lens codes (bits : inflate_state -> Z) `{!Setter bits}
    (Q : Z -> ctx -> Prop) strm st put left next have hold bts in_ out ret :
  lens = ls ++ post -> codes = Z.of_nat (length ls) ->
  Forall (fun l => 0 <= l <= 15) ls -> Z.of_nat (length ls) <= type_syms type ->
  1 <= bits st <= 15 -> (type = CODES -> Forall (fun l => l <= bits st) ls) ->
  0 <= s_next st -> s_next st + room type (bits st) <= Z.of_nat (length (s_codes st)) ->
  Z.of_nat (length ls) <= Z.of_nat (length (s_work st)) ->
  (forall r, table_spec type ls (s_codes st) (s_next st) (bits st) (s_work st) r ->
     Q (tr_ret r) (Ctx strm (upd s_work (fun _ => tr_work r) (upd bits (fun _ => tr_bits r)
       (upd s_next (fun _ => tr_next r) (upd s_codes (fun _ => tr_tbl r) st)))) (Regs put left next have hold bts in_ out (tr_ret r)))) ->
  wp L R (build_table type lens codes bits) Q (Ctx strm st (Regs put left next have hold bts in_ out ret)).
Proof.
  intros -> -> H1 H2 H3 H4 H5 H6 H7 HQ. unfold build_table. wp_steps. unfold id.
  destruct (inflate_table_spec type ls post (s_codes st) (s_next st) (bits st) (s_work st)) as (r & E & Hr); [done..|].
  eapply wp_lift; [exact E|]. wp_steps. by apply HQ.
Qed.

Lemma lens_set_take n lens : lens_set n lens -> 0 <= n -> Forall (fun l => 0 <= l <= 15) (take (Z.to_nat n) lens).
Proof.
  intros H Hn. apply Forall_lookup_2. intros i l [Hi Hl]%lookup_take_Some. destruct (H (Z.of_nat i) ltac:(lia)) as (l' & E & Hr).
  unfold aget in E. destruct (Z.leb_spec 0 (Z.of_nat i)); [|lia]. rewrite Nat2Z.id, Hi in E. by injection E as ->.
Qed.

(** The invariant after changes that leave the arrays' sizes and the window alone. *)
Lemma inv_base_upd K strm st st' put left next have hold bits in_ out ret hold' bits' next' have' ret' :
  inv_base K (Ctx strm st (Regs put left next have hold bits in_ out ret)) ->
  (s_wrap st', s_wbits st', s_wsize st', s_whave st', s_wnext st', s_window st', s_head st', s_sane st') =
  (s_wrap st, s_wbits st, s_wsize st, s_whave st, s_wnext st, s_window st, s_head st, s_sane st) ->
  length (s_lens st') = length (s_lens st) -> length (s_work st') = length (s_work st) -> length (s_codes st') = length (s_codes st) ->
  in_ok (in_buf strm) next' have' -> next' + have' = next + have -> have' <= have -> hold_ok hold' bits' ->
  inv_base K (Ctx strm st' (Regs put left next' have' hold' bits' in_ out ret')).
Proof.
  intros [Iin Iout ? ? ? ? [? ?] _ _ [? ? ? ? ? ? ? ? ?]] [= E1 E2 E3 E4 E5 E6 E7 E8] El Ew Ec Hi He Hh Ho. unfold with_mode, inv_base in *. csimp.
  split; unfold with_mode; csimp_goal; try (done || lia). split; csimp_goal; rewrite ?E1, ?E2, ?E3, ?E4, ?E5, ?E6, ?E7, ?E8; (done || congruence).
Qed.

Lemma good_upd type st st' ptr n ls :
  s_codes st' = s_codes st -> good_table type (code_at st ptr) n ls -> good_table type (code_at st' ptr) n ls.
Proof. intros E. unfold code_at. by rewrite E. Qed.

Lemma build_codes_ok flush K mu c :
  inv_base K c -> dims_ok (c_st c) -> lens_set (s_nlen (c_st c) + s_ndist (c_st c)) (s_lens (c_st c)) -> r_bits (c_r c) <= 7 ->
  measure (with_mode CODELENS c) <= mu ->
  wp (left_ok K) (returned K) (build_codes flush) (progress K mu) c.
Proof.
  destruct c as [strm st [put left next have hold bits in_ out ret]]. intros Hb [Hnl Hnd] Hls Hb7 Hmu. unfold measure, with_mode in Hmu. csimp.
  cbn [rank] in Hmu. assert (Hb' := Hb). destruct Hb' as [Iin Iout Izin Iiend Ioend Iosize Iin0 _ _ [Shold _ _ _ Slens Swork Scodes _ _]]. unfold with_mode in *. csimp.
  set (ls1 := take (Z.to_nat (s_nlen st)) (s_lens st)).
  set (ls2 := take (Z.to_nat (s_ndist st)) (drop (Z.to_nat (s_nlen st)) (s_lens st))).
  assert (Hl1 : Z.of_nat (length ls1) = s_nlen st) by (unfold ls1; rewrite length_take; lia).
  assert (Hl2 : Z.of_nat (length ls2) = s_ndist st) by (unfold ls2; rewrite length_take, length_drop; lia).
  assert (Hall := lens_set_take _ _ Hls ltac:(lia)). rewrite Z2Nat.inj_add in Hall by lia.
  rewrite <- take_take_drop, Forall_app in Hall. destruct Hall as [Hr1 Hr2]. fold ls1 in Hr1. fold ls2 in Hr2.
  assert (Hbad : forall msg st' ret', inv_base K (Ctx strm st' (Regs put left next have hold bits in_ out ret')) ->
    wp (left_ok K) (returned K) (bad msg) (progress K mu) (Ctx strm st' (Regs put left next have hold bits in_ out ret'))).
  { intros msg st' ret' Hbs. wp_steps. split; [|mu]. exact (inv_base_bad K msg _ Hbs). }
  assert (Hup : forall st' ret', (s_wrap st', s_wbits st', s_wsize st', s_whave st', s_wnext st', s_window st', s_head st', s_sane st') =
    (s_wrap st, s_wbits st, s_wsize st, s_whave st, s_wnext st, s_window st, s_head st, s_sane st) ->
    length (s_lens st') = length (s_lens st) -> length (s_work st') = length (s_work st) -> length (s_codes st') = length (s_codes st) ->
    inv_base K (Ctx strm st' (Regs put left next have hold bits in_ out ret'))).
  { intros st' ret' H1 H2 H3 H4. eapply inv_base_upd; try done. }
  unfold build_codes. wp_steps. destruct (Hls 256 ltac:(lia)) as (l & El & _). eapply wp_lift; [exact El|].
  destruct (l =? 0); [by apply Hbad|]. wp_steps.
  assert (E1 : s_lens st = ls1 ++ drop (Z.to_nat (s_nlen st)) (s_lens st)) by (unfold ls1; by rewrite take_drop).
  eapply wp_build_table; [exact E1|..]; csimp_goal; try (done || lia).
  { cbn [type_syms]. lia. }
  { unfold ENOUGH, room, ENOUGH_LENS, ENOUGH_DISTS in *. lia. }
  intros r1 T1. destruct (nz (tr_ret r1)) eqn:Er1.
  { apply Hbad, Hup; csimp_goal; try done; apply T1. }
  apply nz_false in Er1. destruct (ts_table _ _ _ _ _ _ _ T1 Er1) as (Hnx & Hbt1 & _ & _). cbn [room] in Hnx. wp_steps.
  assert (E2 : drop (Z.to_nat (s_nlen st)) (s_lens st) = ls2 ++ drop (Z.to_nat (s_ndist st)) (drop (Z.to_nat (s_nlen st)) (s_lens st)))
    by (unfold ls2; by rewrite take_drop).
  eapply wp_build_table; [exact E2|..]; csimp_goal; try (done || lia).
  { cbn [type_syms]. lia. }
  { rewrite (ts_len _ _ _ _ _ _ _ T1). unfold ENOUGH, ENOUGH_LENS, room, ENOUGH_DISTS in *. lia. }
  { rewrite (ts_work _ _ _ _ _ _ _ T1). lia. }
  intros r2 T2. destruct (nz (tr_ret r2)) eqn:Er2.
  { apply Hbad, Hup; csimp_goal; try done.
    - by rewrite (ts_work _ _ _ _ _ _ _ T2), (ts_work _ _ _ _ _ _ _ T1).
    - by rewrite (ts_len _ _ _ _ _ _ _ T2), (ts_len _ _ _ _ _ _ _ T1). }
  apply nz_false in Er2. wp_steps.
  assert (Hi : forall st', s_codes st' = tr_tbl r2 -> s_lencode st' = InCodes 0 -> s_lenbits st' = tr_bits r1 ->
    s_distcode st' = InCodes (tr_next r1) -> s_distbits st' = tr_bits r2 -> tables_ok st').
  { intros st' F1 F2 F3 F4 F5. exists ls1, ls2. unfold code_at. rewrite F1, F2, F3, F4, F5. split; [|split; [|done]].
    - eapply (inflate_table_good LENS ls1 _ 0 9 _ r1); try done; [cbn [type_syms]; lia|].
      intros j Hj. apply (ts_frame _ _ _ _ _ _ _ T2). lia.
    - eapply (inflate_table_good DISTS ls2 _ _ 6 _ r2); try done. cbn [type_syms]. lia. }
  match goal with |- wp _ _ _ _ ?x => set (c' := x) end.
  assert (Hinv : inv K c').
  { apply (inv_base_mode K LEN_ (Ctx strm _ (Regs put left next have hold bits in_ out _))); try done.
    - apply Hup; csimp_goal; try done.
      + by rewrite (ts_work _ _ _ _ _ _ _ T2), (ts_work _ _ _ _ _ _ _ T1).
      + by rewrite (ts_len _ _ _ _ _ _ _ T2), (ts_len _ _ _ _ _ _ _ T1).
    - cbn [mode_ok]; csimp_goal. match goal with |- tables_ok ?s /\ _ => assert (Ht : tables_ok s) by (by apply Hi) end.
      split; [done|]. by apply (tables_fed_few _ _ _ Ht). }
  destruct (flush =? Z_TREES); [by apply wp_leave, left_intro|]. apply case_LEN__ok; [done|done|]. unfold c'. mu.
Qed.

(** ** Reading the code lengths *)
Section codes_table.
Context (st : inflate_state) (root : Z) (ls : list Z) (G : good_table CODES (code_at st (InCodes 0)) root ls).
Abbreviation rd := (code_at st (InCodes 0)).

(** The table of the code length code has no second level. *)
Lemma codes_entry hold : exists here, rd (hold mod 2 ^ root) = Some here /\ lookup rd root hold = Some (op here, val here, bits here).
Proof.
  assert (Hr : 0 <= root <= 15) by (pose proof (gt_root _ _ _ _ G); lia).
  destruct (gt_lookup _ _ _ _ G hold) as (o & v & k & sy & E & _). destruct (lookup_first _ _ _ _ _ _ Hr E) as (here & Hh & Hc).
  exists here. split; [done|]. destruct Hc as [(_ & -> & -> & ->)|(_ & _ & _ & e & _ & _ & _ & Ek & He)]; [done|].
  destruct (gt_codes _ _ _ _ G eq_refl) as [_ Hk]. apply Hk in E. lia.
Qed.

Lemma codes_stable h h' o v k o' v' k' :
  lookup rd root h = Some (o, v, k) -> lookup rd root h' = Some (o', v', k') -> h mod 2 ^ k = h' mod 2 ^ k -> v' = v /\ k' = k.
Proof.
  intros E E' Hm. destruct (gt_codes _ _ _ _ G eq_refl) as [_ Hk]. destruct (Hk _ _ _ _ E) as (_ & _ & Ho), (Hk _ _ _ _ E') as (_ & _ & Ho').
  apply (lookup_facts _ _ _ _ G) in E as (_ & sy & Hc & _ & Hs), E' as (_ & sy' & Hc' & _ & Hs').
  rewrite (symbol_at_prefix CODES ls (gt_syms _ _ _ _ G) (gt_ok _ _ _ _ G) _ _ _ _ Hs Hm) in Hs'. injection Hs' as <- <-. split; [|done].
  assert (T := classify_tests _ _ _ Hc). assert (T' := classify_tests _ _ _ Hc'). destruct sy; lia.
Qed.
End codes_table.

Lemma lens_set_insert have lens l :
  lens_set have lens -> 0 <= have < Z.of_nat (length lens) -> 0 <= l <= 15 -> lens_set (have + 1) (<[Z.to_nat have := l]> lens).
Proof.
  intros H Hh Hl i Hi. rewrite aget_insert by lia. destruct (Z.eqb_spec i have) as [->|]; [by exists l|]. apply H. lia.
Qed.

Lemma wp_repeat_len (L : ctx -> Prop) (R : Z -> ctx -> Prop) n len (Q : () -> ctx -> Prop) strm st r :
  0 <= len <= 15 -> lens_set (s_have st) (s_lens st) -> 0 <= s_have st -> s_have st + Z.of_nat n <= 320 -> length (s_lens st) = 320%nat ->
  (forall lens, length lens = 320%nat -> lens_set (s_have st + Z.of_nat n) lens ->
     Q tt (Ctx strm (upd s_have (fun _ => s_have st + Z.of_nat n) (upd s_lens (fun _ => lens) st)) r)) ->
  wp L R (repeat_len n len) Q (Ctx strm st r).
Proof.
  intros Hl. revert st. induction n as [|n IH]; intros st Hs Hh Hn Hle HQ; cbn [repeat_len].
  - apply wp_ret. specialize (HQ (s_lens st) Hle). rewrite Z.add_0_r in HQ. specialize (HQ Hs). by destruct st.
  - wp_steps. rewrite (u16_small len) by lia. eapply wp_lift; [apply aset_in; lia|]. wp_steps. rewrite u32_small by lia.
    apply IH; csimp_goal; rewrite ?length_insert; try lia.
    + apply lens_set_insert; (done || lia).
    + intros lens Hlen Hset. replace (s_have st + 1 + Z.of_nat n) with (s_have st + Z.of_nat (S n)) in * by lia. exact (HQ lens Hlen Hset).
Qed.

(** The state between two rounds of the loop of [case CODELENS]. *)
Record codelens_at (K : consts) (mu : Z) (c : ctx) : Prop := {
  ca_base : inv_base K c;
  ca_mode : s_mode (c_st c) = CODELENS;
  ca_dims : dims_ok (c_st c);
  ca_have : 0 <= s_have (c_st c) <= s_nlen (c_st c) + s_ndist (c_st c);
  ca_lens : lens_set (s_have (c_st c)) (s_lens (c_st c));
  ca_ptr : s_lencode (c_st c) = InCodes 0;
  ca_good : exists ls, good_table CODES (code_at (c_st c) (InCodes 0)) (s_lenbits (c_st c)) ls;
  ca_fed : fed_codes (c_st c) (r_hold (c_r c)) (r_bits (c_r c));
  ca_done : s_have (c_st c) = s_nlen (c_st c) + s_ndist (c_st c) -> r_bits (c_r c) <= 7;
  ca_mu : measure c <= mu;
  ca_ret : r_ret (c_r c) = Z_OK }.

Lemma codelens_inv K mu c :
  codelens_at K mu c -> s_have (c_st c) < s_nlen (c_st c) + s_ndist (c_st c) -> inv K c.
Proof.
  intros [Hb Hm Hd Hh Hl Hp Hg Hf _ _ Hrt] Hlt. rewrite <- (with_mode_same _ _ Hm). apply inv_base_mode; try done.
  cbn [mode_ok]; csimp_goal. repeat (split; [done || lia|]). done.
Qed.

Lemma fed_codes_few st hold bits ls :
  s_lencode st = InCodes 0 -> good_table CODES (code_at st (InCodes 0)) (s_lenbits st) ls -> bits <= 7 -> fed_codes st hold bits.
Proof.
  intros Ep G Hb o v k. rewrite Ep. intros E. apply (lookup_facts _ _ _ _ G) in E as [? _].
  unfold rep_bits. destruct (v <? 16), (v =? 16), (v =? 17); lia.
Qed.

(** What a round of the loop does. *)
Definition codelens_round (K : consts) (mu : Z) (c : ctx) (b : bool) (c' : ctx) : Prop :=
  if b then codelens_at K mu c' /\ s_have (c_st c) < s_have (c_st c')
  else inv K c' /\ s_mode (c_st c') = BAD /\ measure c' < mu.

(** The lengths [len] repeated [copy] times, or once. *)
Lemma codelens_next K mu c strm st put left next have hold bits in_ out ret hold' bits' next' have' lens n :
  c = Ctx strm st (Regs put left next have hold bits in_ out ret) -> codelens_at K mu c ->
  in_ok (in_buf strm) next' have' -> next' + have' = next + have -> have' <= have -> hold_ok hold' bits' -> bits' <= 7 ->
  8 * have' + bits' <= 8 * have + bits -> 1 <= n -> s_have st + n <= s_nlen st + s_ndist st ->
  length lens = 320%nat -> lens_set (s_have st + n) lens ->
  codelens_round K mu c true
    (Ctx strm (upd s_have (fun _ => s_have st + n) (upd s_lens (fun _ => lens) st)) (Regs put left next' have' hold' bits' in_ out ret)).
Proof.
  intros -> [Hb Hm Hd Hh Hl Hp (ls & Hg) Hf Hdn Hmu Hrt] Hi He Hv Ho Hb7 Hbits Hn Hn' Hlen Hset. unfold measure in Hmu. csimp.
  split; [|csimp_goal; lia]. split; csimp_goal; try (done || lia).
  - eapply inv_base_upd; try done. csimp_goal. destruct Hb as [_ _ _ _ _ _ _ _ _ [_ _ _ _ Hle _ _ _ _]]. unfold with_mode in Hle. csimp. congruence.
  - by exists ls.
  - by eapply (fed_codes_few _ _ _ ls).
  - unfold measure; csimp_goal. lia.
Qed.

Lemma codelens_rep_ok K mu c strm st put left next have hold bits in_ out ret hold' bits' next' have' len copy :
  c = Ctx strm st (Regs put left next have hold bits in_ out ret) -> codelens_at K mu c ->
  in_ok (in_buf strm) next' have' -> next' + have' = next + have -> have' <= have -> hold_ok hold' bits' -> bits' <= 7 ->
  8 * have' + bits' <= 8 * have + bits -> 0 <= len <= 15 -> 1 <= copy <= 138 ->
  wp (left_ok K) (returned K)
    (have ← sget s_have; nlen ← sget s_nlen; ndist ← sget s_ndist;
     if u32 (nlen + ndist) <? u32 (have + copy) then bad "invalid bit length repeat";; mret false
     else repeat_len (Z.to_nat copy) len;; mret true)
    (codelens_round K mu c) (Ctx strm st (Regs put left next' have' hold' bits' in_ out ret)).
Proof.
  intros -> Hc Hi He Hv Ho Hb7 Hbits Hlen Hcopy. assert (Hc' := Hc). destruct Hc' as [Hb Hm [Hd1 Hd2] Hh Hl Hp Hg Hf Hdn Hmu Hrt].
  unfold measure in Hmu. csimp. wp_steps. rewrite !u32_small by lia. destruct (Z.ltb_spec (s_nlen st + s_ndist st) (s_have st + copy)) as [Hlt|Hge].
  - wp_steps. split; [|split; [done|unfold measure; csimp_goal; rewrite Hm in Hmu; cbn [rank] in *; lia]].
    apply (inv_base_bad K _ (Ctx strm st (Regs put left next' have' hold' bits' in_ out ret))). by eapply inv_base_upd.
  - apply wp_bind, wp_repeat_len; try (done || lia).
    + destruct Hb as [_ _ _ _ _ _ _ _ _ [_ _ _ _ Hle _ _ _ _]]. exact Hle.
    + intros lens Hle Hset. apply wp_ret. rewrite Z2Nat.id in * by lia.
      eapply (codelens_next K mu _ strm st put left next have hold bits); try (done || lia).
Qed.

Lemma codelens_step_ok K mu c :
  codelens_at K mu c -> s_have (c_st c) < s_nlen (c_st c) + s_ndist (c_st c) ->
  wp (left_ok K) (returned K) codelens_step (codelens_round K mu c) c.
Proof.
  intros Hc Hlt. assert (Hinv := codelens_inv _ _ _ Hc Hlt). assert (Hc' := Hc).
  destruct c as [strm st [put left next have hold bits in_ out ret]].
  destruct Hc' as [Hb Hm [Hd1 Hd2] Hh Hl Hp (ls & Hg) Hf Hdn Hmu Hrt]. csimp.
  assert (Hio : input_ok (Ctx strm st (Regs put left next have hold bits in_ out ret))) by (split; csimp_goal; apply Hinv).
  assert (Hle : length (s_lens st) = 320%nat) by (destruct Hb as [_ _ _ _ _ _ _ _ _ [_ _ _ _ Hle _ _ _ _]]; exact Hle).
  assert (Hroot : 1 <= s_lenbits st <= 7) by (pose proof (gt_root _ _ _ _ Hg); pose proof (gt_codes _ _ _ _ Hg eq_refl); lia).
  (* leaving for lack of input *)
  assert (Hleave : forall nx hd bt o v k, same_input (Ctx strm st (Regs put left next have hold bits in_ out ret)) nx 0 hd bt ->
    lookup (code_at st (InCodes 0)) (s_lenbits st) hd = Some (o, v, k) -> bt - 8 < k + rep_bits v ->
    left_ok K (Ctx strm st (Regs put left nx 0 hd bt in_ out ret))).
  { intros nx hd bt o v k [Si Sh Se Sb Sm _] E Hbt. csimp. leaving. rewrite <- (with_mode_same _ (Ctx strm st _) Hm). apply inv_base_mode; try done.
    - destruct Hio as [(? & ? & ? & ?) _]. csimp. eapply inv_base_upd; try done.
    - cbn [mode_ok]; csimp_goal. repeat (split; [done || lia|]). split; [by exists ls|]. intros o' v' k'. csimp_goal. rewrite Hp.
      intros E'. change (code_at _ (InCodes 0)) with (code_at st (InCodes 0)) in E'. rewrite E in E'. by injection E' as -> -> ->. }
  unfold codelens_step. wp_steps. rewrite Hp. eapply (wp_get_code _ _ CODES st (InCodes 0) _ ls Hg (fun _ _ => True)); try (done || lia).
  { intros o b _. destruct (codes_entry st _ _ Hg o) as (here & E & Elk). exists here. rewrite Z.add_0_l, Z.div_1_r. split; [done|].
    intros Hbt. eexists _, _, _. split; [exact Elk|lia]. }
  2:{ intros nx hd bt Hs (o & v & k & E & Hlt'). csimp_goal. eapply Hleave; [done..|]. unfold rep_bits. destruct (v <? 16), (v =? 16), (v =? 17); lia. }
  intros nx hv hd bt here Hs Hj _ Hrd Hbt _. csimp_goal. rewrite Z.add_0_l, Z.div_1_r in Hrd.
  destruct (codes_entry st _ _ Hg hd) as (here' & E' & Elk). rewrite Hrd in E'. injection E' as <-.
  assert (Hfed : bt - 8 < InfTrees.bits here + rep_bits (val here)).
  { destruct Hj as [Hj|Hj].
    - csimp. subst bt. destruct Hio as [_ [Hb0 Hh0]]. csimp. assert (Hlow := same_input_low _ _ _ _ _ Hs ltac:(csimp_goal; lia) ltac:(done)). csimp.
      destruct Hs as [_ [_ ?] _ _ _ _]. rewrite !Z.mod_small in Hlow by lia. subst hd. apply (Hf (op here)). by rewrite Hp.
    - apply Hj in Elk. unfold rep_bits. destruct (val here <? 16), (val here =? 16), (val here =? 17); lia. }
  destruct (gt_codes _ _ _ _ Hg eq_refl) as [_ Hcd]. destruct (Hcd _ _ _ _ Elk) as (Hv & Hk7 & _).
  destruct (lookup_facts _ _ _ _ Hg _ _ _ _ Elk) as (Hk1 & _). set (k := InfTrees.bits here) in *. clear Hj Hcd.
  assert (Hneed : forall x m, rep_bits (val here) = x -> 2 <= x <= 7 ->
    (forall nx hv hd bt, in_ok (in_buf strm) nx hv -> nx + hv = next + have -> hv <= have -> hold_ok hd bt -> x <= bt <= x + 7 ->
       8 * hv + bt <= 8 * have + bits ->
       wp (left_ok K) (returned K) m (codelens_round K mu (Ctx strm st (Regs put left next have hold bits in_ out ret)))
         (Ctx strm st (Regs put left nx hv hd bt in_ out ret))) ->
    wp (left_ok K) (returned K) (NEEDBITS (k + x);; DROPBITS k;; m) (codelens_round K mu (Ctx strm st (Regs put left next have hold bits in_ out ret)))
      (Ctx strm st (Regs put left nx hv hd bt in_ out ret))).
  { intros x m Hx Hx7 Hm'. apply wp_bind, wp_needbits; csimp_goal.
    - by destruct Hs.
    - lia.
    - left. lia.
    - intros nx2 hv2 hd2 bt2 Hs2 Hn2 Hmx2 _. csimp_goal. assert (Hs3 := same_input_trans _ _ _ _ _ _ _ _ _ Hs Hs2).
      destruct Hs3 as [Si3 Sh3 Se3 Sb3 Sm3 _]. csimp. apply wp_bind, wp_dropbits; csimp_goal; [done|lia|lia|].
      apply Hm'; try (done || lia). apply hold_drop; (done || lia).
    - intros nx2 hd2 bt2 Hs2 Hn2 _. csimp_goal. assert (Hs3 := same_input_trans _ _ _ _ _ _ _ _ _ Hs Hs2).
      destruct (codes_entry st _ _ Hg hd2) as (h2 & _ & Elk2).
      destruct (codes_stable st _ _ Hg _ _ _ _ _ _ _ _ Elk Elk2) as [Ev Ek].
      { assert (Hs' := Hs). destruct Hs' as [_ [? ?] _ _ _ _]. assert (Hlow := same_input_low _ _ _ _ _ Hs2 ltac:(csimp_goal; lia) ltac:(done)). csimp.
        rewrite <- (mod_mod_pow2 hd2 bt k), <- (mod_mod_pow2 hd bt k), Hlow by lia. done. }
      eapply Hleave; [done..|]. rewrite Ev, Ek, Hx. lia. }
  unfold rep_bits in Hneed, Hfed. destruct (Z.ltb_spec (val here) 16) as [Hv16|Hv16].
  - destruct Hs as [Si Sh Se Sb Sm _]. csimp. apply wp_bind, wp_dropbits; csimp_goal; [done|lia|lia|]. wp_steps.
    eapply wp_lift; [apply aset_in; lia|]. wp_steps. rewrite u32_small by lia.
    eapply (codelens_next K mu _ strm st put left next have hold bits); try (done || lia).
    + apply hold_drop; (done || lia).
    + by rewrite length_insert.
    + apply lens_set_insert; (done || lia).
  - cbv zeta. destruct (Z.eqb_spec (val here) 16); [|destruct (Z.eqb_spec (val here) 17)].
    + apply Hneed; [done|lia|]. intros nx2 hv2 hd2 bt2 Hi2 He2 Hv2 Ho2 Hbt2 Hb2. wp_steps.
      destruct (Z.eqb_spec (s_have st) 0).
      { wp_steps. split; [|split; [done|unfold measure in *; csimp; rewrite Hm in Hmu; cbn [rank] in *; lia]].
        apply (inv_base_bad K _ (Ctx strm st (Regs put left nx2 hv2 hd2 bt2 in_ out ret))). by eapply inv_base_upd. }
      wp_steps. destruct (Hl (s_have st - 1) ltac:(lia)) as (len & El & Hlen). eapply wp_lift; [exact El|].
      apply wp_bind, wp_bits; csimp_goal; [lia|]. apply wp_bind, wp_dropbits; csimp_goal; [done|lia|lia|].
      assert (Hm2 := Z.mod_pos_bound hd2 (2 ^ 2) ltac:(lia)). cbv beta iota.
      eapply (codelens_rep_ok K mu _ strm st put left next have hold bits); try (done || lia). apply hold_drop; (done || lia).
    + apply Hneed; [done|lia|]. intros nx2 hv2 hd2 bt2 Hi2 He2 Hv2 Ho2 Hbt2 Hb2.
      apply wp_bind, wp_bits; csimp_goal; [lia|]. apply wp_bind, wp_dropbits; csimp_goal; [done|lia|lia|].
      assert (Hm2 := Z.mod_pos_bound hd2 (2 ^ 3) ltac:(lia)). cbv beta iota.
      eapply (codelens_rep_ok K mu _ strm st put left next have hold bits); try (done || lia). apply hold_drop; (done || lia).
    + apply Hneed; [done|lia|]. intros nx2 hv2 hd2 bt2 Hi2 He2 Hv2 Ho2 Hbt2 Hb2.
      apply wp_bind, wp_bits; csimp_goal; [lia|]. apply wp_bind, wp_dropbits; csimp_goal; [done|lia|lia|].
      assert (Hm2 := Z.mod_pos_bound hd2 (2 ^ 7) ltac:(lia)). cbv beta iota.
      eapply (codelens_rep_ok K mu _ strm st put left next have hold bits); try (done || lia). apply hold_drop; (done || lia).
Qed.

Lemma codelens_loop_ok K mu fuel c :
  codelens_at K mu c -> 316 - s_have (c_st c) < Z.of_nat fuel ->
  wp (left_ok K) (returned K) (codelens_loop fuel)
    (fun _ c' => inv K c' /\ s_mode (c_st c') = BAD /\ measure c' < mu \/
       codelens_at K mu c' /\ s_have (c_st c') = s_nlen (c_st c') + s_ndist (c_st c')) c.
Proof.
  revert c. induction fuel as [|fuel IH]; intros c Hc Hf; [destruct (ca_dims _ _ _ Hc), (ca_have _ _ _ Hc); lia|]. cbn [codelens_loop]. wp_steps.
  assert (Hh := ca_have _ _ _ Hc). destruct (ca_dims _ _ _ Hc) as [Hd1 Hd2]. rewrite u32_small by lia.
  destruct (Z.ltb_spec (s_have (c_st c)) (s_nlen (c_st c) + s_ndist (c_st c))) as [Hlt|Hge].
  - apply wp_bind. eapply wp_mono; [by apply (codelens_step_ok K mu)|]. intros [] c'; cbn [codelens_round].
    + intros [Hc' Hless]. apply IH; [done|]. lia.
    + intros H. apply wp_ret. by left.
  - apply wp_ret. right. split; [done|lia].
Qed.

(** After the loop. *)
Lemma codelens_rest_ok flush K mu c :
  codelens_at K mu c ->
  wp (left_ok K) (returned K) (case_CODELENS flush) (progress K mu) c.
Proof.
  intros Hc. unfold case_CODELENS. apply wp_bind. eapply wp_mono; [apply (codelens_loop_ok K mu); [done|]|].
  { destruct (ca_have _ _ _ Hc). lia. }
  intros [] c' [(Hi & E & Hmu)|(Hc' & Hfull)]; wp_steps; [rewrite E; by apply wp_break|].
  rewrite (ca_mode _ _ _ Hc'). change (bool_decide (CODELENS = BAD)) with false. cbv iota.
  destruct Hc' as [Hb Hm Hd Hh Hl Hp Hg Hf Hdn Hmu Hrt]. apply build_codes_ok; try done.
  - by rewrite <- Hfull.
  - by apply Hdn.
  - by rewrite (with_mode_same _ _ Hm).
Qed.

Lemma case_CODELENS_ok flush : case_ok (case_CODELENS flush) CODELENS.
Proof.
  intros K mu c Hi Em Hmu. apply codelens_rest_ok. assert (Hs := i_st _ _ Hi). rewrite Em in Hs.
  destruct (so_mode _ _ _ _ Hs) as (Hd & Hh & Hl & Hp & Hg & Hf). split; try (done || lia).
  - apply inv_base_intro; [done|by rewrite Em..].
  - assert (Hr := i_ret _ _ Hi). by rewrite Em in Hr.
Qed.

(** ** The code length code *)
Lemma order_range i o : aget order i = Some o -> 0 <= o < 19.
Proof.
  unfold aget. destruct (0 <=? i); [|done].
  assert (Ha : Forall (fun x => 0 <= x < 19) order) by (repeat (apply List.Forall_cons; [lia|]); apply List.Forall_nil).
  intros Ho. by apply (Forall_lookup_1 _ _ _ _ Ha Ho).
Qed.

Lemma lens_set7_insert have lens o l :
  lens_set7 have lens -> length lens = 320%nat -> aget order have = Some o -> 0 <= l <= 7 ->
  lens_set7 (have + 1) (<[Z.to_nat o := l]> lens).
Proof.
  intros H Hle Ho Hl i o' Hi Ho'.
  assert (Hor := order_range _ _ Ho). rewrite aget_insert by lia. destruct (Z.eqb_spec o' o) as [->|]; [by exists l|].
  apply (H i); [|done]. destruct (Z.eq_dec i have); [congruence|lia].
Qed.

Lemma order_in i : 0 <= i < 19 -> exists o, aget order i = Some o /\ 0 <= o < 19.
Proof.
  intros Hi. destruct (aget_in order i ltac:(simpl; lia)) as [o Ho]. exists o. split; [done|]. by eapply order_range.
Qed.

(** All of the nineteen lengths are set. *)
Lemma lens_set7_take lens : lens_set7 19 lens -> (19 <= length lens)%nat -> Forall (fun l => 0 <= l <= 7) (take 19 lens).
Proof.
  intros H Hl. apply Forall_lookup_2. intros i l [Hi Hlt]%lookup_take_Some.
  assert (exists j, 0 <= j < 19 /\ aget order j = Some (Z.of_nat i)) as (j & Hj & Ho).
  { assert (Hc : forallb (fun i => existsb (fun j => bool_decide (aget order (Z.of_nat j) = Some (Z.of_nat i))) (seq 0 19)) (seq 0 19) = true) by done.
    rewrite forallb_forall in Hc. specialize (Hc i ltac:(apply in_seq; lia)). apply existsb_exists in Hc as (j & Hj%in_seq & Ho%bool_decide_eq_true).
    exists (Z.of_nat j). split; [lia|done]. }
  destruct (H j _ Hj Ho) as (l' & El & Hr). unfold aget in El. destruct (Z.leb_spec 0 (Z.of_nat i)); [|lia].
  rewrite Nat2Z.id, Hi in El. by injection El as ->.
Qed.

(** The state between two rounds of the loops of [case LENLENS]. *)
Record lenlens_at (K : consts) (mu : Z) (c : ctx) : Prop := {
  la_base : inv_base K c;
  la_mode : s_mode (c_st c) = LENLENS;
  la_dims : dims_ok (c_st c);
  la_ncode : 4 <= s_ncode (c_st c) <= 19;
  la_have : 0 <= s_have (c_st c) <= 19;
  la_lens : lens_set7 (s_have (c_st c)) (s_lens (c_st c));
  la_bits : r_bits (c_r c) <= 7;
  la_mu : measure c <= mu;
  la_ret : r_ret (c_r c) = Z_OK }.

Lemma lenlens_inv K mu c : lenlens_at K mu c -> s_have (c_st c) <= s_ncode (c_st c) -> inv K c.
Proof.
  intros [Hb Hm Hd Hn Hh Hl Hb7 _ Hrt] Hle. rewrite <- (with_mode_same _ _ Hm). apply inv_base_mode; try done.
  cbn [mode_ok]; csimp_goal. repeat (split; [done || lia|]). done.
Qed.

Lemma lenlens_next K mu strm st put left next have hold bits in_ out ret hold' bits' next' have' o l :
  lenlens_at K mu (Ctx strm st (Regs put left next have hold bits in_ out ret)) ->
  in_ok (in_buf strm) next' have' -> next' + have' = next + have -> have' <= have -> hold_ok hold' bits' -> bits' <= 7 ->
  8 * have' + bits' <= 8 * have + bits -> s_have st < 19 -> aget order (s_have st) = Some o -> 0 <= l <= 7 ->
  lenlens_at K mu (Ctx strm (upd s_lens (fun _ => <[Z.to_nat o := l]> (s_lens st)) (upd s_have (fun _ => s_have st + 1) st))
    (Regs put left next' have' hold' bits' in_ out ret)).
Proof.
  intros [Hb Hm Hd Hn Hh Hl Hb7 Hmu Hrt] Hi He Hv Ho Hb7' Hbits Hlt Hord Hl7. unfold measure in Hmu. csimp.
  assert (Hle : length (s_lens st) = 320%nat) by (destruct Hb as [_ _ _ _ _ _ _ _ _ [_ _ _ _ Hle _ _ _ _]]; exact Hle).
  split; csimp_goal; try (done || lia).
  - eapply inv_base_upd; try done. csimp_goal. by rewrite length_insert.
  - by apply lens_set7_insert.
  - unfold measure; csimp_goal. lia.
Qed.

Lemma lenlens_loop_ok K mu fuel c :
  lenlens_at K mu c -> s_have (c_st c) <= s_ncode (c_st c) -> 19 - s_have (c_st c) < Z.of_nat fuel ->
  wp (left_ok K) (returned K) (lenlens_loop fuel) (fun _ c' => lenlens_at K mu c') c.
Proof.
  revert c. induction fuel as [|fuel IH]; intros c Hc Hle Hf; [destruct (la_have _ _ _ Hc); lia|]. cbn [lenlens_loop]. wp_steps.
  assert (Hh := la_have _ _ _ Hc). assert (Hn := la_ncode _ _ _ Hc). assert (Hinv := lenlens_inv _ _ _ Hc Hle).
  destruct (Z.ltb_spec (s_have (c_st c)) (s_ncode (c_st c))) as [Hlt|Hge]; [|by apply wp_ret].
  destruct c as [strm st [put left next have hold bits in_ out ret]]. csimp.
  assert (Hle' : length (s_lens st) = 320%nat) by (destruct Hinv as [_ _ _ _ _ _ _ _ _ [_ _ _ _ Hle' _ _ _ _]]; exact Hle').
  assert (Hb7 := la_bits _ _ _ Hc). destruct (order_in (s_have st) ltac:(lia)) as (o & Ho & Hor). csimp.
  apply wp_bind, wp_needbits; csimp_goal; [split; csimp_goal; apply Hinv|lia|left; lia| |].
  - intros nx hv hd bt [Si Sh Se Sb Sm _] Hn3 Hmx _. csimp. wp_steps. eapply wp_lift; [exact Ho|]. wp_steps.
    apply wp_bits; csimp_goal; [lia|]. wp_steps. eapply wp_lift; [apply aset_in; lia|]. wp_steps.
    apply wp_dropbits; csimp_goal; [done|lia|lia|]. rewrite u32_small by lia.
    assert (Hm := Z.mod_pos_bound hd (2 ^ 3) ltac:(lia)).
    apply IH; csimp_goal; [|lia|lia].
    eapply (lenlens_next K mu strm st put left next have hold bits); try (done || lia). apply hold_drop; (done || lia).
  - intros nx hd bt [Si Sh Se Sb Sm _] Hn3 _. csimp. csimp_goal. assert (Hm := la_mode _ _ _ Hc). csimp.
    change (left_ok K (Ctx strm st (Regs put left nx 0 hd bt in_ out ret))). leaving.
    rewrite <- (with_mode_same _ (Ctx strm st (Regs put left nx 0 hd bt in_ out ret)) Hm). destruct Hc as [Hb _ Hd Hn' Hh' Hl _ _ Hrt]. csimp.
    apply inv_base_mode; csimp_goal; try done.
    + eapply inv_base_upd; try done. destruct (i_in _ _ Hinv) as (_ & ? & _). csimp. lia.
    + cbn [mode_ok]; csimp_goal. split; [lia|]. split; [done|]. split; [done|]. split; [lia|done].
Qed.

Lemma zero_lens_loop_ok K mu fuel c :
  lenlens_at K mu c -> 19 - s_have (c_st c) < Z.of_nat fuel ->
  wp (left_ok K) (returned K) (zero_lens_loop fuel) (fun _ c' => lenlens_at K mu c' /\ s_have (c_st c') = 19) c.
Proof.
  revert c. induction fuel as [|fuel IH]; intros c Hc Hf; [destruct (la_have _ _ _ Hc); lia|]. cbn [zero_lens_loop]. wp_steps.
  assert (Hh := la_have _ _ _ Hc). destruct (Z.ltb_spec (s_have (c_st c)) 19) as [Hlt|Hge]; [|apply wp_ret; split; [done|lia]].
  destruct c as [strm st [put left next have hold bits in_ out ret]]. csimp.
  assert (Hb := la_base _ _ _ Hc). destruct Hb as [Hi _ _ _ _ _ _ _ _ [Hho _ _ _ Hle _ _ _ _]]. unfold with_mode in *. csimp.
  destruct (order_in (s_have st) ltac:(lia)) as (o & Ho & Hor). wp_steps. eapply wp_lift; [exact Ho|]. wp_steps.
  eapply wp_lift; [apply aset_in; lia|]. wp_steps. rewrite u32_small by lia. assert (Hb7 := la_bits _ _ _ Hc). csimp.
  apply IH; csimp_goal; [|lia]. eapply (lenlens_next K mu strm st put left next have hold bits); try (done || lia).
Qed.

(** Building the table of the code length code. *)
Lemma lenlens_rest_ok flush K mu c :
  lenlens_at K mu c -> s_have (c_st c) <= s_ncode (c_st c) ->
  wp (left_ok K) (returned K) (case_LENLENS flush) (progress K mu) c.
Proof.
  intros Hc Hle. unfold case_LENLENS. apply wp_bind. eapply wp_mono.
  { apply (lenlens_loop_ok K mu); [done|done|]. destruct (la_have _ _ _ Hc). lia. }
  intros [] c1 Hc1. clear c Hc Hle. cbv beta. apply wp_bind. eapply wp_mono.
  { apply (zero_lens_loop_ok K mu); [done|]. destruct (la_have _ _ _ Hc1). lia. }
  intros [] c Hc. clear c1 Hc1. cbv beta. destruct Hc as [[Hb Hm Hd Hn Hh Hl Hb7 Hmu Hrt] H19].
  destruct c as [strm st [put left next have hold bits in_ out ret]]. csimp. rewrite H19 in Hl. unfold measure in Hmu. csimp.
  rewrite Hm in Hmu. cbn [rank] in Hmu.
  assert (Hs := Hb). destruct Hs as [Hin _ _ _ _ _ _ _ _ [Hho _ _ _ Hlen Hwork Hcodes _ _]]. unfold with_mode in *. csimp.
  assert (H7 := lens_set7_take _ Hl ltac:(lia)). wp_steps.
  eapply (wp_build_table _ _ CODES (take 19 (s_lens st)) (drop 19 (s_lens st))); csimp_goal; try (done || lia).
  { by rewrite take_drop. }
  { rewrite length_take. lia. }
  { revert H7. apply Forall_impl. lia. }
  { rewrite length_take. cbn [type_syms]. lia. }
  { intros _. revert H7. apply Forall_impl. lia. }
  { rewrite Hcodes. unfold room, ENOUGH, ENOUGH_LENS, ENOUGH_DISTS. lia. }
  { rewrite length_take. lia. }
  intros r T. match goal with |- wp _ _ _ _ (Ctx _ ?s _) =>
    assert (F : (s_wrap s, s_wbits s, s_wsize s, s_whave s, s_wnext s, s_window s, s_head s, s_sane s) =
        (s_wrap st, s_wbits st, s_wsize st, s_whave st, s_wnext st, s_window st, s_head st, s_sane st) /\
      s_codes s = tr_tbl r /\ s_lencode s = InCodes 0 /\ s_lenbits s = tr_bits r /\ s_lens s = s_lens st /\ s_work s = tr_work r /\
      s_nlen s = s_nlen st /\ s_ndist s = s_ndist st) by done;
    revert F; generalize s; intros st1 (F & Fc & Fp & Fb & Fl & Fw & Fn & Fd) end.
  assert (Hup : forall st2, s_lens st2 = s_lens st1 -> s_work st2 = s_work st1 -> s_codes st2 = s_codes st1 ->
    (s_wrap st2, s_wbits st2, s_wsize st2, s_whave st2, s_wnext st2, s_window st2, s_head st2, s_sane st2) =
    (s_wrap st1, s_wbits st1, s_wsize st1, s_whave st1, s_wnext st1, s_window st1, s_head st1, s_sane st1) ->
    inv_base K (Ctx strm st2 (Regs put left next have hold bits in_ out (tr_ret r)))).
  { intros st2 H1 H2 H3 H4. eapply inv_base_upd; [exact Hb|congruence|congruence|..]; try (done || lia).
    - rewrite H2, Fw. apply T.
    - rewrite H3, Fc. apply T. }
  destruct (nz (tr_ret r)) eqn:Er.
  { wp_steps. split; [exact (inv_base_bad K _ _ (Hup st1 eq_refl eq_refl eq_refl eq_refl))|]. mu. }
  apply nz_false in Er. wp_steps. apply codelens_rest_ok.
  assert (Hgood : good_table CODES (code_at st1 (InCodes 0)) (s_lenbits st1) (take 19 (s_lens st))).
  { unfold code_at. rewrite Fc, Fb. eapply (inflate_table_good CODES (take 19 (s_lens st)) _ 0 7); try done.
    - rewrite length_take. cbn [type_syms]. lia.
    - revert H7. apply Forall_impl. lia. }
  split; csimp_goal.
  - by apply Hup.
  - done.
  - unfold dims_ok in *. csimp_goal. by rewrite Fn, Fd.
  - rewrite Fn, Fd. destruct Hd. lia.
  - intros i Hi. lia.
  - done.
  - by exists (take 19 (s_lens st)).
  - eapply fed_codes_few; [done|exact Hgood|done].
  - lia.
  - mu.
  - done.
Qed.

Lemma case_LENLENS_ok flush : case_ok (case_LENLENS flush) LENLENS.
Proof.
  intros K mu c Hi Em Hmu. assert (Hs := i_st _ _ Hi). rewrite Em in Hs.
  destruct (so_mode _ _ _ _ Hs) as (Hb & Hd & Hn & Hh & Hl). apply lenlens_rest_ok; [|lia]. split; try (done || lia).
  - apply inv_base_intro; [done|by rewrite Em..].
  - assert (Hr := i_ret _ _ Hi). by rewrite Em in Hr.
Qed.

Lemma case_TABLE_ok flush : case_ok (case_TABLE flush) TABLE.
Proof.
  start. unfold case_TABLE. apply wp_bind. needbits.
  2:{ rebuild; rewrite ?Emode; try done. cbn [mode_ok]. lia. }
  apply wp_bind, wp_bits; csimp_goal; [lia|]. wp_steps. apply wp_dropbits; csimp_goal; [done|lia|lia|].
  assert (Hh1 := hold_drop _ _ 5 Shold' ltac:(lia)). assert (Hh2 := hold_drop _ _ 5 Hh1 ltac:(lia)). assert (Hh3 := hold_drop _ _ 4 Hh2 ltac:(lia)).
  apply wp_bind, wp_bits; csimp_goal; [lia|]. wp_steps. apply wp_dropbits; csimp_goal; [done|lia|lia|].
  apply wp_bind, wp_bits; csimp_goal; [lia|]. wp_steps. apply wp_dropbits; csimp_goal; [done|lia|lia|]. wp_steps.
  set (h1 := hd / 2 ^ 5) in *. set (h2 := h1 / 2 ^ 5) in *.
  assert (M1 := Z.mod_pos_bound hd (2 ^ 5) ltac:(lia)). assert (M2 := Z.mod_pos_bound h1 (2 ^ 5) ltac:(lia)).
  assert (M3 := Z.mod_pos_bound h2 (2 ^ 4) ltac:(lia)).
  destruct (Z.ltb_spec 286 (hd mod 2 ^ 5 + 257)), (Z.ltb_spec 30 (h1 mod 2 ^ 5 + 1)); cbn [orb].
  1-3: wp_steps; split; [|mu]; rebuild.
  wp_steps. apply case_LENLENS_ok; csimp_goal; [|done|mu]. rebuild. cbn [mode_ok]; csimp_goal.
  split; [lia|]. split; [split; csimp_goal; lia|]. split; [lia|]. split; [lia|]. intros i o Hi. lia.
Qed.
