(* ===== verification/InflateSafe5.v ===== *)
(** The cases of [inflate()] for the zlib and gzip headers. *)
From S2P Require Import Prelude Record Bits Huffman InfTrees Inffixed InfTreesProof InfDecode Fixed.
From S2P Require Import Lz Crc32 Adler32 InflateState InflateMonad InfFast Inflate InflateWp InflateSym.
From S2P Require Import InfFastProof InflateInv InflateSafe1 InflateSafe2 InflateSafe3 InflateSafe4.

(** ** The caller's header *)
Section header.
Context (L : ctx -> Prop) (R : Z -> ctx -> Prop).

Lemma upd_head_same st : st <| s_head := s_head st |> = st.
Proof. by destruct st. Qed.

Lemma wp_set_head f (Q : () -> ctx -> Prop) strm st r :
  head_ok (s_head st) -> (forall h, head_ok (Some h) -> head_ok (Some (f h))) ->
  (forall head, head_ok head -> Q tt (Ctx strm (st <| s_head := head |>) r)) ->
  wp L R (set_head f) Q (Ctx strm st r).
Proof.
  intros Hh Hf HQ. unfold set_head. wp_steps. destruct (s_head st) as [h|] eqn:E.
  - wp_steps. apply HQ. by apply Hf.
  - wp_steps. rewrite <- (upd_head_same st), E. by apply HQ.
Qed.

Lemma wp_header_crc crc (Q : () -> ctx -> Prop) strm st r :
  (forall check, Q tt (Ctx strm (st <| s_check := check |>) r)) -> wp L R (header_crc crc) Q (Ctx strm st r).
Proof.
  intros HQ. unfold header_crc. wp_steps. apply wp_when; intros _; wp_steps; [apply HQ|].
  specialize (HQ (s_check st)). by destruct st.
Qed.

(** What storing a byte of the name or of the comment does. *)
Definition store_ok (store : Z -> M unit) : Prop :=
  forall len (Q : () -> ctx -> Prop) strm st r, head_ok (s_head st) -> 0 <= s_length st < 2 ^ 32 ->
    (forall head l, head_ok head -> 0 <= l < 2 ^ 32 -> Q tt (Ctx strm (st <| s_head := head |> <| s_length := l |>) r)) ->
    wp L R (store len) Q (Ctx strm st r).

Lemma store_byte_ok (f : gz_header -> option (list Z)) `{!Setter f} (max : gz_header -> Z) :
  (forall h b, head_ok (Some h) -> f h = Some b -> max h <= Z.of_nat (length b)) ->
  (forall h b b', head_ok (Some h) -> f h = Some b -> length b' = length b -> head_ok (Some (h <| f := Some b' |>))) ->
  store_ok (store_byte f max).
Proof.
  intros Hmax Hset len Q strm st r Hh Hl HQ. unfold store_byte. wp_steps.
  assert (Hsame : Q tt (Ctx strm st r)).
  { specialize (HQ (s_head st) (s_length st) Hh Hl). by destruct st. }
  destruct (s_head st) as [h|] eqn:E; [|by apply wp_ret]. destruct (f h) as [b|] eqn:Eb; [|by apply wp_ret]. wp_steps.
  specialize (Hmax _ _ Hh Eb). destruct (Z.ltb_spec (s_length st) (max h)) as [Hlt|]; [|by apply wp_ret].
  wp_steps. eapply wp_lift; [apply aset_in; lia|]. wp_steps. apply HQ; [|apply u32_range].
  eapply Hset; [done|done|]. apply length_insert.
Qed.

Lemma store_name_ok : store_ok (store_byte h_name h_name_max).
Proof.
  apply store_byte_ok.
  - intros h b (_ & H & _). apply H.
  - intros h b b' (H1 & H2 & H3) E El. split; [done|]. split; [|done]. intros x [= <-]. rewrite El. by apply H2.
Qed.
Lemma store_comment_ok : store_ok (store_byte h_comment h_comm_max).
Proof.
  apply store_byte_ok.
  - intros h b (_ & _ & H). apply H.
  - intros h b b' (H1 & H2 & H3) E El. split; [done|]. split; [done|]. intros x [= <-]. rewrite El. by apply H3.
Qed.

Lemma wp_string_loop store fuel copy (Q : Z * Z -> ctx -> Prop) strm st r :
  store_ok store -> in_ok (in_buf strm) (r_next r) (r_have r) -> 0 <= copy < r_have r -> r_have r - copy <= Z.of_nat fuel ->
  head_ok (s_head st) -> 0 <= s_length st < 2 ^ 32 ->
  (forall len copy' head l, copy < copy' <= r_have r -> head_ok head -> 0 <= l < 2 ^ 32 ->
     Q (len, copy') (Ctx strm (st <| s_head := head |> <| s_length := l |>) r)) ->
  wp L R (string_loop fuel store copy) Q (Ctx strm st r).
Proof.
  intros Hs (Hi1 & Hi2 & Hi3 & Hi4). revert copy st. induction fuel as [|fuel IH]; intros copy st Hc Hf Hh Hl HQ; [lia|].
  cbn [string_loop]. wp_steps. destruct (aget_in (in_buf strm) (r_next r + copy) ltac:(lia)) as [b Hb].
  eapply wp_lift; [exact Hb|]. apply wp_bind, Hs; [done|done|]. intros head l Hh' Hl'.
  destruct (nz b && (copy + 1 <? r_have r)) eqn:Ec.
  - apply andb_true_iff in Ec as [_ Ec%Z.ltb_lt]. apply IH; csimp_goal; try (done || lia).
    intros len copy' head' l' Hc' Hh2 Hl2. exact (HQ len copy' head' l' ltac:(lia) Hh2 Hl2).
  - apply wp_ret. apply HQ; try done. lia.
Qed.
End header.

Lemma wp_read_string L R store (Q : () -> ctx -> Prop) strm st put left next have hold bits in_ out ret :
  store_ok L R store -> in_ok (in_buf strm) next have -> head_ok (s_head st) -> 0 <= s_length st < 2 ^ 32 ->
  L (Ctx strm st (Regs put left next have hold bits in_ out ret)) ->
  (forall next' have' head l check, in_ok (in_buf strm) next' have' -> next' + have' = next + have -> have' < have ->
     head_ok head -> 0 <= l < 2 ^ 32 ->
     let c := Ctx strm (st <| s_head := head |> <| s_length := l |> <| s_check := check |>) (Regs put left next' have' hold bits in_ out ret) in
     L c /\ Q tt c) ->
  wp L R (read_string store) Q (Ctx strm st (Regs put left next have hold bits in_ out ret)).
Proof.
  intros Hs Hi Hh Hl HL HQ. unfold read_string. wp_steps. assert (Hi' := Hi). destruct Hi' as (Hi1 & Hi2 & Hi3 & Hi4).
  destruct (Z.eqb_spec have 0) as [->|H0]; [by apply wp_leave|]. apply wp_bind, wp_string_loop; csimp_goal; try (done || lia).
  intros len copy' head l Hc Hh' Hl'. wp_steps.
  assert (Hend : forall check, wp L R (rput r_have (u32 (have - copy'));; rput r_next (next + copy');; if nz len then inf_leave else mret ()) Q
    (Ctx strm (st <| s_head := head |> <| s_length := l |> <| s_check := check |>) (Regs put left next have hold bits in_ out ret))).
  { intros check. wp_steps. rewrite u32_small by lia. 
    destruct (HQ (next + copy') (have - copy') head l check) as [HL' HQ']; try (done || lia).
    { unfold in_ok. repeat split; (done || lia). }
    destruct (nz len); [by apply wp_leave|by apply wp_ret]. }
  apply wp_when; intros _.
  - wp_steps. eapply wp_lift; [apply slice_in; lia|]. wp_steps. apply Hend.
  - specialize (Hend (s_check st)). by destruct st.
Qed.

Lemma case_HCRC_ok : case_ok case_HCRC HCRC.
Proof.
  start. unfold case_HCRC. wp_steps.
  assert (Hnext : forall nx hv hd bt, in_ok (in_buf strm) nx hv -> hold_ok hd bt -> nx + hv = k_iend K -> hv <= k_in0 K -> bt <= 16 ->
    4 * (8 * hv + bt + left) + 3 <= mu ->
    wp (left_ok K) (returned K) (set_head (fun h => h <| h_hcrc := (s_flags st ≫ 9) .& 1 |> <| h_done := 1 |>);;
       sput s_check (crc32 0 None);; zput z_adler (crc32 0 None);; sput s_mode TYPE;; break_)
      (progress K mu) (Ctx strm st (Regs put left nx hv hd bt in_ out ret))).
  { intros nx hv hd bt Hi Ho He Hv Hb Hm. apply wp_bind, wp_set_head; [done|done|]. intros head Hh. wp_steps.
    split; [|mu]. rebuild. }
  cbv zeta. destruct (nz (s_flags st .& 0x0200)).
  - apply wp_bind. needbits.
    + wp_steps. destruct (negb _).
      * wp_steps. split; [|mu]. rebuild.
      * apply wp_bind, wp_initbits. csimp_goal. apply Hnext; try (done || lia).
    + rebuild; rewrite ?Emode; try done. cbn [mode_ok]. lia.
  - apply Hnext; try (done || lia).
Qed.

(** The end of a string. *)
Lemma case_COMMENT_ok : case_ok case_COMMENT COMMENT.
Proof.
  start. unfold case_COMMENT. wp_steps. destruct Smode as [Hb Hl]. subst bits.
  destruct (nz (s_flags st .& 0x1000)).
  - wp_steps. apply wp_read_string; csimp_goal; try done; [apply store_comment_ok|leaving; exact Hinv|].
    intros nx hv head l check Hi He Hv Hh Hl'. cbv zeta. split.
    + leaving. rebuild; rewrite ?Emode; try done.
    + wp_steps. apply case_HCRC_ok; csimp_goal; [|done|mu]. rebuild.
  - wp_steps. apply wp_set_head; [done|by intros h (? & ? & ?)|]. intros head Hh. wp_steps.
    apply case_HCRC_ok; csimp_goal; [|done|mu]. rebuild.
Qed.

Lemma case_NAME_ok : case_ok case_NAME NAME.
Proof.
  start. unfold case_NAME. wp_steps. destruct Smode as [Hb Hl]. subst bits.
  destruct (nz (s_flags st .& 0x0800)).
  - wp_steps. apply wp_read_string; csimp_goal; try done; [apply store_name_ok|leaving; exact Hinv|].
    intros nx hv head l check Hi He Hv Hh Hl'. cbv zeta. split.
    + leaving. rebuild; rewrite ?Emode; try done.
    + wp_steps. apply case_COMMENT_ok; csimp_goal; [|done|mu]. rebuild.
  - wp_steps. apply wp_set_head; [done|by intros h (? & ? & ?)|]. intros head Hh. wp_steps.
    apply case_COMMENT_ok; csimp_goal; [|done|mu]. rebuild.
Qed.

Lemma wp_store_extra L R copy (Q : () -> ctx -> Prop) strm st r :
  head_ok (s_head st) -> Q tt (Ctx strm st r) -> wp L R (store_extra copy) Q (Ctx strm st r).
Proof.
  intros Hh HQ. unfold store_extra. wp_steps. destruct (s_head st) as [h|]; [|by apply wp_ret].
  destruct Hh as (-> & _). by apply wp_ret.
Qed.

Lemma case_EXTRA_ok : case_ok case_EXTRA EXTRA.
Proof.
  start. unfold case_EXTRA. wp_steps. destruct Smode as [Hb Hl]. subst bits.
  assert (Hnext : forall nx hv s, in_ok (in_buf strm) nx hv -> nx + hv = k_iend K -> hv <= have ->
    state_ok NAME (s <| s_length := 0 |> <| s_mode := NAME |>) hold 0 ->
    wp (left_ok K) (returned K) (sput s_length 0;; sput s_mode NAME;; case_NAME)
      (progress K mu) (Ctx strm s (Regs put left nx hv hold 0 in_ out ret))).
  { intros nx hv s Hi He Hv Hs. wp_steps. apply case_NAME_ok; csimp_goal; [|done|mu].
    split; csimp_goal; try (done || lia). }
  apply wp_when; intros Ef.
  2:{ apply Hnext; try (done || lia). split; csimp_goal; try done; wbits_tac. }
  specialize (Hl Ef). wp_steps. set (copy := if have <? s_length st then have else s_length st).
  assert (Iin' := Iin). destruct Iin' as (Hi1 & Hi2 & Hi3 & Hi4).
  assert (Hc : 0 <= copy <= s_length st /\ copy <= have) by (unfold copy; destruct (Z.ltb_spec have (s_length st)); lia).
  assert (Hrest : forall nx hv len check, in_ok (in_buf strm) nx hv -> nx + hv = k_iend K -> hv <= have -> 0 <= len < 2 ^ 32 ->
    let c := Ctx strm (st <| s_check := check |> <| s_length := len |>) (Regs put left nx hv hold 0 in_ out ret) in
    wp (left_ok K) (returned K) (length ← sget s_length; if nz length then inf_leave else mret ())
      (fun _ => wp (left_ok K) (returned K) (sput s_length 0;; sput s_mode NAME;; case_NAME) (progress K mu)) c).
  { intros nx hv len check Hi He Hv Hln. cbv zeta. wp_steps. destruct (nz len).
    - apply wp_leave. leaving. rebuild; rewrite ?Emode; try done.
    - apply wp_ret, Hnext; try (done || lia). split; csimp_goal; try done; wbits_tac. }
  apply wp_when; intros Ec.
  - apply nz_true in Ec. apply wp_bind, wp_store_extra; [done|]. wp_steps.
    assert (Hin : in_ok (in_buf strm) (next + copy) (have - copy)) by (unfold in_ok; repeat split; (done || lia)).
    assert (Hi := Hrest (next + copy) (have - copy) (s_length st - copy)).
    apply wp_when; intros _; wp_steps.
    + eapply wp_lift; [apply slice_in; lia|]. wp_steps. rewrite !u32_small by lia. apply Hi; (done || lia).
    + rewrite !u32_small by lia. specialize (Hi (s_check st) Hin ltac:(lia) ltac:(lia) ltac:(lia)). by destruct st.
  - specialize (Hrest next have (s_length st) (s_check st) Iin Iiend ltac:(lia) Hl). by destruct st.
Qed.

Lemma case_EXLEN_ok : case_ok case_EXLEN EXLEN.
Proof.
  start. destruct Smode as (Hb8 & Hb16 & Hb0). unfold case_EXLEN. wp_steps. destruct (nz (s_flags st .& 0x0400)) eqn:Ef.
  - wp_steps. needbits.
    + wp_steps. apply wp_set_head; [done|by intros h (? & ? & ?)|]. intros head Hh. apply wp_bind, wp_header_crc. intros check.
      apply wp_initbits. csimp_goal. wp_steps. apply case_EXTRA_ok; csimp_goal; [|done|mu]. rebuild.
      cbn [mode_ok]; csimp_goal. split; [done|]. intros _. destruct Shold' as [? ?]. assert (2 ^ bt <= 2 ^ 32) by (apply Z.pow_le_mono_r; lia). lia.
    + rebuild; rewrite ?Emode; try done. cbn [mode_ok]. split; [lia|]. split; [lia|congruence].
  - rewrite (Hb0 eq_refl) in *. wp_steps. apply wp_set_head; [done|by intros h (? & ? & ?)|]. intros head Hh. wp_steps.
    apply case_EXTRA_ok; csimp_goal; [|done|mu]. rebuild. cbn [mode_ok]; csimp_goal. split; [done|congruence].
Qed.

Lemma case_OS_ok : case_ok case_OS OS.
Proof.
  start. unfold case_OS. apply wp_bind. needbits.
  - wp_steps. apply wp_set_head; [done|by intros h (? & ? & ?)|]. intros head Hh. apply wp_bind, wp_header_crc. intros check.
    apply wp_bind, wp_initbits. csimp_goal. wp_steps. apply case_EXLEN_ok; csimp_goal; [|done|mu]. rebuild.
  - rebuild; rewrite ?Emode; try done. cbn [mode_ok]. lia.
Qed.

Lemma case_TIME_ok : case_ok case_TIME TIME.
Proof.
  start. unfold case_TIME. apply wp_bind. needbits.
  - wp_steps. apply wp_set_head; [done|by intros h (? & ? & ?)|]. intros head Hh. apply wp_bind, wp_header_crc. intros check.
    apply wp_bind, wp_initbits. csimp_goal. wp_steps. apply case_OS_ok; csimp_goal; [|done|mu]. rebuild.
  - rebuild; rewrite ?Emode; try done. cbn [mode_ok]. lia.
Qed.

Lemma case_FLAGS_ok : case_ok case_FLAGS FLAGS.
Proof.
  start. unfold case_FLAGS. apply wp_bind. needbits.
  - wp_steps. destruct (negb _); [wp_steps; split; [|mu]; rebuild|]. destruct (nz (hd .& 0xe000)); [wp_steps; split; [|mu]; rebuild|].
    apply wp_bind, wp_set_head; [done|by intros h (? & ? & ?)|]. intros head Hh. apply wp_bind, wp_header_crc. intros check.
    apply wp_bind, wp_initbits. csimp_goal. wp_steps. apply case_TIME_ok; csimp_goal; [|done|mu]. rebuild.
  - rebuild; rewrite ?Emode; try done. cbn [mode_ok]. lia.
Qed.

(** ** The preset dictionary *)
Lemma case_DICT_ok flush : case_ok (case_DICT flush) DICT.
Proof.
  start. subst bits. unfold case_DICT. wp_steps. destruct (s_havedict st =? 0).
  - apply wp_bind, wp_restore. apply wp_return. split; [|by repeat split]. rebuild; rewrite ?Emode; try done.
  - wp_steps. apply case_TYPE_ok; csimp_goal; [|done|mu]. rebuild.
Qed.

Lemma case_DICTID_ok flush : case_ok (case_DICTID flush) DICTID.
Proof.
  start. unfold case_DICTID. apply wp_bind. needbits.
  - wp_steps. apply wp_initbits. csimp_goal. wp_steps. apply case_DICT_ok; csimp_goal; [|done|mu]. rebuild.
  - rebuild; rewrite ?Emode; try done. cbn [mode_ok]. lia.
Qed.


(** ** The start of the header *)
Lemma wbits_ok_wrap m m' wrap wbits wsize window :
  wbits_ok m wrap wbits wsize window -> wrap <> 1 -> wbits_ok m' wrap wbits wsize window.
Proof. intros [H|(_ & -> & _)] Hw; [by left|done]. Qed.

Lemma wbits_ok_set m m' wrap wbits wsize window len :
  wbits_ok m wrap wbits wsize window -> 8 <= len <= 23 -> wbits_ok m' wrap (if wbits =? 0 then len else wbits) wsize window.
Proof.
  intros [(H1 & H2 & H3)|(-> & _ & -> & -> & _)] Hl.
  - left. destruct (Z.eqb_spec wbits 0); [lia|]. done.
  - left. cbn [Z.eqb]. split; [done|]. split; [by left|done].
Qed.

Lemma case_HEAD_ok : case_ok case_HEAD HEAD.
Proof.
  start. unfold case_HEAD. wp_steps. destruct (Z.eqb_spec (s_wrap st) 0) as [Ew|Ew].
  { wp_steps. split; [|mu]. rebuild; [eapply wbits_ok_wrap; [done|lia]|]. cbn [mode_ok]. lia. }
  assert (Hb : bits mod 8 = 0 /\ bits < 16) by (destruct Smode as [[? _]|?]; [done|done]). clear Smode. apply wp_bind. needbits.
  2:{ rebuild; rewrite ?Emode; try done. cbn [mode_ok]. right. lia. }
  assert (bt = 16) as -> by dlia. wp_steps.
  destruct (nz (s_wrap st .& 2) && (hd =? 0x8b1f)) eqn:Egz.
  { wp_steps. apply wp_initbits. csimp_goal. wp_steps. split; [|mu]. rebuild.
    eapply wbits_ok_wrap; [done|]. intros E. by rewrite E in Egz. }
  wp_steps. apply wp_set_head; [done|by intros h (? & ? & ?)|]. intros head Hh. csimp_goal.
  apply wp_bind, wp_bits; csimp_goal; [lia|]. destruct (_ || _); [wp_steps; split; [|mu]; rebuild|].
  apply wp_bind, wp_bits; csimp_goal; [lia|]. destruct (negb _); [wp_steps; split; [|mu]; rebuild|].
  apply wp_bind, wp_dropbits; csimp_goal; [done|lia|lia|]. assert (Hh1 := hold_drop _ _ 4 Shold' ltac:(lia)).
  apply wp_bind, wp_bits; csimp_goal; [lia|]. set (len := (hd / 2 ^ 4) mod 2 ^ 4 + 8).
  assert (Hlen : 8 <= len <= 23) by (unfold len; assert (Hm := Z.mod_pos_bound (hd / 2 ^ 4) (2 ^ 4) ltac:(lia)); lia).
  wp_steps. assert (Hwb := fun m => wbits_ok_set _ m _ _ _ _ len Swbits Hlen).
  set (st1 := st <| s_flags := 0 |> <| s_head := head |>).
  assert (Hend : forall s, s_wbits s = (if s_wbits st =? 0 then len else s_wbits st) ->
    (s_wrap s, s_wsize s, s_whave s, s_wnext s, s_window s, s_head s, s_sane s, s_lens s, s_work s, s_codes s) =
    (s_wrap st, s_wsize st, s_whave st, s_wnext st, s_window st, head, s_sane st, s_lens st, s_work st, s_codes st) ->
    wp (left_ok K) (returned K)
      (if negb (s_wbits st =? 0) && (s_wbits st <? len) then bad "invalid window size" else
       sput s_dmax (1 ≪ len);; sput s_check (adler32 0 None);; zput z_adler (adler32 0 None);;
       hold ← rget r_hold; sput s_mode (if nz (hold .& 0x200) then DICTID else TYPE);; INITBITS;; break_)
      (progress K mu) (Ctx strm s (Regs put left nx hv (hd / 2 ^ 4) (16 - 4) in_ out ret))).
  { intros s Es [= E1 E2 E3 E4 E5 E6 E7 E8 E9 E10]. destruct (negb (s_wbits st =? 0) && (s_wbits st <? len)).
    - wp_steps. split; [|mu]. rebuild; rewrite ?Es, ?E1, ?E2, ?E3, ?E4, ?E5, ?E6, ?E7, ?E8, ?E9, ?E10; try done.
    - wp_steps. apply wp_initbits. csimp_goal. wp_steps. destruct (nz (hd / 2 ^ 4 .& 512)); (split; [|mu]); rebuild;
        rewrite ?Es, ?E1, ?E2, ?E3, ?E4, ?E5, ?E6, ?E7, ?E8, ?E9, ?E10; try done. }
  apply wp_when; intros Ewb; wp_steps; rewrite Ewb in *; by apply Hend.
Qed.

(** ** The state machine *)
Lemma switch_mode_ok flush m : m <> MEM -> m <> SYNC -> case_ok (switch_mode flush m) m.
Proof.
  intros H1 H2. destruct m; cbn [switch_mode]; try done.
  - apply case_HEAD_ok.
  - apply case_FLAGS_ok.
  - apply case_TIME_ok.
  - apply case_OS_ok.
  - apply case_EXLEN_ok.
  - apply case_EXTRA_ok.
  - apply case_NAME_ok.
  - apply case_COMMENT_ok.
  - apply case_HCRC_ok.
  - apply case_DICTID_ok.
  - apply case_DICT_ok.
  - apply case_TYPE_ok.
  - by apply case_TYPEDO_ok; right.
  - apply case_STORED_ok.
  - apply case_COPY__ok.
  - apply case_COPY_ok.
  - apply case_TABLE_ok.
  - apply case_LENLENS_ok.
  - apply case_CODELENS_ok.
  - apply case_LEN__ok.
  - apply case_LEN_ok.
  - apply case_LENEXT_ok.
  - apply case_DIST_ok.
  - apply case_DISTEXT_ok.
  - apply case_MATCH_ok.
  - apply case_LIT_ok.
  - apply case_CHECK_ok.
  - apply case_LENGTH_ok.
  - apply case_DONE_ok.
  - apply case_BAD_ok.
Qed.

Lemma measure_nonneg K c : inv K c -> 0 <= measure c.
Proof.
  intros [(_ & Hh & _) (b & _ & Ho & _) _ _ _ _ _ _ _ [[Hb _] _ _ _ _ _ _ _ _]]. unfold measure.
  assert (0 <= rank (s_mode (c_st c))) by (by destruct (s_mode (c_st c))). lia.
Qed.

(** The loop ends, at [inf_leave] or with a [return], and keeps the invariant. *)
Lemma inflate_loop_ok flush K fuel c :
  inv K c -> measure c < Z.of_nat fuel ->
  wp (left_ok K) (returned K) (inflate_loop flush fuel) (fun _ _ => False) c.
Proof.
  revert c. induction fuel as [|fuel IH]; intros c Hi Hf; [pose proof (measure_nonneg _ _ Hi); lia|]. cbn [inflate_loop]. wp_steps.
  assert (Hr := i_run _ _ Hi). assert (s_mode (c_st c) <> MEM /\ s_mode (c_st c) <> SYNC) as [H1 H2] by (by destruct (s_mode (c_st c))).
  eapply wp_mono; [by apply (switch_mode_ok flush _ H1 H2 K (measure c))|].
  intros [] c' [Hi' Hm]. apply IH; [done|lia].
Qed.
