(* ===== verification/Window.v ===== *)
(** The sliding window: [updatewindow()] of [src/zlib/inflate.c] keeps the last bytes of the output. *)
From S2P Require Import Prelude Record Bits Huffman InfTrees Inffixed InfTreesProof InfDecode Fixed.
From S2P Require Import Lz Crc32 Adler32 InflateState InflateMonad InfFast Inflate InflateWp InflateSym.
From S2P Require Import InfFastProof InflateInv InflateSafe1.

(** The last [n] elements of a list. *)
Definition last_n {A} (n : nat) (l : list A) : list A := drop (length l - n) l.

Lemma last_n_app {A} n (x y : list A) : (n <= length y)%nat -> last_n n (x ++ y) = last_n n y.
Proof.
  intros H. unfold last_n. rewrite length_app, drop_app_ge by lia. f_equal. lia.
Qed.
Lemma last_n_all {A} n (l : list A) : (length l <= n)%nat -> last_n n l = l.
Proof. intros H. unfold last_n. replace (length l - n)%nat with 0%nat by lia. done. Qed.

Lemma memcpy_eq dst i src j n :
  0 <= i -> 0 <= j -> 0 <= n -> i + n <= Z.of_nat (length dst) -> j + n <= Z.of_nat (length src) ->
  memcpy dst i src j n = Some (take (Z.to_nat i) dst ++ bytes_at src j n ++ drop (Z.to_nat (i + n)) dst).
Proof.
  intros. unfold memcpy. rewrite slice_in by done. cbn [mbind option_bind].
  destruct (Z.leb_spec 0 i), (Z.leb_spec (i + n) (Z.of_nat (length dst))); try lia. done.
Qed.

Lemma bytes_at_split buf i m n :
  0 <= i -> 0 <= m -> 0 <= n -> bytes_at buf i (m + n) = bytes_at buf i m ++ bytes_at buf (i + m) n.
Proof.
  intros. unfold bytes_at. rewrite Z2Nat.inj_add by lia. rewrite <- take_take_drop, drop_drop. do 3 f_equal. lia.
Qed.


(** ** Appending to a circular buffer

    [w] has [size] bytes, of which [have] are used, and [next] is where the next one goes. *)
Section ring.
Context (w : list Z) (size have next : nat).
Context (Hw : length w = size) (Hh : (have <= size)%nat) (Hn : (next < size)%nat) (Hnext : (have < size)%nat -> next = have).

Definition ring : list Z := if decide (have < size)%nat then take have w else drop next w ++ take next w.

Lemma ring_short x :
  (next + length x <= size)%nat ->
  let w1 := take next w ++ x ++ drop (next + length x) w in
  let next' := (if decide (next + length x = size) then 0 else next + length x)%nat in
  let have' := (if decide (have < size) then have + length x else have)%nat in
  (if decide (have' < size)%nat then take have' w1 else drop next' w1 ++ take next' w1) = last_n size (ring ++ x).
Proof.
  intros Hx. cbv zeta. unfold ring. destruct (decide (have < size)%nat) as [Hlt|Hge].
  - rewrite (Hnext Hlt) in *. rewrite last_n_all by (rewrite length_app, length_take; lia).
    destruct (decide (have + length x < size)%nat).
    + rewrite take_app_ge by (rewrite length_take; lia). rewrite length_take, take_app_le by lia.
      rewrite (take_ge x) by lia. done.
    + rewrite decide_True by lia. rewrite drop_0, take_0, app_nil_r. rewrite (drop_ge w) by lia. by rewrite app_nil_r.
  - rewrite decide_False by lia. unfold last_n. rewrite !length_app, length_drop, length_take.
    replace (_ + _ - size)%nat with (length x) by lia. rewrite <- app_assoc.
    destruct (decide (next + length x = size)%nat) as [E|E].
    + rewrite drop_0, take_0, app_nil_r. rewrite drop_app_ge by (rewrite length_drop; lia).
      replace (length x - length (drop next w))%nat with 0%nat by (rewrite length_drop; lia). rewrite drop_0, (drop_ge w) by lia. by rewrite app_nil_r.
    + rewrite (drop_app_ge (take next w)) by (rewrite length_take; lia). rewrite length_take.
      replace (next + length x - min next (length w))%nat with (length x) by lia.
      rewrite (drop_app_ge x) by lia. rewrite Nat.sub_diag, drop_0. rewrite (drop_app_le (drop next w)) by (rewrite length_drop; lia).
      rewrite drop_drop. f_equal. rewrite take_app_ge by (rewrite length_take; lia). rewrite length_take.
      replace (next + length x - min next (length w))%nat with (length x) by lia. by rewrite take_app_length.
Qed.

Lemma ring_wrap x y :
  (next + length x = size)%nat -> (length y < next)%nat ->
  let w1 := take next w ++ x in
  let w2 := y ++ drop (length y) w1 in
  drop (length y) w2 ++ take (length y) w2 = last_n size (ring ++ x ++ y).
Proof.
  intros Hx Hy. cbv zeta. rewrite drop_app_length, take_app_length. rewrite drop_app_le by (rewrite length_take; lia).
  unfold last_n, ring. destruct (decide (have < size)%nat) as [Hlt|Hge].
  - rewrite <- (Hnext Hlt) in *. rewrite !length_app, length_take.
    replace (_ - size)%nat with (length y) by lia. rewrite (drop_app_le (take next w)) by (rewrite length_take; lia). by rewrite <- app_assoc.
  - rewrite !length_app, length_drop, length_take. rewrite <- !app_assoc.
    replace (_ + _ - size)%nat with (length x + length y)%nat by lia.
    rewrite drop_app_ge by (rewrite length_drop; lia). rewrite length_drop.
    replace (length x + length y - (length w - next))%nat with (length y) by lia.
    rewrite (drop_app_le (take next w)) by (rewrite length_take; lia). done.
Qed.
End ring.

Lemma win_hist_ring w wsize whave wnext :
  0 <= whave -> 0 <= wnext -> 0 <= wsize ->
  win_hist w wsize whave wnext = ring w (Z.to_nat wsize) (Z.to_nat whave) (Z.to_nat wnext).
Proof.
  intros H1 H2 H3. unfold win_hist, ring. destruct (Z.ltb_spec whave wsize), (decide (Z.to_nat whave < Z.to_nat wsize)%nat); (done || lia).
Qed.

(** ** [updatewindow()] *)
Section updatewindow.
Context (zalloc : nat -> Z -> option (list Z)).
Context (zalloc_ok : forall n k l, zalloc n k = Some l -> Z.of_nat (length l) = k /\ Forall byte_ok l).

(** The window as the caller sees it, of [2 ^ wbits] bytes once it is allocated. *)
Definition window_ok (st : inflate_state) : Prop :=
  win_ok (s_wsize st) (s_whave st) (s_wnext st) (s_window st) /\
  8 <= s_wbits st <= 23 /\ (s_wsize st = 0 \/ s_wsize st = 2 ^ s_wbits st) /\
  (forall w, s_window st = Some w -> Z.of_nat (length w) = 2 ^ s_wbits st /\ Forall byte_ok w).

Definition with_window (st : inflate_state) (w : list Z) (wsize whave wnext : Z) : inflate_state :=
  st <| s_window := Some w |> <| s_wsize := wsize |> <| s_whave := whave |> <| s_wnext := wnext |>.

(** What a successful call does: only the window changes, and it holds the last bytes. *)
Definition window_updated (st : inflate_state) (buf : list Z) (end_ copy : Z) (st' : inflate_state) : Prop :=
  exists w whave wnext, st' = with_window st w (2 ^ s_wbits st) whave wnext /\ window_ok st' /\
    st_hist st' = last_n (Z.to_nat (2 ^ s_wbits st)) (st_hist st ++ bytes_at buf (end_ - copy) copy).

Lemma updatewindow_full st calls buf end_ copy w :
  8 <= s_wbits st <= 23 -> Z.of_nat (length w) = 2 ^ s_wbits st -> Forall byte_ok w -> Forall byte_ok buf ->
  s_window st = Some w -> s_wsize st = 2 ^ s_wbits st -> win_ok (s_wsize st) (s_whave st) (s_wnext st) (Some w) ->
  0 <= copy <= end_ -> end_ <= Z.of_nat (length buf) -> s_wsize st <= copy ->
  exists st', updatewindow zalloc st calls buf end_ copy = Some (st', calls, 0) /\ window_updated st buf end_ copy st'.
Proof.
  intros Hwb Hwl Hwby Hby Ew Es Hwin Hc He Hle. unfold updatewindow. rewrite Ew. cbv iota beta. rewrite Ew. cbv iota beta zeta.
  assert (0 < 2 ^ s_wbits st) by (apply pow2_pos; lia). assert (2 ^ s_wbits st <= 2 ^ 23) by (apply Z.pow_le_mono_r; lia).
  destruct (Z.eqb_spec (s_wsize st) 0); [lia|]. destruct (Z.leb_spec (s_wsize st) copy); [|lia].
  rewrite memcpy_eq by lia. cbn [mbind option_bind]. rewrite take_0, drop_ge, app_nil_l, app_nil_r by lia.
  eexists. split; [reflexivity|]. eexists _, _, _. split; [unfold with_window; rewrite <- Es; by destruct st|].
  set (bs := bytes_at buf (end_ - s_wsize st) (s_wsize st)).
  assert (Hbl : length bs = Z.to_nat (s_wsize st)) by (apply length_bytes_at; lia).
  assert (Hbb : Forall byte_ok bs) by (by apply bytes_at_bytes). split.
  - unfold window_ok, with_window. csimp_goal. split; [|split; [done|split; [by right|]]].
    + right. exists bs. split; [done|]. rewrite <- ?Es. repeat (split; [lia|]). done.
    + intros x [= <-]. split; [lia|done].
  - assert (Hdec : bytes_at buf (end_ - copy) copy = bytes_at buf (end_ - copy) (copy - s_wsize st) ++ bs).
    { unfold bs. replace copy with (copy - s_wsize st + s_wsize st) at 2 by lia. rewrite bytes_at_split by lia. do 2 f_equal. lia. }
    rewrite Hdec, app_assoc, last_n_app, last_n_all by lia.
    unfold st_hist, hist_of, with_window. csimp_goal. rewrite <- ?Es. destruct (Z.eqb_spec (s_wsize st) 0); [lia|].
    unfold win_hist. rewrite Z.ltb_irrefl. cbn [Z.to_nat]. by rewrite drop_0, take_0, app_nil_r.
Qed.

Lemma updatewindow_part st calls buf end_ copy w :
  8 <= s_wbits st <= 23 -> Z.of_nat (length w) = 2 ^ s_wbits st -> Forall byte_ok w -> Forall byte_ok buf ->
  s_window st = Some w -> s_wsize st = 2 ^ s_wbits st -> win_ok (s_wsize st) (s_whave st) (s_wnext st) (Some w) ->
  0 <= copy <= end_ -> end_ <= Z.of_nat (length buf) -> copy < s_wsize st ->
  exists st', updatewindow zalloc st calls buf end_ copy = Some (st', calls, 0) /\ window_updated st buf end_ copy st'.
Proof.
  intros Hwb Hwl Hwby Hby Ew Es Hwin Hc He Hlt. unfold updatewindow. rewrite Ew. cbv iota beta. rewrite Ew. cbv iota beta zeta.
  assert (0 < 2 ^ s_wbits st) by (apply pow2_pos; lia). assert (2 ^ s_wbits st <= 2 ^ 23) by (apply Z.pow_le_mono_r; lia).
  destruct Hwin as [(? & _)|(w0 & [= <-] & _ & _ & Hh & Hn & Hnext & _)]; [lia|].
  destruct (Z.eqb_spec (s_wsize st) 0); [lia|]. destruct (Z.leb_spec (s_wsize st) copy); [lia|].
  rewrite (u32_small (s_wsize st - s_wnext st)) by lia.
  assert (Hold : st_hist st = ring w (Z.to_nat (s_wsize st)) (Z.to_nat (s_whave st)) (Z.to_nat (s_wnext st))).
  { unfold st_hist, hist_of. rewrite Ew. destruct (Z.eqb_spec (s_wsize st) 0); [lia|]. apply win_hist_ring; lia. }
  set (dist := if copy <? s_wsize st - s_wnext st then copy else s_wsize st - s_wnext st).
  assert (Hd : 0 <= dist <= copy /\ s_wnext st + dist <= s_wsize st /\ (dist < copy -> s_wnext st + dist = s_wsize st)).
  { unfold dist. destruct (Z.ltb_spec copy (s_wsize st - s_wnext st)); lia. }
  clearbody dist. rewrite memcpy_eq by lia. cbn [mbind option_bind]. rewrite (u32_small (copy - dist)) by lia.
  set (x := bytes_at buf (end_ - copy) dist). assert (Hx : length x = Z.to_nat dist) by (apply length_bytes_at; lia).
  assert (Hxb : Forall byte_ok x) by (by apply bytes_at_bytes).
  destruct (nz (copy - dist)) eqn:Ez.
  - (* around the end of the window *)
    apply nz_true in Ez. rewrite memcpy_eq by (rewrite ?length_app, ?length_take, ?length_drop; lia). cbn [mbind option_bind].
    eexists. split; [reflexivity|]. set (y := bytes_at buf (end_ - (copy - dist)) (copy - dist)).
    assert (Hy : length y = Z.to_nat (copy - dist)) by (apply length_bytes_at; lia).
    assert (Hyb : Forall byte_ok y) by (by apply bytes_at_bytes).
    assert (Hxy : bytes_at buf (end_ - copy) copy = x ++ y).
    { unfold x, y. replace copy with (dist + (copy - dist)) at 2 by lia. rewrite bytes_at_split by lia. do 2 f_equal. lia. }
    rewrite (drop_ge w), app_nil_r by lia. rewrite take_0, app_nil_l, Z.add_0_l, <- Hy.
    set (w2 := y ++ drop (length y) (take (Z.to_nat (s_wnext st)) w ++ x)).
    assert (Hw2 : length w2 = length w) by (unfold w2; rewrite length_app, length_drop, length_app, length_take; lia).
    assert (Hb2 : Forall byte_ok w2) by (apply Forall_app; split; [done|]; apply Forall_drop, Forall_app; split; [by apply Forall_take|done]).
    exists w2, (s_wsize st), (copy - dist). split; [unfold with_window; rewrite <- Es; by destruct st|].
    split; [split; [right; exists w2|split; [done|split; [by right|]]]; csimp_goal|].
    + split; [done|]. repeat (split; [lia|]). done.
    + intros z [= <-]. split; [lia|done].
    + rewrite Hxy, Hold, <- Es. unfold st_hist, hist_of. csimp_goal. destruct (Z.eqb_spec (s_wsize st) 0); [lia|].
      unfold win_hist. rewrite Z.ltb_irrefl, <- Hy. unfold w2.
      apply (ring_wrap w (Z.to_nat (s_wsize st)) (Z.to_nat (s_whave st)) (Z.to_nat (s_wnext st))); lia.
  - (* up to the end of the window *)
    apply nz_false in Ez. assert (dist = copy) as -> by lia. rewrite !(u32_small (s_wnext st + copy)) by lia.
    eexists. split; [reflexivity|]. set (w1 := take _ w ++ x ++ _).
    assert (Hw1 : length w1 = length w) by (unfold w1; rewrite !length_app, length_take, length_drop; lia).
    assert (Hb1 : Forall byte_ok w1) by (apply Forall_app; split; [by apply Forall_take|]; apply Forall_app; split; [done|by apply Forall_drop]).
    set (wn := if s_wnext st + copy =? s_wsize st then 0 else s_wnext st + copy).
    set (wh := if s_whave st <? s_wsize st then u32 (s_whave st + copy) else s_whave st).
    assert (Hwh : wh = if s_whave st <? s_wsize st then s_whave st + copy else s_whave st).
    { unfold wh. destruct (Z.ltb_spec (s_whave st) (s_wsize st)); [|done]. rewrite u32_small by lia. done. }
    exists w1, wh, wn. split; [unfold with_window; rewrite <- Es; by destruct st|].
    split; [split; [right; exists w1|split; [done|split; [by right|]]]; csimp_goal|].
    + split; [done|]. split; [lia|]. split; [lia|]. rewrite Hwh. unfold wn.
      destruct (Z.ltb_spec (s_whave st) (s_wsize st)), (Z.eqb_spec (s_wnext st + copy) (s_wsize st)); repeat (split; [lia|]); done.
    + intros z [= <-]. split; [lia|done].
    + rewrite Hold, <- Es. fold x. unfold st_hist, hist_of. csimp_goal. destruct (Z.eqb_spec (s_wsize st) 0); [lia|].
      assert (Hr := ring_short w (Z.to_nat (s_wsize st)) (Z.to_nat (s_whave st)) (Z.to_nat (s_wnext st)) ltac:(lia) ltac:(lia) ltac:(lia) ltac:(lia) x ltac:(lia)).
      cbv zeta in Hr. rewrite <- Hr. rewrite win_hist_ring; [|rewrite Hwh; destruct (s_whave st <? s_wsize st); lia
        |unfold wn; destruct (s_wnext st + copy =? s_wsize st); lia|lia].
      unfold ring. replace (Z.to_nat wh) with (if decide (Z.to_nat (s_whave st) < Z.to_nat (s_wsize st)) then Z.to_nat (s_whave st) + length x else Z.to_nat (s_whave st))%nat.
      2:{ clear Hr. rewrite Hwh. destruct (Z.ltb_spec (s_whave st) (s_wsize st)); case_decide; lia. }
      replace (Z.to_nat wn) with (if decide (Z.to_nat (s_wnext st) + length x = Z.to_nat (s_wsize st)) then 0 else Z.to_nat (s_wnext st) + length x)%nat.
      2:{ clear Hr. unfold wn. destruct (Z.eqb_spec (s_wnext st + copy) (s_wsize st)); case_decide; lia. }
      unfold w1. rewrite Z2Nat.inj_add by lia. by rewrite Hx.
Qed.

(** Sizing a new window. *)
Lemma updatewindow_sized st c w buf end_ copy :
  0 <= s_wbits st -> s_window st = Some w -> s_wsize st = 0 -> s_whave st = 0 -> s_wnext st = 0 ->
  updatewindow zalloc st c buf end_ copy = updatewindow zalloc (st <| s_wsize := 2 ^ s_wbits st |>) c buf end_ copy.
Proof.
  intros Hb Ew Es Eh En. unfold updatewindow. csimp_goal. rewrite Ew. cbv iota beta. csimp_goal. rewrite Ew, Es. cbv iota beta.
  assert (0 < 2 ^ s_wbits st) by (apply pow2_pos; lia). destruct (Z.eqb_spec (2 ^ s_wbits st) 0); [lia|].
  cbn [Z.eqb]. cbv iota. rewrite Z.shiftl_1_l. replace (st <| s_wsize := 2 ^ s_wbits st |> <| s_wnext := 0 |> <| s_whave := 0 |>)
    with (st <| s_wsize := 2 ^ s_wbits st |>); [done|]. by destruct st; cbn in *; subst.
Qed.

(** The allocation. *)
Lemma updatewindow_alloc st c w buf end_ copy :
  s_window st = None -> zalloc c (1 ≪ s_wbits st) = Some w ->
  updatewindow zalloc st c buf end_ copy = updatewindow zalloc (st <| s_window := Some w |>) (S c) buf end_ copy.
Proof.
  intros Ew Ea. unfold updatewindow. csimp_goal. rewrite Ew. cbv iota beta. csimp_goal. rewrite Ea. done.
Qed.

(** The whole function, from any state of the window. *)
Lemma updatewindow_spec st calls buf end_ copy :
  window_ok st -> Forall byte_ok buf -> 0 <= copy <= end_ -> end_ <= Z.of_nat (length buf) ->
  exists st' calls' fail, updatewindow zalloc st calls buf end_ copy = Some (st', calls', fail) /\
    (fail = 1 /\ st' = st /\ s_window st = None \/ fail = 0 /\ window_updated st buf end_ copy st').
Proof.
  intros (Hwin & Hwb & Hws & Hwl) Hby Hc He.
  assert (0 < 2 ^ s_wbits st) by (apply pow2_pos; lia). assert (2 ^ s_wbits st <= 2 ^ 23) by (apply Z.pow_le_mono_r; lia).
  assert (Hsized : forall s c w, s_window s = Some w -> s_wsize s = 2 ^ s_wbits s -> window_ok s ->
    exists st', updatewindow zalloc s c buf end_ copy = Some (st', c, 0) /\ window_updated s buf end_ copy st').
  { intros s c w Ew Es (Hwin' & Hwb' & _ & Hwl'). destruct (Hwl' _ Ew) as [Hl Hb]. rewrite Ew in Hwin'.
    destruct (Z.le_gt_cases (s_wsize s) copy); [eapply (updatewindow_full s c buf end_ copy w)|eapply (updatewindow_part s c buf end_ copy w)]; done || lia. }
  assert (Hsome : forall s c w, s_window s = Some w -> window_ok s ->
    exists st', updatewindow zalloc s c buf end_ copy = Some (st', c, 0) /\ window_updated s buf end_ copy st').
  { intros s c w Ew Hok. destruct (Z.eq_dec (s_wsize s) 0) as [E0|E0].
    2:{ assert (Hok' := Hok). destruct Hok' as (_ & _ & [?|Hs] & _); [done|]. by eapply Hsized. }
    destruct Hok as (Hwin' & Hwb' & _ & Hwl'). destruct (Hwl' _ Ew) as [Hl Hb].
    assert (0 < 2 ^ s_wbits s) by (apply pow2_pos; lia). assert (2 ^ s_wbits s <= 2 ^ 23) by (apply Z.pow_le_mono_r; lia).
    assert (s_whave s = 0 /\ s_wnext s = 0) as [Eh En] by (destruct Hwin' as [?|(x & _ & ? & ? & _)]; lia).
    rewrite (updatewindow_sized s c w) by (done || lia).
    destruct (Hsized (s <| s_wsize := 2 ^ s_wbits s |>) c w) as (st' & E & w' & wh & wn & Est & Hok' & Hhist); csimp_goal; try done.
    { split; csimp_goal; [|split; [done|split; [by right|done]]]. right. exists w. rewrite Eh, En. repeat (split; [done || lia|]). done. }
    exists st'. split; [done|]. exists w', wh, wn. split; [done|]. split; [done|]. rewrite Hhist. csimp_goal. f_equal. f_equal.
    unfold st_hist, hist_of. csimp_goal. rewrite Ew, E0, Eh, En. cbn [Z.eqb]. destruct (Z.eqb_spec (2 ^ s_wbits s) 0); [lia|].
    unfold win_hist. destruct (Z.ltb_spec 0 (2 ^ s_wbits s)); [|lia]. cbn [Z.to_nat]. by rewrite take_0. }
  destruct (s_window st) as [w|] eqn:Ew.
  - destruct (Hsome st calls w Ew) as (st' & E & Hu); [by rewrite <- Ew in *; split|]. exists st', calls, 0. split; [done|]. by right.
  - destruct (zalloc calls (1 ≪ s_wbits st)) as [w|] eqn:Ea.
    + destruct (zalloc_ok _ _ _ Ea) as [Hl Hb]. rewrite Z.shiftl_1_l in Hl.
      rewrite (updatewindow_alloc st calls w buf end_ copy Ew Ea).
      destruct Hwin as [(E1 & E2 & E3)|(x & ? & _)]; [|done].
      destruct (Hsome (st <| s_window := Some w |>) (S calls) w) as (st' & E & Hu); csimp_goal; [done| |].
      { split; csimp_goal; [by left|split; [done|split; [by left|]]]. by intros x [= <-]. }
      exists st', (S calls), 0. split; [done|]. right. split; [done|].
      destruct Hu as (w' & wh & wn & Est & Hok & Hh). exists w', wh, wn. split; [done|]. split; [done|]. rewrite Hh. csimp_goal.
      do 2 f_equal. unfold st_hist, hist_of. csimp_goal. by rewrite Ew, E1.
    + exists st, (S calls), 1. split; [|left; done]. unfold updatewindow. rewrite Ew, Ea. cbv iota beta. csimp_goal. do 3 f_equal.
      destruct st. cbn in *. by subst.
Qed.
End updatewindow.
