(* ===== verification/InflateApi.v ===== *)
(** [inflate()] as its callers see it: from a well-formed stream a call returns, never reads or writes outside
    the arrays, and leaves a well-formed stream; the other functions of the interface keep it well-formed. *)
From S2P Require Import Prelude Record Bits Huffman InfTrees Inffixed InfTreesProof InfDecode Fixed.
From S2P Require Import Lz Crc32 Adler32 InflateState InflateMonad InfFast Inflate InflateWp InflateSym.
From S2P Require Import InfFastProof InflateInv InflateSafe1 InflateSafe2 InflateSafe3 InflateSafe4 InflateSafe5 Window.

(** The state between two calls, and the buffers of a call. *)
Definition state_fine (st : inflate_state) : Prop := state_ok (s_mode st) st (s_hold st) (s_bits st).

(** While [inflateSync()] searches, [hold] is left over and not used. *)
Definition state_sync (st : inflate_state) : Prop :=
  (s_mode st = SYNC \/ s_mode st = MEM) /\ 0 <= s_bits st <= 32 /\ state_ok (s_mode st) st 0 0.

Definition stream_ok (strm : z_stream) : Prop :=
  match z_state strm with Some st => state_fine st \/ state_sync st | None => True end.

Definition buffers_ok (strm : z_stream) : Prop :=
  in_ok (in_buf strm) (z_next_in strm) (z_avail_in strm) /\
  (forall b, z_out strm = Some b -> out_ok (Some b) (z_next_out strm) (z_avail_out strm) (z_avail_out strm)).

(** What a call of [inflate()] leaves: the same arrays, with the positions moved forward. *)
Record moved (strm strm' : z_stream) : Prop := {
  mv_in : z_in strm' = z_in strm;
  mv_iend : z_next_in strm' + z_avail_in strm' = z_next_in strm + z_avail_in strm;
  mv_avail_in : 0 <= z_avail_in strm' <= z_avail_in strm;
  mv_osize : length (out_buf strm') = length (out_buf strm);
  mv_oend : z_next_out strm' + z_avail_out strm' = z_next_out strm + z_avail_out strm;
  mv_avail_out : 0 <= z_avail_out strm' <= z_avail_out strm;
  mv_null : is_Some (z_out strm') }.

(** The return value for a mode: a call without progress is a [Z_BUF_ERROR], and so is a call that is to finish the stream and does
    not. *)
Definition ret_for (flush : Z) (strm strm' : z_stream) (m : inflate_mode) (ret : Z) : Prop :=
  m = MEM /\ ret = Z_MEM_ERROR \/ m = SYNC /\ ret = Z_STREAM_ERROR /\ z_state strm' = z_state strm \/ m = DICT /\ ret = Z_NEED_DICT \/
  m = DONE /\ ret = Z_STREAM_END \/ m = BAD /\ ret = Z_DATA_ERROR \/
  m <> DONE /\ m <> BAD /\ (ret = Z_OK \/ ret = Z_BUF_ERROR) /\
    (z_avail_in strm' = z_avail_in strm -> z_avail_out strm' = z_avail_out strm -> ret = Z_BUF_ERROR) /\ (flush = Z_FINISH -> ret = Z_BUF_ERROR).

Section api.
Context (zalloc : nat -> Z -> option (list Z)) (zalloc_state : nat -> option inflate_state).
Context (zalloc_ok : forall n k l, zalloc n k = Some l -> Z.of_nat (length l) = k /\ Forall byte_ok l).

(** ** After [inf_leave] *)
Lemma wbits_window m wrap st :
  win_ok (s_wsize st) (s_whave st) (s_wnext st) (s_window st) -> wbits_ok m wrap (s_wbits st) (s_wsize st) (s_window st) ->
  window_ok st \/ s_wsize st = 0 /\ (m = HEAD \/ m = BAD).
Proof. intros Hw [(H1 & H2 & H3)|(_ & _ & _ & H4 & H5)]; [left; split; done|by right]. Qed.

(** The window after the call. *)
Lemma state_ok_window m st hold bits st' buf end_ copy :
  state_ok m st hold bits -> window_updated st buf end_ copy st' -> state_ok m st' hold bits.
Proof.
  intros [Sh Sw Sb Shd Sl Swk Sc Ss Sm] (w & wh & wn & -> & (Hwin & Hwb & Hws & Hwl) & _). unfold with_window in *. csimp.
  split; csimp_goal; try done. by left.
Qed.

(** The state with its window, whether it was copied or not. *)
Lemma leave_window flush K strm st put left next have hold bits in_ out ret :
  inv K (Ctx strm st (Regs put left next have hold bits in_ out ret)) -> s_hold st = hold -> s_bits st = bits ->
  exists st' calls fail,
    (if nz (s_wsize st) || (negb (out =? left) && (mode_num (s_mode st) <? mode_num BAD) &&
         ((mode_num (s_mode st) <? mode_num CHECK) || negb (flush =? Z_FINISH)))
     then updatewindow zalloc st (z_calls strm) (out_buf strm) put (u32 (out - left))
     else Some (st, z_calls strm, 0)) = Some (st', calls, fail) /\
    (nz fail = true /\ window_ok st' \/ nz fail = false) /\ s_mode st' = s_mode st /\ state_fine st'.
Proof.
  intros [Iin (ob & Eob & Ho1 & Ho2 & Ho3 & Ho4 & Ho5) _ _ _ _ _ Irun _ Ist] Eh Eb. csimp.
  assert (Hfine : state_fine st) by (unfold state_fine; by rewrite Eh, Eb).
  assert (Hob : out_buf strm = ob) by (unfold out_buf; by rewrite Eob).
  destruct (wbits_window _ _ _ (so_win _ _ _ _ Ist) (so_wbits _ _ _ _ Ist)) as [Hw|[Hw0 Hm]].
  - destruct (_ || _); [|by exists st, (z_calls strm), 0; split; [|split; [right|]]].
    destruct (updatewindow_spec zalloc zalloc_ok st (z_calls strm) ob put (out - left) Hw Ho5 ltac:(lia) ltac:(lia))
      as (st' & calls & fail & E & Hc). rewrite Hob, u32_small by lia.
    exists st', calls, fail. split; [done|]. destruct Hc as [(-> & -> & _)|(-> & Hu)]; [by split; [left|]|].
    split; [by right|]. destruct Hu as (w & wh & wn & Est & Hu). split; [by rewrite Est|].
    assert (Hst : state_ok (s_mode st) st' (s_hold st) (s_bits st)) by (eapply state_ok_window; [done|by exists w, wh, wn]).
    unfold state_fine. rewrite Est in *. unfold with_window in *. by csimp.
  - exists st, (z_calls strm), 0. split; [|by split; [right|]].
    assert (negb (out =? left) && (mode_num (s_mode st) <? mode_num BAD) = false) as ->.
    { destruct Hm as [Em|Em]; rewrite Em in *; [|by rewrite andb_false_r]. cbn [runs] in Irun. subst left. by rewrite Z.eqb_refl. }
    by rewrite Hw0.
Qed.

Lemma state_fine_mem st : state_fine st -> window_ok st -> state_fine (st <| s_mode := MEM |>).
Proof.
  intros [? ? ? ? ? ? ? ? ?] (Hwin & Hwb & Hws & Hwl). split; csimp_goal; try done. by left.
Qed.

(** The fields that the end of [inflate()] sets. *)
Lemma state_fine_total st total check :
  state_fine st -> state_fine (st <| s_total := total |>) /\ state_fine (st <| s_total := total |> <| s_check := check |>).
Proof. intros []. by split; split. Qed.

Record left_call (K : consts) (flush : Z) (c : ctx) (strm' : z_stream) (st' : inflate_state) (ret : Z) : Prop := {
  lc_fine : state_fine st';
  lc_in : z_in strm' = k_in K /\ z_next_in strm' = r_next (c_r c) /\ z_avail_in strm' = r_have (c_r c);
  lc_out : z_out strm' = z_out (c_strm c) /\ z_next_out strm' = r_put (c_r c) /\ z_avail_out strm' = r_left (c_r c);
  lc_ret : s_mode st' = MEM /\ ret = Z_MEM_ERROR \/
    s_mode st' = s_mode (c_st c) /\ (ret = ret_code (s_mode st') \/ ret_code (s_mode st') = Z_OK /\ ret = Z_BUF_ERROR) /\
    (r_have (c_r c) = k_in0 K -> r_left (c_r c) = k_out0 K -> ret <> Z_OK) /\ (flush = Z_FINISH -> ret <> Z_OK) }.

Lemma leave_ok flush K c :
  left_ok K c -> exists strm' st' ret, leave zalloc flush c = Some (strm', st', ret) /\ left_call K flush c strm' st' ret.
Proof.
  destruct c as [strm st [put left next have hold bits in_ out ret]]. intros [Hi Hret]. csimp.
  assert (Hi' : inv K (Ctx strm (st <| s_hold := hold |> <| s_bits := bits |>) (Regs put left next have hold bits in_ out Z_OK))).
  { destruct Hi as [? ? ? ? ? ? ? ? ? []]. split; csimp_goal; done. }
  destruct (leave_window flush K _ _ _ _ _ _ _ _ _ _ _ Hi' eq_refl eq_refl) as (st1 & calls & fail & E & Hf & Em & Hfine).
  unfold leave. csimp_goal. change (out_buf _) with (out_buf strm).
  match goal with |- context [mbind _ ?x] => replace x with (Some (st1, calls, fail)) by (symmetry; exact E) end.
  cbn [mbind option_bind]. assert (Hz : z_in strm = k_in K) by (by destruct Hi).
  destruct Hi as [Iin (ob & Eob & Ho1 & Ho2 & Ho3 & Ho4 & Ho5) _ _ Ioend _ [Iin0 Iin1] _ _ _]. csimp.
  destruct (nz fail) eqn:Efail.
  { destruct Hf as [[_ Hw]|?]; [|done]. eexists _, _, _. split; [done|]. split; csimp_goal; try done; [by apply state_fine_mem|by left]. }
  assert (Hob : out_buf strm = ob) by (unfold out_buf; by rewrite Eob).
  set (st2 := st1 <| s_total := u32 (s_total st1 + u32 (out - left)) |>).
  assert (Hm : s_mode st1 = s_mode st) by (rewrite Em; by csimp_goal).
  assert (Hrc : forall strm' st', state_fine st' -> s_mode st' = s_mode st ->
    z_in strm' = z_in strm -> z_next_in strm' = next -> z_avail_in strm' = have -> z_out strm' = z_out strm ->
    z_next_out strm' = put -> z_avail_out strm' = left ->
    left_call K flush (Ctx strm st (Regs put left next have hold bits in_ out ret)) strm' st'
      (if (((u32 (in_ - have) =? 0) && (u32 (out - left) =? 0)) || (flush =? Z_FINISH)) && (ret =? Z_OK) then Z_BUF_ERROR else ret)).
  { intros strm' st' Hf' Em' E1 E2 E3 E4 E5 E6. split; csimp_goal; try done; [by rewrite E1|].
    right. split; [done|]. rewrite Em'. destruct (_ && (ret =? Z_OK)) eqn:Ec.
    - apply andb_true_iff in Ec as [_ Ec%Z.eqb_eq]. split; [right; by rewrite <- Hret|done].
    - split; [by left|]. split; [|intros -> E0; rewrite E0 in Ec; by rewrite orb_true_r in Ec]. intros Eh El E0. rewrite E0, andb_true_r in Ec. apply orb_false_iff in Ec as [Ec _].
      rewrite Iin0, <- Eh, Z.sub_diag in Ec. replace (out - left) with 0 in Ec by lia. done. }
  rewrite Hob. destruct (nz (s_wrap st1) && nz (u32 (out - left))) eqn:Ew.
  - rewrite (slice_in ob) by (rewrite u32_small by lia; lia). cbn [mbind option_bind]. eexists _, _, _. split; [reflexivity|].
    apply Hrc; csimp_goal; try done. by apply state_fine_total.
  - cbn [mbind option_bind]. eexists _, _, _. split; [reflexivity|]. apply Hrc; csimp_goal; try done. by apply (state_fine_total _ _ 0).
Qed.

(** ** The call *)

(** The calls that [inflate()] refuses. *)
Definition refused (strm : z_stream) : Prop :=
  z_state strm = None \/ z_out strm = None \/ z_in strm = None /\ z_avail_in strm <> 0.

Lemma enter_inv strm st ob :
  state_fine st -> z_out strm = Some ob -> buffers_ok strm -> s_mode st <> MEM -> s_mode st <> SYNC ->
  let K := Consts (z_in strm) (z_next_in strm + z_avail_in strm) (z_next_out strm + z_avail_out strm) (length (out_buf strm))
             (z_avail_in strm) (z_avail_out strm) in
  inv K (inflate_enter strm st) /\ measure (inflate_enter strm st) < Z.of_nat (inflate_fuel (z_avail_in strm) (z_avail_out strm) (s_bits st)).
Proof.
  intros Hst Eob [Hi Ho] H1 H2. specialize (Ho _ Eob). cbv zeta. assert (Hh := so_hold _ _ _ _ Hst). assert (Hi' := Hi).
  destruct Hi' as (? & ? & ? & ?). destruct Hh as [? _]. destruct Ho as (b & [= <-] & Ho).
  assert (Hm : measure (inflate_enter strm st) < Z.of_nat (inflate_fuel (z_avail_in strm) (z_avail_out strm) (s_bits st))).
  { unfold inflate_fuel, measure, inflate_enter. csimp_goal.
    assert (Hr : forall m, rank m <= 3) by (by intros []). case_bool_decide; csimp_goal; [|specialize (Hr (s_mode st))]; cbn [rank]; lia. }
  split; [|done]. unfold inflate_enter. case_bool_decide as Ety.
  - unfold state_fine in Hst. rewrite Ety in Hst. destruct Hst. split; csimp_goal; cbn [k_in k_iend k_oend k_osize k_in0 k_out0]; try (done || lia).
    + by exists ob.
    + split; csimp_goal; try done. by eapply wbits_ok_mode.
  - split; csimp_goal; cbn [k_in k_iend k_oend k_osize k_in0 k_out0]; try (done || lia).
    + by exists ob.
    + by destruct (s_mode st).
    + by destruct (s_mode st).
Qed.

Lemma inflate_ok strm flush :
  stream_ok strm -> buffers_ok strm ->
  exists strm' ret, inflate zalloc strm flush = Some (strm', ret) /\ stream_ok strm' /\ buffers_ok strm' /\
    (refused strm /\ strm' = strm /\ ret = Z_STREAM_ERROR \/
     moved strm strm' /\ exists st', z_state strm' = Some st' /\ ret_for flush strm strm' (s_mode st') ret).
Proof.
  intros Hst Hb. unfold stream_ok in Hst. unfold inflate. destruct (z_state strm) as [st|] eqn:Est.
  2:{ exists strm, Z_STREAM_ERROR. split; [done|]. split; [unfold stream_ok; by rewrite Est|]. split; [done|]. left. split; [by left|done]. }
  destruct (z_out strm) as [ob|] eqn:Eob.
  2:{ exists strm, Z_STREAM_ERROR. split; [done|]. split; [unfold stream_ok; by rewrite Est|]. split; [done|]. left. split; [right; by left|done]. }
  destruct (match z_in strm with None => nz (z_avail_in strm) | Some _ => false end) eqn:Ein.
  { exists strm, Z_STREAM_ERROR. split; [done|]. split; [unfold stream_ok; by rewrite Est|]. split; [done|]. left. split; [|done].
    right. right. destruct (z_in strm); [done|]. by apply nz_true in Ein. }
  assert (Hmem : forall m ret, s_mode st = m -> m = MEM /\ ret = Z_MEM_ERROR \/ m = SYNC /\ ret = Z_STREAM_ERROR ->
    inflate_loop flush (inflate_fuel (z_avail_in strm) (z_avail_out strm) (s_bits st)) (inflate_enter strm st) =
      Return ret (inflate_enter strm st) /\ c_st (inflate_enter strm st) = st).
  { intros m ret Em Hm. assert (Ee : c_st (inflate_enter strm st) = st) by (unfold inflate_enter; case_bool_decide; [destruct Hm as [[? _]|[? _]]; congruence|done]).
    split; [|done]. assert (exists n, inflate_fuel (z_avail_in strm) (z_avail_out strm) (s_bits st) = S n) as (n & ->).
    { unfold inflate_fuel. assert (0 <= s_bits st) by (destruct Hst as [Hst|(_ & ? & _)]; [destruct (so_hold _ _ _ _ Hst)|]; lia). destruct Hb as [(_ & ? & _) Hout]. destruct (Hout _ Eob) as (b & _ & ? & _).
      exists (Z.to_nat (4 * (8 * z_avail_in strm + s_bits st + z_avail_out strm) + 4)). lia. }
    cbn [inflate_loop]. unfold mbind, M_bind, sget, gets. rewrite Ee, Em. by destruct Hm as [[-> ->]|[-> ->]]. }
  destruct (decide (s_mode st = MEM \/ s_mode st = SYNC)) as [Hm|Hm].
  { assert (exists ret, s_mode st = MEM /\ ret = Z_MEM_ERROR \/ s_mode st = SYNC /\ ret = Z_STREAM_ERROR) as (ret & Hr).
    { destruct Hm as [E|E]; [exists Z_MEM_ERROR; by left|exists Z_STREAM_ERROR; by right]. }
    destruct (Hmem _ ret eq_refl Hr) as [-> Es]. rewrite Es. eexists _, _. split; [reflexivity|].
    split; [done|]. split; [exact Hb|]. right. destruct Hb as [(? & ? & ? & _) Hout]. destruct (Hout _ Eob) as (b & _ & ? & _).
    split; [split; (done || (by eexists) || unfold inflate_enter; csimp_goal; lia)|]. exists st. split; [done|]. destruct Hr as [?|[? ?]]; [by left|right; left]. by rewrite Est. }
  destruct Hst as [Hst|[? _]]; [|tauto]. destruct (enter_inv strm st ob Hst Eob Hb) as [Hinv Hfuel]; [naive_solver..|].
  set (K := Consts _ _ _ _ _ _) in *. assert (Hloop := inflate_loop_ok flush K _ _ Hinv Hfuel). clear Hinv Hfuel Hmem.
  unfold wp in Hloop. destruct (inflate_loop flush _ (inflate_enter strm st)) as [a c|c|ret c|]; [done| | |done].
  - destruct (leave_ok flush K c Hloop) as (strm' & st' & ret & -> & D). cbn [mbind option_bind]. eexists _, _. split; [reflexivity|].
    destruct Hloop as [Hi Hret]. destruct D as [Df (Di1 & Di2 & Di3) (Do1 & Do2 & Do3) Dr].
    destruct Hi as [Ii (b & Eb & Io) Ii1 Ii2 Io1 Io2 [_ Ii3] _ _ _]. csimp. cbn [K k_in k_iend k_oend k_osize k_in0 k_out0] in *.
    assert (Hib : in_buf strm' = in_buf strm) by (unfold in_buf; by rewrite Di1).
    assert (Hob : out_buf strm' = out_buf (c_strm c)) by (unfold out_buf; by rewrite Do1).
    split; [by left|]. split.
    { split; csimp_goal.
      - unfold in_buf in *; csimp_goal. rewrite Di1, Di2, Di3. unfold in_buf in Ii. by rewrite Ii1 in Ii.
      - intros b' Eb'. rewrite Do1, Eb in Eb'. injection Eb' as <-. rewrite Do2, Do3. exists b. split; [done|]. repeat (split; [lia|]). tauto. }
    right. split.
    { destruct Ii as (? & ? & _). split; csimp_goal; try (done || lia).
      - change (out_buf (strm' <| z_state := Some st' |>)) with (out_buf strm'). by rewrite Hob.
      - rewrite Do1, Eb. by eexists. }
    exists st'. split; [done|]. destruct Dr as [?|(Em & Hr & Hp)]; [by left|]. unfold ret_for. csimp_goal. rewrite Di3, Do3.
    destruct (decide (s_mode st' = DONE)) as [Ed|Ed]; [rewrite Ed in *; cbn [ret_code] in Hr; destruct Hr as [->|[? _]]; [naive_solver|done]|].
    destruct (decide (s_mode st' = BAD)) as [Ebd|Ebd]; [rewrite Ebd in *; cbn [ret_code] in Hr; destruct Hr as [->|[? _]]; [naive_solver|done]|].
    assert (Ec : ret_code (s_mode st') = Z_OK) by (destruct (s_mode st'); done). rewrite Ec in Hr. do 5 right. split; [done|]. split; [done|].
    split; [naive_solver|]. destruct Hp as [Hp1 Hp2]. split; [intros E1 E2; specialize (Hp1 E1 E2)|intros Hfl; specialize (Hp2 Hfl)]; naive_solver.
  - destruct Hloop as (Hi & [-> Em] & Zo & Za & Zi & Zv & Sh & Sb). eexists _, _. split; [reflexivity|].
    destruct Hi as [Ii (b & Eb & Io) Ii1 Ii2 Io1 Io2 [_ Ii3] _ _ Ist]. csimp. cbn [K k_in k_iend k_oend k_osize k_in0 k_out0] in *.
    split; [unfold stream_ok; csimp_goal; left; unfold state_fine; by rewrite Sh, Sb|]. split.
    { split; csimp_goal.
      - rewrite Zi, Zv. done.
      - intros b' Eb'. rewrite Eb in Eb'. injection Eb' as <-. rewrite Zo, Za. exists b. split; [done|]. repeat (split; [lia|]). tauto. }
    right. split.
    { destruct Ii as (? & ? & _). split; csimp_goal; try (done || lia). }
    exists (c_st c). split; [done|]. rewrite Em. right. right. by left.
Qed.
End api.
