(* ===== verification/InflateReach.v ===== *)
(** The interface of [src/zlib/inflate.c] as a transition system: the streams that sequences of calls reach, and
    what holds in all of them. *)
From stdpp Require Import relations.
From S2P Require Import Prelude Record Bits Huffman InfTrees Inffixed InfTreesProof InfDecode Fixed.
From S2P Require Import Lz Crc32 Adler32 InflateState InflateMonad InfFast Inflate InflateWp InflateSym.
From S2P Require Import InfFastProof InflateInv InflateSafe1 InflateSafe2 InflateSafe3 InflateSafe4 InflateSafe5 Window InflateApi.

(** ** Initialisation *)
Definition arrays_ok (st : inflate_state) : Prop :=
  length (s_lens st) = 320%nat /\ length (s_work st) = 288%nat /\ Z.of_nat (length (s_codes st)) = ENOUGH.

(** An allocated window has its size. *)
Definition window_sized (st : inflate_state) : Prop :=
  forall w, s_window st = Some w -> 8 <= s_wbits st <= 23 /\ Z.of_nat (length w) = 2 ^ s_wbits st /\ Forall byte_ok w.

(** The values of [windowBits] that do not ask for a gzip stream with an unknown window size. *)
Definition window_bits_ok (windowBits : Z) : Prop := windowBits <> 16 /\ windowBits <> 32.

Lemma resetkeep_fine strm st :
  z_state strm = Some st -> arrays_ok st -> win_ok (s_wsize st) (s_whave st) (s_wnext st) (s_window st) ->
  wbits_ok HEAD (s_wrap st) (s_wbits st) (s_wsize st) (s_window st) -> stream_ok (inflateResetKeep strm).1.
Proof.
  intros E (H1 & H2 & H3) Hw Hb. unfold inflateResetKeep. rewrite E. cbn [fst]. unfold stream_ok. csimp_goal. left.
  split; csimp_goal; try done. by right.
Qed.

Lemma reset_fine strm st :
  z_state strm = Some st -> arrays_ok st -> wbits_ok HEAD (s_wrap st) (s_wbits st) 0 (s_window st) -> stream_ok (inflateReset strm).1.
Proof.
  intros E Ha Hb. unfold inflateReset. rewrite E. eapply resetkeep_fine; csimp_goal; [done|done|by left|done].
Qed.

Lemma reset2_fine strm st windowBits :
  z_state strm = Some st -> arrays_ok st -> window_sized st -> window_bits_ok windowBits ->
  (inflateReset2 strm windowBits).2 = Z_OK -> stream_ok (inflateReset2 strm windowBits).1.
Proof.
  intros E Ha Hw [H16 H32]. unfold inflateReset2. rewrite E.
  set (p := if windowBits <? 0 then _ else _). destruct p as [wrap wb] eqn:Ep.
  destruct (nz wb && ((wb <? 8) || (15 <? wb))) eqn:Ebad; [done|]. intros _.
  assert (Hwb : wb = 0 /\ wrap = 1 \/ 8 <= wb <= 15).
  { destruct (Z.eq_dec wb 0) as [E0|E0].
    - left. split; [done|]. unfold p in Ep. destruct (Z.ltb_spec windowBits 0); [injection Ep; lia|].
      destruct (Z.ltb_spec windowBits 48); injection Ep as Ew Eb; [|lia]. change 15 with (2 ^ 4 - 1) in Eb. rewrite land_mask in Eb by lia.
      rewrite Z.shiftr_div_pow2 in Ew by lia. assert (windowBits = 0); [|by subst]. rewrite E0 in Eb. dlia.
    - right. apply andb_false_iff in Ebad as [Ebad|Ebad]; [apply nz_false in Ebad; lia|]. apply orb_false_iff in Ebad. lia. }
  assert (u32 wb = wb) as Eu by (apply u32_small; lia). rewrite Eu.
  set (st1 := match s_window st with Some _ => _ | None => st end).
  assert (Hst1 : arrays_ok st1 /\ forall w, s_window st1 = Some w -> 8 <= wb /\ Z.of_nat (length w) = 2 ^ wb /\ Forall byte_ok w).
  { unfold st1. destruct (s_window st) as [w|] eqn:Ew; [|split; [done|congruence]].
    destruct (Z.eqb_spec (s_wbits st) wb) as [Es|Es]; cbn [negb].
    - split; [done|]. intros w'. rewrite Ew. intros [= <-]. destruct (Hw w Ew) as (? & ? & ?). rewrite <- Es. split; [lia|done].
    - split; [exact Ha|]. csimp_goal. congruence. }
  destruct Hst1 as [Ha1 Hw1]. eapply reset_fine; csimp_goal; [done|exact Ha1|].
  destruct Hwb as [[-> ->]|Hwb].
  - assert (Hn : s_window st1 = None) by (destruct (s_window st1) as [w|] eqn:En; [destruct (Hw1 w eq_refl); lia|done]).
    right. repeat (split; [done|]). by left.
  - left. csimp_goal. split; [lia|]. split; [by left|]. intros w Ew. by destruct (Hw1 w Ew) as (_ & ?).
Qed.

(** What the reset functions need of a state. *)
Lemma fine_resettable st : state_fine st \/ state_sync st ->
  arrays_ok st /\ window_sized st /\ win_ok (s_wsize st) (s_whave st) (s_wnext st) (s_window st) /\
  wbits_ok HEAD (s_wrap st) (s_wbits st) (s_wsize st) (s_window st) /\ wbits_ok HEAD (s_wrap st) (s_wbits st) 0 (s_window st).
Proof.
  assert (forall m h b, state_ok m st h b -> arrays_ok st /\ window_sized st /\ win_ok (s_wsize st) (s_whave st) (s_wnext st) (s_window st) /\
    wbits_ok HEAD (s_wrap st) (s_wbits st) (s_wsize st) (s_window st) /\ wbits_ok HEAD (s_wrap st) (s_wbits st) 0 (s_window st)) as H.
  { intros m h b [_ Hw Hb _ Hl Hwk Hc _ _]. split; [done|]. destruct Hb as [(H1 & H2 & H3)|(H1 & H2 & H3 & H4 & _)].
    - split; [by intros w Ew; split; [|apply H3]|]. split; [done|]. split; left; [done|]. split; [done|]. split; [by left|done].
    - split; [intros w Ew; congruence|]. split; [done|]. split; right; repeat (split; [done|]); by left. }
  intros [Hf|(_ & _ & Hf)]; by eapply H.
Qed.

(** ** [inflateSync()] *)
Lemma sync_bytes_ok k fuel hold buf len :
  (k < fuel)%nat -> 0 <= len -> len + Z.of_nat k <= Z.of_nat (length buf) ->
  exists hold' buf', sync_bytes fuel hold (8 * Z.of_nat k) buf len = Some (hold', 0, buf', len + Z.of_nat k) /\ length buf' = length buf.
Proof.
  revert fuel hold buf len. induction k as [|k IH]; intros [|fuel] hold buf len Hf Hl Hb; try lia; cbn [sync_bytes].
  - exists hold, buf. split; [|done]. do 2 f_equal. lia.
  - destruct (Z.leb_spec 8 (8 * Z.of_nat (S k))); [|lia]. rewrite aset_in by lia. cbn [mbind option_bind].
    replace (8 * Z.of_nat (S k) - 8) with (8 * Z.of_nat k) by lia.
    destruct (IH fuel (hold ≫ 8) (<[Z.to_nat len:=u8 hold]> buf) (len + 1)) as (h & b & E & El); [lia|lia|rewrite length_insert; lia|].
    exists h, b. split; [|by rewrite El, length_insert]. rewrite E. do 2 f_equal. lia.
Qed.

Lemma state_sync_intro st m h b hold have :
  state_ok m st h b -> s_wbits st <> 0 -> state_sync (st <| s_mode := SYNC |> <| s_hold := hold |> <| s_bits := 0 |> <| s_have := have |>).
Proof.
  intros [Sh Sw Sb Shd Sl Swk Sc Ss Sm] Hw. split; [by left|]. split; [csimp_goal; lia|]. split; csimp_goal; try (done || apply hold_init).
  destruct Sb as [?|(? & _)]; [by left|done].
Qed.

(** The search, from a state in which [inflateSync()] was already called or not. *)
Lemma sync_search st :
  state_fine st \/ state_sync st -> s_wbits st <> 0 ->
  exists st', (if negb (bool_decide (s_mode st = SYNC)) then
      let hold := u32 (s_hold st ≪ (s_bits st .& 7)) in
      let bits := s_bits st - (s_bits st .& 7) in
      '(hold, bits, buf, len) ← sync_bytes 6 hold bits [0; 0; 0; 0] 0;
      let '(have, _) := syncsearch 0 (take (Z.to_nat len) buf) in
      Some (st <| s_mode := SYNC |> <| s_hold := hold |> <| s_bits := bits |> <| s_have := have |>)
    else Some st) = Some st' /\ state_sync st' /\ s_mode st' = SYNC /\ s_wbits st' = s_wbits st.
Proof.
  intros Hst Hw. assert (Hb : 0 <= s_bits st <= 32) by (destruct Hst as [Hst|(_ & ? & _)]; [destruct (so_hold _ _ _ _ Hst)|]; lia).
  assert (Hok : exists h b, state_ok (s_mode st) st h b) by (destruct Hst as [?|(_ & _ & ?)]; by eexists _, _).
  destruct Hok as (h0 & b0 & Hok). clear Hst. destruct (bool_decide (s_mode st = SYNC)) eqn:Em; cbn [negb].
  - apply bool_decide_eq_true in Em. exists st. split; [done|]. split; [|done]. rewrite Em in Hok. destruct Hok.
    split; [by left|]. split; [done|]. rewrite Em. split; try (done || apply hold_init).
  - apply bool_decide_eq_false in Em.
    change (s_bits st .& 7) with (s_bits st .& (2 ^ 3 - 1)). rewrite land_mask by lia. change (2 ^ 3) with 8.
    assert (Hm := Z.mod_pos_bound (s_bits st) 8 ltac:(lia)). assert (Hd := Z.div_mod (s_bits st) 8 ltac:(lia)).
    set (k := Z.to_nat (s_bits st / 8)). assert (Hk : s_bits st - s_bits st mod 8 = 8 * Z.of_nat k) by (unfold k; dlia).
    destruct (sync_bytes_ok k 6 (u32 (s_hold st ≪ (s_bits st mod 8))) [0; 0; 0; 0] 0) as (h & b & E & _); [lia|lia|cbn; lia|].
    cbv zeta. rewrite Hk, E. cbn [mbind option_bind]. destruct (syncsearch 0 _) as [have n]. eexists. split; [reflexivity|].
    split; [|done]. by eapply state_sync_intro.
Qed.

Lemma sync_fine strm st :
  z_state strm = Some st -> state_fine st \/ state_sync st -> s_wbits st <> 0 -> in_ok (in_buf strm) (z_next_in strm) (z_avail_in strm) ->
  exists strm' ret, inflateSync strm = Some (strm', ret) /\ stream_ok strm'.
Proof.
  intros E Hst Hw (H1 & H2 & H3 & _). unfold inflateSync. rewrite E. destruct (_ && _).
  { eexists _, _. split; [done|]. unfold stream_ok. by rewrite E. }
  destruct (sync_search st Hst Hw) as (st1 & E1 & Hs1 & Em & Hw1).
  match goal with |- context [mbind _ ?x] => replace x with (Some st1) by (symmetry; exact E1) end. cbn [mbind option_bind].
  rewrite slice_in by lia. cbn [mbind option_bind]. destruct (syncsearch (s_have st1) _) as [have len].
  destruct Hs1 as (_ & Hb & Hok). rewrite Em in Hok. assert (Hok2 : state_ok SYNC (st1 <| s_have := have |>) 0 0) by (by destruct Hok).
  destruct (negb (have =? 4)).
  { eexists _, _. split; [reflexivity|]. unfold stream_ok. csimp_goal. right. split; [by left|]. split; [done|]. csimp_goal. by rewrite Em. }
  unfold inflateReset, inflateResetKeep. csimp_goal. cbv iota beta. csimp_goal. eexists _, _. split; [reflexivity|]. unfold stream_ok. csimp_goal. left.
  destruct Hok2 as [Sh Sw Sb Shd Sl Swk Sc Ss Sm]. csimp. split; csimp_goal; try (done || lia).
  - by left.
  - destruct Sb as [(? & ? & ?)|(? & _)]; [left; split; [done|]; split; [by left|done]|congruence].
Qed.

(** ** The other functions *)
Lemma setdictionary_fine zalloc strm dictionary dictLength :
  (forall n k l, zalloc n k = Some l -> Z.of_nat (length l) = k /\ Forall byte_ok l) ->
  stream_ok strm -> Forall byte_ok dictionary -> 0 <= dictLength <= Z.of_nat (length dictionary) ->
  exists strm' ret, inflateSetDictionary zalloc strm dictionary dictLength = Some (strm', ret) /\ stream_ok strm'.
Proof.
  intros Hz Hs Hd Hl. unfold inflateSetDictionary. unfold stream_ok in Hs. destruct (z_state strm) as [st|] eqn:E.
  2:{ eexists _, _. split; [done|]. unfold stream_ok. by rewrite E. }
  destruct (nz (s_wrap st) && negb (bool_decide (s_mode st = DICT))) eqn:Ew.
  { eexists _, _. split; [done|]. unfold stream_ok. by rewrite E. }
  assert (Hok : exists ok, (if bool_decide (s_mode st = DICT) then
      buf ← slice dictionary 0 dictLength; let dictid := adler32 (adler32 0 None) (Some buf) in Some (dictid =? s_check st)
    else Some true) = Some ok).
  { case_bool_decide; [|by eexists]. rewrite slice_in by lia. by eexists. }
  destruct Hok as [ok Eok]. match goal with |- context [mbind _ ?x] => replace x with (Some ok) by (symmetry; exact Eok) end.
  cbn [mbind option_bind]. destruct (negb ok).
  { eexists _, _. split; [done|]. unfold stream_ok. by rewrite E. }
  destruct (fine_resettable st Hs) as (_ & _ & Hwin & Hwb & _).
  assert (Hw : window_ok st).
  { destruct Hwb as [(? & ? & ?)|(H0 & H1 & H2 & H3 & _)]; [by split|]. exfalso.
    apply andb_false_iff in Ew as [Ew|Ew]; [rewrite H1 in Ew; done|]. apply negb_false_iff, bool_decide_eq_true in Ew.
    assert (exists h b, state_ok (s_mode st) st h b) as (h & b & Hok) by (destruct Hs as [?|(_ & _ & ?)]; by eexists _, _).
    destruct (so_wbits _ _ _ _ Hok) as [(? & _)|(_ & _ & _ & _ & [?|?])]; [lia|congruence|congruence]. }
  destruct (updatewindow_spec zalloc Hz st (z_calls strm) dictionary dictLength dictLength Hw Hd ltac:(lia) ltac:(lia))
    as (st' & calls & fail & -> & Hc). cbn [mbind option_bind].
  assert (Hwm : forall h b, state_ok (s_mode st) st h b -> state_ok MEM (st <| s_mode := MEM |>) h b).
  { intros h b []. destruct Hw as (? & ? & ? & ?). split; csimp_goal; try done. by left. }
  destruct Hc as [(-> & -> & _)|(-> & Hu)]; eexists _, _; (split; [reflexivity|]); unfold stream_ok; csimp_goal; cbn [nz negb Z.eqb].
  - destruct Hs as [Hs|(Em & Hb & Hs)]; [left; by apply Hwm|right]. split; [by right|]. split; [done|]. by apply Hwm.
  - assert (Hwd : forall h b, state_ok (s_mode st) st h b -> state_ok (s_mode st) (st' <| s_havedict := 1 |>) h b).
    { intros h b Hm. assert (H := state_ok_window _ _ _ _ _ _ _ _ Hm Hu). by destruct H. }
    destruct Hu as (w & wh & wn & -> & _). unfold with_window in *.
    destruct Hs as [Hs|(Em & Hb & Hs)]; [left; by apply Hwd|right]. split; [done|]. split; [done|]. by apply Hwd.
Qed.

Lemma stream_ok_state strm strm' : z_state strm' = z_state strm -> stream_ok strm -> stream_ok strm'.
Proof. intros E. unfold stream_ok. by rewrite E. Qed.

Lemma prime_fine strm st bits value :
  z_state strm = Some st -> stream_ok strm -> s_mode st = HEAD -> s_wrap st = 0 -> s_bits st + bits <= 16 ->
  exists strm' ret, inflatePrime strm bits value = Some (strm', ret) /\ stream_ok strm'.
Proof.
  intros E Hs Em Ew Hb. unfold inflatePrime. rewrite E. assert (Hs' := Hs). unfold stream_ok in Hs. rewrite E in Hs.
  destruct Hs as [Hs|([?|?] & _)]; [|congruence|congruence]. unfold state_fine in Hs. rewrite Em in Hs. destruct Hs as [[Hbt Hh] Sw Sb Shd Sl Swk Sc Ss Sm].
  destruct (Z.ltb_spec bits 0).
  { eexists _, _. split; [done|]. unfold stream_ok. csimp_goal. left. split; csimp_goal; rewrite ?Em; try (done || apply hold_init).
    left. csimp_goal. split; [done|lia]. }
  destruct (_ || _); [by eexists _, _|]. unfold shl32. destruct (Z.leb_spec 0 (s_bits st)), (Z.ltb_spec (s_bits st) 32); try lia.
  cbn [andb mbind option_bind]. eexists _, _. split; [reflexivity|]. unfold stream_ok. csimp_goal. left.
  assert (0 < 2 ^ s_bits st) by (apply pow2_pos; lia). assert (0 < 2 ^ bits) by (apply pow2_pos; lia).
  assert (Hp : 2 ^ s_bits st * 2 ^ bits <= 2 ^ 16) by (rewrite <- Z.pow_add_r by lia; apply Z.pow_le_mono_r; lia).
  rewrite Z.shiftl_1_l, land_mask by lia. assert (Hv := Z.mod_pos_bound value (2 ^ bits) ltac:(lia)).
  rewrite Z.shiftl_mul_pow2 by lia. rewrite (u32_small (_ * _)) by nia. rewrite !u32_small by nia.
  split; csimp_goal; rewrite ?Em; try done.
  - split; [lia|]. rewrite Z.pow_add_r by lia. nia.
  - left. csimp_goal. split; [done|lia].
Qed.

Lemma getheader_fine strm head : stream_ok strm -> head_ok (Some head) -> stream_ok (inflateGetHeader strm head).1.
Proof.
  intros Hs Hh. unfold inflateGetHeader. destruct (z_state strm) as [st|] eqn:E; [|done]. destruct (_ =? 0); [done|]. cbn [fst].
  unfold stream_ok in *. rewrite E in Hs. csimp_goal. destruct Hs as [[]|(? & ? & [])]; [left|right]; [by split|]. split; [done|]. split; [done|]. by split.
Qed.

Lemma undermine_fine strm subvert : stream_ok strm -> stream_ok (inflateUndermine strm subvert).1.
Proof.
  intros Hs. unfold inflateUndermine. destruct (z_state strm) as [st|] eqn:E; [|done]. cbn [fst].
  unfold stream_ok in *. rewrite E in Hs. csimp_goal. destruct Hs as [[]|(? & ? & [])]; [left|right]; [by split|]. split; [done|]. split; [done|]. by split.
Qed.

(** ** The transition system *)
Section reach.
Context (zalloc : nat -> Z -> option (list Z)) (zalloc_state : nat -> option inflate_state).
Context (zalloc_ok : forall n k l, zalloc n k = Some l -> Z.of_nat (length l) = k /\ Forall byte_ok l).
Context (zalloc_state_ok : forall n st, zalloc_state n = Some st -> arrays_ok st).

Lemma init2_fine strm windowBits version_ok :
  stream_ok strm -> window_bits_ok windowBits -> stream_ok (inflateInit2_ zalloc_state strm windowBits version_ok).1.
Proof.
  intros Hs Hw. unfold inflateInit2_. destruct (negb version_ok); [done|]. csimp_goal.
  destruct (zalloc_state (z_calls strm)) as [st|] eqn:Ez; [|by eapply stream_ok_state].
  match goal with |- context [inflateReset2 ?x _] => set (s := x) end. destruct (inflateReset2 s windowBits) as [s' ret] eqn:Er.
  destruct (Z.eqb_spec ret Z_OK); cbn [negb fst]; [|done]. replace s' with (inflateReset2 s windowBits).1 by (by rewrite Er).
  eapply reset2_fine; [done| | |done|by rewrite Er].
  - by apply (zalloc_state_ok _ _ Ez).
  - by intros w.
Qed.

(** A call of the interface, or the caller changing the buffers and positions of the stream. Excluded are the
    calls that the findings are about: a gzip stream with [windowBits] 16 or 32, a header with an [extra]
    buffer, and [inflatePrime()] elsewhere than at the start of a raw stream. *)
Inductive call : z_stream -> z_stream -> Prop :=
  | call_buffers strm strm' : z_state strm' = z_state strm -> call strm strm'
  | call_init2 strm windowBits version_ok : window_bits_ok windowBits ->
      call strm (inflateInit2_ zalloc_state strm windowBits version_ok).1
  | call_init strm version_ok : call strm (inflateInit_ zalloc_state strm version_ok).1
  | call_reset strm : call strm (inflateReset strm).1
  | call_reset2 strm windowBits : window_bits_ok windowBits -> call strm (inflateReset2 strm windowBits).1
  | call_resetkeep strm : call strm (inflateResetKeep strm).1
  | call_prime strm st bits value strm' ret : z_state strm = Some st -> s_mode st = HEAD -> s_wrap st = 0 -> s_bits st + bits <= 16 ->
      inflatePrime strm bits value = Some (strm', ret) -> call strm strm'
  | call_inflate strm flush strm' ret : buffers_ok strm -> inflate zalloc strm flush = Some (strm', ret) -> call strm strm'
  | call_dictionary strm dictionary dictLength strm' ret :
      Forall byte_ok dictionary -> 0 <= dictLength <= Z.of_nat (length dictionary) ->
      inflateSetDictionary zalloc strm dictionary dictLength = Some (strm', ret) -> call strm strm'
  | call_header strm head : head_ok (Some head) -> call strm (inflateGetHeader strm head).1
  | call_sync strm strm' ret : (forall st, z_state strm = Some st -> s_wbits st <> 0) ->
      in_ok (in_buf strm) (z_next_in strm) (z_avail_in strm) -> inflateSync strm = Some (strm', ret) -> call strm strm'
  | call_undermine strm subvert : call strm (inflateUndermine strm subvert).1
  | call_end strm : call strm (inflateEnd strm).1.

Lemma call_ok strm strm' : call strm strm' -> stream_ok strm -> stream_ok strm'.
Proof.
  intros H Hs. destruct H as [? ? E|? wb vo Hw|? vo|?|? wb Hw|?|? st bits value ? ret E Em Ew Hb Ep|? flush ? ret Hb Ei|? d dl ? ret Hd Hl Ed|? head Hh|? ? ret Hw Hi Es|?|?].
  - by eapply stream_ok_state.
  - by apply init2_fine.
  - apply init2_fine; [done|]. by split.
  - unfold stream_ok in Hs. destruct (z_state strm) as [st|] eqn:E; [|unfold inflateReset; rewrite E; unfold stream_ok; cbn [fst]; by rewrite E].
    destruct (fine_resettable st Hs) as (Ha & _ & _ & _ & Hb). by eapply reset_fine.
  - unfold stream_ok in Hs. destruct (z_state strm) as [st|] eqn:E; [|unfold inflateReset2; rewrite E; unfold stream_ok; cbn [fst]; by rewrite E].
    destruct (fine_resettable st Hs) as (Ha & Hz & _). destruct (Z.eq_dec (inflateReset2 strm wb).2 Z_OK) as [Er|Er]; [by eapply reset2_fine|].
    assert ((inflateReset2 strm wb).1 = strm) as ->; [|unfold stream_ok; by rewrite E].
    unfold inflateReset2 in *. rewrite E in *. destruct (if wb <? 0 then _ else _) as [wrap wb']. destruct (_ && _); [done|].
    unfold inflateReset, inflateResetKeep in Er. done.
  - unfold stream_ok in Hs. destruct (z_state strm) as [st|] eqn:E; [|unfold inflateResetKeep; rewrite E; unfold stream_ok; cbn [fst]; by rewrite E].
    destruct (fine_resettable st Hs) as (Ha & _ & Hw & Hb & _). by eapply resetkeep_fine.
  - destruct (prime_fine strm st bits value E Hs Em Ew Hb) as (s & r & E' & Hf). congruence.
  - destruct (inflate_ok zalloc zalloc_ok strm flush Hs Hb) as (s & r & E' & Hf & _). congruence.
  - destruct (setdictionary_fine zalloc strm d dl zalloc_ok Hs Hd Hl) as (s & r & E' & Hf). congruence.
  - by apply getheader_fine.
  - assert (Hs' := Hs). unfold stream_ok in Hs. destruct (z_state strm) as [st|] eqn:E.
    + destruct (sync_fine strm st E Hs (Hw st eq_refl) Hi) as (s & r & E' & Hf). congruence.
    + unfold inflateSync in Es. rewrite E in Es. by injection Es as <- _.
  - by apply undermine_fine.
  - unfold inflateEnd. destruct (z_state strm); [|done]. destruct (negb _); done.
Qed.

Lemma calls_ok strm strm' : rtc call strm strm' -> stream_ok strm -> stream_ok strm'.
Proof. induction 1 as [|? ? ? H _ IH]; [done|]. intros Hs. apply IH. by eapply call_ok. Qed.
End reach.
