(* ===== verification/InflateClaims.v ===== *)
(** The properties of the decompressor, with examples on which their hypotheses hold. *)
From stdpp Require Import relations.
From S2P Require Import Prelude Record Bits Huffman InfTrees Inffixed InfTreesProof InfDecode Fixed.
From S2P Require Import Lz Crc32 Adler32 InflateState InflateMonad InfFast Inflate InflateWp InflateSym.
From S2P Require Import InfFastProof InflateInv InflateSafe1 InflateSafe2 InflateSafe3 InflateSafe4 InflateSafe5 Window InflateApi.
From S2P Require Import InflateReach.

(** ** An allocator that zeroes, and a new stream *)
Definition ex_zalloc (_ : nat) (size : Z) : option (list Z) :=
  if 0 <=? size then Some (replicate (Z.to_nat size) 0) else None.
Definition ex_state : inflate_state :=
  InflateState HEAD 0 0 0 0 0 0 0 None 0 0 0 0 None 0 0 0 0 0 (InCodes 0) (InCodes 0) 0 0 0 0 0 0 0
    (replicate 320 0) (replicate 288 0) (replicate 1444 (Code 0 0 0)) 1 0 0.
Definition ex_zalloc_state (_ : nat) : option inflate_state := Some ex_state.
Definition ex_strm : z_stream := ZStream None 0 0 0 None 0 0 0 None None false false 0 0 0.

Lemma ex_zalloc_ok n k l : ex_zalloc n k = Some l -> Z.of_nat (length l) = k /\ Forall byte_ok l.
Proof.
  unfold ex_zalloc. destruct (Z.leb_spec 0 k); [|done]. intros [= <-]. rewrite length_replicate. split; [lia|].
  apply Forall_replicate. unfold byte_ok. lia.
Qed.
Lemma ex_zalloc_state_ok n st : ex_zalloc_state n = Some st -> arrays_ok st.
Proof. intros [= <-]. done. Qed.

(** A new stream for zlib or gzip data, with the zlib encoding of no bytes as its input. *)
Definition ex_init : z_stream := (inflateInit2_ ex_zalloc_state ex_strm 47 true).1.
Definition ex_input : list Z := [120; 156; 3; 0; 0; 0; 0; 1].
Definition ex_call : z_stream :=
  ex_init <| z_in := Some ex_input |> <| z_next_in := 0 |> <| z_avail_in := 8 |>
          <| z_out := Some [0; 0; 0; 0] |> <| z_next_out := 0 |> <| z_avail_out := 4 |>.

Lemma ex_input_ok : Forall byte_ok ex_input.
Proof. repeat (apply List.Forall_cons; [unfold byte_ok; lia|]). apply List.Forall_nil. Qed.
Lemma ex_buffers : buffers_ok ex_call.
Proof.
  split.
  - split; [done|]. split; [done|]. split; [done|]. exact ex_input_ok.
  - intros b [= <-]. exists [0; 0; 0; 0]. repeat (split; [done|]). repeat (apply List.Forall_cons; [unfold byte_ok; lia|]). apply List.Forall_nil.
Qed.
Lemma set_buffers zalloc zalloc_state strm i ni ai o no ao :
  call zalloc zalloc_state strm (strm <| z_in := i |> <| z_next_in := ni |> <| z_avail_in := ai |>
                                      <| z_out := o |> <| z_next_out := no |> <| z_avail_out := ao |>).
Proof. by apply call_buffers. Qed.
Lemma ex_reach : rtc (call ex_zalloc ex_zalloc_state) ex_strm ex_call.
Proof.
  apply (rtc_l _ _ ex_init); [apply (call_init2 _ _ ex_strm 47 true); split; lia|]. apply rtc_once, set_buffers.
Qed.

(** ** One call *)

(** C4. From a well-formed stream and with buffers as large as the caller says, a call of [inflate()] returns: no
    access is out of range, no shift is undefined and the loop ends. It leaves a well-formed stream, the same
    input and output arrays with the positions moved forward by what was consumed and produced, and a return
    value that corresponds to the mode reached: [Z_STREAM_END] exactly at [DONE], [Z_DATA_ERROR] exactly at
    [BAD], [Z_BUF_ERROR] when nothing was consumed or produced, or when [Z_FINISH] did not end the stream. Only calls with missing buffers are refused. *)
Theorem inflate_correct (zalloc : nat -> Z -> option (list Z)) (strm : z_stream) (flush : Z) :
  (forall n k l, zalloc n k = Some l -> Z.of_nat (length l) = k /\ Forall byte_ok l) ->
  stream_ok strm -> buffers_ok strm ->
  exists strm' ret, inflate zalloc strm flush = Some (strm', ret) /\ stream_ok strm' /\ buffers_ok strm' /\
    (refused strm /\ strm' = strm /\ ret = Z_STREAM_ERROR \/
     moved strm strm' /\ exists st', z_state strm' = Some st' /\ ret_for flush strm strm' (s_mode st') ret).
Proof. intros Hz Hs Hb. by apply inflate_ok. Qed.

Lemma inflate_correct_witness :
  exists strm' ret, inflate ex_zalloc ex_call Z_FINISH = Some (strm', ret) /\ stream_ok strm' /\ buffers_ok strm' /\
    (refused ex_call /\ strm' = ex_call /\ ret = Z_STREAM_ERROR \/
     moved ex_call strm' /\ exists st', z_state strm' = Some st' /\ ret_for Z_FINISH ex_call strm' (s_mode st') ret).
Proof.
  refine (inflate_correct ex_zalloc ex_call Z_FINISH ex_zalloc_ok _ ex_buffers).
  exact (calls_ok ex_zalloc ex_zalloc_state ex_zalloc_ok ex_zalloc_state_ok _ _ ex_reach I).
Defined.

(** ** All sequences of calls *)

(** C13. The same holds for every stream that a sequence of the calls in [call] reaches from a new one, with the caller changing
    the buffers between them: [inflate()] and [inflateSetDictionary()] return, whatever the input is, and so does
    [inflateSync()] when the size of the window is known. The calls are all of the interface that change a stream, but [inflateCopy()], with these
    limits: [windowBits] other than 16 and 32, no [extra] buffer in a header for [inflateGetHeader()], [inflatePrime()] only at
    the start of a raw stream with at most 16 bits, and [inflateSync()] only when the size of the window is known. *)
Theorem inflate_reachable (zalloc : nat -> Z -> option (list Z)) (zalloc_state : nat -> option inflate_state)
    (strm0 strm : z_stream) (flush : Z) (dictionary : list Z) :
  (forall n k l, zalloc n k = Some l -> Z.of_nat (length l) = k /\ Forall byte_ok l) ->
  (forall n st, zalloc_state n = Some st -> arrays_ok st) ->
  z_state strm0 = None -> rtc (call zalloc zalloc_state) strm0 strm -> buffers_ok strm -> Forall byte_ok dictionary ->
  is_Some (inflate zalloc strm flush) /\
  is_Some (inflateSetDictionary zalloc strm dictionary (Z.of_nat (length dictionary))) /\
  ((forall st, z_state strm = Some st -> s_wbits st <> 0) -> is_Some (inflateSync strm)).
Proof.
  intros Hz Hzs H0 Hr Hb Hd. assert (Hs : stream_ok strm) by (eapply calls_ok; [done..|]; unfold stream_ok; by rewrite H0).
  split; [|split].
  - destruct (inflate_ok zalloc Hz strm flush Hs Hb) as (s & r & -> & _). by eexists.
  - destruct (setdictionary_fine zalloc strm dictionary (Z.of_nat (length dictionary)) Hz Hs Hd ltac:(lia)) as (s & r & -> & _). by eexists.
  - intros Hw. unfold stream_ok in Hs. destruct (z_state strm) as [st|] eqn:E.
    + destruct (sync_fine strm st E Hs (Hw st eq_refl) (proj1 Hb)) as (s & r & -> & _). by eexists.
    + unfold inflateSync. rewrite E. by eexists.
Qed.

Lemma inflate_reachable_witness :
  is_Some (inflate ex_zalloc ex_call 0) /\
  is_Some (inflateSetDictionary ex_zalloc ex_call [1; 2] (Z.of_nat (length [1; 2]))) /\
  ((forall st, z_state ex_call = Some st -> s_wbits st <> 0) -> is_Some (inflateSync ex_call)).
Proof.
  refine (inflate_reachable ex_zalloc ex_zalloc_state ex_strm ex_call 0 [1; 2] ex_zalloc_ok ex_zalloc_state_ok eq_refl ex_reach ex_buffers _).
  repeat (apply List.Forall_cons; [unfold byte_ok; lia|]). apply List.Forall_nil.
Defined.

(** ** The sliding window *)

(** C20. [updatewindow()] keeps the last [2 ^ wbits] bytes of the output: the bytes of the window, read in order,
    are the last ones of those it held followed by the [copy] bytes before [end]. It allocates the window when
    there is none, changes nothing when that fails, and changes only the window otherwise. *)
Theorem updatewindow_correct (zalloc : nat -> Z -> option (list Z)) (st : inflate_state) (calls : nat) (buf : list Z) (end_ copy : Z) :
  (forall n k l, zalloc n k = Some l -> Z.of_nat (length l) = k /\ Forall byte_ok l) ->
  window_ok st -> Forall byte_ok buf -> 0 <= copy <= end_ -> end_ <= Z.of_nat (length buf) ->
  exists st' calls' fail, updatewindow zalloc st calls buf end_ copy = Some (st', calls', fail) /\
    (fail = 1 /\ st' = st /\ s_window st = None \/ fail = 0 /\ window_updated st buf end_ copy st').
Proof. intros Hz. by apply updatewindow_spec. Qed.

Lemma updatewindow_correct_witness :
  exists st' calls' fail, updatewindow ex_zalloc (ex_state <| s_wbits := 8 |>) 0 ex_input 8 5 = Some (st', calls', fail) /\
    (fail = 1 /\ st' = ex_state <| s_wbits := 8 |> /\ s_window (ex_state <| s_wbits := 8 |>) = None \/
     fail = 0 /\ window_updated (ex_state <| s_wbits := 8 |>) ex_input 8 5 st').
Proof.
  refine (updatewindow_correct ex_zalloc (ex_state <| s_wbits := 8 |>) 0 ex_input 8 5 ex_zalloc_ok _ ex_input_ok _ _).
  - split; [by left|]. split; [cbn; lia|]. split; [by left|]. intros w [=].
  - lia.
  - cbn. lia.
Defined.

(** ** Decoding fast *)

(** C7. [inflate_fast()], called as [inflate()] calls it (six bytes of input, room for 258 bytes of output, decoding
    tables for the codes [ll] and [dl], at most seven bits beyond the next code in [hold]), returns, and what it
    writes is what the canonical codes say: the output grows by a sequence of literals and matches of the
    reference decoder [lz_step], which works bit by bit on the remaining stream and on the bytes written so far.
    It stops before a symbol for which the margins are too small, after the end-of-block code with the mode
    [TYPE], or with the mode [BAD] exactly where the reference decoder finds an error; the bits of the stream
    that it did not use are given back. *)
Theorem inflate_fast_correct (strm : z_stream) (st : inflate_state) (start : Z) (ll dl : list Z) :
  fast_pre strm st start ll dl ->
  exists strm' st', inflate_fast strm st start = Some (strm', st') /\ fast_done strm st start ll dl strm' st'.
Proof. apply inflate_fast_spec. Qed.

Definition ex_fast_strm : z_stream :=
  ex_strm <| z_in := Some [75; 76; 4; 0; 1; 2; 3; 4] |> <| z_next_in := 0 |> <| z_avail_in := 8 |>
          <| z_out := Some (replicate 300 0) |> <| z_next_out := 0 |> <| z_avail_out := 300 |>.

Lemma inflate_fast_correct_witness :
  exists strm' st', inflate_fast ex_fast_strm (fixedtables ex_state) 300 = Some (strm', st') /\
    fast_done ex_fast_strm (fixedtables ex_state) 300 fixed_lens fixed_dists strm' st'.
Proof.
  refine (inflate_fast_correct ex_fast_strm (fixedtables ex_state) 300 fixed_lens fixed_dists _).
  split.
  - split; [done|]. split; [done|]. split; [done|]. repeat (apply List.Forall_cons; [unfold byte_ok; lia|]). apply List.Forall_nil.
  - unfold ex_fast_strm. csimp_goal. lia.
  - exact hold_init.
  - intros sy k H. destruct (symbol_at_facts LENS fixed_lens (gt_syms _ _ _ _ lenfix_good) _ _ _ H) as [Hk _].
    change (s_bits (fixedtables ex_state)) with 0. lia.
  - reflexivity.
  - unfold ex_fast_strm. csimp_goal. lia.
  - unfold ex_fast_strm. csimp_goal. unfold out_buf. csimp_goal. cbn [from_option]. unfold id. rewrite length_replicate. lia.
  - change (Forall byte_ok (replicate 300 0)). apply Forall_replicate. unfold byte_ok. lia.
  - left. done.
  - exact lenfix_good.
  - exact distfix_good.
  - reflexivity.
Defined.
