(* ===== verification/InflateRead.v ===== *)
(** What [inflate()] writes for a stream of the deflate format: one call with all of the stream as its input and room for
    all of its data writes exactly this data. The modes of the state machine are seen as positions in the format: at each of
    them the bits that remain are the rest of a block, the blocks after it and the trailer. *)
From S2P Require Import Prelude Record Bits Huffman InfTrees Inffixed InfTreesProof InfDecode Fixed.
From S2P Require Import Lz DeflateFormat Crc32 Adler32 InflateState InflateMonad InfFast Inflate InflateWp.
From S2P Require Import InflateSym InfFastProof InflateInv InflateSafe1 InflateSafe2 InflateSafe3 InflateSafe4 InflateSafe5.

(** ** The format, from its front *)
Lemma div_pow2_add s a b : 0 <= a -> 0 <= b -> s / 2 ^ a / 2 ^ b = s / 2 ^ (a + b).
Proof. intros. rewrite Z.pow_add_r, Z.div_div by (lia || apply pow2_pos; lia || apply Z.pow_nonzero; lia). done. Qed.

Lemma lz_copy_extends hist dist n : exists d, lz_copy hist dist n = hist ++ d.
Proof.
  revert hist. induction n as [|n IH]; intros hist; cbn [lz_copy]; [exists []; by rewrite app_nil_r|].
  destruct (IH (hist ++ [nth (length hist - Z.to_nat dist) hist 0])) as [d ->]. rewrite <- app_assoc. by eexists.
Qed.
Lemma lz_step_extends ll dl s h u h1 : lz_step ll dl s h = Emit u h1 -> exists d, h1 = h ++ d.
Proof.
  unfold lz_step. destruct (symbol_at LENS ll s) as [[[b| |v e|] k]|]; try done; [intros [= _ <-]; by eexists|].
  destruct (symbol_at DISTS dl _) as [[[b| |w e2|] k2]|]; try done. destruct (_ <? _); [done|]. intros [= _ <-]. apply lz_copy_extends.
Qed.
Lemma lz_runs_extends ll dl s h u h' : lz_runs ll dl s h u h' -> exists d, h' = h ++ d.
Proof.
  induction 1 as [|s h u h1 v h2 Hs _ _ [d ->]]; [exists []; by rewrite app_nil_r|]. destruct (lz_step_extends _ _ _ _ _ _ Hs) as [d' ->]. rewrite <- app_assoc. by eexists.
Qed.
Lemma block_read_extends at_ s h last u h' : block_read at_ s h last u h' -> exists d, h' = h ++ d.
Proof. intros [data _ n _ _ _ _|used hist' _ (u0 & k & H & _)|ll dl used used' hist' _ _ (u0 & k & H & _)]; [by eexists|by eapply lz_runs_extends..]. Qed.

Lemma lz_step_eob ll dl s h k : lz_step ll dl s h = Eob k -> 1 <= k.
Proof.
  unfold lz_step, symbol_at. destruct (huff_decode ll (s mod 2 ^ 15)) as [[sy l]|] eqn:E; cbn [decoded mbind option_bind]; [|done].
  destruct (find_sym_inv _ _ _ _ (canon_lens_ok ll) (proj1 (rev15_range _)) E) as (i & Hi & _). apply (lens_ok_lookup _ _ _ _ (canon_lens_ok ll)) in Hi.
  destruct (make_entry LENS sy l) as [e|]; [|done]. cbn [mbind option_bind]. destruct (classify (op e) (val e)) as [[b| |v x|]|]; try done; cbn [mbind option_bind].
  - intros [= <-]. lia.
  - destruct (decoded DISTS _) as [[[o w] k2]|]; [|done]. cbn [mbind option_bind]. destruct (classify o w) as [[b| |w' e2|]|]; try done. cbn [mbind option_bind]. by destruct (_ <? _).
Qed.

Lemma data_read_pos ll dl s h u h' : data_read ll dl s h u h' -> 1 <= u.
Proof. intros (v & k & Hr & Hk & ->). apply lz_runs_nonneg in Hr. apply lz_step_eob in Hk. lia. Qed.

Lemma data_read_step ll dl s h u h' :
  data_read ll dl s h u h' ->
  lz_step ll dl s h = Eob u /\ h' = h \/ exists k h1, lz_step ll dl s h = Emit k h1 /\ 0 <= k /\ data_read ll dl (s / 2 ^ k) h1 (u - k) h'.
Proof.
  intros (v & k & Hr & Hk & ->). destruct Hr as [s h|s h v h1 w h2 Hs Hv Hr].
  - rewrite Z.div_1_r in Hk. left. by rewrite Z.add_0_l.
  - right. exists v, h1. split; [done|]. split; [done|]. exists w, k. split; [done|]. rewrite div_pow2_add by (done || apply (lz_runs_nonneg _ _ _ _ _ _ Hr)). split; [done|lia].
Qed.

Lemma data_read_runs ll dl s h v h2 u h' : lz_runs ll dl s h v h2 -> data_read ll dl s h u h' -> data_read ll dl (s / 2 ^ v) h2 (u - v) h'.
Proof.
  intros Hr. revert u. induction Hr as [s h|s h v h1 w h2 Hs Hv Hr IH]; intros u Hd; [by rewrite Z.div_1_r, Z.sub_0_r|].
  destruct (data_read_step _ _ _ _ _ _ Hd) as [[E _]|(k & h0 & E & Hk & Hd')]; rewrite Hs in E; [done|]. injection E as <- <-. apply IH in Hd'.
  rewrite div_pow2_add in Hd' by (done || apply (lz_runs_nonneg _ _ _ _ _ _ Hr)). by replace (u - (v + w)) with (u - v - w) by lia.
Qed.

(** ** Positions in a stream

    [s] holds the [n] bits that remain, the stream ends at a byte boundary. *)
Section positions.
Context (data : list Z) (tail : Z -> Z -> Prop).

(** After a block: its data up to here is [hist]; [last] says whether it was the last one. *)
Inductive rest_read : bool -> Z -> Z -> list Z -> Prop :=
  | rest_end s n : tail (s / 2 ^ (n mod 8)) (n - n mod 8) -> rest_read true s n data
  | rest_block s n hist last u hist' :
      block_read (- n) s hist last u hist' -> u <= n -> rest_read last (s / 2 ^ u) (n - u) hist' -> rest_read false s n hist.

(** In a block with the codes [ll] and [dl]. *)
Definition block_rest (ll dl : list Z) (last : bool) (s n : Z) (hist : list Z) : Prop :=
  exists u hist', data_read ll dl s hist u hist' /\ u <= n /\ rest_read last (s / 2 ^ u) (n - u) hist'.

Lemma rest_extends last s n hist : rest_read last s n hist -> exists d, data = hist ++ d.
Proof.
  induction 1 as [s n _|s n hist last u hist' Hb _ _ [d ->]]; [exists []; by rewrite app_nil_r|]. destruct (block_read_extends _ _ _ _ _ _ Hb) as [d' ->].
  rewrite <- app_assoc. by eexists.
Qed.
Lemma rest_length last s n hist : rest_read last s n hist -> (length hist <= length data)%nat.
Proof. intros [d ->]%rest_extends. rewrite length_app. lia. Qed.
Lemma block_rest_length ll dl last s n hist : block_rest ll dl last s n hist -> (length hist <= length data)%nat.
Proof. intros (u & h' & (v & k & Hr & _) & _ & H%rest_length). apply lz_runs_extends in Hr as [d ->]. rewrite length_app in H. lia. Qed.

Lemma rest_true s n h : rest_read true s n h -> h = data /\ tail (s / 2 ^ (n mod 8)) (n - n mod 8).
Proof. intros H. remember true as b eqn:E in H. by destruct H. Qed.
Lemma rest_false s n h : rest_read false s n h -> exists last u h', block_read (- n) s h last u h' /\ u <= n /\ rest_read last (s / 2 ^ u) (n - u) h'.
Proof. intros H. remember false as b eqn:E in H. destruct H as [|s n h last u h' H1 H2 H3]; [done|]. by exists last, u, h'. Qed.

(** The next symbol. *)
Lemma block_rest_step ll dl last s n h :
  block_rest ll dl last s n h ->
  (exists k, lz_step ll dl s h = Eob k /\ 1 <= k <= n /\ rest_read last (s / 2 ^ k) (n - k) h) \/
  exists k h1, lz_step ll dl s h = Emit k h1 /\ 0 <= k <= n /\ block_rest ll dl last (s / 2 ^ k) (n - k) h1.
Proof.
  intros (u & h' & Hd & Hu & Hr). assert (Hp := data_read_pos _ _ _ _ _ _ Hd). destruct (data_read_step _ _ _ _ _ _ Hd) as [[E ->]|(k & h1 & E & Hk & Hd')].
  - left. by exists u.
  - right. assert (Hp' := data_read_pos _ _ _ _ _ _ Hd'). exists k, h1. split; [done|]. split; [lia|]. exists (u - k), h'. split; [done|]. split; [lia|].
    rewrite div_pow2_add by lia. by replace (k + (u - k)) with u by lia; replace (n - k - (u - k)) with (n - u) by lia.
Qed.
Lemma block_rest_runs ll dl last s n h v h2 : lz_runs ll dl s h v h2 -> block_rest ll dl last s n h -> block_rest ll dl last (s / 2 ^ v) (n - v) h2.
Proof.
  intros Hr (u & h' & Hd & Hu & H). assert (Hv := lz_runs_nonneg _ _ _ _ _ _ Hr). assert (Hd' := data_read_runs _ _ _ _ _ _ _ _ Hr Hd). assert (Hp := data_read_pos _ _ _ _ _ _ Hd').
  exists (u - v), h'. split; [done|]. split; [lia|]. rewrite div_pow2_add by lia. by replace (v + (u - v)) with u by lia; replace (n - v - (u - v)) with (n - u) by lia.
Qed.
Lemma block_rest_ok ll dl last s n h : block_rest ll dl last s n h -> lz_step ll dl s h <> Err.
Proof. intros [(k & -> & _)|(k & h1 & -> & _)]%block_rest_step; done. Qed.

(** ** What is to be read in each mode *)
Definition codes_for (st : inflate_state) (ll dl : list Z) : Prop :=
  good_table LENS (code_at st (s_lencode st)) (s_lenbits st) ll /\ good_table DISTS (code_at st (s_distcode st)) (s_distbits st) dl.

Definition stored_rest (last : bool) (s n : Z) (hist d : list Z) : Prop :=
  Forall byte_ok d /\ 8 * Z.of_nat (length d) <= n /\ s mod 2 ^ (8 * Z.of_nat (length d)) = le d /\
  rest_read last (s / 2 ^ (8 * Z.of_nat (length d))) (n - 8 * Z.of_nat (length d)) (hist ++ d).

(** A match of known length and distance, and before its extra bits are read. *)
Definition copy_rest (ll dl : list Z) (last : bool) (s n : Z) (hist : list Z) (len dist : Z) : Prop :=
  dist <= Z.of_nat (length hist) /\ block_rest ll dl last s n (lz_copy hist dist (Z.to_nat len)).
Definition distext_rest (ll dl : list Z) (last : bool) (s n : Z) (hist : list Z) (len w e : Z) : Prop :=
  e <= n /\ copy_rest ll dl last (s / 2 ^ e) (n - e) hist len (w + s mod 2 ^ e).
Definition dist_rest (ll dl : list Z) (last : bool) (s n : Z) (hist : list Z) (len : Z) : Prop :=
  exists w e k, symbol_at DISTS dl s = Some (Base w e, k) /\ k <= n /\ distext_rest ll dl last (s / 2 ^ k) (n - k) hist len w e.
Definition lenext_rest (ll dl : list Z) (last : bool) (s n : Z) (hist : list Z) (v e : Z) : Prop :=
  e <= n /\ dist_rest ll dl last (s / 2 ^ e) (n - e) hist (v + s mod 2 ^ e).

(** The rest of the code lengths, and the block after them. *)
Definition lens_rest (st : inflate_state) (cl acc : list Z) (last : bool) (s n : Z) (hist : list Z) : Prop :=
  exists ll dl u, lens_runs cl s acc u (ll ++ dl) /\ Z.of_nat (length ll) = s_nlen st /\ Z.of_nat (length dl) = s_ndist st /\ codes_valid cl ll dl /\
    u <= n /\ block_rest ll dl last (s / 2 ^ u) (n - u) hist.

Definition reads (m : inflate_mode) (st : inflate_state) (s n : Z) (hist : list Z) : Prop :=
  let last := nz (s_last st) in
  match m with
  | TYPE | TYPEDO => rest_read last s n hist
  | STORED => exists d, let k := n mod 8 in (s / 2 ^ k) mod 2 ^ 16 = Z.of_nat (length d) /\ (s / 2 ^ (k + 16)) mod 2 ^ 16 = 2 ^ 16 - 1 - Z.of_nat (length d) /\
      k + 32 <= n /\ stored_rest last (s / 2 ^ (k + 32)) (n - (k + 32)) hist d
  | COPY_ | COPY => exists d, s_length st = Z.of_nat (length d) /\ stored_rest last s n hist d
  | TABLE => exists ll dl u, trees_read s ll dl u /\ u <= n /\ block_rest ll dl last (s / 2 ^ u) (n - u) hist
  | LEN_ | LEN => exists ll dl, codes_for st ll dl /\ block_rest ll dl last s n hist
  | LENEXT => exists ll dl, codes_for st ll dl /\ lenext_rest ll dl last s n hist (s_length st) (s_extra st)
  | DIST => exists ll dl, codes_for st ll dl /\ dist_rest ll dl last s n hist (s_length st)
  | DISTEXT => exists ll dl, codes_for st ll dl /\ distext_rest ll dl last s n hist (s_length st) (s_offset st) (s_extra st)
  | MATCH => exists ll dl, codes_for st ll dl /\ copy_rest ll dl last s n hist (s_length st) (s_offset st)
  | LIT => exists ll dl, codes_for st ll dl /\ block_rest ll dl last s n (hist ++ [u8 (s_length st)])
  | CHECK => hist = data /\ tail s n
  | _ => False
  end.
End positions.

(** ** The state *)
Definition nbits (c : ctx) : Z := r_bits (c_r c) + 8 * r_have (c_r c).

Section state.
(** The data, the trailer, where the output starts, what the header left, and the bits after the stream. *)
Context (data : list Z) (tail : Z -> Z -> Prop) (p0 wrap flags check rest : Z).

Definition out_hist (c : ctx) : list Z := bytes_at (out_buf (c_strm c)) p0 (r_put (c_r c) - p0).

Record held (c : ctx) : Prop := {
  he_win : s_wsize (c_st c) = 0;
  he_conf : (s_wrap (c_st c), s_flags (c_st c), s_check (c_st c), s_total (c_st c), z_total_out (c_strm c)) = (wrap, flags, check, 0, 0);
  he_start : r_put (c_r c) - (r_out (c_r c) - r_left (c_r c)) = p0;
  he_room : Z.of_nat (length data) <= r_out (c_r c) }.

Definition reading (c : ctx) : Prop :=
  held c /\ reads data tail (s_mode (c_st c)) (c_st c) (stream_of c) (nbits c) (out_hist c).

(** At the end: all of the data is written. *)
Record finished (c : ctx) : Prop := {
  fi_mode : s_mode (c_st c) = DONE;
  fi_ret : r_ret (c_r c) = Z_STREAM_END;
  fi_hist : out_hist c = data;
  fi_total : z_total_out (c_strm c) + (r_out (c_r c) - r_left (c_r c)) = Z.of_nat (length data) /\ 0 <= z_total_out (c_strm c);
  fi_win : s_wsize (c_st c) = 0;
  fi_out : s_wrap (c_st c) = 0 \/ r_out (c_r c) = r_left (c_r c);
  fi_rest : nbits c = rest /\ (wrap <> 0 -> r_bits (c_r c) = 0) }.

Definition read_ok (m : M unit) (mode : inflate_mode) : Prop :=
  forall K c, inv K c -> s_mode (c_st c) = mode -> reading c -> wp finished (fun _ _ => False) m (fun _ => reading) c.

Lemma hist_length K c : inv K c -> held c -> Z.of_nat (length (out_hist c)) = r_out (c_r c) - r_left (c_r c).
Proof.
  intros Hi [_ _ Hs _]. destruct (i_out _ _ Hi) as (b & Eb & H1 & _ & H3 & H4 & _). unfold out_hist, out_buf. rewrite Eb. cbn [from_option]. unfold id.
  rewrite length_bytes_at; lia.
Qed.
End state.

(** Unpacking the invariant and the position. *)
Ltac opening :=
  let K := fresh "K" in
  intros K [strm st [put left next have hold bits in_ out ret]] Hinv Emode Hread; assert (Hinv' := Hinv);
  destruct Hinv' as [Iin Iout Izin Iiend Ioend Iosize [Iin0 Iin1] Irun Iret Ist];
  destruct Hread as [Hheld Hrd]; assert (Hlen := hist_length _ _ _ _ _ _ _ Hinv Hheld); assert (Hheld' := Hheld); destruct Hheld' as [Ewin Econf Estart Hroom]; unfold reads in Hrd; csimp; rewrite Emode in Irun, Iret, Ist, Hrd;
  destruct Ist as [Shold Swin Swbits Shead Slens Swork Scodes Ssane Smode];
  cbn [mode_ok runs ret_ok] in Smode, Irun, Iret; csimp.

(** Rebuilding it: what is left is the position of the mode. *)
Ltac reading_tac := split; [split; csimp_goal; (done || lia)|]; unfold reads; csimp_goal.

(** The bits at the front of a stream. *)
Lemma stream_bits buf next have hold bits k : hold_ok hold bits -> 0 <= k <= bits -> stream buf next have hold bits mod 2 ^ k = hold mod 2 ^ k.
Proof. intros _. apply stream_mod. Qed.

Lemma hold_all buf next have hold bits : hold_ok hold bits -> stream buf next have hold bits mod 2 ^ bits = hold.
Proof. intros [H1 H2]. rewrite stream_mod by lia. apply Z.mod_small. lia. Qed.
