(* ===== verification/InflateReadBlock.v ===== *)
(** Reading the types of blocks, stored blocks, and writing literals and matches. *)
From S2P Require Import Prelude Record Bits Huffman InfTrees Inffixed InfTreesProof InfDecode Fixed.
From S2P Require Import Lz DeflateFormat Crc32 Adler32 InflateState InflateMonad InfFast Inflate InflateWp.
From S2P Require Import InflateSym InfFastProof InflateInv InflateSafe1 InflateSafe2 InflateSafe3 InflateSafe4 InflateSafe5.
From S2P Require Import InflateRead.

Lemma lens_runs_nonneg cl s acc u acc' : lens_runs cl s acc u acc' -> 0 <= u.
Proof. induction 1; lia. Qed.
Lemma trees_read_min s ll dl u : trees_read s ll dl u -> 26 <= u.
Proof.
  intros (v & Hr & _ & _ & -> & _). apply lens_runs_nonneg in Hr. pose proof (Z.mod_pos_bound (s / 2 ^ 10) (2 ^ 4) ltac:(lia)). lia.
Qed.
Lemma block_read_min at_ s h last u h' : block_read at_ s h last u h' -> 3 <= u.
Proof.
  intros [d _ n _ _ _ _|used hist' _ Hd|ll dl used used' hist' _ Ht Hd].
  - pose proof (Z.mod_pos_bound (- (at_ + 3)) 8 ltac:(lia)). unfold n. lia.
  - apply data_read_pos in Hd. lia.
  - apply data_read_pos in Hd. apply trees_read_min in Ht. lia.
Qed.

(** The front of a stream after [NEEDBITS] and [DROPBITS]. *)
Lemma front_bits buf next have hold bits a k :
  0 <= a -> 0 <= k -> a + k <= bits -> (stream buf next have hold bits / 2 ^ a) mod 2 ^ k = (hold / 2 ^ a) mod 2 ^ k.
Proof. intros Ha Hk Hb. rewrite <- stream_drop by lia. apply stream_mod. lia. Qed.

(** [NEEDBITS]: there is always enough input. *)
Ltac feed :=
  apply wp_needbits; csimp_goal;
  [ split; csimp_goal; done | lia | first [left; lia | right; lia] | | ];
  [ let Hs := fresh in intros nx hv hd bt Hs Hn Hmx Hm8; destruct Hs as [Sin Shold' Siend Sbits Smore Sstream]; unfold stream_of in Sstream; csimp
  | let Hs := fresh in intros nx hd bt Hs Hn Hm8; exfalso; destruct Hs as [_ _ _ Sbits _ _]; csimp; unfold nbits in *; csimp ].

(** The complement of a 16-bit number. *)
Lemma lxor_ones16 x : 0 <= x < 2 ^ 16 -> x .^ 0xffff = 2 ^ 16 - 1 - x.
Proof.
  intros Hx. replace (2 ^ 16 - 1 - x) with (Z.lnot x mod 2 ^ 16).
  - change 0xffff with (Z.ones 16). apply Z.bits_inj'. intros i Hi. rewrite Z.lxor_spec, Z.testbit_mod_pow2, Z.testbit_ones, Z.lnot_spec by lia.
    destruct (Z.leb_spec 0 i); [|lia]. destruct (Z.ltb_spec i 16); cbn [andb]; [apply xorb_true_r|]. rewrite xorb_false_r. rewrite <- (Z.mod_small x (2 ^ 16)) by done.
    rewrite Z.testbit_mod_pow2 by lia. destruct (Z.ltb_spec i 16); [lia|done].
  - unfold Z.lnot, Z.pred. symmetry. apply Z.mod_unique_pos with (-1); lia.
Qed.

(** Emptying [hold]. *)
Lemma stream_init buf next have hold bits : hold_ok hold bits -> stream buf next have 0 0 = stream buf next have hold bits / 2 ^ bits.
Proof. intros [H1 H2]. rewrite <- stream_drop by lia. f_equal; [|lia]. symmetry. apply Z.div_small. lia. Qed.

(** ** The output *)
Lemma memcpy_hist dst src p0 put j n :
  0 <= p0 <= put -> 0 <= j -> 0 <= n -> put + n <= Z.of_nat (length dst) -> j + n <= Z.of_nat (length src) ->
  exists d, memcpy dst put src j n = Some d /\ bytes_at d p0 (put + n - p0) = bytes_at dst p0 (put - p0) ++ bytes_at src j n.
Proof.
  intros Hp Hj Hn Hd Hs. unfold memcpy. rewrite slice_in by done. cbn [mbind option_bind].
  destruct (Z.leb_spec 0 put), (Z.leb_spec (put + n) (Z.of_nat (length dst))); try lia. cbn [andb]. eexists. split; [done|].
  assert (Hl := length_bytes_at src j n Hj Hn Hs). unfold bytes_at at 1. rewrite drop_app_le by (rewrite length_take; lia).
  replace (Z.to_nat (put + n - p0)) with (length (drop (Z.to_nat p0) (take (Z.to_nat put) dst) ++ bytes_at src j n)) by (rewrite length_app, length_drop, length_take, Hl; lia).
  rewrite app_assoc, take_app_length. f_equal. unfold bytes_at. rewrite skipn_firstn_comm. f_equal. lia.
Qed.

Lemma hist_snoc ob p0 put b : 0 <= p0 <= put -> put < Z.of_nat (length ob) -> bytes_at (<[Z.to_nat put := b]> ob) p0 (put + 1 - p0) = bytes_at ob p0 (put - p0) ++ [b].
Proof.
  intros Hp Hl. assert (E := bytes_at_snoc [] 0 ob p0 (put - p0) b ltac:(lia) ltac:(lia) ltac:(lia)). replace (p0 + (put - p0)) with put in E by lia.
  by replace (put + 1 - p0) with (put - p0 + 1) by lia.
Qed.

(** The bytes of the input that are next, when [hold] is empty. *)
Lemma next_bytes buf next have d :
  in_ok buf next have -> Forall byte_ok d -> 8 * Z.of_nat (length d) <= 8 * have -> stream buf next have 0 0 mod 2 ^ (8 * Z.of_nat (length d)) = le d ->
  bytes_at buf next (Z.of_nat (length d)) = d /\
  stream buf (next + Z.of_nat (length d)) (have - Z.of_nat (length d)) 0 0 = stream buf next have 0 0 / 2 ^ (8 * Z.of_nat (length d)).
Proof.
  intros Hi Hd Hn Hs. assert (Hi' := Hi). destruct Hi' as (H1 & H2 & H3 & H4). unfold stream in *. rewrite !Z.mul_1_l, !Z.add_0_l in *. set (n := Z.of_nat (length d)) in *.
  split; [|symmetry; apply le_bytes_drop; [done|lia]]. assert (Hl := length_bytes_at buf next n H1 ltac:(lia) ltac:(lia)).
  apply le_inj; [by apply bytes_at_bytes|done|lia|]. rewrite <- Hs. replace have with (n + (have - n)) by lia. rewrite bytes_at_cat, le_app by lia. rewrite Hl, Z2Nat.id by lia.
  rewrite (Z.mul_comm (2 ^ _)), Z.mod_add by (apply Z.pow_nonzero; lia). symmetry. apply Z.mod_small. assert (Hr := le_range (bytes_at buf next n) ltac:(by apply bytes_at_bytes)). by rewrite Hl, Z2Nat.id in Hr by lia.
Qed.

Section blocks.
Context (data : list Z) (tail : Z -> Z -> Prop) (p0 wrap flags check rest : Z).
Abbreviation read_ok := (read_ok data tail p0 wrap flags check rest).

Lemma read_TYPEDO flush mode : mode = TYPE \/ mode = TYPEDO -> flush <> Z_TREES -> read_ok (case_TYPEDO flush) mode.
Proof.
  intros Hmode Hfl. opening. assert (Hr : rest_read data tail (nz (s_last st)) (stream (in_buf strm) next have hold bits) (bits + 8 * have) (bytes_at (out_buf strm) p0 (put - p0))).
  { by destruct Hmode as [->| ->]. }
  clear Hrd. assert (Hb := Shold). destruct Hb as [Hb Hh]. assert (Hb16 : bits <= 16) by (by destruct Hmode as [->| ->]). unfold case_TYPEDO. wp_steps. destruct (nz (s_last st)) eqn:El.
  { apply rest_true in Hr as [Ed Ht]. apply wp_bind, wp_bytebits; csimp_goal; [done|]. cbv zeta. wp_steps. reading_tac. split; [done|].
    unfold stream_of, nbits. csimp_goal. assert (Em : (bits + 8 * have) mod 8 = bits mod 8) by (rewrite (Z.mul_comm 8), Z.mod_add by lia; done). rewrite Em in Ht.
    pose proof (Z.mod_pos_bound bits 8 ltac:(lia)). pose proof (Z.mod_le bits 8 ltac:(lia) ltac:(lia)). rewrite stream_drop by lia. by replace (bits - bits mod 8 + 8 * have) with (bits + 8 * have - bits mod 8) by lia. }
  apply rest_false in Hr as (last & u & h' & Hblk & Hu & Hrest). assert (Hmin := block_read_min _ _ _ _ _ _ Hblk).
  apply wp_bind. feed; [|lia]. apply wp_bind, wp_bits; csimp_goal; [lia|]. wp_steps. apply wp_dropbits; csimp_goal; [done|lia|lia|]. wp_steps.
  apply wp_bits; csimp_goal; [lia|]. assert (Hh1 := hold_drop _ _ 1 Shold' ltac:(lia)).
  set (s := stream (in_buf strm) next have hold bits) in *. set (n := bits + 8 * have) in *.
  assert (B0 : hd mod 2 ^ 1 = s mod 2) by (rewrite <- Sstream; symmetry; apply (stream_mod _ _ _ _ _ 1); lia).
  assert (B1 : (hd / 2 ^ 1) mod 2 ^ 2 = s / 2 mod 4) by (rewrite <- Sstream; symmetry; apply (front_bits _ _ _ _ _ 1 2); lia).
  assert (B3 : stream (in_buf strm) nx hv (hd / 2 ^ 1 / 2 ^ 2) (bt - 1 - 2) = s / 2 ^ 3) by (rewrite !stream_drop by lia; rewrite Sstream; apply div_pow2_add; lia).
  assert (Bn : bt - 1 - 2 + 8 * hv = n - 3) by lia. assert (Bl : nz (hd mod 2 ^ 1) = (s mod 2 =? 1)).
  { rewrite B0. assert (Hm := Z.mod_pos_bound s 2 ltac:(lia)). unfold nz. destruct (Z.eqb_spec (s mod 2) 0), (Z.eqb_spec (s mod 2) 1); (done || lia). }
  rewrite B1. assert (Hf : (flush =? Z_TREES) = false) by (by apply Z.eqb_neq).
  destruct Hblk as [d Ht k L1 L2 Hd Hby|used h' Ht Hd|ll dl used used' h' Ht Htr Hd]; rewrite Ht; cbn [Z.eqb Pos.eqb]; wp_steps; rewrite ?Hf; cbv iota; wp_steps; (apply wp_dropbits; csimp_goal; [done|lia|lia|]); wp_steps; reading_tac; unfold stream_of, nbits, out_hist; csimp_goal; rewrite B3, Bn, ?Bl.
  - assert (Ek : k = 3 + (n - 3) mod 8) by (unfold k; f_equal; f_equal; lia). assert (Hm := Z.mod_pos_bound (n - 3) 8 ltac:(lia)). rewrite Ek in *. exists d.
    rewrite !div_pow2_add by lia. rewrite !Z.add_assoc. split; [done|]. split; [done|]. split; [lia|]. split; [done|]. split; [lia|]. rewrite div_pow2_add by lia. split; [done|].
    replace (n - 3 - ((n - 3) mod 8 + 32) - 8 * Z.of_nat (length d)) with (n - (3 + (n - 3) mod 8 + 32 + 8 * Z.of_nat (length d))) by lia. done.
  - change (s_last (fixedtables _)) with (hd mod 2 ^ 1). rewrite Bl. exists fixed_lens, fixed_dists. split; [split; [exact lenfix_good|exact distfix_good]|]. exists used, h'. split; [done|]. split; [lia|].
    assert (Hp := data_read_pos _ _ _ _ _ _ Hd). rewrite div_pow2_add by lia. by replace (n - 3 - used) with (n - (3 + used)) by lia.
  - assert (Hp := data_read_pos _ _ _ _ _ _ Hd). assert (Hp2 := trees_read_min _ _ _ _ Htr). exists ll, dl, used. split; [done|]. split; [lia|]. exists used', h'. rewrite !div_pow2_add by lia. split; [done|]. split; [lia|].
    by replace (n - 3 - used - used') with (n - (3 + used + used')) by lia.
Qed.

(** ** Stored blocks *)
Lemma read_COPY : read_ok case_COPY COPY.
Proof.
  opening. destruct Smode as (-> & Hlen16). destruct Hrd as (d & Elen & Hby & Hn & Hs & Hrest). unfold stream_of, nbits, out_hist in *. csimp. rewrite Z.add_0_l in *.
  assert (hold = 0) as -> by (destruct Shold as [_ ?]; lia). destruct Iout as (ob & Eob & Hout1 & Hout2 & Hout3 & Hout4 & Hob).
  assert (Hob' : out_buf strm = ob) by (unfold out_buf; by rewrite Eob). assert (Hfit := rest_length _ _ _ _ _ _ Hrest). rewrite length_app in Hfit.
  unfold case_COPY. wp_steps. destruct (nz (s_length st)) eqn:Ez.
  - apply nz_true in Ez. wp_steps. destruct (Z.ltb_spec have (s_length st)); [lia|]. destruct (Z.ltb_spec left (s_length st)); [lia|]. destruct (Z.eqb_spec (s_length st) 0); [done|]. wp_steps.
    rewrite Elen, Hob'. assert (Hi := Iin). destruct Hi as (Hi1 & Hi2 & Hi3 & Hi4). destruct (memcpy_hist ob (in_buf strm) p0 put next (Z.of_nat (length d))) as (ob' & E & Eh); [lia..|].
    destruct (next_bytes _ _ _ d Iin Hby Hn Hs) as [Ed Es]. eapply wp_lift; [exact E|]. wp_steps. rewrite !u32_small by lia. reading_tac. rewrite Emode, Z.sub_diag. exists []. split; [done|].
    unfold stream_of, nbits, out_hist, out_buf. csimp_goal. cbn [from_option]. unfold id. rewrite Eh, Ed. change (in_buf _) with (in_buf strm). rewrite Es, Z.add_0_l. rewrite <- Hob'.
    split; [done|]. split; [cbn; lia|]. split; [apply Z.mod_1_r|]. cbn [length]. rewrite Z.div_1_r, app_nil_r. by replace (8 * (have - Z.of_nat (length d)) - 8 * Z.of_nat 0) with (8 * have - 8 * Z.of_nat (length d)) by lia.
  - apply nz_false in Ez. assert (d = []) as -> by (destruct d; [done|cbn in *; lia]). cbn [length] in Hrest. wp_steps. reading_tac.
    unfold stream_of, nbits, out_hist. csimp_goal. change (2 ^ (8 * Z.of_nat 0)) with 1 in Hrest. by rewrite Z.div_1_r, app_nil_r, Z.mul_0_r, Z.sub_0_r in Hrest.
Qed.

Lemma read_STORED flush : flush <> Z_TREES -> read_ok (case_STORED flush) STORED.
Proof.
  intros Hfl. opening. destruct Hrd as (d & L1 & L2 & Hnb & Hrest). unfold stream_of, nbits, out_hist in *. csimp. assert (Hb := Shold). destruct Hb as [Hb Hh].
  assert (Em : (bits + 8 * have) mod 8 = bits mod 8) by (rewrite (Z.mul_comm 8), Z.mod_add by lia; done). rewrite Em in *. set (s := stream (in_buf strm) next have hold bits) in *. set (k := bits mod 8) in *.
  assert (Hk := Z.mod_pos_bound bits 8 ltac:(lia)). assert (Hk2 := Z.mod_le bits 8 ltac:(lia) ltac:(lia)). fold k in Hk, Hk2. assert (Hh1 := hold_drop _ _ k Shold ltac:(lia)). assert (Hm0 : (bits - k) mod 8 = 0) by (unfold k; dlia).
  unfold case_STORED. apply wp_bind, wp_bytebits; csimp_goal; [done|]. cbv zeta. fold k. apply wp_bind. feed; [|lia]. wp_steps.
  assert (bt = 32) as -> by (destruct Shold' as [? _]; lia). rewrite stream_drop in Sstream by lia. fold s in Sstream.
  assert (Ehd : hd = (s / 2 ^ k) mod 2 ^ 32) by (rewrite <- Sstream; symmetry; by apply hold_all).
  assert (E1 : hd mod 2 ^ 16 = Z.of_nat (length d)) by (rewrite Ehd, <- L1; apply (mod_mod_pow2 _ 32 16); lia).
  assert (E2 : hd / 2 ^ 16 = 2 ^ 16 - 1 - Z.of_nat (length d)).
  { rewrite <- L2, <- div_pow2_add by lia. rewrite Ehd. change (2 ^ 32) with (2 ^ (16 + 16)). rewrite (mod_split _ 16 16), (Z.mul_comm (2 ^ 16)), Z.div_add, Z.div_small by (lia || apply Z.mod_pos_bound; lia). lia. }
  assert (Hl16 : 0 <= Z.of_nat (length d) < 2 ^ 16) by (rewrite <- E1; apply Z.mod_pos_bound; lia).
  rewrite land_0xffff, Z.shiftr_div_pow2, E1, E2, lxor_ones16 by lia. replace (2 ^ 16 - 1 - (2 ^ 16 - 1 - Z.of_nat (length d))) with (Z.of_nat (length d)) by lia. rewrite Z.eqb_refl. cbn [negb].
  wp_steps. apply wp_initbits. csimp_goal. wp_steps. destruct (Z.eqb_spec flush Z_TREES); [done|]. unfold case_COPY_. wp_steps. change (2 ^ 16) with 65536 in Hl16.
  apply (read_COPY K); csimp_goal; [rebuild|done|]. reading_tac. exists d. split; [done|]. unfold stream_of, nbits, out_hist. csimp_goal.
  rewrite (stream_init _ _ _ _ _ Shold'), Sstream, div_pow2_add by lia. by replace (0 + 8 * hv) with (bits + 8 * have - (k + 32)) by lia.
Qed.

(** ** Literals *)
Lemma codes_for_upd st st' ll dl :
  s_codes st' = s_codes st -> s_lencode st' = s_lencode st -> s_lenbits st' = s_lenbits st ->
  s_distcode st' = s_distcode st -> s_distbits st' = s_distbits st -> codes_for st ll dl -> codes_for st' ll dl.
Proof. intros E1 E2 E3 E4 E5 H. unfold codes_for, code_at in *. by rewrite E1, E2, E3, E4, E5. Qed.

Lemma read_LIT : read_ok case_LIT LIT.
Proof.
  opening. destruct Hrd as (ll & dl & Hc & Hblk). unfold stream_of, nbits, out_hist in *. csimp. destruct Iout as (ob & Eob & Hout1 & Hout2 & Hout3 & Hout4 & Hob).
  assert (Hob' : out_buf strm = ob) by (unfold out_buf; by rewrite Eob). assert (Hfit := block_rest_length _ _ _ _ _ _ _ _ Hblk). rewrite length_app in Hfit. cbn [length] in Hfit. rewrite Hob' in *.
  unfold case_LIT. wp_steps. destruct (Z.eqb_spec left 0); [lia|]. wp_steps. rewrite Hob'. eapply wp_lift; [apply aset_in; lia|]. wp_steps. rewrite (u32_small (left - 1)) by lia. reading_tac.
  exists ll, dl. split; [by eapply (codes_for_upd st)|]. unfold stream_of, nbits, out_hist, out_buf. csimp_goal. cbn [from_option]. unfold id. change (in_buf _) with (in_buf strm).
  by rewrite hist_snoc by lia.
Qed.

(** ** Matches *)
Lemma wp_copy_hist (L : ctx -> Prop) (R : Z -> ctx -> Prop) (n : nat) dist len (Q : () -> ctx -> Prop) strm st put left next have hold bits in_ out ret ob :
  len = Z.of_nat n -> z_out strm = Some ob -> 0 <= p0 -> 1 <= dist <= put - p0 -> put + Z.of_nat n <= Z.of_nat (length ob) -> (0 < n)%nat -> Z.of_nat n < 2 ^ 32 ->
  (forall ob', bytes_at ob' p0 (put + Z.of_nat n - p0) = lz_copy (bytes_at ob p0 (put - p0)) dist n ->
     Q tt (Ctx (upd z_out (fun _ => Some ob') strm) st (Regs (put + Z.of_nat n) left next have hold bits in_ out ret))) ->
  wp L R (copy_loop n None (put - dist) len) Q (Ctx strm st (Regs put left next have hold bits in_ out ret)).
Proof.
  revert strm put ob len. induction n as [|n IH]; intros strm put ob len -> Eob Hp0 Hd Hl Hn H32 HQ; [lia|]. cbn [copy_loop]. wp_steps.
  assert (Hob' : out_buf strm = ob) by (unfold out_buf; by rewrite Eob). rewrite Hob'. cbn [from_option]. unfold id.
  assert (Hlen : length (bytes_at ob p0 (put - p0)) = Z.to_nat (put - p0)) by (apply length_bytes_at; lia).
  set (b := nth (length (bytes_at ob p0 (put - p0)) - Z.to_nat dist) (bytes_at ob p0 (put - p0)) 0).
  assert (Hb : aget ob (put - dist) = Some b).
  { unfold b. rewrite Hlen. unfold aget. destruct (Z.leb_spec 0 (put - dist)); [|lia]. destruct (lookup_lt_is_Some_2 ob (Z.to_nat (put - dist)) ltac:(lia)) as [x Hx]. rewrite Hx. f_equal. symmetry.
    apply nth_lookup_Some. unfold bytes_at. rewrite lookup_take_lt, lookup_drop by lia. by replace (Z.to_nat p0 + (Z.to_nat (put - p0) - Z.to_nat dist))%nat with (Z.to_nat (put - dist)) by lia. }
  eapply wp_lift; [exact Hb|]. wp_steps. eapply wp_lift; [apply aset_in; lia|]. wp_steps. rewrite (u32_small (Z.of_nat (S n) - 1)) by lia. replace (Z.of_nat (S n) - 1) with (Z.of_nat n) by lia.
  assert (Eh := hist_snoc ob p0 put b ltac:(lia) ltac:(lia)). set (ob1 := <[Z.to_nat put := b]> ob) in *. assert (Hl1 : length ob1 = length ob) by apply length_insert.
  destruct (nz (Z.of_nat n)) eqn:Ez.
  - apply nz_true in Ez. replace (put - dist + 1) with (put + 1 - dist) by lia. apply (IH _ (put + 1) ob1 (Z.of_nat n)); try (done || lia).
    intros ob2 E2. replace (put + 1 + Z.of_nat n) with (put + Z.of_nat (S n)) in * by lia. apply HQ. rewrite E2, Eh. done.
  - apply nz_false in Ez. assert (n = 0%nat) as -> by lia. wp_steps. apply HQ. change (Z.of_nat 1) with 1. rewrite Eh. done.
Qed.

Lemma read_MATCH : read_ok case_MATCH MATCH.
Proof.
  opening. destruct Smode as (_ & _ & Hl & Ho). destruct Hrd as (ll & dl & Hc & Hd & Hblk). unfold stream_of, nbits, out_hist in *. csimp. destruct Iout as (ob & Eob & Hout1 & Hout2 & Hout3 & Hout4 & Hob).
  assert (Hob' : out_buf strm = ob) by (unfold out_buf; by rewrite Eob). assert (Hfit := block_rest_length _ _ _ _ _ _ _ _ Hblk). rewrite lz_copy_length in Hfit. rewrite Hob' in *.
  unfold case_MATCH. wp_steps. destruct (Z.eqb_spec left 0); [lia|]. wp_steps. rewrite (u32_small (out - left)) by lia. destruct (Z.ltb_spec (out - left) (s_offset st)); [lia|].
  destruct (Z.ltb_spec left (s_length st)); [lia|]. wp_steps. rewrite !u32_small by lia. 
  apply (wp_copy_hist _ _ _ _ _ _ _ _ _ _ _ _ _ _ _ _ _ ob); csimp_goal; try (done || lia). intros ob' Eh. wp_steps. rewrite Z.sub_diag. cbn [Z.eqb]. unfold when_. wp_steps. replace (Z.of_nat (Z.to_nat (s_length st))) with (s_length st) in * by lia. reading_tac.
  exists ll, dl. split; [by eapply (codes_for_upd st)|]. unfold stream_of, nbits, out_hist, out_buf. csimp_goal. cbn [from_option]. unfold id. change (in_buf _) with (in_buf strm). by rewrite Eh.
Qed.
End blocks.
