(* ===== verification/InflateReadSym.v ===== *)
(** Reading the symbols of a compressed block, bit by bit and with [inflate_fast()]. *)
From S2P Require Import Prelude Record Bits Huffman InfTrees Inffixed InfTreesProof InfDecode Fixed.
From S2P Require Import Lz DeflateFormat Crc32 Adler32 InflateState InflateMonad InfFast Inflate InflateWp.
From S2P Require Import InflateSym InfFastProof InflateInv InflateSafe1 InflateSafe2 InflateSafe3 InflateSafe4 InflateSafe5.
From S2P Require Import InflateRead InflateReadBlock.

(** ** The symbol at the front of a block *)
Lemma block_rest_symbol data tail ll dl last s n h sy k :
  Z.of_nat (length ll) <= type_syms LENS -> Z.of_nat (length dl) <= type_syms DISTS ->
  block_rest data tail ll dl last s n h -> symbol_at LENS ll s = Some (sy, k) ->
  k <= n /\ match sy with
    | Literal b => block_rest data tail ll dl last (s / 2 ^ k) (n - k) (h ++ [b])
    | EndBlock => rest_read data tail last (s / 2 ^ k) (n - k) h
    | Base v e => lenext_rest data tail ll dl last (s / 2 ^ k) (n - k) h v e
    | Invalid => False
    end.
Proof.
  intros Hll Hdl Hb Hs. destruct (symbol_at_facts _ _ Hll _ _ _ Hs) as [Hk Hsy]. unfold lenext_rest, dist_rest, distext_rest, copy_rest.
  destruct (block_rest_step _ _ _ _ _ _ _ _ Hb) as [(k' & E & Hk' & Hr)|(k' & h1 & E & Hk' & Hr)]; unfold lz_step in E; rewrite Hs in E.
  - destruct sy as [b| |v e|]; try done; [injection E as <-; split; [lia|done]|]. destruct (symbol_at DISTS dl _) as [[[b| |w e2|] k2]|]; try done. by destruct (_ <? _).
  - destruct sy as [b| |v e|]; try done; [injection E as <- <-; split; [lia|done]|].
    destruct (symbol_at DISTS dl (s / 2 ^ (k + e))) as [[sy2 k2]|] eqn:Hs2; [|done]. destruct (symbol_at_facts _ _ Hdl _ _ _ Hs2) as [Hk2 Hsy2].
    destruct sy2 as [b| |w e2|]; try done. destruct (Z.ltb_spec (Z.of_nat (length h)) (w + (s / 2 ^ (k + e + k2)) mod 2 ^ e2)); [done|]. injection E as <- <-.
    assert (0 <= e /\ 0 <= e2) as [He He2] by (destruct Hsy as [(_ & _ & ? & _)|(? & _)]; [|done]; destruct Hsy2 as [(? & _)|(_ & _ & ? & _)]; [done|]; lia).
    split; [lia|]. split; [lia|]. exists w, e2, k2. rewrite !div_pow2_add by lia. split; [done|]. split; [lia|]. split; [lia|]. split; [lia|].
    by replace (n - k - e - k2 - e2) with (n - (k + e + k2 + e2)) by lia.
Qed.

(** ** The macros *)
Lemma wp_extra_read (L : ctx -> Prop) (R : Z -> ctx -> Prop) (f : inflate_state -> Z) `{!Setter f} (Q : () -> ctx -> Prop) c :
  input_ok c -> 0 <= s_extra (c_st c) <= 13 -> r_bits (c_r c) - 8 < s_extra (c_st c) -> 0 <= f (c_st c) < 65536 -> s_extra (c_st c) <= nbits c ->
  (s_extra (c_st c) = 0 -> Q tt c) ->
  (forall next have hold bits back, in_ok (in_buf (c_strm c)) next have -> hold_ok hold bits -> bits <= 7 ->
     next + have = r_next (c_r c) + r_have (c_r c) -> bits + 8 * have = nbits c - s_extra (c_st c) -> have <= r_have (c_r c) ->
     stream (in_buf (c_strm c)) next have hold bits = stream_of c / 2 ^ s_extra (c_st c) ->
     Q tt (Ctx (c_strm c) (upd s_back (fun _ => back) (upd f (fun _ => f (c_st c) + stream_of c mod 2 ^ s_extra (c_st c)) (c_st c)))
             (c_r (at_input c next have hold bits)))) ->
  wp L R (add_extra f) Q c.
Proof.
  intros Hc He Hb Hf Hn Q0 Q1. unfold add_extra. wp_steps. set (x := s_extra (c_st c)) in *. apply wp_when; [|intros E%nz_false; by apply Q0].
  intros E%nz_true. apply wp_bind, wp_needbits; [done|lia|left; lia| |].
  2:{ intros nx hd bt [_ _ _ Sb _ _] Hlt. unfold nbits in Hn. lia. }
  intros nx hv hd bt [Si Sh Se Sb Sm Ss] Hx Hmx _. wp_steps. apply wp_bits; csimp_goal; [lia|]. wp_steps. apply wp_dropbits; csimp_goal; [done|lia|lia|]. wp_steps.
  assert (Hp : 0 < 2 ^ x) by (apply pow2_pos; lia). assert (2 ^ x <= 2 ^ 13) by (apply Z.pow_le_mono_r; lia).
  assert (Hm := Z.mod_pos_bound hd (2 ^ x) Hp). rewrite (u32_small (f (c_st c) + hd mod 2 ^ x)) by lia.
  rewrite <- (stream_mod (in_buf (c_strm c)) nx hv hd bt x), Ss by lia. unfold nbits in *. apply Q1; try (done || lia); [apply hold_drop; (done || lia)|].
  rewrite stream_drop, Ss by lia. done.
Qed.

Lemma wp_decode_read (L : ctx -> Prop) (R : Z -> ctx -> Prop) type st ptr root ls link (Q : code -> ctx -> Prop) c sy k :
  good_table type (code_at st ptr) root ls -> (forall h e, code_at st ptr (h mod 2 ^ root) = Some e -> link e = is_link e) ->
  c_st c = st -> input_ok c -> fed st ptr root (r_hold (c_r c)) (r_bits (c_r c)) ->
  symbol_at type ls (stream_of c) = Some (sy, k) -> k <= nbits c ->
  (forall next have hold bits here back, in_ok (in_buf (c_strm c)) next have -> hold_ok hold bits -> bits <= 7 ->
     next + have = r_next (c_r c) + r_have (c_r c) -> bits + 8 * have = nbits c - k -> have <= r_have (c_r c) ->
     stream (in_buf (c_strm c)) next have hold bits = stream_of c / 2 ^ k ->
     classify (op here) (val here) = Some sy ->
     Q here (Ctx (c_strm c) (upd s_back (fun _ => back) st) (c_r (at_input c next have hold bits)))) ->
  wp L R (decode_symbol link ptr root) Q c.
Proof.
  intros G Hlink Est Hc Hf Hs Hn HQ. eapply (wp_decode_symbol _ _ type st); [exact G|done..| |].
  - intros nx hv hd bt o v k' here back Hsi Hj E Hk Eo Ev. assert (Hb7 := fed_after _ _ _ _ _ _ _ _ _ _ _ Hsi Hf (proj2 Hc) Hj E).
    destruct Hsi as [Si Sh Se Sb Sm Ss]. destruct (lookup_symbol _ _ _ _ G hd (stream_of c) _ _ _ E) as (sy' & Hcl & _ & Hs').
    { rewrite <- Ss. symmetry. apply stream_mod. destruct (lookup_facts _ _ _ _ G _ _ _ _ E) as (? & _). lia. }
    rewrite Hs in Hs'. injection Hs' as <- <-. destruct (lookup_facts _ _ _ _ G _ _ _ _ E) as (Hk1 & _). unfold nbits in *.
    apply HQ; try (done || lia); [apply hold_drop; (done || lia)|rewrite stream_drop, Ss by lia; done|by rewrite Eo, Ev].
  - intros nx hd bt [Si Sh Se Sb Sm Ss] (o & v & k' & E & Hlt). exfalso. destruct (lookup_facts _ _ _ _ G _ _ _ _ E) as (_ & sy' & _ & _ & Hs').
    assert (Ehd : stream (in_buf (c_strm c)) nx 0 hd bt = hd) by (unfold stream, bytes_at; rewrite take_0; cbn [le]; lia). rewrite <- Ss, Ehd, Hs' in Hs. injection Hs as -> ->. unfold nbits in Hn. lia.
Qed.

Section symbols.
Context (data : list Z) (tail : Z -> Z -> Prop) (p0 wrap flags check rest : Z).
Abbreviation read_ok := (read_ok data tail p0 wrap flags check rest).

Lemma read_DISTEXT : read_ok case_DISTEXT DISTEXT.
Proof.
  opening. destruct Smode as (Ht & Hb & He & Ho & Ho' & Hl). destruct Hrd as (ll & dl & Hc & Hn & Hr). assert (0 < 2 ^ s_extra st) by (apply pow2_pos; lia).
  unfold case_DISTEXT. apply wp_bind, wp_extra_read; csimp_goal; try (done || lia).
  - intros E0. rewrite E0 in Ho', Hr. rewrite Z.div_1_r, Z.mod_1_r, Z.sub_0_r, Z.add_0_r in Hr. wp_steps. apply (read_MATCH _ _ _ _ _ _ _ K); csimp_goal; [|done|].
    + rebuild. cbn [mode_ok]; csimp_goal. split; [by eapply (tables_ok_upd st)|]. lia.
    + reading_tac. exists ll, dl. split; [by eapply (codes_for_upd st)|done].
  - intros nx hv hd bt back Hi Hho Hb7 Hend Hbits Hhv Hstr. unfold stream_of, nbits, out_hist in *. csimp. set (s := stream (in_buf strm) next have hold bits) in *.
    assert (Hm := Z.mod_pos_bound s (2 ^ s_extra st) ltac:(lia)). wp_steps. apply (read_MATCH _ _ _ _ _ _ _ K); csimp_goal; [|done|].
    + rebuild. cbn [mode_ok]; csimp_goal. split; [by eapply (tables_ok_upd st)|]. lia.
    + reading_tac. unfold stream_of, nbits, out_hist. csimp_goal. exists ll, dl. split; [by eapply (codes_for_upd st)|]. by rewrite Hstr, Hbits.
Qed.

Lemma read_DIST : read_ok case_DIST DIST.
Proof.
  opening. destruct Smode as (Ht & Hf & Hl). destruct Hrd as (ll & dl & Hc & w & e & k & Hs & Hk & Hr). assert (Hc' := Hc). destruct Hc' as [Gl Gd].
  unfold case_DIST. wp_steps. eapply (wp_decode_read _ _ DISTS st); [exact Gd|intros h e' He'; by eapply dist_link|done|by split|done|exact Hs|done|].
  intros nx hv hd bt here back Hi Hho Hb7 Hend Hbits Hhv Hstr Hcl. destruct (symbol_at_facts DISTS dl (gt_syms _ _ _ _ Gd) _ _ _ Hs) as [_ Hok].
  destruct (classify_tests _ _ _ Hcl) as (_ & -> & Hx & [= _ _ H64 _ H15]). rewrite H64. csimp_goal. wp_steps. rewrite H15. destruct Hok as [(? & _)|(_ & Hv & Hx' & Hvx)]; [done|].
  unfold stream_of, nbits, out_hist in *. csimp. apply (read_DISTEXT K); csimp_goal; [|done|].
  - rebuild. cbn [mode_ok]; csimp_goal. split; [by eapply (tables_ok_upd st)|]. lia.
  - reading_tac. unfold stream_of, nbits, out_hist. csimp_goal. exists ll, dl. split; [by eapply (codes_for_upd st)|]. by rewrite Hstr, Hbits.
Qed.

Lemma read_LENEXT : read_ok case_LENEXT LENEXT.
Proof.
  opening. destruct Smode as (Ht & Hb & He & Ho & Ho'). destruct Hrd as (ll & dl & Hc & Hn & Hr). assert (0 < 2 ^ s_extra st) by (apply pow2_pos; lia).
  assert (Hdist : forall st' hold bits, s_codes st' = s_codes st -> s_lencode st' = s_lencode st -> s_lenbits st' = s_lenbits st ->
    s_distcode st' = s_distcode st -> s_distbits st' = s_distbits st -> bits <= 7 -> 3 <= s_length st' <= 258 -> mode_ok DIST st' hold bits).
  { intros st' h b E1 E2 E3 E4 E5 Hb7 Hl. assert (Ht' : tables_ok st') by (by eapply (tables_ok_upd st)).
    split; [done|]. split; [|lia]. by apply (tables_fed_few st' h b). }
  unfold case_LENEXT. apply wp_bind, wp_extra_read; csimp_goal; try (done || lia).
  - intros E0. rewrite E0 in Ho', Hr. rewrite Z.div_1_r, Z.mod_1_r, Z.sub_0_r, Z.add_0_r in Hr. wp_steps. apply (read_DIST K); csimp_goal; [|done|].
    + rebuild. apply Hdist; csimp_goal; (done || lia).
    + reading_tac. exists ll, dl. split; [by eapply (codes_for_upd st)|done].
  - intros nx hv hd bt back Hi Hho Hb7 Hend Hbits Hhv Hstr. unfold stream_of, nbits, out_hist in *. csimp. set (s := stream (in_buf strm) next have hold bits) in *.
    assert (Hm := Z.mod_pos_bound s (2 ^ s_extra st) ltac:(lia)). wp_steps. apply (read_DIST K); csimp_goal; [|done|].
    + rebuild. apply Hdist; csimp_goal; (done || lia).
    + reading_tac. unfold stream_of, nbits, out_hist. csimp_goal. exists ll, dl. split; [by eapply (codes_for_upd st)|]. by rewrite Hstr, Hbits.
Qed.

(** [inflate_fast()]: it reads the same symbols. *)
Lemma strm_hist_out strm st start q :
  s_wsize st = 0 -> z_next_out strm - (start - z_avail_out strm) = q ->
  strm_hist strm st start = bytes_at (out_buf strm) q (z_next_out strm - q).
Proof.
  intros Hw Hq. unfold strm_hist, st_hist, hist_of. rewrite Hw. replace (z_next_out strm - q) with (start - z_avail_out strm) by lia. rewrite Hq. by destruct (s_window st).
Qed.

Lemma fast_reads strm st start ll dl strm' st' q last n :
  fast_done strm st start ll dl strm' st' -> s_wsize st = 0 -> z_next_out strm - (start - z_avail_out strm) = q -> s_mode st = LEN ->
  n = s_bits st + 8 * z_avail_in strm ->
  block_rest data tail ll dl last (strm_stream strm st) n (bytes_at (out_buf strm) q (z_next_out strm - q)) ->
  s_mode st' = LEN /\ block_rest data tail ll dl last (strm_stream strm' st') (s_bits st' + 8 * z_avail_in strm') (bytes_at (out_buf strm') q (z_next_out strm' - q)) \/
  s_mode st' = TYPE /\ rest_read data tail last (strm_stream strm' st') (s_bits st' + 8 * z_avail_in strm') (bytes_at (out_buf strm') q (z_next_out strm' - q)).
Proof.
  intros D Hw Hq Em En Hb. destruct (fd_st _ _ _ _ _ _ _ D) as (m & Est & used & h' & Hr & Hh & Hm). assert (Ho := fd_oend _ _ _ _ _ _ _ D).
  assert (Hw' : s_wsize st' = 0) by (by rewrite Est). assert (Em' : s_mode st' = m) by (by rewrite Est). clear Est.
  rewrite (strm_hist_out _ _ _ q Hw Hq) in Hr. rewrite (strm_hist_out strm' st' start q Hw' ltac:(lia)) in Hh. rewrite Hh, Em'. apply (block_rest_runs _ _ _ _ _ _ _ _ _ _ Hr) in Hb. assert (Hu := lz_runs_nonneg _ _ _ _ _ _ Hr).
  destruct Hm as [(-> & Es & En')|[(-> & u & Hu' & Es & En')|(_ & He)]]; rewrite ?Es.
  - left. split; [done|]. by replace (s_bits st' + 8 * z_avail_in strm') with (n - used) by lia.
  - right. split; [done|]. destruct (block_rest_step _ _ _ _ _ _ _ _ Hb) as [(k & E & Hk & Hrest)|(k & h1 & E & _)]; rewrite Hu' in E; [|done]. injection E as <-. rewrite div_pow2_add in Hrest by lia.
    by replace (s_bits st' + 8 * z_avail_in strm') with (n - used - u) by lia.
  - by apply block_rest_ok in Hb.
Qed.

Lemma read_LEN : read_ok case_LEN LEN.
Proof.
  opening. destruct Smode as (Ht & Hf). destruct Hrd as (ll & dl & Hc & Hblk). assert (Hc' := Hc). destruct Hc' as [Gl Gd]. unfold case_LEN. wp_steps. destruct ((6 <=? have) && (258 <=? left)) eqn:Ec.
  - apply andb_true_iff in Ec as [Ec1%Z.leb_le Ec2%Z.leb_le]. apply wp_bind, wp_restore. wp_steps. unfold id. assert (Hst : state_ok LEN st hold bits) by (by split).
    destruct (inflate_fast_spec _ _ _ _ _ (len_fast_pre _ _ _ _ _ _ _ _ _ _ _ Iin Iout Hst Gl Gd ltac:(done) ltac:(done))) as (strm' & st' & E & D).
    eapply wp_lift; [exact E|]. cbv beta iota. apply wp_bind, wp_assign, wp_bind, wp_load. wp_steps. clear E.
    assert (Hfr := fast_reads _ _ _ _ _ _ _ p0 (nz (s_last st)) (bits + 8 * have) D Ewin Estart Emode eq_refl Hblk).
    destruct D as [(msg & Es) (m & Est & _) _ _ _ _ _ _ Doend _ _ _]. csimp.
    assert (Eto : z_total_out strm' = z_total_out strm) by (by rewrite Es).
    assert (Hsame : s_codes st' = s_codes st /\ s_lencode st' = s_lencode st /\ s_lenbits st' = s_lenbits st /\ s_distcode st' = s_distcode st /\ s_distbits st' = s_distbits st /\
      s_last st' = s_last st /\ s_wsize st' = s_wsize st /\ (s_wrap st', s_flags st', s_check st', s_total st') = (s_wrap st, s_flags st, s_check st, s_total st)) by (rewrite Est; done).
    clear Es Est. destruct Hsame as (E1 & E2 & E3 & E4 & E5 & E6 & E7 & E8). injection E8 as E81 E82 E83 E84. unfold stream_of, nbits, out_hist in *. csimp.
    assert (Hcf : codes_for st' ll dl) by (by eapply (codes_for_upd st)).
    destruct Hfr as [[Em Hrest]|[Em Hrest]]; rewrite Em; case_bool_decide; try done; cbn [when_]; wp_steps.
    + split; [split; csimp_goal; (lia || congruence)|]. unfold reads. csimp_goal. rewrite Em, E6. by exists ll, dl.
    + split; [split; csimp_goal; (lia || congruence)|]. unfold reads. csimp_goal. rewrite Em, E6. done.
  - clear Ec. wp_steps. destruct (gt_lookup _ _ _ _ Gl (stream (in_buf strm) next have hold bits)) as (o0 & v0 & k & sy & _ & _ & Hs). unfold stream_of, nbits, out_hist in *. csimp.
    destruct (block_rest_symbol _ _ _ _ _ _ _ _ _ _ (gt_syms _ _ _ _ Gl) (gt_syms _ _ _ _ Gd) Hblk Hs) as [Hk Hsy]. destruct (symbol_at_facts LENS ll (gt_syms _ _ _ _ Gl) _ _ _ Hs) as [_ Hok].
    eapply (wp_decode_read _ _ LENS (upd s_back (fun _ => 0) st)); [exact Gl|done|done|by split|done|exact Hs|done|].
    intros nx hv hd bt here back Hi Hho Hb7 Hend Hbits Hhv Hstr Hcl. assert (H := classify_tests _ _ _ Hcl). unfold stream_of, nbits in *. csimp. wp_steps. rewrite <- Hstr, <- Hbits in Hsy.
    destruct sy as [b| |w x|]; cbn in Hok.
    + destruct H as (-> & ->). cbn [Z.eqb]. wp_steps. reading_tac. exists ll, dl. split; [by eapply (codes_for_upd st)|]. unfold u8. rewrite Z.mod_small by lia. done.
    + destruct H as (Ho & [= _ H32 H64 _ _]). apply Z.eqb_neq in Ho. rewrite Ho, H32. wp_steps. reading_tac. done.
    + destruct H as (Ho & -> & Hx & [= _ H32 H64 _ H15]). apply Z.eqb_neq in Ho. rewrite Ho, H32, H64. wp_steps. rewrite H15. destruct Hok as [(_ & Hv & Hx' & Hvx)|(? & _)]; [|done].
      apply (read_LENEXT K); csimp_goal; [|done|].
      * rebuild. cbn [mode_ok]; csimp_goal. split; [by eapply (tables_ok_upd st)|]. lia.
      * reading_tac. exists ll, dl. split; [by eapply (codes_for_upd st)|]. done.
    + done.
Qed.

Lemma read_LEN_ : read_ok case_LEN_ LEN_.
Proof.
  opening. destruct Hrd as (ll & dl & Hc & Hblk). unfold case_LEN_. wp_steps. apply (read_LEN K); csimp_goal; [rebuild|done|]. reading_tac. exists ll, dl. split; [by eapply (codes_for_upd st)|done].
Qed.
End symbols.
