(* ===== verification/InflateReadTree.v ===== *)
(** Reading the description of a dynamic block: the code length code, the code lengths, and the tables built from them. *)
From S2P Require Import Prelude Record Bits Huffman InfTrees Inffixed InfTreesProof InfDecode Fixed.
From S2P Require Import Lz DeflateFormat Crc32 Adler32 InflateState InflateMonad InfFast Inflate InflateWp.
From S2P Require Import InflateSym InfFastProof InflateInv InflateSafe1 InflateSafe2 InflateSafe3 InflateSafe4 InflateSafe5.
From S2P Require Import InflateRead InflateReadBlock InflateReadSym.

(** ** The format *)
Lemma lens_step_inv cl s acc acc1 k' :
  lens_step cl s acc = Some (acc1, k') ->
  exists sym k, huff_decode cl (s mod 2 ^ 15) = Some (sym, k) /\
    (sym < 16 /\ acc1 = acc ++ [sym] /\ k' = k \/
     exists len base x, (sym = 16 /\ list.last acc = Some len /\ base = 3 /\ x = 2 \/ sym = 17 /\ len = 0 /\ base = 3 /\ x = 3 \/ 17 < sym /\ len = 0 /\ base = 11 /\ x = 7) /\
       acc1 = acc ++ replicate (Z.to_nat (base + (s / 2 ^ k) mod 2 ^ x)) len /\ k' = k + x).
Proof.
  unfold lens_step. destruct (huff_decode cl (s mod 2 ^ 15)) as [[sym k]|]; [|done]. cbn [mbind option_bind]. intros H. exists sym, k. split; [done|].
  destruct (Z.ltb_spec sym 16); [left; by injection H as <- <-|right]. destruct (Z.eqb_spec sym 16).
  - destruct (list.last acc) as [len|]; [|done]. cbn [mbind option_bind] in H. injection H as <- <-. exists len, 3, 2. split; [by left|done].
  - destruct (Z.eqb_spec sym 17); injection H as <- <-; [exists 0, 3, 3; split; [right; by left|done]|exists 0, 11, 7]. split; [right; right; lia|done].
Qed.
Lemma lens_step_more cl s acc acc1 k : lens_step cl s acc = Some (acc1, k) -> exists d, acc1 = acc ++ d /\ (0 < length d)%nat.
Proof.
  intros (sym & k0 & _ & [(_ & -> & _)|(len & base & x & H & -> & _)])%lens_step_inv; eexists; (split; [done|]); [cbn; lia|]. rewrite length_replicate.
  assert (0 < 2 ^ x) by (destruct H as [(_ & _ & _ & ->)|[(_ & _ & _ & ->)|(_ & _ & _ & ->)]]; lia). pose proof (Z.mod_pos_bound (s / 2 ^ k0) (2 ^ x)). lia.
Qed.
Lemma lens_runs_more cl s acc u acc' : lens_runs cl s acc u acc' -> exists d, acc' = acc ++ d.
Proof.
  induction 1 as [s acc|s acc k acc1 u acc2 Hs _ _ [d ->]]; [exists []; by rewrite app_nil_r|]. apply lens_step_more in Hs as (d' & -> & _). rewrite <- app_assoc. by eexists.
Qed.
(** Either all lengths are there, or there is a next symbol. *)
Lemma lens_runs_step cl s acc u acc' :
  lens_runs cl s acc u acc' ->
  acc' = acc /\ u = 0 \/ (length acc < length acc')%nat /\ exists k acc1, lens_step cl s acc = Some (acc1, k) /\ 0 <= k /\ lens_runs cl (s / 2 ^ k) acc1 (u - k) acc'.
Proof.
  intros [s0 acc0|s0 acc0 k acc1 u0 acc2 Hs Hk Hr]; [by left|right]. assert (Hs' := Hs). apply lens_step_more in Hs' as (d & -> & Hd). assert (Hr' := Hr). apply lens_runs_more in Hr' as (d' & ->).
  rewrite !length_app. split; [lia|]. exists k, (acc0 ++ d). split; [done|]. split; [done|]. by replace (k + u0 - k) with u0 by lia.
Qed.

(** ** The code length code *)
Lemma codes_symbol cl s sym k : length cl = 19%nat -> huff_decode cl (s mod 2 ^ 15) = Some (sym, k) -> symbol_at CODES cl s = Some (Literal sym, k).
Proof.
  intros Hl E. unfold symbol_at. rewrite E. cbn [decoded mbind option_bind]. destruct (find_sym_inv _ _ _ _ (canon_lens_ok cl) (proj1 (rev15_range _)) E) as (i & Hi & _).
  apply canon_sym in Hi as (Hs & _). unfold make_entry. cbn [type_end]. destruct (Z.ltb_spec sym 19); [done|lia].
Qed.

(** The lengths set so far are those of [acc], which has 0 for the others. *)
Definition agrees (have : Z) (lens acc : list Z) : Prop :=
  length acc = 19%nat /\ forall j o, 0 <= j < 19 -> aget order j = Some o -> if j <? have then aget lens o = aget acc o else aget acc o = Some 0.

Lemma order_inj i j o : aget order i = Some o -> aget order j = Some o -> i = j.
Proof.
  unfold aget. destruct (Z.leb_spec 0 i), (Z.leb_spec 0 j); try done. intros Hi Hj. enough (Z.to_nat i = Z.to_nat j) by lia. eapply NoDup_lookup; [|exact Hi|exact Hj]. apply (bool_decide_unpack (NoDup order)). by vm_compute.
Qed.
Lemma agrees_set have lens acc o l :
  agrees have lens acc -> (19 <= length lens)%nat -> aget order have = Some o -> agrees (have + 1) (<[Z.to_nat o := l]> lens) (<[Z.to_nat o := l]> acc).
Proof.
  intros [Hl H] Hle Ho. split; [by rewrite length_insert|]. intros j o' Hj Ho'. assert (Hr := order_range _ _ Ho). assert (Hr' := order_range _ _ Ho'). rewrite !aget_insert by lia.
  specialize (H j o' Hj Ho'). destruct (Z.eqb_spec o' o) as [->|Hne].
  - rewrite (order_inj _ _ _ Ho' Ho). destruct (Z.ltb_spec have (have + 1)); [done|lia].
  - assert (j <> have) by congruence. destruct (Z.ltb_spec j have), (Z.ltb_spec j (have + 1)); (done || lia).
Qed.
Lemma agrees_zero have lens acc o :
  agrees have lens acc -> (19 <= length lens)%nat -> 0 <= have < 19 -> aget order have = Some o -> agrees (have + 1) (<[Z.to_nat o := 0]> lens) acc.
Proof.
  intros H Hle Hh Ho. assert (Hr := order_range _ _ Ho). assert (E := proj2 H have o Hh Ho). rewrite Z.ltb_irrefl in E.
  enough (<[Z.to_nat o := 0]> acc = acc) as Ea by (rewrite <- Ea; by apply agrees_set). apply list_insert_id. unfold aget in E. by destruct (Z.leb_spec 0 o); [|lia].
Qed.
Lemma agrees_all lens acc : agrees 19 lens acc -> (19 <= length lens)%nat -> take 19 lens = acc.
Proof.
  intros [Hl H] Hle. apply list_eq. intros i. destruct (Nat.lt_ge_cases i 19) as [Hi|Hi]; [|rewrite !lookup_ge_None_2; rewrite ?length_take; (done || lia)].
  assert (exists j, 0 <= j < 19 /\ aget order j = Some (Z.of_nat i)) as (j & Hj & Ho).
  { assert (Hc : forallb (fun i => existsb (fun j => bool_decide (aget order (Z.of_nat j) = Some (Z.of_nat i))) (seq 0 19)) (seq 0 19) = true) by done.
    rewrite forallb_forall in Hc. specialize (Hc i ltac:(apply in_seq; lia)). apply existsb_exists in Hc as (j & Hj%in_seq & Ho%bool_decide_eq_true). exists (Z.of_nat j). split; [lia|done]. }
  specialize (H j _ Hj Ho). destruct (Z.ltb_spec j 19); [|lia]. unfold aget in H. destruct (Z.leb_spec 0 (Z.of_nat i)); [|lia]. rewrite Nat2Z.id in H. by rewrite lookup_take_lt by lia.
Qed.

(** What the loops leave alone. *)
Definition kept (c : ctx) :=
  (c_strm c, (r_put (c_r c), r_left (c_r c), r_out (c_r c)),
   (s_wsize (c_st c), s_wrap (c_st c), s_flags (c_st c), s_check (c_st c), s_total (c_st c), s_last (c_st c), s_nlen (c_st c), s_ndist (c_st c))).

Section loops.
Context (L : ctx -> Prop) (R : Z -> ctx -> Prop) (K : consts) (mu : Z).
Abbreviation wp := (wp L R).

Lemma lenlens_read fuel c acc :
  lenlens_at K mu c -> let have := s_have (c_st c) in let n := s_ncode (c_st c) - have in
  0 <= n -> 19 - have < Z.of_nat fuel -> agrees have (s_lens (c_st c)) acc -> 3 * n <= nbits c ->
  wp (lenlens_loop fuel) (fun _ c' => lenlens_at K mu c' /\ kept c' = kept c /\ nbits c' = nbits c - 3 * n /\ stream_of c' = stream_of c / 2 ^ (3 * n) /\
    agrees (s_have (c_st c')) (s_lens (c_st c')) (read_cl (Z.to_nat n) (drop (Z.to_nat have) cl_order) (stream_of c) acc)) c.
Proof.
  revert c acc. induction fuel as [|fuel IH]; intros c acc Hc have n Hn Hf Ha Hb; subst have n; [destruct (la_have _ _ _ Hc); lia|]. cbn [lenlens_loop]. wp_steps.
  assert (Hh := la_have _ _ _ Hc). assert (Hnc := la_ncode _ _ _ Hc). assert (Hinv := lenlens_inv _ _ _ Hc ltac:(lia)).
  destruct (Z.ltb_spec (s_have (c_st c)) (s_ncode (c_st c))) as [Hlt|Hge].
  2:{ apply wp_ret. replace (s_ncode (c_st c) - s_have (c_st c)) with 0 by lia. rewrite Z.mul_0_r, Z.div_1_r, Z.sub_0_r. done. }
  destruct c as [strm st [put left next hv0 hold bits in_ out ret]]. unfold nbits, stream_of in *. csimp.
  assert (Hle' : length (s_lens st) = 320%nat) by (destruct Hinv as [_ _ _ _ _ _ _ _ _ [_ _ _ _ Hle' _ _ _ _]]; exact Hle').
  assert (Hb7 := la_bits _ _ _ Hc). destruct (order_in (s_have st) ltac:(lia)) as (o & Ho & Hor). csimp.
  apply wp_bind, wp_needbits; csimp_goal; [split; csimp_goal; apply Hinv|lia|left; lia| |].
  2:{ intros nx hd bt [_ _ _ Sb _ _] Hn3 _. csimp. lia. }
  intros nx hv hd bt [Si Sh Se Sb Sm Ss] Hn3 Hmx _. unfold stream_of in Ss. csimp. wp_steps. eapply wp_lift; [exact Ho|]. wp_steps.
  apply wp_bits; csimp_goal; [lia|]. wp_steps. eapply wp_lift; [apply aset_in; lia|]. wp_steps. apply wp_dropbits; csimp_goal; [done|lia|lia|]. rewrite u32_small by lia.
  assert (Hm := Z.mod_pos_bound hd (2 ^ 3) ltac:(lia)). assert (Ehd : hd mod 2 ^ 3 = stream (in_buf strm) next hv0 hold bits mod 2 ^ 3) by (rewrite <- Ss; symmetry; apply stream_mod; lia).
  assert (Es : stream (in_buf strm) nx hv (hd / 2 ^ 3) (bt - 3) = stream (in_buf strm) next hv0 hold bits / 2 ^ 3) by (rewrite stream_drop, Ss by lia; done).
  eapply wp_mono.
  { apply (IH _ (<[Z.to_nat o := hd mod 2 ^ 3]> acc)); csimp_goal; try lia.
    - eapply (lenlens_next K mu strm st put left next hv0 hold bits); try (done || lia). apply hold_drop; (done || lia).
    - apply agrees_set; (done || lia). }
  csimp_goal. intros [] c' (H1 & H2 & H3 & H4 & H5). unfold nbits, stream_of in *. csimp. rewrite Es in H4, H5. split; [done|]. split; [exact H2|]. split; [lia|]. split.
  - rewrite H4, div_pow2_add by lia. f_equal. f_equal. lia.
  - replace (Z.to_nat (s_ncode st - s_have st)) with (S (Z.to_nat (s_ncode st - (s_have st + 1)))) by lia.
    assert (Hd : drop (Z.to_nat (s_have st)) cl_order = o :: drop (Z.to_nat (s_have st + 1)) cl_order).
    { replace (Z.to_nat (s_have st + 1)) with (S (Z.to_nat (s_have st))) by lia. apply drop_S. unfold aget in Ho. by destruct (Z.leb_spec 0 (s_have st)); [|lia]. }
    rewrite Hd. cbn [read_cl]. rewrite <- Ehd. exact H5.
Qed.

Lemma zero_lens_read fuel c acc :
  lenlens_at K mu c -> 19 - s_have (c_st c) < Z.of_nat fuel -> agrees (s_have (c_st c)) (s_lens (c_st c)) acc ->
  wp (zero_lens_loop fuel) (fun _ c' => (lenlens_at K mu c' /\ s_have (c_st c') = 19) /\ kept c' = kept c /\ nbits c' = nbits c /\ stream_of c' = stream_of c /\
    take 19 (s_lens (c_st c')) = acc) c.
Proof.
  revert c. induction fuel as [|fuel IH]; intros c Hc Hf Ha; [destruct (la_have _ _ _ Hc); lia|]. cbn [zero_lens_loop]. wp_steps. assert (Hb := la_base _ _ _ Hc).
  assert (Hle : length (s_lens (c_st c)) = 320%nat) by (destruct Hb as [_ _ _ _ _ _ _ _ _ [_ _ _ _ Hle _ _ _ _]]; exact Hle).
  assert (Hh := la_have _ _ _ Hc). destruct (Z.ltb_spec (s_have (c_st c)) 19) as [Hlt|Hge].
  2:{ apply wp_ret. assert (E : s_have (c_st c) = 19) by lia. rewrite E in Ha. repeat (split; [done|]). apply agrees_all; (done || lia). }
  destruct c as [strm st [put left next have hold bits in_ out ret]]. csimp. destruct Hb as [Hi _ _ _ _ _ _ _ _ [Hho _ _ _ _ _ _ _ _]]. csimp.
  destruct (order_in (s_have st) ltac:(lia)) as (o & Ho & Hor). wp_steps. eapply wp_lift; [exact Ho|]. wp_steps.
  eapply wp_lift; [apply aset_in; lia|]. wp_steps. rewrite u32_small by lia. assert (Hb7 := la_bits _ _ _ Hc). csimp.
  eapply wp_mono; [apply IH; csimp_goal; [eapply (lenlens_next K mu strm st put left next have hold bits); try (done || lia)|lia|apply agrees_zero; (done || lia)]|]. done.
Qed.

(** ** The code lengths *)
Lemma lens_set_of_take n lens : Forall (fun l => 0 <= l <= 15) (take (Z.to_nat n) lens) -> n <= Z.of_nat (length lens) -> lens_set n lens.
Proof.
  intros H Hn i Hi. destruct (aget_in lens i ltac:(lia)) as [l El]. exists l. split; [done|]. unfold aget in El. destruct (Z.leb_spec 0 i); [|lia].
  refine (Forall_lookup_1 _ _ (Z.to_nat i) l H _). by rewrite lookup_take_lt by lia.
Qed.

Lemma take_set (have : Z) (lens : list Z) x :
  0 <= have < Z.of_nat (length lens) -> take (Z.to_nat (have + 1)) (<[Z.to_nat have := x]> lens) = take (Z.to_nat have) lens ++ [x].
Proof.
  intros Hh. replace (Z.to_nat (have + 1)) with (S (Z.to_nat have)) by lia. rewrite (take_S_r _ _ x) by (apply list_lookup_insert_eq; lia). by rewrite take_insert_ge by lia.
Qed.

Lemma wp_repeat_read n len (Q : () -> ctx -> Prop) strm st r :
  0 <= len <= 15 -> 0 <= s_have st -> s_have st + Z.of_nat n <= 320 -> length (s_lens st) = 320%nat ->
  (forall lens, length lens = 320%nat -> take (Z.to_nat (s_have st + Z.of_nat n)) lens = take (Z.to_nat (s_have st)) (s_lens st) ++ replicate n len ->
     Q tt (Ctx strm (upd s_have (fun _ => s_have st + Z.of_nat n) (upd s_lens (fun _ => lens) st)) r)) ->
  wp (repeat_len n len) Q (Ctx strm st r).
Proof.
  intros Hl. revert st. induction n as [|n IH]; intros st Hh Hn Hle HQ; cbn [repeat_len].
  - apply wp_ret. specialize (HQ (s_lens st) Hle). rewrite Z.add_0_r, app_nil_r in HQ. specialize (HQ eq_refl). by destruct st.
  - wp_steps. rewrite (u16_small len) by lia. eapply wp_lift; [apply aset_in; lia|]. wp_steps. rewrite u32_small by lia.
    apply IH; csimp_goal; rewrite ?length_insert; try lia. intros lens Hlen Hset. rewrite take_set in Hset by lia.
    replace (s_have st + 1 + Z.of_nat n) with (s_have st + Z.of_nat (S n)) in * by lia. apply (HQ lens Hlen). rewrite Hset, <- app_assoc. done.
Qed.

Context (cl ll dl : list Z) (Hcl : length cl = 19%nat) (Hrange : Forall (fun l => 0 <= l <= 15) (ll ++ dl)).
(** Where the lengths end. *)
Context (s_end n_end : Z) (c0 : ctx).

Record codelens_pos (c : ctx) : Prop := {
  cp_at : codelens_at K mu c;
  cp_kept : kept c = kept c0;
  cp_good : good_table CODES (code_at (c_st c) (InCodes 0)) (s_lenbits (c_st c)) cl;
  cp_total : s_nlen (c_st c) + s_ndist (c_st c) = Z.of_nat (length (ll ++ dl));
  cp_runs : exists u, lens_runs cl (stream_of c) (take (Z.to_nat (s_have (c_st c))) (s_lens (c_st c))) u (ll ++ dl) /\
    stream_of c / 2 ^ u = s_end /\ nbits c - u = n_end /\ 0 <= n_end }.

(** More lengths: [acc1] is what is read after them. *)
Lemma codelens_more strm st put left next have hold bits in_ out ret next' have' hold' bits' lens k n u acc1 :
  codelens_pos (Ctx strm st (Regs put left next have hold bits in_ out ret)) ->
  in_ok (in_buf strm) next' have' -> next' + have' = next + have -> have' <= have -> hold_ok hold' bits' -> bits' <= 7 ->
  0 <= k -> bits' + 8 * have' = bits + 8 * have - k -> stream (in_buf strm) next' have' hold' bits' = stream (in_buf strm) next have hold bits / 2 ^ k ->
  1 <= n -> s_have st + n <= s_nlen st + s_ndist st -> length lens = 320%nat -> take (Z.to_nat (s_have st + n)) lens = acc1 ->
  lens_runs cl (stream (in_buf strm) next have hold bits / 2 ^ k) acc1 (u - k) (ll ++ dl) ->
  stream (in_buf strm) next have hold bits / 2 ^ u = s_end -> bits + 8 * have - u = n_end -> 0 <= n_end ->
  let c' := Ctx strm (upd s_have (fun _ => s_have st + n) (upd s_lens (fun _ => lens) st)) (Regs put left next' have' hold' bits' in_ out ret) in
  codelens_pos c' /\ s_have st < s_have (c_st c').
Proof.
  intros [Hat Hk Hg Ht _] Hi He Hv Ho Hb7 Hk0 Hbits Hs Hn Hn' Hlen Htake Hr Hse Hne Hn0. assert (Hu := lens_runs_nonneg _ _ _ _ _ Hr). destruct (lens_runs_more _ _ _ _ _ Hr) as [d Hd].
  assert (Hset : lens_set (s_have st + n) lens).
  { assert (Hh := ca_have _ _ _ Hat). csimp. apply lens_set_of_take; [|rewrite Hlen; destruct (ca_dims _ _ _ Hat); csimp; lia]. rewrite Htake. rewrite Hd in Hrange. by apply Forall_app in Hrange as [? _]. }
  destruct (codelens_next K mu _ strm st put left next have hold bits in_ out ret hold' bits' next' have' lens n eq_refl Hat Hi He Hv Ho Hb7 ltac:(lia) Hn Hn' Hlen Hset) as [Hat' Hless].
  split; [|done]. split; try done. exists (u - k). unfold stream_of, nbits. csimp_goal. rewrite Htake, Hs. split; [done|]. rewrite div_pow2_add by lia. replace (k + (u - k)) with u by lia. split; [done|]. lia.
Qed.

Lemma codelens_read_step c :
  codelens_pos c -> s_have (c_st c) < s_nlen (c_st c) + s_ndist (c_st c) ->
  wp codelens_step (fun b c' => b = true /\ codelens_pos c' /\ s_have (c_st c) < s_have (c_st c')) c.
Proof.
  intros Hc Hlt. assert (Hc' := Hc). destruct Hc' as [Hat Hk Hg Ht (u & Hr & Hse & Hne & Hn0)]. assert (Hinv := codelens_inv _ _ _ Hat Hlt). assert (Hat' := Hat).
  destruct c as [strm st [put left next have hold bits in_ out ret]]. destruct Hat' as [Hb Hm [Hd1 Hd2] Hh Hl Hp _ Hf Hdn _ Hrt]. unfold stream_of, nbits in *. csimp.
  set (s := stream (in_buf strm) next have hold bits) in *.
  assert (Hle : length (s_lens st) = 320%nat) by (destruct Hb as [_ _ _ _ _ _ _ _ _ [_ _ _ _ Hle _ _ _ _]]; exact Hle).
  assert (Hio : input_ok (Ctx strm st (Regs put left next have hold bits in_ out ret))) by (split; csimp_goal; apply Hinv).
  assert (Hla : length (take (Z.to_nat (s_have st)) (s_lens st)) = Z.to_nat (s_have st)) by (rewrite length_take; lia).
  destruct (lens_runs_step _ _ _ _ _ Hr) as [[E _]|(_ & k' & acc1 & Hst & Hk' & Hr')]; [rewrite E, Hla in Ht; lia|].
  assert (Hu' := lens_runs_nonneg _ _ _ _ _ Hr'). assert (Hfit : (length acc1 <= length (ll ++ dl))%nat) by (destruct (lens_runs_more _ _ _ _ _ Hr') as [d ->]; rewrite length_app; lia).
  assert (Hroot : 1 <= s_lenbits st <= 7) by (pose proof (gt_root _ _ _ _ Hg); pose proof (gt_codes _ _ _ _ Hg eq_refl); lia).
  destruct (lens_step_inv _ _ _ _ _ Hst) as (sym & k & Hdec & Hcase). assert (Hsy := codes_symbol _ _ _ _ Hcl Hdec). destruct (symbol_at_facts CODES cl (gt_syms _ _ _ _ Hg) _ _ _ Hsy) as [Hk15 Hsok].
  assert (Hkk : k <= k' <= bits + 8 * have).
  { destruct Hcase as [(_ & _ & ->)|(len & base & x & Hx & _ & ->)]; [lia|]. destruct Hx as [(_ & _ & _ & ->)|[(_ & _ & _ & ->)|(_ & _ & _ & ->)]]; lia. }
  unfold codelens_step. wp_steps. rewrite Hp. eapply (wp_get_code _ _ CODES st (InCodes 0) _ cl Hg (fun _ _ => True)); try (done || lia).
  { intros o b _. destruct (codes_entry st _ _ Hg o) as (here & E & Elk). exists here. rewrite Z.add_0_l, Z.div_1_r. split; [done|].
    intros Hbt. eexists _, _, _. split; [exact Elk|lia]. }
  2:{ intros nx hd bt [_ _ _ Sb _ Ss] (o & v & k2 & E & Hlt'). exfalso. csimp. destruct (lookup_facts _ _ _ _ Hg _ _ _ _ E) as (_ & sy' & _ & _ & Hs'). unfold stream_of in Ss. csimp. fold s in Ss.
      assert (Ehd : stream (in_buf strm) nx 0 hd bt = hd) by (unfold stream, bytes_at; rewrite take_0; cbn [le]; lia). rewrite <- Ss, Ehd, Hs' in Hsy. injection Hsy as -> ->. lia. }
  intros nx hv hd bt here Hs Hj _ Hrd Hbt _. csimp_goal. rewrite Z.add_0_l, Z.div_1_r in Hrd. assert (Hs' := Hs). destruct Hs' as [Si Sh Se Sb Sm Ss]. unfold stream_of in Ss. csimp. fold s in Ss.
  destruct (codes_entry st _ _ Hg hd) as (here' & E' & Elk). rewrite Hrd in E'. injection E' as <-.
  destruct (lookup_facts _ _ _ _ Hg _ _ _ _ Elk) as (Hk1 & _). destruct (lookup_symbol _ _ _ _ Hg hd s _ _ _ Elk) as (sy' & Hcla & _ & Hsy').
  { rewrite <- Ss. symmetry. apply stream_mod. lia. }
  rewrite Hsy in Hsy'. injection Hsy' as <- Ek. destruct (classify_tests _ _ _ Hcla) as [Eo Ev]. rewrite <- Ev, <- Ek in *.
  assert (Hfed : bt - 8 < k + rep_bits sym).
  { destruct Hj as [Hj|Hj].
    - csimp. subst bt. destruct Hio as [_ [Hb0 Hh0]]. csimp. assert (Hlow := same_input_low _ _ _ _ _ Hs ltac:(csimp_goal; lia) ltac:(done)). csimp.
      destruct Hs as [_ [_ ?] _ _ _ _]. rewrite !Z.mod_small in Hlow by lia. subst hd. apply (Hf (op here)). rewrite Hp, Elk. done.
    - apply Hj in Elk. unfold rep_bits. destruct (sym <? 16), (sym =? 16), (sym =? 17); lia. }
  clear Hj. destruct Hsok as [Hsr _]. unfold rep_bits in Hfed. destruct Hcase as [(Hlt16 & -> & ->)|(len & base & x & Hx & -> & ->)].
  - destruct (Z.ltb_spec sym 16); [|lia]. apply wp_bind, wp_dropbits; csimp_goal; [done|lia|lia|]. wp_steps. eapply wp_lift; [apply aset_in; lia|]. wp_steps. rewrite u32_small by lia. split; [done|].
    eapply (codelens_more strm st put left next have hold bits in_ out ret _ _ _ _ _ k 1 u); try (done || lia).
    + apply hold_drop; (done || lia).
    + rewrite stream_drop, Ss by lia. done.
    + by rewrite length_insert.
    + by rewrite take_set by lia.
  - assert (Hx27 : 2 <= x <= 7 /\ 3 <= base <= 11 /\ rep_bits sym = x).
    { unfold rep_bits. destruct Hx as [(-> & _ & -> & ->)|[(-> & _ & -> & ->)|(? & _ & -> & ->)]]; [done|done|]. destruct (Z.ltb_spec sym 16), (Z.eqb_spec sym 16), (Z.eqb_spec sym 17); lia. }
    destruct Hx27 as (Hx27 & Hbase & Erep). fold (rep_bits sym) in Hfed. rewrite Erep in Hfed.
    set (copy := base + (s / 2 ^ k) mod 2 ^ x) in *. assert (0 < 2 ^ x <= 2 ^ 7) by (split; [apply pow2_pos|apply Z.pow_le_mono_r]; lia).
    assert (Hcopy : 1 <= copy <= 138) by (pose proof (Z.mod_pos_bound (s / 2 ^ k) (2 ^ x)); lia). rewrite length_app, length_replicate, Hla in Hfit.
    assert (Hlen : 0 <= len <= 15).
    { destruct (lens_runs_more _ _ _ _ _ Hr') as [d Hd]. rewrite Hd in Hrange. apply Forall_app in Hrange as [[_ Hrep]%Forall_app _]. replace (Z.to_nat copy) with (S (Z.to_nat copy - 1)) in Hrep by lia.
      cbn [replicate] in Hrep. by inversion Hrep. }
    assert (Hneed : forall m, (forall nx hv hd bt, in_ok (in_buf strm) nx hv -> hold_ok hd bt -> nx + hv = next + have -> hv <= have -> x <= bt <= x + 7 -> bt + 8 * hv = bits + 8 * have - k ->
        stream (in_buf strm) nx hv hd bt = s / 2 ^ k ->
        wp m (fun b c' => b = true /\ codelens_pos c' /\ s_have st < s_have (c_st c')) (Ctx strm st (Regs put left nx hv hd bt in_ out ret))) ->
      wp (NEEDBITS (k + x);; DROPBITS k;; m) (fun b c' => b = true /\ codelens_pos c' /\ s_have st < s_have (c_st c')) (Ctx strm st (Regs put left nx hv hd bt in_ out ret))).
    { intros m Hm'. apply wp_bind, wp_needbits; csimp_goal; [by split|lia|left; lia| |].
      - intros nx2 hv2 hd2 bt2 [Si2 Sh2 Se2 Sb2 Sm2 Ss2] Hn2 Hmx2 _. unfold stream_of in Ss2. csimp. rewrite Ss in Ss2. apply wp_bind, wp_dropbits; csimp_goal; [done|lia|lia|].
        apply Hm'; try (done || lia); [apply hold_drop; (done || lia)|by rewrite stream_drop, Ss2 by lia].
      - intros nx2 hd2 bt2 [_ _ _ Sb2 _ _] Hn2 _. csimp. lia. }
    assert (Hrep : forall nx hv hd bt, in_ok (in_buf strm) nx hv -> hold_ok hd bt -> nx + hv = next + have -> hv <= have -> x <= bt <= x + 7 -> bt + 8 * hv = bits + 8 * have - k ->
        stream (in_buf strm) nx hv hd bt = s / 2 ^ k ->
        wp (b ← BITS x; DROPBITS x;; have ← sget s_have; nlen ← sget s_nlen; ndist ← sget s_ndist;
            if u32 (nlen + ndist) <? u32 (have + (base + b)) then bad "invalid bit length repeat";; mret false else repeat_len (Z.to_nat (base + b)) len;; mret true)
          (fun b c' => b = true /\ codelens_pos c' /\ s_have st < s_have (c_st c')) (Ctx strm st (Regs put left nx hv hd bt in_ out ret))).
    { intros nx2 hv2 hd2 bt2 Hi2 Ho2 He2 Hv2 Hbt2 Hb2 Hs2. apply wp_bind, wp_bits; csimp_goal; [lia|]. apply wp_bind, wp_dropbits; csimp_goal; [done|lia|lia|].
      rewrite <- (stream_mod (in_buf strm) nx2 hv2 hd2 bt2 x), Hs2 by lia. fold copy. wp_steps. rewrite !u32_small by lia. destruct (Z.ltb_spec (s_nlen st + s_ndist st) (s_have st + copy)); [lia|].
      apply wp_bind, wp_repeat_read; csimp_goal; try (done || lia). intros lens Hle2 Htk. apply wp_ret. split; [done|]. rewrite Z2Nat.id in * by lia.
      eapply (codelens_more strm st put left next have hold bits in_ out ret _ _ _ _ _ (k + x) copy u); try (done || lia).
      - apply hold_drop; (done || lia).
      - rewrite stream_drop, Hs2, div_pow2_add by lia. done. }
    destruct (Z.ltb_spec sym 16); [unfold rep_bits in Erep; destruct (Z.ltb_spec sym 16); lia|].
    destruct Hx as [(-> & Hlast & -> & ->)|[(-> & -> & -> & ->)|(Hs17 & -> & -> & ->)]]; cbv zeta.
    + cbn [Z.eqb Pos.eqb]. apply Hneed. intros nx2 hv2 hd2 bt2 Hi2 Ho2 He2 Hv2 Hbt2 Hb2 Hs2. wp_steps.
      assert (Elast : s_have st <> 0 /\ aget (s_lens st) (s_have st - 1) = Some len).
      { rewrite last_lookup, Hla in Hlast. apply lookup_take_Some in Hlast as [E Hpos]. split; [lia|]. unfold aget. destruct (Z.leb_spec 0 (s_have st - 1)); [|lia]. rewrite <- E. f_equal. lia. }
      destruct Elast as [Hne0 El]. destruct (Z.eqb_spec (s_have st) 0); [done|]. wp_steps. eapply wp_lift; [exact El|]. by apply Hrep.
    + cbn [Z.eqb Pos.eqb]. apply Hneed. intros nx2 hv2 hd2 bt2 Hi2 Ho2 He2 Hv2 Hbt2 Hb2 Hs2. by apply Hrep.
    + destruct (Z.eqb_spec sym 16), (Z.eqb_spec sym 17); [lia..|]. apply Hneed. intros nx2 hv2 hd2 bt2 Hi2 Ho2 He2 Hv2 Hbt2 Hb2 Hs2. by apply Hrep.
Qed.

Lemma codelens_read fuel c :
  codelens_pos c -> 316 - s_have (c_st c) < Z.of_nat fuel ->
  wp (codelens_loop fuel) (fun _ c' => (codelens_pos c' /\ s_have (c_st c') = s_nlen (c_st c') + s_ndist (c_st c')) /\
    take (Z.to_nat (s_nlen (c_st c') + s_ndist (c_st c'))) (s_lens (c_st c')) = ll ++ dl /\ stream_of c' = s_end /\ nbits c' = n_end) c.
Proof.
  revert c. induction fuel as [|fuel IH]; intros c Hc Hf; (assert (Hat := cp_at _ Hc); assert (Hh := ca_have _ _ _ Hat); destruct (ca_dims _ _ _ Hat) as [Hd1 Hd2]); [lia|]. cbn [codelens_loop]. wp_steps.
  rewrite u32_small by lia. destruct (Z.ltb_spec (s_have (c_st c)) (s_nlen (c_st c) + s_ndist (c_st c))) as [Hlt|Hge].
  - apply wp_bind. eapply wp_mono; [by apply codelens_read_step|]. intros b c' (-> & Hc' & Hless). apply IH; [done|lia].
  - apply wp_ret. assert (E : s_have (c_st c) = s_nlen (c_st c) + s_ndist (c_st c)) by lia. split; [done|]. destruct Hc as [_ _ _ Ht (u & Hr & Hse & Hne & _)].
    assert (Hle : length (s_lens (c_st c)) = 320%nat) by (destruct Hat as [[_ _ _ _ _ _ _ _ _ [_ _ _ _ Hle _ _ _ _]] _ _ _ _ _ _ _ _ _ _]; exact Hle).
    rewrite E in Hr. destruct (lens_runs_step _ _ _ _ _ Hr) as [[-> ->]|(Hlt & _)]; [|rewrite length_take in Hlt; lia]. rewrite Z.div_1_r in Hse. split; [done|]. split; [done|lia].
Qed.
End loops.

Section trees.
Context (data : list Z) (tail : Z -> Z -> Prop) (p0 wrap flags check rest : Z).
Abbreviation read_ok := (read_ok data tail p0 wrap flags check rest).
Abbreviation wp_read := (wp (finished data p0 wrap rest) (fun _ _ => False)).

Lemma held_kept c c' : kept c' = kept c -> held data p0 wrap flags check c -> held data p0 wrap flags check c'.
Proof. intros [= E1 E2 E3 E4 E5 E6 E7 E8 E9 E10 E11 E12] [H1 H2 H3 H4]. split; rewrite ?E1, ?E2, ?E3, ?E4, ?E5, ?E6, ?E7, ?E8, ?E9; done. Qed.
Lemma hist_kept c c' : kept c' = kept c -> out_hist p0 c' = out_hist p0 c.
Proof. intros [= E1 E2 E3 E4 E5 E6 E7 E8 E9 E10 E11 E12]. unfold out_hist. by rewrite E1, E2. Qed.

Lemma table_built type ls tbl table bits work r :
  table_spec type ls tbl table bits work r -> code_ok type ls = true -> meant type bits (Z.of_nat (length ls)) -> tr_ret r = 0.
Proof. intros T Hok Hm. destruct (ts_ret _ _ _ _ _ _ _ T) as [[? _]|[[_ ?]|(_ & _ & _ & ?)]]; [done|congruence|done]. Qed.

Lemma read_build_codes flush K c cl ll dl :
  flush <> Z_TREES -> inv_base K c -> dims_ok (c_st c) -> take (Z.to_nat (s_nlen (c_st c) + s_ndist (c_st c))) (s_lens (c_st c)) = ll ++ dl ->
  Z.of_nat (length ll) = s_nlen (c_st c) -> Z.of_nat (length dl) = s_ndist (c_st c) -> codes_valid cl ll dl -> r_bits (c_r c) <= 7 ->
  held data p0 wrap flags check c -> block_rest data tail ll dl (nz (s_last (c_st c))) (stream_of c) (nbits c) (out_hist p0 c) ->
  wp_read (build_codes flush) (fun _ => reading data tail p0 wrap flags check) c.
Proof.
  destruct c as [strm st [put left next have hold bits in_ out ret]]. intros Hfl Hb [Hnl Hnd] Hls Hll Hdl [Vcl Vll Vdl (l & El & Hl0) Vr] Hb7 Hheld Hblk. csimp.
  assert (Hb' := Hb). destruct Hb' as [Iin _ _ _ _ _ _ _ _ [Shold _ _ _ Slens Swork Scodes _ _]]. csimp. apply Forall_app in Vr as [Hr1 Hr2].
  set (post := drop (Z.to_nat (s_nlen st + s_ndist st)) (s_lens st)). assert (E1 : s_lens st = ll ++ dl ++ post) by (unfold post; rewrite app_assoc, <- Hls, take_drop; done).
  assert (E2 : drop (Z.to_nat (s_nlen st)) (s_lens st) = dl ++ post) by (rewrite E1, <- Hll, Nat2Z.id; apply drop_app_length).
  unfold build_codes. wp_steps. eapply wp_lift; [unfold aget in *; rewrite E1; cbn [Z.leb Z.compare] in *; rewrite lookup_app_l by (apply lookup_lt_Some in El; exact El); exact El|].
  destruct (Z.eqb_spec l 0); [done|]. wp_steps. eapply wp_build_table; [exact E1|..]; csimp_goal; try (done || lia).
  { cbn [type_syms]. lia. }
  { unfold ENOUGH, room, ENOUGH_LENS, ENOUGH_DISTS in *. lia. }
  intros r1 T1. assert (Er1 : tr_ret r1 = 0) by (apply (table_built _ _ _ _ _ _ _ T1 Vll); split; [done|lia]). rewrite Er1. cbn [nz Z.eqb negb]. destruct (ts_table _ _ _ _ _ _ _ T1 Er1) as (Hnx & Hbt1 & _ & _). cbn [room] in Hnx. wp_steps.
  eapply wp_build_table; [exact E2|..]; csimp_goal; try (done || lia).
  { cbn [type_syms]. lia. }
  { rewrite (ts_len _ _ _ _ _ _ _ T1). unfold ENOUGH, ENOUGH_LENS, room, ENOUGH_DISTS in *. lia. }
  { rewrite (ts_work _ _ _ _ _ _ _ T1). lia. }
  intros r2 T2. assert (Er2 : tr_ret r2 = 0) by (apply (table_built _ _ _ _ _ _ _ T2 Vdl); split; [done|lia]). rewrite Er2. cbn [nz Z.eqb negb]. wp_steps. destruct (Z.eqb_spec flush Z_TREES); [done|].
  match goal with |- wp _ _ _ _ ?x => set (c' := x) end.
  assert (Hi : codes_for (c_st c') ll dl).
  { split.
    - eapply (inflate_table_good LENS ll _ 0 9 _ r1); try done; [cbn [type_syms]; lia|]. intros j Hj. apply (ts_frame _ _ _ _ _ _ _ T2). lia.
    - eapply (inflate_table_good DISTS dl _ _ 6 _ r2); try done. cbn [type_syms]. lia. }
  assert (Hinv : inv K c').
  { apply (inv_base_mode K LEN_ (Ctx strm _ (Regs put left next have hold bits in_ out _))); try done.
    - eapply inv_base_upd; [exact Hb|..]; csimp_goal; try (done || lia).
      + by rewrite (ts_work _ _ _ _ _ _ _ T2), (ts_work _ _ _ _ _ _ _ T1).
      + by rewrite (ts_len _ _ _ _ _ _ _ T2), (ts_len _ _ _ _ _ _ _ T1).
    - assert (Ht : tables_ok (c_st c')) by (exists ll, dl; destruct Hi; done). split; [exact Ht|]. by apply (tables_fed_few _ hold bits Ht). }
  apply (read_LEN_ _ _ _ _ _ _ _ K); [done|done|]. split; [exact (held_kept (Ctx strm st (Regs put left next have hold bits in_ out ret)) c' eq_refl Hheld)|]. by exists ll, dl.
Qed.

Lemma read_LENLENS flush K c ncode last ll dl u :
  flush <> Z_TREES -> inv K c -> s_mode (c_st c) = LENLENS -> s_have (c_st c) = 0 -> s_ncode (c_st c) = ncode -> nz (s_last (c_st c)) = last -> held data p0 wrap flags check c ->
  let cl := read_cl (Z.to_nat ncode) cl_order (stream_of c) (replicate 19 0) in
  lens_runs cl (stream_of c / 2 ^ (3 * ncode)) [] u (ll ++ dl) -> Z.of_nat (length ll) = s_nlen (c_st c) -> Z.of_nat (length dl) = s_ndist (c_st c) -> codes_valid cl ll dl ->
  3 * ncode + u <= nbits c -> block_rest data tail ll dl last (stream_of c / 2 ^ (3 * ncode + u)) (nbits c - (3 * ncode + u)) (out_hist p0 c) ->
  wp_read (case_LENLENS flush) (fun _ => reading data tail p0 wrap flags check) c.
Proof.
  intros Hfl Hi Em Eh En El Hheld cl Hr Hll Hdl Hv Hn Hblk. assert (Hs := i_st _ _ Hi). rewrite Em in Hs. destruct (so_mode _ _ _ _ Hs) as (Hb & Hd & Hnc & Hh & Hl). clear Hs.
  assert (Hat : lenlens_at K (measure c) c).
  { split; try (done || lia); [apply inv_base_intro; [done|by rewrite Em..]|]. assert (Hrt := i_ret _ _ Hi). by rewrite Em in Hrt. }
  assert (Hu := lens_runs_nonneg _ _ _ _ _ Hr).
  unfold case_LENLENS. apply wp_bind. eapply wp_mono.
  { apply (lenlens_read _ _ K (measure c) 20 c (replicate 19 0)); [done|lia|lia| |lia]. rewrite Eh. split; [done|]. intros j o Hj Ho. destruct (Z.ltb_spec j 0); [lia|].
    assert (Hor := order_range _ _ Ho). unfold aget. destruct (Z.leb_spec 0 o); [|lia]. apply lookup_replicate_2. lia. }
  intros [] c1 (Hat1 & Hk1 & Hn1 & Hs1 & Ha1). rewrite Eh, En, Z.sub_0_r in *. fold cl in Ha1. apply wp_bind. eapply wp_mono; [apply (zero_lens_read _ _ K (measure c) 20 c1 cl); [done|destruct (la_have _ _ _ Hat1); lia|done]|].
  intros [] c2 ((Hat2 & H19) & Hk2 & Hn2 & Hs2 & Ht2). rewrite Hk1 in Hk2. rewrite Hn1 in Hn2. rewrite Hs1 in Hs2. clear c1 Hat1 Hk1 Hn1 Hs1 Ha1 Hat.
  destruct Hat2 as [Hb2 Hm2 Hd2 _ _ Hl2 Hb7 Hmu Hrt]. destruct c2 as [strm st [put left next have hold bits in_ out ret]]. unfold measure in Hmu. csimp. rewrite H19 in Hl2.
  assert (Hs := Hb2). destruct Hs as [Hin _ _ _ _ _ _ _ _ [Hho _ _ _ Hlen Hwork Hcodes _ _]]. csimp.
  assert (H7 := lens_set7_take _ Hl2 ltac:(lia)). rewrite Ht2 in H7. assert (Hcl : length cl = 19%nat) by (rewrite <- Ht2, length_take; lia). wp_steps.
  eapply (wp_build_table _ _ CODES cl (drop 19 (s_lens st))); csimp_goal; try (done || lia).
  { by rewrite <- Ht2, take_drop. }
  { revert H7. apply Forall_impl. lia. }
  { cbn [type_syms]. lia. }
  { intros _. revert H7. apply Forall_impl. lia. }
  { rewrite Hcodes. unfold room, ENOUGH, ENOUGH_LENS, ENOUGH_DISTS. lia. }
  intros r T. assert (Er := table_built _ _ _ _ _ _ _ T (cv_cl _ _ _ Hv) I). rewrite Er. cbn [nz Z.eqb negb]. wp_steps.
  match goal with |- wp _ _ _ _ ?x => set (c3 := x) end.
  assert (Hk3 : kept c3 = kept c) by exact Hk2. assert (Hg : good_table CODES (code_at (c_st c3) (InCodes 0)) (s_lenbits (c_st c3)) cl).
  { eapply (inflate_table_good CODES cl _ 0 7); try done; [cbn [type_syms]; lia|]. revert H7. apply Forall_impl. lia. }
  injection Hk3 as _ _ _ _ _ _ _ _ _ Klast Knlen Kndist.
  assert (Hp : codelens_pos K (measure c3) cl ll dl (stream_of c / 2 ^ (3 * ncode + u)) (nbits c - (3 * ncode + u)) c c3).
  { split.
    - split; try done.
      + eapply inv_base_upd; [exact Hb2|..]; csimp_goal; try (done || lia); apply T.
      + destruct Hd2. unfold c3. csimp_goal. lia.
      + intros i Hi0. unfold c3 in Hi0. csimp. lia.
      + by exists cl.
      + eapply fed_codes_few; [done|exact Hg|done].
    - exact Hk2.
    - done.
    - unfold c3. csimp_goal. rewrite Knlen, Kndist, length_app. lia.
    - exists u. change (stream_of c3) with (stream_of (Ctx strm st (Regs put left next have hold bits in_ out ret))). change (nbits c3) with (nbits (Ctx strm st (Regs put left next have hold bits in_ out ret))).
      rewrite Hs2, Hn2. change (take _ _) with (@nil Z). split; [done|]. rewrite div_pow2_add by lia. split; [done|]. lia. }
  unfold case_CODELENS. apply wp_bind. eapply wp_mono; [eapply (codelens_read _ _ K (measure c3)); [exact Hcl|exact (cv_range _ _ _ Hv)|exact Hp|]|].
  { change (s_have (c_st c3)) with 0. lia. }
  intros [] c4 ((Hp4 & Hfull) & Ht4 & Hs4 & Hn4). destruct Hp4 as [Hat4 Hk4 _ _ _]. wp_steps. rewrite (ca_mode _ _ _ Hat4). change (bool_decide (CODELENS = BAD)) with false. cbv iota.
  assert (Hk4' := Hk4). injection Hk4' as _ _ _ _ _ _ _ _ _ Jlast Jnlen Jndist. destruct Hat4 as [Hb4 _ Hd4 _ _ _ _ _ Hdn4 _ _].
  apply (read_build_codes flush K c4 cl ll dl); try done; [congruence..|by apply Hdn4|by eapply held_kept|]. rewrite Jlast, Hs4, Hn4, (hist_kept _ _ Hk4), El. done.
Qed.

Lemma read_TABLE flush : flush <> Z_TREES -> read_ok (case_TABLE flush) TABLE.
Proof.
  intros Hfl. opening. destruct Hrd as (ll & dl & u & Htr & Hu & Hblk). assert (Hmin := trees_read_min _ _ _ _ Htr). destruct Htr as (v & Hr & (Hll & H286) & (Hdl & H30) & -> & Hv). unfold stream_of, nbits, out_hist in *. csimp.
  unfold case_TABLE. apply wp_bind. feed; [|lia]. set (s := stream (in_buf strm) next have hold bits) in *.
  assert (B0 : hd mod 2 ^ 5 = s mod 2 ^ 5) by (rewrite <- Sstream; symmetry; apply stream_mod; lia).
  assert (B1 : (hd / 2 ^ 5) mod 2 ^ 5 = (s / 2 ^ 5) mod 2 ^ 5) by (rewrite <- Sstream; symmetry; apply front_bits; lia).
  assert (B2 : (hd / 2 ^ 5 / 2 ^ 5) mod 2 ^ 4 = (s / 2 ^ 10) mod 2 ^ 4) by (rewrite div_pow2_add by lia; rewrite <- Sstream; symmetry; apply front_bits; lia).
  assert (B3 : stream (in_buf strm) nx hv (hd / 2 ^ 5 / 2 ^ 5 / 2 ^ 4) (bt - 5 - 5 - 4) = s / 2 ^ 14) by (rewrite !stream_drop, Sstream, !div_pow2_add by lia; done).
  assert (Hh1 := hold_drop _ _ 5 Shold' ltac:(lia)). assert (Hh2 := hold_drop _ _ 5 Hh1 ltac:(lia)). assert (Hh3 := hold_drop _ _ 4 Hh2 ltac:(lia)).
  apply wp_bind, wp_bits; csimp_goal; [lia|]. wp_steps. apply wp_dropbits; csimp_goal; [done|lia|lia|].
  apply wp_bind, wp_bits; csimp_goal; [lia|]. wp_steps. apply wp_dropbits; csimp_goal; [done|lia|lia|].
  apply wp_bind, wp_bits; csimp_goal; [lia|]. wp_steps. apply wp_dropbits; csimp_goal; [done|lia|lia|]. wp_steps. rewrite B0, B1, B2.
  assert (M1 := Z.mod_pos_bound s (2 ^ 5) ltac:(lia)). assert (M2 := Z.mod_pos_bound (s / 2 ^ 5) (2 ^ 5) ltac:(lia)). assert (M3 := Z.mod_pos_bound (s / 2 ^ 10) (2 ^ 4) ltac:(lia)).
  set (nlen := s mod 2 ^ 5 + 257) in *. set (ndist := (s / 2 ^ 5) mod 2 ^ 5 + 1) in *. set (ncode := (s / 2 ^ 10) mod 2 ^ 4 + 4) in *.
  destruct (Z.ltb_spec 286 nlen), (Z.ltb_spec 30 ndist); try lia. cbn [orb]. wp_steps.
  assert (Hu' := lens_runs_nonneg _ _ _ _ _ Hr).
  match goal with |- wp _ _ _ _ ?x => set (c' := x) end. assert (Es' : stream_of c' = s / 2 ^ 14) by exact B3. assert (En' : nbits c' = bits + 8 * have - 14) by (unfold nbits, c'; csimp_goal; lia).
  apply (read_LENLENS flush K c' ncode (nz (s_last st)) ll dl v); rewrite ?Es', ?En', ?div_pow2_add by lia; try done.
  - unfold c'. rebuild. cbn [mode_ok]; csimp_goal. split; [lia|]. split; [split; csimp_goal; lia|]. split; [lia|]. split; [lia|]. intros i o Hi. lia.
  - lia.
  - replace (14 + (3 * ncode + v)) with (14 + 3 * ncode + v) by lia. by replace (bits + 8 * have - 14 - (3 * ncode + v)) with (bits + 8 * have - (14 + 3 * ncode + v)) by lia.
Qed.
End trees.
