(* ===== verification/InflateReadAll.v ===== *)
(** What a call of [inflate()] does with a whole stream of the zlib format, or of the deflate format alone. *)
From S2P Require Import Prelude Record Bits Huffman InfTrees Inffixed InfTreesProof InfDecode Fixed.
From S2P Require Import Lz DeflateFormat Crc32 Adler32 InflateState InflateMonad InfFast Inflate InflateWp.
From S2P Require Import InflateSym InfFastProof InflateInv InflateSafe1 InflateSafe2 InflateSafe3 InflateSafe4 InflateSafe5.
From S2P Require Import Window InflateApi InflateReach InflateRead InflateReadBlock InflateReadSym InflateReadTree.

(** ** The formats *)

(** The two bytes of a zlib header without a dictionary, for a window of at most [2 ^ wbits] bytes; nothing for a raw stream. *)
Definition header_for (wrap wbits : Z) (hdr : list Z) : Prop :=
  if wrap =? 0 then hdr = [] else
  exists cmf flg, hdr = [cmf; flg] /\ byte_ok cmf /\ byte_ok flg /\ (cmf * 256 + flg) mod 31 = 0 /\ cmf mod 16 = 8 /\ cmf / 16 + 8 <= wbits /\ (flg / 32) mod 2 = 0.

(** The checksum of the data after a zlib stream. *)
Definition trailer_for (wrap : Z) (data : list Z) : list Z := if wrap =? 0 then [] else be32 (adler_spec 1 data).

(** The bytes [out] are a stream for [data]: its blocks are read as [data] whatever follows them. *)
Definition stream_for (wrap wbits : Z) (data out : list Z) : Prop :=
  exists hdr body, out = hdr ++ body ++ trailer_for wrap data /\ header_for wrap wbits hdr /\
    forall rest, stream_read (le body + 2 ^ (8 * Z.of_nat (length body)) * rest) (8 * Z.of_nat (length body)) data.

(** The trailer at the end of the bits: [rest] bits follow it. *)
Definition trailer_read (wrap : Z) (data : list Z) (rest s n : Z) : Prop :=
  if wrap =? 0 then n = rest else n = 32 + rest /\ s mod 2 ^ 32 = le (be32 (adler_spec 1 data)).

Lemma le_be32 v : 0 <= v < 2 ^ 32 -> le (be32 v) = ZSWAP32 v.
Proof.
  intros Hv. rewrite ZSWAP32_wordx by done. rewrite wordx_sum by apply B_ok. rewrite !B_div by lia. unfold be32. cbn [le]. change (2 ^ (8 * 3)) with (2 ^ 24). change (2 ^ (8 * 2)) with (2 ^ 16). change (2 ^ (8 * 1)) with (2 ^ 8).
  change (2 ^ (8 * 0)) with 1. rewrite Z.div_1_r, (Z.mod_small (v / 2 ^ 24)) by dlia. lia.
Qed.
Lemma swap_be32 v : 0 <= v < 2 ^ 32 -> ZSWAP32 (le (be32 v)) = v.
Proof. intros Hv. rewrite le_be32 by done. by apply ZSWAP32_invol. Qed.

(** From the format of a stream to the positions of the decoder. *)
Lemma blocks_rest data tail at_ s n hist u hist' last :
  blocks_read at_ s hist u hist' -> (at_ + n) mod 8 = 0 -> u <= n ->
  rest_read data tail false (s / 2 ^ u) (n - u) hist' -> last = false -> rest_read data tail last s n hist.
Proof.
  intros H. revert n last. induction H as [at_ s hist|at_ s hist u hist1 v hist2 Hb Hu Hr IH]; intros n last Hm Hn H ->; [by rewrite Z.div_1_r, Z.sub_0_r in H|].
  assert (Hv := blocks_read_nonneg _ _ _ _ _ Hr). apply (rest_block _ _ s n hist false u hist1).
  - apply (block_read_mod at_); [dlia|done].
  - lia.
  - apply IH; [dlia|lia| |done]. rewrite div_pow2_add by lia. by replace (n - u - v) with (n - (u + v)) by lia.
Qed.

Lemma stream_rest data tail s n used :
  stream_read s used data -> n mod 8 = 0 -> used <= n -> tail (s / 2 ^ used) (n - used) -> rest_read data tail false s n [].
Proof.
  intros (u & hist & v & Hbs & Hb & ->) Hn Hu Ht. assert (H1 := blocks_read_nonneg _ _ _ _ _ Hbs). assert (H2 := block_read_min _ _ _ _ _ _ Hb). assert (Hp := Z.mod_pos_bound (- (u + v)) 8 ltac:(lia)).
  apply (blocks_rest data tail 0 s n [] u hist false Hbs); [done|lia| |done].
  apply (rest_block _ _ (s / 2 ^ u) (n - u) hist true v data).
  - apply (block_read_mod u); [dlia|done].
  - lia.
  - apply rest_end. replace ((n - u - v) mod 8) with ((- (u + v)) mod 8) by dlia. rewrite !div_pow2_add by lia.
    replace (u + (v + (- (u + v)) mod 8)) with (u + v + (- (u + v)) mod 8) by lia. by replace (n - u - v - (- (u + v)) mod 8) with (n - (u + v + (- (u + v)) mod 8)) by lia.
Qed.

(** ** The trailer *)
Section all.
Context (data : list Z) (p0 wrap flags check rest : Z).
Context (Hconf : wrap = 0 \/ wrap = 1 /\ flags = 0 /\ check = 1) (Hrest : 0 <= rest).
Abbreviation tail := (trailer_read wrap data rest).
Abbreviation read_ok := (read_ok data tail p0 wrap flags check rest).
Abbreviation reading := (reading data tail p0 wrap flags check).
Abbreviation finished := (finished data p0 wrap rest).

Lemma read_DONE strm st put left next have hold bits in_ out ret mode :
  finished (Ctx strm (upd s_mode (fun _ => DONE) st) (Regs put left next have hold bits in_ out Z_STREAM_END)) -> nz (s_wrap st) && nz (s_flags st) = false ->
  wp finished (fun _ _ => False) (sput s_mode mode;; case_LENGTH) (fun _ => reading) (Ctx strm st (Regs put left next have hold bits in_ out ret)).
Proof. intros H Hw. wp_steps. unfold case_LENGTH. wp_steps. rewrite Hw. wp_steps. unfold case_DONE. wp_steps. done. Qed.

Lemma read_CHECK : read_ok case_CHECK CHECK.
Proof.
  opening. destruct Hrd as [Eh Ht]. unfold stream_of, nbits, out_hist in *. csimp. rewrite Eh in Hlen. injection Econf as Ew Ef Ec Et Eto. unfold case_CHECK. wp_steps. unfold trailer_read in Ht.
  destruct Hconf as [Hw|(Hw & Hf & Hc)]; rewrite Hw in Ht; cbn [Z.eqb] in Ht; assert (Es1 : s_wrap st = _) by exact (eq_trans Ew Hw); rewrite Es1.
  - cbn [nz Z.eqb negb]. apply read_DONE; [|by rewrite Es1]. split; unfold nbits; csimp_goal; try done; [lia|by left].
  - cbn [nz Z.eqb negb]. destruct Ht as [Hnr Hs]. destruct Iout as (ob & Eob & Hout1 & Hout2 & Hout3 & Hout4 & Hob). apply wp_bind. destruct Smode as [Hb8 Hb32]. feed; [|lia]. assert (bt = 32) as -> by (destruct Shold' as [? _]; lia).
    assert (Ehd : hd = le (be32 (adler_spec 1 data))) by (rewrite <- Hs, <- Sstream; symmetry; by apply hold_all). wp_steps. rewrite (u32_small (out - left)) by lia.
    assert (Hob' : out_buf strm = ob) by (unfold out_buf; by rewrite Eob).
    assert (Hbuf : bytes_at ob (put - (out - left)) (out - left) = data) by (rewrite <- Eh, Hob', Estart; f_equal; lia). assert (Hdata : Forall byte_ok data) by (rewrite <- Hbuf; by apply bytes_at_bytes).
    assert (Hcont : forall z s ck, (in_buf z, z_out z) = (in_buf strm, z_out strm) -> z_total_out z = out - left -> (s_wrap s, s_flags s, s_wsize s) = (1, 0, 0) -> ck = adler_spec 1 data ->
      wp finished (fun _ _ => False) (if negb (ZSWAP32 hd =? ck) then bad "incorrect data check" else INITBITS;; sput s_mode LENGTH;; case_LENGTH) (fun _ => reading) (Ctx z s (Regs put left nx hv hd 32 in_ left ret))).
    { intros z s ck [= Ei Eo] Ez [= S1 S2 S3] ->. rewrite Ehd, swap_be32 by (apply adler_ok_range, adler_spec_ok, adler_ok_1). rewrite Z.eqb_refl. cbn [negb]. apply wp_bind, wp_initbits. csimp_goal. apply read_DONE; csimp_goal; [|by rewrite S1, S2].
      split; unfold nbits, out_hist, out_buf in *; csimp_goal; rewrite ?Eo; try done; [lia|by right|split; [lia|done]]. }
    assert (Ef0 : s_flags st = 0) by congruence. assert (Ec1 : s_check st = 1) by congruence. rewrite Ef0. apply wp_when.
    + intros Hz. wp_steps. eapply wp_lift; [apply slice_in; unfold out_buf; csimp_goal; rewrite ?Eob; cbn [default]; unfold id; lia|]. wp_steps. rewrite Ec1. cbn [nz Z.eqb negb]. rewrite Eto, Z.add_0_l, !(u32_small (out - left)) by lia.
      unfold UPDATE. cbn [nz Z.eqb negb]. change (out_buf _) with (out_buf strm). rewrite Hob', Hbuf, adler32_eq_spec by (exact adler_ok_1 || exact Hdata). apply Hcont; csimp_goal; rewrite ?Es1, ?Ef0, ?Ewin; done.
    + intros Hz%nz_false. wp_steps. rewrite Ec1. cbn [nz Z.eqb negb]. assert (data = []) as E0 by (destruct data; [done|cbn in *; lia]).
      apply Hcont; csimp_goal; [done|by rewrite Eto, Z.add_0_l, u32_small by lia|by rewrite Es1, Ef0, Ewin|by rewrite E0].
Qed.

(** ** The state machine *)
Lemma read_switch flush m : flush <> Z_TREES -> flush <> Z_BLOCK -> read_ok (switch_mode flush m) m.
Proof.
  intros H1 H2. destruct m; cbn [switch_mode]; try (by intros K c _ E [_ Hr]; rewrite E in Hr).
  - intros K c. unfold case_TYPE. destruct (Z.eqb_spec flush Z_BLOCK); [done|]. destruct (Z.eqb_spec flush Z_TREES); [done|]. cbn [orb]. apply (read_TYPEDO _ _ _ _ _ _ _ flush TYPE); [by left|done].
  - apply read_TYPEDO; [by right|done].
  - by apply read_STORED.
  - unfold case_COPY_. opening. wp_steps. apply (read_COPY _ _ _ _ _ _ _ K); csimp_goal; [rebuild|done|]. reading_tac. exact Hrd.
  - apply read_COPY.
  - by apply read_TABLE.
  - apply read_LEN_.
  - apply read_LEN.
  - apply read_LENEXT.
  - apply read_DIST.
  - apply read_DISTEXT.
  - apply read_MATCH.
  - apply read_LIT.
  - apply read_CHECK.
Qed.

Lemma wp_both {A} (L1 L2 : ctx -> Prop) (R1 R2 : Z -> ctx -> Prop) (m : M A) (Q1 Q2 : A -> ctx -> Prop) c :
  wp L1 R1 m Q1 c -> wp L2 R2 m Q2 c -> wp (fun c => L1 c /\ L2 c) (fun r c => R1 r c /\ R2 r c) m (fun a c => Q1 a c /\ Q2 a c) c.
Proof. unfold wp. by destruct (m c). Qed.

Lemma read_loop flush K fuel c :
  flush <> Z_TREES -> flush <> Z_BLOCK -> inv K c -> reading c -> measure c < Z.of_nat fuel ->
  wp (fun c => left_ok K c /\ finished c) (fun _ _ => False) (inflate_loop flush fuel) (fun _ _ => False) c.
Proof.
  intros H1 H2. revert c. induction fuel as [|fuel IH]; intros c Hi Hr Hf; [pose proof (measure_nonneg _ _ Hi); lia|]. cbn [inflate_loop]. wp_steps.
  assert (Hn := i_run _ _ Hi). assert (s_mode (c_st c) <> MEM /\ s_mode (c_st c) <> SYNC) as [H3 H4] by (by destruct (s_mode (c_st c))).
  assert (W := wp_both _ _ _ _ _ _ _ _ (switch_mode_ok flush _ H3 H4 K (measure c) c Hi eq_refl ltac:(lia)) (read_switch flush _ H1 H2 K c Hi eq_refl Hr)).
  unfold wp in *. destruct (switch_mode flush (s_mode (c_st c)) c) as [a c'|c'|r c'|]; try done; [|by destruct W]. destruct W as [[Hi' Hm] Hr']. apply IH; [done|done|lia].
Qed.

(** ** The header *)
Lemma read_HEAD K c hdr :
  inv K c -> s_mode (c_st c) = HEAD -> r_bits (c_r c) = 0 -> r_put (c_r c) = p0 -> s_last (c_st c) = 0 -> header_for wrap (s_wbits (c_st c)) hdr ->
  (wrap = 0 -> flags = s_flags (c_st c) /\ check = s_check (c_st c)) ->
  (s_wsize (c_st c), s_wrap (c_st c), s_total (c_st c), z_total_out (c_strm c)) = (0, wrap, 0, 0) -> Z.of_nat (length data) <= r_out (c_r c) ->
  let h := 8 * Z.of_nat (length hdr) in
  h <= nbits c -> stream_of c mod 2 ^ h = le hdr -> rest_read data tail false (stream_of c / 2 ^ h) (nbits c - h) [] ->
  wp finished (fun _ _ => False) case_HEAD (fun _ => reading) c.
Proof.
  destruct c as [strm st [put left next have hold bits in_ out ret]]. intros Hinv Emode Eb Ep El Hh Hfc [= Ewin Ew Et Eto] Hroom h Hn Hs Hr. unfold stream_of, nbits in *. csimp. subst bits put.
  assert (Hinv' := Hinv). destruct Hinv' as [Iin Iout _ _ _ _ _ Irun _ Ist]. csimp. rewrite Emode in Irun, Ist. cbn [runs] in Irun. assert (Shold := so_hold _ _ _ _ Ist). subst left.
  assert (Hnil : forall z, z_out z = z_out strm -> bytes_at (out_buf z) p0 (p0 - p0) = []) by (intros z _; by rewrite Z.sub_diag).
  unfold case_HEAD. wp_steps. unfold header_for in Hh. destruct Hconf as [Hw|(Hw & Hf & Hc)]; rewrite Hw in Hh; cbn [Z.eqb Pos.eqb] in Hh; assert (Es1 := eq_trans Ew Hw); rewrite Es1.
  - subst hdr. destruct (Hfc Hw) as [-> ->]. cbn [Z.eqb]. wp_steps. cbn [length] in h. subst h. change (2 ^ (8 * Z.of_nat 0)) with 1 in Hr. rewrite Z.div_1_r, Z.mul_0_r, Z.sub_0_r in Hr.
    split; [split; csimp_goal; (done || lia || congruence)|]. unfold reads, out_hist, nbits. csimp_goal. rewrite El, Hnil by done. exact Hr.
  - destruct Hh as (cmf & flg & -> & Hcmf & Hflg & H31 & H8 & Hwb & Hfd). unfold byte_ok in Hcmf, Hflg. cbn [length] in h. change (8 * Z.of_nat 2) with 16 in h. subst h. cbn [Z.eqb Pos.eqb]. apply wp_bind. apply wp_needbits; csimp_goal; [by split|lia|left; lia| |].
    2:{ intros nx hd bt [_ _ _ Sb _ _] Hlt _. csimp. lia. }
    intros nx hv hd bt [Si Sh Se Sb Sm Ss] Hbt Hmx Hm8. unfold stream_of in Ss. csimp. assert (bt = 16) as -> by dlia.
    assert (Ehd : hd = cmf + 256 * flg) by (rewrite <- (hold_all (in_buf strm) nx hv hd 16 Sh), Ss, Hs; cbn [le]; lia). wp_steps. change (nz (1 .& 2)) with false. cbn [andb]. wp_steps.
    unfold set_head. wp_steps. assert (Hd1 : 0 <= cmf / 16 < 16) by dlia.
    assert (Hcont : forall head, wp finished (fun _ _ => False)
      (b8 ← BITS 8;
       if negb (nz (1 .& 1)) || nz (u32 (u32 (b8 ≪ 8) + (hd ≫ 8)) mod 31) then bad "incorrect header check" else
       b4 ← BITS 4;
       if negb (b4 =? Z_DEFLATED) then bad "unknown compression method" else
       DROPBITS 4;;
       b4 ← BITS 4;
       let len := b4 + 8 in
       wbits ← sget s_wbits;
       when_ (wbits =? 0) (sput s_wbits len);;
       if negb (wbits =? 0) && (wbits <? len) then bad "invalid window size" else
       sput s_dmax (1 ≪ len);;
       let check := adler32 0 None in
       sput s_check check;; zput z_adler check;;
       hold ← rget r_hold;
       sput s_mode (if nz (hold .& 0x200) then DICTID else TYPE);;
       INITBITS;;
       break_) (fun _ => reading) (Ctx strm (st <| s_flags := 0 |> <| s_head := head |>) (Regs p0 out nx hv hd 16 in_ out ret))).
    { intros head. apply wp_bind, wp_bits; csimp_goal; [lia|]. assert (E8 : hd mod 2 ^ 8 = cmf) by (change (2 ^ 8) with 256; dlia). rewrite E8, Z.shiftl_mul_pow2, Z.shiftr_div_pow2 by lia.
      replace (hd / 2 ^ 8) with flg by (change (2 ^ 8) with 256; dlia). rewrite (u32_small (cmf * 2 ^ 8)) by lia. change (2 ^ 8) with 256. rewrite u32_small, H31 by lia. change (negb (nz (1 .& 1)) || nz 0) with false. cbv iota.
      apply wp_bind, wp_bits; csimp_goal; [lia|]. replace (hd mod 2 ^ 4) with 8 by (change (2 ^ 4) with 16; dlia). change (negb (8 =? Z_DEFLATED)) with false. cbv iota.
      apply wp_bind, wp_dropbits; csimp_goal; [done|lia|lia|]. apply wp_bind, wp_bits; csimp_goal; [lia|]. replace ((hd / 2 ^ 4) mod 2 ^ 4) with (cmf / 16) by (change (2 ^ 4) with 16; dlia). wp_steps.
      destruct (Z.eqb_spec (s_wbits st) 0); [lia|]. cbn [when_ negb andb]. wp_steps. destruct (Z.ltb_spec (s_wbits st) (cmf / 16 + 8)); [lia|]. wp_steps.
      assert (Hbit : nz (hd / 2 ^ 4 .& 0x200) = false).
      { change 0x200 with (2 ^ 9). unfold nz. apply negb_false_iff, Z.eqb_eq. apply Z.bits_inj_0. intros i. rewrite Z.land_spec, Z.pow2_bits_eqb by lia. destruct (Z.eqb_spec 9 i) as [<-|]; [|apply andb_false_r]. rewrite andb_true_r.
        apply Z.testbit_false; [lia|]. rewrite div_pow2_add by lia. change (2 ^ (4 + 9)) with 8192. rewrite <- Hfd. dlia. }
      rewrite Hbit. apply wp_initbits. csimp_goal. wp_steps. split; [split; csimp_goal; try (done || lia); rewrite Et, Eto, Ew, Hf, Hc; done|]. unfold reads, out_hist, nbits, stream_of. csimp_goal. rewrite El, Hnil by done.
      change (in_buf _) with (in_buf strm). rewrite (stream_init _ _ _ _ _ Sh), Ss. by replace (0 + 8 * hv) with (0 + 8 * have - 16) by lia. }
    destruct (s_head st) as [hh|] eqn:Ehead; wp_steps; [apply (Hcont (Some _))|]. specialize (Hcont (s_head st)). by destruct st.
Qed.

Lemma read_all K c hdr fuel :
  inv K c -> s_mode (c_st c) = HEAD -> r_bits (c_r c) = 0 -> r_put (c_r c) = p0 -> s_last (c_st c) = 0 -> header_for wrap (s_wbits (c_st c)) hdr ->
  (wrap = 0 -> flags = s_flags (c_st c) /\ check = s_check (c_st c)) ->
  (s_wsize (c_st c), s_wrap (c_st c), s_total (c_st c), z_total_out (c_strm c)) = (0, wrap, 0, 0) -> Z.of_nat (length data) <= r_out (c_r c) ->
  8 * Z.of_nat (length hdr) <= nbits c -> stream_of c mod 2 ^ (8 * Z.of_nat (length hdr)) = le hdr ->
  rest_read data tail false (stream_of c / 2 ^ (8 * Z.of_nat (length hdr))) (nbits c - 8 * Z.of_nat (length hdr)) [] -> measure c < Z.of_nat fuel ->
  wp (fun c => left_ok K c /\ finished c) (fun _ _ => False) (inflate_loop Z_FINISH fuel) (fun _ _ => False) c.
Proof.
  intros Hi Em H1 H2 H3 H4 H5 H6 H7 H8 H9 H10 Hf. destruct fuel as [|fuel]; [pose proof (measure_nonneg _ _ Hi); lia|]. cbn [inflate_loop]. wp_steps. rewrite Em. cbn [switch_mode].
  assert (W := wp_both _ _ _ _ _ _ _ _ (case_HEAD_ok K (measure c) c Hi Em ltac:(lia)) (read_HEAD K c hdr Hi Em H1 H2 H3 H4 H5 H6 H7 H8 H9 H10)).
  unfold wp in W |- *. destruct (case_HEAD c) as [a c'|c'|r c'|]; try done; [|by destruct W]. destruct W as [[Hi' Hm] Hr']. apply (read_loop Z_FINISH K fuel c'); (done || lia).
Qed.

(** ** After the loop *)
Lemma leave_finished zalloc c :
  finished c -> Z.of_nat (length data) < 2 ^ 32 -> 0 <= r_out (c_r c) - r_left (c_r c) ->
  exists strm' st', leave zalloc Z_FINISH c = Some (strm', st', Z_STREAM_END) /\
    (z_out strm', z_next_out strm', z_avail_in strm', z_total_out strm') = (z_out (c_strm c), r_put (c_r c), r_have (c_r c), Z.of_nat (length data)).
Proof.
  destruct c as [strm st [put left next have hold bits in_ out ret]]. intros [Em Er _ [Et Et0] Ew Eo _] H32 Hol. csimp. unfold leave. csimp_goal. rewrite Em, Ew. change (mode_num DONE <? mode_num CHECK) with false. change (negb (Z_FINISH =? Z_FINISH)) with false.
  cbn [orb]. rewrite andb_false_r. cbn [nz Z.eqb negb orb mbind option_bind]. csimp_goal.
  assert (Hno : nz (s_wrap st) && nz (u32 (out - left)) = false) by (destruct Eo as [->| ->]; [done|by rewrite Z.sub_diag, andb_false_r]). rewrite Hno. cbn [mbind option_bind]. csimp_goal.
  rewrite Er. change (Z_STREAM_END =? Z_OK) with false. rewrite andb_false_r. eexists _, _. split; [reflexivity|]. csimp_goal. rewrite (u32_small (out - left)) by lia. by rewrite u32_small, Et by lia.
Qed.
End all.

(** ** The call *)

(** A stream that [inflateInit2_()] or [inflateReset()] left, for data without a gzip wrapper. *)
Record new_inflate (strm : z_stream) (wrap wbits : Z) : Prop := {
  ni_state : exists st, z_state strm = Some st /\ state_fine st /\
    (s_mode st, s_last st, s_bits st, s_wsize st, s_total st, s_wrap st, s_wbits st) = (HEAD, 0, 0, 0, 0, wrap, wbits);
  ni_wrap : wrap = 0 \/ wrap = 1;
  ni_total : z_total_out strm = 0 }.

Lemma le_cut x y : Forall byte_ok x -> le (x ++ y) / 2 ^ (8 * Z.of_nat (length x)) = le y /\ le (x ++ y) mod 2 ^ (8 * Z.of_nat (length x)) = le x.
Proof.
  intros Hx. assert (Hr := le_range x Hx). assert (0 < 2 ^ (8 * Z.of_nat (length x))) by (apply pow2_pos; lia). rewrite le_app, Z.mul_comm. split.
  - rewrite Z.div_add, Z.div_small by lia. lia.
  - rewrite Z.mod_add, Z.mod_small by lia. done.
Qed.

(** The bits of the input: a header, and then the blocks and the trailer. *)
Lemma stream_starts wrap data hdr body after :
  wrap = 0 \/ wrap = 1 -> Forall byte_ok hdr -> Forall byte_ok body ->
  (forall rest, stream_read (le body + 2 ^ (8 * Z.of_nat (length body)) * rest) (8 * Z.of_nat (length body)) data) ->
  let s := le (hdr ++ body ++ trailer_for wrap data ++ after) in let h := 8 * Z.of_nat (length hdr) in
  let n := 8 * Z.of_nat (length (hdr ++ body ++ trailer_for wrap data ++ after)) in
  h <= n /\ s mod 2 ^ h = le hdr /\ rest_read data (trailer_read wrap data (8 * Z.of_nat (length after))) false (s / 2 ^ h) (n - h) [].
Proof.
  intros Hw Hh Hb Hr s h n. destruct (le_cut hdr (body ++ trailer_for wrap data ++ after) Hh) as [Ed Em]. fold s h in Ed, Em. split; [unfold n, h; rewrite length_app; lia|]. split; [done|]. rewrite Ed.
  assert (En : n - h = 8 * Z.of_nat (length body) + 8 * Z.of_nat (length (trailer_for wrap data ++ after))) by (unfold n, h; rewrite !length_app; lia).
  apply (stream_rest data _ _ _ (8 * Z.of_nat (length body))); [rewrite le_app; apply Hr|rewrite En; dlia|lia|]. rewrite (proj1 (le_cut body (trailer_for wrap data ++ after) Hb)), En.
  unfold trailer_read, trailer_for. destruct Hw as [->| ->]; cbn [Z.eqb]; [cbn [app]; lia|]. rewrite length_app. change (length (be32 _)) with 4%nat. split; [lia|].
  apply (le_cut (be32 (adler_spec 1 data)) after), be32_bytes, adler_ok_range, adler_spec_ok, adler_ok_1.
Qed.

Lemma inflate_reads zalloc strm wrap wbits data out after :
  (forall n k l, zalloc n k = Some l -> Z.of_nat (length l) = k /\ Forall byte_ok l) ->
  new_inflate strm wrap wbits -> buffers_ok strm -> z_in strm <> None -> z_out strm <> None ->
  bytes_at (in_buf strm) (z_next_in strm) (z_avail_in strm) = out ++ after -> stream_for wrap wbits data out -> Z.of_nat (length data) <= z_avail_out strm ->
  exists strm', inflate zalloc strm Z_FINISH = Some (strm', Z_STREAM_END) /\ stream_ok strm' /\ buffers_ok strm' /\ moved strm strm' /\ is_Some (z_state strm') /\
    bytes_at (out_buf strm') (z_next_out strm) (Z.of_nat (length data)) = data /\ z_next_out strm' = z_next_out strm + Z.of_nat (length data) /\
    z_total_out strm' = Z.of_nat (length data) /\ (wrap = 1 -> z_avail_in strm' = Z.of_nat (length after)).
Proof.
  intros Hz [(st & Est & Hst & [= Em El Eb Ews Etot Ewr Ewb]) Hw Hto] Hbuf Hin Hout Hbytes (hdr & body & Eo & Hh & Hread) Hroom.
  destruct (inflate_ok zalloc Hz strm Z_FINISH ltac:(unfold stream_ok; rewrite Est; by left) Hbuf) as (strm' & ret & E & Hs' & Hb' & Hcase).
  assert (E' := E). unfold inflate in E'. rewrite Est in E'. destruct (z_out strm) as [ob|] eqn:Eob; [|done]. destruct (z_in strm) as [ib|] eqn:Eib; [|done]. cbv iota in E'.
  destruct (enter_inv strm st ob Hst Eob Hbuf) as [Hinv Hfuel]; [congruence..|]. set (K := Consts _ _ _ _ _ _) in *.
  assert (Hib := proj1 Hbuf). assert (Hby := bytes_at_bytes (in_buf strm) (z_next_in strm) (z_avail_in strm) ltac:(apply Hib)). rewrite Hbytes, Eo, !Forall_app in Hby. destruct Hby as [(Hhb & Hbb & _) _].
  assert (Hlen := length_bytes_at (in_buf strm) (z_next_in strm) (z_avail_in strm) ltac:(apply Hib) ltac:(apply Hib) ltac:(apply Hib)). rewrite Hbytes, Eo in Hlen. assert (Ha0 : 0 <= z_avail_in strm) by apply Hib.
  assert (Hhold : s_hold st = 0) by (destruct (so_hold _ _ _ _ Hst) as [_ H]; rewrite Eb in H; change (2 ^ 0) with 1 in H; lia).
  assert (Ec : inflate_enter strm st = Ctx strm st (Regs (z_next_out strm) (z_avail_out strm) (z_next_in strm) (z_avail_in strm) 0 0 (z_avail_in strm) (z_avail_out strm) Z_OK)).
  { unfold inflate_enter. rewrite Em. change (bool_decide (HEAD = TYPE)) with false. cbv iota. by rewrite Eb, Hhold. }
  rewrite Ec in *. destruct (proj2 Hbuf ob Eob) as (ob' & _ & Ho1 & Ho2 & Ho3 & Ho4 & _).
  assert (Hs : stream (in_buf strm) (z_next_in strm) (z_avail_in strm) 0 0 = le (hdr ++ body ++ trailer_for wrap data ++ after)) by (unfold stream; rewrite Hbytes, Eo, <- !app_assoc; lia).
  assert (Hn8 : nbits (Ctx strm st (Regs (z_next_out strm) (z_avail_out strm) (z_next_in strm) (z_avail_in strm) 0 0 (z_avail_in strm) (z_avail_out strm) Z_OK)) = 8 * Z.of_nat (length (hdr ++ body ++ trailer_for wrap data ++ after))).
  { unfold nbits. csimp_goal. rewrite !length_app in *. lia. }
  destruct (stream_starts wrap data hdr body after Hw Hhb Hbb Hread) as (Hn & Hmod & Hrest). rewrite <- Hs in Hmod, Hrest. rewrite <- Hn8 in Hn, Hrest.
  set (flags := if wrap =? 0 then s_flags st else 0). set (check := if wrap =? 0 then s_check st else 1).
  assert (W : wp (fun c => left_ok K c /\ finished data (z_next_out strm) wrap (8 * Z.of_nat (length after)) c) (fun _ _ => False)
    (inflate_loop Z_FINISH (inflate_fuel (z_avail_in strm) (z_avail_out strm) (s_bits st))) (fun _ _ => False)
    (Ctx strm st (Regs (z_next_out strm) (z_avail_out strm) (z_next_in strm) (z_avail_in strm) 0 0 (z_avail_in strm) (z_avail_out strm) Z_OK))).
  { apply (read_all data (z_next_out strm) wrap flags check (8 * Z.of_nat (length after))) with (hdr := hdr); try (done || lia).
    - unfold flags, check. destruct Hw as [->| ->]; [by left|by right].
    - csimp_goal. by rewrite Ewb.
    - intros ->. done.
    - csimp_goal. by rewrite Ews, Ewr, Etot, Hto. }
  unfold wp in W. destruct (inflate_loop Z_FINISH _ _) as [a c|c|r c|]; try done. destruct W as [Hl Hf]. assert (Hlo := proj1 Hl). destruct (i_out _ _ Hlo) as (b & Eob1 & Hb1 & _ & _ & Hb4 & _). destruct (i_oend _ _ Hlo) as [Hoe1 Hoe2]. csimp. cbn [K k_oend k_out0] in Hoe1, Hoe2.
  destruct (leave_finished data (z_next_out strm) wrap (8 * Z.of_nat (length after)) zalloc c Hf ltac:(lia) ltac:(lia)) as (strm1 & st1 & El1 & [= F1 F2 F3 F4]). rewrite El1 in E'. cbn [mbind option_bind] in E'. injection E' as <- <-.
  destruct Hf as [_ _ Hhist _ _ _ [Hr1 Hr2]]. unfold out_hist, out_buf in Hhist. rewrite Eob1 in Hhist. cbn [from_option] in Hhist. unfold id in Hhist.
  assert (Hput : r_put (c_r c) - z_next_out strm = Z.of_nat (length data)) by (rewrite <- Hhist, length_bytes_at; lia).
  exists (strm1 <| z_state := Some st1 |>). split; [done|]. split; [done|]. split; [done|]. split; [|split; [by eexists|]; split; [|split; [|split]]].
  - destruct Hcase as [([Hx|[Hx|[Hx _]]] & _)|[Hm _]]; [congruence..|done].
  - unfold out_buf. csimp_goal. rewrite F1, Eob1. cbn [from_option]. unfold id. by rewrite <- Hput.
  - csimp_goal. lia.
  - csimp_goal. done.
  - intros ->. csimp_goal. rewrite F3. specialize (Hr2 ltac:(lia)). unfold nbits in Hr1. lia.
Qed.
