(* ===== verification/InflateReadClaims.v ===== *)
(** What [inflate()] makes of a whole stream: the data that the stream stands for. *)
From S2P Require Import Prelude Record Bits Huffman Lz Fixed DeflateFormat InflateState InflateMonad Inflate.
From S2P Require Import InflateWp InflateInv InflateApi InflateReach InflateReadAll InflateClaims Adler32.

(** The stream that [inflateInit()] leaves. *)
Lemma inflate_init (zalloc_state : nat -> option inflate_state) (zalloc_state_ok : forall n st, zalloc_state n = Some st -> arrays_ok st) strm :
  is_Some (zalloc_state (z_calls strm)) ->
  exists strm1, inflateInit_ zalloc_state strm true = (strm1, Z_OK) /\ new_inflate strm1 1 15 /\ z_zfree strm1 = true /\ (z_in strm1, z_next_in strm1, z_avail_in strm1, z_out strm1, z_next_out strm1, z_avail_out strm1) = (z_in strm, z_next_in strm, z_avail_in strm, z_out strm, z_next_out strm, z_avail_out strm).
Proof.
  intros [st Hst]. unfold inflateInit_, inflateInit2_. cbn [negb]. change (z_calls _) with (z_calls strm). rewrite Hst.
  match goal with |- context [inflateReset2 ?x _] => set (s := x) end.
  assert (E : exists s1 st1, inflateReset2 s DEF_WBITS = (s1, Z_OK) /\ z_state s1 = Some st1 /\ z_total_out s1 = 0 /\ z_zfree s1 = true /\ (z_in s1, z_next_in s1, z_avail_in s1, z_out s1, z_next_out s1, z_avail_out s1) = (z_in strm, z_next_in strm, z_avail_in strm, z_out strm, z_next_out strm, z_avail_out strm) /\
    (s_mode st1, s_last st1, s_bits st1, s_wsize st1, s_total st1, s_wrap st1, s_wbits st1) = (HEAD, 0, 0, 0, 0, 1, 15)).
  { eexists _, _. split; [reflexivity|]. split; [reflexivity|]. split; [reflexivity|]. split; [reflexivity|]. split; reflexivity. }
  destruct E as (s1 & st1 & E & E1 & E2 & E3 & E4 & E5).
  assert (Hok : stream_ok s1).
  { replace s1 with (inflateReset2 s DEF_WBITS).1 by (by rewrite E). eapply reset2_fine; [reflexivity|exact (zalloc_state_ok _ _ Hst)|intros w; discriminate|split; discriminate|by rewrite E]. }
  rewrite E. change (negb (Z_OK =? Z_OK)) with false. cbv iota. exists s1. split; [done|]. split; [|done]. split; [|by right|done]. exists st1. split; [done|]. split; [|done].
  unfold stream_ok in Hok. rewrite E1 in Hok. destruct Hok as [H|([H|H] & _)]; [done|..]; injection E5; congruence.
Qed.

(** C3. A stream that was just initialised for zlib data or for data without wrapper, a call with [Z_FINISH] and an input that
    starts with a valid stream for [data]: a header, any sequence of stored, fixed and dynamic blocks, each read as the deflate
    format says, and the Adler-32 checksum. With room for the data, [inflate()] returns [Z_STREAM_END] in this one call, the
    output holds exactly [data] at [next_out], the counts say so, and for zlib data exactly the bytes behind the checksum are
    left in the input. *)
Theorem inflate_stream_correct (zalloc : nat -> Z -> option (list Z)) (strm : z_stream) (wrap wbits : Z) (data out after : list Z) :
  (forall n k l, zalloc n k = Some l -> Z.of_nat (length l) = k /\ Forall byte_ok l) ->
  new_inflate strm wrap wbits -> buffers_ok strm -> z_in strm <> None -> z_out strm <> None ->
  bytes_at (in_buf strm) (z_next_in strm) (z_avail_in strm) = out ++ after -> stream_for wrap wbits data out -> Z.of_nat (length data) <= z_avail_out strm ->
  exists strm', inflate zalloc strm Z_FINISH = Some (strm', Z_STREAM_END) /\ moved strm strm' /\
    bytes_at (out_buf strm') (z_next_out strm) (Z.of_nat (length data)) = data /\ z_next_out strm' = z_next_out strm + Z.of_nat (length data) /\
    z_total_out strm' = Z.of_nat (length data) /\ (wrap = 1 -> z_avail_in strm' = Z.of_nat (length after)).
Proof.
  intros Hz Hn Hb Hi Ho Hin Hs Hr. destruct (inflate_reads zalloc strm wrap wbits data out after Hz Hn Hb Hi Ho Hin Hs Hr) as (strm' & E & _ & _ & Hm & _ & H).
  exists strm'. by split.
Qed.

(** Four bytes in a stored block. *)
Definition ex_plain : list Z := [114; 111; 99; 113].
Definition ex_body : list Z := [1; 4; 0; 251; 255; 114; 111; 99; 113].
Definition ex_stored : list Z := [120; 1] ++ ex_body ++ [4; 80; 1; 182].
Definition ex_reader : z_stream :=
  ex_strm <| z_in := Some (ex_stored ++ [7; 7]) |> <| z_avail_in := 17 |> <| z_out := Some [0; 0; 0; 0; 0; 0] |> <| z_avail_out := 6 |>.

Lemma ex_byte : forall l, forallb (fun x => (0 <=? x) && (x <? 256)) l = true -> Forall byte_ok l.
Proof. intros l H. rewrite forallb_forall in H. apply List.Forall_forall. intros x Hx. apply H in Hx. unfold byte_ok. lia. Qed.

Lemma le_field l rest a b : 0 <= a -> 0 <= b -> a + b <= 8 * Z.of_nat (length l) -> ((le l + 2 ^ (8 * Z.of_nat (length l)) * rest) / 2 ^ a) mod 2 ^ b = (le l / 2 ^ a) mod 2 ^ b.
Proof.
  intros Ha Hb Hab. replace (8 * Z.of_nat (length l)) with (a + (b + (8 * Z.of_nat (length l) - a - b))) by lia. rewrite !Z.pow_add_r by lia.
  replace (le l + _ * rest) with (le l + (2 ^ b * (2 ^ (8 * Z.of_nat (length l) - a - b) * rest)) * 2 ^ a) by lia. rewrite Z.div_add by (apply Z.pow_nonzero; lia).
  rewrite (Z.mul_comm (2 ^ b)), Z.mod_add by (apply Z.pow_nonzero; lia). done.
Qed.

Lemma ex_stored_for : stream_for 1 15 ex_plain ex_stored.
Proof.
  exists [120; 1], ex_body. split; [reflexivity|]. split.
  { exists 120, 1. unfold byte_ok. repeat split; (lia || reflexivity || (intros Hx; discriminate)). }
  intros rest. assert (F := le_field ex_body rest). change (Z.of_nat (length ex_body)) with 9 in *. set (s := le ex_body + _) in *. clearbody s.
  exists 0, [], 72. split; [constructor|]. split; [|reflexivity]. rewrite Z.pow_0_r, Z.div_1_r.
  assert (E0 := F 0 1). assert (E1 := F 1 2). rewrite Z.pow_0_r, Z.div_1_r in E0.
  replace true with (s mod 2 =? 1) by (change 2 with (2 ^ 1) at 1; rewrite E0 by lia; reflexivity).
  refine (read_stored 0 s [] ex_plain _ _ _ _ _); [change (s / 2 ^ 1 mod 2 ^ 2 = 0); by rewrite E1 by lia|by rewrite F by (vm_compute; discriminate)|by rewrite F by (vm_compute; discriminate)|by rewrite F by (vm_compute; discriminate)|by apply ex_byte].
Qed.

Lemma inflate_stream_correct_witness :
  exists strm strm', inflate ex_zalloc strm Z_FINISH = Some (strm', Z_STREAM_END) /\ bytes_at (out_buf strm') 0 4 = ex_plain /\ z_avail_in strm' = 2.
Proof.
  destruct (inflate_init ex_zalloc_state ex_zalloc_state_ok ex_reader) as (strm & _ & Hn & _ & Eb); [by eexists|]. injection Eb as E1 E2 E3 E4 E5 E6.
  destruct (inflate_stream_correct ex_zalloc strm 1 15 ex_plain ex_stored [7; 7] ex_zalloc_ok Hn) as (strm' & E & _ & Hd & _ & _ & Ha).
  - split; unfold in_buf; rewrite ?E1, ?E2, ?E3, ?E4, ?E5, ?E6; cbn [default].
    + split; [done|]. split; [done|]. split; [done|by apply ex_byte].
    + intros d [= <-]. eexists. split; [reflexivity|]. cbn. repeat split; try lia. by apply ex_byte.
  - by rewrite E1.
  - by rewrite E4.
  - unfold in_buf. by rewrite E1, E2, E3.
  - exact ex_stored_for.
  - rewrite E6. reflexivity || (cbn; lia).
  - exists strm, strm'. split; [exact E|]. rewrite E5 in Hd. split; [exact Hd|by apply Ha].
Defined.
