(* ===== verification/InflateFrame.v ===== *)
(** What [inflate()] leaves alone in the stream whatever its input is: the allocation functions of the caller. *)
From S2P Require Import Prelude Record Bits InfTrees Crc32 Adler32 InflateState InflateMonad InfFast Inflate.

(** The fields that are only read. *)
Definition funcs (z : z_stream) : bool * bool := (z_zalloc z, z_zfree z).

(** A statement that does not assign them. *)
Definition keeps {A} (m : M A) : Prop :=
  forall c, match m c with Ok _ c' | Leave c' | Return _ c' => funcs (c_strm c') = funcs (c_strm c) | Fault => True end.

Create HintDb frame.

Lemma keeps_bind {A B} (m : M A) (k : A -> M B) : keeps m -> (forall a, keeps (k a)) -> keeps (m ≫= k).
Proof.
  intros Hm Hk c. unfold mbind, M_bind. specialize (Hm c). destruct (m c) as [a c'|c'|r c'|]; try done. specialize (Hk a c'). destruct (k a c'); congruence.
Qed.
Lemma keeps_ret {A} (a : A) : keeps (mret a : M A).
Proof. by intros c. Qed.
Lemma keeps_gets {A} (f : ctx -> A) : keeps (gets f).
Proof. by intros c. Qed.
Lemma keeps_modify f : (forall c, funcs (c_strm (f c)) = funcs (c_strm c)) -> keeps (modify f).
Proof. intros H c. apply H. Qed.
Lemma keeps_lift {A} (o : option A) : keeps (lift o).
Proof. intros c. unfold lift. by destruct o. Qed.
Lemma keeps_leave {A} : keeps (inf_leave : M A).
Proof. by intros c. Qed.
Lemma keeps_return {A} r : keeps (return_ r : M A).
Proof. by intros c. Qed.
Lemma keeps_sput {T} (f : inflate_state -> T) `{!Setter f} v : keeps (sput f v).
Proof. by intros c. Qed.
Lemma keeps_rput {T} (f : regs -> T) `{!Setter f} v : keeps (rput f v).
Proof. by intros c. Qed.
Lemma keeps_sget {T} (f : inflate_state -> T) : keeps (sget f).
Proof. apply keeps_gets. Qed.
Lemma keeps_zget {T} (f : z_stream -> T) : keeps (zget f).
Proof. apply keeps_gets. Qed.
Lemma keeps_rget {T} (f : regs -> T) : keeps (rget f).
Proof. apply keeps_gets. Qed.
#[export] Hint Resolve keeps_ret keeps_gets keeps_lift keeps_leave keeps_return keeps_sput keeps_rput keeps_sget keeps_zget keeps_rget : frame.

(** Going through the statements; assignments of the stream are computed. *)
Ltac keep :=
  repeat first
    [ solve [auto with frame nocore]
    | apply keeps_bind; [|intros]
    | match goal with |- keeps (match ?x with _ => _ end) => destruct x end
    | progress cbv beta zeta
    | apply keeps_modify; intros; reflexivity ].

(** ** The macros *)
Lemma keeps_zout v : keeps (zput z_out v). Proof. by intros c. Qed.
Lemma keeps_zmsg v : keeps (zput z_msg v). Proof. by intros c. Qed.
Lemma keeps_ztotal v : keeps (zput z_total_out v). Proof. by intros c. Qed.
Lemma keeps_zadler v : keeps (zput z_adler v). Proof. by intros c. Qed.
Lemma keeps_when b m : keeps m -> keeps (when_ b m).
Proof. intros H. unfold when_. destruct b; [done|apply keeps_ret]. Qed.
#[export] Hint Resolve keeps_zout keeps_zmsg keeps_ztotal keeps_zadler keeps_when : frame.
Lemma keeps_bad msg : keeps (bad msg). Proof. unfold bad, break_. keep. Qed.
Lemma keeps_break : keeps break_. Proof. unfold break_. keep. Qed.
Lemma keeps_head f : keeps (set_head f). Proof. unfold set_head. keep. Qed.
Lemma keeps_pull : keeps PULLBYTE. Proof. unfold PULLBYTE. keep. Qed.
#[export] Hint Resolve keeps_bad keeps_break keeps_head keeps_pull : frame.
Lemma keeps_need n : keeps (NEEDBITS n).
Proof. unfold NEEDBITS. generalize 5%nat. intros k. induction k; cbn [needbits_loop]; keep. Qed.
Lemma keeps_bits n : keeps (BITS n). Proof. unfold BITS. keep. Qed.
Lemma keeps_drop n : keeps (DROPBITS n). Proof. unfold DROPBITS. keep. Qed.
Lemma keeps_byte : keeps BYTEBITS. Proof. unfold BYTEBITS. keep. Qed.
Lemma keeps_init : keeps INITBITS. Proof. unfold INITBITS. keep. Qed.
Lemma keeps_load : keeps LOAD. Proof. by intros c. Qed.
Lemma keeps_restore : keeps RESTORE. Proof. by intros c. Qed.
#[export] Hint Resolve keeps_need keeps_bits keeps_drop keeps_byte keeps_init keeps_load keeps_restore : frame.

(** ** The cases *)
Section cases.
Context (flush : Z).
Lemma keeps_DONE : keeps case_DONE. Proof. unfold case_DONE. keep. Qed.
Lemma keeps_BAD : keeps case_BAD. Proof. unfold case_BAD. keep. Qed.
#[local] Hint Resolve keeps_DONE keeps_BAD : frame.
Lemma keeps_LENGTH : keeps case_LENGTH. Proof. unfold case_LENGTH. keep. Qed.
#[local] Hint Resolve keeps_LENGTH : frame.
Lemma keeps_CHECK : keeps case_CHECK.
Proof. unfold case_CHECK. keep; apply keeps_when; keep. Qed.
Lemma keeps_LIT : keeps case_LIT. Proof. unfold case_LIT. keep. Qed.
Lemma keeps_copy n w from copy : keeps (copy_loop n w from copy).
Proof. revert from copy. induction n; intros from copy; cbn [copy_loop]; keep. Qed.
#[local] Hint Resolve keeps_copy : frame.
Lemma keeps_MATCH : keeps case_MATCH. Proof. unfold case_MATCH. keep. Qed.
#[local] Hint Resolve keeps_CHECK keeps_LIT keeps_MATCH : frame.
Lemma keeps_extra (f : inflate_state -> Z) `{!Setter f} : keeps (add_extra f).
Proof. unfold add_extra. keep. apply keeps_when. keep. Qed.
#[local] Hint Resolve keeps_extra : frame.
Lemma keeps_DISTEXT : keeps case_DISTEXT. Proof. unfold case_DISTEXT. keep. Qed.
Lemma keeps_get n t v k d b : keeps (get_code n t v k d b).
Proof. induction n; cbn [get_code]; keep. Qed.
#[local] Hint Resolve keeps_DISTEXT keeps_get : frame.
Lemma keeps_symbol l t n : keeps (decode_symbol l t n). Proof. unfold decode_symbol. keep. Qed.
#[local] Hint Resolve keeps_symbol : frame.
Lemma keeps_DIST : keeps case_DIST. Proof. unfold case_DIST. keep. Qed.
#[local] Hint Resolve keeps_DIST : frame.
Lemma keeps_LENEXT : keeps case_LENEXT. Proof. unfold case_LENEXT. keep. Qed.
#[local] Hint Resolve keeps_LENEXT : frame.

Lemma fast_funcs strm st start strm' st' : inflate_fast strm st start = Some (strm', st') -> funcs strm' = funcs strm.
Proof.
  unfold inflate_fast. destruct (fast_loop _ _ _ _ _ _ _) as [[e f]|]; [|done]. cbn [mbind option_bind]. destruct (shl32 _ _) as [m|]; [|done]. cbn [mbind option_bind]. intros [= <- _]. by destruct e as [|m' [msg|]].
Qed.
Lemma keeps_LEN : keeps case_LEN.
Proof.
  unfold case_LEN. apply keeps_bind; [auto with frame|intros have]. apply keeps_bind; [auto with frame|intros left]. destruct (_ && _); [|keep].
  intros c. unfold mbind, M_bind, RESTORE, zget, sget, rget, gets, modify, lift. cbn [c_strm upd]. unfold id. destruct (inflate_fast _ _ _) as [[strm' st']|] eqn:E; [|done]. apply fast_funcs in E. cbn in *. by destruct (bool_decide _).
Qed.
#[local] Hint Resolve keeps_LEN : frame.
Lemma keeps_LEN_ : keeps case_LEN_. Proof. unfold case_LEN_. keep. Qed.
#[local] Hint Resolve keeps_LEN_ : frame.
Lemma keeps_table type lens n (bits : inflate_state -> Z) `{!Setter bits} : keeps (build_table type lens n bits). Proof. unfold build_table. keep. Qed.
#[local] Hint Resolve keeps_table : frame.
Lemma keeps_build : keeps (build_codes flush). Proof. unfold build_codes. keep. Qed.
#[local] Hint Resolve keeps_build : frame.
Lemma keeps_repeat n len : keeps (repeat_len n len). Proof. induction n; cbn [repeat_len]; keep. Qed.
#[local] Hint Resolve keeps_repeat : frame.
Lemma keeps_codelens_step : keeps codelens_step. Proof. unfold codelens_step. keep. Qed.
#[local] Hint Resolve keeps_codelens_step : frame.
Lemma keeps_codelens n : keeps (codelens_loop n). Proof. induction n; cbn [codelens_loop]; keep. Qed.
#[local] Hint Resolve keeps_codelens : frame.
Lemma keeps_CODELENS : keeps (case_CODELENS flush). Proof. unfold case_CODELENS. keep. Qed.
Lemma keeps_lenlens n : keeps (lenlens_loop n). Proof. induction n; cbn [lenlens_loop]; keep. Qed.
Lemma keeps_zeros n : keeps (zero_lens_loop n). Proof. induction n; cbn [zero_lens_loop]; keep. Qed.
#[local] Hint Resolve keeps_CODELENS keeps_lenlens keeps_zeros : frame.
Lemma keeps_LENLENS : keeps (case_LENLENS flush). Proof. unfold case_LENLENS. keep. Qed.
#[local] Hint Resolve keeps_LENLENS : frame.
Lemma keeps_TABLE : keeps (case_TABLE flush). Proof. unfold case_TABLE. keep. Qed.
Lemma keeps_COPY : keeps case_COPY. Proof. unfold case_COPY. keep. Qed.
#[local] Hint Resolve keeps_TABLE keeps_COPY : frame.
Lemma keeps_COPY_ : keeps case_COPY_. Proof. unfold case_COPY_. keep. Qed.
#[local] Hint Resolve keeps_COPY_ : frame.
Lemma keeps_STORED : keeps (case_STORED flush). Proof. unfold case_STORED. keep. Qed.
Lemma keeps_TYPEDO : keeps (case_TYPEDO flush). Proof. unfold case_TYPEDO. keep. Qed.
#[local] Hint Resolve keeps_STORED keeps_TYPEDO : frame.
Lemma keeps_TYPE : keeps (case_TYPE flush). Proof. unfold case_TYPE. keep. Qed.
#[local] Hint Resolve keeps_TYPE : frame.
Lemma keeps_DICT : keeps (case_DICT flush). Proof. unfold case_DICT. keep. Qed.
#[local] Hint Resolve keeps_DICT : frame.
Lemma keeps_DICTID : keeps (case_DICTID flush). Proof. unfold case_DICTID. keep. Qed.
Lemma keeps_HCRC : keeps case_HCRC. Proof. unfold case_HCRC. keep. Qed.
#[local] Hint Resolve keeps_DICTID keeps_HCRC : frame.
Lemma keeps_store (f : gz_header -> option (list Z)) `{!Setter f} max len : keeps (store_byte f max len). Proof. unfold store_byte. keep. Qed.
#[local] Hint Resolve keeps_store : frame.
Lemma keeps_string n store copy : (forall b, keeps (store b)) -> keeps (string_loop n store copy).
Proof. intros H. revert copy. induction n; intros copy; cbn [string_loop]; keep. Qed.
#[local] Hint Resolve keeps_string : frame.
Lemma keeps_read_string store : (forall b, keeps (store b)) -> keeps (read_string store). Proof. intros H. unfold read_string. keep; apply keeps_when; keep. Qed.
#[local] Hint Resolve keeps_read_string : frame.
Lemma keeps_COMMENT : keeps case_COMMENT. Proof. unfold case_COMMENT. keep. Qed.
#[local] Hint Resolve keeps_COMMENT : frame.
Lemma keeps_NAME : keeps case_NAME. Proof. unfold case_NAME. keep. Qed.
#[local] Hint Resolve keeps_NAME : frame.
Lemma keeps_store_extra n : keeps (store_extra n). Proof. unfold store_extra. keep. Qed.
#[local] Hint Resolve keeps_store_extra : frame.
Lemma keeps_EXTRA : keeps case_EXTRA.
Proof. unfold case_EXTRA. keep; repeat (apply keeps_when; keep). Qed.
#[local] Hint Resolve keeps_EXTRA : frame.
Lemma keeps_hcrc f : keeps (header_crc f). Proof. unfold header_crc. keep. Qed.
#[local] Hint Resolve keeps_hcrc : frame.
Lemma keeps_EXLEN : keeps case_EXLEN. Proof. unfold case_EXLEN. keep. Qed.
#[local] Hint Resolve keeps_EXLEN : frame.
Lemma keeps_OS : keeps case_OS. Proof. unfold case_OS. keep. Qed.
#[local] Hint Resolve keeps_OS : frame.
Lemma keeps_TIME : keeps case_TIME. Proof. unfold case_TIME. keep. Qed.
#[local] Hint Resolve keeps_TIME : frame.
Lemma keeps_FLAGS : keeps case_FLAGS. Proof. unfold case_FLAGS. keep. Qed.
Lemma keeps_HEAD : keeps case_HEAD. Proof. unfold case_HEAD. keep. Qed.
#[local] Hint Resolve keeps_FLAGS keeps_HEAD : frame.
Lemma keeps_switch m : keeps (switch_mode flush m). Proof. destruct m; cbn [switch_mode]; auto with frame. Qed.
#[local] Hint Resolve keeps_switch : frame.
Lemma keeps_loop n : keeps (inflate_loop flush n). Proof. induction n; cbn [inflate_loop]; keep. Qed.
End cases.

(** ** The call *)
Lemma leave_funcs zalloc flush c strm st ret : leave zalloc flush c = Some (strm, st, ret) -> funcs strm = funcs (c_strm c).
Proof.
  unfold leave. match goal with |- context [mbind _ ?x] => destruct x as [[[st1 calls] fail]|] end; [|done]. cbn [mbind option_bind]. destruct (nz fail); [by intros [= <- _ _]|].
  match goal with |- context [if ?b then _ else Some (?z, ?s)] => destruct b end; [destruct (slice _ _ _) as [buf|]; [|done]|]; cbn [mbind option_bind]; by intros [= <- _ _].
Qed.

Lemma inflate_funcs zalloc strm flush strm' ret : inflate zalloc strm flush = Some (strm', ret) -> funcs strm' = funcs strm.
Proof.
  unfold inflate. destruct (z_state strm) as [st|]; [|by intros [= <- _]]. destruct (z_out strm); [|by intros [= <- _]]. destruct (match z_in strm with Some _ => false | None => _ end); [by intros [= <- _]|].
  assert (H := keeps_loop flush (inflate_fuel (z_avail_in strm) (z_avail_out strm) (s_bits st)) (inflate_enter strm st)). assert (He : funcs (c_strm (inflate_enter strm st)) = funcs strm) by done. rewrite He in H.
  destruct (inflate_loop _ _ _) as [a c|c|r c|]; try done; [|by intros [= <- _]]. destruct (leave zalloc flush c) as [[[strm1 st1] r]|] eqn:E; [|done]. apply leave_funcs in E. cbn [mbind option_bind]. intros [= <- _]. by rewrite <- H, <- E.
Qed.
