(* ===== verification/DeflateState.v ===== *)
(** The data of the compressor: [deflate_state] of [src/zlib/deflate.h] and the constants of [deflate.c], [deflate.h] and
    [zlib.h] that it uses. *)
From S2P Require Import Prelude Record InflateState TreesTables Trees.

(** ** Constants *)
Definition Z_NO_FLUSH : Z := 0.
Definition Z_PARTIAL_FLUSH : Z := 1.
Definition Z_SYNC_FLUSH : Z := 2.
Definition Z_FULL_FLUSH : Z := 3.
Definition Z_DEFAULT_COMPRESSION : Z := -1.
Definition Z_FILTERED : Z := 1.
Definition Z_HUFFMAN_ONLY : Z := 2.
Definition Z_RLE : Z := 3.
Definition Z_DEFAULT_STRATEGY : Z := 0.
Definition INIT_STATE : Z := 42.
Definition EXTRA_STATE : Z := 69.
Definition NAME_STATE : Z := 73.
Definition COMMENT_STATE : Z := 91.
Definition HCRC_STATE : Z := 103.
Definition BUSY_STATE : Z := 113.
Definition FINISH_STATE : Z := 666.
Definition MAX_MEM_LEVEL : Z := 9.
Definition DEF_MEM_LEVEL : Z := 8.
Definition PRESET_DICT : Z := 0x20.
(** On Windows. *)
Definition OS_CODE : Z := 0x0b.
Definition NIL : Z := 0.
Definition TOO_FAR : Z := 4096.
Definition MIN_LOOKAHEAD : Z := MAX_MATCH + MIN_MATCH + 1.
Definition WIN_INIT : Z := MAX_MATCH.

(** The messages of [ERR_RETURN]. *)
Definition z_errmsg : list string :=
  ["need dictionary"%string; "stream end"%string; EmptyString; "file error"%string; "stream error"%string; "data error"%string;
   "insufficient memory"%string; "buffer error"%string; "incompatible version"%string; EmptyString].
Definition ERR_MSG (err : Z) : string := default EmptyString (z_errmsg !! Z.to_nat (Z_NEED_DICT - err)).

(** ** The state

    [d_strm] is [s->strm]; its [z_state] is not used, since that field is a state of the decompressor. [d_trees] holds the fields
    used by [trees.c], with [pending_buf], [pending], [level], [strategy] and the stream's [data_type]; [d_pending_out] is an
    index into [pending_buf]. [d_gzhead] is the header of the caller, or [None] for NULL. *)
Record deflate_state := DeflateState {
  d_strm : z_stream; d_status : Z; d_pending_buf_size : Z; d_pending_out : Z; d_wrap : Z; d_gzhead : option gz_header;
  d_gzindex : Z; d_method : Z; d_last_flush : Z; d_w_size : Z; d_w_bits : Z; d_w_mask : Z;
  d_window : list Z; d_window_size : Z; d_prev : list Z; d_head : list Z; d_ins_h : Z; d_hash_size : Z;
  d_hash_bits : Z; d_hash_mask : Z; d_hash_shift : Z; d_block_start : Z; d_match_length : Z; d_prev_match : Z;
  d_match_available : Z; d_strstart : Z; d_match_start : Z; d_lookahead : Z; d_prev_length : Z; d_max_chain_length : Z;
  d_max_lazy_match : Z; d_good_match : Z; d_nice_match : Z; d_insert : Z; d_high_water : Z; d_trees : trees_state }.

Definition eta_deflate (s : deflate_state) : deflate_state :=
  DeflateState (d_strm s) (d_status s) (d_pending_buf_size s) (d_pending_out s) (d_wrap s) (d_gzhead s)
    (d_gzindex s) (d_method s) (d_last_flush s) (d_w_size s) (d_w_bits s) (d_w_mask s)
    (d_window s) (d_window_size s) (d_prev s) (d_head s) (d_ins_h s) (d_hash_size s)
    (d_hash_bits s) (d_hash_mask s) (d_hash_shift s) (d_block_start s) (d_match_length s) (d_prev_match s)
    (d_match_available s) (d_strstart s) (d_match_start s) (d_lookahead s) (d_prev_length s) (d_max_chain_length s)
    (d_max_lazy_match s) (d_good_match s) (d_nice_match s) (d_insert s) (d_high_water s) (d_trees s).
#[export] Instance set_d_strm : Setter d_strm := ltac:(mk_setter eta_deflate d_strm).
#[export] Instance set_d_status : Setter d_status := ltac:(mk_setter eta_deflate d_status).
#[export] Instance set_d_pending_buf_size : Setter d_pending_buf_size := ltac:(mk_setter eta_deflate d_pending_buf_size).
#[export] Instance set_d_pending_out : Setter d_pending_out := ltac:(mk_setter eta_deflate d_pending_out).
#[export] Instance set_d_wrap : Setter d_wrap := ltac:(mk_setter eta_deflate d_wrap).
#[export] Instance set_d_gzhead : Setter d_gzhead := ltac:(mk_setter eta_deflate d_gzhead).
#[export] Instance set_d_gzindex : Setter d_gzindex := ltac:(mk_setter eta_deflate d_gzindex).
#[export] Instance set_d_method : Setter d_method := ltac:(mk_setter eta_deflate d_method).
#[export] Instance set_d_last_flush : Setter d_last_flush := ltac:(mk_setter eta_deflate d_last_flush).
#[export] Instance set_d_w_size : Setter d_w_size := ltac:(mk_setter eta_deflate d_w_size).
#[export] Instance set_d_w_bits : Setter d_w_bits := ltac:(mk_setter eta_deflate d_w_bits).
#[export] Instance set_d_w_mask : Setter d_w_mask := ltac:(mk_setter eta_deflate d_w_mask).
#[export] Instance set_d_window : Setter d_window := ltac:(mk_setter eta_deflate d_window).
#[export] Instance set_d_window_size : Setter d_window_size := ltac:(mk_setter eta_deflate d_window_size).
#[export] Instance set_d_prev : Setter d_prev := ltac:(mk_setter eta_deflate d_prev).
#[export] Instance set_d_head : Setter d_head := ltac:(mk_setter eta_deflate d_head).
#[export] Instance set_d_ins_h : Setter d_ins_h := ltac:(mk_setter eta_deflate d_ins_h).
#[export] Instance set_d_hash_size : Setter d_hash_size := ltac:(mk_setter eta_deflate d_hash_size).
#[export] Instance set_d_hash_bits : Setter d_hash_bits := ltac:(mk_setter eta_deflate d_hash_bits).
#[export] Instance set_d_hash_mask : Setter d_hash_mask := ltac:(mk_setter eta_deflate d_hash_mask).
#[export] Instance set_d_hash_shift : Setter d_hash_shift := ltac:(mk_setter eta_deflate d_hash_shift).
#[export] Instance set_d_block_start : Setter d_block_start := ltac:(mk_setter eta_deflate d_block_start).
#[export] Instance set_d_match_length : Setter d_match_length := ltac:(mk_setter eta_deflate d_match_length).
#[export] Instance set_d_prev_match : Setter d_prev_match := ltac:(mk_setter eta_deflate d_prev_match).
#[export] Instance set_d_match_available : Setter d_match_available := ltac:(mk_setter eta_deflate d_match_available).
#[export] Instance set_d_strstart : Setter d_strstart := ltac:(mk_setter eta_deflate d_strstart).
#[export] Instance set_d_match_start : Setter d_match_start := ltac:(mk_setter eta_deflate d_match_start).
#[export] Instance set_d_lookahead : Setter d_lookahead := ltac:(mk_setter eta_deflate d_lookahead).
#[export] Instance set_d_prev_length : Setter d_prev_length := ltac:(mk_setter eta_deflate d_prev_length).
#[export] Instance set_d_max_chain_length : Setter d_max_chain_length := ltac:(mk_setter eta_deflate d_max_chain_length).
#[export] Instance set_d_max_lazy_match : Setter d_max_lazy_match := ltac:(mk_setter eta_deflate d_max_lazy_match).
#[export] Instance set_d_good_match : Setter d_good_match := ltac:(mk_setter eta_deflate d_good_match).
#[export] Instance set_d_nice_match : Setter d_nice_match := ltac:(mk_setter eta_deflate d_nice_match).
#[export] Instance set_d_insert : Setter d_insert := ltac:(mk_setter eta_deflate d_insert).
#[export] Instance set_d_high_water : Setter d_high_water := ltac:(mk_setter eta_deflate d_high_water).
#[export] Instance set_d_trees : Setter d_trees := ltac:(mk_setter eta_deflate d_trees).

(** The largest distance of a match. *)
Definition MAX_DIST (s : deflate_state) : Z := u32 (d_w_size s - MIN_LOOKAHEAD).

(** A stream with its state, [None] for NULL. *)
Record dstream := DStream { x_strm : z_stream; x_state : option deflate_state }.

(** The results of the compression functions. *)
Inductive block_state := need_more | block_done | finish_started | finish_done.
#[export] Instance block_state_eq_dec : EqDecision block_state.
Proof. solve_decision. Defined.

(** The compression functions, and the parameters of the levels. *)
Inductive compress_func := use_stored | use_fast | use_slow.
#[export] Instance compress_func_eq_dec : EqDecision compress_func.
Proof. solve_decision. Defined.
Record config := Config { good_length : Z; max_lazy : Z; nice_length : Z; max_chain : Z; func : compress_func }.
Definition configuration_table : list config :=
  [Config 0 0 0 0 use_stored; Config 4 4 8 4 use_fast; Config 4 5 16 8 use_fast; Config 4 6 32 32 use_fast;
   Config 4 4 16 16 use_slow; Config 8 16 32 32 use_slow; Config 8 16 128 128 use_slow; Config 8 32 128 256 use_slow;
   Config 32 128 258 1024 use_slow; Config 32 258 258 4096 use_slow].
