(* ===== verification/Deflate.v ===== *)
(** Model of [src/zlib/deflate.c]: the match finder, the compression functions and the stream functions of the compressor.

    A loop [for (;;)] of a compression function is [forever] over one step, which says whether the loop goes on, ends or
    returns. *)
From S2P Require Import Prelude Record Adler32 Crc32 InflateState TreesTables Trees DeflateState.

(** ** Memory *)
Definition zmemzero (l : list Z) (i n : Z) : option (list Z) :=
  if (0 <=? i) && (0 <=? n) && (i + n <=? Z.of_nat (length l))
  then Some (take (Z.to_nat i) l ++ replicate (Z.to_nat n) 0 ++ drop (Z.to_nat (i + n)) l) else None.

(** ** Output *)
Definition d_pending (s : deflate_state) : Z := w_pending (t_w (d_trees s)).

Definition dput_byte (s : deflate_state) (c : Z) : option deflate_state :=
  w ← put_byte (t_w (d_trees s)) c;
  Some (s <| d_trees ::= upd t_w (fun _ => w) |>).

Fixpoint dput_bytes (s : deflate_state) (l : list Z) : option deflate_state :=
  match l with
  | [] => Some s
  | c :: l => s ← dput_byte s c; dput_bytes s l
  end.

Definition putShortMSB (s : deflate_state) (b : Z) : option deflate_state :=
  s ← dput_byte s (u8 (b ≫ 8));
  dput_byte s (b .& 0xff).

Definition flush_pending (s : deflate_state) : option deflate_state :=
  trees ← tr_flush_bits (d_trees s);
  let s := s <| d_trees := trees |> in
  let strm := d_strm s in
  let len := if d_pending s >? z_avail_out strm then z_avail_out strm else d_pending s in
  if len =? 0 then Some s
  else
    out ← memcpy (out_buf strm) (z_next_out strm) (w_buf (t_w trees)) (d_pending_out s) len;
    let strm := strm <| z_out := Some out |> <| z_next_out := z_next_out strm + len |>
                     <| z_total_out := u32 (z_total_out strm + len) |> <| z_avail_out := u32 (z_avail_out strm - len) |> in
    let pending := u32 (d_pending s - len) in
    Some (s <| d_strm := strm |> <| d_trees ::= upd t_w (upd w_pending (fun _ => pending)) |>
            <| d_pending_out := if pending =? 0 then 0 else d_pending_out s + len |>).

(** ** The hash table *)
Definition CLEAR_HASH (s : deflate_state) : option deflate_state :=
  head ← aset (d_head s) (d_hash_size s - 1) NIL;
  head ← zmemzero head 0 (d_hash_size s - 1);
  Some (s <| d_head := head |>).

Definition UPDATE_HASH (s : deflate_state) (h c : Z) : option Z :=
  x ← shl32 h (d_hash_shift s);
  Some ((x .^ c) .& d_hash_mask s).

(** The second component is [match_head]. *)
Definition INSERT_STRING (s : deflate_state) (str : Z) : option (deflate_state * Z) :=
  c ← aget (d_window s) (str + (MIN_MATCH - 1));
  h ← UPDATE_HASH s (d_ins_h s) c;
  match_head ← aget (d_head s) h;
  prev ← aset (d_prev s) (str .& d_w_mask s) match_head;
  head ← aset (d_head s) h (u16 str);
  Some (s <| d_ins_h := h |> <| d_prev := prev |> <| d_head := head |>, match_head).

(** ** Input *)

(** [read_buf(s->strm, s->window + off, size)] *)
Definition read_buf (s : deflate_state) (off size : Z) : option (deflate_state * Z) :=
  let strm := d_strm s in
  let len := if z_avail_in strm >? size then size else z_avail_in strm in
  if len =? 0 then Some (s, 0)
  else
    window ← memcpy (d_window s) off (in_buf strm) (z_next_in strm) len;
    buf ← slice window off len;
    let adler := if d_wrap s =? 1 then adler32 (z_adler strm) (Some buf)
                 else if d_wrap s =? 2 then crc32 (z_adler strm) (Some buf)
                 else z_adler strm in
    let strm := strm <| z_avail_in := u32 (z_avail_in strm - len) |> <| z_adler := adler |>
                     <| z_next_in := z_next_in strm + len |> <| z_total_in := u32 (z_total_in strm + len) |> in
    Some (s <| d_window := window |> <| d_strm := strm |>, len).

(** [m = *--p; *p = (Pos)(m >= wsize ? m-wsize : NIL);] on the first [n] entries *)
Definition slide_table (wsize n : Z) (l : list Z) : option (list Z) :=
  if (1 <=? n) && (n <=? Z.of_nat (length l))
  then Some (((fun m => u16 (if wsize <=? m then m - wsize else NIL)) <$> take (Z.to_nat n) l) ++ drop (Z.to_nat n) l) else None.

(** [if (s->strstart >= wsize+MAX_DIST(s)) { ... }], with [more] *)
Definition slide_window (s : deflate_state) (more : Z) : option (deflate_state * Z) :=
  let wsize := d_w_size s in
  if d_strstart s >=? u32 (wsize + MAX_DIST s) then
    window ← memcpy (d_window s) 0 (d_window s) wsize wsize;
    head ← slide_table wsize (d_hash_size s) (d_head s);
    prev ← slide_table wsize wsize (d_prev s);
    Some (s <| d_window := window |> <| d_match_start := u32 (d_match_start s - wsize) |>
            <| d_strstart := u32 (d_strstart s - wsize) |> <| d_block_start := d_block_start s - wsize |>
            <| d_head := head |> <| d_prev := prev |>, u32 (more + wsize))
  else Some (s, more).

(** [while (s->insert) { ... }] *)
Fixpoint insert_loop (fuel : nat) (s : deflate_state) (str : Z) : option deflate_state :=
  match fuel with
  | O => None
  | S fuel =>
      if d_insert s =? 0 then Some s
      else
        '(s, _) ← INSERT_STRING s str;
        let s := s <| d_insert := u32 (d_insert s - 1) |> in
        if u32 (d_lookahead s + d_insert s) <? MIN_MATCH then Some s else insert_loop fuel s (str + 1)
  end.

(** [if (s->lookahead + s->insert >= MIN_MATCH) { ... }] *)
Definition start_hash (s : deflate_state) : option deflate_state :=
  if u32 (d_lookahead s + d_insert s) >=? MIN_MATCH then
    let str := u32 (d_strstart s - d_insert s) in
    h ← aget (d_window s) str;
    c ← aget (d_window s) (str + 1);
    h ← UPDATE_HASH s h c;
    insert_loop (S (Z.to_nat (d_insert s))) (s <| d_ins_h := h |>) str
  else Some s.

(** The [do ... while] loop of [fill_window]. *)
Fixpoint fill_loop (fuel : nat) (s : deflate_state) : option deflate_state :=
  match fuel with
  | O => None
  | S fuel =>
      let more := u32 (d_window_size s - d_lookahead s - d_strstart s) in
      '(s, more) ← slide_window s more;
      if z_avail_in (d_strm s) =? 0 then Some s
      else
        '(s, n) ← read_buf s (d_strstart s + d_lookahead s) more;
        s ← start_hash (s <| d_lookahead := u32 (d_lookahead s + n) |>);
        if (d_lookahead s <? MIN_LOOKAHEAD) && negb (z_avail_in (d_strm s) =? 0) then fill_loop fuel s else Some s
  end.

(** [if (s->high_water < s->window_size) { ... }] *)
Definition zero_window (s : deflate_state) : option deflate_state :=
  if d_high_water s <? d_window_size s then
    let curr := u32 (d_strstart s + d_lookahead s) in
    if d_high_water s <? curr then
      let init := u32 (d_window_size s - curr) in
      let init := if init >? WIN_INIT then WIN_INIT else init in
      window ← zmemzero (d_window s) curr init;
      Some (s <| d_window := window |> <| d_high_water := u32 (curr + init) |>)
    else if d_high_water s <? u32 (curr + WIN_INIT) then
      let init := u32 (curr + WIN_INIT - d_high_water s) in
      let init := if init >? u32 (d_window_size s - d_high_water s) then u32 (d_window_size s - d_high_water s) else init in
      window ← zmemzero (d_window s) (d_high_water s) init;
      Some (s <| d_window := window |> <| d_high_water := u32 (d_high_water s + init) |>)
    else Some s
  else Some s.

Definition fill_window (s : deflate_state) : option deflate_state :=
  s ← fill_loop (S (Z.to_nat (z_avail_in (d_strm s)))) s;
  zero_window s.

(** ** The longest match *)

(** [*++scan == *++match && ...], [k] times: whether all comparisons were equal, and both indices *)
Fixpoint compare_ahead (k : nat) (window : list Z) (scan mtch : Z) : option (bool * Z * Z) :=
  match k with
  | O => Some (true, scan, mtch)
  | S k =>
      a ← aget window (scan + 1);
      b ← aget window (mtch + 1);
      if a =? b then compare_ahead k window (scan + 1) (mtch + 1) else Some (false, scan + 1, mtch + 1)
  end.

(** [do { } while (... && scan < strend);] *)
Fixpoint compare_loop (fuel : nat) (window : list Z) (scan mtch strend : Z) : option Z :=
  match fuel with
  | O => None
  | S fuel =>
      '(eq, scan, mtch) ← compare_ahead 8 window scan mtch;
      if (eq : bool) && (scan <? strend) then compare_loop fuel window scan mtch strend else Some scan
  end.

(** The length of the match at [cur_match], or [None] in the inner option for [continue] *)
Definition match_at (window : list Z) (strstart best_len scan_end1 scan_end cur_match : Z) : option (option Z) :=
  m ← aget window (cur_match + best_len);
  if negb (m =? scan_end) then Some None
  else
    m ← aget window (cur_match + best_len - 1);
    if negb (m =? scan_end1) then Some None
    else
      m ← aget window cur_match;
      c ← aget window strstart;
      if negb (m =? c) then Some None
      else
        m ← aget window (cur_match + 1);
        c ← aget window (strstart + 1);
        if negb (m =? c) then Some None
        else
          let strend := strstart + MAX_MATCH in
          scan ← compare_loop 33 window (strstart + 2) (cur_match + 2) strend;
          Some (Some (MAX_MATCH - (strend - scan))).

(** The loop over the hash chain; the result is [match_start] and [best_len]. *)
Fixpoint chain_loop (fuel : nat) (s : deflate_state) (limit nice_match cur_match chain_length match_start best_len scan_end1 scan_end : Z) :
    option (Z * Z) :=
  match fuel with
  | O => None
  | S fuel =>
      let next match_start best_len scan_end1 scan_end :=
        (cur_match ← aget (d_prev s) (cur_match .& d_w_mask s);
         if cur_match >? limit then
           let chain_length := u32 (chain_length - 1) in
           if chain_length =? 0 then Some (match_start, best_len)
           else chain_loop fuel s limit nice_match cur_match chain_length match_start best_len scan_end1 scan_end
         else Some (match_start, best_len)) in
      r ← match_at (d_window s) (d_strstart s) best_len scan_end1 scan_end cur_match;
      match r with
      | None => next match_start best_len scan_end1 scan_end
      | Some len =>
          if len >? best_len then
            if len >=? nice_match then Some (cur_match, len)
            else
              scan_end1 ← aget (d_window s) (d_strstart s + len - 1);
              scan_end ← aget (d_window s) (d_strstart s + len);
              next cur_match len scan_end1 scan_end
          else next match_start best_len scan_end1 scan_end
      end
  end.

(** The build without UNALIGNED_OK and ASMV. *)
Definition longest_match (s : deflate_state) (cur_match : Z) : option (deflate_state * Z) :=
  let best_len := d_prev_length s in
  let limit := if d_strstart s >? MAX_DIST s then d_strstart s - MAX_DIST s else NIL in
  scan_end1 ← aget (d_window s) (d_strstart s + best_len - 1);
  scan_end ← aget (d_window s) (d_strstart s + best_len);
  let chain_length := if d_prev_length s >=? d_good_match s then d_max_chain_length s ≫ 2 else d_max_chain_length s in
  let nice_match := if u32 (d_nice_match s) >? d_lookahead s then d_lookahead s else d_nice_match s in
  '(match_start, best_len) ←
    chain_loop (S (Z.to_nat (d_strstart s))) s limit nice_match cur_match chain_length (d_match_start s) best_len scan_end1 scan_end;
  Some (s <| d_match_start := match_start |>, if u32 best_len <=? d_lookahead s then best_len else d_lookahead s).

(** ** Blocks *)
Definition FLUSH_BLOCK_ONLY (s : deflate_state) (last : Z) : option deflate_state :=
  let buf := if d_block_start s >=? 0 then Some (drop (Z.to_nat (d_block_start s)) (d_window s)) else None in
  trees ← tr_flush_block (d_trees s) buf (u32 (d_strstart s - d_block_start s)) last;
  flush_pending (s <| d_trees := trees |> <| d_strm ::= upd z_data_type (fun _ => t_data_type trees) |> <| d_block_start := d_strstart s |>).

(** The second component is whether the function returns. *)
Definition FLUSH_BLOCK (s : deflate_state) (last : Z) : option (deflate_state * bool) :=
  s ← FLUSH_BLOCK_ONLY s last;
  Some (s, z_avail_out (d_strm s) =? 0).

Definition tally_lit (s : deflate_state) (c : Z) : option (deflate_state * bool) :=
  '(trees, bflush) ← tr_tally_lit (d_trees s) c;
  Some (s <| d_trees := trees |>, bflush).
Definition tally_dist (s : deflate_state) (distance length : Z) : option (deflate_state * bool) :=
  '(trees, bflush) ← tr_tally_dist (d_trees s) distance length;
  Some (s <| d_trees := trees |>, bflush).

(** How an iteration of [for (;;)] ends. *)
Inductive ctl := Continue | Break | Return (b : block_state).

Fixpoint forever (fuel : nat) (step : deflate_state -> option (deflate_state * ctl)) (s : deflate_state) :
    option (deflate_state * option block_state) :=
  match fuel with
  | O => None
  | S fuel =>
      '(s, c) ← step s;
      match c with
      | Continue => forever fuel step s
      | Break => Some (s, None)
      | Return b => Some (s, Some b)
      end
  end.

(** Every iteration but the last two uses up a byte of the input. *)
Definition input_fuel (s : deflate_state) : nat := S (S (Z.to_nat (d_lookahead s + z_avail_in (d_strm s)))).

(** [if (bflush) FLUSH_BLOCK(s, 0);] *)
Definition flush_if (s : deflate_state) (bflush : bool) : option (deflate_state * ctl) :=
  if bflush then
    '(s, full) ← FLUSH_BLOCK s 0;
    Some (s, if (full : bool) then Return need_more else Continue)
  else Some (s, Continue).

(** The end of a compression function, with the block flushed if [cond] holds. *)
Definition end_block (s : deflate_state) (flush : Z) (cond : bool) : option (deflate_state * block_state) :=
  if flush =? Z_FINISH then
    '(s, full) ← FLUSH_BLOCK s 1;
    Some (s, if (full : bool) then finish_started else finish_done)
  else if cond then
    '(s, full) ← FLUSH_BLOCK s 0;
    Some (s, if (full : bool) then need_more else block_done)
  else Some (s, block_done).

(** ** The compression functions *)

(** One iteration of [deflate_stored], with [max_block_size]. *)
Definition stored_step (flush max_block_size : Z) (s : deflate_state) : option (deflate_state * ctl) :=
  let body s :=
    (let s := s <| d_strstart := u32 (d_strstart s + d_lookahead s) |> <| d_lookahead := 0 |> in
     let max_start := u32 (d_block_start s + max_block_size) in
     '(s, full) ←
       (if (d_strstart s =? 0) || (d_strstart s >=? max_start) then
          FLUSH_BLOCK (s <| d_lookahead := u32 (d_strstart s - max_start) |> <| d_strstart := max_start |>) 0
        else Some (s, false));
     if (full : bool) then Some (s, Return need_more)
     else flush_if s (u32 (d_strstart s - u32 (d_block_start s)) >=? MAX_DIST s)) in
  if d_lookahead s <=? 1 then
    s ← fill_window s;
    if (d_lookahead s =? 0) && (flush =? Z_NO_FLUSH) then Some (s, Return need_more)
    else if d_lookahead s =? 0 then Some (s, Break)
    else body s
  else body s.

Definition deflate_stored (s : deflate_state) (flush : Z) : option (deflate_state * block_state) :=
  let max_block_size := if 0xffff >? u32 (d_pending_buf_size s - 5) then u32 (d_pending_buf_size s - 5) else 0xffff in
  '(s, r) ← forever (input_fuel s) (stored_step flush max_block_size) s;
  match r with
  | Some b => Some (s, b)
  | None =>
      let s := s <| d_insert := 0 |> in
      end_block s flush (d_strstart s >? d_block_start s)
  end.

(** [if (s->lookahead < MIN_LOOKAHEAD) { ... }]: the state is filled, or the iteration ends *)
Definition need_lookahead (flush n : Z) (s : deflate_state) : option (deflate_state * ctl) :=
  if d_lookahead s <? n then
    s ← fill_window s;
    if (d_lookahead s <? n) && (flush =? Z_NO_FLUSH) then Some (s, Return need_more)
    else if d_lookahead s =? 0 then Some (s, Break)
    else Some (s, Continue)
  else Some (s, Continue).

(** [hash_head = NIL; if (s->lookahead >= MIN_MATCH) INSERT_STRING(s, s->strstart, hash_head);] *)
Definition insert_here (s : deflate_state) : option (deflate_state * Z) :=
  if d_lookahead s >=? MIN_MATCH then INSERT_STRING s (d_strstart s) else Some (s, NIL).

(** [do { s->strstart++; INSERT_STRING(...); } while (--s->match_length != 0);] *)
Fixpoint insert_matched (fuel : nat) (s : deflate_state) : option deflate_state :=
  match fuel with
  | O => None
  | S fuel =>
      let s := s <| d_strstart := u32 (d_strstart s + 1) |> in
      '(s, _) ← INSERT_STRING s (d_strstart s);
      let s := s <| d_match_length := u32 (d_match_length s - 1) |> in
      if d_match_length s =? 0 then Some s else insert_matched fuel s
  end.

(** The match is sent. *)
Definition fast_match_step (s : deflate_state) : option (deflate_state * bool) :=
  '(s, bflush) ← tally_dist s (u32 (d_strstart s - d_match_start s)) (u32 (d_match_length s - MIN_MATCH));
  let s := s <| d_lookahead := u32 (d_lookahead s - d_match_length s) |> in
  s ← (if (d_match_length s <=? d_max_lazy_match s) && (d_lookahead s >=? MIN_MATCH) then
         let s := s <| d_match_length := u32 (d_match_length s - 1) |> in
         s ← insert_matched (Z.to_nat (d_match_length s)) s;
         Some (s <| d_strstart := u32 (d_strstart s + 1) |>)
       else
         let s := s <| d_strstart := u32 (d_strstart s + d_match_length s) |> <| d_match_length := 0 |> in
         h ← aget (d_window s) (d_strstart s);
         c ← aget (d_window s) (d_strstart s + 1);
         h ← UPDATE_HASH s h c;
         Some (s <| d_ins_h := h |>));
  Some (s, bflush).

(** A literal is sent. *)
Definition literal_step (s : deflate_state) : option (deflate_state * bool) :=
  c ← aget (d_window s) (d_strstart s);
  '(s, bflush) ← tally_lit s c;
  Some (s <| d_lookahead := u32 (d_lookahead s - 1) |> <| d_strstart := u32 (d_strstart s + 1) |>, bflush).

Definition fast_body (s : deflate_state) : option (deflate_state * ctl) :=
  '(s, hash_head) ← insert_here s;
  s ← (if negb (hash_head =? NIL) && (u32 (d_strstart s - hash_head) <=? MAX_DIST s) then
         '(s, len) ← longest_match s hash_head;
         Some (s <| d_match_length := len |>)
       else Some s);
  '(s, bflush) ← (if d_match_length s >=? MIN_MATCH then fast_match_step s else literal_step s);
  flush_if s bflush.

Definition deflate_fast (s : deflate_state) (flush : Z) : option (deflate_state * block_state) :=
  '(s, r) ← forever (input_fuel s) (fun s =>
    '(s, c) ← need_lookahead flush MIN_LOOKAHEAD s;
    match c with Continue => fast_body s | _ => Some (s, c) end) s;
  match r with
  | Some b => Some (s, b)
  | None =>
      let s := s <| d_insert := if d_strstart s <? MIN_MATCH - 1 then d_strstart s else MIN_MATCH - 1 |> in
      end_block s flush (nz (t_last_lit (d_trees s)))
  end.

(** [do { if (++s->strstart <= max_insert) INSERT_STRING(...); } while (--s->prev_length != 0);] *)
Fixpoint insert_lazy (fuel : nat) (s : deflate_state) (max_insert : Z) : option deflate_state :=
  match fuel with
  | O => None
  | S fuel =>
      let s := s <| d_strstart := u32 (d_strstart s + 1) |> in
      s ← (if d_strstart s <=? max_insert then '(s, _) ← INSERT_STRING s (d_strstart s); Some s else Some s);
      let s := s <| d_prev_length := u32 (d_prev_length s - 1) |> in
      if d_prev_length s =? 0 then Some s else insert_lazy fuel s max_insert
  end.

(** The previous match is sent. *)
Definition slow_match_step (s : deflate_state) : option (deflate_state * ctl) :=
  let max_insert := u32 (d_strstart s + d_lookahead s - MIN_MATCH) in
  '(s, bflush) ← tally_dist s (u32 (d_strstart s - 1 - d_prev_match s)) (u32 (d_prev_length s - MIN_MATCH));
  let s := s <| d_lookahead := u32 (d_lookahead s - (d_prev_length s - 1)) |> <| d_prev_length := u32 (d_prev_length s - 2) |> in
  s ← insert_lazy (Z.to_nat (d_prev_length s)) s max_insert;
  flush_if (s <| d_match_available := 0 |> <| d_match_length := MIN_MATCH - 1 |> <| d_strstart := u32 (d_strstart s + 1) |>) bflush.

(** The search for a match at this position, with that of the previous one kept. *)
Definition slow_search (s : deflate_state) (hash_head : Z) : option deflate_state :=
  let s := s <| d_prev_length := d_match_length s |> <| d_prev_match := d_match_start s |> <| d_match_length := MIN_MATCH - 1 |> in
  if negb (hash_head =? NIL) && (d_prev_length s <? d_max_lazy_match s) && (u32 (d_strstart s - hash_head) <=? MAX_DIST s) then
    '(s, len) ← longest_match s hash_head;
    let too_far := (len =? MIN_MATCH) && (u32 (d_strstart s - d_match_start s) >? TOO_FAR) in
    Some (s <| d_match_length := if (len <=? 5) && ((t_strategy (d_trees s) =? Z_FILTERED) || too_far) then MIN_MATCH - 1 else len |>)
  else Some s.

Definition slow_body (s : deflate_state) : option (deflate_state * ctl) :=
  '(s, hash_head) ← insert_here s;
  s ← slow_search s hash_head;
  if (d_prev_length s >=? MIN_MATCH) && (d_match_length s <=? d_prev_length s) then slow_match_step s
  else if nz (d_match_available s) then
    c ← aget (d_window s) (d_strstart s - 1);
    '(s, bflush) ← tally_lit s c;
    s ← (if (bflush : bool) then FLUSH_BLOCK_ONLY s 0 else Some s);
    let s := s <| d_strstart := u32 (d_strstart s + 1) |> <| d_lookahead := u32 (d_lookahead s - 1) |> in
    Some (s, if z_avail_out (d_strm s) =? 0 then Return need_more else Continue)
  else
    Some (s <| d_match_available := 1 |> <| d_strstart := u32 (d_strstart s + 1) |> <| d_lookahead := u32 (d_lookahead s - 1) |>, Continue).

Definition deflate_slow (s : deflate_state) (flush : Z) : option (deflate_state * block_state) :=
  '(s, r) ← forever (input_fuel s) (fun s =>
    '(s, c) ← need_lookahead flush MIN_LOOKAHEAD s;
    match c with Continue => slow_body s | _ => Some (s, c) end) s;
  match r with
  | Some b => Some (s, b)
  | None =>
      s ← (if nz (d_match_available s) then
             c ← aget (d_window s) (d_strstart s - 1);
             '(s, _) ← tally_lit s c;
             Some (s <| d_match_available := 0 |>)
           else Some s);
      let s := s <| d_insert := if d_strstart s <? MIN_MATCH - 1 then d_strstart s else MIN_MATCH - 1 |> in
      end_block s flush (nz (t_last_lit (d_trees s)))
  end.

(** [prev == *++scan && ...], [k] times *)
Fixpoint run_ahead (k : nat) (window : list Z) (prev scan : Z) : option (bool * Z) :=
  match k with
  | O => Some (true, scan)
  | S k =>
      c ← aget window (scan + 1);
      if c =? prev then run_ahead k window prev (scan + 1) else Some (false, scan + 1)
  end.

Fixpoint run_loop (fuel : nat) (window : list Z) (prev scan strend : Z) : option Z :=
  match fuel with
  | O => None
  | S fuel =>
      '(eq, scan) ← run_ahead 8 window prev scan;
      if (eq : bool) && (scan <? strend) then run_loop fuel window prev scan strend else Some scan
  end.

(** How many times the previous byte repeats; 0 for less than three times. *)
Definition rle_length (s : deflate_state) : option Z :=
  if (d_lookahead s >=? MIN_MATCH) && (d_strstart s >? 0) then
    let scan := d_strstart s - 1 in
    prev ← aget (d_window s) scan;
    '(eq, scan) ← run_ahead 3 (d_window s) prev scan;
    if (eq : bool) then
      let strend := d_strstart s + MAX_MATCH in
      scan ← run_loop 33 (d_window s) prev scan strend;
      let len := MAX_MATCH - (strend - scan) in
      Some (if len >? d_lookahead s then d_lookahead s else len)
    else Some 0
  else Some 0.

Definition rle_body (s : deflate_state) : option (deflate_state * ctl) :=
  len ← rle_length s;
  let s := s <| d_match_length := len |> in
  '(s, bflush) ←
    (if d_match_length s >=? MIN_MATCH then
       '(s, bflush) ← tally_dist s 1 (u32 (d_match_length s - MIN_MATCH));
       Some (s <| d_lookahead := u32 (d_lookahead s - d_match_length s) |>
               <| d_strstart := u32 (d_strstart s + d_match_length s) |> <| d_match_length := 0 |>, bflush)
     else literal_step s);
  flush_if s bflush.

Definition deflate_rle (s : deflate_state) (flush : Z) : option (deflate_state * block_state) :=
  '(s, r) ← forever (input_fuel s) (fun s =>
    '(s, c) ← need_lookahead flush (MAX_MATCH + 1) s;
    match c with Continue => rle_body s | _ => Some (s, c) end) s;
  match r with
  | Some b => Some (s, b)
  | None => end_block (s <| d_insert := 0 |>) flush (nz (t_last_lit (d_trees s)))
  end.

Definition huff_step (flush : Z) (s : deflate_state) : option (deflate_state * ctl) :=
  let body s :=
    ('(s, bflush) ← literal_step (s <| d_match_length := 0 |>);
     flush_if s bflush) in
  if d_lookahead s =? 0 then
    s ← fill_window s;
    if d_lookahead s =? 0 then Some (s, if flush =? Z_NO_FLUSH then Return need_more else Break)
    else body s
  else body s.

Definition deflate_huff (s : deflate_state) (flush : Z) : option (deflate_state * block_state) :=
  '(s, r) ← forever (input_fuel s) (huff_step flush) s;
  match r with
  | Some b => Some (s, b)
  | None => end_block (s <| d_insert := 0 |>) flush (nz (t_last_lit (d_trees s)))
  end.

(** ** Initialisation *)
Definition lm_init (s : deflate_state) : option deflate_state :=
  s ← CLEAR_HASH (s <| d_window_size := u32 (2 * d_w_size s) |>);
  c ← aget configuration_table (t_level (d_trees s));
  Some (s <| d_max_lazy_match := max_lazy c |> <| d_good_match := good_length c |> <| d_nice_match := nice_length c |>
          <| d_max_chain_length := max_chain c |> <| d_strstart := 0 |> <| d_block_start := 0 |> <| d_lookahead := 0 |>
          <| d_insert := 0 |> <| d_match_length := MIN_MATCH - 1 |> <| d_prev_length := MIN_MATCH - 1 |>
          <| d_match_available := 0 |> <| d_ins_h := 0 |>).

(** [deflateResetKeep] for a stream with a state, with its allocation functions set. *)
Definition reset_keep (strm : z_stream) (s : deflate_state) : option deflate_state :=
  let wrap := if d_wrap s <? 0 then - d_wrap s else d_wrap s in
  let strm := strm <| z_total_in := 0 |> <| z_total_out := 0 |> <| z_msg := None |> <| z_data_type := Z_UNKNOWN |>
                   <| z_adler := if wrap =? 2 then crc32 0 None else adler32 0 None |> in
  trees ← tr_init ((d_trees s) <| t_w ::= upd w_pending (fun _ => 0) |> <| t_data_type := Z_UNKNOWN |>);
  Some (s <| d_strm := strm |> <| d_pending_out := 0 |> <| d_wrap := wrap |>
          <| d_status := if nz wrap then INIT_STATE else BUSY_STATE |> <| d_last_flush := Z_NO_FLUSH |> <| d_trees := trees |>).

(** The stream after a function that leaves the state [s]. *)
Definition with_state (s : deflate_state) : dstream := DStream (d_strm s) (Some s).

Definition deflateResetKeep (x : dstream) : option (dstream * Z) :=
  match x_state x with
  | Some s =>
      if z_zalloc (x_strm x) && z_zfree (x_strm x) then
        s ← reset_keep (x_strm x) s;
        Some (with_state s, Z_OK)
      else Some (x, Z_STREAM_ERROR)
  | None => Some (x, Z_STREAM_ERROR)
  end.

Definition deflateReset (x : dstream) : option (dstream * Z) :=
  '(x, ret) ← deflateResetKeep x;
  match x_state x with
  | Some s => if ret =? Z_OK then s ← lm_init s; Some (with_state s, ret) else Some (x, ret)
  | None => Some (x, ret)
  end.

Definition deflateEnd (x : dstream) : dstream * Z :=
  match x_state x with
  | None => (x, Z_STREAM_ERROR)
  | Some s =>
      if existsb (fun st => d_status s =? st) [INIT_STATE; EXTRA_STATE; NAME_STATE; COMMENT_STATE; HCRC_STATE; BUSY_STATE; FINISH_STATE]
      then (DStream (x_strm x) None, if d_status s =? BUSY_STATE then Z_DATA_ERROR else Z_OK)
      else (x, Z_STREAM_ERROR)
  end.

Section init.
(** The results of [zalloc], by the number of calls before: [None] is NULL. The array of [n] bytes or 16-bit values and the
    structure have arbitrary contents. *)
Context (zalloc : nat -> Z -> option (list Z)) (zalloc_state : nat -> option deflate_state).

(** [version] says whether the version and the size of the stream are those of the library. [strm->state] stays as it was until
    the structure is allocated; when another allocation fails, [deflateEnd()] makes it NULL. *)
Definition deflateInit2_ (x : dstream) (level method windowBits memLevel strategy : Z) (version : bool) : option (dstream * Z) :=
  if negb version then Some (x, Z_VERSION_ERROR)
  else
    let strm := (x_strm x) <| z_msg := None |> <| z_zalloc := true |> <| z_zfree := true |> in
    let level := if level =? Z_DEFAULT_COMPRESSION then 6 else level in
    let '(wrap, windowBits) :=
      if windowBits <? 0 then (0, - windowBits) else if windowBits >? 15 then (2, windowBits - 16) else (1, windowBits) in
    if (memLevel <? 1) || (memLevel >? MAX_MEM_LEVEL) || negb (method =? Z_DEFLATED) || (windowBits <? 8) || (windowBits >? 15) ||
       (level <? 0) || (level >? 9) || (strategy <? 0) || (strategy >? Z_FIXED)
    then Some (DStream strm (x_state x), Z_STREAM_ERROR)
    else
      let windowBits := if windowBits =? 8 then 9 else windowBits in
      let calls := z_calls strm in
      let strm := strm <| z_calls := S calls |> in
      match zalloc_state calls with
      | None => Some (DStream strm (x_state x), Z_MEM_ERROR)
      | Some s =>
          let w_size := 1 ≪ windowBits in
          let hash_bits := memLevel + 7 in
          let hash_size := 1 ≪ hash_bits in
          let lit_bufsize := 1 ≪ (memLevel + 6) in
          let s := s <| d_wrap := wrap |> <| d_gzhead := None |> <| d_w_bits := windowBits |> <| d_w_size := w_size |>
                     <| d_w_mask := w_size - 1 |> <| d_hash_bits := hash_bits |> <| d_hash_size := hash_size |>
                     <| d_hash_mask := hash_size - 1 |> <| d_hash_shift := (hash_bits + MIN_MATCH - 1) / MIN_MATCH |>
                     <| d_high_water := 0 |> <| d_pending_buf_size := u32 (lit_bufsize * 4) |> in
          let strm := strm <| z_calls := (calls + 5)%nat |> in
          match zalloc (calls + 1)%nat (2 * w_size), zalloc (calls + 2)%nat w_size, zalloc (calls + 3)%nat hash_size, zalloc (calls + 4)%nat (4 * lit_bufsize) with
          | Some window, Some prev, Some head, Some overlay =>
              let trees := (d_trees s) <| t_w ::= upd w_buf (fun _ => overlay) |> <| t_lit_bufsize := lit_bufsize |>
                                       <| t_level := level |> <| t_strategy := strategy |> in
              deflateReset (DStream strm (Some (s <| d_window := window |> <| d_prev := prev |> <| d_head := head |>
                <| d_trees := trees |> <| d_method := method |>)))
          | _, _, _, _ => Some (DStream (strm <| z_msg := Some (ERR_MSG Z_MEM_ERROR) |>) None, Z_MEM_ERROR)
          end
      end.

Definition deflateInit_ (x : dstream) (level : Z) (version : bool) : option (dstream * Z) :=
  deflateInit2_ x level Z_DEFLATED 15 DEF_MEM_LEVEL Z_DEFAULT_STRATEGY version.

(** [dest] is overwritten with [source]. *)
Definition deflateCopy (source : dstream) : dstream * Z :=
  match x_state source with
  | None => (source, Z_STREAM_ERROR)
  | Some ss =>
      let strm := x_strm source in
      let calls := z_calls strm in
      match zalloc_state calls with
      | None => (DStream (strm <| z_calls := S calls |>) (Some ss), Z_MEM_ERROR)
      | Some _ =>
          let strm := strm <| z_calls := (calls + 5)%nat |> in
          match zalloc (calls + 1)%nat (2 * d_w_size ss), zalloc (calls + 2)%nat (d_w_size ss), zalloc (calls + 3)%nat (d_hash_size ss),
                zalloc (calls + 4)%nat (4 * t_lit_bufsize (d_trees ss)) with
          | Some _, Some _, Some _, Some _ => (DStream strm (Some (ss <| d_strm := strm |>)), Z_OK)
          | _, _, _, _ => (DStream strm None, Z_MEM_ERROR)
          end
      end
  end.
End init.

(** ** Parameters *)
Definition deflateSetHeader (x : dstream) (head : option gz_header) : dstream * Z :=
  match x_state x with
  | Some s => if d_wrap s =? 2 then (DStream (x_strm x) (Some (s <| d_gzhead := head |>)), Z_OK) else (x, Z_STREAM_ERROR)
  | None => (x, Z_STREAM_ERROR)
  end.

(** The values of [*pending] and [*bits]. *)
Definition deflatePending (x : dstream) : option (Z * Z) * Z :=
  match x_state x with
  | Some s => (Some (d_pending s, w_bi_valid (t_w (d_trees s))), Z_OK)
  | None => (None, Z_STREAM_ERROR)
  end.

(** [do { ... } while (bits);] *)
Fixpoint prime_loop (fuel : nat) (s : deflate_state) (bits value : Z) : option deflate_state :=
  match fuel with
  | O => None
  | S fuel =>
      let w := t_w (d_trees s) in
      let put := Buf_size - w_bi_valid w in
      let put := if put >? bits then bits else put in
      one ← shl_int 1 put;
      v ← shl_int (value .& (one - 1)) (w_bi_valid w);
      let w := w <| w_bi_buf := w_bi_buf w .| u16 v |> <| w_bi_valid := w_bi_valid w + put |> in
      trees ← tr_flush_bits ((d_trees s) <| t_w := w |>);
      value ← shr_int value put;
      let s := s <| d_trees := trees |> in
      if bits - put =? 0 then Some s else prime_loop fuel s (bits - put) value
  end.

Definition deflatePrime (x : dstream) (bits value : Z) : option (dstream * Z) :=
  match x_state x with
  | None => Some (x, Z_STREAM_ERROR)
  | Some s =>
      if t_lit_bufsize (d_trees s) <? d_pending_out s + ((Buf_size + 7) ≫ 3) then Some (x, Z_BUF_ERROR)
      else
        s ← prime_loop (S (Z.to_nat bits)) s bits value;
        Some (DStream (x_strm x) (Some s), Z_OK)
  end.

Definition deflateTune (x : dstream) (good_length max_lazy nice_length max_chain : Z) : dstream * Z :=
  match x_state x with
  | Some s =>
      (DStream (x_strm x) (Some (s <| d_good_match := u32 good_length |> <| d_max_lazy_match := u32 max_lazy |>
        <| d_nice_match := nice_length |> <| d_max_chain_length := u32 max_chain |>)), Z_OK)
  | None => (x, Z_STREAM_ERROR)
  end.

(** ** The gzip header *)

(** [if (s->gzhead->hcrc && s->pending > beg) strm->adler = crc32(...);] *)
Definition header_crc (s : deflate_state) (h : gz_header) (beg : Z) : option deflate_state :=
  if nz (h_hcrc h) && (d_pending s >? beg) then
    buf ← slice (w_buf (t_w (d_trees s))) beg (d_pending s - beg);
    Some (s <| d_strm ::= upd z_adler (fun adler => crc32 adler (Some buf)) |>)
  else Some s.

(** [if (s->pending == s->pending_buf_size) { ... }]: the new [beg], and whether the buffer is still full *)
Definition make_room (s : deflate_state) (h : gz_header) (beg : Z) : option (deflate_state * Z * bool) :=
  if d_pending s =? d_pending_buf_size s then
    s ← header_crc s h beg;
    s ← flush_pending s;
    Some (s, d_pending s, d_pending s =? d_pending_buf_size s)
  else Some (s, beg, false).

(** [while (s->gzindex < (s->gzhead->extra_len & 0xffff)) { ... }] *)
Fixpoint extra_loop (fuel : nat) (s : deflate_state) (h : gz_header) (extra : list Z) (beg : Z) : option (deflate_state * Z) :=
  match fuel with
  | O => None
  | S fuel =>
      if d_gzindex s <? h_extra_len h .& 0xffff then
        '(s, beg, full) ← make_room s h beg;
        if (full : bool) then Some (s, beg)
        else
          c ← aget extra (d_gzindex s);
          s ← dput_byte s c;
          extra_loop fuel (s <| d_gzindex := u32 (d_gzindex s + 1) |>) h extra beg
      else Some (s, beg)
  end.

(** [do { ... } while (val != 0);]: the result ends with [val] *)
Fixpoint string_loop (fuel : nat) (s : deflate_state) (h : gz_header) (str : list Z) (beg : Z) : option (deflate_state * Z * Z) :=
  match fuel with
  | O => None
  | S fuel =>
      '(s, beg, full) ← make_room s h beg;
      if (full : bool) then Some (s, beg, 1)
      else
        val ← aget str (d_gzindex s);
        s ← dput_byte (s <| d_gzindex := u32 (d_gzindex s + 1) |>) val;
        if nz val then string_loop fuel s h str beg else Some (s, beg, val)
  end.

Definition extra_state (s : deflate_state) : option deflate_state :=
  if d_status s =? EXTRA_STATE then
    h ← d_gzhead s;
    match h_extra h with
    | Some extra =>
        '(s, beg) ← extra_loop (S (Z.to_nat (h_extra_len h))) s h extra (d_pending s);
        s ← header_crc s h beg;
        Some (if d_gzindex s =? h_extra_len h then s <| d_gzindex := 0 |> <| d_status := NAME_STATE |> else s)
    | None => Some (s <| d_status := NAME_STATE |>)
    end
  else Some s.

(** The states NAME_STATE and COMMENT_STATE, which differ in the string and in what follows. *)
Definition string_state (s : deflate_state) (status next : Z) (get : gz_header -> option (list Z)) (reset : bool) : option deflate_state :=
  if d_status s =? status then
    h ← d_gzhead s;
    match get h with
    | Some str =>
        '(s, beg, val) ← string_loop (S (length str)) s h str (d_pending s);
        s ← header_crc s h beg;
        Some (if val =? 0 then (if reset then s <| d_gzindex := 0 |> else s) <| d_status := next |> else s)
    | None => Some (s <| d_status := next |>)
    end
  else Some s.

Definition hcrc_state (s : deflate_state) : option deflate_state :=
  if d_status s =? HCRC_STATE then
    h ← d_gzhead s;
    if nz (h_hcrc h) then
      s ← (if u32 (d_pending s + 2) >? d_pending_buf_size s then flush_pending s else Some s);
      if u32 (d_pending s + 2) <=? d_pending_buf_size s then
        let adler := z_adler (d_strm s) in
        s ← dput_bytes s [adler .& 0xff; (adler ≫ 8) .& 0xff];
        Some (s <| d_strm ::= upd z_adler (fun _ => crc32 0 None) |> <| d_status := BUSY_STATE |>)
      else Some s
    else Some (s <| d_status := BUSY_STATE |>)
  else Some s.

(** The extra flags of a gzip header. *)
Definition xfl (s : deflate_state) : Z :=
  if t_level (d_trees s) =? 9 then 2
  else if (t_strategy (d_trees s) >=? Z_HUFFMAN_ONLY) || (t_level (d_trees s) <? 2) then 4 else 0.

Definition gzip_header (s : deflate_state) : option deflate_state :=
  let s := s <| d_strm ::= upd z_adler (fun _ => crc32 0 None) |> in
  s ← dput_bytes s [31; 139; 8];
  match d_gzhead s with
  | None =>
      s ← dput_bytes s [0; 0; 0; 0; 0; xfl s; OS_CODE];
      Some (s <| d_status := BUSY_STATE |>)
  | Some h =>
      let flag {A} (x : option A) n := match x with Some _ => n | None => 0 end in
      s ← dput_bytes s
        [(if nz (h_text h) then 1 else 0) + (if nz (h_hcrc h) then 2 else 0) + flag (h_extra h) 4 + flag (h_name h) 8 + flag (h_comment h) 16;
         h_time h .& 0xff; (h_time h ≫ 8) .& 0xff; (h_time h ≫ 16) .& 0xff; (h_time h ≫ 24) .& 0xff; xfl s; h_os h .& 0xff];
      s ← (match h_extra h with
           | Some _ => dput_bytes s [h_extra_len h .& 0xff; (h_extra_len h ≫ 8) .& 0xff]
           | None => Some s
           end);
      s ← (if nz (h_hcrc h) then
             buf ← slice (w_buf (t_w (d_trees s))) 0 (d_pending s);
             Some (s <| d_strm ::= upd z_adler (fun adler => crc32 adler (Some buf)) |>)
           else Some s);
      Some (s <| d_gzindex := 0 |> <| d_status := EXTRA_STATE |>)
  end.

(** ** The zlib header *)
Definition zlib_header_word (s : deflate_state) : Z :=
  let level := t_level (d_trees s) in
  let header := (Z_DEFLATED + ((d_w_bits s - 8) ≪ 4)) ≪ 8 in
  let level_flags :=
    if (t_strategy (d_trees s) >=? Z_HUFFMAN_ONLY) || (level <? 2) then 0
    else if level <? 6 then 1 else if level =? 6 then 2 else 3 in
  let header := header .| (level_flags ≪ 6) in
  let header := if negb (d_strstart s =? 0) then header .| PRESET_DICT else header in
  header + (31 - header mod 31).

Definition zlib_header (s : deflate_state) : option deflate_state :=
  let adler := z_adler (d_strm s) in
  s ← putShortMSB (s <| d_status := BUSY_STATE |>) (zlib_header_word s);
  s ← (if negb (d_strstart s =? 0) then s ← putShortMSB s (adler ≫ 16); putShortMSB s (adler .& 0xffff) else Some s);
  Some (s <| d_strm ::= upd z_adler (fun _ => adler32 0 None) |>).

(** The header, in all the states before [BUSY_STATE]. *)
Definition write_header (s : deflate_state) : option deflate_state :=
  s ← (if d_status s =? INIT_STATE then if d_wrap s =? 2 then gzip_header s else zlib_header s else Some s);
  s ← extra_state s;
  s ← string_state s NAME_STATE COMMENT_STATE h_name true;
  s ← string_state s COMMENT_STATE HCRC_STATE h_comment false;
  hcrc_state s.
