(* ===== verification/DeflateApi.v ===== *)
(** Model of [src/zlib/deflate.c], continued: [deflate] itself, and the functions that call it or fill the window. *)
From S2P Require Import Prelude Record Adler32 Crc32 InflateState TreesTables Trees DeflateState Deflate.

(** ** deflate *)

(** The order of the flush values. *)
Definition RANK (f : Z) : Z := 2 * f - (if f >? 4 then 9 else 0).

(** [ERR_RETURN(strm, err)], before and after [s->strm = strm] *)
Definition err_return (x : dstream) (err : Z) : option (dstream * Z) :=
  Some (DStream ((x_strm x) <| z_msg := Some (ERR_MSG err) |>) (x_state x), err).
Definition with_msg (s : deflate_state) (err : Z) : deflate_state := s <| d_strm ::= upd z_msg (fun _ => Some (ERR_MSG err)) |>.

(** The output that waits is written, and the call is refused if there is nothing to do. The second component is the result
    if [deflate] returns. *)
Definition flush_first (s : deflate_state) (flush old_flush : Z) : option (deflate_state * option Z) :=
  if negb (d_pending s =? 0) then
    s ← flush_pending s;
    Some (if z_avail_out (d_strm s) =? 0 then (s <| d_last_flush := -1 |>, Some Z_OK)
          else if (d_status s =? FINISH_STATE) && negb (z_avail_in (d_strm s) =? 0) then (with_msg s Z_BUF_ERROR, Some Z_BUF_ERROR)
          else (s, None))
  else
    Some (if (z_avail_in (d_strm s) =? 0) && (RANK flush <=? RANK old_flush) && negb (flush =? Z_FINISH)
          then (with_msg s Z_BUF_ERROR, Some Z_BUF_ERROR)
          else if (d_status s =? FINISH_STATE) && negb (z_avail_in (d_strm s) =? 0) then (with_msg s Z_BUF_ERROR, Some Z_BUF_ERROR)
          else (s, None)).

(** The compression function of the strategy and the level. *)
Definition compress_with (s : deflate_state) (flush : Z) : option (deflate_state * block_state) :=
  if t_strategy (d_trees s) =? Z_HUFFMAN_ONLY then deflate_huff s flush
  else if t_strategy (d_trees s) =? Z_RLE then deflate_rle s flush
  else
    c ← aget configuration_table (t_level (d_trees s));
    match func c with
    | use_stored => deflate_stored s flush
    | use_fast => deflate_fast s flush
    | use_slow => deflate_slow s flush
    end.

(** [if (bstate == block_done) { ... }]: the marker of a flush *)
Definition flush_marker (s : deflate_state) (flush : Z) : option deflate_state :=
  s ← (if flush =? Z_PARTIAL_FLUSH then trees ← tr_align (d_trees s); Some (s <| d_trees := trees |>)
       else if negb (flush =? Z_BLOCK) then
         trees ← tr_stored_block (d_trees s) [] 0 0;
         let s := s <| d_trees := trees |> in
         if flush =? Z_FULL_FLUSH then
           s ← CLEAR_HASH s;
           Some (if d_lookahead s =? 0 then s <| d_strstart := 0 |> <| d_block_start := 0 |> <| d_insert := 0 |> else s)
         else Some s
       else Some s);
  flush_pending s.

(** [if (strm->avail_out == 0) s->last_flush = -1;] *)
Definition forget_flush (s : deflate_state) : deflate_state := if z_avail_out (d_strm s) =? 0 then s <| d_last_flush := -1 |> else s.

(** A new block is started or the current one continued. *)
Definition deflate_blocks (s : deflate_state) (flush : Z) : option (deflate_state * option Z) :=
  if negb (z_avail_in (d_strm s) =? 0) || negb (d_lookahead s =? 0) || (negb (flush =? Z_NO_FLUSH) && negb (d_status s =? FINISH_STATE)) then
    '(s, bstate) ← compress_with s flush;
    match bstate with
    | need_more => Some (forget_flush s, Some Z_OK)
    | finish_started => Some (forget_flush (s <| d_status := FINISH_STATE |>), Some Z_OK)
    | finish_done => Some (s <| d_status := FINISH_STATE |>, None)
    | block_done =>
        s ← flush_marker s flush;
        Some (forget_flush s, if z_avail_out (d_strm s) =? 0 then Some Z_OK else None)
    end
  else Some (s, None).

(** The trailer. *)
Definition write_trailer (s : deflate_state) (flush : Z) : option (deflate_state * Z) :=
  if negb (flush =? Z_FINISH) then Some (s, Z_OK)
  else if d_wrap s <=? 0 then Some (s, Z_STREAM_END)
  else
    let adler := z_adler (d_strm s) in
    let total_in := z_total_in (d_strm s) in
    s ← (if d_wrap s =? 2 then
           dput_bytes s [adler .& 0xff; (adler ≫ 8) .& 0xff; (adler ≫ 16) .& 0xff; (adler ≫ 24) .& 0xff;
                         total_in .& 0xff; (total_in ≫ 8) .& 0xff; (total_in ≫ 16) .& 0xff; (total_in ≫ 24) .& 0xff]
         else s ← putShortMSB s (adler ≫ 16); putShortMSB s (adler .& 0xffff));
    s ← flush_pending s;
    let s := if d_wrap s >? 0 then s <| d_wrap := - d_wrap s |> else s in
    Some (s, if negb (d_pending s =? 0) then Z_OK else Z_STREAM_END).

(** The part of [deflate] after the checks of its arguments. *)
Definition deflate_run (s : deflate_state) (flush old_flush : Z) : option (deflate_state * Z) :=
  s ← write_header s;
  '(s, r) ← flush_first s flush old_flush;
  match r with
  | Some ret => Some (s, ret)
  | None =>
      '(s, r) ← deflate_blocks s flush;
      match r with
      | Some ret => Some (s, ret)
      | None => write_trailer s flush
      end
  end.

Definition is_null {A} (p : option A) : bool := match p with Some _ => false | None => true end.

Definition deflate (x : dstream) (flush : Z) : option (dstream * Z) :=
  match x_state x with
  | None => Some (x, Z_STREAM_ERROR)
  | Some s =>
      if (flush >? Z_BLOCK) || (flush <? 0) then Some (x, Z_STREAM_ERROR)
      else
        let strm := x_strm x in
        if is_null (z_out strm) || (is_null (z_in strm) && negb (z_avail_in strm =? 0)) ||
           ((d_status s =? FINISH_STATE) && negb (flush =? Z_FINISH)) then err_return x Z_STREAM_ERROR
        else if z_avail_out strm =? 0 then err_return x Z_BUF_ERROR
        else
          '(s, ret) ← deflate_run (s <| d_strm := strm |> <| d_trees ::= upd t_data_type (fun _ => z_data_type strm) |>
                                     <| d_last_flush := flush |>) flush (d_last_flush s);
          Some (with_state s, ret)
  end.

(** ** Parameters *)

(** [if (s->level != level) { ... } s->strategy = strategy;] *)
Definition set_params (s : deflate_state) (level strategy : Z) : option deflate_state :=
  s ← (if negb (t_level (d_trees s) =? level) then
         c ← aget configuration_table level;
         Some (s <| d_trees ::= upd t_level (fun _ => level) |> <| d_max_lazy_match := max_lazy c |> <| d_good_match := good_length c |>
                 <| d_nice_match := nice_length c |> <| d_max_chain_length := max_chain c |>)
       else Some s);
  Some (s <| d_trees ::= upd t_strategy (fun _ => strategy) |>).

Definition deflateParams (x : dstream) (level strategy : Z) : option (dstream * Z) :=
  match x_state x with
  | None => Some (x, Z_STREAM_ERROR)
  | Some s =>
      let level := if level =? Z_DEFAULT_COMPRESSION then 6 else level in
      if (level <? 0) || (level >? 9) || (strategy <? 0) || (strategy >? Z_FIXED) then Some (x, Z_STREAM_ERROR)
      else
        old ← aget configuration_table (t_level (d_trees s));
        new ← aget configuration_table level;
        '(x, err) ←
          (if (negb (strategy =? t_strategy (d_trees s)) || negb (bool_decide (func old = func new))) && negb (z_total_in (x_strm x) =? 0) then
             '(x, err) ← deflate x Z_BLOCK;
             s ← x_state x;
             Some (x, if (err =? Z_BUF_ERROR) && (d_pending s =? 0) then Z_OK else err)
           else Some (x, Z_OK));
        s ← x_state x;
        s ← set_params s level strategy;
        Some (DStream (x_strm x) (Some s), err)
  end.

(** [do { wraplen++; } while ( *str++ );]: the length of a string with its zero *)
Fixpoint string_size (str : list Z) : option Z :=
  match str with
  | [] => None
  | c :: str => if c =? 0 then Some 1 else n ← string_size str; Some (n + 1)
  end.
Definition opt_string_size (str : option (list Z)) : option Z := match str with Some str => string_size str | None => Some 0 end.

(** The size of the header and of the trailer. *)
Definition wrap_length (s : deflate_state) : option Z :=
  if d_wrap s =? 0 then Some 0
  else if d_wrap s =? 1 then Some (6 + (if negb (d_strstart s =? 0) then 4 else 0))
  else if d_wrap s =? 2 then
    match d_gzhead s with
    | None => Some 18
    | Some h =>
        name ← opt_string_size (h_name h);
        comment ← opt_string_size (h_comment h);
        Some (u32 (18 + (match h_extra h with Some _ => 2 + h_extra_len h | None => 0 end) + name + comment + (if nz (h_hcrc h) then 2 else 0)))
    end
  else Some 6.

(** [uLong] has 32 bits. *)
Definition deflateBound (x : dstream) (sourceLen : Z) : option Z :=
  let complen := u32 (sourceLen + (u32 (sourceLen + 7) ≫ 3) + (u32 (sourceLen + 63) ≫ 6) + 5) in
  match x_state x with
  | None => Some (u32 (complen + 6))
  | Some s =>
      wraplen ← wrap_length s;
      if negb (d_w_bits s =? 15) || negb (d_hash_bits s =? 8 + 7) then Some (u32 (complen + wraplen))
      else Some (u32 (sourceLen + (sourceLen ≫ 12) + (sourceLen ≫ 14) + (sourceLen ≫ 25) + 13 - 6 + wraplen))
  end.

(** ** The dictionary *)

(** [do { UPDATE_HASH(...); ...; str++; } while (--n);] *)
Fixpoint dict_loop (n : nat) (s : deflate_state) (str : Z) : option (deflate_state * Z) :=
  match n with
  | O => Some (s, str)
  | S n => '(s, _) ← INSERT_STRING s str; dict_loop n s (str + 1)
  end.

(** [while (s->lookahead >= MIN_MATCH) { ... }] *)
Fixpoint dict_fill (fuel : nat) (s : deflate_state) : option deflate_state :=
  match fuel with
  | O => None
  | S fuel =>
      if d_lookahead s >=? MIN_MATCH then
        '(s, str) ← dict_loop (Z.to_nat (d_lookahead s - (MIN_MATCH - 1))) s (d_strstart s);
        s ← fill_window (s <| d_strstart := str |> <| d_lookahead := MIN_MATCH - 1 |>);
        dict_fill fuel s
      else Some s
  end.

(** [dictionary] is not NULL and has [dictLength] bytes. *)
Definition deflateSetDictionary (x : dstream) (dictionary : list Z) : option (dstream * Z) :=
  match x_state x with
  | None => Some (x, Z_STREAM_ERROR)
  | Some s =>
      let wrap := d_wrap s in
      let dictLength := Z.of_nat (length dictionary) in
      if (wrap =? 2) || ((wrap =? 1) && negb (d_status s =? INIT_STATE)) || nz (d_lookahead s) then Some (x, Z_STREAM_ERROR)
      else
        let strm := x_strm x in
        let strm := if wrap =? 1 then strm <| z_adler ::= fun adler => adler32 adler (Some dictionary) |> else strm in
        let s := s <| d_wrap := 0 |> in
        '(s, dictionary) ←
          (if dictLength >=? d_w_size s then
             s ← (if wrap =? 0 then s ← CLEAR_HASH s; Some (s <| d_strstart := 0 |> <| d_block_start := 0 |> <| d_insert := 0 |>) else Some s);
             Some (s, drop (Z.to_nat (dictLength - d_w_size s)) dictionary)
           else Some (s, dictionary));
        let s := s <| d_strm := strm <| z_avail_in := Z.of_nat (length dictionary) |> <| z_in := Some dictionary |> <| z_next_in := 0 |> |> in
        s ← fill_window s;
        s ← dict_fill (S (length dictionary)) s;
        let s := s <| d_strstart := u32 (d_strstart s + d_lookahead s) |> in
        Some (with_state (s <| d_block_start := d_strstart s |> <| d_insert := d_lookahead s |> <| d_lookahead := 0 |>
                            <| d_match_length := MIN_MATCH - 1 |> <| d_prev_length := MIN_MATCH - 1 |> <| d_match_available := 0 |>
                            <| d_strm ::= fun z => z <| z_in := z_in strm |> <| z_next_in := z_next_in strm |> <| z_avail_in := z_avail_in strm |> |>
                            <| d_wrap := wrap |>), Z_OK)
  end.
