(* ===== verification/DeflateOut.v ===== *)
(** The output of the compressor: [flush_pending()] delivers the bits written so far, first to last, and loses none. *)
From S2P Require Import Prelude Record Bits InflateState TreesTables Trees BitWriter DeflateState Deflate.

(** ** Records *)
Ltac dsimp := cbn [upd set_d_strm set_d_status set_d_pending_buf_size set_d_pending_out set_d_wrap set_d_gzhead set_d_gzindex
  set_d_method set_d_last_flush set_d_w_size set_d_w_bits set_d_w_mask set_d_window set_d_window_size set_d_prev set_d_head
  set_d_ins_h set_d_hash_size set_d_hash_bits set_d_hash_mask set_d_hash_shift set_d_block_start set_d_match_length
  set_d_prev_match set_d_match_available set_d_strstart set_d_match_start set_d_lookahead set_d_prev_length
  set_d_max_chain_length set_d_max_lazy_match set_d_good_match set_d_nice_match set_d_insert set_d_high_water set_d_trees
  d_strm d_status d_pending_buf_size d_pending_out d_wrap d_gzhead d_gzindex d_method d_last_flush d_w_size d_w_bits
  d_w_mask d_window d_window_size d_prev d_head d_ins_h d_hash_size d_hash_bits d_hash_mask d_hash_shift d_block_start
  d_match_length d_prev_match d_match_available d_strstart d_match_start d_lookahead d_prev_length d_max_chain_length
  d_max_lazy_match d_good_match d_nice_match d_insert d_high_water d_trees
  set_z_in set_z_next_in set_z_avail_in set_z_total_in set_z_out set_z_next_out set_z_avail_out set_z_total_out set_z_msg
  set_z_data_type set_z_adler z_in z_next_in z_avail_in z_total_in z_out z_next_out z_avail_out z_total_out z_msg
  z_state z_zalloc z_zfree z_calls z_data_type z_adler
  set_t_w t_w set_w_buf set_w_pending w_buf w_pending w_bi_buf w_bi_valid mbind option_bind fst snd].
Tactic Notation "dsimp" "in" hyp(H) := revert H; dsimp; intros H.

(** ** Memory *)
Lemma aget_bytes_at l j n k : 0 <= j -> 0 <= k < n -> aget (bytes_at l j n) k = aget l (j + k).
Proof.
  intros Hj Hk. unfold bytes_at. rewrite aget_take by lia. rewrite aget_drop by lia. f_equal. lia.
Qed.
Lemma slice_eq (l : list Z) j n : 0 <= j -> 0 <= n -> j + n <= Z.of_nat (length l) -> slice l j n = Some (bytes_at l j n).
Proof.
  intros H1 H2 H3. unfold slice. destruct (Z.leb_spec 0 j), (Z.leb_spec 0 n), (Z.leb_spec (j + n) (Z.of_nat (length l))); (lia || done).
Qed.
Lemma length_bytes_in l j n : 0 <= j -> 0 <= n -> j + n <= Z.of_nat (length l) -> Z.of_nat (length (bytes_at l j n)) = n.
Proof. intros. unfold bytes_at. rewrite length_take, length_drop. lia. Qed.

(** [n] elements of [dst] from [i] on replaced. *)
Lemma aget_splice (dst mid : list Z) i n k :
  0 <= i -> i + n <= Z.of_nat (length dst) -> Z.of_nat (length mid) = n ->
  aget (take (Z.to_nat i) dst ++ mid ++ drop (Z.to_nat (i + n)) dst) k = if (i <=? k) && (k <? i + n) then aget mid (k - i) else aget dst k.
Proof.
  intros Hi Hn Hm. unfold aget. destruct (Z.leb_spec i k); cbn [andb].
  - destruct (Z.leb_spec 0 k); [|lia]. rewrite lookup_app_r by (rewrite length_take; lia). rewrite length_take. destruct (Z.ltb_spec k (i + n)).
    + destruct (Z.leb_spec 0 (k - i)); [|lia]. rewrite lookup_app_l by lia. f_equal. lia.
    + rewrite lookup_app_r by lia. rewrite lookup_drop. f_equal. lia.
  - destruct (Z.leb_spec 0 k); [|done]. rewrite lookup_app_l by (rewrite length_take; lia). apply lookup_take_lt. lia.
Qed.
Lemma length_splice (dst mid : list Z) i n :
  0 <= i -> i + n <= Z.of_nat (length dst) -> Z.of_nat (length mid) = n -> length (take (Z.to_nat i) dst ++ mid ++ drop (Z.to_nat (i + n)) dst) = length dst.
Proof. intros. rewrite !length_app, length_take, length_drop. lia. Qed.

Lemma memcpy_aget dst i src j n :
  0 <= i -> 0 <= j -> 0 <= n -> i + n <= Z.of_nat (length dst) -> j + n <= Z.of_nat (length src) ->
  exists d, memcpy dst i src j n = Some d /\ length d = length dst /\
    forall k, aget d k = if (i <=? k) && (k <? i + n) then aget src (j + k - i) else aget dst k.
Proof.
  intros H1 H2 H3 H4 H5. unfold memcpy. rewrite slice_eq by done. cbn [mbind option_bind].
  destruct (Z.leb_spec 0 i), (Z.leb_spec (i + n) (Z.of_nat (length dst))); try lia. cbn [andb]. assert (Hl := length_bytes_in src j n H2 H3 H5).
  eexists. split; [done|]. split; [by apply length_splice|]. intros k. rewrite aget_splice by done.
  destruct (Z.leb_spec i k), (Z.ltb_spec k (i + n)); try done. cbn [andb]. rewrite aget_bytes_at by lia. f_equal. lia.
Qed.

Lemma zmemzero_aget l i n :
  0 <= i -> 0 <= n -> i + n <= Z.of_nat (length l) ->
  exists l', zmemzero l i n = Some l' /\ length l' = length l /\ forall k, aget l' k = if (i <=? k) && (k <? i + n) then Some 0 else aget l k.
Proof.
  intros H1 H2 H3. unfold zmemzero. destruct (Z.leb_spec 0 i), (Z.leb_spec 0 n), (Z.leb_spec (i + n) (Z.of_nat (length l))); try lia. cbn [andb].
  assert (Hl : Z.of_nat (length (replicate (Z.to_nat n) 0)) = n) by (rewrite length_replicate; lia).
  eexists. split; [done|]. split; [by apply length_splice|]. intros k. rewrite aget_splice by done.
  destruct (Z.leb_spec i k), (Z.ltb_spec k (i + n)); try done. cbn [andb]. unfold aget. destruct (Z.leb_spec 0 (k - i)); [|lia]. apply lookup_replicate. split; [done|lia].
Qed.

(** Equal elements make equal lists of bytes. *)
Lemma bytes_at_ext l l' j j' n :
  0 <= j -> 0 <= j' -> (forall k, 0 <= k < n -> aget l (j + k) = aget l' (j' + k)) -> bytes_at l j n = bytes_at l' j' n.
Proof.
  intros Hj Hj' H. apply list_eq. intros k. destruct (decide (Z.of_nat k < n)).
  - rewrite <- !aget_nat, !aget_bytes_at by lia. apply H. lia.
  - unfold bytes_at. rewrite !lookup_take_ge by lia. done.
Qed.

(** ** The bits that wait *)
Definition obytes (s : deflate_state) : list Z := bytes_at (w_buf (t_w (d_trees s))) (d_pending_out s) (d_pending s).
Definition obits (s : deflate_state) : bitstr :=
  (le (obytes s) + 2 ^ (8 * d_pending s) * w_bi_buf (t_w (d_trees s)), 8 * d_pending s + w_bi_valid (t_w (d_trees s))).
Definition bytes_bits (l : list Z) : bitstr := (le l, 8 * Z.of_nat (length l)).

Lemma bytes_bits_ok l : Forall byte_ok l -> bits_ok (bytes_bits l).
Proof. intros H. split; cbn; [lia|]. by apply le_range. Qed.
Lemma bytes_bits_app x y : bytes_bits (x ++ y) = bytes_bits x ·· bytes_bits y.
Proof. unfold bytes_bits, bcat. cbn. rewrite le_app, length_app. f_equal. lia. Qed.

(** The output of the stream and of the bit buffer. Bits are added only when [pending_out] is at the start of its buffer. *)
Record out_ok (s : deflate_state) : Prop := {
  oo_writer : writer_ok (t_w (d_trees s));
  oo_room : (wbits (t_w (d_trees s))).2 <= 8 * Z.of_nat (length (w_buf (t_w (d_trees s))));
  oo_pending : 0 <= d_pending_out s /\ d_pending_out s + d_pending s <= Z.of_nat (length (w_buf (t_w (d_trees s))));
  oo_bytes : Forall byte_ok (obytes s);
  oo_start : d_pending_out s = 0 \/ w_bi_valid (t_w (d_trees s)) < 8;
  oo_zero : d_pending s = 0 -> d_pending_out s = 0;
  oo_out : 0 <= z_next_out (d_strm s) /\ 0 <= z_avail_out (d_strm s) < 2 ^ 32 /\
    z_next_out (d_strm s) + z_avail_out (d_strm s) <= Z.of_nat (length (out_buf (d_strm s))) }.

(** Everything waiting has been delivered but for less than eight bits. *)
Definition drained (s : deflate_state) : Prop := d_pending s = 0 /\ d_pending_out s = 0 /\ w_bi_valid (t_w (d_trees s)) < 8.

(** The bits that are not yet a byte. *)
Definition low (s : deflate_state) : Prop := w_bi_valid (t_w (d_trees s)) < 8.

Lemma obits_start s : d_pending_out s = 0 -> obits s = wbits (t_w (d_trees s)).
Proof. intros E. unfold obits, obytes, wbits, wbytes, bytes_at, d_pending. rewrite E. done. Qed.
Lemma obits_ok s : out_ok s -> bits_ok (obits s).
Proof.
  intros [[Hp _ Hv Hb _] _ [Hp1 Hp2] Hy _ _ _]. unfold obits, bits_ok. cbn [fst snd]. assert (Hr := le_range _ Hy).
  unfold obytes in *. rewrite length_bytes_in in Hr by (try done; apply Hp). unfold d_pending in *. split; [lia|]. rewrite Z.pow_add_r by lia. nia.
Qed.

(** From [s] to [s'] the bits [b] were written: what was delivered in between and what waits in the end are together what
    waited at first, and [b]. *)
Definition outputs (s : deflate_state) (b : bitstr) (s' : deflate_state) : Prop :=
  let z := d_strm s in let z' := d_strm s' in
  exists bs, Forall byte_ok bs /\ bytes_bits bs ·· obits s' = obits s ·· b /\
    z_next_out z' = z_next_out z + Z.of_nat (length bs) /\ z_avail_out z' = z_avail_out z - Z.of_nat (length bs) /\
    u32 (z_total_out z') = u32 (z_total_out z + Z.of_nat (length bs)) /\ length (out_buf z') = length (out_buf z) /\
    forall k, aget (out_buf z') k = if (z_next_out z <=? k) && (k <? z_next_out z') then aget bs (k - z_next_out z) else aget (out_buf z) k.

Lemma outputs_refl s : outputs s bnil s.
Proof.
  exists []. split; [done|]. split; [by rewrite bcat_nil_r, bcat_nil_l|]. cbn [length]. rewrite !Z.add_0_r, Z.sub_0_r. split_and!; try done.
  intros k. by destruct (Z.leb_spec (z_next_out (d_strm s)) k), (Z.ltb_spec k (z_next_out (d_strm s))); try lia.
Qed.

Lemma outputs_trans s a s1 b s2 :
  out_ok s -> out_ok s1 -> out_ok s2 -> bits_ok a -> bits_ok b -> outputs s a s1 -> outputs s1 b s2 -> outputs s (a ·· b) s2.
Proof.
  intros H0 H1 H2 Ha Hb (x & Hx & Ex & X1 & X2 & X3 & X4 & X5) (y & Hy & Ey & Y1 & Y2 & Y3 & Y4 & Y5).
  assert (Bx := bytes_bits_ok _ Hx). assert (By := bytes_bits_ok _ Hy). assert (O0 := obits_ok _ H0). assert (O1 := obits_ok _ H1). assert (O2 := obits_ok _ H2).
  exists (x ++ y). rewrite length_app, Nat2Z.inj_add, Forall_app. split; [done|]. split.
  { rewrite bytes_bits_app, (bcat_assoc (bytes_bits x)), Ey, <- (bcat_assoc (bytes_bits x)), Ex, bcat_assoc by done. done. }
  split; [lia|]. split; [lia|]. split; [|split; [congruence|]].
  { rewrite Y3. unfold u32 in *. rewrite Z.add_assoc, <- Z.add_mod_idemp_l, X3, Z.add_mod_idemp_l by lia. done. }
  intros k. rewrite Y5, X5. destruct (Z.leb_spec (z_next_out (d_strm s1)) k), (Z.leb_spec (z_next_out (d_strm s)) k), (Z.ltb_spec k (z_next_out (d_strm s1))), (Z.ltb_spec k (z_next_out (d_strm s2)));
    try lia; cbn [andb]; try done.
  - unfold aget. destruct (Z.leb_spec 0 (k - z_next_out (d_strm s1))), (Z.leb_spec 0 (k - z_next_out (d_strm s))); try lia. rewrite lookup_app_r by lia. f_equal. lia.
  - rewrite aget_app_l by lia. done.
Qed.

(** ** flush_pending *)

(** [s] with the fields that an output changes. *)
Definition flushed (s : deflate_state) (out : option (list Z)) (next avail total : Z) (w : writer) (p : Z) : deflate_state :=
  s <| d_strm ::= fun z => z <| z_out := out |> <| z_next_out := next |> <| z_avail_out := avail |> <| z_total_out := total |> |>
    <| d_trees ::= upd t_w (fun _ => w) |> <| d_pending_out := p |>.
Definition is_flushed (s s' : deflate_state) : Prop :=
  exists out next avail total w p, s' = flushed s out next avail total w p /\ (is_Some (z_out (d_strm s)) -> is_Some out) /\
    length (w_buf w) = length (w_buf (t_w (d_trees s))) /\ writer_ok w.

Lemma flushed_writer s w :
  s <| d_trees ::= upd t_w (fun _ => w) |> = flushed s (z_out (d_strm s)) (z_next_out (d_strm s)) (z_avail_out (d_strm s)) (z_total_out (d_strm s)) w (d_pending_out s).
Proof. destruct s as [[] ? ? ? ? ? ? ? ? ? ? ? ? ? ? ? ? ? ? ? ? ? ? ? ? ? ? ? ? ? ? ? ? ? ? []]. done. Qed.

(** The bits of [bi_buf] that fill a byte. *)
Lemma bi_flush_pending s :
  out_ok s ->
  exists w, bi_flush (t_w (d_trees s)) = Some w /\ let s1 := s <| d_trees ::= upd t_w (fun _ => w) |> in
    out_ok s1 /\ obits s1 = obits s /\ w_bi_valid w < 8 /\ length (w_buf w) = length (w_buf (t_w (d_trees s))) /\ writer_ok w.
Proof.
  intros [Hw Hr [Hp1 Hp2] Hy Hs Hz Ho]. destruct (decide (w_bi_valid (t_w (d_trees s)) < 8)) as [Hlt|Hge].
  - exists (t_w (d_trees s)). split; [unfold bi_flush; destruct (Z.eqb_spec (w_bi_valid (t_w (d_trees s))) 16); [lia|]; rewrite Z.geb_leb; destruct (Z.leb_spec 8 (w_bi_valid (t_w (d_trees s)))); [lia|done]|].
    cbv zeta. split; [by split|]. done.
  - destruct Hs as [Hs|]; [|lia]. destruct (bi_flush_ok _ Hw Hr) as (w & E & Em & Hv). exists w. split; [done|]. cbv zeta. assert (Hk := em_ok _ _ _ Em).
    assert (El := em_length _ _ _ Em). assert (Eb := em_bits _ _ _ Em). rewrite bcat_nil_r in Eb. split; [|split; [|done]].
    + assert (Hpp := wk_pending _ Hk). split; dsimp; unfold d_pending; dsimp; rewrite ?Hs; try done; [by rewrite Eb, El|lia| |by left].
      unfold obytes, bytes_at. dsimp. rewrite Hs. apply (wk_bytes _ Hk).
    + rewrite !obits_start by done. exact Eb.
Qed.

(** The first [n] bytes that wait. *)
Lemma obytes_take s n :
  out_ok s -> 0 <= n <= d_pending s ->
  obits s = bytes_bits (bytes_at (w_buf (t_w (d_trees s))) (d_pending_out s) n) ··
    (le (bytes_at (w_buf (t_w (d_trees s))) (d_pending_out s + n) (d_pending s - n)) + 2 ^ (8 * (d_pending s - n)) * w_bi_buf (t_w (d_trees s)),
     8 * (d_pending s - n) + w_bi_valid (t_w (d_trees s))).
Proof.
  intros [Hw _ [Hp1 Hp2] _ _ _ _] Hn. assert (Hp := wk_pending _ Hw). unfold obits, obytes, bytes_bits, bcat. cbn [fst snd].
  replace (bytes_at (w_buf (t_w (d_trees s))) (d_pending_out s) (d_pending s)) with
    (bytes_at (w_buf (t_w (d_trees s))) (d_pending_out s) n ++ bytes_at (w_buf (t_w (d_trees s))) (d_pending_out s + n) (d_pending s - n)).
  2:{ unfold bytes_at. replace (Z.to_nat (d_pending s)) with (Z.to_nat n + Z.to_nat (d_pending s - n))%nat by lia. rewrite <- take_take_drop, drop_drop. do 3 f_equal. lia. }
  rewrite le_app, (length_bytes_in _ _ n) by lia. f_equal; [|lia].
  replace (8 * d_pending s) with (8 * n + 8 * (d_pending s - n)) by lia. rewrite Z.pow_add_r by lia. ring.
Qed.

Lemma Forall_bytes_part l j n m k : 0 <= j -> 0 <= k -> j <= m -> m + k <= j + n -> Forall byte_ok (bytes_at l j n) -> Forall byte_ok (bytes_at l m k).
Proof.
  intros Hj Hk Hm Hn H. replace (bytes_at l m k) with (bytes_at (bytes_at l j n) (m - j) k); [by apply bytes_at_bytes|].
  unfold bytes_at. replace (Z.to_nat n) with (Z.to_nat (m - j) + (Z.to_nat n - Z.to_nat (m - j)))%nat by lia.
  rewrite <- take_drop_commute, drop_drop, take_take. f_equal; [lia|]. f_equal. lia.
Qed.

(** Delivery of [n] bytes. *)
Lemma deliver_ok s n :
  out_ok s -> w_bi_valid (t_w (d_trees s)) < 8 -> 0 <= n <= d_pending s -> n <= z_avail_out (d_strm s) ->
  exists out, memcpy (out_buf (d_strm s)) (z_next_out (d_strm s)) (w_buf (t_w (d_trees s))) (d_pending_out s) n = Some out /\
    let p := d_pending s - n in
    let s' := flushed s (Some out) (z_next_out (d_strm s) + n) (z_avail_out (d_strm s) - n) (u32 (z_total_out (d_strm s) + n))
      ((t_w (d_trees s)) <| w_pending := p |>) (if p =? 0 then 0 else d_pending_out s + n) in
    out_ok s' /\ outputs s bnil s'.
Proof.
  intros Hk Hv Hn Ha. assert (Et := obytes_take s n Hk Hn). destruct Hk as [Hw Hr [Hp1 Hp2] Hy Hs Hz (Ho1 & Ho2 & Ho3)]. unfold obytes in Hy.
  destruct (memcpy_aget (out_buf (d_strm s)) (z_next_out (d_strm s)) (w_buf (t_w (d_trees s))) (d_pending_out s) n) as (out & E & El & Eg); [lia..|].
  exists out. split; [done|]. cbv zeta. set (p := d_pending s - n). set (q := if p =? 0 then 0 else d_pending_out s + n).
  assert (Hq : 0 <= q /\ q + p <= Z.of_nat (length (w_buf (t_w (d_trees s)))) /\ bytes_at (w_buf (t_w (d_trees s))) q p = bytes_at (w_buf (t_w (d_trees s))) (d_pending_out s + n) p).
  { unfold q, p. destruct (Z.eqb_spec (d_pending s - n) 0) as [->|]; [|split; [lia|split; [lia|done]]]. split; [done|]. split; [lia|]. done. }
  destruct Hq as (Hq1 & Hq2 & Hq3). assert (Hpend := wk_pending _ Hw). fold (d_pending s) in Hpend. split.
  - split; unfold flushed; dsimp.
    + destruct Hw as [W1 W2 W3 W4 W5]. split; dsimp; try done; [unfold p; lia|]. unfold wbytes in *. dsimp. replace (Z.to_nat p) with (Z.to_nat p `min` Z.to_nat (w_pending (t_w (d_trees s))))%nat by (unfold p, d_pending; lia).
      rewrite <- take_take. by apply Forall_take.
    + unfold wbits in *. dsimp in Hr. dsimp. unfold d_pending in *. unfold p. lia.
    + done.
    + unfold obytes, d_pending. dsimp. rewrite Hq3. apply (Forall_bytes_part _ (d_pending_out s) (d_pending s)); unfold p; try lia. done.
    + by right.
    + unfold d_pending. dsimp. intros Ep. unfold q. by rewrite Ep.
    + unfold out_buf. dsimp. cbn [default]. unfold id. unfold out_buf in El. rewrite El. unfold out_buf in Ho3. lia.
  - exists (bytes_at (w_buf (t_w (d_trees s))) (d_pending_out s) n). assert (Hl := length_bytes_in (w_buf (t_w (d_trees s))) (d_pending_out s) n Hp1 ltac:(lia) ltac:(lia)).
    unfold flushed. dsimp. rewrite Hl. split; [apply (Forall_bytes_part _ (d_pending_out s) (d_pending s)); (lia || done)|]. rewrite bcat_nil_r, Et.
    split; [|split; [done|split; [done|split; [|split; [exact El|]]]]].
    + f_equal. unfold obits, obytes, d_pending. dsimp. rewrite Hq3. done.
    + unfold u32. by rewrite Z.mod_mod.
    + intros k. unfold out_buf at 1. dsimp. cbn [default]. unfold id. rewrite Eg. destruct (Z.leb_spec (z_next_out (d_strm s)) k), (Z.ltb_spec k (z_next_out (d_strm s) + n)); try done.
      cbn [andb]. rewrite aget_bytes_at by lia. f_equal. lia.
Qed.

Lemma flush_pending_ok s :
  out_ok s ->
  exists s', flush_pending s = Some s' /\ out_ok s' /\ outputs s bnil s' /\ is_flushed s s' /\ low s' /\ (z_avail_out (d_strm s') = 0 \/ drained s').
Proof.
  intros Hk. unfold flush_pending, tr_flush_bits. destruct (bi_flush_pending s Hk) as (w & -> & Hk1 & Eo & Hv & Lw & Hw). cbv zeta in *. dsimp.
  change ((d_trees s) <| t_w := w |>) with (upd t_w (fun _ => w) (d_trees s)).
  change (s <| d_trees := upd t_w (fun _ => w) (d_trees s) |>) with (s <| d_trees ::= upd t_w (fun _ => w) |>).
  set (s1 := s <| d_trees ::= upd t_w (fun _ => w) |>) in *. change (w_buf w) with (w_buf (t_w (d_trees s1))). change (d_strm s) with (d_strm s1). change (d_pending_out s) with (d_pending_out s1).
  assert (O1 : outputs s bnil s1).
  { destruct (outputs_refl s1) as (bs & H1 & H2 & H3). exists bs. rewrite <- Eo. done. }
  assert (Hp := wk_pending _ Hw). change (w_pending w) with (d_pending s1) in Hp. destruct (oo_out _ Hk1) as (_ & Hav & _). assert (Hs := wk_size _ Hw).
  set (len := if d_pending s1 >? z_avail_out (d_strm s1) then z_avail_out (d_strm s1) else d_pending s1).
  assert (Hlen : 0 <= len <= d_pending s1 /\ len <= z_avail_out (d_strm s1) /\ (len = d_pending s1 \/ len = z_avail_out (d_strm s1))).
  { unfold len. rewrite Z.gtb_ltb. destruct (Z.ltb_spec (z_avail_out (d_strm s1)) (d_pending s1)); lia. } clearbody len.
  destruct (Z.eqb_spec len 0) as [E0|Hne].
  - exists s1. split; [done|]. split; [done|]. split; [done|]. split.
    + exists (z_out (d_strm s)), (z_next_out (d_strm s)), (z_avail_out (d_strm s)), (z_total_out (d_strm s)), w, (d_pending_out s). split; [|done].
      apply flushed_writer.
    + split; [exact Hv|]. destruct (decide (z_avail_out (d_strm s1) = 0)); [by left|]. right. assert (Ep : d_pending s1 = 0) by lia. split; [done|]. split; [by apply (oo_zero _ Hk1)|done].
  - destruct (deliver_ok s1 len Hk1 Hv) as (out & Em & Hk2 & O2); [lia..|]. cbv zeta in Hk2, O2. rewrite Em. dsimp. rewrite (u32_small (d_pending s1 - len)), (u32_small (z_avail_out (d_strm s1) - len)) by lia.
    set (s2 := flushed s1 _ _ _ _ _ _) in *. exists s2. split; [done|]. split; [done|]. split; [|split].
    + apply (outputs_trans s bnil s1 bnil s2); try done; apply bits_ok_nil.
    + eexists _, _, _, _, _, _. split; [unfold s2, s1, flushed; reflexivity|]. split; [by eexists|]. split; [exact Lw|]. apply (oo_writer _ Hk2).
    + split; [exact Hv|]. destruct (decide (z_avail_out (d_strm s1) = len)) as [E|]; [left; unfold s2, flushed; dsimp; lia|]. right. assert (Ep : d_pending s1 - len = 0) by lia.
      split; [exact Ep|]. split; [|exact Hv]. change (d_pending_out s2) with (if d_pending s1 - len =? 0 then 0 else d_pending_out s1 + len). by rewrite Ep.
Qed.
