(* ===== verification/DeflateHash.v ===== *)
(** The hash table of the compressor: every chain leads, from later to earlier positions, through strings with the same hash
    value, so that two bytes of such a string decide the third. *)
From S2P Require Import Prelude Record Bits InflateState TreesTables Trees BitWriter DeflateState Deflate DeflateOut.

(** ** The parameters of the stream *)
Record geometry (s : deflate_state) : Prop := {
  gm_bits : 9 <= d_w_bits s <= 15;
  gm_wsize : d_w_size s = 2 ^ d_w_bits s;
  gm_mask : d_w_mask s = d_w_size s - 1;
  gm_wins : d_window_size s = 2 * d_w_size s;
  gm_hbits : 8 <= d_hash_bits s <= 16;
  gm_hsize : d_hash_size s = 2 ^ d_hash_bits s;
  gm_hmask : d_hash_mask s = d_hash_size s - 1;
  gm_shift : d_hash_shift s = (d_hash_bits s + MIN_MATCH - 1) / MIN_MATCH;
  gm_window : Z.of_nat (length (d_window s)) = 2 * d_w_size s;
  gm_bytes : Forall byte_ok (d_window s);
  gm_prev : Z.of_nat (length (d_prev s)) = d_w_size s;
  gm_head : Z.of_nat (length (d_head s)) = d_hash_size s }.

Lemma wsize_range s : geometry s -> 512 <= d_w_size s <= 32768.
Proof.
  intros G. rewrite (gm_wsize _ G). destruct (gm_bits _ G). change 512 with (2 ^ 9). change 32768 with (2 ^ 15).
  split; apply Z.pow_le_mono_r; lia.
Qed.
Lemma max_dist s : geometry s -> MAX_DIST s = d_w_size s - 262.
Proof. intros G. pose proof (wsize_range s G). unfold MAX_DIST. apply u32_small. unfold MIN_LOOKAHEAD, MAX_MATCH, MIN_MATCH. lia. Qed.
Lemma shift_range s : geometry s -> 3 <= d_hash_shift s <= 6 /\ d_hash_bits s <= 3 * d_hash_shift s.
Proof. intros G. rewrite (gm_shift _ G). destruct (gm_hbits _ G). unfold MIN_MATCH. split; dlia. Qed.

(** ** Hash values *)
Definition wbyte (s : deflate_state) (p : Z) : Z := default 0 (aget (d_window s) p).
Definition hash_at (s : deflate_state) (p : Z) : Z :=
  ((wbyte s p ≪ (2 * d_hash_shift s)) .^ (wbyte s (p + 1) ≪ d_hash_shift s) .^ wbyte s (p + 2)) .& d_hash_mask s.
(** [ins_h] has the first two bytes of the string at [p]. *)
Definition ins_ok (s : deflate_state) (p : Z) : Prop :=
  0 <= d_ins_h s < 2 ^ 16 /\
  (d_ins_h s ≪ d_hash_shift s) .& d_hash_mask s =
    ((wbyte s p ≪ (2 * d_hash_shift s)) .^ (wbyte s (p + 1) ≪ d_hash_shift s)) .& d_hash_mask s.

Lemma wbyte_get s p : 0 <= p < Z.of_nat (length (d_window s)) -> aget (d_window s) p = Some (wbyte s p).
Proof. intros Hp. unfold wbyte. by destruct (aget_in _ _ Hp) as [b ->]. Qed.
Lemma wbyte_byte s p : geometry s -> byte_ok (wbyte s p).
Proof.
  intros G. unfold wbyte, aget. destruct (_ <=? p); [|unfold byte_ok; cbn; lia]. destruct (d_window s !! Z.to_nat p) eqn:E; [|unfold byte_ok; cbn; lia].
  apply (proj1 (List.Forall_forall _ _) (gm_bytes _ G)). by apply list_elem_of_In, (list_elem_of_lookup_2 _ _ _ E).
Qed.

Lemma hmask s x : geometry s -> x .& d_hash_mask s = x mod 2 ^ d_hash_bits s.
Proof. intros G. rewrite (gm_hmask _ G), (gm_hsize _ G). apply land_mask. destruct (gm_hbits _ G). lia. Qed.
Lemma hmask_range s x : geometry s -> 0 <= x .& d_hash_mask s < d_hash_size s.
Proof. intros G. rewrite (hmask s x G), (gm_hsize _ G). apply Z.mod_pos_bound, pow2_pos. destruct (gm_hbits _ G). lia. Qed.
Lemma hmask_small s : geometry s -> 0 < d_hash_size s <= 2 ^ 16.
Proof. intros G. rewrite (gm_hsize _ G). destruct (gm_hbits _ G). split; [apply pow2_pos; lia|]. apply Z.pow_le_mono_r; lia. Qed.

(** A mask commutes with a shift to the left and a second mask. *)
Lemma land_shl x m n : 0 <= m -> 0 <= n -> ((x .& (2 ^ n - 1)) ≪ m) .& (2 ^ n - 1) = (x ≪ m) .& (2 ^ n - 1).
Proof.
  intros Hm Hn. rewrite !land_mask, !Z.shiftl_mul_pow2 by done. rewrite <- Z.mul_mod_idemp_l at 1 by (apply Z.pow_nonzero; lia).
  rewrite Z.mod_mod by (apply Z.pow_nonzero; lia). apply Z.mul_mod_idemp_l, Z.pow_nonzero; lia.
Qed.
Lemma land_shl_zero x m n : 0 <= n <= m -> (x ≪ m) .& (2 ^ n - 1) = 0.
Proof.
  intros H. rewrite land_mask, Z.shiftl_mul_pow2 by lia. replace m with ((m - n) + n) by lia. rewrite Z.pow_add_r, Z.mul_assoc by lia.
  apply Z.mod_mul, Z.pow_nonzero; lia.
Qed.
Lemma lxor_land a b m : (a .^ b) .& m = (a .& m) .^ (b .& m).
Proof. apply Z.bits_inj'. intros i Hi. rewrite !Z.land_spec, !Z.lxor_spec, !Z.land_spec. by destruct (Z.testbit a i), (Z.testbit b i), (Z.testbit m i). Qed.
Lemma hmask_pow s : geometry s -> d_hash_mask s = 2 ^ d_hash_bits s - 1.
Proof. intros G. by rewrite (gm_hmask _ G), (gm_hsize _ G). Qed.

Lemma UPDATE_HASH_ok s h c : geometry s -> 0 <= h < 2 ^ 16 -> UPDATE_HASH s h c = Some (((h ≪ d_hash_shift s) .^ c) .& d_hash_mask s).
Proof.
  intros G Hh. destruct (shift_range s G) as [Hs _]. unfold UPDATE_HASH, shl32. destruct (Z.leb_spec 0 (d_hash_shift s)), (Z.ltb_spec (d_hash_shift s) 32); try lia. cbn [andb mbind option_bind].
  rewrite u32_small; [done|]. rewrite Z.shiftl_mul_pow2 by lia. assert (1 <= 2 ^ d_hash_shift s <= 2 ^ 6) by (split; [apply (Z.pow_le_mono_r 2 0)|apply Z.pow_le_mono_r]; lia). nia.
Qed.

(** The start of a hash value, and its continuation. *)
Lemma hash_start s p : geometry s ->
  let h := ((wbyte s p ≪ d_hash_shift s) .^ wbyte s (p + 1)) .& d_hash_mask s in
  0 <= h < 2 ^ 16 /\ (h ≪ d_hash_shift s) .& d_hash_mask s = ((wbyte s p ≪ (2 * d_hash_shift s)) .^ (wbyte s (p + 1) ≪ d_hash_shift s)) .& d_hash_mask s.
Proof.
  intros G. destruct (shift_range s G) as [Hs _]. destruct (gm_hbits _ G). cbv zeta. split.
  - pose proof (hmask_range s ((wbyte s p ≪ d_hash_shift s) .^ wbyte s (p + 1)) G). pose proof (hmask_small s G). lia.
  - rewrite (hmask_pow s G), land_shl by lia. f_equal. rewrite Z.shiftl_lxor, Z.shiftl_shiftl by lia. do 2 f_equal. lia.
Qed.
Lemma hash_next s p : geometry s -> ins_ok s p ->
  ((d_ins_h s ≪ d_hash_shift s) .^ wbyte s (p + 2)) .& d_hash_mask s = hash_at s p.
Proof. intros G [_ H]. unfold hash_at. by rewrite lxor_land, H, <- lxor_land. Qed.
Lemma hash_roll s p : geometry s ->
  (hash_at s p ≪ d_hash_shift s) .& d_hash_mask s = ((wbyte s (p + 1) ≪ (2 * d_hash_shift s)) .^ (wbyte s (p + 2) ≪ d_hash_shift s)) .& d_hash_mask s.
Proof.
  intros G. destruct (shift_range s G) as [Hs Hb]. destruct (gm_hbits _ G). unfold hash_at. rewrite (hmask_pow s G), land_shl by lia.
  rewrite !Z.shiftl_lxor, !Z.shiftl_shiftl by lia. rewrite Z.lxor_assoc. rewrite lxor_land, land_shl_zero, Z.lxor_0_l by lia. do 3 f_equal. lia.
Qed.

(** The third byte. *)
Lemma hash_third s p q : geometry s -> hash_at s p = hash_at s q -> wbyte s p = wbyte s q -> wbyte s (p + 1) = wbyte s (q + 1) -> wbyte s (p + 2) = wbyte s (q + 2).
Proof.
  intros G H E0 E1. unfold hash_at in H. rewrite E0, E1 in H. rewrite !(lxor_land (_ .^ _)) in H. set (k := (_ .^ _) .& _) in H.
  assert (H2 : wbyte s (p + 2) .& d_hash_mask s = wbyte s (q + 2) .& d_hash_mask s).
  { apply (f_equal (Z.lxor k)) in H. by rewrite <- !Z.lxor_assoc, Z.lxor_nilpotent, !Z.lxor_0_l in H. }
  pose proof (wbyte_byte s (p + 2) G) as B1. pose proof (wbyte_byte s (q + 2) G) as B2. unfold byte_ok in *. rewrite !(hmask _ _ G) in H2.
  destruct (gm_hbits _ G). assert (2 ^ 8 <= 2 ^ d_hash_bits s) by (apply Z.pow_le_mono_r; lia). rewrite !Z.mod_small in H2 by lia. done.
Qed.

(** ** Chains

    [ins] are the positions inserted, all before [front]. A chain is good as long as its slots of [prev] were not used again. *)
Record chained (s : deflate_state) (ins : Z -> Prop) (front : Z) : Prop := {
  ch_range : forall p, ins p -> 0 <= p < front /\ p + 2 < d_strstart s + d_lookahead s;
  ch_head : forall h q, aget (d_head s) h = Some q -> q = 0 \/ ins q /\ hash_at s q = h;
  ch_prev : forall p, ins p -> d_strstart s - d_w_size s < p ->
    exists q, aget (d_prev s) (p .& d_w_mask s) = Some q /\ (q = 0 \/ ins q /\ q < p /\ hash_at s q = hash_at s p) }.

Lemma chained_front s ins f f' : chained s ins f -> f <= f' -> chained s ins f'.
Proof.
  intros [H1 H2 H3] Hf. split; [|done|done].
  - intros p Hp. destruct (H1 p Hp). lia.
Qed.

(** Changes of the window behind the data, and of the other fields. *)
Lemma hash_at_ext s s' p :
  d_hash_shift s' = d_hash_shift s -> d_hash_mask s' = d_hash_mask s -> (forall i, p <= i < p + 3 -> aget (d_window s') i = aget (d_window s) i) -> hash_at s' p = hash_at s p.
Proof. intros E1 E2 H. unfold hash_at, wbyte. rewrite E1, E2, !H by lia. done. Qed.
Lemma chained_ext s s' ins f :
  d_head s' = d_head s -> d_prev s' = d_prev s -> d_w_size s' = d_w_size s -> d_w_mask s' = d_w_mask s -> d_hash_shift s' = d_hash_shift s -> d_hash_mask s' = d_hash_mask s ->
  d_strstart s <= d_strstart s' -> d_strstart s + d_lookahead s <= d_strstart s' + d_lookahead s' ->
  (forall i, i < d_strstart s + d_lookahead s -> aget (d_window s') i = aget (d_window s) i) -> chained s ins f -> chained s' ins f.
Proof.
  intros E1 E2 E3 E4 E5 E6 Hst Hle Hw [H1 H2 H3]. assert (Hh : forall p, ins p -> hash_at s' p = hash_at s p).
  { intros p Hp. apply hash_at_ext; try done. intros i Hi. apply Hw. destruct (H1 p Hp). lia. }
  split.
  - intros p Hp. destruct (H1 p Hp). lia.
  - intros h q. rewrite E1. intros Hq. destruct (H2 h q Hq) as [|[Hi Hx]]; [by left|right]. by rewrite Hh.
  - intros p Hp. rewrite E2, E3, E4. intros Hf. destruct (H3 p Hp ltac:(lia)) as (q & Hq & [->|(Hi & Hlt & Hx)]); exists q || exists 0; split; try done; [by left|]. right. by rewrite !Hh.
Qed.

(** The fields these predicates are about. *)
Definition hfields (s : deflate_state) :=
  (d_window s, d_prev s, d_head s, d_ins_h s, (d_w_size s, d_w_bits s, d_w_mask s, d_window_size s),
   (d_hash_size s, d_hash_bits s, d_hash_mask s, d_hash_shift s), (d_strstart s, d_lookahead s, d_insert s)).
Lemma geometry_same s s' : hfields s' = hfields s -> geometry s -> geometry s'.
Proof. unfold hfields. intros [= E1 E2 E3 E4 E5 E6 E7 E8 E9 E10 E11 E12 E13 E14 E15] []. split; rewrite ?E1, ?E2, ?E3, ?E5, ?E6, ?E7, ?E8, ?E9, ?E10, ?E11, ?E12; done. Qed.
Lemma chained_same s s' ins f : hfields s' = hfields s -> chained s ins f -> chained s' ins f.
Proof. unfold hfields. intros [= E1 E2 E3 E4 E5 E6 E7 E8 E9 E10 E11 E12 E13 E14 E15]. apply chained_ext; try done; [lia|lia|]. intros i _. by rewrite E1. Qed.
Lemma ins_ok_same s s' p : hfields s' = hfields s -> ins_ok s p -> ins_ok s' p.
Proof. unfold hfields, ins_ok, wbyte. intros [= E1 E2 E3 E4 E5 E6 E7 E8 E9 E10 E11 E12 E13 E14 E15]. by rewrite E1, E4, E11, E12. Qed.

(** [s] with the fields that an insertion changes. *)
Definition rehashed (s : deflate_state) (h : Z) (prev head : list Z) : deflate_state := s <| d_ins_h := h |> <| d_prev := prev |> <| d_head := head |>.
Definition is_rehashed (s s' : deflate_state) : Prop :=
  exists h prev head, s' = rehashed s h prev head /\ length prev = length (d_prev s) /\ length head = length (d_head s).

Lemma rehashed_refl s : is_rehashed s s.
Proof. exists (d_ins_h s), (d_prev s), (d_head s). split; [by destruct s|done]. Qed.
Lemma rehashed_trans s s1 s2 : is_rehashed s s1 -> is_rehashed s1 s2 -> is_rehashed s s2.
Proof. intros (h & p & d & -> & E1 & E2) (h' & p' & d' & -> & E3 & E4). exists h', p', d'. split; [done|]. dsimp in E3. dsimp in E4. split; [by rewrite E3|by rewrite E4]. Qed.
Lemma rehashed_geometry s s' : is_rehashed s s' -> geometry s -> geometry s'.
Proof. intros (h & p & d & -> & E1 & E2) []. split; unfold rehashed; dsimp; rewrite ?E1, ?E2; done. Qed.

Lemma wmask_slot s p q : geometry s -> 0 <= p < q -> q < p + d_w_size s -> p .& d_w_mask s <> q .& d_w_mask s.
Proof.
  intros G Hp Hq. rewrite (gm_mask _ G), (gm_wsize _ G) in *. destruct (gm_bits _ G). rewrite !land_mask by lia. pose proof (pow2_pos (d_w_bits s) ltac:(lia)).
  intros E. set (w := 2 ^ d_w_bits s) in *. assert (Hm : (q - p) mod w = 0) by (rewrite Zminus_mod, E, Z.sub_diag; by apply Z.mod_0_l; lia).
  rewrite Z.mod_small in Hm; lia.
Qed.
Lemma wmask_range s p : geometry s -> 0 <= p .& d_w_mask s < Z.of_nat (length (d_prev s)).
Proof.
  intros G. rewrite (gm_prev _ G), (gm_mask _ G), (gm_wsize _ G). destruct (gm_bits _ G). rewrite land_mask by lia. apply Z.mod_pos_bound, pow2_pos. lia.
Qed.

Lemma INSERT_STRING_ok s ins front str :
  geometry s -> chained s ins front -> 0 <= str <= d_strstart s -> front <= str -> str + 2 < d_strstart s + d_lookahead s -> d_strstart s + d_lookahead s <= 2 * d_w_size s -> ins_ok s str ->
  exists s' q, INSERT_STRING s str = Some (s', q) /\ is_rehashed s s' /\ chained s' (fun p => ins p \/ p = str) (str + 1) /\ ins_ok s' (str + 1) /\
    (q = 0 \/ ins q /\ 0 < q < str /\ hash_at s q = hash_at s str).
Proof.
  intros G C H0 Hf Hv Hw Hi. assert (Wr := wsize_range s G). assert (Lw := gm_window _ G). unfold INSERT_STRING. change (str + (MIN_MATCH - 1)) with (str + 2).
  rewrite wbyte_get by lia. dsimp. rewrite UPDATE_HASH_ok by (done || apply Hi). dsimp. rewrite hash_next by done.
  assert (Hh : 0 <= hash_at s str < d_hash_size s) by (apply hmask_range; done). assert (Lh := gm_head _ G). assert (Hs := hmask_small s G).
  destruct (aget_in (d_head s) (hash_at s str) ltac:(lia)) as [q Eq]. rewrite Eq. dsimp.
  assert (Hm := wmask_range s str G). destruct (aset (d_prev s) (str .& d_w_mask s) q) as [prev|] eqn:Ep; [|by rewrite aset_in in Ep]. dsimp.
  destruct (aset (d_head s) (hash_at s str) (u16 str)) as [head|] eqn:Ed; [|rewrite aset_in in Ed by lia; done]. dsimp. rewrite u16_small in Ed by lia.
  fold (rehashed s (hash_at s str) prev head). exists (rehashed s (hash_at s str) prev head), q.
  assert (Hq : q = 0 \/ ins q /\ 0 < q < str /\ hash_at s q = hash_at s str).
  { destruct (ch_head _ _ _ C _ _ Eq) as [|[Hq1 Hq2]]; [by left|]. destruct (ch_range _ _ _ C q Hq1). destruct (decide (q = 0)); [by left|right]. split; [done|]. split; [lia|done]. }
  split; [done|]. split; [|split; [|split; [|done]]].
  - eexists _, _, _. split; [done|]. split; [by apply length_aset in Ep|by apply length_aset in Ed].
  - destruct C as [H1 H2 H3]. split; unfold rehashed; dsimp.
    + intros p [Hp| ->]; [destruct (H1 p Hp); lia|lia].
    + intros h x. rewrite (aget_aset _ _ _ _ h Ed). destruct (Z.eqb_spec h (hash_at s str)) as [->|]; [intros [= <-]; right; by split; [right|]|].
      intros Hx. destruct (H2 h x Hx) as [|[]]; [by left|right; by split; [left|]].
    + intros p Hp Hl. rewrite (aget_aset _ _ _ _ (p .& d_w_mask s) Ep). destruct Hp as [Hp| ->].
      * destruct (H1 p Hp) as [Hp1 Hp2]. destruct (Z.eqb_spec (p .& d_w_mask s) (str .& d_w_mask s)) as [E|]; [by apply wmask_slot in E; [|done|lia|lia]|].
        destruct (H3 p Hp ltac:(lia)) as (x & Hx & [->|(X1 & X2 & X3)]); [by exists 0; split; [|left]|]. exists x. split; [done|right]. split; [by left|done].
      * rewrite Z.eqb_refl. exists q. split; [done|]. destruct Hq as [|(Q1 & Q2 & Q3)]; [by left|right]. split; [by left|]. split; [lia|done].
  - split; unfold rehashed; dsimp; [lia|]. replace (str + 1 + 1) with (str + 2) by lia. apply (hash_roll s str G).
Qed.

Lemma CLEAR_HASH_ok s front :
  geometry s -> exists head, CLEAR_HASH s = Some (s <| d_head := head |>) /\ length head = length (d_head s) /\ chained (s <| d_head := head |>) (fun _ => False) front.
Proof.
  intros G. assert (Lh := gm_head _ G). assert (Hs := hmask_small s G). unfold CLEAR_HASH.
  destruct (aset (d_head s) (d_hash_size s - 1) NIL) as [h1|] eqn:E1; [|rewrite aset_in in E1 by lia; done]. dsimp. assert (L1 := length_aset _ _ _ _ E1).
  destruct (zmemzero_aget h1 0 (d_hash_size s - 1)) as (h2 & -> & L2 & G2); [lia..|]. dsimp. exists h2. split; [done|]. split; [congruence|]. split; dsimp; try done.
  intros h q. rewrite G2, (aget_aset _ _ _ _ h E1). intros Hq. left.
  destruct (Z.leb_spec 0 h), (Z.ltb_spec h (0 + (d_hash_size s - 1))), (Z.eqb_spec h (d_hash_size s - 1)); cbn [andb] in Hq; try (injection Hq as <-; done); try lia; apply aget_Some in Hq; lia.
Qed.

Lemma slide_table_ok wsize n l :
  1 <= n <= Z.of_nat (length l) ->
  exists l', slide_table wsize n l = Some l' /\ length l' = length l /\
    forall k q, k < n -> (aget l' k = Some q <-> exists m, aget l k = Some m /\ q = u16 (if wsize <=? m then m - wsize else NIL)).
Proof.
  intros Hn. unfold slide_table. destruct (Z.leb_spec 1 n), (Z.leb_spec n (Z.of_nat (length l))); try lia. cbn [andb]. eexists. split; [done|].
  split; [rewrite length_app, length_fmap, length_take, length_drop; lia|]. intros k q Hk. unfold aget. destruct (Z.leb_spec 0 k); [|split; [done|by intros (? & ? & ?)]].
  rewrite lookup_app_l by (rewrite length_fmap, length_take; lia). rewrite list_lookup_fmap, lookup_take_lt by lia.
  destruct (l !! Z.to_nat k); cbn; split; try done; [intros [= <-]; by eexists|intros (? & [= <-] & ->); done|by intros (? & ? & ?)].
Qed.

(** The window and the tables moved by [wsize]. *)
Lemma slide_chained s ins front window head prev :
  let w := d_w_size s in
  let s' := s <| d_window := window |> <| d_strstart ::= fun x => x - w |> <| d_head := head |> <| d_prev := prev |> in
  geometry s -> d_strstart s + d_lookahead s <= 2 * w -> (forall i, 0 <= i < w -> aget window i = aget (d_window s) (w + i)) ->
  length head = length (d_head s) -> (forall k q, k < d_hash_size s -> (aget head k = Some q <-> exists m, aget (d_head s) k = Some m /\ q = u16 (if w <=? m then m - w else NIL))) ->
  (forall k q, k < w -> (aget prev k = Some q <-> exists m, aget (d_prev s) k = Some m /\ q = u16 (if w <=? m then m - w else NIL))) ->
  chained s ins front -> chained s' (fun p => 0 <= p /\ ins (p + w)) (front - w).
Proof.
  cbv zeta. intros G Hle Hw Lh Hh Hp [H1 H2 H3]. assert (Wr := wsize_range s G). set (w := d_w_size s) in *.
  set (s' := s <| d_window := window |> <| d_strstart ::= fun x => x - w |> <| d_head := head |> <| d_prev := prev |>) in *.
  assert (Hhash : forall p, 0 <= p -> ins (p + w) -> hash_at s' p = hash_at s (p + w)).
  { intros p Hp0 Hi. destruct (H1 _ Hi) as [_ Hv]. unfold hash_at, wbyte, s'. dsimp. rewrite !Hw by lia. replace (w + (p + 1)) with (p + w + 1) by lia. replace (w + (p + 2)) with (p + w + 2) by lia. by rewrite (Z.add_comm w p). }
  (* an entry of a table *)
  assert (Hval : forall m, m = 0 \/ ins m -> u16 (if w <=? m then m - w else NIL) = 0 \/ u16 (if w <=? m then m - w else NIL) = m - w /\ 0 <= m - w /\ ins (m - w + w)).
  { intros m Hm. destruct (Z.leb_spec w m); [|by left]. destruct Hm as [|Hm]; [lia|]. right. destruct (H1 m Hm). rewrite u16_small by lia. split; [done|]. split; [lia|]. by replace (m - w + w) with m by lia. }
  split; unfold s'; dsimp.
  - intros p [Hp0 Hi]. destruct (H1 _ Hi). lia.
  - intros h q Hq. assert (Hr := aget_Some _ _ _ Hq). rewrite Lh, (gm_head _ G) in Hr. apply Hh in Hq as (m & Hm & ->); [|lia].
    assert (Hm2 := H2 _ _ Hm). destruct (Hval m) as [->|(-> & V1 & V2)]; [destruct Hm2 as [|[]]; [by left|by right]|by left|]. destruct Hm2 as [->|[Hi Hx]]; [lia|].
    right. split; [done|]. rewrite <- Hx. change (hash_at s' (m - w) = hash_at s m). rewrite (Hhash _ V1 V2). by replace (m - w + w) with m by lia.
  - intros p [Hp0 Hi] Hl. destruct (H3 _ Hi ltac:(lia)) as (m & Hm & Hc).
    assert (Eslot : (p + w) .& d_w_mask s = p .& d_w_mask s).
    { unfold w. rewrite (gm_mask _ G), (gm_wsize _ G). destruct (gm_bits _ G). rewrite !land_mask by lia. rewrite <- (Z.mul_1_l (2 ^ d_w_bits s)) at 1. apply Z.mod_add, Z.pow_nonzero; lia. }
    rewrite Eslot in Hm. assert (Hr := wmask_range s p G). rewrite (gm_prev _ G) in Hr. eexists. split; [apply Hp; [lia|]; by eexists|].
    destruct (Hval m) as [->|(-> & V1 & V2)]; [destruct Hc as [|(? & _)]; [by left|by right]|by left|]. destruct Hc as [->|(C1 & C2 & C3)]; [lia|].
    right. split; [done|]. split; [lia|]. change (hash_at s' (m - w) = hash_at s' p). rewrite !Hhash by done. by replace (m - w + w) with m by lia.
Qed.
