(* ===== verification/DeflateWindow.v ===== *)
(** The sliding window of the compressor: [fill_window()] keeps the last bytes of the stream in the window, reads the next ones
    behind them, and moves the hash table with them. *)
From S2P Require Import Prelude Record Bits Adler32 Crc32 InflateState TreesTables Trees BitWriter DeflateState.
From S2P Require Import Deflate DeflateOut DeflateHash.

(** ** The window and the input

    [total] are the bytes of the stream up to the end of the input that is available, [base] is how many of them have left
    the window. *)
Record view (s : deflate_state) (base : Z) (total : list Z) : Prop := {
  vw_base : 0 <= base;
  vw_pos : 0 <= d_strstart s /\ 0 <= d_lookahead s /\ d_strstart s + d_lookahead s <= 2 * d_w_size s;
  vw_data : forall i, 0 <= i < d_strstart s + d_lookahead s -> aget (d_window s) i = aget total (base + i);
  vw_avail : 0 <= z_next_in (d_strm s) /\ 0 <= z_avail_in (d_strm s) < 2 ^ 32 /\
    base + d_strstart s + d_lookahead s + z_avail_in (d_strm s) = Z.of_nat (length total);
  vw_input : forall i, 0 <= i < z_avail_in (d_strm s) -> aget (in_buf (d_strm s)) (z_next_in (d_strm s) + i) = aget total (base + d_strstart s + d_lookahead s + i);
  vw_bytes : Forall byte_ok total;
  vw_high : 0 <= d_high_water s <= 2 * d_w_size s;
  vw_insert : 0 <= d_insert s <= 2 /\ d_insert s <= d_strstart s }.

(** The chains; the last positions are not inserted as long as there are not enough bytes behind them. *)
Definition hashed (s : deflate_state) : Prop :=
  (d_insert s = 0 \/ d_lookahead s + d_insert s < MIN_MATCH) /\ exists ins, chained s ins (d_strstart s - d_insert s).
(** The running hash value. *)
Definition rolling (s : deflate_state) : Prop := d_lookahead s >= MIN_MATCH -> ins_ok s (d_strstart s).

Lemma hashed_same s s' : hfields s' = hfields s -> hashed s -> hashed s'.
Proof.
  intros E [H [ins C]]. assert (E' := E). unfold hfields in E'. injection E' as E1 E2 E3 E4 E5 E6 E7 E8 E9 E10 E11 E12 E13 E14 E15.
  split; [by rewrite E14, E15|]. exists ins. rewrite E13, E15. by apply (chained_same s).
Qed.
Lemma rolling_same s s' : hfields s' = hfields s -> rolling s -> rolling s'.
Proof.
  intros E H. assert (E' := E). unfold hfields in E'. injection E' as E1 E2 E3 E4 E5 E6 E7 E8 E9 E10 E11 E12 E13 E14 E15.
  intros Hl. rewrite E14 in Hl. rewrite E13. apply (ins_ok_same s); [done|]. by apply H.
Qed.

(** The checksum of the wrapper. *)
Definition check_ok (wrap a : Z) : Prop := (wrap = 1 -> adler_ok a) /\ (wrap = 2 -> word_ok a).
Definition check_spec (wrap a : Z) (l : list Z) : Z := if wrap =? 1 then adler_spec a l else if wrap =? 2 then crc_spec a l else a.

Lemma check_spec_ok wrap a l : Forall byte_ok l -> check_ok wrap a -> check_ok wrap (check_spec wrap a l).
Proof.
  intros Hl [H1 H2]. unfold check_spec. split; intros ->; cbn.
  - by apply adler_spec_ok, H1.
  - by apply crc_spec_ok; [apply H2|].
Qed.
Lemma check_spec_app wrap a x y : check_ok wrap a -> Forall byte_ok x -> Forall byte_ok y -> check_spec wrap a (x ++ y) = check_spec wrap (check_spec wrap a x) y.
Proof.
  intros [H1 H2] Hx Hy. unfold check_spec. destruct (Z.eqb_spec wrap 1); [by apply adler_spec_app, H1|]. destruct (wrap =? 2); [|done]. apply crc_spec_app.
Qed.
Lemma check_spec_nil wrap a : check_ok wrap a -> check_spec wrap a [] = a.
Proof.
  intros [H1 H2]. unfold check_spec. destruct (Z.eqb_spec wrap 1).
  - unfold adler_spec, adler_sums. cbn. pose proof (Z.div_mod a (2 ^ 16) ltac:(lia)). lia.
  - destruct (wrap =? 2); [|done]. unfold crc_spec. cbn. by rewrite Z.lxor_assoc, Z.lxor_nilpotent, Z.lxor_0_r.
Qed.

(** [s] with the fields that [fill_window] changes. *)
Definition refilled (s : deflate_state) (next avail total_in adler : Z) (window : list Z) (strstart lookahead block_start match_start : Z)
    (head prev : list Z) (ins_h insert high_water : Z) : deflate_state :=
  s <| d_strm ::= fun z => z <| z_next_in := next |> <| z_avail_in := avail |> <| z_total_in := total_in |> <| z_adler := adler |> |>
    <| d_window := window |> <| d_strstart := strstart |> <| d_lookahead := lookahead |> <| d_block_start := block_start |>
    <| d_match_start := match_start |> <| d_head := head |> <| d_prev := prev |> <| d_ins_h := ins_h |> <| d_insert := insert |>
    <| d_high_water := high_water |>.
Definition is_refilled (s s' : deflate_state) : Prop :=
  s' = refilled s (z_next_in (d_strm s')) (z_avail_in (d_strm s')) (z_total_in (d_strm s')) (z_adler (d_strm s')) (d_window s') (d_strstart s') (d_lookahead s')
    (d_block_start s') (d_match_start s') (d_head s') (d_prev s') (d_ins_h s') (d_insert s') (d_high_water s').

Lemma refilled_refl s : is_refilled s s.
Proof. unfold is_refilled. by destruct s as [[] ? ? ? ? ? ? ? ? ? ? ? ? ? ? ? ? ? ? ? ? ? ? ? ? ? ? ? ? ? ? ? ? ? ? []]. Qed.
Lemma refilled_trans s s1 s2 : is_refilled s s1 -> is_refilled s1 s2 -> is_refilled s s2.
Proof. unfold is_refilled. intros E1 E2. rewrite E2. rewrite E1. done. Qed.

(** From [s] with [base] to [s'] with [base']: the position in the stream is the same, and what was read was added to the checksum. *)
Record advanced (s : deflate_state) (base : Z) (total : list Z) (s' : deflate_state) (base' : Z) : Prop := {
  ad_frame : is_refilled s s';
  ad_pos : base' + d_strstart s' = base + d_strstart s;
  ad_block : base' + d_block_start s' = base + d_block_start s;
  ad_match : u32 (d_strstart s' - d_match_start s') = u32 (d_strstart s - d_match_start s);
  ad_more : d_lookahead s <= d_lookahead s';
  ad_slide : base <= base' /\ (0 < d_strstart s -> 0 < d_strstart s');
  ad_sum : z_adler (d_strm s') = check_spec (d_wrap s) (z_adler (d_strm s)) (bytes_at total (base + d_strstart s + d_lookahead s) (d_lookahead s' - d_lookahead s));
  ad_total : u32 (z_total_in (d_strm s')) = u32 (z_total_in (d_strm s) + (d_lookahead s' - d_lookahead s)) }.


Lemma advanced_refl s base total : check_ok (d_wrap s) (z_adler (d_strm s)) -> advanced s base total s base.
Proof.
  intros Hc. split; try done; try lia; [apply refilled_refl| |].
  - rewrite Z.sub_diag. symmetry. by apply check_spec_nil.
  - f_equal. lia.
Qed.
Lemma refilled_wrap s s' : is_refilled s s' -> d_wrap s' = d_wrap s /\ d_w_size s' = d_w_size s /\ d_trees s' = d_trees s.
Proof. intros ->. done. Qed.

Lemma advanced_check s base total s' base' : Forall byte_ok total -> check_ok (d_wrap s) (z_adler (d_strm s)) -> advanced s base total s' base' -> check_ok (d_wrap s') (z_adler (d_strm s')).
Proof.
  intros Hb Hc A. destruct (refilled_wrap _ _ (ad_frame _ _ _ _ _ A)) as (-> & _). rewrite (ad_sum _ _ _ _ _ A). apply check_spec_ok; [by apply bytes_at_bytes|done].
Qed.

Lemma advanced_trans s base total s1 base1 s2 base2 :
  Forall byte_ok total -> check_ok (d_wrap s) (z_adler (d_strm s)) -> 0 <= base + d_strstart s + d_lookahead s ->
  advanced s base total s1 base1 -> advanced s1 base1 total s2 base2 -> advanced s base total s2 base2.
Proof.
  intros Hb Hc Hp [F1 P1 B1 M1 L1 [S1 S1'] A1 T1] [F2 P2 B2 M2 L2 [S2 S2'] A2 T2]. destruct (refilled_wrap _ _ F1) as (Ew & Es & _).
  split; [by apply (refilled_trans _ s1)|lia|lia|congruence|lia| | |].
  - split; [lia|auto].
  - rewrite A2, Ew, A1. rewrite <- check_spec_app by (done || by apply bytes_at_bytes). f_equal.
    replace (d_lookahead s2 - d_lookahead s) with ((d_lookahead s1 - d_lookahead s) + (d_lookahead s2 - d_lookahead s1)) by lia. rewrite bytes_at_cat by lia. do 2 f_equal. lia.
  - rewrite T2. unfold u32 in *. rewrite <- Z.add_mod_idemp_l, T1, Z.add_mod_idemp_l by lia. f_equal. lia.
Qed.

(** ** The steps of [fill_window] *)
Lemma u32_sub_shift a b w : u32 (a - w - u32 (b - w)) = u32 (a - b).
Proof. unfold u32. rewrite Zminus_mod_idemp_r. f_equal. lia. Qed.

Lemma byte_all l : (forall k x, aget l k = Some x -> byte_ok x) -> Forall byte_ok l.
Proof.
  intros H. apply List.Forall_forall. intros x Hx%list_elem_of_In. apply list_elem_of_lookup in Hx as [i Hi]. rewrite <- aget_nat in Hi. by apply (H _ _ Hi).
Qed.

Lemma slide_window_ok s base total more :
  geometry s -> view s base total -> hashed s -> check_ok (d_wrap s) (z_adler (d_strm s)) -> d_lookahead s < MIN_LOOKAHEAD ->
  more = d_window_size s - d_lookahead s - d_strstart s ->
  exists s' base' more', slide_window s more = Some (s', more') /\ geometry s' /\ view s' base' total /\ hashed s' /\ advanced s base total s' base' /\
    more' = 2 * d_w_size s' - d_lookahead s' - d_strstart s' /\ 2 <= more' /\ d_strstart s' < d_w_size s' + MAX_DIST s' /\
    d_lookahead s' = d_lookahead s /\ d_strm s' = d_strm s /\ (rolling s -> rolling s').
Proof.
  intros G V [Hset [ins C]] Hc Hl Hm. assert (Wr := wsize_range s G). assert (Hd := max_dist s G). assert (Lw := gm_window _ G). destruct (vw_pos _ _ _ V) as (P1 & P2 & P3).
  unfold MIN_LOOKAHEAD, MAX_MATCH, MIN_MATCH in Hl. rewrite (gm_wins _ G) in Hm. unfold slide_window. rewrite (u32_small (d_w_size s + _)) by lia. rewrite Z.geb_leb.
  destruct (Z.leb_spec (d_w_size s + MAX_DIST s) (d_strstart s)) as [Hs|Hs].
  2:{ exists s, base, more. split; [done|]. split; [done|]. split; [done|]. split; [split; [done|by exists ins]|]. split; [by apply advanced_refl|]. split; [lia|]. split; [lia|]. by split. }
  destruct (memcpy_aget (d_window s) 0 (d_window s) (d_w_size s) (d_w_size s)) as (win & -> & Lwin & Gwin); [lia..|]. dsimp.
  destruct (slide_table_ok (d_w_size s) (d_hash_size s) (d_head s)) as (head & -> & Lh & Gh); [rewrite (gm_head _ G); pose proof (hmask_small s G); lia|]. dsimp.
  destruct (slide_table_ok (d_w_size s) (d_w_size s) (d_prev s)) as (prev & -> & Lp & Gp); [rewrite (gm_prev _ G); lia|]. dsimp.
  rewrite (u32_small (d_strstart s - _)), (u32_small (more + _)) by lia. set (s' := s <| d_window := win |> <| d_match_start := _ |> <| d_strstart := _ |> <| d_block_start := _ |> <| d_head := head |> <| d_prev := prev |>).
  assert (Hwin : forall i, 0 <= i < d_w_size s -> aget win i = aget (d_window s) (d_w_size s + i)).
  { intros i Hi. rewrite Gwin. destruct (Z.leb_spec 0 i), (Z.ltb_spec i (0 + d_w_size s)); try lia. cbn [andb]. f_equal. lia. }
  assert (C' := slide_chained s ins (d_strstart s - d_insert s) win head prev). cbv zeta in C'. specialize (C' G P3 Hwin Lh Gh Gp C).
  destruct V as [V1 _ V3 V4 V5 V6 V7 [V8 V9]].
  exists s', (base + d_w_size s), (more + d_w_size s). split; [done|]. split; [|split; [|split; [|split; [|split; [|split; [|split; [|split; [|split]]]]]]]]; unfold s'; dsimp; try done; try lia.
  - destruct G. split; dsimp; rewrite ?Lh, ?Lp, ?Lwin; try done. apply byte_all. intros k x. rewrite Gwin. destruct (_ && _); by apply aget_byte.
  - split; dsimp; try done; try lia.
    + intros i Hi. rewrite Hwin by lia. rewrite V3 by lia. f_equal. lia.
    + intros i Hi. rewrite V5 by done. f_equal. lia.
  - split; [done|]. exists (fun p => 0 <= p /\ ins (p + d_w_size s)). dsimp. replace (d_strstart s - d_w_size s - d_insert s) with (d_strstart s - d_insert s - d_w_size s) by lia.
    by eapply chained_ext; [..|exact C'].
  - split; dsimp; try done; try lia; [|apply u32_sub_shift| |by rewrite Z.sub_diag, Z.add_0_r].
    + unfold is_refilled. by destruct s as [[] ? ? ? ? ? ? ? ? ? ? ? ? ? ? ? ? ? ? ? ? ? ? ? ? ? ? ? ? ? ? ? ? ? ? []].
    + rewrite Z.sub_diag. symmetry. by apply check_spec_nil.
  - match goal with |- context [MAX_DIST ?x] => change (MAX_DIST x) with (MAX_DIST s) end. lia.
  - unfold rolling. dsimp. intros Hr H3. destruct (Hr H3) as [R1 R2]. split; dsimp; [done|]. unfold MIN_MATCH in H3. unfold wbyte in *. dsimp. rewrite R2, !Hwin by lia.
    replace (d_w_size s + (d_strstart s - d_w_size s)) with (d_strstart s) by lia. by replace (d_w_size s + (d_strstart s - d_w_size s + 1)) with (d_strstart s + 1) by lia.
Qed.

(** What [read_buf] changes. *)
Lemma read_buf_ok s base total more :
  geometry s -> view s base total -> check_ok (d_wrap s) (z_adler (d_strm s)) -> more = 2 * d_w_size s - d_lookahead s - d_strstart s -> 0 < more -> 0 < z_avail_in (d_strm s) ->
  exists s1 n, read_buf s (d_strstart s + d_lookahead s) more = Some (s1, n) /\ let s' := s1 <| d_lookahead := u32 (d_lookahead s1 + n) |> in
    0 < n <= z_avail_in (d_strm s) /\ d_lookahead s' = d_lookahead s + n /\ z_avail_in (d_strm s') = z_avail_in (d_strm s) - n /\
    d_strstart s' = d_strstart s /\ d_insert s' = d_insert s /\ d_ins_h s' = d_ins_h s /\ d_w_size s' = d_w_size s /\
    (forall i, i < d_strstart s + d_lookahead s -> aget (d_window s') i = aget (d_window s) i) /\
    geometry s' /\ view s' base total /\ (forall ins f, chained s ins f -> chained s' ins f) /\ advanced s base total s' base.
Proof.
  intros G V Hc Hm H0 Ha. assert (Wr := wsize_range s G). assert (Lw := gm_window _ G). destruct V as [V1 (P1 & P2 & P3) V3 (A1 & A2 & A3) V5 V6 V7 V8]. unfold read_buf.
  set (n := if z_avail_in (d_strm s) >? more then more else z_avail_in (d_strm s)).
  assert (Hn : 0 < n <= z_avail_in (d_strm s) /\ n <= more) by (unfold n; rewrite Z.gtb_ltb; destruct (Z.ltb_spec more (z_avail_in (d_strm s))); lia). clearbody n.
  destruct (Z.eqb_spec n 0); [lia|]. assert (Hin : z_next_in (d_strm s) + n <= Z.of_nat (length (in_buf (d_strm s)))).
  { destruct (aget_in total (base + d_strstart s + d_lookahead s + (n - 1)) ltac:(lia)) as [x Hx]. rewrite <- V5 in Hx by lia. apply aget_Some in Hx. lia. }
  destruct (memcpy_aget (d_window s) (d_strstart s + d_lookahead s) (in_buf (d_strm s)) (z_next_in (d_strm s)) n) as (win & -> & Lwin & Gwin); [lia..|]. dsimp.
  rewrite slice_eq by (rewrite ?Lwin; lia). dsimp.
  assert (Hnew : forall i, 0 <= i < d_strstart s + d_lookahead s + n -> aget win i = aget total (base + i)).
  { intros i Hi. rewrite Gwin. destruct (Z.leb_spec (d_strstart s + d_lookahead s) i), (Z.ltb_spec i (d_strstart s + d_lookahead s + n)); try lia; cbn [andb]; [|apply V3; lia].
    replace (z_next_in (d_strm s) + i - (d_strstart s + d_lookahead s)) with (z_next_in (d_strm s) + (i - (d_strstart s + d_lookahead s))) by lia. rewrite V5 by lia. f_equal. lia. }
  assert (Hold : forall i, i < d_strstart s + d_lookahead s -> aget win i = aget (d_window s) i).
  { intros i Hi. rewrite Gwin. destruct (Z.leb_spec (d_strstart s + d_lookahead s) i); [lia|done]. }
  assert (Hbuf : bytes_at win (d_strstart s + d_lookahead s) n = bytes_at total (base + d_strstart s + d_lookahead s) n).
  { apply bytes_at_ext; [lia..|]. intros k Hk. rewrite Hnew by lia. f_equal. lia. }
  assert (Hsum : (if d_wrap s =? 1 then adler32 (z_adler (d_strm s)) (Some (bytes_at win (d_strstart s + d_lookahead s) n))
    else if d_wrap s =? 2 then crc32 (z_adler (d_strm s)) (Some (bytes_at win (d_strstart s + d_lookahead s) n)) else z_adler (d_strm s)) =
    check_spec (d_wrap s) (z_adler (d_strm s)) (bytes_at total (base + d_strstart s + d_lookahead s) n)).
  { rewrite Hbuf. unfold check_spec. destruct Hc as [Hc1 Hc2]. destruct (Z.eqb_spec (d_wrap s) 1); [by apply adler32_eq_spec; [apply Hc1|apply bytes_at_bytes]|].
    destruct (Z.eqb_spec (d_wrap s) 2); [|done]. apply crc32_on_spec; [by apply Hc2|by apply bytes_at_bytes]. }
  eexists _, n. split; [done|]. cbv zeta. dsimp. rewrite Hsum, (u32_small (_ + _)), (u32_small (z_avail_in _ - _)) by lia.
  split; [lia|]. split; [done|]. split; [done|]. split; [done|]. split; [done|]. split; [done|]. split; [done|]. split; [done|]. split; [|split; [|split]].
  - destruct G. split; dsimp; rewrite ?Lwin; try done. apply byte_all. intros k x. rewrite Gwin. destruct (_ && _) eqn:E; [|by apply aget_byte]. apply andb_true_iff in E as [E1%Z.leb_le E2%Z.ltb_lt].
    replace (z_next_in (d_strm s) + k - (d_strstart s + d_lookahead s)) with (z_next_in (d_strm s) + (k - (d_strstart s + d_lookahead s))) by lia. rewrite V5 by lia. by apply aget_byte.
  - split; unfold in_buf in *; dsimp; try done; try lia.
    + intros i Hi. apply Hnew. lia.
    + intros i Hi. rewrite <- Z.add_assoc, V5 by lia. f_equal. lia.
  - intros ins f. apply chained_ext; dsimp; try done. lia.
  - split; dsimp; try done; try lia.
    + by replace (d_lookahead s + n - d_lookahead s) with n by lia.
    + replace (d_lookahead s + n - d_lookahead s) with n by lia. unfold u32. by rewrite Z.mod_mod.
Qed.

(** Positions that are inserted late. *)
Definition reinserted (s : deflate_state) (h : Z) (prev head : list Z) (n : Z) : deflate_state := (rehashed s h prev head) <| d_insert := n |>.

Lemma insert_loop_ok fuel : forall s ins,
  geometry s -> chained s ins (d_strstart s - d_insert s) -> ins_ok s (d_strstart s - d_insert s) -> 0 <= d_insert s <= d_strstart s -> 0 <= d_lookahead s ->
  d_strstart s + d_lookahead s <= 2 * d_w_size s -> d_insert s = 0 \/ MIN_MATCH <= d_lookahead s + d_insert s -> d_insert s < Z.of_nat fuel ->
  exists h prev head n, insert_loop fuel s (d_strstart s - d_insert s) = Some (reinserted s h prev head n) /\ length prev = length (d_prev s) /\ length head = length (d_head s) /\
    0 <= n <= d_insert s /\ hashed (reinserted s h prev head n) /\ rolling (reinserted s h prev head n).
Proof.
  induction fuel as [|fuel IH]; intros s ins G C Hi Hr Hl Hw Hm Hf; [lia|]. cbn [insert_loop]. assert (Wr := wsize_range s G). unfold MIN_MATCH in *. destruct (Z.eqb_spec (d_insert s) 0) as [E|Hne].
  - exists (d_ins_h s), (d_prev s), (d_head s), (d_insert s). replace (reinserted s (d_ins_h s) (d_prev s) (d_head s) (d_insert s)) with s by (by destruct s).
    split; [done|]. split; [done|]. split; [done|]. split; [lia|]. split; [split; [by left|by exists ins]|]. intros _. rewrite E, Z.sub_0_r in Hi. done.
  - destruct Hm as [|Hm]; [done|]. destruct (INSERT_STRING_ok s ins _ (d_strstart s - d_insert s) G C) as (s1 & q & -> & Hs1 & C1 & Hi1 & _); [lia..|done|]. dsimp. assert (G1 := rehashed_geometry _ _ Hs1 G). destruct Hs1 as (h & prev & head & -> & Lp & Lh).
    set (s1 := rehashed s h prev head) in *. change (d_insert s1) with (d_insert s). change (d_lookahead s1) with (d_lookahead s).
    rewrite (u32_small (d_insert s - 1)) by lia. rewrite u32_small by lia. set (s2 := s1 <| d_insert := d_insert s - 1 |>).
    assert (C2 : chained s2 (fun p => ins p \/ p = d_strstart s - d_insert s) (d_strstart s2 - d_insert s2)).
    { change (d_strstart s2 - d_insert s2) with (d_strstart s - (d_insert s - 1)). replace (d_strstart s - (d_insert s - 1)) with (d_strstart s - d_insert s + 1) by lia. by eapply chained_ext; [..|exact C1]. }
    destruct (Z.ltb_spec (d_lookahead s + (d_insert s - 1)) 3).
    + exists h, prev, head, (d_insert s - 1). split; [done|]. split; [done|]. split; [done|]. split; [lia|]. split; [split; [by right|by eexists]|]. intros Hx. change (d_lookahead s >= 3) in Hx. lia.
    + assert (G2 : geometry s2) by (destruct G1; by split). destruct (IH s2 _ G2 C2) as (h' & p' & d' & n & E & L1 & L2 & Hn & H1 & H2); try done.
      * change (d_strstart s2 - d_insert s2) with (d_strstart s - (d_insert s - 1)). replace (d_strstart s - (d_insert s - 1)) with (d_strstart s - d_insert s + 1) by lia. exact Hi1.
      * change (d_insert s2) with (d_insert s - 1). change (d_strstart s2) with (d_strstart s). lia.
      * right. change (3 <= d_lookahead s + (d_insert s - 1)). lia.
      * change (d_insert s2) with (d_insert s - 1). lia.
      * exists h', p', d', n. change (d_strstart s2 - d_insert s2) with (d_strstart s - (d_insert s - 1)) in E. replace (d_strstart s - d_insert s + 1) with (d_strstart s - (d_insert s - 1)) by lia.
        split; [exact E|]. split; [etransitivity; [exact L1|exact Lp]|]. split; [etransitivity; [exact L2|exact Lh]|]. change (d_insert s2) with (d_insert s - 1) in Hn. split; [lia|done].
Qed.

Lemma reinserted_refilled s h0 h prev head n : is_refilled s (reinserted (s <| d_ins_h := h0 |>) h prev head n).
Proof. unfold is_refilled. by destruct s as [[] ? ? ? ? ? ? ? ? ? ? ? ? ? ? ? ? ? ? ? ? ? ? ? ? ? ? ? ? ? ? ? ? ? ? []]. Qed.

Lemma start_hash_ok s base total :
  geometry s -> view s base total -> (exists ins, chained s ins (d_strstart s - d_insert s)) -> check_ok (d_wrap s) (z_adler (d_strm s)) ->
  exists s', start_hash s = Some s' /\ geometry s' /\ view s' base total /\ hashed s' /\ rolling s' /\ advanced s base total s' base /\
    d_lookahead s' = d_lookahead s /\ d_strm s' = d_strm s.
Proof.
  intros G V [ins C] Hc. assert (Wr := wsize_range s G). assert (Lw := gm_window _ G). assert (V0 := V). destruct V0 as [_ (P1 & P2 & P3) _ _ _ _ _ [I1 I2]]. unfold start_hash. rewrite u32_small by lia. rewrite Z.geb_leb.
  destruct (Z.leb_spec MIN_MATCH (d_lookahead s + d_insert s)) as [Hm|Hm].
  2:{ exists s. split; [done|]. split; [done|]. split; [done|]. split; [split; [by right|by exists ins]|]. split; [intros Hx; unfold MIN_MATCH in *; lia|]. split; [by apply advanced_refl|done]. }
  rewrite u32_small by lia. unfold MIN_MATCH in Hm. rewrite !wbyte_get by lia. dsimp. assert (Hb := wbyte_byte s (d_strstart s - d_insert s) G). unfold byte_ok in Hb.
  rewrite UPDATE_HASH_ok by (done || lia). dsimp. destruct (hash_start s (d_strstart s - d_insert s) G) as [Hh1 Hh2]. cbv zeta in Hh1, Hh2.
  set (h := _ .& d_hash_mask s) in *. clearbody h. set (s0 := s <| d_ins_h := h |>).
  destruct (insert_loop_ok (S (Z.to_nat (d_insert s))) s0 ins) as (h' & prev & head & n & E & Lp & Lh & Hn & H1 & H2).
  - destruct G. by split.
  - by eapply chained_ext; [..|exact C].
  - by split.
  - change (0 <= d_insert s <= d_strstart s). lia.
  - done.
  - done.
  - right. done.
  - change (d_insert s0) with (d_insert s). lia.
  - exists (reinserted s0 h' prev head n). split; [exact E|]. change (d_insert s0) with (d_insert s) in Hn. change (length (d_prev s0)) with (length (d_prev s)) in Lp. change (length (d_head s0)) with (length (d_head s)) in Lh.
    split; [|split; [|split; [done|split; [done|split; [|done]]]]].
    + destruct G. split; unfold s0, reinserted, rehashed; dsimp; rewrite ?Lp, ?Lh; done.
    + destruct V. split; unfold s0, reinserted, rehashed; dsimp; try done. lia.
    + destruct (advanced_refl s base total Hc) as [A1 A2 A3 A4 A5 A6 A7 A8]. split; [|exact A2|exact A3|exact A4|exact A5|exact A6|exact A7|exact A8]. apply reinserted_refilled.
Qed.

Record filled (s : deflate_state) (base : Z) (total : list Z) (s' : deflate_state) (base' : Z) : Prop := {
  fl_geometry : geometry s';
  fl_view : view s' base' total;
  fl_hashed : hashed s';
  fl_advanced : advanced s base total s' base';
  fl_rolling : rolling s -> rolling s';
  fl_enough : MIN_LOOKAHEAD <= d_lookahead s' \/ z_avail_in (d_strm s') = 0;
  fl_room : d_strstart s' < d_w_size s' + MAX_DIST s' }.

Lemma fill_loop_ok fuel : forall s base total,
  geometry s -> view s base total -> hashed s -> check_ok (d_wrap s) (z_adler (d_strm s)) -> d_lookahead s < MIN_LOOKAHEAD -> z_avail_in (d_strm s) < Z.of_nat fuel ->
  exists s' base', fill_loop fuel s = Some s' /\ filled s base total s' base'.
Proof.
  induction fuel as [|fuel IH]; intros s base total G V Hh Hc Hl Hf; [destruct (vw_avail _ _ _ V); lia|]. cbn [fill_loop].
  assert (Wr := wsize_range s G). destruct (vw_pos _ _ _ V) as (P1 & P2 & P3). assert (Hb := vw_bytes _ _ _ V). rewrite (u32_small (_ - _ - _)) by (rewrite (gm_wins _ G); lia).
  destruct (slide_window_ok s base total _ G V Hh Hc Hl eq_refl) as (s1 & base1 & more & -> & G1 & V1 & H1 & A1 & Hm & Hm2 & Hr & El & Es & R1). cbn [mbind option_bind].
  assert (C1 := advanced_check _ _ _ _ _ Hb Hc A1). assert (Hp : 0 <= base + d_strstart s + d_lookahead s) by (destruct V; lia). rewrite Es. destruct (Z.eqb_spec (z_avail_in (d_strm s)) 0) as [E|Hne].
  { exists s1, base1. split; [done|]. split; try done. right. by rewrite Es. }
  assert (Hav := vw_avail _ _ _ V1). rewrite Es in Hav. destruct (read_buf_ok s1 base1 total more G1 V1 C1 Hm ltac:(lia) ltac:(rewrite Es; lia)) as (s2 & n & -> & Hn & El2 & Ea2 & E3 & E4 & E5 & E6 & E7 & G2 & V2 & H2 & A2).
  cbn [mbind option_bind]. cbv zeta in *. set (s2' := s2 <| d_lookahead := _ |>) in *. clearbody s2'. clear s2.
  assert (H2' : exists ins, chained s2' ins (d_strstart s2' - d_insert s2')) by (destruct H1 as [_ [ins H1]]; exists ins; rewrite E3, E4; by apply H2).
  assert (C2 := advanced_check _ _ _ _ _ Hb C1 A2).
  destruct (start_hash_ok s2' base1 total G2 V2 H2' C2) as (s3 & -> & G3 & V3 & H3 & R3 & A3 & El3 & Es3). cbn [mbind option_bind].
  assert (P' : 0 <= base1 + d_strstart s1 + d_lookahead s1) by (destruct V1; lia). assert (A13 : advanced s base total s3 base1).
  { apply (advanced_trans s base total s1 base1); try done. apply (advanced_trans s1 base1 total s2' base1); done. }
  assert (C3 := advanced_check _ _ _ _ _ Hb Hc A13). assert (Ed : d_strstart s3 = d_strstart s1) by (pose proof (ad_pos _ _ _ _ _ A3); lia).
  assert (Ew : d_w_size s3 = d_w_size s1) by (destruct (refilled_wrap _ _ (ad_frame _ _ _ _ _ A3)) as (_ & -> & _); done).
  destruct (Z.ltb_spec (d_lookahead s3) MIN_LOOKAHEAD) as [Hlt|Hge], (Z.eqb_spec (z_avail_in (d_strm s3)) 0) as [E0|Hn0]; cbn [andb negb].
  1,3,4: exists s3, base1; split; [done|]; split; [done..|by (left + right)|unfold MAX_DIST in *; by rewrite Ed, Ew].
  destruct (IH s3 base1 total G3 V3 H3 C3 Hlt) as (s4 & base4 & E & [F1 F2 F3 F4 F5 F6 F7]); [rewrite Es3, Ea2, Es; lia|]. exists s4, base4. split; [exact E|]. split; try done.
  - apply (advanced_trans s base total s3 base1); done.
  - intros _. by apply F5.
Qed.

(** Zeros behind the data. *)
Lemma zeroed_ok s base total i n :
  geometry s -> view s base total -> hashed s -> check_ok (d_wrap s) (z_adler (d_strm s)) -> d_strstart s + d_lookahead s <= i -> 0 <= n -> i + n <= 2 * d_w_size s ->
  exists win, zmemzero (d_window s) i n = Some win /\ forall hw, 0 <= hw <= 2 * d_w_size s -> let s' := s <| d_window := win |> <| d_high_water := hw |> in
    geometry s' /\ view s' base total /\ hashed s' /\ (rolling s -> rolling s') /\ advanced s base total s' base.
Proof.
  intros G V [Hs [ins C]] Hc Hi Hn Hin. assert (Lw := gm_window _ G). destruct (vw_pos _ _ _ V) as (P1 & P2 & P3).
  destruct (zmemzero_aget (d_window s) i n) as (win & E & Lwin & Gwin); [lia..|]. exists win. split; [done|]. intros hw Hhw. cbv zeta.
  assert (Hold : forall k, k < d_strstart s + d_lookahead s -> aget win k = aget (d_window s) k) by (intros k Hk; rewrite Gwin; destruct (Z.leb_spec i k); [lia|done]).
  split; [|split; [|split; [|split]]].
  - destruct G. split; dsimp; rewrite ?Lwin; try done. apply byte_all. intros k x. rewrite Gwin. destruct (_ && _); [intros [= <-]; unfold byte_ok; lia|by apply aget_byte].
  - destruct V. split; dsimp; try done. intros k Hk. rewrite Hold by lia. auto.
  - split; [exact Hs|]. exists ins. by eapply chained_ext; [..|exact C].
  - unfold rolling, ins_ok, wbyte, MIN_MATCH. dsimp. intros Hr H3. rewrite !Hold by lia. by apply Hr.
  - destruct (advanced_refl s base total Hc) as [A1 A2 A3 A4 A5 A6 A7 A8]. split; [|exact A2|exact A3|exact A4|exact A5|exact A6|exact A7|exact A8].
    clear. unfold is_refilled. by destruct s as [[] ? ? ? ? ? ? ? ? ? ? ? ? ? ? ? ? ? ? ? ? ? ? ? ? ? ? ? ? ? ? ? ? ? ? []].
Qed.

Lemma zero_window_ok s base total :
  geometry s -> view s base total -> hashed s -> check_ok (d_wrap s) (z_adler (d_strm s)) ->
  exists s', zero_window s = Some s' /\ geometry s' /\ view s' base total /\ hashed s' /\ (rolling s -> rolling s') /\ advanced s base total s' base /\
    d_lookahead s' = d_lookahead s /\ d_strm s' = d_strm s.
Proof.
  intros G V Hh Hc. assert (Wr := wsize_range s G). destruct (vw_pos _ _ _ V) as (P1 & P2 & P3). assert (Hhw := vw_high _ _ _ V).
  assert (Hsame : exists s', Some s = Some s' /\ geometry s' /\ view s' base total /\ hashed s' /\ (rolling s -> rolling s') /\ advanced s base total s' base /\ d_lookahead s' = d_lookahead s /\ d_strm s' = d_strm s).
  { exists s. split; [done|]. split; [done|]. split; [done|]. split; [done|]. split; [done|]. split; [by apply advanced_refl|done]. }
  unfold zero_window, WIN_INIT, MAX_MATCH. rewrite (gm_wins _ G). destruct (Z.ltb_spec (d_high_water s) (2 * d_w_size s)); [|done].
  rewrite !(u32_small (d_strstart s + d_lookahead s)) by lia. destruct (Z.ltb_spec (d_high_water s) (d_strstart s + d_lookahead s)) as [Hlt|Hge].
  - rewrite !(u32_small (2 * d_w_size s - _)) by lia. set (n := if _ >? 258 then _ else _). assert (Hn : 0 <= n <= 2 * d_w_size s - (d_strstart s + d_lookahead s)) by (unfold n; rewrite Z.gtb_ltb; destruct (Z.ltb_spec 258 (2 * d_w_size s - (d_strstart s + d_lookahead s))); lia). clearbody n.
    destruct (zeroed_ok s base total (d_strstart s + d_lookahead s) n G V Hh Hc) as (win & -> & H1); [lia..|]. cbn [mbind option_bind]. rewrite u32_small by lia.
    destruct (H1 (d_strstart s + d_lookahead s + n) ltac:(lia)) as (X1 & X2 & X3 & X4 & X5). eexists. split; [done|]. do 5 (split; [done|]). done.
  - rewrite (u32_small (d_strstart s + d_lookahead s + 258)) by lia. destruct (Z.ltb_spec (d_high_water s) (d_strstart s + d_lookahead s + 258)); [|done].
    rewrite !(u32_small (2 * d_w_size s - _)), (u32_small (d_strstart s + d_lookahead s + 258 - _)) by lia. set (n := if _ >? _ then _ else _).
    assert (Hn : 0 <= n <= 2 * d_w_size s - d_high_water s) by (unfold n; rewrite Z.gtb_ltb; destruct (Z.ltb_spec (2 * d_w_size s - d_high_water s) (d_strstart s + d_lookahead s + 258 - d_high_water s)); lia). clearbody n.
    destruct (zeroed_ok s base total (d_high_water s) n G V Hh Hc) as (win & -> & H2); [lia..|]. cbn [mbind option_bind]. rewrite u32_small by lia.
    destruct (H2 (d_high_water s + n) ltac:(lia)) as (X1 & X2 & X3 & X4 & X5). eexists. split; [done|]. do 5 (split; [done|]). done.
Qed.

Lemma fill_window_ok s base total :
  geometry s -> view s base total -> hashed s -> check_ok (d_wrap s) (z_adler (d_strm s)) -> d_lookahead s < MIN_LOOKAHEAD ->
  exists s' base', fill_window s = Some s' /\ filled s base total s' base'.
Proof.
  intros G V Hh Hc Hl. unfold fill_window. destruct (fill_loop_ok (S (Z.to_nat (z_avail_in (d_strm s)))) s base total G V Hh Hc Hl) as (s1 & b1 & -> & [F1 F2 F3 F4 F5 F6 F7]); [lia|].
  cbn [mbind option_bind]. assert (Hb := vw_bytes _ _ _ V). assert (C1 := advanced_check _ _ _ _ _ Hb Hc F4). destruct (zero_window_ok s1 b1 total F1 F2 F3 C1) as (s2 & -> & Z1 & Z2 & Z3 & Z4 & Z5 & Z6 & Z7).
  assert (Hp : 0 <= base + d_strstart s + d_lookahead s) by (destruct V; lia). exists s2, b1. split; [done|].
  assert (Ed : d_strstart s2 = d_strstart s1) by (pose proof (ad_pos _ _ _ _ _ Z5); lia). destruct (refilled_wrap _ _ (ad_frame _ _ _ _ _ Z5)) as (_ & Ew & _).
  split; try done; [by apply (advanced_trans s base total s1 b1)|auto|by rewrite Z6, Z7|]. unfold MAX_DIST in *. by rewrite Ed, Ew.
Qed.
