(* ===== verification/DeflateMatch.v ===== *)
(** The search for matches: what [longest_match()] returns is a match, inside of the window and of the lookahead. *)
From S2P Require Import Prelude Record Bits InflateState TreesTables Trees BitWriter DeflateState Deflate.
From S2P Require Import DeflateOut DeflateHash DeflateWindow.

(** ** Comparison of two strings *)
Definition agree (window : list Z) (a b i j : Z) : Prop := forall k, i <= k < j -> aget window (a + k) = aget window (b + k).

Lemma agree_app window a b i j k : agree window a b i j -> agree window a b j k -> agree window a b i k.
Proof. intros H1 H2 n Hn. destruct (decide (n < j)); [apply H1|apply H2]; lia. Qed.
Lemma agree_one window a b i x : aget window (a + i) = Some x -> aget window (b + i) = Some x -> agree window a b i (i + 1).
Proof. intros H1 H2 k Hk. replace k with i by lia. congruence. Qed.

(** From index [i] of both strings. *)
Lemma compare_ahead_ok k : forall window a b i,
  0 <= a + i -> 0 <= b + i -> a + i + Z.of_nat k < Z.of_nat (length window) -> b + i + Z.of_nat k < Z.of_nat (length window) ->
  exists eq j, compare_ahead k window (a + i) (b + i) = Some (eq, a + j, b + j) /\ i <= j <= i + Z.of_nat k /\ agree window b a (i + 1) j /\
    (eq = true -> j = i + Z.of_nat k /\ agree window b a (i + 1) (j + 1)) /\ (eq = false -> i < j).
Proof.
  induction k as [|k IH]; intros window a b i Ha Hb La Lb; cbn [compare_ahead].
  - exists true, i. split; [done|]. split; [lia|]. split; [intros n Hn; lia|]. split; [|done]. intros _. split; [lia|]. intros n Hn. lia.
  - destruct (aget_in window (a + i + 1) ltac:(lia)) as [x Hx]. destruct (aget_in window (b + i + 1) ltac:(lia)) as [y Hy]. rewrite Hx, Hy. cbn [mbind option_bind].
    destruct (Z.eqb_spec x y) as [->|Hne].
    + replace (a + i + 1) with (a + (i + 1)) in * by lia. replace (b + i + 1) with (b + (i + 1)) in * by lia. destruct (IH window a b (i + 1)) as (eq & j & -> & Hj & A1 & A2 & A3); [lia..|]. exists eq, j. split; [done|].
      assert (A0 : agree window b a (i + 1) (i + 1 + 1)) by (by apply (agree_one _ _ _ _ y)). split; [lia|]. split; [by apply (agree_app _ _ _ _ (i + 1 + 1))|]. split.
      * intros He. destruct (A2 He) as [E A4]. split; [lia|]. by apply (agree_app _ _ _ _ (i + 1 + 1)).
      * intros He. specialize (A3 He). lia.
    + exists false, (i + 1). rewrite !Z.add_assoc. split; [done|]. split; [lia|]. split; [intros n Hn; lia|]. split; [done|]. lia.
Qed.

Lemma compare_loop_ok fuel : forall window a b i n,
  0 <= a + i -> 0 <= b + i -> a + n < Z.of_nat (length window) -> b + n < Z.of_nat (length window) -> (n - i) mod 8 = 0 -> i < n <= i + 8 * Z.of_nat fuel ->
  exists j, compare_loop fuel window (a + i) (b + i) (a + n) = Some (a + j) /\ i < j <= n /\ agree window b a (i + 1) j.
Proof.
  induction fuel as [|fuel IH]; intros window a b i n Ha Hb La Lb Hn Hf; [lia|]. cbn [compare_loop]. assert (Hi : i + 8 <= n) by dlia.
  destruct (compare_ahead_ok 8 window a b i) as (eq & j & -> & Hj & A1 & A2 & A3); [lia..|]. cbn [mbind option_bind].
  destruct eq; cbn [andb].
  - destruct (A2 eq_refl) as [Ej A4]. destruct (Z.ltb_spec (a + j) (a + n)).
    + destruct (IH window a b j n) as (j' & -> & Hj' & A5); [lia..|dlia|lia|]. exists j'. split; [done|]. split; [lia|]. by apply (agree_app _ _ _ _ (j + 1)).
    + exists j. split; [done|]. split; [dlia|done].
  - exists j. split; [done|]. specialize (A3 eq_refl). split; [lia|done].
Qed.

(** ** Matches *)
Definition match_ok (s : deflate_state) (m len : Z) : Prop :=
  0 <= m < d_strstart s /\ d_strstart s - m <= MAX_DIST s /\ agree (d_window s) m (d_strstart s) 0 len.

Section search.
Context (s : deflate_state) (ins : Z -> Prop).
Context (G : geometry s) (C : chained s ins (d_strstart s + 1)) (Hpos : 0 <= d_strstart s) (Hroom : d_strstart s + MIN_LOOKAHEAD <= 2 * d_w_size s).

(** A position on the chain of the string at [strstart]. *)
Definition candidate (p : Z) : Prop := 0 < p < d_strstart s /\ d_strstart s - p <= MAX_DIST s /\ ins p /\ hash_at s p = hash_at s (d_strstart s).

Lemma aget_wbyte p q : 0 <= p < 2 * d_w_size s -> 0 <= q < 2 * d_w_size s -> wbyte s p = wbyte s q -> aget (d_window s) p = aget (d_window s) q.
Proof. intros Hp Hq E. rewrite !wbyte_get by (rewrite (gm_window _ G); lia). by rewrite E. Qed.

Lemma match_at_ok best_len e1 e cur :
  candidate cur -> 0 <= best_len <= MAX_MATCH ->
  exists r, match_at (d_window s) (d_strstart s) best_len e1 e cur = Some r /\
    forall len, r = Some len -> 3 <= len <= MAX_MATCH /\ match_ok s cur len.
Proof.
  intros (Hc1 & Hc2 & Hc3 & Hc4) Hb. assert (Wr := wsize_range s G). assert (Lw := gm_window _ G). unfold MIN_LOOKAHEAD, MAX_MATCH, MIN_MATCH in *. unfold match_at, MAX_MATCH. rewrite !wbyte_get by lia. cbn [mbind option_bind].
  destruct (negb _); [by exists None|]. destruct (negb _); [by exists None|]. destruct (Z.eqb_spec (wbyte s cur) (wbyte s (d_strstart s))) as [E0|]; cbn [negb]; [|by exists None].
  destruct (Z.eqb_spec (wbyte s (cur + 1)) (wbyte s (d_strstart s + 1))) as [E1|]; cbn [negb]; [|by exists None].
  assert (E2 := hash_third s cur (d_strstart s) G Hc4 E0 E1).
  destruct (compare_loop_ok 33 (d_window s) (d_strstart s) cur 2 258) as (j & -> & Hj & Ha); [lia..|done|lia|]. cbn [mbind option_bind].
  eexists. split; [done|]. intros len [= <-]. replace (258 - (d_strstart s + 258 - (d_strstart s + j))) with j by lia. split; [lia|]. split; [lia|]. split; [done|].
  assert (Hw : forall k, 0 <= k < 3 -> wbyte s (cur + k) = wbyte s (d_strstart s + k) -> agree (d_window s) cur (d_strstart s) k (k + 1)).
  { intros k Hk E n Hn. replace n with k by lia. apply aget_wbyte; [lia..|done]. }
  apply (agree_app _ _ _ _ 1); [apply (Hw 0); [lia|by rewrite !Z.add_0_r]|]. apply (agree_app _ _ _ _ 2); [by apply (Hw 1)|]. apply (agree_app _ _ _ _ 3); [by apply (Hw 2)|done].
Qed.

(** The search along the chain, as far as the best match goes. *)
Lemma chain_loop_ok fuel : forall limit nice cur chain ms best e1 e,
  candidate cur -> cur < Z.of_nat fuel -> 0 <= best <= MAX_MATCH -> d_strstart s - MAX_DIST s <= limit -> 0 <= limit ->
  exists ms' best', chain_loop fuel s limit nice cur chain ms best e1 e = Some (ms', best') /\
    (ms' = ms /\ best' = best \/ best < best' <= MAX_MATCH /\ match_ok s ms' best').
Proof.
  induction fuel as [|fuel IH]; intros limit nice cur chain ms best e1 e Hc Hf Hb Hl Hl0; [destruct Hc; lia|]. cbn [chain_loop].
  assert (Wr := wsize_range s G). assert (Hd := max_dist s G). assert (Lw := gm_window _ G).
  assert (Hnext : forall ms1 best1 f1 f, 0 <= best1 <= MAX_MATCH -> (ms1 = ms /\ best1 = best \/ best < best1 /\ match_ok s ms1 best1) ->
    exists ms' best', (cur_match ← aget (d_prev s) (cur .& d_w_mask s);
       if cur_match >? limit then
         let chain_length := u32 (chain - 1) in
         if chain_length =? 0 then Some (ms1, best1) else chain_loop fuel s limit nice cur_match chain_length ms1 best1 f1 f
       else Some (ms1, best1)) = Some (ms', best') /\ (ms' = ms /\ best' = best \/ best < best' <= MAX_MATCH /\ match_ok s ms' best')).
  { intros ms1 best1 f1 f Hb1 Hm. assert (Hm' : ms1 = ms /\ best1 = best \/ best < best1 <= MAX_MATCH /\ match_ok s ms1 best1) by (destruct Hm as [|[]]; [by left|right; split; [lia|done]]).
    destruct Hc as (Hc1 & Hc2 & Hc3 & Hc4). destruct (ch_prev _ _ _ C cur Hc3 ltac:(lia)) as (q & -> & Hq). cbn [mbind option_bind]. rewrite Z.gtb_ltb.
    destruct (Z.ltb_spec limit q) as [Hlq|]; [|by eexists _, _]. cbv zeta. destruct (_ =? 0); [by eexists _, _|].
    destruct Hq as [->|(Q1 & Q2 & Q3)]; [lia|]. destruct (IH limit nice q (u32 (chain - 1)) ms1 best1 f1 f) as (ms' & best' & E & Hr); [|lia|done|done|done|].
    { split; [lia|]. split; [lia|]. split; [done|]. by rewrite Q3. }
    exists ms', best'. split; [exact E|]. destruct Hr as [[-> ->]|[]]; [done|]. right. split; [|done]. destruct Hm as [[]|[]]; lia. }
  cbv zeta. destruct (match_at_ok best e1 e cur Hc Hb) as (r & -> & Hr). cbn [mbind option_bind]. destruct r as [len|]; [|apply Hnext; [done|by left]].
  destruct (Hr len eq_refl) as [Hlen Hm]. rewrite Z.gtb_ltb. destruct (Z.ltb_spec best len) as [Hlt|]; [|apply Hnext; [done|by left]].
  destruct (_ >=? _); [exists cur, len; split; [done|right; split; [lia|done]]|]. unfold MIN_LOOKAHEAD, MAX_MATCH, MIN_MATCH in *.
  destruct (aget_in (d_window s) (d_strstart s + len - 1) ltac:(lia)) as [x ->]. destruct (aget_in (d_window s) (d_strstart s + len) ltac:(lia)) as [y ->]. cbn [mbind option_bind].
  apply Hnext; [lia|by right].
Qed.

(** The search either finds nothing better or a match. *)
Lemma longest_match_ok cur :
  candidate cur -> 0 <= d_prev_length s <= MAX_MATCH -> 0 <= d_lookahead s < 2 ^ 32 ->
  exists ms len, longest_match s cur = Some (s <| d_match_start := ms |>, len) /\ 0 <= len <= d_lookahead s /\ len <= MAX_MATCH /\
    (ms = d_match_start s /\ len <= d_prev_length s \/ match_ok s ms len).
Proof.
  intros Hc Hp Hl. assert (Wr := wsize_range s G). assert (Hd := max_dist s G). assert (Lw := gm_window _ G). unfold longest_match, MIN_LOOKAHEAD, MAX_MATCH, MIN_MATCH in *.
  destruct (aget_in (d_window s) (d_strstart s + d_prev_length s - 1)) as [x ->]; [destruct Hc; lia|]. destruct (aget_in (d_window s) (d_strstart s + d_prev_length s) ltac:(lia)) as [y ->]. cbn [mbind option_bind]. cbv zeta.
  set (limit := if _ >? _ then _ else _). assert (Hlim : d_strstart s - MAX_DIST s <= limit /\ 0 <= limit) by (unfold limit; rewrite Z.gtb_ltb; destruct (Z.ltb_spec (MAX_DIST s) (d_strstart s)); unfold NIL; lia). clearbody limit.
  destruct (chain_loop_ok (S (Z.to_nat (d_strstart s))) limit (if u32 (d_nice_match s) >? d_lookahead s then d_lookahead s else d_nice_match s) cur
    (if d_prev_length s >=? d_good_match s then d_max_chain_length s ≫ 2 else d_max_chain_length s) (d_match_start s) (d_prev_length s) x y) as (ms & best & -> & Hr); [done|destruct Hc; lia|done|apply Hlim..|]. cbn [mbind option_bind].
  unfold MAX_MATCH in Hr. assert (Hbest : 0 <= best <= 258) by (destruct Hr as [[_ ->]|[]]; lia). rewrite u32_small by lia.
  exists ms, (if best <=? d_lookahead s then best else d_lookahead s). split; [done|]. destruct (Z.leb_spec best (d_lookahead s)).
  - split; [lia|]. split; [lia|]. destruct Hr as [[-> ->]|[_ Hr]]; [left; split; [done|lia]|by right].
  - split; [lia|]. split; [lia|]. destruct Hr as [[-> ->]|[_ (M1 & M2 & M3)]]; [left; split; [done|lia]|]. right. split; [done|]. split; [done|]. intros k Hk. apply M3. lia.
Qed.
End search.
