(* ===== verification/DeflateBlocks.v ===== *)
(** The blocks of the compressor: literals and matches are collected for what was read, and a block that is flushed stands for
    the bytes since the last one. *)
From S2P Require Import Prelude Record Bits Huffman Lz Fixed DeflateFormat InflateState TreesTables Trees.
From S2P Require Import BitWriter TreesCodes TreesEmit TreesBuild TreesLens TreesTree TreesRle TreesHeader TreesTally.
From S2P Require Import TreesFlush DeflateState Deflate DeflateOut DeflateHash DeflateWindow DeflateMatch.

(** ** What the output of a block leaves alone *)
Definition tparams (t : trees_state) : Z * Z * Z := (t_level t, t_strategy t, t_lit_bufsize t).

Ltac inv_opt := repeat match goal with
  | H : (?m ≫= _) = Some _ |- _ => destruct m eqn:?; cbn [mbind option_bind] in H; [|discriminate H]
  | H : Some _ = Some _ |- _ => injection H as H; subst
  | H : (_, _) = (_, _) |- _ => injection H as H; subst
  | p : (_ * _)%type |- _ => destruct p
  end.

Lemma init_block_params t t' : init_block t = Some t' -> tparams t' = tparams t.
Proof. unfold init_block. intros H. by inv_opt. Qed.
Lemma build_tree_params t d t' : build_tree t d = Some t' -> tparams t' = tparams t.
Proof. unfold build_tree. intros H. inv_opt. by destruct d. Qed.
Lemma build_bl_tree_params t t' m : build_bl_tree t = Some (t', m) -> tparams t' = tparams t.
Proof. unfold build_bl_tree. intros H. inv_opt. by apply build_tree_params in Heqo1. Qed.
Lemma compress_block_params t lt dt t' : compress_block t lt dt = Some t' -> tparams t' = tparams t.
Proof. unfold compress_block. intros H. by inv_opt. Qed.
Lemma huffman_block_params t a b c d t' : huffman_block t a b c d = Some t' -> tparams t' = tparams t.
Proof.
  unfold huffman_block, send_all_trees. intros H. destruct (_ || _); inv_opt; by apply compress_block_params in H.
Qed.
Lemma tr_stored_block_params t buf n last t' : tr_stored_block t buf n last = Some t' -> tparams t' = tparams t.
Proof. unfold tr_stored_block. intros H. by inv_opt. Qed.

(** The steps in the context keep the parameters. *)
Ltac same_params := repeat match goal with
  | H : build_tree _ _ = Some _ |- _ => apply build_tree_params in H
  | H : build_bl_tree _ = Some _ |- _ => apply build_bl_tree_params in H
  | H : huffman_block _ _ _ _ _ = Some _ |- _ => apply huffman_block_params in H
  | H : tr_stored_block _ _ _ _ = Some _ |- _ => apply tr_stored_block_params in H
  | H : init_block _ = Some _ |- _ => apply init_block_params in H
  end; unfold tparams in *; cbn [upd set_t_w set_t_data_type t_level t_strategy t_lit_bufsize] in *; congruence.

Lemma tr_flush_block_params t buf n last t' : tr_flush_block t buf n last = Some t' -> tparams t' = tparams t.
Proof.
  unfold tr_flush_block. intros H. inv_opt. transitivity (tparams t0).
  - transitivity (tparams t1); [destruct (nz last); inv_opt; same_params|]. destruct (_ && _); same_params.
  - destruct (_ >? 0); inv_opt; [|done]. destruct (_ =? Z_UNKNOWN); inv_opt; same_params.
Qed.

(** ** Symbols of the data *)
Lemma expand_snoc hist syms x : expand hist (syms ++ [x]) = apply_sym (expand hist syms) x.
Proof. unfold expand. by rewrite fold_left_app. Qed.
Lemma expand_longer syms : forall hist, Forall sym_ok syms -> (length hist + length syms <= length (expand hist syms))%nat.
Proof.
  induction syms as [|x syms IH]; intros hist Hs; [cbn; lia|]. apply Forall_cons_1 in Hs as [[H1 H2] Hs]. unfold expand in *. cbn [fold_left length]. specialize (IH (apply_sym hist x) Hs).
  assert (length hist + 1 <= length (apply_sym hist x))%nat; [|lia]. unfold apply_sym. destruct (x.1 =? 0); [rewrite length_app; cbn; lia|]. rewrite lz_copy_length; lia.
Qed.
Lemma all_fit_snoc hist syms x : all_fit hist syms -> sym_fits (expand hist syms) x -> all_fit hist (syms ++ [x]).
Proof.
  revert hist. induction syms as [|y syms IH]; intros hist; cbn [app all_fit]; [by intros _ H|]. intros [H1 H2] Hx. split; [done|]. by apply IH.
Qed.

Lemma take_snoc (total : list Z) cut c : 0 <= cut -> aget total cut = Some c -> take (Z.to_nat cut) total ++ [c] = take (Z.to_nat (cut + 1)) total.
Proof.
  intros Hc H. unfold aget in H. destruct (Z.leb_spec 0 cut); [|done]. replace (Z.to_nat (cut + 1)) with (S (Z.to_nat cut)) by lia. by rewrite (take_S_r _ _ _ H).
Qed.
(** A match that repeats what is [dist] bytes back copies the data. *)
Lemma lz_copy_data n : forall total cut dist,
  0 < dist <= cut -> cut + Z.of_nat n <= Z.of_nat (length total) -> (forall i, 0 <= i < Z.of_nat n -> aget total (cut + i) = aget total (cut + i - dist)) ->
  lz_copy (take (Z.to_nat cut) total) dist n = take (Z.to_nat (cut + Z.of_nat n)) total.
Proof.
  induction n as [|n IH]; intros total cut dist Hd Hl Hm; cbn [lz_copy]; [f_equal; lia|].
  destruct (aget_in total (cut - dist) ltac:(lia)) as [c Hc]. assert (Hx : aget total cut = Some c).
  { specialize (Hm 0 ltac:(lia)). rewrite Z.add_0_r in Hm. rewrite Hm. by replace (cut - dist) with (cut - dist) by lia. }
  assert (Hn : nth (length (take (Z.to_nat cut) total) - Z.to_nat dist) (take (Z.to_nat cut) total) 0 = c).
  { rewrite length_take. replace (Z.to_nat cut `min` length total - Z.to_nat dist)%nat with (Z.to_nat (cut - dist)) by lia.
    apply nth_lookup_Some. rewrite lookup_take_lt by lia. unfold aget in Hc. by destruct (Z.leb_spec 0 (cut - dist)); [|lia]. }
  rewrite Hn, (take_snoc total cut c) by (done || lia). rewrite IH; [f_equal; lia|lia|lia|].
  intros i Hi. replace (cut + 1 + i) with (cut + (i + 1)) by lia. apply Hm. lia.
Qed.

(** ** Room *)
Lemma room_for_mono syms : forall n n' lit lx, n' <= n -> room_for n lit lx syms = true -> room_for n' lit lx syms = true.
Proof.
  induction syms as [|x syms IH]; intros n n' lit lx Hn; cbn [room_for]; [rewrite !Z.leb_le; lia|]. rewrite !andb_true_iff, !Z.leb_le. intros [H1 H2]. split; [lia|]. by apply (IH (n + sym_max x)); [lia|].
Qed.

(** Every way to write a part of the data with less than [lit] symbols of the kind [P] fits into the buffers. *)
Definition roomy (P : sym -> Prop) (lit : Z) (total : list Z) : Prop :=
  forall a b syms, 0 <= a <= b -> b <= Z.of_nat (length total) -> Forall sym_ok syms -> Forall P syms -> all_fit (take (Z.to_nat a) total) syms ->
    expand (take (Z.to_nat a) total) syms = take (Z.to_nat b) total -> Z.of_nat (length syms) < lit ->
    room_for (7 + HEADER_MAX) lit 0 syms = true /\ 57 + 8 * (b - a) <= 32 * lit /\ b - a < 2 ^ 16.

Section blocks.
Context (P : sym -> Prop) (lit : Z) (total : list Z) (Hroomy : roomy P lit total).

(** ** The state between two calls

    [syms] were collected for the bytes of [total] from the start of the block up to [cut]. *)
Record core (s : deflate_state) (base cut : Z) (syms : list sym) : Prop := {
  co_geometry : geometry s;
  co_view : view s base total;
  co_hashed : hashed s;
  co_check : check_ok (d_wrap s) (z_adler (d_strm s));
  co_out : out_ok s;
  co_collected : collected (d_trees s) syms;
  co_class : Forall P syms;
  co_block : 0 <= base + d_block_start s <= cut /\ cut <= base + d_strstart s + d_lookahead s;
  co_fit : all_fit (take (Z.to_nat (base + d_block_start s)) total) syms;
  co_data : expand (take (Z.to_nat (base + d_block_start s)) total) syms = take (Z.to_nat cut) total;
  co_lit : t_lit_bufsize (d_trees s) = lit;
  co_level : 0 < t_level (d_trees s) }.

(** The fields that do not matter here. *)
Definition scratch (s : deflate_state) (a b c d e : Z) : deflate_state :=
  s <| d_match_length := a |> <| d_prev_length := b |> <| d_prev_match := c |> <| d_match_available := d |> <| d_match_start := e |>.
Lemma core_scratch s base cut syms a b c d e : core s base cut syms -> core (scratch s a b c d e) base cut syms.
Proof.
  intros [G [] Hh Hc [] Hco Hcl Hb Hf Hd Hl Hv]. split; try done; [by apply (geometry_same s)|by apply (hashed_same s)].
Qed.

(** [n] bytes go from the lookahead to the history. *)
Lemma core_step s base cut syms n :
  core s base cut syms -> 0 <= n <= d_lookahead s -> core (s <| d_strstart := d_strstart s + n |> <| d_lookahead := d_lookahead s - n |>) base cut syms.
Proof.
  intros [[] V [Hs [ins Hch]] Hc [] Hco Hcl Hb Hf Hd Hl Hv] Hn. destruct V as [V1 V2 V3 V4 V5 V6 V7 V8]. split; try done.
  - split; dsimp; try done; try lia.
    + intros i Hi. apply V3. lia.
    + intros i Hi. rewrite V5 by lia. f_equal. lia.
  - split; dsimp; [lia|]. exists ins. apply (chained_front _ _ (d_strstart s - d_insert s)); [|lia]. eapply chained_ext; [..|exact Hch]; dsimp; try done; lia.
  - dsimp. lia.
Qed.

Lemma core_cut s base cut syms : core s base cut syms -> 0 <= cut <= Z.of_nat (length total).
Proof. intros C. destruct (co_block _ _ _ _ C). destruct (vw_avail _ _ _ (co_view _ _ _ _ C)). lia. Qed.

(** ** Tallies *)
Lemma collected_matches t syms n : collected t syms -> collected (t <| t_matches := n |>) syms.
Proof. intros [[] ? ? ? ? ? ? ? ? ? ?]. by split. Qed.
Lemma tr_tally_params t d l t' f : tr_tally t d l = Some (t', f) -> tparams t' = tparams t.
Proof. unfold tr_tally. intros H. destruct (_ =? 0); by inv_opt. Qed.

(** The state with the buffers and frequencies of one more symbol. *)
Lemma core_tally s base cut cut' syms x t' :
  core s base cut syms -> d_pending_out s = 0 -> collected t' (syms ++ [x]) -> wbits (t_w t') = wbits (t_w (d_trees s)) -> tparams t' = tparams (d_trees s) ->
  P x -> sym_fits (take (Z.to_nat cut) total) x -> apply_sym (take (Z.to_nat cut) total) x = take (Z.to_nat cut') total -> cut <= cut' <= base + d_strstart s + d_lookahead s ->
  core (s <| d_trees := t' |>) base cut' (syms ++ [x]) /\ obits (s <| d_trees := t' |>) = obits s.
Proof.
  intros C Hp Ht Ew Ep HP Hfit Happ Hcut. assert (Eo : obits (s <| d_trees := t' |>) = obits s) by (rewrite !obits_start by done; exact Ew). split; [|done].
  destruct C as [G [] Hh Hc [O1 O2 O3 O4 O5 O6 O7] Hco Hcl Hb Hf Hd Hl Hv]. injection Ep as E1 E2 E3.
  assert (Hlen : Z.of_nat (length (w_buf (t_w t'))) = Z.of_nat (length (w_buf (t_w (d_trees s))))) by (rewrite (bs_buf _ _ Ht), (bs_buf _ _ Hco); lia).
  assert (Hw := bs_writer _ _ Ht). assert (Hpk := wk_pending _ Hw).
  split; dsimp; try done.
  - by apply (geometry_same s).
  - by apply (hashed_same s).
  - split; dsimp; try done; [by rewrite Ew, Hlen|rewrite Hp; unfold d_pending; dsimp; lia| |by left].
    unfold obytes, bytes_at. dsimp. rewrite Hp. apply (wk_bytes _ Hw).
  - apply Forall_app. split; [done|]. by apply Forall_singleton.
  - lia.
  - by apply all_fit_snoc; [|rewrite Hd].
  - by rewrite expand_snoc, Hd.
  - lia.
  - lia.
Qed.

Lemma tally_lit_ok s base cut syms c :
  core s base cut syms -> drained s -> aget total cut = Some c -> P (0, c) -> cut < base + d_strstart s + d_lookahead s -> Z.of_nat (length syms) + 1 < lit ->
  exists t', tally_lit s c = Some (s <| d_trees := t' |>, Z.of_nat (length syms) + 1 =? lit - 1) /\ core (s <| d_trees := t' |>) base (cut + 1) (syms ++ [(0, c)]) /\
    obits (s <| d_trees := t' |>) = obits s /\ tparams t' = tparams (d_trees s).
Proof.
  intros C (D1 & D2 & D3) Hc HP Hcut Hn. assert (Hb := aget_byte _ _ _ (vw_bytes _ _ _ (co_view _ _ _ _ C)) Hc). unfold byte_ok in Hb. assert (Hco := co_collected _ _ _ _ C).
  assert (Hl := bs_last _ _ Hco). assert (Hlit := bs_lit _ _ Hco). assert (Hcut0 := core_cut _ _ _ _ C). unfold tally_lit. rewrite (proj1 (tally_macros (d_trees s) 1 c ltac:(lia) ltac:(lia))).
  destruct (tr_tally_ok (d_trees s) syms 0 c Hco) as (t' & E & Ht & Ew & _); [unfold d_pending in D1; cbn; rewrite D1; lia|rewrite Hl, (co_lit _ _ _ _ C); lia|split; cbn; lia|].
  rewrite E. cbn [mbind option_bind]. rewrite Hl, (co_lit _ _ _ _ C). exists t'. split; [done|]. assert (Ep := tr_tally_params _ _ _ _ _ E).
  destruct (core_tally s base cut (cut + 1) syms (0, c) t' C D2 Ht Ew Ep HP) as [C' Eo]; [unfold sym_fits; cbn [fst]; lia|unfold apply_sym; cbn [fst snd]; apply take_snoc; (done || lia)|lia|]. done.
Qed.

Lemma tally_dist_ok s base cut syms dist len :
  core s base cut syms -> drained s -> 0 < dist <= cut -> dist <= 32768 -> 3 <= len <= 258 -> cut + len <= base + d_strstart s + d_lookahead s -> P (dist, len - 3) ->
  (forall i, 0 <= i < len -> aget total (cut + i) = aget total (cut + i - dist)) -> Z.of_nat (length syms) + 1 < lit ->
  exists t', tally_dist s dist (len - 3) = Some (s <| d_trees := t' |>, Z.of_nat (length syms) + 1 =? lit - 1) /\ core (s <| d_trees := t' |>) base (cut + len) (syms ++ [(dist, len - 3)]) /\
    obits (s <| d_trees := t' |>) = obits s /\ tparams t' = tparams (d_trees s).
Proof.
  intros C (D1 & D2 & D3) Hd Hd2 Hlen Hcut HP Hm Hn. assert (Hco := co_collected _ _ _ _ C). assert (Hav := vw_avail _ _ _ (co_view _ _ _ _ C)).
  assert (Hl := bs_last _ _ Hco). assert (Hlit := bs_lit _ _ Hco). assert (Hcut0 := core_cut _ _ _ _ C). unfold tally_dist.
  destruct (tr_tally_ok (d_trees s) syms dist (len - 3) Hco) as (t1 & E & Ht & Ew & _); [unfold d_pending in D1; cbn; rewrite D1; lia|rewrite Hl, (co_lit _ _ _ _ C); lia|split; cbn; lia|].
  rewrite (proj2 (tally_macros (d_trees s) dist (len - 3) ltac:(lia) ltac:(lia)) _ _ E). cbn [mbind option_bind]. rewrite Hl, (co_lit _ _ _ _ C). eexists. split; [done|].
  assert (Ep := tr_tally_params _ _ _ _ _ E). apply (collected_matches _ _ (t_matches (d_trees s))) in Ht.
  destruct (core_tally s base cut (cut + len) syms (dist, len - 3) _ C D2 Ht Ew Ep HP) as [C' Eo]; [unfold sym_fits; cbn [fst]; rewrite length_take; lia| |lia|done].
  unfold apply_sym. cbn [fst snd]. destruct (Z.eqb_spec dist 0); [lia|]. replace (Z.to_nat (len - 3 + 3)) with (Z.to_nat len) by lia.
  rewrite lz_copy_data; [do 2 f_equal; lia|lia|lia|]. intros i Hi. apply Hm. lia.
Qed.

(** ** Flushes *)

(** [s] with the fields that a flush changes. *)
Definition is_blocked (s s' : deflate_state) : Prop :=
  exists z t p, s' = s <| d_strm := z |> <| d_trees := t |> <| d_block_start := d_strstart s |> <| d_pending_out := p |> /\
    z_in z = z_in (d_strm s) /\ z_next_in z = z_next_in (d_strm s) /\ z_avail_in z = z_avail_in (d_strm s) /\ z_total_in z = z_total_in (d_strm s) /\ z_adler z = z_adler (d_strm s) /\
    (is_Some (z_out (d_strm s)) -> is_Some (z_out z)) /\ tparams t = tparams (d_trees s).

Lemma flushed_blocked s t n out next avail tot w p :
  (t_level t, t_strategy t, t_lit_bufsize t) = tparams (d_trees s) -> (is_Some (z_out (d_strm s)) -> is_Some out) ->
  is_blocked s (flushed (s <| d_trees := t |> <| d_strm ::= upd z_data_type (fun _ => n) |> <| d_block_start := d_strstart s |>) out next avail tot w p).
Proof.
  intros Ht Ho. exists ((d_strm s) <| z_data_type := n |> <| z_out := out |> <| z_next_out := next |> <| z_avail_out := avail |> <| z_total_out := tot |>), (t <| t_w := w |>), p.
  split; [done|]. do 5 (split; [done|]). done.
Qed.

Lemma take_bytes a b : 0 <= a <= b -> b <= Z.of_nat (length total) -> take (Z.to_nat b) total = take (Z.to_nat a) total ++ bytes_at total a (b - a).
Proof. intros H1 H2. unfold bytes_at. replace (Z.to_nat b) with (Z.to_nat a + Z.to_nat (b - a))%nat by lia. by rewrite take_take_drop. Qed.

Lemma stored_bytes s base syms :
  core s base (base + d_strstart s) syms -> drained s -> 0 <= d_block_start s -> Z.of_nat (length syms) < lit ->
  stored_ok (d_trees s) syms (take (Z.to_nat (base + d_block_start s)) total) (drop (Z.to_nat (d_block_start s)) (d_window s)) (d_strstart s - d_block_start s).
Proof.
  intros C (D1 & D2 & D3) Hb Hn. assert (V := co_view _ _ _ _ C). assert (G := co_geometry _ _ _ _ C). destruct (vw_pos _ _ _ V) as (P1 & P2 & P3). destruct (co_block _ _ _ _ C) as [B1 B2].
  assert (Hcut := core_cut _ _ _ _ C). assert (Hco := co_collected _ _ _ _ C). assert (Lw := gm_window _ G).
  destruct (Hroomy (base + d_block_start s) (base + d_strstart s) syms) as (R1 & R2 & R3); try done; [lia|apply (bs_syms _ _ Hco)|apply (co_class _ _ _ _ C)|apply (co_fit _ _ _ _ C)|apply (co_data _ _ _ _ C)|].
  split.
  - rewrite length_drop. lia.
  - apply Forall_drop, (gm_bytes _ G).
  - rewrite (co_data _ _ _ _ C), (take_bytes (base + d_block_start s)) by lia. f_equal. replace (base + d_strstart s - (base + d_block_start s)) with (d_strstart s - d_block_start s) by lia.
    apply bytes_at_ext; [lia..|]. intros k Hk. rewrite aget_drop by lia. rewrite (vw_data _ _ _ V) by lia. f_equal. lia.
  - rewrite (co_lit _ _ _ _ C). unfold d_pending in D1. cbn. rewrite D1. lia.
Qed.

(** A block fits into the pending buffer. *)
Definition block_max : Z := 32 * lit + 16.

(** Every symbol stands for a byte or more. *)
Lemma block_some s base cut syms : core s base cut syms -> syms <> [] -> base + d_block_start s < cut.
Proof.
  intros C Hn. assert (Hcut := core_cut _ _ _ _ C). destruct (co_block _ _ _ _ C) as [B1 B2]. assert (El := f_equal length (co_data _ _ _ _ C)). rewrite length_take in El.
  assert (Hx := expand_longer syms (take (Z.to_nat (base + d_block_start s)) total) (bs_syms _ _ (co_collected _ _ _ _ C))). rewrite length_take in Hx. destruct syms; [done|]. cbn [length] in Hx. lia.
Qed.

Lemma flush_only_ok s base syms last :
  core s base (base + d_strstart s) syms -> drained s -> Z.of_nat (length syms) < lit -> 0 <= last <= 1 ->
  exists s' b, FLUSH_BLOCK_ONLY s last = Some s' /\ is_blocked s s' /\ core s' base (base + d_strstart s) [] /\ (low s' /\ (z_avail_out (d_strm s') = 0 \/ drained s')) /\
    reads_as (obits s).2 b last (take (Z.to_nat (base + d_block_start s)) total) (take (Z.to_nat (base + d_strstart s)) total) /\
    outputs s (b ·· end_bits last ((obits s).2 + b.2)) s' /\ (b ·· end_bits last ((obits s).2 + b.2)).2 <= block_max.
Proof.
  intros C D Hn Hlast. assert (D0 := D). destruct D0 as (D1 & D2 & D3). assert (Hco := co_collected _ _ _ _ C). destruct (co_block _ _ _ _ C) as [B1 B2]. assert (Hcut := core_cut _ _ _ _ C).
  destruct (Hroomy (base + d_block_start s) (base + d_strstart s) syms) as (R1 & R2 & R3); try done; [lia|apply (bs_syms _ _ Hco)|apply (co_class _ _ _ _ C)|apply (co_fit _ _ _ _ C)|apply (co_data _ _ _ _ C)|].
  unfold FLUSH_BLOCK_ONLY. rewrite u32_small by lia. cbv zeta. set (buf := if d_block_start s >=? 0 then _ else _).
  destruct (tr_flush_block_ok (d_trees s) syms (take (Z.to_nat (base + d_block_start s)) total) buf (d_strstart s - d_block_start s) last Hco (co_fit _ _ _ _ C) Hlast) as (t & b & E & Ht & Hr & Em & Hw).
  - apply (room_for_mono _ (7 + HEADER_MAX)); [unfold d_pending in D1; cbn; rewrite D1; lia|]. by rewrite (co_lit _ _ _ _ C).
  - intros x. unfold buf. rewrite Z.geb_leb. destruct (Z.leb_spec 0 (d_block_start s)); [|done]. intros [= <-]. by apply stored_bytes.
  - left. pose proof (co_level _ _ _ _ C). lia.
  - rewrite (co_data _ _ _ _ C) in Hr. rewrite E. cbn [mbind option_bind]. assert (Ep := tr_flush_block_params _ _ _ _ _ E). rewrite <- (obits_start s D2) in Hr, Em.
    set (s1 := s <| d_trees := t |> <| d_strm ::= upd z_data_type (fun _ => t_data_type t) |> <| d_block_start := d_strstart s |>).
    assert (O1 : out_ok s1 /\ obits s1 = obits s ·· (b ·· end_bits last ((obits s).2 + b.2))).
    { destruct (co_out _ _ _ _ C) as [O1 O2 O3 O4 O5 O6 O7]. assert (Hk := em_ok _ _ _ Em). assert (Hpk := wk_pending _ Hk). split.
      - split; unfold s1; dsimp; try done; [by rewrite (em_length _ _ _ Em)|rewrite D2; unfold d_pending; dsimp; lia| |by left].
        unfold obytes, bytes_at. dsimp. rewrite D2. apply (wk_bytes _ Hk).
      - rewrite (obits_start s1) by done. change (t_w (d_trees s1)) with (t_w t). rewrite (em_bits _ _ _ Em). by rewrite (obits_start s). }
    destruct O1 as [O1 Eo]. destruct (flush_pending_ok s1 O1) as (s2 & -> & O2 & Out & Hfl & Hd). exists s2, b. split; [done|].
    destruct Hfl as (out & next & avail & tot & w & p & -> & Hsome & Lw & Hwk). destruct C as [G V Hh Hc _ _ _ _ _ _ Hl Hv]. injection Ep as Ep1 Ep2 Ep3.
    split; [|split; [|split; [done|split; [done|]]]].
    + unfold s1. apply flushed_blocked; [unfold tparams; by rewrite Ep1, Ep2, Ep3|exact Hsome].
    + split; try done.
      * by apply (geometry_same s).
      * destruct V. split; unfold s1, flushed; dsimp; try done.
      * by apply (hashed_same s).
      * unfold s1, flushed. dsimp. apply (collected_writer t w); [done|done|]. exact Lw.
      * unfold s1, flushed. dsimp. lia.
      * unfold s1, flushed. dsimp. rewrite <- Hl. exact Ep3.
      * unfold s1, flushed. dsimp. rewrite <- Ep1 in Hv. exact Hv.
    + split.
      * destruct Out as (bs & X1 & X2 & X3). exists bs. rewrite bcat_nil_r, Eo in X2. split; [done|]. split; [done|]. exact X3.
      * assert (Eb := f_equal snd (em_bits _ _ _ Em)). cbn [bcat wbits snd] in Eb |- *. destruct (em_ok _ _ _ Em) as [K1 _ K3 _ _]. assert (Ll := em_length _ _ _ Em). assert (Lb := bs_buf _ _ Hco). destruct (bs_writer _ _ Hco) as [K1' _ K3' _ _]. unfold block_max. lia.
Qed.
End blocks.
