(* ===== verification/DeflateLoop.v ===== *)
(** The invariant of the compression functions: what was read is in the checksum, in the blocks written, in the symbols
    collected or in the lookahead. *)
From S2P Require Import Prelude Record Bits Huffman Lz Fixed DeflateFormat InflateState TreesTables Trees.
From S2P Require Import BitWriter TreesCodes TreesEmit TreesBuild TreesLens TreesTree TreesRle TreesHeader TreesTally.
From S2P Require Import TreesFlush DeflateState Deflate DeflateOut DeflateHash DeflateWindow DeflateMatch DeflateBlocks.

(** ** Sequences of blocks *)
Definition reads_all (at_ : Z) (b : bitstr) (hist hist' : list Z) : Prop := bits_ok b /\ forall rest, blocks_read at_ (then_rest b rest) hist b.2 hist'.

Lemma reads_all_nil at_ hist : reads_all at_ bnil hist hist.
Proof. split; [apply bits_ok_nil|]. intros rest. constructor. Qed.
Lemma reads_as_mod at1 at2 b last hist hist' : at1 mod 8 = at2 mod 8 -> reads_as at1 b last hist hist' -> reads_as at2 b last hist hist'.
Proof. intros E [H1 H2]. split; [done|]. intros rest. by apply (block_read_mod at1). Qed.
Lemma reads_all_snoc at_ b hist hist1 c hist2 :
  reads_all at_ b hist hist1 -> reads_as (at_ + b.2) c 0 hist1 hist2 -> reads_all at_ (b ·· c) hist hist2.
Proof.
  intros [Kb Hb] [Kc Hc]. split; [by apply bits_ok_cat|]. intros rest. rewrite then_rest_cat by done. cbn [bcat snd]. apply (blocks_read_app _ _ _ _ hist1); [apply Hb|].
  rewrite then_rest_div by done. rewrite <- (Z.add_0_r c.2). apply blocks_cons with hist2; [exact (Hc rest)|apply Kc|constructor].
Qed.

(** The position of the output in a byte. *)
Lemma outputs_bits s b s' : outputs s b s' -> ((obits s).2 + b.2) mod 8 = (obits s').2 mod 8.
Proof.
  intros (bs & _ & E & _). apply (f_equal snd) in E. cbn [bcat bytes_bits snd] in E. rewrite <- E, Z.add_comm, (Z.mul_comm 8). apply Z.mod_add. lia.
Qed.

(** ** The fields that stay *)
Definition cfg (s : deflate_state) : Z * Z * Z * option gz_header * Z * Z * (Z * Z * Z) :=
  (d_status s, d_wrap s, d_last_flush s, d_gzhead s, d_gzindex s, d_pending_buf_size s, (d_w_bits s, d_hash_bits s, d_w_size s)).

Section loops.
Context (P : sym -> Prop) (lit : Z) (total : list Z) (Hroomy : roomy P lit total).
(** The state at the start, [base0] for it, and where the first block starts. *)
Context (s0 : deflate_state) (base0 start : Z).
Context (Hout0 : out_ok s0) (Hcheck0 : check_ok (d_wrap s0) (z_adler (d_strm s0))).

Definition pos (s : deflate_state) (base : Z) : Z := base + d_strstart s + d_lookahead s.

Record since (s : deflate_state) (base : Z) : Prop := {
  si_cfg : cfg s = cfg s0;
  si_trees : tparams (d_trees s) = tparams (d_trees s0);
  si_pos : 0 <= pos s0 base0 <= pos s base;
  si_sum : z_adler (d_strm s) = check_spec (d_wrap s0) (z_adler (d_strm s0)) (bytes_at total (pos s0 base0) (pos s base - pos s0 base0));
  si_total : u32 (z_total_in (d_strm s)) = u32 (z_total_in (d_strm s0) + (pos s base - pos s0 base0));
  si_null : is_Some (z_out (d_strm s0)) -> is_Some (z_out (d_strm s)) }.

Definition written (s : deflate_state) (base : Z) : Prop :=
  exists b, outputs s0 b s /\ reads_all (obits s0).2 b (take (Z.to_nat start) total) (take (Z.to_nat (base + d_block_start s)) total) /\
    b.2 <= block_max lit * (base + d_block_start s - start).

(** During a loop; and after a flush, when there may be no more room for output. *)
Record stopped (s : deflate_state) (base cut : Z) (syms : list sym) : Prop := {
  st_core : core P lit total s base cut syms;
  st_since : since s base;
  st_written : written s base }.
Record inv (s : deflate_state) (base cut : Z) (syms : list sym) : Prop := {
  iv_stopped : stopped s base cut syms;
  iv_drained : drained s;
  iv_room : Z.of_nat (length syms) + 1 < lit }.

Lemma since_refl : 0 <= pos s0 base0 -> since s0 base0.
Proof. intros Hp. split; try done; rewrite Z.sub_diag; [symmetry; by apply check_spec_nil|by rewrite Z.add_0_r]. Qed.

(** A state with the same output and position. *)
Lemma since_same s s' base : since s base -> cfg s' = cfg s -> d_trees s' = d_trees s -> d_strm s' = d_strm s -> pos s' base = pos s base -> since s' base.
Proof. intros [H1 H2 H3 H4 H5 H6] E1 E2 E3 E4. split; rewrite ?E1, ?E2, ?E3, ?E4; done. Qed.
Lemma outputs_same s s' b : outputs s0 b s -> d_trees s' = d_trees s -> d_strm s' = d_strm s -> d_pending_out s' = d_pending_out s -> outputs s0 b s'.
Proof.
  intros (bs & H1 & H2 & H3) E1 E2 E3. exists bs. unfold obits, obytes, d_pending in *. rewrite E1, E2, E3. done.
Qed.

Lemma inv_scratch s base cut syms a b c d e : inv s base cut syms -> inv (scratch s a b c d e) base cut syms.
Proof.
  intros [[C S (x & W1 & W2)] D R]. split; try done. split; [by apply core_scratch|by apply (since_same s)|]. exists x. split; [by apply (outputs_same s)|done].
Qed.
Lemma inv_step s base cut syms n :
  inv s base cut syms -> 0 <= n <= d_lookahead s -> inv (s <| d_strstart := d_strstart s + n |> <| d_lookahead := d_lookahead s - n |>) base cut syms.
Proof.
  intros [[C S (x & W1 & W2)] D R] Hn. split; try done. split; [by apply core_step|apply (since_same s); try done; unfold pos; dsimp; lia|]. exists x. split; [by apply (outputs_same s)|done].
Qed.

(** ** Input *)
Lemma refilled_out s s' : is_refilled s s' -> (out_ok s -> out_ok s') /\ (forall b, outputs s0 b s -> outputs s0 b s') /\ (drained s -> drained s') /\ cfg s' = cfg s /\ (is_Some (z_out (d_strm s)) -> is_Some (z_out (d_strm s'))).
Proof.
  intros ->. split; [|done]. intros []. by split.
Qed.

Lemma inv_fill s base cut syms :
  inv s base cut syms -> d_lookahead s < MIN_LOOKAHEAD -> exists s' base', fill_window s = Some s' /\ inv s' base' cut syms /\ filled s base total s' base'.
Proof.
  intros [[[G V Hh Hc Ho Hco Hcl Hb Hf Hd Hl Hv] [S1 S2 S3 S4 S5 S6] (x & W1 & W2)] D R] Hlt. destruct (fill_window_ok s base total G V Hh Hc Hlt) as (s' & base' & E & F).
  exists s', base'. split; [done|]. split; [|done]. destruct F as [F1 F2 F3 F4 F5 F6 F7]. assert (Hb' := vw_bytes _ _ _ V). assert (Hc' := advanced_check _ _ _ _ _ Hb' Hc F4).
  assert (Hp : pos s' base' = pos s base + (d_lookahead s' - d_lookahead s)) by (unfold pos; pose proof (ad_pos _ _ _ _ _ F4); lia). assert (Hm := ad_more _ _ _ _ _ F4).
  destruct (refilled_out _ _ (ad_frame _ _ _ _ _ F4)) as (X1 & X2 & X3 & X4 & X5). destruct (refilled_wrap _ _ (ad_frame _ _ _ _ _ F4)) as (Ew & _ & Et). assert (Ebk := ad_block _ _ _ _ _ F4).
  unfold pos in Hp. split; [split|by apply X3|done].
  - split; try done; rewrite ?Et, ?Ebk; try done; [by apply X1|lia].
  - split; [congruence|by rewrite Et|unfold pos in *; lia| | |auto].
    + rewrite (ad_sum _ _ _ _ _ F4), S4. assert (Ew0 : d_wrap s = d_wrap s0) by (injection S1; done). rewrite Ew0. rewrite <- check_spec_app; try done; [|by apply bytes_at_bytes..]. f_equal.
      replace (pos s' base' - pos s0 base0) with ((pos s base - pos s0 base0) + (d_lookahead s' - d_lookahead s)) by (unfold pos in *; lia). rewrite bytes_at_cat by (unfold pos in *; lia). do 2 f_equal. unfold pos. lia.
    + rewrite (ad_total _ _ _ _ _ F4). unfold u32 in *. rewrite <- Z.add_mod_idemp_l, S5, Z.add_mod_idemp_l by lia. f_equal. unfold pos in *. lia.
  - exists x. rewrite Ebk. split; [by apply X2|done].
Qed.

(** ** Symbols *)

(** After a tally: one place may be left. *)
Record tallied (s : deflate_state) (base cut : Z) (syms : list sym) (full : bool) : Prop := {
  ta_stopped : stopped s base cut syms;
  ta_drained : drained s;
  ta_some : syms <> [];
  ta_room : Z.of_nat (length syms) < lit;
  ta_full : full = false -> Z.of_nat (length syms) + 1 < lit }.

Lemma tallied_ok s base cut syms cut' x t' :
  inv s base cut syms -> core P lit total (s <| d_trees := t' |>) base cut' (syms ++ [x]) -> obits (s <| d_trees := t' |>) = obits s -> tparams t' = tparams (d_trees s) ->
  tallied (s <| d_trees := t' |>) base cut' (syms ++ [x]) (Z.of_nat (length syms) + 1 =? lit - 1).
Proof.
  intros [[C [S1 S2 S3 S4 S5 S6] (b & W1 & W2)] (D1 & D2 & D3) R] C' Eo Et.
  assert (Ew : d_pending (s <| d_trees := t' |>) = 0 /\ w_bi_valid (t_w t') < 8).
  { assert (E2 := f_equal snd Eo). unfold obits in E2. cbn [snd] in E2. rewrite D1 in E2. unfold d_pending in *. dsimp in E2. dsimp.
    assert (Hk := bs_writer _ _ (co_collected _ _ _ _ _ _ _ C')). dsimp in Hk. destruct Hk as [K1 _ K3 _ _]. lia. }
  split; rewrite ?length_app; cbn [length].
  - split; [done| |].
    + split; try done. cbn. by rewrite Et.
    + exists b. split; [|done]. destruct W1 as (bs & X1 & X2 & X3). exists bs. rewrite Eo. done.
  - destruct Ew. done.
  - by destruct syms.
  - lia.
  - destruct (Z.eqb_spec (Z.of_nat (length syms) + 1) (lit - 1)); [done|]. intros _. lia.
Qed.

Lemma inv_lit s base cut syms c :
  inv s base cut syms -> aget total cut = Some c -> P (0, c) -> cut < pos s base ->
  exists t' full, tally_lit s c = Some (s <| d_trees := t' |>, full) /\ tallied (s <| d_trees := t' |>) base (cut + 1) (syms ++ [(0, c)]) full.
Proof.
  intros I Hc HP Hcut. assert (I0 := I). destruct I0 as [[C _ _] D R]. destruct (tally_lit_ok P lit total s base cut syms c C D Hc HP Hcut R) as (t' & E & C' & Eo & Ep).
  exists t', (Z.of_nat (length syms) + 1 =? lit - 1). split; [done|]. by apply (tallied_ok s base cut).
Qed.

Lemma inv_dist s base cut syms dist len :
  inv s base cut syms -> 0 < dist <= cut -> dist <= 32768 -> 3 <= len <= 258 -> cut + len <= pos s base -> P (dist, len - 3) ->
  (forall i, 0 <= i < len -> aget total (cut + i) = aget total (cut + i - dist)) ->
  exists t' full, tally_dist s dist (len - 3) = Some (s <| d_trees := t' |>, full) /\ tallied (s <| d_trees := t' |>) base (cut + len) (syms ++ [(dist, len - 3)]) full.
Proof.
  intros I H1 H2 H3 H4 HP Hm. assert (I0 := I). destruct I0 as [[C _ _] D R]. destruct (tally_dist_ok P lit total s base cut syms dist len C D H1 H2 H3 H4 HP Hm R) as (t' & E & C' & Eo & Ep).
  exists t', (Z.of_nat (length syms) + 1 =? lit - 1). split; [done|]. by apply (tallied_ok s base cut).
Qed.

Lemma tallied_step s base cut syms full n :
  tallied s base cut syms full -> 0 <= n <= d_lookahead s -> tallied (s <| d_strstart := d_strstart s + n |> <| d_lookahead := d_lookahead s - n |>) base cut syms full.
Proof.
  intros [[C S (x & W1 & W2)] D Sm R F] Hn. split; try done. split; [by apply core_step|apply (since_same s); try done; unfold pos; dsimp; lia|]. exists x. split; [by apply (outputs_same s)|done].
Qed.
Lemma tallied_scratch s base cut syms full a b c d e : tallied s base cut syms full -> tallied (scratch s a b c d e) base cut syms full.
Proof.
  intros [[C S (x & W1 & W2)] D Sm R F]. split; try done. split; [by apply core_scratch|by apply (since_same s)|]. exists x. split; [by apply (outputs_same s)|done].
Qed.

(** ** Flushes *)
Lemma lit_size s base cut syms : core P lit total s base cut syms -> 128 <= lit.
Proof. intros C. rewrite <- (co_lit _ _ _ _ _ _ _ C). apply (bs_lit _ _ (co_collected _ _ _ _ _ _ _ C)). Qed.

Lemma blocked_since s s' base : is_blocked s s' -> since s base -> since s' base.
Proof.
  intros (z & t & p & -> & E1 & E2 & E3 & E4 & E5 & E6 & E7) [S1 S2 S3 S4 S5 S6]. split; dsimp; try done; [by rewrite E7|by rewrite E5|by rewrite E4|auto].
Qed.

(** The last block. *)
Definition finished (s : deflate_state) (base : Z) : Prop :=
  core P lit total s base (base + d_strstart s) [] /\ since s base /\ exists b c hist, reads_all (obits s0).2 b (take (Z.to_nat start) total) hist /\
    reads_as ((obits s0).2 + b.2) c 1 hist (take (Z.to_nat (base + d_strstart s)) total) /\ outputs s0 (b ·· (c ·· end_bits 1 ((obits s0).2 + b.2 + c.2))) s /\
    (b ·· (c ·· end_bits 1 ((obits s0).2 + b.2 + c.2))).2 <= block_max lit * (base + d_strstart s - start) + block_max lit.

Lemma end_bits_ok last n : bits_ok (end_bits last n).
Proof. unfold end_bits. destruct (nz last); [apply bits_ok_pad|apply bits_ok_nil]. Qed.
Lemma end_bits_mod last n n' : n mod 8 = n' mod 8 -> end_bits last n = end_bits last n'.
Proof. intros E. unfold end_bits, pad. destruct (nz last); [|done]. f_equal. dlia. Qed.

Lemma flush_block_ok s base syms last :
  stopped s base (base + d_strstart s) syms -> drained s -> Z.of_nat (length syms) < lit -> 0 <= last <= 1 -> (last = 0 -> syms <> []) ->
  exists s', FLUSH_BLOCK s last = Some (s', z_avail_out (d_strm s') =? 0) /\ FLUSH_BLOCK_ONLY s last = Some s' /\ is_blocked s s' /\ (low s' /\ (z_avail_out (d_strm s') = 0 \/ drained s')) /\
    if last =? 1 then finished s' base else stopped s' base (base + d_strstart s) [].
Proof.
  intros [C S (b & W1 & W2 & W3)] D R Hlast Hsome. destruct (flush_only_ok P lit total Hroomy s base syms last C D R Hlast) as (s' & c & E & Hb & C' & Hav & Hr & Hout & Hmax).
  exists s'. unfold FLUSH_BLOCK. rewrite E. cbn [mbind option_bind]. split; [done|]. split; [done|]. split; [done|]. split; [done|].
  assert (S' := blocked_since _ _ _ Hb S). assert (Em := outputs_bits _ _ _ W1). assert (Eb : d_strstart s' = d_strstart s /\ d_block_start s' = d_strstart s) by (destruct Hb as (z & t & p & -> & _); done). destruct Eb as [Eb1 Eb2].
  assert (O1 := co_out _ _ _ _ _ _ _ C). assert (O2 := co_out _ _ _ _ _ _ _ C'). assert (Hr' := reads_as_mod _ _ _ _ _ _ (eq_sym Em) Hr).
  assert (Hout' : outputs s0 (b ·· (c ·· end_bits last ((obits s).2 + c.2))) s').
  { apply (outputs_trans s0 b s); try done; [apply W2|]. apply bits_ok_cat; [apply Hr|apply end_bits_ok]. }
  assert (Hlit := lit_size _ _ _ _ C). destruct (co_block _ _ _ _ _ _ _ C) as [Bk1 Bk2]. assert (Hm0 : 0 <= block_max lit) by (unfold block_max; lia).
  destruct (Z.eqb_spec last 1) as [->|].
  - split; [by rewrite Eb1|]. split; [done|]. eexists b, c, _. split; [done|]. rewrite Eb1. split; [done|]. rewrite (end_bits_mod 1 _ ((obits s).2 + c.2)) by (rewrite <- Z.add_mod_idemp_l, Em, Z.add_mod_idemp_l by lia; done). split; [done|]. cbn [bcat snd] in *. nia.
  - replace last with 0 in * by lia. split; [done|done|]. exists (b ·· c). change (end_bits 0 ((obits s).2 + c.2)) with bnil in Hout', Hmax. rewrite bcat_nil_r in Hout', Hmax. split; [done|]. rewrite Eb2. assert (Hlt := block_some _ _ _ _ _ _ _ C (Hsome eq_refl)). split; [|cbn [bcat snd]; nia]. by apply (reads_all_snoc _ _ _ (take (Z.to_nat (base + d_block_start s)) total)).
Qed.

(** [if (bflush) FLUSH_BLOCK(s, 0);] *)
Lemma flush_if_ok s base syms full :
  tallied s base (base + d_strstart s) syms full ->
  exists s' c, flush_if s full = Some (s', c) /\ (s' = s \/ is_blocked s s') /\
    (c = Continue /\ (exists syms', inv s' base (base + d_strstart s) syms') \/
     c = Return need_more /\ stopped s' base (base + d_strstart s) [] /\ low s' /\ z_avail_out (d_strm s') = 0).
Proof.
  intros [St D Sm R F]. unfold flush_if. destruct full.
  - destruct (flush_block_ok s base syms 0 St D R ltac:(lia) (fun _ : 0 = 0 => Sm)) as (s' & -> & _ & Hb & [Hlo Hav] & St'). cbn [mbind option_bind]. cbn in St'. eexists s', _. split; [done|]. split; [by right|].
    destruct (Z.eqb_spec (z_avail_out (d_strm s')) 0) as [E|]; [by right|]. left. split; [done|]. exists []. destruct Hav as [|D']; [done|]. split; try done. cbn [length]. pose proof (lit_size _ _ _ _ (st_core _ _ _ _ St)). lia.
  - exists s, Continue. split; [done|]. split; [by left|]. left. split; [done|]. exists syms. split; try done. by apply F.
Qed.

(** The end of a compression function, when all was read. *)
Lemma end_block_ok s base syms flush (cond : bool) :
  stopped s base (base + d_strstart s) syms -> drained s -> Z.of_nat (length syms) < lit -> (if cond then syms <> [] else base + d_block_start s = base + d_strstart s /\ syms = []) ->
  exists s' r, end_block s flush cond = Some (s', r) /\ (s' = s \/ is_blocked s s') /\
    match r with
    | need_more => flush <> Z_FINISH /\ stopped s' base (base + d_strstart s) [] /\ low s' /\ z_avail_out (d_strm s') = 0
    | block_done => flush <> Z_FINISH /\ stopped s' base (base + d_strstart s) [] /\ drained s' /\ d_block_start s' = d_strstart s'
    | finish_started => flush = Z_FINISH /\ finished s' base /\ low s' /\ z_avail_out (d_strm s') = 0
    | finish_done => flush = Z_FINISH /\ finished s' base /\ drained s'
    end.
Proof.
  intros St D R Hcond. unfold end_block. destruct (Z.eqb_spec flush Z_FINISH) as [->|Hne].
  - destruct (flush_block_ok s base syms 1 St D R ltac:(lia) ltac:(discriminate)) as (s' & -> & _ & Hb & [Hlo Hav] & St'). cbn [mbind option_bind]. cbn in St'. eexists s', _. split; [done|]. split; [by right|].
    destruct (Z.eqb_spec (z_avail_out (d_strm s')) 0); [done|]. destruct Hav; [done|]. done.
  - destruct cond.
    + destruct (flush_block_ok s base syms 0 St D R ltac:(lia) (fun _ : 0 = 0 => Hcond)) as (s' & -> & _ & Hb & [Hlo Hav] & St'). cbn [mbind option_bind]. cbn in St'. eexists s', _. split; [done|]. split; [by right|].
      destruct (Z.eqb_spec (z_avail_out (d_strm s')) 0); [done|]. destruct Hav; [done|]. split; [done|]. split; [done|]. split; [done|]. by destruct Hb as (z & t & p & -> & _).
    + destruct Hcond as [E ->]. exists s, block_done. split; [done|]. split; [by left|]. split; [done|]. split; [done|]. split; [done|]. lia.
Qed.
End loops.

(** ** Loops *)
Lemma forever_ok (I : deflate_state -> Prop) (Post : deflate_state -> option block_state -> Prop) (measure : deflate_state -> Z) (step : deflate_state -> option (deflate_state * ctl)) :
  (forall s, I s -> 0 <= measure s) ->
  (forall s, I s -> exists s' c, step s = Some (s', c) /\ match c with Continue => I s' /\ measure s' < measure s | Break => Post s' None | Return b => Post s' (Some b) end) ->
  forall fuel s, I s -> measure s < Z.of_nat fuel -> exists s' r, forever fuel step s = Some (s', r) /\ Post s' r.
Proof.
  intros Hnn Hstep. induction fuel as [|fuel IH]; intros s Hs Hf; [specialize (Hnn s Hs); lia|]. cbn [forever]. destruct (Hstep s Hs) as (s' & c & -> & Hc). cbn [mbind option_bind].
  destruct c as [| |b]; [|by eexists _, _|by eexists _, _]. destruct Hc as [Hs' Hm]. apply IH; [done|lia].
Qed.
