(* ===== verification/DeflateHuff.v ===== *)
(** The compression functions that do not use the hash table: [deflate_huff()] and [deflate_rle()]. *)
From S2P Require Import Prelude Record Bits Huffman Lz Fixed DeflateFormat InflateState TreesTables Trees.
From S2P Require Import BitWriter TreesCodes TreesEmit TreesBuild TreesLens TreesTree TreesRle TreesHeader TreesTally.
From S2P Require Import TreesFlush DeflateState Deflate DeflateOut DeflateHash DeflateWindow DeflateMatch DeflateBlocks DeflateLoop.

Section functions.
Context (P : sym -> Prop) (lit : Z) (total : list Z) (Hroomy : roomy P lit total).
Context (s0 : deflate_state) (base0 start : Z).
Context (Hout0 : out_ok s0) (Hcheck0 : check_ok (d_wrap s0) (z_adler (d_strm s0))).
Notation inv := (inv P lit total s0 base0 start).
Notation stopped := (stopped P lit total s0 base0 start).
Notation tallied := (tallied P lit total s0 base0 start).
Notation finished := (finished P lit total s0 base0 start).

(** ** What a compression function promises

    [J] is what the function keeps between calls. *)
Definition compressed (flush : Z) (J : deflate_state -> Z -> Z -> Prop) (s : deflate_state) (r : block_state) : Prop :=
  match r with
  | need_more =>
      exists base cut syms, stopped s base cut syms /\ J s base cut /\ Z.of_nat (length syms) + 1 < lit /\ (syms = [] \/ drained s) /\ low s /\
        (z_avail_out (d_strm s) = 0 \/ drained s /\ flush = Z_NO_FLUSH /\ z_avail_in (d_strm s) = 0)
  | block_done =>
      exists base, stopped s base (base + d_strstart s) [] /\ J s base (base + d_strstart s) /\ drained s /\
        flush <> Z_NO_FLUSH /\ flush <> Z_FINISH /\ base + d_strstart s = Z.of_nat (length total) /\ d_block_start s = d_strstart s
  | finish_started => exists base, finished s base /\ flush = Z_FINISH /\ base + d_strstart s = Z.of_nat (length total) /\ low s /\ z_avail_out (d_strm s) = 0
  | finish_done => exists base, finished s base /\ flush = Z_FINISH /\ base + d_strstart s = Z.of_nat (length total) /\ drained s
  end.

(** All input was read and written. *)
Definition at_end (s : deflate_state) (base : Z) : Prop := d_lookahead s = 0 /\ z_avail_in (d_strm s) = 0.
Lemma at_end_pos s base cut syms : core P lit total s base cut syms -> at_end s base -> base + d_strstart s = Z.of_nat (length total).
Proof. intros C [E1 E2]. destruct (vw_avail _ _ _ (co_view _ _ _ _ _ _ _ C)) as (_ & _ & H). lia. Qed.

(** The measure of the loops. *)
Definition input_left (s : deflate_state) : Z := d_lookahead s + z_avail_in (d_strm s).
Lemma input_left_eq s base cut syms : core P lit total s base cut syms -> input_left s = Z.of_nat (length total) - (base + d_strstart s) /\ 0 <= input_left s.
Proof. intros C. destruct (vw_avail _ _ _ (co_view _ _ _ _ _ _ _ C)) as (_ & A & H). destruct (vw_pos _ _ _ (co_view _ _ _ _ _ _ _ C)). unfold input_left. lia. Qed.

(** The positions that are not inserted, at the end. *)
Lemma stopped_insert s base cut syms n : stopped s base cut syms -> d_lookahead s = 0 -> 0 <= n <= 2 -> n <= d_strstart s -> stopped (s <| d_insert := n |>) base cut syms.
Proof.
  intros [[G V [Hs [ins Hch]] Hc Ho Hco Hcl Hb Hf Hd Hl Hv] S (x & W1 & W2)] H0 Hn Hn2. split.
  - split; try done.
    + destruct G. by split.
    + destruct V. by split.
    + split; [right; dsimp; unfold MIN_MATCH; lia|]. exists ins. destruct Hch as [H1 H2 H3]. split; dsimp; [|done|done]. intros p Hp. destruct (H1 p Hp). lia.
    + destruct Ho. by split.
  - by apply (since_same total s0 base0 s).
  - exists x. split; [by apply (outputs_same s0 s)|done].
Qed.
Lemma inv_insert s base cut syms n : inv s base cut syms -> d_lookahead s = 0 -> 0 <= n <= 2 -> n <= d_strstart s -> inv (s <| d_insert := n |>) base cut syms.
Proof. intros [St D R] H0 Hn Hn2. split; [by apply stopped_insert|done|done]. Qed.

(** The end of a compression function. *)
Lemma end_stopped_ok (J : deflate_state -> Z -> Z -> Prop) s base syms flush :
  stopped s base (base + d_strstart s) syms -> drained s -> Z.of_nat (length syms) < lit -> at_end s base -> flush <> Z_NO_FLUSH ->
  (forall s', s' = s \/ is_blocked s s' -> J s' base (base + d_strstart s)) ->
  exists s' r, end_block s flush (nz (t_last_lit (d_trees s))) = Some (s', r) /\ compressed flush J s' r.
Proof.
  intros St D R E Hfl HJ. assert (C := st_core _ _ _ _ _ _ _ _ _ _ St). assert (Hend := at_end_pos _ _ _ _ C E). assert (Hl := bs_last _ _ (co_collected _ _ _ _ _ _ _ C)).
  destruct (end_block_ok P lit total Hroomy s0 base0 start Hout0 s base syms flush (nz (t_last_lit (d_trees s))) St D R) as (s' & r & E' & Hs & H).
  { destruct (nz _) eqn:H0; [intros ->; cbn [length] in Hl; rewrite Hl in H0; done|]. apply nz_false in H0. rewrite H0 in Hl. assert (syms = []) as -> by (by destruct syms). split; [|done]. assert (Hd := co_data _ _ _ _ _ _ _ C). cbn [expand fold_left] in Hd.
    destruct (co_block _ _ _ _ _ _ _ C) as [B1 _]. apply (f_equal length) in Hd. rewrite !length_take in Hd. lia. }
  exists s', r. split; [done|]. assert (Hst : d_strstart s' = d_strstart s) by (destruct Hs as [->|(z & t & p & -> & _)]; done). specialize (HJ s' Hs).
  assert (Hlit := lit_size _ _ _ _ _ _ _ C). destruct r; cbn [compressed].
  - destruct H as (H1 & H2 & H3 & H4). exists base, (base + d_strstart s), []. cbn [length]. split; [done|]. split; [done|]. split; [lia|]. split; [by left|]. split; [done|by left].
  - destruct H as (H1 & H2 & H3 & H4). exists base. rewrite Hst in *. done.
  - destruct H as (H1 & H2 & H3). exists base. by rewrite Hst.
  - destruct H as (H1 & H2 & H3). exists base. by rewrite Hst.
Qed.
Lemma end_ok (J : deflate_state -> Z -> Z -> Prop) s base syms flush :
  inv s base (base + d_strstart s) syms -> at_end s base -> flush <> Z_NO_FLUSH ->
  (forall s', s' = s \/ is_blocked s s' -> J s' base (base + d_strstart s)) ->
  exists s' r, end_block s flush (nz (t_last_lit (d_trees s))) = Some (s', r) /\ compressed flush J s' r.
Proof. intros [St D R]. apply (end_stopped_ok J s base syms flush St D ltac:(lia)). Qed.

(** [s] with one symbol more, [n] bytes further. *)
Definition moved (s s' : deflate_state) (n : Z) : Prop :=
  exists t, s' = s <| d_trees := t |> <| d_strstart := d_strstart s + n |> <| d_lookahead := d_lookahead s - n |>.

Lemma literal_step_ok s base syms :
  inv s base (base + d_strstart s) syms -> 0 < d_lookahead s -> (forall c, P (0, c)) ->
  exists s' full syms', literal_step s = Some (s', full) /\ moved s s' 1 /\ tallied s' base (base + d_strstart s') syms' full.
Proof.
  intros I Hl HP. assert (C := st_core _ _ _ _ _ _ _ _ _ _ (iv_stopped _ _ _ _ _ _ _ _ _ _ I)). assert (V := co_view _ _ _ _ _ _ _ C). destruct (vw_pos _ _ _ V) as (P1 & P2 & P3).
  assert (Wr := wsize_range s (co_geometry _ _ _ _ _ _ _ C)). unfold literal_step. destruct (aget_in total (base + d_strstart s)) as [c Hc].
  { destruct (vw_avail _ _ _ V). pose proof (vw_base _ _ _ V). lia. }
  rewrite (vw_data _ _ _ V) by lia. rewrite Hc. cbn [mbind option_bind].
  destruct (inv_lit P lit total s0 base0 start s base _ syms c I Hc (HP c)) as (t & full & -> & T); [unfold pos; lia|]. cbn [mbind option_bind].
  change (d_lookahead (s <| d_trees := t |>)) with (d_lookahead s). change (d_strstart (s <| d_trees := t |>)) with (d_strstart s). rewrite !u32_small by lia.
  apply (tallied_step P lit total s0 base0 start _ _ _ _ _ 1) in T; [|cbn; lia]. eexists _, full, _. split; [done|]. split; [by exists t|].
  replace (base + d_strstart s + 1) with (base + (d_strstart s + 1)) in T by lia. exact T.
Qed.

(** ** deflate_huff *)

(** Between calls everything read was collected or written. *)
Definition all_coded (s : deflate_state) (base cut : Z) : Prop := cut = base + d_strstart s.

(** The end of an iteration. *)
Lemma flushed_ok (J : deflate_state -> Z -> Z -> Prop) flush s base syms full :
  tallied s base (base + d_strstart s) syms full -> (forall s', s' = s \/ is_blocked s s' -> J s' base (base + d_strstart s)) ->
  exists s' c, flush_if s full = Some (s', c) /\ (s' = s \/ is_blocked s s') /\
    match c with Continue => exists syms', inv s' base (base + d_strstart s') syms' | Break => False | Return b => compressed flush J s' b end.
Proof.
  intros T HJ. assert (C := st_core _ _ _ _ _ _ _ _ _ _ (ta_stopped _ _ _ _ _ _ _ _ _ _ _ T)). assert (Hlit := lit_size _ _ _ _ _ _ _ C).
  destruct (flush_if_ok P lit total Hroomy s0 base0 start Hout0 s base syms full T) as (s' & c & E & Hs & H). exists s', c. split; [done|]. split; [done|].
  assert (Hst : d_strstart s' = d_strstart s) by (destruct Hs as [->|(z & t & p & -> & _)]; done). destruct H as [[-> H]|(-> & H1 & H2 & H3)]; [by rewrite Hst|].
  exists base, (base + d_strstart s), []. cbn [length]. split; [done|]. split; [by apply HJ|]. split; [lia|]. split; [by left|]. split; [done|by left].
Qed.
Lemma blocked_left s s' : s' = s \/ is_blocked s s' -> input_left s' = input_left s /\ d_strstart s' = d_strstart s /\ d_lookahead s' = d_lookahead s.
Proof. intros [->|(z & t & p & -> & E1 & E2 & E3 & _)]; [done|]. unfold input_left. dsimp. by rewrite E3. Qed.

(** The lookahead when there is less than wanted. *)
Lemma fill_ok s base syms :
  inv s base (base + d_strstart s) syms -> d_lookahead s < MIN_LOOKAHEAD ->
  exists s' base', fill_window s = Some s' /\ inv s' base' (base' + d_strstart s') syms /\ filled s base total s' base' /\ input_left s' = input_left s /\
    (d_lookahead s' < MIN_LOOKAHEAD -> z_avail_in (d_strm s') = 0).
Proof.
  intros I Hl. destruct (inv_fill P lit total s0 base0 start Hcheck0 s base _ syms I Hl) as (s' & base' & E & I' & F). exists s', base'. assert (Ep := ad_pos _ _ _ _ _ (fl_advanced _ _ _ _ _ F)).
  rewrite Ep. split; [done|]. split; [done|]. split; [done|]. split.
  - destruct (input_left_eq _ _ _ _ (st_core _ _ _ _ _ _ _ _ _ _ (iv_stopped _ _ _ _ _ _ _ _ _ _ I))) as [-> _]. destruct (input_left_eq _ _ _ _ (st_core _ _ _ _ _ _ _ _ _ _ (iv_stopped _ _ _ _ _ _ _ _ _ _ I'))) as [-> _]. lia.
  - intros Hlt. destruct (fl_enough _ _ _ _ _ F); [lia|done].
Qed.

Lemma inv_matchlen s base cut syms n : inv s base cut syms -> inv (s <| d_match_length := n |>) base cut syms.
Proof. exact (inv_scratch P lit total s0 base0 start s base cut syms n (d_prev_length s) (d_prev_match s) (d_match_available s) (d_match_start s)). Qed.

Lemma huff_body_ok flush s base syms :
  (forall c, P (0, c)) -> inv s base (base + d_strstart s) syms -> 0 < d_lookahead s ->
  exists s' c, ('(s, bflush) ← literal_step (s <| d_match_length := 0 |>); flush_if s bflush) = Some (s', c) /\
    match c with Continue => (exists base syms', inv s' base (base + d_strstart s') syms') /\ input_left s' < input_left s | Break => False | Return b => compressed flush all_coded s' b end.
Proof.
  intros HP I Hl. apply (inv_matchlen _ _ _ _ 0) in I. destruct (literal_step_ok _ base syms I Hl HP) as (s1 & full & syms1 & -> & (t & E1) & T). cbn [mbind option_bind].
  destruct (flushed_ok all_coded flush s1 base syms1 full T) as (s2 & c & -> & Hs & H).
  { intros s' Hs. unfold all_coded. by destruct (blocked_left _ _ Hs) as (_ & -> & _). }
  exists s2, c. split; [done|]. destruct (blocked_left _ _ Hs) as (El & _). destruct c; try done. split; [by exists base|]. rewrite El, E1. unfold input_left. dsimp. lia.
Qed.

Lemma deflate_huff_ok s base syms flush :
  (forall c, P (0, c)) -> inv s base (base + d_strstart s) syms -> exists s' r, deflate_huff s flush = Some (s', r) /\ compressed flush all_coded s' r.
Proof.
  intros HP I. unfold deflate_huff.
  destruct (forever_ok (fun s => exists base syms, inv s base (base + d_strstart s) syms)
    (fun s r => match r with Some b => compressed flush all_coded s b | None => exists base syms, inv s base (base + d_strstart s) syms /\ at_end s base /\ flush <> Z_NO_FLUSH end)
    input_left (huff_step flush)) with (fuel := input_fuel s) (s := s) as (s1 & r & -> & H).
  - intros s1 (b1 & y1 & I1). apply (input_left_eq _ _ _ _ (st_core _ _ _ _ _ _ _ _ _ _ (iv_stopped _ _ _ _ _ _ _ _ _ _ I1))).
  - intros s1 (b1 & y1 & I1). unfold huff_step. destruct (Z.eqb_spec (d_lookahead s1) 0) as [E0|Hne].
    + destruct (fill_ok s1 b1 y1 I1) as (s2 & b2 & -> & I2 & F & El & Hav); [unfold MIN_LOOKAHEAD, MAX_MATCH, MIN_MATCH; lia|]. cbn [mbind option_bind]. destruct (Z.eqb_spec (d_lookahead s2) 0) as [E2|Hne2].
      * eexists s2, _. split; [done|]. assert (Ha : z_avail_in (d_strm s2) = 0) by (apply Hav; unfold MIN_LOOKAHEAD, MAX_MATCH, MIN_MATCH; lia). destruct I2 as [St D R].
        destruct (Z.eqb_spec flush Z_NO_FLUSH) as [->|]; [exists b2, (b2 + d_strstart s2), y1; split; [done|]; split; [done|]; split; [done|]; split; [by right|]; split; [apply D|by right]|]. exists b2, y1. split; [by split|]. done.
      * rewrite <- El. destruct (huff_body_ok flush s2 b2 y1 HP I2) as (s3 & c & -> & H); [|by exists s3, c; split; [|destruct c]]. pose proof (vw_pos _ _ _ (fl_view _ _ _ _ _ F)). lia.
    + destruct (huff_body_ok flush s1 b1 y1 HP I1) as (s3 & c & -> & H); [|by exists s3, c; split; [|destruct c]].
      pose proof (vw_pos _ _ _ (co_view _ _ _ _ _ _ _ (st_core _ _ _ _ _ _ _ _ _ _ (iv_stopped _ _ _ _ _ _ _ _ _ _ I1)))). lia.
  - by exists base, syms.
  - destruct (input_left_eq _ _ _ _ (st_core _ _ _ _ _ _ _ _ _ _ (iv_stopped _ _ _ _ _ _ _ _ _ _ I))). unfold input_fuel. fold (input_left s). lia.
  - cbn [mbind option_bind]. destruct r as [b|]; [by exists s1, b|]. destruct H as (b1 & y1 & I1 & E & Hfl).
    assert (V := co_view _ _ _ _ _ _ _ (st_core _ _ _ _ _ _ _ _ _ _ (iv_stopped _ _ _ _ _ _ _ _ _ _ I1))). change (d_trees s1) with (d_trees (s1 <| d_insert := 0 |>)). apply (end_ok all_coded (s1 <| d_insert := 0 |>) b1 y1); try done.
    + apply inv_insert; [done|apply E|lia|]. apply (vw_pos _ _ _ V).
    + intros s' Hs. unfold all_coded. by destruct (blocked_left _ _ Hs) as (_ & -> & _).
Qed.

(** ** Lookahead *)
Definition same_match (s s' : deflate_state) : Prop :=
  d_match_length s' = d_match_length s /\ d_prev_length s' = d_prev_length s /\ d_match_available s' = d_match_available s /\
  u32 (d_strstart s' - d_match_start s') = u32 (d_strstart s - d_match_start s) /\ d_lookahead s <= d_lookahead s' /\ (0 < d_strstart s -> 0 < d_strstart s').

Lemma need_lookahead_ok flush n s base cut syms :
  inv s base cut syms -> 0 < n <= MIN_LOOKAHEAD ->
  exists s' base' c, need_lookahead flush n s = Some (s', c) /\ inv s' base' cut syms /\ base' + d_strstart s' = base + d_strstart s /\ input_left s' = input_left s /\
    (rolling s -> rolling s') /\ same_match s s' /\
    match c with
    | Continue => 0 < d_lookahead s' /\ d_strstart s' + n <= 2 * d_w_size s'
    | Break => at_end s' base' /\ flush <> Z_NO_FLUSH
    | Return b => b = need_more /\ flush = Z_NO_FLUSH /\ z_avail_in (d_strm s') = 0
    end.
Proof.
  intros I Hn. unfold need_lookahead. assert (Hm : MIN_LOOKAHEAD = 262) by done. destruct (Z.ltb_spec (d_lookahead s) n) as [Hlt|Hge].
  - destruct (inv_fill P lit total s0 base0 start Hcheck0 s base cut syms I ltac:(lia)) as (s1 & b1 & -> & I1 & F). cbn [mbind option_bind].
    assert (A := fl_advanced _ _ _ _ _ F). assert (V1 := fl_view _ _ _ _ _ F). destruct (vw_pos _ _ _ V1) as (P1 & P2 & P3). assert (Ep := ad_pos _ _ _ _ _ A).
    assert (El : input_left s1 = input_left s).
    { destruct (input_left_eq _ _ _ _ (st_core _ _ _ _ _ _ _ _ _ _ (iv_stopped _ _ _ _ _ _ _ _ _ _ I))) as [-> _]. destruct (input_left_eq _ _ _ _ (st_core _ _ _ _ _ _ _ _ _ _ (iv_stopped _ _ _ _ _ _ _ _ _ _ I1))) as [-> _]. lia. }
    assert (Hsm : same_match s s1) by (split_and!; [..|apply (ad_match _ _ _ _ _ A)|apply (ad_more _ _ _ _ _ A)|apply (ad_slide _ _ _ _ _ A)]; rewrite (ad_frame _ _ _ _ _ A); done).
    assert (Hav : d_lookahead s1 < n -> z_avail_in (d_strm s1) = 0) by (intros; destruct (fl_enough _ _ _ _ _ F); [lia|done]).
    exists s1, b1. assert (Hroom := fl_room _ _ _ _ _ F). rewrite (max_dist _ (fl_geometry _ _ _ _ _ F)) in Hroom. assert (Hroll := fl_rolling _ _ _ _ _ F).
    destruct (Z.ltb_spec (d_lookahead s1) n) as [Hl1|Hl1]; cbn [andb].
    + destruct (Z.eqb_spec flush Z_NO_FLUSH) as [Hf|Hf]; [exists (Return need_more); do 6 (split; [done|]); split; [done|]; split; [done|]; by apply Hav|].
      destruct (Z.eqb_spec (d_lookahead s1) 0) as [E0|]; [exists Break; do 6 (split; [done|]); split; [split; [done|by apply Hav]|done]|]. exists Continue. do 6 (split; [done|]). lia.
    + destruct (Z.eqb_spec (d_lookahead s1) 0); [lia|]. exists Continue. do 6 (split; [done|]). lia.
  - assert (V1 := co_view _ _ _ _ _ _ _ (st_core _ _ _ _ _ _ _ _ _ _ (iv_stopped _ _ _ _ _ _ _ _ _ _ I))). destruct (vw_pos _ _ _ V1) as (P1 & P2 & P3).
    exists s, base, Continue. split; [done|]. split; [done|]. split; [done|]. split; [done|]. split; [done|]. split; [done|]. lia.
Qed.

(** ** deflate_rle *)
Definition all_byte (window : list Z) (c a i j : Z) : Prop := forall k, i <= k < j -> aget window (a + k) = Some c.
Lemma all_byte_app window c a i j k : all_byte window c a i j -> all_byte window c a j k -> all_byte window c a i k.
Proof. intros H1 H2 n Hn. destruct (decide (n < j)); [apply H1|apply H2]; lia. Qed.

Lemma run_ahead_ok k : forall window c a i,
  0 <= a + i + 1 -> a + i + Z.of_nat k < Z.of_nat (length window) ->
  exists eq j, run_ahead k window c (a + i) = Some (eq, a + j) /\ i <= j <= i + Z.of_nat k /\ all_byte window c a (i + 1) j /\
    (eq = true -> j = i + Z.of_nat k /\ all_byte window c a (i + 1) (j + 1)) /\ (eq = false -> i < j).
Proof.
  induction k as [|k IH]; intros window c a i Ha La; cbn [run_ahead].
  - exists true, i. split; [done|]. split; [lia|]. split; [intros n Hn; lia|]. split; [|done]. intros _. split; [lia|]. intros n Hn. lia.
  - destruct (aget_in window (a + i + 1) ltac:(lia)) as [x Hx]. rewrite Hx. cbn [mbind option_bind]. replace (a + i + 1) with (a + (i + 1)) in * by lia. destruct (Z.eqb_spec x c) as [->|Hne].
    + destruct (IH window c a (i + 1)) as (eq & j & -> & Hj & A1 & A2 & A3); [lia..|]. exists eq, j. split; [done|].
      assert (A0 : all_byte window c a (i + 1) (i + 1 + 1)) by (intros n Hn; by replace n with (i + 1) by lia). split; [lia|]. split; [by apply (all_byte_app _ _ _ _ (i + 1 + 1))|]. split.
      * intros He. destruct (A2 He) as [E A4]. split; [lia|]. by apply (all_byte_app _ _ _ _ (i + 1 + 1)).
      * intros He. specialize (A3 He). lia.
    + exists false, (i + 1). split; [done|]. split; [lia|]. split; [intros n Hn; lia|]. split; [done|]. lia.
Qed.

Lemma run_loop_ok fuel : forall window c a i n,
  0 <= a + i + 1 -> a + n < Z.of_nat (length window) -> (n - i) mod 8 = 0 -> i < n <= i + 8 * Z.of_nat fuel ->
  exists j, run_loop fuel window c (a + i) (a + n) = Some (a + j) /\ i < j <= n /\ all_byte window c a (i + 1) j.
Proof.
  induction fuel as [|fuel IH]; intros window c a i n Ha La Hn Hf; [lia|]. cbn [run_loop]. assert (Hi : i + 8 <= n) by dlia.
  destruct (run_ahead_ok 8 window c a i) as (eq & j & -> & Hj & A1 & A2 & A3); [lia..|]. cbn [mbind option_bind]. destruct eq; cbn [andb].
  - destruct (A2 eq_refl) as [Ej A4]. destruct (Z.ltb_spec (a + j) (a + n)).
    + destruct (IH window c a j n) as (j' & -> & Hj' & A5); [lia..|dlia|lia|]. exists j'. split; [done|]. split; [lia|]. by apply (all_byte_app _ _ _ _ (j + 1)).
    + exists j. split; [done|]. split; [dlia|done].
  - exists j. split; [done|]. specialize (A3 eq_refl). split; [lia|done].
Qed.

Lemma rle_length_ok s :
  geometry s -> 0 <= d_strstart s -> 0 <= d_lookahead s -> d_strstart s + d_lookahead s <= 2 * d_w_size s -> d_strstart s + (MAX_MATCH + 1) <= 2 * d_w_size s ->
  exists len, rle_length s = Some len /\ (len = 0 \/ 3 <= len <= 258 /\ len <= d_lookahead s /\ 0 < d_strstart s /\
    forall i, 0 <= i < len -> aget (d_window s) (d_strstart s + i) = aget (d_window s) (d_strstart s + i - 1)).
Proof.
  intros G H0 Hl Hw Hr. assert (Lw := gm_window _ G). unfold rle_length, MIN_MATCH, MAX_MATCH in *. rewrite Z.geb_leb, Z.gtb_ltb. destruct (Z.leb_spec 3 (d_lookahead s)), (Z.ltb_spec 0 (d_strstart s)); cbn [andb]; try (exists 0; split; [done|by left]).
  replace (d_strstart s - 1) with (d_strstart s + -1) by lia. destruct (aget_in (d_window s) (d_strstart s + -1) ltac:(lia)) as [c Hc]. rewrite Hc. cbn [mbind option_bind].
  destruct (run_ahead_ok 3 (d_window s) c (d_strstart s) (-1)) as (eq & j & -> & Hj & A1 & A2 & _); [lia..|]. cbn [mbind option_bind]. destruct eq; [|exists 0; split; [done|by left]].
  destruct (A2 eq_refl) as [-> A3]. change (-1 + Z.of_nat 3) with 2 in *. destruct (run_loop_ok 33 (d_window s) c (d_strstart s) 2 258) as (j & -> & Hj2 & A4); [lia..|done|lia|]. cbn [mbind option_bind].
  replace (258 - (d_strstart s + 258 - (d_strstart s + j))) with j by lia.
  assert (Aj : all_byte (d_window s) c (d_strstart s) (-1) j).
  { apply (all_byte_app _ _ _ _ 0); [intros k Hk; by replace k with (-1) by lia|]. by apply (all_byte_app _ _ _ _ 3). }
  eexists. split; [done|]. right. rewrite Z.gtb_ltb. set (len := if _ <? _ then _ else _). assert (Hlen : 3 <= len <= j /\ len <= d_lookahead s) by (unfold len; destruct (Z.ltb_spec (d_lookahead s) j); lia). clearbody len.
  split; [lia|]. split; [lia|]. split; [lia|]. intros i Hi. replace (d_strstart s + i - 1) with (d_strstart s + (i - 1)) by lia. rewrite !Aj by lia. done.
Qed.

Lemma rle_body_ok flush s base syms :
  (forall c, P (0, c)) -> (forall n, P (1, n)) -> inv s base (base + d_strstart s) syms -> 0 < d_lookahead s -> d_strstart s + (MAX_MATCH + 1) <= 2 * d_w_size s ->
  exists s' c, rle_body s = Some (s', c) /\
    match c with Continue => (exists base syms', inv s' base (base + d_strstart s') syms') /\ input_left s' < input_left s | Break => False | Return b => compressed flush all_coded s' b end.
Proof.
  intros HP HP1 I Hl Hr. assert (C := st_core _ _ _ _ _ _ _ _ _ _ (iv_stopped _ _ _ _ _ _ _ _ _ _ I)). assert (G := co_geometry _ _ _ _ _ _ _ C). assert (V := co_view _ _ _ _ _ _ _ C). destruct (vw_pos _ _ _ V) as (P1 & P2 & P3). assert (Wr := wsize_range s G).
  unfold rle_body. destruct (rle_length_ok s G P1 P2 P3 Hr) as (len & -> & Hlen). cbn [mbind option_bind]. apply (inv_matchlen _ _ _ _ len) in I. set (s1 := s <| d_match_length := len |>) in *.
  assert (Hstep : exists s2 full syms2 n, (if d_match_length s1 >=? MIN_MATCH then
       '(s, bflush) ← tally_dist s1 1 (u32 (d_match_length s1 - MIN_MATCH));
       Some (s <| d_lookahead := u32 (d_lookahead s - d_match_length s) |> <| d_strstart := u32 (d_strstart s + d_match_length s) |> <| d_match_length := 0 |>, bflush)
     else literal_step s1) = Some (s2, full) /\ tallied s2 base (base + d_strstart s2) syms2 full /\ 0 < n /\ input_left s2 = input_left s - n).
  { rewrite Z.geb_leb. destruct (Z.leb_spec MIN_MATCH (d_match_length s1)) as [Hm|Hm].
    - change (d_match_length s1) with len in *. unfold MIN_MATCH in *. destruct Hlen as [|(L1 & L2 & L3 & L4)]; [lia|]. rewrite (u32_small (len - 3)) by lia.
      destruct (inv_dist P lit total s0 base0 start s1 base (base + d_strstart s) syms 1 len I) as (t & full & -> & T); [pose proof (vw_base _ _ _ V); lia|lia|lia|unfold pos, s1; dsimp; lia|apply HP1| |].
      { intros i Hi. specialize (L4 i Hi). rewrite !(vw_data _ _ _ V) in L4 by lia. rewrite <- !Z.add_assoc. rewrite L4. f_equal. lia. }
      cbn [mbind option_bind]. change (d_match_length (s1 <| d_trees := t |>)) with len. change (d_lookahead (s1 <| d_trees := t |>)) with (d_lookahead s).
      change (d_strstart (s1 <| d_trees := t |>)) with (d_strstart s). rewrite !u32_small by lia.
      apply (tallied_step P lit total s0 base0 start _ _ _ _ _ len) in T; [|unfold s1; dsimp; lia]. eexists _, full, _, len. split; [done|]. split; [|split; [lia|unfold input_left, s1; dsimp; lia]].
      apply (tallied_scratch P lit total s0 base0 start _ _ _ _ _ 0 (d_prev_length s) (d_prev_match s) (d_match_available s) (d_match_start s)) in T.
      replace (base + d_strstart s + len) with (base + (d_strstart s + len)) in T by lia. exact T.
    - destruct (literal_step_ok s1 base syms I Hl HP) as (s2 & full & syms2 & E & (t & E2) & T). exists s2, full, syms2, 1. split; [done|]. split; [done|]. split; [lia|]. rewrite E2. unfold input_left, s1. dsimp. lia. }
  destruct Hstep as (s2 & full & syms2 & n & -> & T & Hn & El). cbn [mbind option_bind]. destruct (flushed_ok all_coded flush s2 base syms2 full T) as (s3 & c & -> & Hs & H).
  { intros s' Hs. unfold all_coded. by destruct (blocked_left _ _ Hs) as (_ & -> & _). }
  exists s3, c. split; [done|]. destruct (blocked_left _ _ Hs) as (El3 & _). destruct c; try done. split; [by exists base|]. lia.
Qed.

(** ** Loops with a lookahead *)
Lemma inv_core s base cut syms : inv s base cut syms -> core P lit total s base cut syms.
Proof. intros I. exact (st_core _ _ _ _ _ _ _ _ _ _ (iv_stopped _ _ _ _ _ _ _ _ _ _ I)). Qed.

Lemma lookahead_loop flush n (J : deflate_state -> Z -> Z -> Prop) (body : deflate_state -> option (deflate_state * ctl)) :
  0 < n <= MIN_LOOKAHEAD ->
  (forall s base cut s' base', J s base cut -> base' + d_strstart s' = base + d_strstart s -> (rolling s -> rolling s') -> same_match s s' -> J s' base' cut) ->
  (forall s base cut syms, inv s base cut syms -> J s base cut -> 0 < d_lookahead s -> d_strstart s + n <= 2 * d_w_size s ->
    exists s' c, body s = Some (s', c) /\ match c with
      | Continue => (exists base cut syms, inv s' base cut syms /\ J s' base cut) /\ input_left s' < input_left s
      | Break => False
      | Return b => compressed flush J s' b
      end) ->
  forall s base cut syms, inv s base cut syms -> J s base cut ->
  exists s' r, forever (input_fuel s) (fun s => '(s, c) ← need_lookahead flush n s; match c with Continue => body s | _ => Some (s, c) end) s = Some (s', r) /\
    match r with
    | Some b => compressed flush J s' b
    | None => exists base cut syms, inv s' base cut syms /\ J s' base cut /\ at_end s' base /\ flush <> Z_NO_FLUSH
    end.
Proof.
  intros Hn HJ Hbody s base cut syms I Hj.
  apply (forever_ok (fun s => exists base cut syms, inv s base cut syms /\ J s base cut)
    (fun s r => match r with Some b => compressed flush J s b | None => exists base cut syms, inv s base cut syms /\ J s base cut /\ at_end s base /\ flush <> Z_NO_FLUSH end) input_left).
  - intros s1 (b1 & c1 & y1 & I1 & _). apply (input_left_eq _ _ _ _ (inv_core _ _ _ _ I1)).
  - intros s1 (b1 & c1 & y1 & I1 & J1). destruct (need_lookahead_ok flush n s1 b1 c1 y1 I1 Hn) as (s2 & b2 & c & -> & I2 & Ep & El & Hr & Hm & Hc). cbn [mbind option_bind].
    assert (J2 := HJ _ _ _ _ _ J1 Ep Hr Hm). destruct c as [| |b].
    + rewrite <- El. destruct Hc. destruct (Hbody s2 b2 c1 y1) as (s3 & c & -> & H3); [done..|]. exists s3, c. split; [done|]. by destruct c.
    + eexists s2, _. split; [done|]. destruct Hc. by exists b2, c1, y1.
    + eexists s2, _. split; [done|]. destruct Hc as (-> & Hf & Ha). destruct I2 as [St D R]. exists b2, c1, y1. split; [done|]. split; [done|]. split; [done|]. split; [by right|]. split; [apply D|by right].
  - by exists base, cut, syms.
  - destruct (input_left_eq _ _ _ _ (inv_core _ _ _ _ I)). unfold input_fuel. fold (input_left s). lia.
Qed.

Lemma deflate_rle_ok s base syms flush :
  (forall c, P (0, c)) -> (forall n, P (1, n)) -> inv s base (base + d_strstart s) syms -> exists s' r, deflate_rle s flush = Some (s', r) /\ compressed flush all_coded s' r.
Proof.
  intros HP HP1 I. unfold deflate_rle. destruct (lookahead_loop flush (MAX_MATCH + 1) all_coded rle_body) with (s := s) (base := base) (cut := base + d_strstart s) (syms := syms) as (s1 & r & -> & H); try done.
  - intros s1 b1 c1 s2 b2 H E _ _. unfold all_coded in *. lia.
  - intros s1 b1 c1 y1 I1 -> Hl Hr. destruct (rle_body_ok flush s1 b1 y1 HP HP1 I1 Hl Hr) as (s2 & c & E & H). exists s2, c. split; [done|]. destruct c; try done.
    destruct H as [(b2 & y2 & I2) Hm]. split; [|done]. by exists b2, (b2 + d_strstart s2), y2.
  - cbn [mbind option_bind]. destruct r as [b|]; [by exists s1, b|]. destruct H as (b1 & c1 & y1 & I1 & -> & E & Hfl). assert (V := co_view _ _ _ _ _ _ _ (inv_core _ _ _ _ I1)).
    change (d_trees s1) with (d_trees (s1 <| d_insert := 0 |>)). apply (end_ok all_coded (s1 <| d_insert := 0 |>) b1 y1); try done.
    + apply inv_insert; [done|apply E|lia|]. apply (vw_pos _ _ _ V).
    + intros s' Hs. unfold all_coded. by destruct (blocked_left _ _ Hs) as (_ & -> & _).
Qed.
End functions.
