(* ===== verification/DeflateFast.v ===== *)
(** The compression function with matches and no lazy evaluation: [deflate_fast()]. *)
From S2P Require Import Prelude Record Bits Huffman Lz Fixed DeflateFormat InflateState TreesTables Trees.
From S2P Require Import BitWriter TreesCodes TreesEmit TreesBuild TreesLens TreesTree TreesRle TreesHeader TreesTally.
From S2P Require Import TreesFlush DeflateState Deflate DeflateOut DeflateHash DeflateWindow DeflateMatch DeflateBlocks DeflateLoop.
From S2P Require Import DeflateHuff.

(** ** Insertions *)

(** [strstart] was inserted. *)
Record inserted (s : deflate_state) : Prop := {
  in_geometry : geometry s;
  in_chained : exists ins, chained s ins (d_strstart s + 1);
  in_hash : ins_ok s (d_strstart s + 1) }.

Lemma inserted_same s s' : hfields s' = hfields s -> inserted s -> inserted s'.
Proof.
  intros E [G [ins C] H]. assert (E' := E). unfold hfields in E'. injection E' as E1 E2 E3 E4 E5 E6 E7 E8 E9 E10 E11 E12 E13 E14 E15.
  split; rewrite ?E13; [by apply (geometry_same s)|exists ins; by apply (chained_same s)|by apply (ins_ok_same s)].
Qed.

(** The position behind an insertion. *)
Definition tables (s : deflate_state) := (d_window s, d_prev s, d_head s, d_ins_h s, d_w_size s, d_w_mask s, d_hash_mask s, d_hash_shift s).
Lemma inserted_done s s' :
  inserted s -> tables s' = tables s -> d_insert s' = 0 -> d_strstart s' = d_strstart s + 1 -> d_strstart s + d_lookahead s <= d_strstart s' + d_lookahead s' -> hashed s' /\ rolling s'.
Proof.
  intros [G [ins C] H]. unfold tables. intros [= E1 E2 E3 E4 E5 E6 E7 E8] E0 Es Hle. split.
  - split; [by left|]. exists ins. rewrite E0, Z.sub_0_r, Es. eapply chained_ext; [..|exact C]; try done; [lia|]. intros i _. by rewrite E1.
  - intros _. rewrite Es. unfold ins_ok, wbyte in *. by rewrite E1, E4, E7, E8.
Qed.

(** The same with less lookahead. *)
Lemma inserted_short s s' :
  inserted s -> geometry s' -> tables s' = tables s -> d_strstart s' = d_strstart s -> MIN_MATCH <= d_lookahead s' -> inserted s'.
Proof.
  intros [G [ins [C1 C2 C3]] H] G'. unfold tables. intros [= E1 E2 E3 E4 E5 E6 E7 E8] Es Hl. unfold MIN_MATCH in Hl.
  assert (Hh : forall p, hash_at s' p = hash_at s p) by (intros p; apply hash_at_ext; try done; intros i _; by rewrite E1). split; [done| |].
  - exists ins. rewrite Es. split.
    + intros p Hp. destruct (C1 p Hp). lia.
    + intros h q. rewrite E3, Hh. apply C2.
    + intros p Hp. rewrite E2, E5, E6, Es. intros Hlt. destruct (C3 p Hp Hlt) as (q & Hq & Hc). exists q. by rewrite !Hh.
  - rewrite Es. unfold ins_ok, wbyte in *. by rewrite E1, E4, E7, E8.
Qed.

(** The parameters of the tables. *)
Definition gfields (s : deflate_state) :=
  (d_window s, (d_w_size s, d_w_bits s, d_w_mask s, d_window_size s), (d_hash_size s, d_hash_bits s, d_hash_mask s, d_hash_shift s), length (d_prev s), length (d_head s)).
Lemma geometry_fields s s' : gfields s' = gfields s -> geometry s -> geometry s'.
Proof. unfold gfields. intros [= E1 E2 E3 E4 E5 E6 E7 E8 E9 E10 E11] []. split; rewrite ?E1, ?E2, ?E3, ?E4, ?E5, ?E6, ?E7, ?E8, ?E9, ?E10, ?E11; done. Qed.

Lemma insert_next s :
  inserted s -> 0 <= d_strstart s -> MIN_MATCH <= d_lookahead s -> d_strstart s + 1 + d_lookahead s <= 2 * d_w_size s ->
  exists s' q, INSERT_STRING (s <| d_strstart := d_strstart s + 1 |>) (d_strstart s + 1) = Some (s', q) /\ is_rehashed (s <| d_strstart := d_strstart s + 1 |>) s' /\ inserted s'.
Proof.
  intros [G [ins C] H] H0 Hl Hw. unfold MIN_MATCH in Hl. set (s1 := s <| d_strstart := d_strstart s + 1 |>). assert (G1 : geometry s1) by (destruct G; by split).
  assert (C1 : chained s1 ins (d_strstart s + 1)) by (eapply chained_ext; [..|exact C]; unfold s1; dsimp; try done; lia).
  destruct (INSERT_STRING_ok s1 ins (d_strstart s + 1) (d_strstart s + 1) G1 C1) as (s' & q & E & Hr & C' & H' & _); try (unfold s1; dsimp; lia); [done|].
  exists s', q. split; [done|]. split; [done|]. assert (Es : d_strstart s' = d_strstart s + 1) by (by destruct Hr as (h & p & d & -> & _)).
  split; [by apply (rehashed_geometry s1)|by rewrite Es; eexists|by rewrite Es].
Qed.

Lemma insert_matched_ok fuel : forall s,
  inserted s -> 0 <= d_strstart s -> MIN_MATCH <= d_lookahead s -> 1 <= d_match_length s <= Z.of_nat fuel -> d_match_length s < 2 ^ 32 -> d_strstart s + d_match_length s + d_lookahead s <= 2 * d_w_size s ->
  exists s1, insert_matched fuel s = Some (s1 <| d_strstart := d_strstart s + d_match_length s |> <| d_match_length := 0 |>) /\ is_rehashed s s1 /\
    inserted (s1 <| d_strstart := d_strstart s + d_match_length s |> <| d_match_length := 0 |>).
Proof.
  induction fuel as [|fuel IH]; intros s I H0 Hl Hm Hm32 Hw; [lia|]. cbn [insert_matched]. assert (Wr := wsize_range s (in_geometry _ I)). unfold MIN_MATCH in Hl. rewrite (u32_small (d_strstart s + 1)) by lia.
  destruct (insert_next s I H0) as (s1 & q & E & Hr & I1); [unfold MIN_MATCH; lia|lia|]. change (d_strstart (s <| d_strstart := d_strstart s + 1 |>)) with (d_strstart s + 1). rewrite E. cbn [mbind option_bind].
  destruct Hr as (h & p & d & -> & L1 & L2). change (d_match_length (rehashed _ h p d)) with (d_match_length s). rewrite u32_small by lia.
  set (s2 := (rehashed (s <| d_strstart := d_strstart s + 1 |>) h p d) <| d_match_length := d_match_length s - 1 |>). change (d_match_length s2) with (d_match_length s - 1).
  assert (I2 : inserted s2) by (by eapply inserted_same; [|exact I1]).
  destruct (Z.eqb_spec (d_match_length s - 1) 0) as [E0|Hne].
  - exists (rehashed s h p d). replace (d_match_length s) with 1 by lia. split; [by rewrite <- E0|]. split; [by exists h, p, d|]. rewrite <- E0. exact I2.
  - destruct (IH s2 I2) as (s3 & E3 & (h' & p' & d' & -> & L3 & L4) & I3); try (unfold s2, rehashed; dsimp; unfold MIN_MATCH; lia).
    exists (rehashed s h' p' d'). replace (d_strstart s + d_match_length s) with (d_strstart s2 + d_match_length s2) by (unfold s2, rehashed; dsimp; lia).
    split; [exact E3|]. split; [|exact I3]. exists h', p', d'. split; [done|]. split; [etransitivity; [exact L3|exact L1]|etransitivity; [exact L4|exact L2]].
Qed.

Section matches.
Context (P : sym -> Prop) (lit : Z) (total : list Z) (Hroomy : roomy P lit total) (HP : forall x, P x).
Context (s0 : deflate_state) (base0 start : Z).
Context (Hout0 : out_ok s0) (Hcheck0 : check_ok (d_wrap s0) (z_adler (d_strm s0))).
Notation inv := (inv P lit total s0 base0 start).
Notation stopped := (stopped P lit total s0 base0 start).
Notation tallied := (tallied P lit total s0 base0 start).
Notation compressed := (compressed P lit total s0 base0 start).

(** Insertions change the tables only. *)
Lemma stopped_rehash s s' base cut syms : stopped s base cut syms -> is_rehashed s s' -> hashed s' -> stopped s' base cut syms.
Proof.
  intros [[G [] Hh Hc [] Hco Hcl Hb Hf Hd Hl Hv] S (x & W1 & W2)] Hr H. assert (G' := rehashed_geometry _ _ Hr G). destruct Hr as (h & p & d & -> & L1 & L2). split.
  - by split.
  - by apply (since_same total s0 base0 s).
  - exists x. split; [|done]. by apply (outputs_same s0 s).
Qed.
Lemma tallied_rehash s s' base cut syms full : tallied s base cut syms full -> is_rehashed s s' -> hashed s' -> tallied s' base cut syms full.
Proof.
  intros [St D R F] Hr H. split; try done; [by apply (stopped_rehash s)|]. by destruct Hr as (h & p & d & -> & _).
Qed.

(** The string at [strstart] inserted, if there is one. *)
Lemma insert_here_ok s base cut syms :
  inv s base cut syms -> rolling s ->
  exists s1 q, insert_here s = Some (s1, q) /\ is_rehashed s s1 /\
    (d_lookahead s < MIN_MATCH /\ s1 = s /\ q = NIL \/
     MIN_MATCH <= d_lookahead s /\ d_insert s = 0 /\ inserted s1 /\
     exists ins, chained s1 ins (d_strstart s1 + 1) /\ (q <> 0 -> ins q /\ 0 < q < d_strstart s /\ hash_at s1 q = hash_at s1 (d_strstart s1))).
Proof.
  intros I Hr. assert (C := inv_core _ _ _ _ _ _ _ _ _ _ I). assert (G := co_geometry _ _ _ _ _ _ _ C). destruct (vw_pos _ _ _ (co_view _ _ _ _ _ _ _ C)) as (P1 & P2 & P3).
  unfold insert_here. rewrite Z.geb_leb. destruct (Z.leb_spec MIN_MATCH (d_lookahead s)) as [Hl|Hl].
  - destruct (co_hashed _ _ _ _ _ _ _ C) as [Hset [ins Hc]]. destruct (vw_insert _ _ _ (co_view _ _ _ _ _ _ _ C)) as [Hi _]. assert (E0 : d_insert s = 0) by lia. unfold MIN_MATCH in Hl.
    destruct (INSERT_STRING_ok s ins (d_strstart s - d_insert s) (d_strstart s) G Hc) as (s1 & q & E & Hr1 & C1 & H1 & Hq); try lia; [apply Hr; unfold MIN_MATCH; lia|].
    exists s1, q. split; [done|]. split; [done|]. right. split; [unfold MIN_MATCH; lia|]. split; [done|]. assert (G1 := rehashed_geometry _ _ Hr1 G). destruct Hr1 as (h & p & d & -> & _).
    split; [split; [done|by eexists|done]|]. eexists. split; [exact C1|]. intros Hne. destruct Hq as [|(Q1 & Q2 & Q3)]; [done|]. split; [by left|]. split; [done|]. change (d_strstart (rehashed s h p d)) with (d_strstart s). rewrite !(hash_at_ext s) by done. exact Q3.
  - exists s, NIL. split; [done|]. split; [apply rehashed_refl|by left].
Qed.

(** A match in terms of the data. *)
Lemma match_data s base cut syms m len :
  core P lit total s base cut syms -> match_ok s m len -> len <= d_lookahead s ->
  forall i, 0 <= i < len -> aget total (base + d_strstart s + i) = aget total (base + d_strstart s + i - (d_strstart s - m)).
Proof.
  intros C (M1 & M2 & M3) Hl i Hi. assert (V := co_view _ _ _ _ _ _ _ C). specialize (M3 i ltac:(lia)). rewrite !(vw_data _ _ _ V) in M3 by lia. rewrite <- Z.add_assoc, <- M3. f_equal. lia.
Qed.

(** ** deflate_fast *)
Definition fast_kept (s : deflate_state) (base cut : Z) : Prop := cut = base + d_strstart s /\ rolling s /\ 0 <= d_match_length s < MIN_MATCH /\ 0 <= d_prev_length s < MIN_MATCH.

Lemma fast_kept_blocked s s' base : fast_kept s base (base + d_strstart s) -> s' = s \/ is_blocked s s' -> fast_kept s' base (base + d_strstart s).
Proof.
  intros H [->|(z & t & p & -> & _)]; [done|]. destruct H as (_ & H2 & H3). split; [done|]. split; [|done]. by apply (rolling_same s).
Qed.

(** The literal, with the tables as they are. *)
Lemma literal_rehash s h p d a b c e f s' full :
  literal_step s = Some (s', full) -> literal_step (scratch (rehashed s h p d) a b c e f) = Some (scratch (rehashed s' h p d) a b c e f, full).
Proof.
  unfold literal_step, tally_lit, scratch, rehashed. dsimp. destruct (aget (d_window s) (d_strstart s)) as [x|]; [|done]. dsimp.
  destruct (tr_tally_lit (d_trees s) x) as [[t f']|]; [|done]. dsimp. intros [= <- <-]. dsimp. reflexivity.
Qed.

(** After an insertion at [strstart], one byte further. *)
Lemma fast_literal s base syms s1 ml ms :
  inv s base (base + d_strstart s) syms -> fast_kept s base (base + d_strstart s) -> 0 < d_lookahead s -> is_rehashed s s1 ->
  (d_lookahead s < MIN_MATCH /\ s1 = s \/ inserted s1 /\ d_insert s = 0) -> 0 <= ml < MIN_MATCH ->
  exists s2 full syms2, literal_step (s1 <| d_match_length := ml |> <| d_match_start := ms |>) = Some (s2, full) /\ tallied s2 base (base + d_strstart s2) syms2 full /\
    fast_kept s2 base (base + d_strstart s2) /\ input_left s2 < input_left s.
Proof.
  intros I (_ & K1 & K2 & K3) Hl Hr Hc Hml. destruct (literal_step_ok P lit total s0 base0 start s base syms I Hl ltac:(auto)) as (s2 & full & syms2 & E & (t & Es2) & T). assert (Hr0 := Hr).
  destruct Hr as (h & p & d & Es1 & L1 & L2). apply (literal_rehash _ h p d ml (d_prev_length s) (d_prev_match s) (d_match_available s) ms) in E. rewrite Es1.
  exists (scratch (rehashed s2 h p d) ml (d_prev_length s) (d_prev_match s) (d_match_available s) ms), full, syms2. split; [exact E|].
  assert (Hh : hashed (rehashed s2 h p d) /\ rolling (rehashed s2 h p d)).
  { destruct Hc as [[Hlt ->]|[Hi E0]].
    - replace (rehashed s2 h p d) with s2.
      + split; [apply (co_hashed _ _ _ _ _ _ _ (st_core _ _ _ _ _ _ _ _ _ _ (ta_stopped _ _ _ _ _ _ _ _ _ _ _ T)))|]. intros Hx. rewrite Es2 in Hx. cbn in Hx. lia.
      + rewrite Es2. destruct s; by injection Es1 as <- <- <-.
    - apply (inserted_done s1); try done; rewrite ?Es1, ?Es2; try done. cbn. lia. }
  destruct Hh as [Hh Hroll]. split; [|split; [|rewrite Es2; unfold input_left; cbn; lia]].
  - apply tallied_scratch. apply (tallied_rehash s2); [rewrite Es2 in *; exact T| |done]. exists h, p, d. split; [done|]. by rewrite Es2.
  - split; [done|]. split; [by eapply rolling_same; [|exact Hroll]|]. split; [exact Hml|]. by rewrite Es2.
Qed.

Lemma tally_dist_rehash s h p d a b t full :
  tally_dist s a b = Some (s <| d_trees := t |>, full) -> tally_dist (rehashed s h p d) a b = Some (rehashed (s <| d_trees := t |>) h p d, full).
Proof.
  unfold tally_dist, rehashed. dsimp. destruct (tr_tally_dist (d_trees s) a b) as [[t' f']|]; [|done]. dsimp. intros [= E1 E2]. subst t' f'. reflexivity.
Qed.

(** The insertions behind a match, or a new start of the hash value; [x] is the state at the match, [s] that with less lookahead. *)
Definition skip_match (s : deflate_state) : option deflate_state :=
  if (d_match_length s <=? d_max_lazy_match s) && (d_lookahead s >=? MIN_MATCH) then
    let s := s <| d_match_length := u32 (d_match_length s - 1) |> in
    s ← insert_matched (Z.to_nat (d_match_length s)) s;
    Some (s <| d_strstart := u32 (d_strstart s + 1) |>)
  else
    let s := s <| d_strstart := u32 (d_strstart s + d_match_length s) |> <| d_match_length := 0 |> in
    h ← aget (d_window s) (d_strstart s);
    c ← aget (d_window s) (d_strstart s + 1);
    h ← UPDATE_HASH s h c;
    Some (s <| d_ins_h := h |>).

Definition skipped (s : deflate_state) (h : Z) (p d : list Z) : deflate_state :=
  (rehashed s h p d) <| d_strstart := d_strstart s + d_match_length s |> <| d_match_length := 0 |>.

Lemma skip_inserts s :
  inserted s -> d_insert s = 0 -> 0 <= d_strstart s -> d_strstart s + d_match_length s + d_lookahead s <= 2 * d_w_size s -> 3 <= d_match_length s <= 258 -> MIN_MATCH <= d_lookahead s ->
  exists s1 h p d, insert_matched (Z.to_nat (d_match_length s - 1)) (s <| d_match_length := d_match_length s - 1 |>) = Some s1 /\ d_strstart s1 = d_strstart s + d_match_length s - 1 /\
    s1 <| d_strstart := d_strstart s + d_match_length s |> = skipped s h p d /\ length p = length (d_prev s) /\ length d = length (d_head s) /\ inserted s1 /\ tables s1 = tables (skipped s h p d) /\ d_lookahead s1 = d_lookahead s.
Proof.
  intros I E0 H0 Hw Hm Hl. set (s1 := s <| d_match_length := d_match_length s - 1 |>). assert (I1 : inserted s1) by (by apply (inserted_same s)). unfold MIN_MATCH in Hl.
  assert (Wr := wsize_range s (in_geometry _ I)). change (Z.to_nat (d_match_length s - 1)) with (Z.to_nat (d_match_length s1)).
  destruct (insert_matched_ok (Z.to_nat (d_match_length s1)) s1 I1) as (s2 & E & (h & p & d & -> & L3 & L4) & I2); try (unfold s1, MIN_MATCH; dsimp; lia).
  eexists _, h, p, d. split; [exact E|]. split; [unfold s1; dsimp; lia|]. split; [|done]. unfold skipped, s1, rehashed. dsimp. reflexivity.
Qed.

Lemma skip_match_ok x s :
  inserted x -> geometry s -> tables s = tables x -> d_strstart s = d_strstart x -> d_insert s = 0 -> 0 <= d_strstart s -> d_strstart x + d_lookahead x <= d_strstart s + d_match_length s + d_lookahead s ->
  d_strstart s + d_match_length s + d_lookahead s <= 2 * d_w_size s -> d_strstart s + MIN_LOOKAHEAD <= 2 * d_w_size s -> 3 <= d_match_length s <= 258 -> 0 <= d_lookahead s ->
  exists h p d, skip_match s = Some (skipped s h p d) /\ length p = length (d_prev s) /\ length d = length (d_head s) /\ hashed (skipped s h p d) /\ rolling (skipped s h p d).
Proof.
  intros I G Et Es E0 H0 Hle Hw Hr Hm Hl. assert (Wr := wsize_range s G). unfold skip_match. destruct (_ && _) eqn:Ec.
  - apply andb_true_iff in Ec as [_ Ec]. rewrite Z.geb_leb in Ec. apply Z.leb_le in Ec. assert (I' := inserted_short x s I G Et Es Ec). cbv zeta. rewrite (u32_small (d_match_length s - 1)) by lia.
    destruct (skip_inserts s I' E0 H0 Hw Hm Ec) as (s1 & h & p & d & E & E1 & E2 & L1 & L2 & I1 & E3 & E4). change (d_match_length (s <| d_match_length := d_match_length s - 1 |>)) with (d_match_length s - 1). rewrite E. cbn [mbind option_bind].
    rewrite E1, u32_small by lia. exists h, p, d. replace (d_strstart s + d_match_length s - 1 + 1) with (d_strstart s + d_match_length s) by lia. split; [by rewrite E2|]. split; [done|]. split; [done|].
    apply (inserted_done s1); [done|by symmetry| | |]; unfold skipped, rehashed; dsimp; lia.
  - clear Ec. cbv zeta. unfold MIN_LOOKAHEAD, MAX_MATCH, MIN_MATCH in Hr. set (s1 := s <| d_strstart := u32 (d_strstart s + d_match_length s) |> <| d_match_length := 0 |>). assert (Es1 : d_strstart s1 = d_strstart s + d_match_length s) by (unfold s1; dsimp; rewrite u32_small; lia).
    assert (Lw := gm_window _ G). rewrite Es1. change (d_window s1) with (d_window s). rewrite !wbyte_get by lia. cbn [mbind option_bind].
    destruct (hash_start s (d_strstart s + d_match_length s) G) as [Hs1 Hs2]. cbv zeta in Hs1, Hs2.
    assert (Hb := wbyte_byte s (d_strstart s + d_match_length s) G). unfold byte_ok in Hb. change (UPDATE_HASH s1) with (UPDATE_HASH s). rewrite (UPDATE_HASH_ok s) by (done || lia). cbn [mbind option_bind].
    set (h := _ .& d_hash_mask s) in *. clearbody h. exists h, (d_prev s), (d_head s). split; [|split; [done|split; [done|]]].
    + f_equal. unfold skipped, s1, rehashed. rewrite u32_small by lia. dsimp. reflexivity.
    + unfold tables in Et. injection Et as Et1 Et2 Et3 Et4 Et5 Et6 Et7 Et8. destruct (in_chained _ I) as [ins C]. split.
      * split; [by left|]. exists ins. unfold skipped, rehashed. dsimp. rewrite E0, Z.sub_0_r. apply (chained_front _ _ (d_strstart x + 1)); [|lia]. eapply chained_ext; [..|exact C]; dsimp; try done; [lia..|]. intros i _. by rewrite Et1.
      * intros _. split; [exact Hs1|exact Hs2].
Qed.

(** The state at the end of a match, with new tables. *)
Definition after_match (s : deflate_state) (h : Z) (p d : list Z) (h' : Z) (p' d' : list Z) : deflate_state :=
  skipped ((rehashed s h p d) <| d_lookahead := d_lookahead s - d_match_length s |>) h' p' d'.
Lemma after_match_eq s h p d h' p' d' :
  after_match s h p d h' p' d' = rehashed (scratch (s <| d_strstart := d_strstart s + d_match_length s |> <| d_lookahead := d_lookahead s - d_match_length s |>)
    0 (d_prev_length s) (d_prev_match s) (d_match_available s) (d_match_start s)) h' p' d'.
Proof. unfold after_match, skipped, scratch, rehashed. dsimp. reflexivity. Qed.

Lemma after_match_ok s base cut syms full h p d h' p' d' :
  tallied s base cut syms full -> 0 <= d_match_length s <= d_lookahead s -> length p' = length (d_prev s) -> length d' = length (d_head s) ->
  hashed (after_match s h p d h' p' d') -> tallied (after_match s h p d h' p' d') base cut syms full.
Proof.
  rewrite after_match_eq. intros T Hl L1 L2 Hh. apply (tallied_step P lit total s0 base0 start _ _ _ _ _ (d_match_length s)) in T; [|exact Hl]. apply (tallied_scratch P lit total s0 base0 start _ _ _ _ _ 0 (d_prev_length s) (d_prev_match s) (d_match_available s) (d_match_start s)) in T.
  eapply tallied_rehash; [exact T| |exact Hh]. by exists h', p', d'.
Qed.

Lemma fast_match_step_eq s s1 s2 full :
  tally_dist s (u32 (d_strstart s - d_match_start s)) (u32 (d_match_length s - MIN_MATCH)) = Some (s1, full) -> skip_match (s1 <| d_lookahead := u32 (d_lookahead s1 - d_match_length s1) |>) = Some s2 ->
  fast_match_step s = Some (s2, full).
Proof. intros E1 E2. unfold fast_match_step. rewrite E1. cbn [mbind option_bind]. unfold skip_match in E2. by rewrite E2. Qed.

Lemma rehashed_tables s s' h p d : tables s' = tables s -> tables (rehashed s' h p d) = tables (rehashed s h p d).
Proof. unfold tables. intros [= E1 E2 E3 E4 E5 E6 E7 E8]. unfold rehashed. dsimp. by rewrite E1, E5, E6, E7, E8. Qed.

Lemma fast_skip s s1 h p d :
  inserted (rehashed s h p d) -> hfields s1 = hfields s -> d_insert s1 = 0 -> length p = length (d_prev s) -> length d = length (d_head s) ->
  0 <= d_strstart s -> d_strstart s + d_lookahead s <= 2 * d_w_size s -> d_strstart s + MIN_LOOKAHEAD <= 2 * d_w_size s -> 3 <= d_match_length s1 <= 258 -> d_match_length s1 <= d_lookahead s ->
  exists h' p' d', skip_match ((rehashed s1 h p d) <| d_lookahead := d_lookahead s1 - d_match_length s1 |>) = Some (after_match s1 h p d h' p' d') /\
    length p' = length (d_prev s) /\ length d' = length (d_head s) /\ hashed (after_match s1 h p d h' p' d') /\ rolling (after_match s1 h p d h' p' d').
Proof.
  intros In Ef E0 L1 L2 P1 P2 Hr Hlen Hla. unfold hfields in Ef. injection Ef as E1 E2 E3 E4 E5 E6 E7 E8 E9 E10 E11 E12 E13 E14 E15.
  destruct (skip_match_ok (rehashed s h p d) ((rehashed s1 h p d) <| d_lookahead := d_lookahead s1 - d_match_length s1 |>) In) as (h' & p' & d' & Es & L3 & L4 & Hh & Hro); try (unfold rehashed; dsimp; lia).
  - eapply geometry_fields; [..|exact (in_geometry _ In)]; unfold gfields, rehashed; dsimp; congruence.
  - rewrite <- (rehashed_tables s s1 h p d); [done|]. unfold tables. congruence.
  - exists h', p', d'. split; [exact Es|]. split; [rewrite <- L1; exact L3|]. split; [rewrite <- L2; exact L4|]. split; [exact Hh|exact Hro].
Qed.

(** The match in [match_start] and [match_length] sent, with the tables as they are. *)
Lemma fast_match_sent s base syms h p d :
  inv s base (base + d_strstart s) syms -> inserted (rehashed s h p d) -> d_insert s = 0 -> length p = length (d_prev s) -> length d = length (d_head s) ->
  d_strstart s + MIN_LOOKAHEAD <= 2 * d_w_size s -> match_ok s (d_match_start s) (d_match_length s) -> 3 <= d_match_length s <= 258 -> d_match_length s <= d_lookahead s ->
  exists s1 full syms2 h' p' d', fast_match_step (rehashed s h p d) = Some (after_match s1 h p d h' p' d', full) /\ (exists t, s1 = s <| d_trees := t |>) /\
    tallied (after_match s1 h p d h' p' d') base (base + d_strstart s + d_match_length s) syms2 full /\ rolling (after_match s1 h p d h' p' d').
Proof.
  intros I In E0 L1 L2 Hr Hm Hlen Hla. assert (C := inv_core _ _ _ _ _ _ _ _ _ _ I). assert (G := co_geometry _ _ _ _ _ _ _ C). assert (V := co_view _ _ _ _ _ _ _ C). destruct (vw_pos _ _ _ V) as (P1 & P2 & P3). assert (Wr := wsize_range s G).
  assert (Hd := match_data _ _ _ _ _ _ C Hm Hla). destruct Hm as (M1 & M2 & _). rewrite (max_dist s G) in M2. unfold MIN_LOOKAHEAD, MAX_MATCH, MIN_MATCH in M2. pose proof (vw_base _ _ _ V).
  destruct (inv_dist P lit total s0 base0 start s base (base + d_strstart s) syms (d_strstart s - d_match_start s) (d_match_length s) I) as (t & full & E & T); try done; try lia; [unfold pos; lia|].
  apply (tally_dist_rehash _ h p d) in E.
  assert (Ef : hfields (s <| d_trees := t |>) = hfields s) by reflexivity. assert (Em : d_match_length (s <| d_trees := t |>) = d_match_length s) by reflexivity.
  assert (El : d_lookahead (s <| d_trees := t |>) = d_lookahead s) by reflexivity. assert (Ei : d_insert (s <| d_trees := t |>) = 0) by exact E0.
  assert (Ex : exists t', s <| d_trees := t |> = s <| d_trees := t' |>) by (by exists t). generalize dependent (s <| d_trees := t |>). intros s1 E T Ef Em El Ei Ex.
  rewrite <- Em in Hlen, Hla. destruct (fast_skip s s1 h p d In Ef Ei L1 L2 P1 ltac:(lia) Hr Hlen Hla) as (h' & p' & d' & Es & L3 & L4 & Hh & Hro).
  eexists s1, full, _, h', p', d'. split.
  { eapply fast_match_step_eq; change (d_strstart (rehashed s h p d)) with (d_strstart s); change (d_match_start (rehashed s h p d)) with (d_match_start s); change (d_match_length (rehashed s h p d)) with (d_match_length s).
    - rewrite !u32_small by (unfold MIN_MATCH; lia). exact E.
    - change (d_lookahead (rehashed s1 h p d)) with (d_lookahead s1). change (d_match_length (rehashed s1 h p d)) with (d_match_length s1). rewrite u32_small by lia. exact Es. }
  split; [exact Ex|]. split; [|exact Hro]. unfold hfields in Ef. injection Ef as _ F2 F3 _ _ _ _ _ _ _ _ _ _ _ _. apply after_match_ok; [exact T|lia|congruence|congruence|exact Hh].
Qed.

(** The search of [deflate_fast]. *)
Definition fast_search (s : deflate_state) (hash_head : Z) : option deflate_state :=
  if negb (hash_head =? NIL) && (u32 (d_strstart s - hash_head) <=? MAX_DIST s) then
    '(s, len) ← longest_match s hash_head;
    Some (s <| d_match_length := len |>)
  else Some s.

Definition with_match (s : deflate_state) (ml ms : Z) : deflate_state := s <| d_match_length := ml |> <| d_match_start := ms |>.

Lemma fast_search_ok s q ins :
  geometry s -> chained s ins (d_strstart s + 1) -> 0 <= d_strstart s -> d_strstart s + MIN_LOOKAHEAD <= 2 * d_w_size s -> 0 <= d_lookahead s < 2 ^ 32 -> 0 <= d_match_length s < MIN_MATCH -> 0 <= d_prev_length s < MIN_MATCH ->
  (q <> 0 -> ins q /\ 0 < q < d_strstart s /\ hash_at s q = hash_at s (d_strstart s)) ->
  exists ml ms, fast_search s q = Some (with_match s ml ms) /\ (0 <= ml < MIN_MATCH \/ MIN_MATCH <= ml <= MAX_MATCH /\ ml <= d_lookahead s /\ match_ok s ms ml).
Proof.
  intros G C H0 Hr Hl Hm Hp Hq. unfold fast_search. destruct (_ && _) eqn:Ec.
  - apply andb_true_iff in Ec as [E1 E2]. apply negb_true_iff, Z.eqb_neq in E1. apply Z.leb_le in E2. assert (Wr := wsize_range s G). destruct (Hq E1) as (Q1 & Q2 & Q3).
    unfold MIN_LOOKAHEAD, MAX_MATCH, MIN_MATCH in *. rewrite u32_small in E2 by lia.
    destruct (longest_match_ok s ins G C H0 Hr q) as (ms & len & -> & L1 & L2 & L3); [by split; [|split]|unfold MAX_MATCH; lia|lia|]. cbn [mbind option_bind]. exists len, ms.
    split; [unfold with_match; dsimp; reflexivity|]. destruct L3 as [[_ L3]|L3]; [left; lia|]. unfold MAX_MATCH in L2. destruct (Z.le_gt_cases 3 len); [right|left; lia]. split; [lia|]. by split; [lia|].
  - exists (d_match_length s), (d_match_start s). split; [|by left]. by destruct s.
Qed.

Lemma fast_body_eq s s1 q s2 s3 full :
  insert_here s = Some (s1, q) -> fast_search s1 q = Some s2 -> (if d_match_length s2 >=? MIN_MATCH then fast_match_step s2 else literal_step s2) = Some (s3, full) -> fast_body s = flush_if s3 full.
Proof. intros E1 E2 E3. unfold fast_body. rewrite E1. cbn [mbind option_bind]. unfold fast_search in E2. rewrite E2. cbn [mbind option_bind]. by rewrite E3. Qed.

(** Either the string at [strstart] was inserted and a search was made, or the lookahead is too short. *)
Lemma fast_found s base syms :
  inv s base (base + d_strstart s) syms -> fast_kept s base (base + d_strstart s) -> d_strstart s + MIN_LOOKAHEAD <= 2 * d_w_size s -> 0 < d_lookahead s ->
  exists s1 q ml ms, insert_here s = Some (s1, q) /\ is_rehashed s s1 /\ fast_search s1 q = Some (with_match s1 ml ms) /\ (d_lookahead s < MIN_MATCH /\ s1 = s \/ inserted s1 /\ d_insert s = 0) /\
    (0 <= ml < MIN_MATCH \/ MIN_MATCH <= ml <= MAX_MATCH /\ ml <= d_lookahead s /\ match_ok s1 ms ml /\ inserted s1 /\ d_insert s = 0).
Proof.
  intros I (_ & K1 & K2 & K3) Hr Hl. destruct (insert_here_ok s base _ syms I K1) as (s1 & q & E & Hre & H). assert (C := inv_core _ _ _ _ _ _ _ _ _ _ I). assert (G := co_geometry _ _ _ _ _ _ _ C). destruct (vw_pos _ _ _ (co_view _ _ _ _ _ _ _ C)) as (P1 & P2 & P3).
  assert (Wr := wsize_range s G). exists s1, q. destruct H as [(Hlt & -> & ->)|(Hge & E0 & In & ins & C1 & Hq)].
  - exists (d_match_length s), (d_match_start s). split; [exact E|]. split; [exact Hre|]. split; [unfold fast_search; cbn; by destruct s|]. split; [by left|by left].
  - assert (G1 := in_geometry _ In). assert (Eq : d_strstart s1 = d_strstart s /\ d_lookahead s1 = d_lookahead s /\ d_w_size s1 = d_w_size s /\ d_match_length s1 = d_match_length s /\ d_prev_length s1 = d_prev_length s) by (by destruct Hre as (h & p & d & -> & _)).
    destruct Eq as (Q1 & Q2 & Q3 & Q4 & Q5). rewrite Q1 in Hq. destruct (fast_search_ok s1 q ins G1 C1) as (ml & ms & Es & Hml); rewrite ?Q1, ?Q2, ?Q3, ?Q4, ?Q5; try done; [lia|].
    exists ml, ms. split; [exact E|]. split; [exact Hre|]. split; [exact Es|]. split; [by right|]. destruct Hml as [|(M1 & M2 & M3)]; [by left|right]. rewrite Q2 in M2. done.
Qed.

Lemma match_ok_rehashed s h p d ml ms a b : match_ok (rehashed s h p d) ms ml -> match_ok (with_match s a b) ms ml.
Proof. done. Qed.

Lemma with_match_rehashed s h p d ml ms : with_match (rehashed s h p d) ml ms = rehashed (with_match s ml ms) h p d.
Proof. unfold with_match, rehashed. dsimp. reflexivity. Qed.

(** A match found at [strstart] sent. *)
Lemma fast_match s base syms s1 ml ms :
  inv s base (base + d_strstart s) syms -> fast_kept s base (base + d_strstart s) -> is_rehashed s s1 -> d_strstart s + MIN_LOOKAHEAD <= 2 * d_w_size s ->
  MIN_MATCH <= ml <= MAX_MATCH -> ml <= d_lookahead s -> match_ok s1 ms ml -> inserted s1 -> d_insert s = 0 ->
  exists s2 full syms2, fast_match_step (with_match s1 ml ms) = Some (s2, full) /\ tallied s2 base (base + d_strstart s2) syms2 full /\ fast_kept s2 base (base + d_strstart s2) /\ input_left s2 < input_left s.
Proof.
  intros I (_ & _ & _ & K3) (h & p & d & -> & L1 & L2) Hr Hml Hla Hm In E0. unfold MIN_MATCH, MAX_MATCH in Hml. rewrite with_match_rehashed. apply (match_ok_rehashed s h p d ml ms ml ms) in Hm.
  assert (I' : inv (with_match s ml ms) base (base + d_strstart s) syms) by exact (inv_scratch P lit total s0 base0 start s base _ syms ml (d_prev_length s) (d_prev_match s) (d_match_available s) ms I).
  assert (In' : inserted (rehashed (with_match s ml ms) h p d)) by (by apply (inserted_same (rehashed s h p d))).
  assert (F : d_strstart (with_match s ml ms) = d_strstart s /\ d_lookahead (with_match s ml ms) = d_lookahead s /\ d_prev_length (with_match s ml ms) = d_prev_length s /\ d_match_length (with_match s ml ms) = ml /\ d_match_start (with_match s ml ms) = ms /\
    d_insert (with_match s ml ms) = d_insert s /\ d_prev (with_match s ml ms) = d_prev s /\ d_head (with_match s ml ms) = d_head s /\ d_w_size (with_match s ml ms) = d_w_size s /\ input_left (with_match s ml ms) = input_left s) by done.
  revert I' In' Hm F. generalize (with_match s ml ms). intros w I' In' Hm (F1 & F2 & F3 & F4 & F5 & F6 & F7 & F8 & F9 & F10). rewrite <- F1 in I'. rewrite <- F4, <- F5 in Hm.
  destruct (fast_match_sent w base syms h p d I' In') as (s2 & full & syms2 & h' & p' & d' & E & (t & Es2) & T & Hro); try congruence; try lia.
  assert (Ea := after_match_eq s2 h p d h' p' d'). generalize dependent (after_match s2 h p d h' p' d'). intros s3 E T Hro ->. eexists _, full, syms2. split; [exact E|]. unfold fast_kept, input_left in *. split; [|split; [split; [done|split; [exact Hro|]]|]].
  - match goal with |- tallied ?x _ _ _ _ => assert (Ey : base + d_strstart x = base + d_strstart w + d_match_length w) by (rewrite Es2; unfold rehashed, scratch; dsimp; lia) end. rewrite Ey. exact T.
  - rewrite Es2. unfold rehashed, scratch. dsimp. unfold MIN_MATCH. rewrite F3. unfold MIN_MATCH in K3. lia.
  - rewrite Es2. unfold rehashed, scratch. dsimp. lia.
Qed.

Lemma fast_body_ok flush s base syms :
  inv s base (base + d_strstart s) syms -> fast_kept s base (base + d_strstart s) -> 0 < d_lookahead s -> d_strstart s + MIN_LOOKAHEAD <= 2 * d_w_size s ->
  exists s' c, fast_body s = Some (s', c) /\ match c with
    | Continue => (exists base cut syms, inv s' base cut syms /\ fast_kept s' base cut) /\ input_left s' < input_left s
    | Break => False
    | Return b => compressed flush fast_kept s' b
    end.
Proof.
  intros I K Hl Hr. destruct (fast_found s base syms I K Hr Hl) as (s1 & q & ml & ms & E1 & Hre & E2 & Hc & Hm).
  assert (exists s2 full syms2, (if d_match_length (with_match s1 ml ms) >=? MIN_MATCH then fast_match_step (with_match s1 ml ms) else literal_step (with_match s1 ml ms)) = Some (s2, full) /\
    tallied s2 base (base + d_strstart s2) syms2 full /\ fast_kept s2 base (base + d_strstart s2) /\ input_left s2 < input_left s) as (s2 & full & syms2 & E3 & T & K2 & Hm2).
  { change (d_match_length (with_match s1 ml ms)) with ml. rewrite Z.geb_leb. destruct Hm as [Hm|(M1 & M2 & M3 & M4 & M5)].
    - destruct (Z.leb_spec MIN_MATCH ml); [lia|]. by apply (fast_literal s base syms s1 ml ms).
    - destruct (Z.leb_spec MIN_MATCH ml); [|lia]. by apply (fast_match s base syms). }
  rewrite (fast_body_eq _ _ _ _ _ _ E1 E2 E3). destruct (flushed_ok P lit total Hroomy s0 base0 start Hout0 fast_kept flush s2 base syms2 full T) as (s3 & c & E4 & Hs & H4); [intros; by apply fast_kept_blocked|].
  exists s3, c. split; [exact E4|]. destruct (blocked_left _ _ Hs) as (Eq1 & Eq2 & _). destruct c; [|done|exact H4]. destruct H4 as (syms3 & I3). rewrite Eq1. split; [|done]. exists base, (base + d_strstart s3), syms3. split; [done|].
  rewrite Eq2. by apply (fast_kept_blocked s2).
Qed.

Theorem deflate_fast_ok s base syms flush :
  inv s base (base + d_strstart s) syms -> fast_kept s base (base + d_strstart s) -> exists s' r, deflate_fast s flush = Some (s', r) /\ compressed flush fast_kept s' r.
Proof.
  intros I K. unfold deflate_fast. destruct (lookahead_loop P lit total s0 base0 start Hcheck0 flush MIN_LOOKAHEAD fast_kept fast_body) with (s := s) (base := base) (cut := base + d_strstart s) (syms := syms) as (s1 & r & -> & H); try done.
  - intros s1 b1 c1 s2 b2 (K1 & K2 & K3 & K4) E Hr (M1 & M2 & _). unfold fast_kept. rewrite M1, M2. split; [lia|]. split; [auto|done].
  - intros s1 b1 c1 y1 I1 K1 Hl Hr. assert (c1 = b1 + d_strstart s1) as -> by apply K1. by apply (fast_body_ok flush s1 b1 y1).
  - cbn [mbind option_bind]. destruct r as [b|]; [by exists s1, b|]. destruct H as (b1 & c1 & y1 & I1 & K1 & E & Hfl). assert (V := co_view _ _ _ _ _ _ _ (inv_core _ _ _ _ _ _ _ _ _ _ I1)). destruct (vw_pos _ _ _ V) as (P1 & _).
    assert (c1 = b1 + d_strstart s1) as -> by apply K1. set (n := if d_strstart s1 <? MIN_MATCH - 1 then _ else _). assert (Hn : 0 <= n <= 2 /\ n <= d_strstart s1) by (unfold n, MIN_MATCH; destruct (Z.ltb_spec (d_strstart s1) (3 - 1)); lia). clearbody n.
    change (d_trees s1) with (d_trees (s1 <| d_insert := n |>)). apply (end_ok P lit total Hroomy s0 base0 start Hout0 fast_kept (s1 <| d_insert := n |>) b1 y1); try done.
    + apply inv_insert; [done|apply E|lia|lia].
    + intros s' Hs. apply (fast_kept_blocked (s1 <| d_insert := n |>)); [|exact Hs]. destruct K1 as (_ & K2 & K3). split; [done|]. split; [exact K2|exact K3].
Qed.
End matches.
