(* ===== verification/DeflateSlow.v ===== *)
(** The compression function with lazy matches: [deflate_slow()]. *)
From S2P Require Import Prelude Record Bits Huffman Lz Fixed DeflateFormat InflateState TreesTables Trees.
From S2P Require Import BitWriter TreesCodes TreesEmit TreesBuild TreesLens TreesTree TreesRle TreesHeader TreesTally.
From S2P Require Import TreesFlush DeflateState Deflate DeflateOut DeflateHash DeflateWindow DeflateMatch DeflateBlocks DeflateLoop.
From S2P Require Import DeflateHuff DeflateFast.

(** ** Insertions

    While the strings of a match are inserted, [lookahead] is already that behind the match: [e] is the end of the data. *)
Definition until (s : deflate_state) (e : Z) : deflate_state := s <| d_lookahead := e - d_strstart s |>.

Record entered (s : deflate_state) (e : Z) : Prop := {
  en_geometry : geometry s;
  en_chained : exists ins, chained (until s e) ins (d_strstart s + 1);
  en_hash : d_strstart s + MIN_MATCH <= e -> ins_ok s (d_strstart s + 1) }.

Lemma INSERT_STRING_until s n str h p d q :
  INSERT_STRING (s <| d_lookahead := n |>) str = Some (rehashed (s <| d_lookahead := n |>) h p d, q) -> INSERT_STRING s str = Some (rehashed s h p d, q).
Proof.
  unfold INSERT_STRING, UPDATE_HASH. dsimp. destruct (aget (d_window s) _) as [c|]; [|done]. dsimp. destruct (shl32 _ _) as [x|]; [|done]. dsimp.
  destruct (aget (d_head s) _) as [m|]; [|done]. dsimp. destruct (aset (d_prev s) _ _) as [l1|]; [|done]. dsimp. destruct (aset (d_head s) _ _) as [l2|]; [|done]. dsimp.
  unfold rehashed. dsimp. intros [= <- <- <- <-]. reflexivity.
Qed.

Lemma entered_next s e :
  entered s e -> 0 <= d_strstart s -> d_strstart s + 1 + MIN_MATCH <= e -> e <= 2 * d_w_size s ->
  exists h p d q, INSERT_STRING (s <| d_strstart := d_strstart s + 1 |>) (d_strstart s + 1) = Some (rehashed (s <| d_strstart := d_strstart s + 1 |>) h p d, q) /\
    length p = length (d_prev s) /\ length d = length (d_head s) /\ entered (rehashed (s <| d_strstart := d_strstart s + 1 |>) h p d) e.
Proof.
  intros [G [ins C] H] H0 He Hw. unfold MIN_MATCH in *. specialize (H ltac:(lia)). set (v := (s <| d_strstart := d_strstart s + 1 |>) <| d_lookahead := e - (d_strstart s + 1) |>).
  assert (Gv : geometry v) by (by apply (geometry_fields s)).
  assert (Cv : chained v ins (d_strstart s + 1)) by (eapply chained_ext; [..|exact C]; unfold v, until; dsimp; try done; lia).
  destruct (INSERT_STRING_ok v ins (d_strstart s + 1) (d_strstart s + 1) Gv Cv) as (s' & q & E & (h & p & d & -> & L1 & L2) & C' & H' & _); try (unfold v; dsimp; lia); [exact H|].
  exists h, p, d, q. split; [exact (INSERT_STRING_until _ _ _ _ _ _ _ E)|]. split; [exact L1|]. split; [exact L2|]. split.
  - apply (geometry_fields s); [|done]. unfold gfields, rehashed. dsimp. by rewrite L1, L2.
  - eexists. exact C'.
  - intros _. exact H'.
Qed.

Lemma entered_skip s e : entered s e -> 0 <= d_strstart s -> e < d_strstart s + 1 + MIN_MATCH -> entered (s <| d_strstart := d_strstart s + 1 |>) e.
Proof.
  intros [G [ins C] H] H0 He. unfold MIN_MATCH in *. split.
  - by apply (geometry_fields s).
  - exists ins. apply (chained_front _ _ (d_strstart s + 1)); [|dsimp; lia]. eapply chained_ext; [..|exact C]; unfold until; dsimp; try done; lia.
  - dsimp. unfold MIN_MATCH. lia.
Qed.

Lemma entered_same s s' e : gfields s' = gfields s -> tables s' = tables s -> d_strstart s' = d_strstart s -> entered s e -> entered s' e.
Proof.
  intros Eg Et Es [G [ins C] H]. unfold tables in Et. injection Et as E1 E2 E3 E4 E5 E6 E7 E8. split; rewrite ?Es.
  - by apply (geometry_fields s).
  - exists ins. eapply chained_ext; [..|exact C]; unfold until; dsimp; try done; [lia..|]. intros i _. by rewrite E1.
  - intros Hle. specialize (H Hle). unfold ins_ok, wbyte in *. by rewrite E1, E4, E7, E8.
Qed.

Definition lazied (s : deflate_state) (h : Z) (p d : list Z) (n : Z) : deflate_state := (rehashed s h p d) <| d_strstart := d_strstart s + n |> <| d_prev_length := 0 |>.

Lemma insert_lazy_ok fuel : forall s e,
  entered s e -> 0 <= d_strstart s -> 3 <= e <= 2 * d_w_size s -> 1 <= d_prev_length s <= Z.of_nat fuel -> d_prev_length s < 2 ^ 32 -> d_strstart s + d_prev_length s < 2 ^ 32 ->
  exists h p d, insert_lazy fuel s (e - MIN_MATCH) = Some (lazied s h p d (d_prev_length s)) /\ length p = length (d_prev s) /\ length d = length (d_head s) /\ entered (lazied s h p d (d_prev_length s)) e.
Proof.
  induction fuel as [|fuel IH]; intros s e I H0 He Hm Hm32 Hw; [lia|]. cbn [insert_lazy]. rewrite (u32_small (d_strstart s + 1)) by lia. change (d_strstart (s <| d_strstart := d_strstart s + 1 |>)) with (d_strstart s + 1).
  assert (exists h p d, (if d_strstart s + 1 <=? e - MIN_MATCH then '(s, _) ← INSERT_STRING (s <| d_strstart := d_strstart s + 1 |>) (d_strstart s + 1); Some s else Some (s <| d_strstart := d_strstart s + 1 |>)) =
    Some (rehashed (s <| d_strstart := d_strstart s + 1 |>) h p d) /\ length p = length (d_prev s) /\ length d = length (d_head s) /\ entered (rehashed (s <| d_strstart := d_strstart s + 1 |>) h p d) e) as (h & p & d & -> & L1 & L2 & I1).
  { destruct (Z.leb_spec (d_strstart s + 1) (e - MIN_MATCH)) as [Hle|Hgt].
    - destruct (entered_next s e I H0) as (h & p & d & q & -> & X); [lia|lia|]. by exists h, p, d.
    - exists (d_ins_h s), (d_prev s), (d_head s). assert (Er : rehashed (s <| d_strstart := d_strstart s + 1 |>) (d_ins_h s) (d_prev s) (d_head s) = s <| d_strstart := d_strstart s + 1 |>) by (unfold rehashed; dsimp; reflexivity).
      rewrite Er. split; [done|]. split; [done|]. split; [done|]. apply entered_skip; [done|done|lia]. }
  cbn [mbind option_bind]. change (d_prev_length (rehashed (s <| d_strstart := d_strstart s + 1 |>) h p d)) with (d_prev_length s). rewrite u32_small by lia.
  set (s1 := (rehashed (s <| d_strstart := d_strstart s + 1 |>) h p d) <| d_prev_length := d_prev_length s - 1 |>). change (d_prev_length s1) with (d_prev_length s - 1).
  assert (I2 : entered s1 e) by (by eapply entered_same; [..|exact I1]).
  destruct (Z.eqb_spec (d_prev_length s - 1) 0) as [E0|Hne].
  - exists h, p, d. assert (Es1 : s1 = lazied s h p d (d_prev_length s)) by (unfold s1, lazied, rehashed; rewrite E0; replace (d_prev_length s) with 1 by lia; dsimp; reflexivity). rewrite <- Es1. split; [done|]. split; [done|]. split; [done|exact I2].
  - destruct (IH s1 e I2) as (h' & p' & d' & E & L3 & L4 & I3); try (unfold s1, rehashed; dsimp; lia). exists h', p', d'.
    assert (El : lazied s1 h' p' d' (d_prev_length s1) = lazied s h' p' d' (d_prev_length s)).
    { unfold lazied, s1, rehashed. dsimp. replace (d_strstart s + 1 + (d_prev_length s - 1)) with (d_strstart s + d_prev_length s) by lia. reflexivity. }
    rewrite El in E, I3. split; [exact E|]. split; [rewrite <- L1; exact L3|]. split; [rewrite <- L2; exact L4|exact I3].
Qed.

Lemma inserted_entered s : inserted s -> entered s (d_strstart s + d_lookahead s).
Proof.
  intros [G [ins C] H]. split; [done| |done]. exists ins. eapply chained_ext; [..|exact C]; unfold until; dsimp; try done; lia.
Qed.
Lemma hashed_entered s : geometry s -> hashed s -> d_insert s = 0 -> d_lookahead s < MIN_MATCH -> entered s (d_strstart s + d_lookahead s).
Proof.
  intros G [_ [ins C]] E0 Hl. rewrite E0, Z.sub_0_r in C. split; [done| |lia]. exists ins. apply (chained_front _ _ (d_strstart s)); [|lia]. eapply chained_ext; [..|exact C]; unfold until; dsimp; try done; lia.
Qed.

(** The state behind a match. *)
Lemma entered_done s s' e :
  entered s e -> tables s' = tables s -> d_insert s' = 0 -> d_strstart s' = d_strstart s + 1 -> d_strstart s' + d_lookahead s' = e -> hashed s' /\ rolling s'.
Proof.
  intros [G [ins C] H]. unfold tables. intros [= E1 E2 E3 E4 E5 E6 E7 E8] E0 Es Hle. split.
  - split; [by left|]. exists ins. rewrite E0, Z.sub_0_r, Es. eapply chained_ext; [..|exact C]; unfold until; dsimp; try done; [lia..|]. intros i _. by rewrite E1.
  - intros Hl. rewrite Es. unfold MIN_MATCH in *. specialize (H ltac:(lia)). unfold ins_ok, wbyte in *. by rewrite E1, E4, E7, E8.
Qed.

(** Whether there was a string to insert at [strstart] or not, one byte further. *)
Definition here (s s1 : deflate_state) : Prop := d_lookahead s < MIN_MATCH /\ s1 = s \/ inserted s1 /\ d_insert s = 0.
Lemma here_moved s s1 s' :
  is_rehashed s s1 -> here s s1 -> hashed s -> tables s' = tables s1 -> d_strstart s' = d_strstart s + 1 -> d_lookahead s' = d_lookahead s - 1 -> d_insert s' = d_insert s -> hashed s' /\ rolling s'.
Proof.
  intros Hr Hc Hh Et Es El Ei. assert (Q : d_strstart s1 = d_strstart s /\ d_lookahead s1 = d_lookahead s) by (by destruct Hr as (h & p & d & -> & _)). destruct Q as [Q1 Q2].
  destruct Hc as [[Hlt ->]|[Hi E0]]; [|apply (inserted_done s1); [done|done|congruence|lia|lia]]. destruct Hh as [Hd [ins C]]. unfold tables in Et. injection Et as E1 E2 E3 E4 E5 E6 E7 E8. split.
  - split; [lia|]. exists ins. rewrite Ei. apply (chained_front _ _ (d_strstart s - d_insert s)); [|lia]. eapply chained_ext; [..|exact C]; try done; [lia..|]. intros i _. by rewrite E1.
  - intros Hx. lia.
Qed.

(** Output and insertions do not interfere. *)
Lemma flush_pending_rehash s h p d s' : flush_pending s = Some s' -> flush_pending (rehashed s h p d) = Some (rehashed s' h p d).
Proof.
  unfold flush_pending, rehashed, d_pending. dsimp. destruct (tr_flush_bits (d_trees s)) as [t|]; [|done]. dsimp. destruct (_ =? 0).
  - intros [= <-]. dsimp. reflexivity.
  - destruct (memcpy _ _ _ _ _) as [out|]; [|done]. dsimp. intros [= <-]. dsimp. reflexivity.
Qed.
Lemma FLUSH_BLOCK_ONLY_rehash s h p d last s' : FLUSH_BLOCK_ONLY s last = Some s' -> FLUSH_BLOCK_ONLY (rehashed s h p d) last = Some (rehashed s' h p d).
Proof.
  unfold FLUSH_BLOCK_ONLY. change (d_block_start (rehashed s h p d)) with (d_block_start s). change (d_window (rehashed s h p d)) with (d_window s). change (d_trees (rehashed s h p d)) with (d_trees s). change (d_strstart (rehashed s h p d)) with (d_strstart s).
  destruct (tr_flush_block _ _ _ _) as [t|]; [|done]. cbn [mbind option_bind]. intros E. apply (flush_pending_rehash _ h p d) in E. rewrite <- E. reflexivity.
Qed.
Lemma tally_lit_rehash s h p d c t full : tally_lit s c = Some (s <| d_trees := t |>, full) -> tally_lit (rehashed s h p d) c = Some (rehashed (s <| d_trees := t |>) h p d, full).
Proof.
  unfold tally_lit, rehashed. dsimp. destruct (tr_tally_lit (d_trees s) c) as [[t' f']|]; [|done]. dsimp. intros [= E1 E2]. subst t' f'. reflexivity.
Qed.

Section lazy.
Context (P : sym -> Prop) (lit : Z) (total : list Z) (Hroomy : roomy P lit total) (HP : forall x, P x).
Context (s0 : deflate_state) (base0 start : Z).
Context (Hout0 : out_ok s0) (Hcheck0 : check_ok (d_wrap s0) (z_adler (d_strm s0))).
Notation inv := (inv P lit total s0 base0 start).
Notation stopped := (stopped P lit total s0 base0 start).
Notation tallied := (tallied P lit total s0 base0 start).
Notation compressed := (compressed P lit total s0 base0 start).

(** ** What is kept

    The match found at [strstart - 1], if there is one. *)
Record pending_match (s : deflate_state) (base len dist : Z) : Prop := {
  pm_dist : 0 < dist <= base + d_strstart s - 1 /\ dist <= 32768;
  pm_len : len - 1 <= d_lookahead s;
  pm_data : forall i, 0 <= i < len -> aget total (base + d_strstart s - 1 + i) = aget total (base + d_strstart s - 1 + i - dist) }.

Definition slow_kept (s : deflate_state) (base cut : Z) : Prop :=
  0 <= d_match_available s <= 1 /\ (d_match_available s = 1 -> 0 < d_strstart s) /\ cut = base + d_strstart s - d_match_available s /\ rolling s /\ 0 <= d_match_length s <= MAX_MATCH /\
  (MIN_MATCH <= d_match_length s -> d_match_available s = 1 /\ pending_match s base (d_match_length s) (u32 (d_strstart s - 1 - d_match_start s))).

Lemma slow_kept_same s s' base base' cut :
  slow_kept s base cut -> base' + d_strstart s' = base + d_strstart s -> (rolling s -> rolling s') -> same_match s s' -> slow_kept s' base' cut.
Proof.
  intros (K1 & K0 & K2 & K3 & K4 & K5) E Hr (M1 & M2 & M3 & M4 & M5 & M6). unfold slow_kept. rewrite M1, M3. split; [done|]. split; [auto|]. split; [lia|]. split; [auto|]. split; [done|]. intros Hl. destruct (K5 Hl) as [Ka [[D1 D2] D3 D4]].
  assert (Ed : u32 (d_strstart s' - 1 - d_match_start s') = u32 (d_strstart s - 1 - d_match_start s)).
  { unfold u32 in *. replace (d_strstart s' - 1 - d_match_start s') with ((d_strstart s' - d_match_start s') - 1) by lia. replace (d_strstart s - 1 - d_match_start s) with ((d_strstart s - d_match_start s) - 1) by lia.
    rewrite <- Zminus_mod_idemp_l, M4, Zminus_mod_idemp_l. done. }
  rewrite Ed. split; [done|]. split; [lia|lia|]. by rewrite E.
Qed.

Lemma stopped_step s base cut syms n :
  stopped s base cut syms -> 0 <= n <= d_lookahead s -> stopped (s <| d_strstart := d_strstart s + n |> <| d_lookahead := d_lookahead s - n |>) base cut syms.
Proof.
  intros [C S (x & W1 & W2)] Hn. split; [by apply core_step|apply (since_same total s0 base0 s); try done; unfold pos; dsimp; lia|]. exists x. split; [|done]. by apply (outputs_same s0 s).
Qed.
Lemma stopped_scratch s base cut syms a b c d e : stopped s base cut syms -> stopped (scratch s a b c d e) base cut syms.
Proof.
  intros [C S (x & W1 & W2)]. split; [by apply core_scratch|by apply (since_same total s0 base0 s)|]. exists x. split; [|done]. by apply (outputs_same s0 s).
Qed.

(** ** The search *)
Lemma slow_search_ok s q ins :
  geometry s -> chained s ins (d_strstart s + 1) -> 0 <= d_strstart s -> d_strstart s + MIN_LOOKAHEAD <= 2 * d_w_size s -> 0 <= d_lookahead s < 2 ^ 32 -> 0 <= d_match_length s <= MAX_MATCH ->
  (q <> 0 -> ins q /\ 0 < q < d_strstart s /\ hash_at s q = hash_at s (d_strstart s)) ->
  exists ml ms, slow_search s q = Some (scratch s ml (d_match_length s) (d_match_start s) (d_match_available s) ms) /\ 0 <= ml <= MAX_MATCH /\
    (ml < MIN_MATCH \/ ml <= d_match_length s \/ ml <= d_lookahead s /\ match_ok s ms ml).
Proof.
  intros G C H0 Hr Hl Hm Hq. unfold slow_search. cbv zeta. set (y := s <| d_prev_length := d_match_length s |> <| d_prev_match := d_match_start s |> <| d_match_length := MIN_MATCH - 1 |>).
  assert (Ey : hfields y = hfields s) by done. assert (Es : d_strstart y = d_strstart s) by done. assert (Ew : d_w_size y = d_w_size s) by done. assert (El : d_lookahead y = d_lookahead s) by done. assert (Ep : d_prev_length y = d_match_length s) by done.
  assert (Eh : forall x, hash_at y x = hash_at s x) by done. destruct (_ && _) eqn:Ec.
  - apply andb_true_iff in Ec as [Ec E2]. apply andb_true_iff in Ec as [E1 _]. apply negb_true_iff, Z.eqb_neq in E1. apply Z.leb_le in E2. assert (Wr := wsize_range s G). destruct (Hq E1) as (Q1 & Q2 & Q3).
    assert (Gy := geometry_same s y Ey G). assert (Cy := chained_same s y ins _ Ey C). rewrite <- Es in Cy. rewrite Es in E2. assert (Hr' := Hr). unfold MIN_LOOKAHEAD, MAX_MATCH, MIN_MATCH in Hr'. rewrite u32_small in E2 by lia. clear Hr'.
    destruct (longest_match_ok y ins Gy Cy ltac:(lia) ltac:(lia) q) as (ms & len & -> & L1 & L2 & L3); [|lia|lia|].
    { split; [lia|]. split; [by rewrite Es|]. split; [done|]. by rewrite !Eh, Es. }
    cbn [mbind option_bind]. match goal with |- context [if ?b then MIN_MATCH - 1 else len] => set (ml := if b then MIN_MATCH - 1 else len) end. exists ml, ms. split; [unfold y, scratch; dsimp; reflexivity|].
    assert (Hml : ml = MIN_MATCH - 1 \/ ml = len) by (unfold ml; destruct (_ && _); [by left|by right]). clearbody ml. unfold MIN_MATCH, MAX_MATCH in *. split; [lia|].
    destruct Hml as [->| ->]; [left; lia|right]. destruct L3 as [[_ L3]|L3]; [left; lia|right]. split; [lia|exact L3].
  - exists (MIN_MATCH - 1), (d_match_start s). split; [unfold y, scratch; dsimp; reflexivity|]. unfold MIN_MATCH, MAX_MATCH. split; [lia|left; lia].
Qed.

(** ** A match sent *)
Definition after_lazy (s : deflate_state) (h : Z) (p d : list Z) (h' : Z) (p' d' : list Z) : deflate_state :=
  (lazied ((rehashed s h p d) <| d_lookahead := d_lookahead s - (d_prev_length s - 1) |> <| d_prev_length := d_prev_length s - 2 |>) h' p' d' (d_prev_length s - 2))
    <| d_match_available := 0 |> <| d_match_length := MIN_MATCH - 1 |> <| d_strstart := d_strstart s + (d_prev_length s - 1) |>.
Lemma after_lazy_eq s h p d h' p' d' :
  after_lazy s h p d h' p' d' = rehashed (scratch (s <| d_strstart := d_strstart s + (d_prev_length s - 1) |> <| d_lookahead := d_lookahead s - (d_prev_length s - 1) |>)
    (MIN_MATCH - 1) 0 (d_prev_match s) 0 (d_match_start s)) h' p' d'.
Proof. unfold after_lazy, lazied, scratch, rehashed. dsimp. reflexivity. Qed.

Lemma after_lazy_ok s base cut syms full h p d h' p' d' :
  tallied s base cut syms full -> 0 <= d_prev_length s - 1 <= d_lookahead s -> length p' = length (d_prev s) -> length d' = length (d_head s) ->
  hashed (after_lazy s h p d h' p' d') -> tallied (after_lazy s h p d h' p' d') base cut syms full.
Proof.
  rewrite after_lazy_eq. intros T Hl L1 L2 Hh. apply (tallied_step P lit total s0 base0 start _ _ _ _ _ (d_prev_length s - 1)) in T; [|exact Hl].
  apply (tallied_scratch P lit total s0 base0 start _ _ _ _ _ (MIN_MATCH - 1) 0 (d_prev_match s) 0 (d_match_start s)) in T. eapply tallied_rehash; [exact T| |exact Hh]. by exists h', p', d'.
Qed.

Lemma lazy_skip s s1 h p d :
  entered (rehashed s h p d) (d_strstart s + d_lookahead s) -> hfields s1 = hfields s -> d_insert s1 = 0 -> length p = length (d_prev s) -> length d = length (d_head s) ->
  1 <= d_strstart s -> d_strstart s + d_lookahead s <= 2 * d_w_size s -> d_w_size s <= 32768 -> 3 <= d_prev_length s1 <= 258 -> d_prev_length s1 - 1 <= d_lookahead s ->
  exists h' p' d', insert_lazy (Z.to_nat (d_prev_length s1 - 2)) ((rehashed s1 h p d) <| d_lookahead := d_lookahead s1 - (d_prev_length s1 - 1) |> <| d_prev_length := d_prev_length s1 - 2 |>)
      (d_strstart s + d_lookahead s - MIN_MATCH) =
      Some (lazied ((rehashed s1 h p d) <| d_lookahead := d_lookahead s1 - (d_prev_length s1 - 1) |> <| d_prev_length := d_prev_length s1 - 2 |>) h' p' d' (d_prev_length s1 - 2)) /\
    length p' = length (d_prev s) /\ length d' = length (d_head s) /\ hashed (after_lazy s1 h p d h' p' d') /\ rolling (after_lazy s1 h p d h' p' d').
Proof.
  intros In Ef E0 L1 L2 P1 P2 Hw Hlen Hla. unfold hfields in Ef. injection Ef as E1 E2 E3 E4 E5 E6 E7 E8 E9 E10 E11 E12 E13 E14 E15.
  set (z := (rehashed s1 h p d) <| d_lookahead := d_lookahead s1 - (d_prev_length s1 - 1) |> <| d_prev_length := d_prev_length s1 - 2 |>).
  assert (Iz : entered z (d_strstart s + d_lookahead s)).
  { eapply entered_same; [..|exact In]; unfold z, gfields, tables, rehashed; dsimp; congruence. }
  destruct (insert_lazy_ok (Z.to_nat (d_prev_length s1 - 2)) z _ Iz) as (h' & p' & d' & E & L3 & L4 & I3); try (unfold z, rehashed; dsimp; lia).
  exists h', p', d'. split; [exact E|]. split; [rewrite <- L1; exact L3|]. split; [rewrite <- L2; exact L4|].
  apply (entered_done (lazied z h' p' d' (d_prev_length z)) _ (d_strstart s + d_lookahead s)); [exact I3|unfold after_lazy, z, tables, lazied, rehashed; dsimp; done|..]; unfold after_lazy, z, lazied, rehashed; dsimp; lia.
Qed.

Lemma slow_match_step_eq s s1 s2 full :
  tally_dist s (u32 (d_strstart s - 1 - d_prev_match s)) (u32 (d_prev_length s - MIN_MATCH)) = Some (s1, full) ->
  insert_lazy (Z.to_nat (u32 (d_prev_length s1 - 2))) (s1 <| d_lookahead := u32 (d_lookahead s1 - (d_prev_length s1 - 1)) |> <| d_prev_length := u32 (d_prev_length s1 - 2) |>) (u32 (d_strstart s + d_lookahead s - MIN_MATCH)) = Some s2 ->
  slow_match_step s = flush_if (s2 <| d_match_available := 0 |> <| d_match_length := MIN_MATCH - 1 |> <| d_strstart := u32 (d_strstart s2 + 1) |>) full.
Proof. intros E1 E2. unfold slow_match_step. rewrite E1. cbn [mbind option_bind]. dsimp in E2. dsimp. by rewrite E2. Qed.

(** The match in [prev_match] and [prev_length] sent, with the tables as they are. *)
Lemma slow_match_sent s base syms h p d :
  inv s base (base + d_strstart s - 1) syms -> entered (rehashed s h p d) (d_strstart s + d_lookahead s) -> d_insert s = 0 -> length p = length (d_prev s) -> length d = length (d_head s) ->
  1 <= d_strstart s -> pending_match s base (d_prev_length s) (u32 (d_strstart s - 1 - d_prev_match s)) -> 3 <= d_prev_length s <= 258 ->
  exists s1 full syms2 h' p' d', slow_match_step (rehashed s h p d) = flush_if (after_lazy s1 h p d h' p' d') full /\ (exists t, s1 = s <| d_trees := t |>) /\
    tallied (after_lazy s1 h p d h' p' d') base (base + d_strstart s + (d_prev_length s - 1)) syms2 full /\ rolling (after_lazy s1 h p d h' p' d').
Proof.
  intros I In E0 L1 L2 Hs [[M1 M2] M3 M4] Hlen. assert (C := inv_core _ _ _ _ _ _ _ _ _ _ I). assert (G := co_geometry _ _ _ _ _ _ _ C). assert (V := co_view _ _ _ _ _ _ _ C). destruct (vw_pos _ _ _ V) as (P1 & P2 & P3). assert (Wr := wsize_range s G).
  destruct (inv_dist P lit total s0 base0 start s base (base + d_strstart s - 1) syms (u32 (d_strstart s - 1 - d_prev_match s)) (d_prev_length s) I) as (t & full & E & T); try done; try lia; [unfold pos; lia|].
  apply (tally_dist_rehash _ h p d) in E. replace (base + d_strstart s - 1 + d_prev_length s) with (base + d_strstart s + (d_prev_length s - 1)) in T by lia.
  assert (Ef : hfields (s <| d_trees := t |>) = hfields s) by reflexivity. assert (Em : d_prev_length (s <| d_trees := t |>) = d_prev_length s) by reflexivity.
  assert (El : d_lookahead (s <| d_trees := t |>) = d_lookahead s) by reflexivity. assert (Ei : d_insert (s <| d_trees := t |>) = 0) by exact E0. assert (Es : d_strstart (s <| d_trees := t |>) = d_strstart s) by reflexivity.
  assert (Ex : exists t', s <| d_trees := t |> = s <| d_trees := t' |>) by (by exists t). generalize dependent (s <| d_trees := t |>). intros s1 E T Ef Em El Ei Es Ex.
  assert (Hlen1 : 3 <= d_prev_length s1 <= 258) by lia. destruct (lazy_skip s s1 h p d In Ef Ei L1 L2 Hs ltac:(lia) ltac:(lia) Hlen1 ltac:(lia)) as (h' & p' & d' & Ez & L3 & L4 & Hh & Hro).
  eexists s1, full, _, h', p', d'. split; [|split; [exact Ex|split; [|exact Hro]]].
  - rewrite (slow_match_step_eq (rehashed s h p d) (rehashed s1 h p d) (lazied ((rehashed s1 h p d) <| d_lookahead := d_lookahead s1 - (d_prev_length s1 - 1) |> <| d_prev_length := d_prev_length s1 - 2 |>) h' p' d' (d_prev_length s1 - 2)) full);
      change (d_strstart (rehashed s h p d)) with (d_strstart s); change (d_prev_match (rehashed s h p d)) with (d_prev_match s); change (d_prev_length (rehashed s h p d)) with (d_prev_length s).
    + f_equal. unfold after_lazy, lazied, rehashed. dsimp. rewrite u32_small by lia. replace (d_strstart s1 + (d_prev_length s1 - 2) + 1) with (d_strstart s1 + (d_prev_length s1 - 1)) by lia. reflexivity.
    + rewrite (u32_small (d_prev_length s - MIN_MATCH)) by (unfold MIN_MATCH; lia). exact E.
    + change (d_lookahead (rehashed s1 h p d)) with (d_lookahead s1). change (d_prev_length (rehashed s1 h p d)) with (d_prev_length s1). change (d_lookahead (rehashed s h p d)) with (d_lookahead s).
      rewrite !u32_small by (unfold MIN_MATCH; lia). exact Ez.
  - unfold hfields in Ef. injection Ef as _ F2 F3 _ _ _ _ _ _ _ _ _ _ _ _. apply after_lazy_ok; [exact T|lia|congruence|congruence|exact Hh].
Qed.

(** ** A literal sent *)
Definition slow_literal (s : deflate_state) : option (deflate_state * ctl) :=
  c ← aget (d_window s) (d_strstart s - 1);
  '(s, bflush) ← tally_lit s c;
  s ← (if (bflush : bool) then FLUSH_BLOCK_ONLY s 0 else Some s);
  let s := s <| d_strstart := u32 (d_strstart s + 1) |> <| d_lookahead := u32 (d_lookahead s - 1) |> in
  Some (s, if z_avail_out (d_strm s) =? 0 then Return need_more else Continue).

Lemma slow_literal_eq s c s1 full s2 :
  aget (d_window s) (d_strstart s - 1) = Some c -> tally_lit s c = Some (s1, full) -> (if full then FLUSH_BLOCK_ONLY s1 0 else Some s1) = Some s2 -> 0 <= d_strstart s2 < 2 ^ 32 - 1 -> 0 < d_lookahead s2 < 2 ^ 32 ->
  slow_literal s = Some (s2 <| d_strstart := d_strstart s2 + 1 |> <| d_lookahead := d_lookahead s2 - 1 |>, if z_avail_out (d_strm s2) =? 0 then Return need_more else Continue).
Proof.
  intros E1 E2 E3 H1 H2. unfold slow_literal. rewrite E1. cbn [mbind option_bind]. rewrite E2. cbn [mbind option_bind]. rewrite E3. cbn [mbind option_bind]. cbv zeta. rewrite (u32_small (d_strstart s2 + 1)) by lia.
  change (d_lookahead (s2 <| d_strstart := d_strstart s2 + 1 |>)) with (d_lookahead s2). rewrite u32_small by lia. reflexivity.
Qed.

(** The literal tallied, and the block flushed when it is full, with the tables as they are. *)
Lemma slow_literal_sent s base syms h p d :
  inv s base (base + d_strstart s - 1) syms -> 1 <= d_strstart s -> 0 < d_lookahead s ->
  exists s2 syms2, slow_literal (rehashed s h p d) =
      Some (rehashed (s2 <| d_strstart := d_strstart s2 + 1 |> <| d_lookahead := d_lookahead s2 - 1 |>) h p d, if z_avail_out (d_strm s2) =? 0 then Return need_more else Continue) /\
    (exists s1, (exists t, s1 = s <| d_trees := t |>) /\ (s2 = s1 \/ is_blocked s1 s2)) /\
    stopped s2 base (base + d_strstart s) syms2 /\ Z.of_nat (length syms2) + 1 < lit /\ (syms2 = [] \/ drained s2) /\ low s2 /\ (z_avail_out (d_strm s2) = 0 \/ drained s2).
Proof.
  intros I Hs Hl. assert (C := inv_core _ _ _ _ _ _ _ _ _ _ I). assert (G := co_geometry _ _ _ _ _ _ _ C). assert (V := co_view _ _ _ _ _ _ _ C). destruct (vw_pos _ _ _ V) as (P1 & P2 & P3). assert (Wr := wsize_range s G). assert (Hlit := lit_size _ _ _ _ _ _ _ C).
  destruct (aget_in total (base + d_strstart s - 1)) as [c Hc].
  { destruct (vw_avail _ _ _ V). pose proof (vw_base _ _ _ V). lia. }
  destruct (inv_lit P lit total s0 base0 start s base _ syms c I Hc (HP (0, c))) as (t & full & E & T); [unfold pos; lia|]. apply (tally_lit_rehash _ h p d) in E. replace (base + d_strstart s - 1 + 1) with (base + d_strstart s) in T by lia.
  assert (Es : d_strstart (s <| d_trees := t |>) = d_strstart s) by reflexivity. assert (El : d_lookahead (s <| d_trees := t |>) = d_lookahead s) by reflexivity.
  assert (Ex : exists t', s <| d_trees := t |> = s <| d_trees := t' |>) by (by exists t). generalize dependent (s <| d_trees := t |>). intros s1 E T Es El Ex. destruct T as [St D Sm R F].
  assert (exists s2 syms2, (if full then FLUSH_BLOCK_ONLY s1 0 else Some s1) = Some s2 /\ (s2 = s1 \/ is_blocked s1 s2) /\ stopped s2 base (base + d_strstart s) syms2 /\ Z.of_nat (length syms2) + 1 < lit /\ (syms2 = [] \/ drained s2) /\ low s2 /\ (z_avail_out (d_strm s2) = 0 \/ drained s2)) as (s2 & syms2 & E2 & Hb & X).
  { destruct full.
    - rewrite <- Es in St. destruct (flush_block_ok P lit total Hroomy s0 base0 start Hout0 s1 base _ 0 St D R ltac:(lia) (fun _ : 0 = 0 => Sm)) as (s2 & _ & E2 & Hb & Hav & St2). exists s2, []. rewrite <- Es. split; [done|]. split; [by right|]. cbn in St2. split; [done|]. split; [cbn [length]; lia|]. split; [by left|done].
    - exists s1, (syms ++ [(0, c)]). split; [done|]. split; [by left|]. split; [done|]. split; [by apply F|]. split; [by right|]. split; [apply D|by right]. }
  exists s2, syms2. destruct (blocked_left _ _ Hb) as (_ & B1 & B2). split; [|split; [by exists s1|exact X]].
  rewrite (slow_literal_eq (rehashed s h p d) c (rehashed s1 h p d) full (rehashed s2 h p d)); change (d_strstart (rehashed s2 h p d)) with (d_strstart s2); change (d_lookahead (rehashed s2 h p d)) with (d_lookahead s2); try lia; [|..|exact E|].
  - change (d_strm (rehashed s2 h p d)) with (d_strm s2). reflexivity.
  - change (d_window (rehashed s h p d)) with (d_window s). change (d_strstart (rehashed s h p d)) with (d_strstart s). rewrite (vw_data _ _ _ V) by lia. rewrite <- Hc. f_equal. lia.
  - destruct full; [by apply FLUSH_BLOCK_ONLY_rehash|]. by injection E2 as ->.
Qed.

(** ** An iteration *)
Lemma scratch_rehashed s h p d a b c e f : scratch (rehashed s h p d) a b c e f = rehashed (scratch s a b c e f) h p d.
Proof. unfold scratch, rehashed. dsimp. reflexivity. Qed.

Lemma slow_found s base cut syms :
  inv s base cut syms -> slow_kept s base cut -> d_strstart s + MIN_LOOKAHEAD <= 2 * d_w_size s -> 0 < d_lookahead s ->
  exists s1 q ml ms, insert_here s = Some (s1, q) /\ is_rehashed s s1 /\ here s s1 /\ slow_search s1 q = Some (scratch s1 ml (d_match_length s) (d_match_start s) (d_match_available s) ms) /\ 0 <= ml <= MAX_MATCH /\
    (ml < MIN_MATCH \/ ml <= d_match_length s \/ ml <= d_lookahead s /\ match_ok s ms ml) /\ (d_insert s = 0 -> entered s1 (d_strstart s + d_lookahead s)).
Proof.
  intros I (_ & _ & _ & K1 & K2 & _) Hr Hl. destruct (insert_here_ok P lit total s0 base0 start s base _ syms I K1) as (s1 & q & E & Hre & H). assert (C := inv_core _ _ _ _ _ _ _ _ _ _ I). assert (G := co_geometry _ _ _ _ _ _ _ C).
  destruct (vw_pos _ _ _ (co_view _ _ _ _ _ _ _ C)) as (P1 & P2 & P3). assert (Wr := wsize_range s G). exists s1, q. destruct H as [(Hlt & -> & ->)|(Hge & E0 & In & ins & C1 & Hq)].
  - exists (MIN_MATCH - 1), (d_match_start s). split; [exact E|]. split; [exact Hre|]. split; [by left|]. split; [unfold slow_search, scratch; cbn [negb Z.eqb NIL andb]; dsimp; reflexivity|]. unfold MIN_MATCH, MAX_MATCH in *. split; [lia|]. split; [left; lia|].
    intros E0. apply hashed_entered; [done|apply (co_hashed _ _ _ _ _ _ _ C)|done|done].
  - assert (G1 := in_geometry _ In). assert (Eq : d_strstart s1 = d_strstart s /\ d_lookahead s1 = d_lookahead s /\ d_w_size s1 = d_w_size s /\ d_match_length s1 = d_match_length s /\ d_match_start s1 = d_match_start s /\ d_match_available s1 = d_match_available s) by (by destruct Hre as (h & p & d & -> & _)).
    destruct Eq as (Q1 & Q2 & Q3 & Q4 & Q5 & Q6). rewrite Q1 in Hq. destruct (slow_search_ok s1 q ins G1 C1) as (ml & ms & Es & Hml & Hm); rewrite ?Q1, ?Q2, ?Q3, ?Q4; try done; [lia|]. rewrite Q4, Q5, Q6 in Es. rewrite Q4, Q2 in Hm.
    exists ml, ms. split; [exact E|]. split; [exact Hre|]. split; [by right|]. split; [exact Es|]. split; [exact Hml|]. split.
    + destruct Hm as [|[|[Hm1 Hm2]]]; [by left|right; by left|]. right. right. split; [done|]. by destruct Hre as (h & p & d & -> & _).
    + intros _. rewrite <- Q1, <- Q2. by apply inserted_entered.
Qed.

Lemma slow_body_eq s s1 q s2 :
  insert_here s = Some (s1, q) -> slow_search s1 q = Some s2 ->
  slow_body s = if (d_prev_length s2 >=? MIN_MATCH) && (d_match_length s2 <=? d_prev_length s2) then slow_match_step s2
    else if nz (d_match_available s2) then slow_literal s2
    else Some (s2 <| d_match_available := 1 |> <| d_strstart := u32 (d_strstart s2 + 1) |> <| d_lookahead := u32 (d_lookahead s2 - 1) |>, Continue).
Proof. intros E1 E2. unfold slow_body. rewrite E1. cbn [mbind option_bind]. rewrite E2. reflexivity. Qed.

(** The match found at [strstart], one byte further. *)
Lemma found_pending s s' base cut syms ml :
  core P lit total s base cut syms -> match_ok s (d_match_start s') ml -> ml <= d_lookahead s -> d_strstart s' = d_strstart s + 1 -> d_lookahead s' = d_lookahead s - 1 ->
  pending_match s' base ml (u32 (d_strstart s' - 1 - d_match_start s')).
Proof.
  intros C Hm Hl Es El. assert (Hd := match_data P lit total _ _ _ _ _ _ C Hm Hl). assert (G := co_geometry _ _ _ _ _ _ _ C). assert (Wr := wsize_range s G). assert (V := co_view _ _ _ _ _ _ _ C). destruct (vw_pos _ _ _ V) as (P1 & P2 & P3). pose proof (vw_base _ _ _ V).
  destruct Hm as (M1 & M2 & _). rewrite (max_dist s G) in M2. unfold MIN_LOOKAHEAD, MAX_MATCH, MIN_MATCH in M2. rewrite Es. rewrite u32_small by lia. replace (d_strstart s + 1 - 1) with (d_strstart s) by lia.
  split; [lia|lia|]. rewrite Es. replace (base + (d_strstart s + 1) - 1) with (base + d_strstart s) by lia. exact Hd.
Qed.

Lemma slow_kept_blocked s s' base : slow_kept s base (base + d_strstart s) -> s' = s \/ is_blocked s s' -> slow_kept s' base (base + d_strstart s).
Proof.
  intros K [->|(z & t & p & -> & _)]; [done|]. apply (slow_kept_same s _ base base); [done|done|by apply rolling_same|done].
Qed.

Notation iteration flush s s' c := (match c with
  | Continue => (exists base cut syms, inv s' base cut syms /\ slow_kept s' base cut) /\ input_left s' < input_left s
  | Break => False
  | Return b => compressed flush slow_kept s' b
  end).

(** The previous match is sent. *)
Lemma slow_match s base cut syms s1 ml ms flush :
  inv s base cut syms -> slow_kept s base cut -> MIN_MATCH <= d_match_length s -> is_rehashed s s1 -> (d_insert s = 0 -> entered s1 (d_strstart s + d_lookahead s)) ->
  exists s' c, slow_match_step (scratch s1 ml (d_match_length s) (d_match_start s) (d_match_available s) ms) = Some (s', c) /\ iteration flush s s' c.
Proof.
  intros I (K1 & K2 & -> & K4 & K5 & K6) Hl (h & p & d & -> & L1 & L2) Hen. destruct (K6 Hl) as [Ka Hp]. rewrite Ka in *. unfold MIN_MATCH, MAX_MATCH in *. rewrite scratch_rehashed.
  assert (E0 : d_insert s = 0).
  { assert (C := inv_core _ _ _ _ _ _ _ _ _ _ I). destruct (co_hashed _ _ _ _ _ _ _ C) as [Hset _]. destruct (vw_insert _ _ _ (co_view _ _ _ _ _ _ _ C)) as [Hi _]. pose proof (pm_len _ _ _ _ Hp). unfold MIN_MATCH in Hset. lia. }
  specialize (Hen E0). set (w := scratch s ml (d_match_length s) (d_match_start s) 1 ms).
  assert (I' : inv w base (base + d_strstart s - 1) syms) by (apply inv_scratch; exact I).
  assert (Ew : entered (rehashed w h p d) (d_strstart w + d_lookahead w)) by (by apply (entered_same (rehashed s h p d))).
  assert (F : d_strstart w = d_strstart s /\ d_prev_length w = d_match_length s /\ d_prev_match w = d_match_start s /\ d_insert w = d_insert s /\ d_prev w = d_prev s /\ d_head w = d_head s /\ d_lookahead w = d_lookahead s /\ input_left w = input_left s) by done.
  assert (Hp' : pending_match w base (d_prev_length w) (u32 (d_strstart w - 1 - d_prev_match w))) by (destruct Hp; by split). clearbody w. destruct F as (F1 & F2 & F3 & F4 & F5 & F6 & F7 & F8). rewrite <- F1 in I'.
  destruct (slow_match_sent w base syms h p d I' Ew) as (s2 & full & syms2 & h' & p' & d' & E & (t & Es2) & T & Hro); try congruence; try lia. rewrite E.
  assert (Ea := after_lazy_eq s2 h p d h' p' d'). generalize dependent (after_lazy s2 h p d h' p' d'). intros s3 E T Hro Ea.
  assert (Q : d_strstart s3 = d_strstart w + (d_prev_length w - 1) /\ d_match_available s3 = 0 /\ d_match_length s3 = 2 /\ input_left s3 = input_left w - (d_prev_length w - 1)).
  { rewrite Ea, Es2. unfold rehashed, scratch, input_left, MIN_MATCH. dsimp. split; [done|]. split; [done|]. split; [done|lia]. }
  clear Ea Es2 E. destruct Q as (Q1 & Q2 & Q3 & Q4). rewrite <- Z.add_assoc, <- Q1 in T.
  assert (K : slow_kept s3 base (base + d_strstart s3)).
  { unfold slow_kept, MIN_MATCH, MAX_MATCH. rewrite Q2, Q3. split; [lia|]. split; [lia|]. split; [lia|]. split; [done|]. lia. }
  destruct (flushed_ok P lit total Hroomy s0 base0 start Hout0 slow_kept flush s3 base syms2 full T) as (s4 & c & E4 & Hs & H4); [intros; by apply slow_kept_blocked|]. exists s4, c. split; [exact E4|].
  destruct (blocked_left _ _ Hs) as (B1 & B2 & _). destruct c; [|done|exact H4]. destruct H4 as (syms3 & I3). split; [|lia]. exists base, (base + d_strstart s4), syms3. split; [done|]. rewrite B2. by apply (slow_kept_blocked s3).
Qed.

Definition mfields (s : deflate_state) := (d_match_length s, d_match_start s, d_match_available s).
Lemma blocked_fields s s' : s' = s \/ is_blocked s s' -> hfields s' = hfields s /\ mfields s' = mfields s /\ z_avail_in (d_strm s') = z_avail_in (d_strm s).
Proof. intros [->|(z & t & p & -> & E1 & E2 & E3 & _)]; [done|]. split; [done|]. split; [done|exact E3]. Qed.

(** One byte further, with a match at the byte before or not; [s2] is [s] with its output and what is kept of matches changed. *)
Lemma slow_moved s base cut syms s2 h p d :
  core P lit total s base cut syms -> slow_kept s base cut -> is_rehashed s (rehashed s h p d) -> here s (rehashed s h p d) -> 0 < d_lookahead s ->
  hfields s2 = hfields s -> z_avail_in (d_strm s2) = z_avail_in (d_strm s) -> d_match_available s2 = 1 -> 0 <= d_match_length s2 <= MAX_MATCH ->
  (MIN_MATCH <= d_match_length s2 -> d_match_length s2 <= d_lookahead s /\ match_ok s (d_match_start s2) (d_match_length s2)) ->
  let s' := rehashed (s2 <| d_strstart := d_strstart s2 + 1 |> <| d_lookahead := d_lookahead s2 - 1 |>) h p d in
  hashed s' /\ slow_kept s' base (base + d_strstart s) /\ input_left s' < input_left s.
Proof.
  intros C K Hre Hh Hl Ef Ei Ea Hml Hm. cbv zeta. destruct (vw_pos _ _ _ (co_view _ _ _ _ _ _ _ C)) as (P1 & P2 & P3). unfold hfields in Ef. injection Ef as E1 E2 E3 E4 E5 E6 E7 E8 E9 E10 E11 E12 E13 E14 E15. set (s' := rehashed _ h p d).
  assert (Q : d_strstart s' = d_strstart s + 1 /\ d_lookahead s' = d_lookahead s - 1 /\ d_insert s' = d_insert s /\ d_match_length s' = d_match_length s2 /\ d_match_start s' = d_match_start s2 /\ d_match_available s' = 1 /\ z_avail_in (d_strm s') = z_avail_in (d_strm s)).
  { unfold s', rehashed. dsimp. rewrite E13, E14, E15, Ei, Ea. done. }
  assert (Et : tables s' = tables (rehashed s h p d)) by (unfold s', tables, rehashed; dsimp; congruence). clearbody s'. destruct Q as (Q1 & Q2 & Q3 & Q4 & Q5 & Q6 & Q7).
  destruct (here_moved s (rehashed s h p d) s' Hre Hh (co_hashed _ _ _ _ _ _ _ C) Et Q1 Q2 Q3) as [Hd Hro]. split; [done|]. split; [|unfold input_left; lia]. unfold slow_kept. rewrite Q4, Q6. split; [lia|]. split; [lia|]. split; [lia|]. split; [done|]. split; [done|].
  intros H3. split; [done|]. destruct (Hm H3) as [Hm1 Hm2]. apply (found_pending s s' base cut syms); [done|by rewrite Q5|done|done|done].
Qed.

Lemma slow_literal_ok s base cut syms s1 ml ms flush :
  inv s base cut syms -> slow_kept s base cut -> 0 < d_lookahead s -> is_rehashed s s1 -> here s s1 -> d_match_available s = 1 -> 0 <= ml <= MAX_MATCH -> (MIN_MATCH <= ml -> ml <= d_lookahead s /\ match_ok s ms ml) ->
  exists s' c, slow_literal (scratch s1 ml (d_match_length s) (d_match_start s) (d_match_available s) ms) = Some (s', c) /\ iteration flush s s' c.
Proof.
  intros I K Hl Hre Hh Ka Hml Hm. assert (Hre' := Hre). destruct Hre' as (h & p & d & -> & L1 & L2). rewrite scratch_rehashed, Ka. assert (K' := K). destruct K' as (_ & K2 & -> & _). specialize (K2 Ka). assert (C := inv_core _ _ _ _ _ _ _ _ _ _ I). rewrite Ka in *.
  set (w := scratch s ml (d_match_length s) (d_match_start s) 1 ms). assert (I' : inv w base (base + d_strstart s - 1) syms) by (apply inv_scratch; exact I).
  assert (F : hfields w = hfields s /\ mfields w = (ml, ms, 1) /\ z_avail_in (d_strm w) = z_avail_in (d_strm s) /\ d_strstart w = d_strstart s /\ d_lookahead w = d_lookahead s) by done. clearbody w. destruct F as (F1 & F2 & F3 & F4 & F5). rewrite <- F4 in I'.
  destruct (slow_literal_sent w base syms h p d I' ltac:(lia) ltac:(lia)) as (s2 & syms2 & E & (w1 & (t & Ew1) & Hs) & St & R & Hy & Hlo & Hav). rewrite E. clear E.
  destruct (blocked_fields _ _ Hs) as (B1 & B2 & B3). assert (W : hfields w1 = hfields w /\ mfields w1 = mfields w /\ z_avail_in (d_strm w1) = z_avail_in (d_strm w)) by (rewrite Ew1; done). destruct W as (W1 & W2 & W3). rewrite W1, F1 in B1. rewrite W2, F2 in B2. rewrite W3, F3 in B3.
  clear Ew1 Hs W1 W2 W3. unfold mfields in B2. injection B2 as B4 B5 B6. rewrite <- B4, <- B5 in Hm. rewrite <- B4 in Hml.
  destruct (slow_moved s base _ syms s2 h p d C K Hre Hh Hl B1 B3 B6 Hml Hm) as (Hd & K3 & Hlt). assert (Hf := B1). unfold hfields in Hf. injection Hf as E1 E2 E3 E4 E5 E6 E7 E8 E9 E10 E11 E12 E13 E14 E15.
  apply (stopped_step s2 base _ syms2 1) in St; [|lia]. rewrite F4 in St. apply (stopped_rehash P lit total s0 base0 start _ (rehashed (s2 <| d_strstart := d_strstart s2 + 1 |> <| d_lookahead := d_lookahead s2 - 1 |>) h p d)) in St; [| |exact Hd].
  2:{ exists h, p, d. split; [reflexivity|]. dsimp. rewrite L1, L2. split; congruence. }
  eexists _, _. split; [reflexivity|]. destruct (Z.eqb_spec (z_avail_out (d_strm s2)) 0) as [Ez|Hnz].
  - exists base, (base + d_strstart s), syms2. split; [exact St|]. split; [exact K3|]. split; [exact R|]. split; [exact Hy|]. split; [exact Hlo|]. by left.
  - split; [|exact Hlt]. destruct Hav as [|D]; [done|]. exists base, (base + d_strstart s), syms2. split; [|exact K3]. split; [exact St|exact D|exact R].
Qed.

(** No match and no literal yet. *)
Lemma slow_first s base cut syms s1 ml ms flush :
  inv s base cut syms -> slow_kept s base cut -> 0 < d_lookahead s -> is_rehashed s s1 -> here s s1 -> d_match_available s = 0 -> 0 <= ml <= MAX_MATCH -> (MIN_MATCH <= ml -> ml <= d_lookahead s /\ match_ok s ms ml) ->
  let s2 := scratch s1 ml (d_match_length s) (d_match_start s) (d_match_available s) ms in
  iteration flush s (s2 <| d_match_available := 1 |> <| d_strstart := u32 (d_strstart s2 + 1) |> <| d_lookahead := u32 (d_lookahead s2 - 1) |>) Continue.
Proof.
  intros I K Hl Hre Hh Ka Hml Hm. cbv zeta. assert (Hre' := Hre). destruct Hre' as (h & p & d & -> & L1 & L2). assert (K' := K). destruct K' as (_ & _ & -> & _). assert (C := inv_core _ _ _ _ _ _ _ _ _ _ I). rewrite Ka in *. rewrite Z.sub_0_r in *.
  assert (Wr := wsize_range s (co_geometry _ _ _ _ _ _ _ C)). destruct (vw_pos _ _ _ (co_view _ _ _ _ _ _ _ C)) as (P1 & P2 & P3).
  set (w := scratch s ml (d_match_length s) (d_match_start s) 1 ms). assert (I' : inv w base (base + d_strstart s) syms) by (apply inv_scratch; exact I).
  destruct (slow_moved s base _ syms w h p d C K Hre Hh Hl eq_refl eq_refl eq_refl Hml Hm) as (Hd & K3 & Hlt).
  match goal with |- context [input_left ?x < _] => assert (Ew : x = rehashed (w <| d_strstart := d_strstart w + 1 |> <| d_lookahead := d_lookahead w - 1 |>) h p d) end.
  { unfold w, scratch, rehashed. dsimp. rewrite !u32_small by lia. reflexivity. }
  rewrite Ew. clear Ew. split; [|exact Hlt]. exists base, (base + d_strstart s), syms. split; [|exact K3]. apply (inv_step P lit total s0 base0 start _ _ _ _ 1) in I'; [|unfold w, scratch; dsimp; lia].
  destruct I' as [St D R]. split; [|exact D|exact R]. eapply stopped_rehash; [exact St|exists h, p, d; done|exact Hd].
Qed.

Lemma slow_body_ok flush s base cut syms :
  inv s base cut syms -> slow_kept s base cut -> 0 < d_lookahead s -> d_strstart s + MIN_LOOKAHEAD <= 2 * d_w_size s -> exists s' c, slow_body s = Some (s', c) /\ iteration flush s s' c.
Proof.
  intros I K Hl Hr. destruct (slow_found s base cut syms I K Hr Hl) as (s1 & q & ml & ms & E1 & Hre & Hh & E2 & Hml & Hm & Hen). rewrite (slow_body_eq _ _ _ _ E1 E2). assert (K' := K). destruct K' as (Ka & _).
  change (d_prev_length (scratch s1 ml (d_match_length s) (d_match_start s) (d_match_available s) ms)) with (d_match_length s). change (d_match_length (scratch s1 ml (d_match_length s) (d_match_start s) (d_match_available s) ms)) with ml.
  change (d_match_available (scratch s1 ml (d_match_length s) (d_match_start s) (d_match_available s) ms)) with (d_match_available s). rewrite Z.geb_leb. destruct (_ && _) eqn:Ec.
  - apply andb_true_iff in Ec as [Ec _]. apply Z.leb_le in Ec. by apply (slow_match s base cut syms).
  - assert (Hm' : MIN_MATCH <= ml -> ml <= d_lookahead s /\ match_ok s ms ml).
    { intros H3. destruct Hm as [|[Hm|Hm]]; [lia| |done]. apply andb_false_iff in Ec as [Ec|Ec]; apply Z.leb_gt in Ec; lia. }
    destruct (nz (d_match_available s)) eqn:Ez.
    + apply nz_true in Ez. apply (slow_literal_ok s base cut syms); try done. lia.
    + apply nz_false in Ez. eexists _, Continue. split; [reflexivity|]. by apply (slow_first s base cut syms).
Qed.

(** ** The end *)
Definition slow_last (s : deflate_state) : option deflate_state :=
  if nz (d_match_available s) then
    c ← aget (d_window s) (d_strstart s - 1);
    '(s, _) ← tally_lit s c;
    Some (s <| d_match_available := 0 |>)
  else Some s.

Lemma slow_last_ok s base cut syms :
  inv s base cut syms -> slow_kept s base cut -> d_lookahead s = 0 ->
  exists s1 syms1, slow_last s = Some s1 /\ stopped s1 base (base + d_strstart s1) syms1 /\ drained s1 /\ Z.of_nat (length syms1) < lit /\
    d_strstart s1 = d_strstart s /\ d_lookahead s1 = 0 /\ z_avail_in (d_strm s1) = z_avail_in (d_strm s) /\ d_match_available s1 = 0 /\ 0 <= d_match_length s1 < MIN_MATCH.
Proof.
  intros I (K1 & K2 & -> & K4 & K5 & K6) Hl. assert (Hml : d_match_length s < MIN_MATCH).
  { destruct (Z.lt_ge_cases (d_match_length s) MIN_MATCH) as [|H3]; [done|]. destruct (K6 H3) as [_ Hp]. pose proof (pm_len _ _ _ _ Hp). unfold MIN_MATCH in *. lia. }
  unfold slow_last. destruct (nz (d_match_available s)) eqn:Ez.
  - apply nz_true in Ez. assert (Ka : d_match_available s = 1) by lia. rewrite Ka in *. specialize (K2 eq_refl). assert (C := inv_core _ _ _ _ _ _ _ _ _ _ I). assert (V := co_view _ _ _ _ _ _ _ C).
    destruct (vw_pos _ _ _ V) as (P1 & P2 & P3). destruct (aget_in total (base + d_strstart s - 1)) as [c Hc].
    { destruct (vw_avail _ _ _ V). pose proof (vw_base _ _ _ V). lia. }
    assert (Ew : aget (d_window s) (d_strstart s - 1) = Some c) by (rewrite (vw_data _ _ _ V) by lia; rewrite <- Hc; f_equal; lia). rewrite Ew. cbn [mbind option_bind].
    destruct (inv_lit P lit total s0 base0 start s base _ syms c I Hc (HP (0, c))) as (t & full & E & T); [unfold pos; lia|]. rewrite E. cbn [mbind option_bind].
    eexists _, (syms ++ [(0, c)]). split; [reflexivity|]. destruct T as [St D _ R _]. replace (base + d_strstart s - 1 + 1) with (base + d_strstart s) in St by lia.
    apply (stopped_scratch _ _ _ _ (d_match_length s) (d_prev_length s) (d_prev_match s) 0 (d_match_start s)) in St. split; [exact St|]. split; [exact D|]. split; [exact R|]. dsimp. split_and!; (done || lia).
  - apply nz_false in Ez. exists s, syms. split; [done|]. destruct I as [St D R]. rewrite Ez, Z.sub_0_r in St. split; [done|]. split; [done|]. split; [lia|]. split_and!; (done || lia).
Qed.

Lemma deflate_slow_eq s flush s1 :
  forever (input_fuel s) (fun s => '(s, c) ← need_lookahead flush MIN_LOOKAHEAD s; match c with Continue => slow_body s | _ => Some (s, c) end) s = Some (s1, None) ->
  forall s2, slow_last s1 = Some s2 ->
  deflate_slow s flush = end_block (s2 <| d_insert := if d_strstart s2 <? MIN_MATCH - 1 then d_strstart s2 else MIN_MATCH - 1 |>) flush (nz (t_last_lit (d_trees s2))).
Proof. intros E s2 E2. unfold deflate_slow. rewrite E. cbn [mbind option_bind]. unfold slow_last in E2. rewrite E2. reflexivity. Qed.

Theorem deflate_slow_ok s base cut syms flush :
  inv s base cut syms -> slow_kept s base cut -> exists s' r, deflate_slow s flush = Some (s', r) /\ compressed flush slow_kept s' r.
Proof.
  intros I K. destruct (lookahead_loop P lit total s0 base0 start Hcheck0 flush MIN_LOOKAHEAD slow_kept slow_body) with (s := s) (base := base) (cut := cut) (syms := syms) as (s1 & r & E & H); try done.
  - intros s1 b1 c1 s2 b2 K1 E Hr Hm. by apply (slow_kept_same s1 s2 b1).
  - intros s1 b1 c1 y1 I1 K1 Hl Hr. by apply (slow_body_ok flush s1 b1 c1 y1).
  - destruct r as [b|]; [exists s1, b; unfold deflate_slow; rewrite E; done|]. destruct H as (b1 & c1 & y1 & I1 & K1 & [Ea Eb] & Hfl). assert (V := co_view _ _ _ _ _ _ _ (inv_core _ _ _ _ _ _ _ _ _ _ I1)). destruct (vw_pos _ _ _ V) as (P1 & _).
    destruct (slow_last_ok s1 b1 c1 y1 I1 K1 Ea) as (s2 & y2 & E2 & St & D & R & Q1 & Q2 & Q3 & Q4 & Q5). rewrite (deflate_slow_eq s flush s1 E s2 E2).
    set (n := if d_strstart s2 <? MIN_MATCH - 1 then _ else _). assert (Hn : 0 <= n <= 2 /\ n <= d_strstart s2) by (unfold n, MIN_MATCH; destruct (Z.ltb_spec (d_strstart s2) (3 - 1)); lia). clearbody n.
    change (d_trees s2) with (d_trees (s2 <| d_insert := n |>)). apply (end_stopped_ok P lit total Hroomy s0 base0 start Hout0 slow_kept (s2 <| d_insert := n |>) b1 y2); try done.
    + apply stopped_insert; [done|done|lia|lia].
    + split; [done|]. change (z_avail_in (d_strm s2) = 0). congruence.
    + intros s' Hs. apply (slow_kept_blocked (s2 <| d_insert := n |>)); [|exact Hs]. unfold slow_kept. dsimp. rewrite Q4. unfold MIN_MATCH, MAX_MATCH in *. split; [lia|]. split; [lia|]. split; [lia|]. split; [|split; [lia|lia]].
      intros Hx. revert Hx. dsimp. unfold MIN_MATCH. lia.
Qed.
End lazy.
