(* ===== verification/DeflateInit.v ===== *)
(** The start of a stream: room for the blocks, and the state that [deflateInit2_()] leaves. *)
From S2P Require Import Prelude Record Bits Huffman Lz Fixed DeflateFormat InflateState TreesTables Trees.
From S2P Require Import BitWriter TreesCodes TreesEmit TreesBuild TreesLens TreesTree TreesRle TreesHeader TreesTally.
From S2P Require Import TreesFlush DeflateState Deflate DeflateOut DeflateHash DeflateWindow DeflateMatch DeflateBlocks DeflateLoop.
From S2P Require Import DeflateHuff DeflateFast DeflateSlow Adler32 Crc32.

(** ** Room

    A literal takes fewer bits than the symbol buffer frees; a match up to 32 bits more, and it stands for three bytes or more. *)
Fixpoint match_count (syms : list sym) : Z := match syms with [] => 0 | x :: syms => (if x.1 =? 0 then 0 else 1) + match_count syms end.

Lemma match_count_range syms : 0 <= match_count syms <= Z.of_nat (length syms).
Proof. induction syms as [|x syms IH]; cbn [match_count length]; [lia|]. destruct (x.1 =? 0); lia. Qed.

Lemma room_for_count lit syms : forall n lx,
  0 <= lx -> lx + Z.of_nat (length syms) < lit -> 3 <= lit -> n + 32 * match_count syms <= 8 * lit + 16 * lx -> room_for n lit lx syms = true.
Proof.
  induction syms as [|x syms IH]; intros n lx Hx Hl H3 Hn; cbn [room_for match_count length] in *; [apply Z.leb_le; lia|]. assert (Hc := match_count_range syms).
  apply andb_true_iff. split; [apply Z.leb_le; destruct (x.1 =? 0); lia|]. apply IH; [lia|lia|lia|]. unfold sym_max. destruct (x.1 =? 0); lia.
Qed.

Lemma expand_count syms : forall hist, Forall sym_ok syms ->
  Z.of_nat (length hist) + Z.of_nat (length syms) + 2 * match_count syms <= Z.of_nat (length (expand hist syms)) /\
  (match_count syms = 0 -> Z.of_nat (length (expand hist syms)) = Z.of_nat (length hist) + Z.of_nat (length syms)).
Proof.
  induction syms as [|x syms IH]; intros hist Hs; [cbn; lia|]. apply Forall_cons_1 in Hs as [[H1 H2] Hs]. unfold expand in *. cbn [fold_left match_count length]. specialize (IH (apply_sym hist x) Hs). assert (Hc := match_count_range syms).
  assert (El : Z.of_nat (length (apply_sym hist x)) = Z.of_nat (length hist) + if x.1 =? 0 then 1 else x.2 + 3) by (unfold apply_sym; destruct (x.1 =? 0); [rewrite length_app; cbn; lia|rewrite lz_copy_length; lia]).
  rewrite El in IH. destruct (x.1 =? 0); lia.
Qed.

(** Blocks of literals always have room. *)
Definition literal (x : sym) : Prop := x.1 = 0.
Lemma literals_count syms : Forall literal syms -> match_count syms = 0.
Proof. induction 1 as [|x syms Hx _ IH]; [done|]. cbn [match_count]. rewrite Hx, IH. done. Qed.
Lemma roomy_literals lit total : 1024 <= lit <= 2 ^ 15 -> roomy literal lit total.
Proof.
  intros Hlit a b syms Hab Hb Hs HP Hf He Hl. assert (Hc := literals_count _ HP). destruct (expand_count syms (take (Z.to_nat a) total) Hs) as [_ H]. specialize (H Hc). rewrite He, !length_take in H.
  split; [|lia]. apply room_for_count; rewrite ?Hc; unfold HEADER_MAX; lia.
Qed.

(** Any blocks of data that are short for the buffer. *)
Definition short (lit n : Z) : Prop := 3 * (7 + HEADER_MAX) + 32 * n <= 24 * lit.
Lemma roomy_short lit total : lit <= 2 ^ 15 -> short lit (Z.of_nat (length total)) -> roomy (fun _ => True) lit total.
Proof.
  unfold short, HEADER_MAX. intros Hlit Hn a b syms Hab Hb Hs _ Hf He Hl. destruct (expand_count syms (take (Z.to_nat a) total) Hs) as [H _]. rewrite He, !length_take in H. assert (Hc := match_count_range syms).
  split; [|lia]. apply room_for_count; unfold HEADER_MAX; lia.
Qed.

(** ** A new state

    What the allocations give, whatever the arrays contain. *)
Record allocated (s : deflate_state) : Prop := {
  al_geometry : geometry (s <| d_window_size := 2 * d_w_size s |>);
  al_sizes : sizes_ok (d_trees s);
  al_lit : 128 <= t_lit_bufsize (d_trees s) <= 2 ^ 15;
  al_buf : Z.of_nat (length (w_buf (t_w (d_trees s)))) = 4 * t_lit_bufsize (d_trees s);
  al_level : 0 <= t_level (d_trees s) <= 9;
  al_high : 0 <= d_high_water s <= 2 * d_w_size s }.

Definition initial_check (wrap : Z) : Z := if wrap =? 2 then 0 else 1.

(** What does not depend on the data: the configuration of a stream. *)
Definition config_of (s : deflate_state) :=
  (Z.abs (d_wrap s), d_w_bits s, d_w_size s, t_lit_bufsize (d_trees s), t_level (d_trees s), t_strategy (d_trees s), (d_hash_bits s, d_pending_buf_size s, d_gzhead s, d_high_water s)).

Record fresh (s : deflate_state) : Prop := {
  fr_allocated : allocated s;
  fr_geometry : geometry s;
  fr_chained : chained s (fun _ => False) 0;
  fr_start : d_strstart s = 0 /\ d_lookahead s = 0 /\ d_insert s = 0 /\ d_block_start s = 0;
  fr_match : d_match_length s = 2 /\ d_prev_length s = 2 /\ d_match_available s = 0;
  fr_collected : collected (d_trees s) [];
  fr_writer : d_pending s = 0 /\ d_pending_out s = 0 /\ w_bi_buf (t_w (d_trees s)) = 0 /\ w_bi_valid (t_w (d_trees s)) = 0;
  fr_status : d_status s = if d_wrap s =? 0 then BUSY_STATE else INIT_STATE;
  fr_flush : d_last_flush s = Z_NO_FLUSH;
  fr_sum : z_adler (d_strm s) = initial_check (d_wrap s);
  fr_totals : z_total_in (d_strm s) = 0 /\ z_total_out (d_strm s) = 0 /\ z_msg (d_strm s) = None;
  fr_wrap : 0 <= d_wrap s }.

(** The buffers of the caller. *)
Definition bufs (z : z_stream) := (z_in z, z_next_in z, z_avail_in z, z_out z, z_next_out z, z_avail_out z).

Lemma tr_init_ok t :
  sizes_ok t -> 128 <= t_lit_bufsize t <= 2 ^ 15 -> Z.of_nat (length (w_buf (t_w t))) = 4 * t_lit_bufsize t -> w_pending (t_w t) = 0 ->
  exists t', tr_init t = Some t' /\ collected t' [] /\ t_w t' = (t_w t) <| w_bi_buf := 0 |> <| w_bi_valid := 0 |> /\ tparams t' = tparams t.
Proof.
  intros Hs Hl Hb Hp. unfold tr_init. set (t1 := t <| t_w := _ |>).
  assert (B : between_blocks t1).
  { split; [|split|done|exact Hb]; unfold t1; cbn; try (rewrite ?Hp; lia).
    - destruct Hs as [S1 S2 S3]. split; [intros desc; rewrite <- S1; by destruct desc|done|done].
    - unfold wbytes. cbn. rewrite Hp. done. }
  destruct (init_block_ok t1 B) as (t' & E & C & Ew & _). exists t'. split; [done|]. split; [done|]. split; [exact Ew|]. exact (init_block_params _ _ E).
Qed.

Lemma reset_keep_ok strm s :
  allocated s -> exists s1, reset_keep strm s = Some s1 /\ allocated s1 /\ config_of s1 = config_of s /\ bufs (d_strm s1) = bufs strm /\ 0 <= d_wrap s1 /\
    collected (d_trees s1) [] /\ (d_pending s1 = 0 /\ d_pending_out s1 = 0 /\ w_bi_buf (t_w (d_trees s1)) = 0 /\ w_bi_valid (t_w (d_trees s1)) = 0) /\
    d_status s1 = (if d_wrap s1 =? 0 then BUSY_STATE else INIT_STATE) /\ d_last_flush s1 = Z_NO_FLUSH /\ z_adler (d_strm s1) = initial_check (d_wrap s1) /\
    (z_total_in (d_strm s1) = 0 /\ z_total_out (d_strm s1) = 0 /\ z_msg (d_strm s1) = None).
Proof.
  intros [G Hs Hl Hb Hv Hh]. unfold reset_keep. set (t := (d_trees s) <| t_w ::= _ |> <| t_data_type := _ |>).
  destruct (tr_init_ok t) as (t' & -> & C & Ew & Ep).
  - destruct Hs as [S1 S2 S3]. split; [intros desc; rewrite <- S1; by destruct desc|done|done].
  - exact Hl.
  - exact Hb.
  - done.
  - cbn [mbind option_bind]. set (wrap := if d_wrap s <? 0 then _ else _). assert (Hw : wrap = Z.abs (d_wrap s)) by (unfold wrap; destruct (Z.ltb_spec (d_wrap s) 0); lia). clearbody wrap.
    unfold tparams in Ep. injection Ep as Ep1 Ep2 Ep3. change (t_level t) with (t_level (d_trees s)) in Ep1. change (t_strategy t) with (t_strategy (d_trees s)) in Ep2. change (t_lit_bufsize t) with (t_lit_bufsize (d_trees s)) in Ep3.
    eexists. split; [reflexivity|]. dsimp. split; [|split; [|split; [|split; [|split; [|split; [|split; [|split; [|split]]]]]]]].
    + split; dsimp; rewrite ?Ep1, ?Ep3; try done; [by apply (geometry_fields (s <| d_window_size := 2 * d_w_size s |>))|apply (bs_sizes _ _ C)|]. rewrite Ew. exact Hb.
    + unfold config_of. dsimp. rewrite Ep1, Ep2, Ep3, Hw, Z.abs_involutive. done.
    + done.
    + lia.
    + exact C.
    + unfold d_pending. dsimp. rewrite Ew. done.
    + rewrite Hw. unfold nz. destruct (Z.eqb_spec (Z.abs (d_wrap s)) 0); done.
    + done.
    + unfold initial_check. rewrite Hw. destruct (Z.abs (d_wrap s) =? 2); done.
    + done.
Qed.

Lemma lm_init_ok s :
  allocated s -> exists head c, length head = length (d_head s) /\ aget configuration_table (t_level (d_trees s)) = Some c /\
    let s1 := (s <| d_window_size := 2 * d_w_size s |>) <| d_head := head |> in geometry s1 /\ chained s1 (fun _ => False) 0 /\
    lm_init s = Some (s1 <| d_max_lazy_match := max_lazy c |> <| d_good_match := good_length c |> <| d_nice_match := nice_length c |>
          <| d_max_chain_length := max_chain c |> <| d_strstart := 0 |> <| d_block_start := 0 |> <| d_lookahead := 0 |>
          <| d_insert := 0 |> <| d_match_length := MIN_MATCH - 1 |> <| d_prev_length := MIN_MATCH - 1 |>
          <| d_match_available := 0 |> <| d_ins_h := 0 |>).
Proof.
  intros [G Hs Hl Hb Hv Hh]. unfold lm_init. assert (Wr := wsize_range _ G). dsimp in Wr. rewrite u32_small by lia.
  destruct (CLEAR_HASH_ok _ 0 G) as (head & E & Lh & C). rewrite E. cbn [mbind option_bind].
  destruct (aget_in configuration_table (t_level (d_trees s))) as [c Hc]; [cbn; lia|]. change (d_trees ((s <| d_window_size := 2 * d_w_size s |>) <| d_head := head |>)) with (d_trees s). rewrite Hc. cbn [mbind option_bind].
  exists head, c. split; [exact Lh|]. split; [done|]. cbv zeta. split; [|split; [exact C|reflexivity]].
  eapply geometry_fields; [|exact G]. unfold gfields. dsimp. by rewrite Lh.
Qed.

Theorem reset_ok strm s :
  allocated s -> z_zalloc strm = true -> z_zfree strm = true ->
  exists s', deflateReset (DStream strm (Some s)) = Some (with_state s', Z_OK) /\ fresh s' /\ config_of s' = config_of s /\ bufs (d_strm s') = bufs strm.
Proof.
  intros A Z1 Z2. unfold deflateReset, deflateResetKeep. cbn [x_state x_strm]. rewrite Z1, Z2. cbn [andb].
  destruct (reset_keep_ok strm s A) as (s1 & -> & A1 & Ec & Eb & Hw & C & W & Hst & Hfl & Hsum & Ht). cbn [mbind option_bind with_state x_state]. cbn [Z.eqb Z_OK]. change (Z_OK =? Z_OK) with true. cbv iota.
  destruct (lm_init_ok s1 A1) as (head & c & Lh & Hc & G & Hch & ->). cbn [mbind option_bind]. eexists. split; [reflexivity|].
  revert C W Hst Hfl Hsum Ht Hw. rewrite <- Ec, <- Eb. clear Ec Eb A. intros C W Hst Hfl Hsum Ht Hw. split; [|split; [|reflexivity]].
  - split; try done.
    + destruct A1 as [B1 B2 B3 B4 B5 B6]. split; try done. apply (geometry_fields (s1 <| d_window_size := 2 * d_w_size s1 |> <| d_head := head |>)); [reflexivity|exact G].
    + apply (geometry_fields (s1 <| d_window_size := 2 * d_w_size s1 |> <| d_head := head |>)); [reflexivity|exact G].
    + destruct Hch as [H1 H2 H3]. split; [done| |done]. intros h q. intros Hq. left. destruct (H2 h q Hq) as [|[[] _]]. done.
  - unfold config_of. dsimp. done.
Qed.

(** ** deflateInit2_ *)

(** The wrapper and the size of the window that [windowBits] asks for. *)
Definition window_params (windowBits : Z) : Z * Z :=
  if windowBits <? 0 then (0, - windowBits) else if windowBits >? 15 then (2, windowBits - 16) else (1, windowBits).
Definition level_of (level : Z) : Z := if level =? Z_DEFAULT_COMPRESSION then 6 else level.
Definition params_ok (level method windowBits memLevel strategy : Z) : bool :=
  (1 <=? memLevel) && (memLevel <=? MAX_MEM_LEVEL) && (method =? Z_DEFLATED) && (8 <=? (window_params windowBits).2) && ((window_params windowBits).2 <=? 15) &&
  (0 <=? level_of level) && (level_of level <=? 9) && (0 <=? strategy) && (strategy <=? Z_FIXED).

Section alloc.
Context (zalloc : nat -> Z -> option (list Z)) (zalloc_state : nat -> option deflate_state).
(** The allocator: arrays of the size asked for; a window is made of bytes. *)
Context (Hzalloc : forall n k l, zalloc n k = Some l -> Z.of_nat (length l) = k).
Context (Hstate : forall n s, zalloc_state n = Some s -> sizes_ok (d_trees s)).

Definition all_allocated (calls : nat) (w_size hash_size lit : Z) : Prop :=
  is_Some (zalloc_state calls) /\ (exists l, zalloc (calls + 1)%nat (2 * w_size) = Some l /\ Forall byte_ok l) /\ is_Some (zalloc (calls + 2)%nat w_size) /\
  is_Some (zalloc (calls + 3)%nat hash_size) /\ is_Some (zalloc (calls + 4)%nat (4 * lit)).

Lemma init_state_allocated s window prev head overlay wrap w_bits memLevel level strategy method :
  sizes_ok (d_trees s) -> 9 <= w_bits <= 15 -> 1 <= memLevel <= 9 -> 0 <= level <= 9 -> Forall byte_ok window ->
  Z.of_nat (length window) = 2 * 2 ^ w_bits -> Z.of_nat (length prev) = 2 ^ w_bits -> Z.of_nat (length head) = 2 ^ (memLevel + 7) -> Z.of_nat (length overlay) = 4 * 2 ^ (memLevel + 6) ->
  let hash_bits := memLevel + 7 in let hash_size := 2 ^ hash_bits in let lit := 2 ^ (memLevel + 6) in let w_size := 2 ^ w_bits in
  let s1 := s <| d_wrap := wrap |> <| d_gzhead := None |> <| d_w_bits := w_bits |> <| d_w_size := w_size |>
                     <| d_w_mask := w_size - 1 |> <| d_hash_bits := hash_bits |> <| d_hash_size := hash_size |>
                     <| d_hash_mask := hash_size - 1 |> <| d_hash_shift := (hash_bits + MIN_MATCH - 1) / MIN_MATCH |>
                     <| d_high_water := 0 |> <| d_pending_buf_size := u32 (lit * 4) |> in
  let s2 := s1 <| d_window := window |> <| d_prev := prev |> <| d_head := head |>
     <| d_trees := (d_trees s1) <| t_w ::= upd w_buf (fun _ => overlay) |> <| t_lit_bufsize := lit |> <| t_level := level |> <| t_strategy := strategy |> |> <| d_method := method |> in
  allocated s2 /\ config_of s2 = (Z.abs wrap, w_bits, 2 ^ w_bits, 2 ^ (memLevel + 6), level, strategy, (memLevel + 7, 4 * 2 ^ (memLevel + 6), None, 0)).
Proof.
  intros Hs Hw Hm Hl Hbw L1 L2 L3 L4. cbv zeta. assert (Hlit : 128 <= 2 ^ (memLevel + 6) <= 2 ^ 15).
  { change 128 with (2 ^ 7). split; apply Z.pow_le_mono_r; lia. }
  split.
  - split; dsimp; try done.
    + split; dsimp; try done; try lia.
    + destruct Hs as [S1 S2 S3]. split; [intros desc; rewrite <- S1; by destruct desc|done|done].
    + split; [done|]. assert (0 < 2 ^ w_bits) by (apply pow2_pos; lia). lia.
  - unfold config_of. dsimp. rewrite u32_small by lia. rewrite (Z.mul_comm _ 4). reflexivity.
Qed.

Lemma params_checked level method windowBits memLevel strategy :
  (memLevel <? 1) || (memLevel >? MAX_MEM_LEVEL) || negb (method =? Z_DEFLATED) || ((window_params windowBits).2 <? 8) || ((window_params windowBits).2 >? 15) ||
    (level_of level <? 0) || (level_of level >? 9) || (strategy <? 0) || (strategy >? Z_FIXED) = negb (params_ok level method windowBits memLevel strategy).
Proof. unfold params_ok. rewrite !negb_andb, !Z.gtb_ltb, !Z.ltb_antisym. done. Qed.

(** All arguments are in range and all allocations succeed. *)
Theorem init2_ok x level method windowBits memLevel strategy :
  let wrap := (window_params windowBits).1 in let w_bits := Z.max 9 (window_params windowBits).2 in
  params_ok level method windowBits memLevel strategy = true -> all_allocated (z_calls (x_strm x)) (2 ^ w_bits) (2 ^ (memLevel + 7)) (2 ^ (memLevel + 6)) ->
  exists s, deflateInit2_ zalloc zalloc_state x level method windowBits memLevel strategy true = Some (with_state s, Z_OK) /\ fresh s /\
    config_of s = (wrap, w_bits, 2 ^ w_bits, 2 ^ (memLevel + 6), level_of level, strategy, (memLevel + 7, 4 * 2 ^ (memLevel + 6), None, 0)) /\ bufs (d_strm s) = bufs (x_strm x).
Proof.
  cbv zeta. intros Hp ([s Hs] & (window & Hw & Hwb) & [prev Hpr] & [head Hhd] & [overlay Hov]). assert (Hc := params_checked level method windowBits memLevel strategy). rewrite Hp in Hc. cbn [negb] in Hc.
  unfold params_ok in Hp. rewrite !andb_true_iff, !Z.leb_le in Hp. destruct Hp as ((((((((P1 & P2) & _) & P3) & P4) & P5) & P6) & _) & _). unfold MAX_MEM_LEVEL in P2.
  unfold deflateInit2_. cbn [negb]. fold (level_of level). fold (window_params windowBits). assert (Hwr : 0 <= (window_params windowBits).1) by (unfold window_params; destruct (windowBits <? 0), (windowBits >? 15); cbn [fst]; lia).
  generalize dependent (window_params windowBits). intros [wrap wb]. cbn [fst snd]. intros P3 P4 Hw Hpr Hc Hwr. rewrite Hc. change (z_calls ((x_strm x) <| z_msg := None |> <| z_zalloc := true |> <| z_zfree := true |>)) with (z_calls (x_strm x)). rewrite Hs.
  set (w_bits := if wb =? 8 then 9 else wb). assert (Ew : w_bits = Z.max 9 wb) by (unfold w_bits; destruct (Z.eqb_spec wb 8); lia). clearbody w_bits. rewrite <- Ew in *. rewrite !Z.shiftl_1_l.
  cbv zeta. rewrite Hw, Hpr, Hhd, Hov.
  destruct (init_state_allocated s window prev head overlay wrap w_bits memLevel (level_of level) strategy method) as [A Ec]; try lia; try done; eauto.
  match goal with |- context [deflateReset (DStream ?z (Some ?y))] => destruct (reset_ok z y) as (s' & E & F & Ec' & Eb); [exact A|reflexivity|reflexivity|] end.
  exists s'. split; [exact E|]. split; [exact F|]. split; [|exact Eb]. rewrite Ec', Ec. by rewrite Z.abs_eq.
Qed.
End alloc.
