(* ===== verification/DeflateRun.v ===== *)
(** Calls of [deflate()]: the compression functions over a stream whose input and output come in pieces. *)
From S2P Require Import Prelude Record Bits Huffman Lz Fixed DeflateFormat InflateState TreesTables Trees.
From S2P Require Import BitWriter TreesCodes TreesEmit TreesBuild TreesLens TreesTree TreesRle TreesHeader TreesTally.
From S2P Require Import TreesFlush DeflateState Deflate DeflateOut DeflateHash DeflateWindow DeflateMatch DeflateBlocks DeflateLoop.
From S2P Require Import DeflateHuff DeflateFast DeflateSlow DeflateInit DeflateApi Adler32 Crc32.

(** ** The compression function of a stream *)
Definition class_of (strategy : Z) : sym -> Prop := if strategy =? Z_HUFFMAN_ONLY then literal else fun _ => True.

(** What is kept between calls, by strategy and level. *)
Definition keeps (total : list Z) (s : deflate_state) (base cut : Z) : Prop :=
  if (t_strategy (d_trees s) =? Z_HUFFMAN_ONLY) || (t_strategy (d_trees s) =? Z_RLE) then all_coded s base cut
  else match func <$> aget configuration_table (t_level (d_trees s)) with
       | Some use_fast => fast_kept s base cut
       | Some use_slow => slow_kept total s base cut
       | _ => False
       end.

Lemma compressed_mono P lit total s0 base0 start flush (J J' : deflate_state -> Z -> Z -> Prop) s r :
  (forall base cut, tparams (d_trees s) = tparams (d_trees s0) -> J s base cut -> J' s base cut) -> compressed P lit total s0 base0 start flush J s r -> compressed P lit total s0 base0 start flush J' s r.
Proof.
  intros H. destruct r; [| |done|done].
  - intros (b & c & y & St & HJ & X). exists b, c, y. split; [done|]. split; [|done]. apply H; [|done]. apply (si_trees _ _ _ _ _ (st_since _ _ _ _ _ _ _ _ _ _ St)).
  - intros (b & St & HJ & X). exists b. split; [done|]. split; [|done]. apply H; [|done]. apply (si_trees _ _ _ _ _ (st_since _ _ _ _ _ _ _ _ _ _ St)).
Qed.

Theorem compress_with_ok lit total s0 base0 start s base cut syms flush :
  let P := class_of (t_strategy (d_trees s)) in
  roomy P lit total -> out_ok s0 -> check_ok (d_wrap s0) (z_adler (d_strm s0)) -> inv P lit total s0 base0 start s base cut syms -> keeps total s base cut ->
  exists s' r, compress_with s flush = Some (s', r) /\ compressed P lit total s0 base0 start flush (keeps total) s' r.
Proof.
  cbv zeta. intros Hroom Ho Hc I K. assert (Et := si_trees _ _ _ _ _ (st_since _ _ _ _ _ _ _ _ _ _ (iv_stopped _ _ _ _ _ _ _ _ _ _ I))). unfold compress_with. unfold keeps in K. unfold class_of in *.
  assert (Hk : forall J s', (if (t_strategy (d_trees s) =? Z_HUFFMAN_ONLY) || (t_strategy (d_trees s) =? Z_RLE) then J = all_coded else
    match func <$> aget configuration_table (t_level (d_trees s)) with Some use_fast => J = fast_kept | Some use_slow => J = slow_kept total | _ => False end) ->
    forall b c, tparams (d_trees s') = tparams (d_trees s0) -> J s' b c -> keeps total s' b c).
  { intros J s' HJ b c Ep HJs. unfold tparams in Ep, Et. rewrite <- Et in Ep. injection Ep as E1 E2 E3. unfold keeps. rewrite E1, E2. destruct (_ || _); [by subst|]. destruct (func <$> _) as [[]|]; by subst. }
  destruct (t_strategy (d_trees s) =? Z_HUFFMAN_ONLY) eqn:Eh; cbn [orb] in *.
  - unfold all_coded in K. subst cut. destruct (deflate_huff_ok literal lit total Hroom s0 base0 start Ho Hc s base syms flush) as (s' & r & E & H); [done|done|]. exists s', r. split; [done|]. revert H. apply compressed_mono. intros b c. by apply (Hk all_coded).
  - destruct (t_strategy (d_trees s) =? Z_RLE) eqn:Er; cbn [orb] in *.
    + unfold all_coded in K. subst cut. destruct (deflate_rle_ok (fun _ => True) lit total Hroom s0 base0 start Ho Hc s base syms flush) as (s' & r & E & H); [done|done|done|]. exists s', r. split; [done|]. revert H. apply compressed_mono. intros b c. by apply (Hk all_coded).
    + destruct (aget configuration_table (t_level (d_trees s))) as [c|] eqn:Ec; [|done]. cbn [fmap option_fmap option_map mbind option_bind] in *. destruct (func c); [done| |].
      * assert (cut = base + d_strstart s) as -> by apply K. destruct (deflate_fast_ok (fun _ => True) lit total Hroom (fun _ => Logic.I) s0 base0 start Ho Hc s base syms flush) as (s' & r & E & H); [done|done|]. exists s', r. split; [done|]. revert H. apply compressed_mono. intros b c'. by apply (Hk fast_kept).
      * destruct (deflate_slow_ok (fun _ => True) lit total Hroom (fun _ => Logic.I) s0 base0 start Ho Hc s base cut syms flush) as (s' & r & E & H); [done|done|]. exists s', r. split; [done|]. revert H. apply compressed_mono. intros b c'. by apply (Hk (slow_kept total)).
Qed.

(** ** Between two calls

    The caller changes the buffers of the stream; [idle s] is [s] without them. *)
Definition idle (s : deflate_state) : deflate_state :=
  s <| d_strm := (d_strm s) <| z_in := None |> <| z_next_in := 0 |> <| z_avail_in := 0 |> <| z_out := None |> <| z_next_out := 0 |> <| z_avail_out := 0 |> |>.

(** The buffers of a call: [inp] is what there is to read. *)
Record buffers (z : z_stream) (inp : list Z) : Prop := {
  bf_in : 0 <= z_next_in z /\ 0 <= z_avail_in z < 2 ^ 32 /\ z_avail_in z = Z.of_nat (length inp);
  bf_data : forall i, 0 <= i < z_avail_in z -> aget (in_buf z) (z_next_in z + i) = aget inp i;
  bf_bytes : Forall byte_ok inp;
  bf_out : 0 <= z_next_out z /\ 0 <= z_avail_out z < 2 ^ 32 /\ z_next_out z + z_avail_out z <= Z.of_nat (length (out_buf z)) }.

(** The state at the start of a call. *)
Definition entry (s : deflate_state) (z : z_stream) (flush : Z) : deflate_state :=
  s <| d_strm := z |> <| d_trees ::= upd t_data_type (fun _ => z_data_type z) |> <| d_last_flush := flush |>.

Lemma aget_take_app (l1 l2 : list Z) i : i < Z.of_nat (length l1) -> aget (l1 ++ l2) i = aget l1 i.
Proof. intros H. unfold aget. destruct (Z.leb_spec 0 i); [|done]. apply lookup_app_l. lia. Qed.
Lemma aget_app_right (l1 l2 : list Z) i : Z.of_nat (length l1) <= i -> aget (l1 ++ l2) i = aget l2 (i - Z.of_nat (length l1)).
Proof. intros H. unfold aget. destruct (Z.leb_spec 0 i), (Z.leb_spec 0 (i - Z.of_nat (length l1))); try lia. rewrite lookup_app_r by lia. f_equal. lia. Qed.

Lemma core_idle P lit total s base cut syms :
  core P lit total s base cut syms -> core P lit (take (Z.to_nat (pos s base)) total) (idle s) base cut syms.
Proof.
  unfold pos. intros [G [V1 V2 V3 V4 V5 V6 V7 V8] Hh Hc [O1 O2 O3 O4 O5 O6 O7] Hco Hcl Hb Hf Hd Hl Hv].
  assert (Et : forall n, 0 <= n <= base + d_strstart s + d_lookahead s -> take (Z.to_nat n) (take (Z.to_nat (base + d_strstart s + d_lookahead s)) total) = take (Z.to_nat n) total) by (intros n Hn; rewrite take_take; f_equal; lia).
  split; try done.
  - by apply (geometry_same s).
  - split; unfold idle; dsimp; try done.
    + intros i Hi. rewrite V3 by done. rewrite aget_take by lia. done.
    + rewrite length_take. lia.
    + intros i Hi. lia.
    + by apply Forall_take.
  - by apply (hashed_same s).
  - change (d_block_start (idle s)) with (d_block_start s). rewrite Et by lia. done.
  - change (d_block_start (idle s)) with (d_block_start s). rewrite !Et by lia. done.
Qed.

Lemma core_resume P lit data s base cut syms z inp flush :
  core P lit data (idle s) base cut syms -> buffers z inp -> z_adler z = z_adler (d_strm s) -> core P lit (data ++ inp) (entry s z flush) base cut syms.
Proof.
  intros [G [V1 V2 V3 V4 V5 V6 V7 V8] Hh Hc [O1 O2 O3 O4 O5 O6 O7] Hco Hcl Hb Hf Hd Hl Hv] [B1 B2 B3 B4] Ea. unfold idle in V4. dsimp in V4.
  change (d_strstart (idle s)) with (d_strstart s) in *. change (d_lookahead (idle s)) with (d_lookahead s) in *. change (d_block_start (idle s)) with (d_block_start s) in *.
  assert (Et : forall n, 0 <= n <= Z.of_nat (length data) -> take (Z.to_nat n) (data ++ inp) = take (Z.to_nat n) data) by (intros n Hn; rewrite take_app_le by lia; done).
  split; try done.
  - by apply (geometry_same (idle s)).
  - split; unfold entry; dsimp; try done.
    + intros i Hi. rewrite aget_take_app by lia. by apply V3.
    + rewrite length_app. lia.
    + intros i Hi. rewrite aget_app_right by lia. rewrite B2 by done. f_equal. lia.
    + by apply Forall_app.
  - by apply (hashed_same (idle s)).
  - change (check_ok (d_wrap s) (z_adler z)). rewrite Ea. exact Hc.
  - destruct Hco as [[] ? ? ? ? ? ? ? ? ? ?]. by split.
  - change (d_block_start (entry s z flush)) with (d_block_start s). rewrite Et by lia. done.
  - change (d_block_start (entry s z flush)) with (d_block_start s). rewrite !Et by lia. done.
Qed.

(** What is kept does not depend on the data still to come. *)
Lemma keeps_same total total' s s' base cut :
  hfields s' = hfields s -> (d_match_length s', d_match_start s', d_match_available s', d_prev_length s') = (d_match_length s, d_match_start s, d_match_available s, d_prev_length s) -> tparams (d_trees s') = tparams (d_trees s) ->
  (forall i, i < pos s base -> aget total' i = aget total i) -> keeps total s base cut -> keeps total' s' base cut.
Proof.
  intros Ef Em Ep Hd. injection Em as M1 M2 M3 M4. injection Ep as E1 E2 _. assert (E' := Ef). unfold hfields in E'. injection E' as _ _ _ _ _ _ _ _ _ _ _ _ F1 F2 _. unfold keeps. rewrite E1, E2. destruct (_ || _).
  - unfold all_coded. by rewrite F1.
  - destruct (func <$> _) as [[]|]; try done.
    + intros (K1 & K2 & K3 & K4). unfold fast_kept. rewrite F1, M1, M4. split; [done|]. split; [by apply (rolling_same s)|done].
    + intros (K1 & K2 & K3 & K4 & K5 & K6). unfold slow_kept. rewrite F1, M1, M2, M3. split; [done|]. split; [done|]. split; [done|]. split; [by apply (rolling_same s)|]. split; [done|].
      intros Hl. destruct (K6 Hl) as [Ka [[D1 D2] D3 D4]]. split; [done|]. split; rewrite ?F1, ?F2; [lia|lia|]. unfold pos in Hd. intros i Hi. rewrite !Hd by lia. by apply D4.
Qed.

(** ** Output *)
Definition delivered (z z' : z_stream) : list Z := bytes_at (out_buf z') (z_next_out z) (z_next_out z' - z_next_out z).

(** [b] is everything written to the stream: [out] was delivered and the rest waits. *)
Definition sent (out : list Z) (s : deflate_state) (b : bitstr) : Prop := Forall byte_ok out /\ bytes_bits out ·· obits s = b.

Lemma outputs_delivered s c s' : 0 <= z_next_out (d_strm s) -> outputs s c s' -> forall bs, z_next_out (d_strm s') = z_next_out (d_strm s) + Z.of_nat (length bs) ->
  (forall k, aget (out_buf (d_strm s')) k = if (z_next_out (d_strm s) <=? k) && (k <? z_next_out (d_strm s')) then aget bs (k - z_next_out (d_strm s)) else aget (out_buf (d_strm s)) k) -> delivered (d_strm s) (d_strm s') = bs.
Proof.
  intros Hn _ bs E1 E5. unfold delivered. replace (z_next_out (d_strm s') - z_next_out (d_strm s)) with (Z.of_nat (length bs)) by lia. replace bs with (bytes_at bs 0 (Z.of_nat (length bs))) at 2 by (unfold bytes_at; cbn [Z.to_nat drop]; rewrite Nat2Z.id; apply firstn_all).
  apply bytes_at_ext; [lia|lia|]. intros k Hk. rewrite E5. destruct (Z.leb_spec (z_next_out (d_strm s)) (z_next_out (d_strm s) + k)); [|lia]. destruct (Z.ltb_spec (z_next_out (d_strm s) + k) (z_next_out (d_strm s'))); [|lia]. cbn [andb]. f_equal. lia.
Qed.

Lemma outputs_sent s c s' out b :
  out_ok s -> outputs s c s' -> sent out s b -> sent (out ++ delivered (d_strm s) (d_strm s')) s' (b ·· c).
Proof.
  intros Ho (bs & Hb & E & E1 & E2 & E3 & E4 & E5) [Hout Hs]. assert (Bo := bytes_bits_ok _ Hout). assert (Oo := obits_ok _ Ho). assert (Bb := bytes_bits_ok _ Hb). destruct (oo_out _ Ho) as (Hn & _).
  assert (Ed : delivered (d_strm s) (d_strm s') = bs).
  { apply (outputs_delivered s c s'); try done. by exists bs. }
  rewrite Ed. split; [by apply Forall_app|]. rewrite bytes_bits_app, bcat_assoc, E by done. rewrite <- bcat_assoc by done. by rewrite Hs.
Qed.

Lemma core_flushed P lit total s s' base cut : core P lit total s base cut [] -> is_flushed s s' -> out_ok s' -> core P lit total s' base cut [].
Proof.
  intros [G [V1 V2 V3 V4 V5 V6 V7 V8] Hh Hc _ [K1 K2 K3 K4 K5 K6 K7 K8 K9 K10 K11] Hcl Hb Hf Hd Hl Hv] (out & next & avail & tot & w & p & -> & _ & Lw & Hw) Ho. split; try done.
  - by apply (geometry_same s).
  - by apply (hashed_same s).
  - split; try done. destruct K1 as [S1 S2 S3]. split; [intros desc; rewrite <- S1; by destruct desc|done|done]. unfold flushed. dsimp. rewrite Lw. exact K4.
Qed.

(** Bytes put into the buffer, when no bits wait in [bi_buf]. *)
Record put_ok (s : deflate_state) (l : list Z) (s' : deflate_state) : Prop := {
  po_frame : exists w, s' = s <| d_trees ::= upd t_w (fun _ => w) |> /\ length (w_buf w) = length (w_buf (t_w (d_trees s))) /\ writer_ok w;
  po_out : out_ok s';
  po_outputs : outputs s (bytes_bits l) s';
  po_pending : d_pending s' = d_pending s + Z.of_nat (length l);
  po_valid : w_bi_valid (t_w (d_trees s')) = 0 }.

Lemma dput_byte_ok s c :
  out_ok s -> d_pending_out s = 0 -> w_bi_valid (t_w (d_trees s)) = 0 -> d_pending s < Z.of_nat (length (w_buf (t_w (d_trees s)))) -> byte_ok c ->
  exists s', dput_byte s c = Some s' /\ put_ok s [c] s'.
Proof.
  intros [[W1 W2 W3 W4 W5] O2 O3 O4 O5 O6 O7] Hp Hv Hl Hc. unfold dput_byte, d_pending in *. set (w := t_w (d_trees s)) in *. rewrite put_byte_eq by lia. cbn [mbind option_bind]. unfold byte_ok in Hc.
  assert (Eu : u8 c = c) by (unfold u8; apply Z.mod_small; lia). rewrite Eu. set (w' := Writer _ _ _ _). assert (Ew : wbytes w' = wbytes w ++ [c]) by (apply wbytes_snoc; lia).
  assert (Ll : length (w_buf w') = length (w_buf w)) by apply length_insert. assert (Hw' : writer_ok w').
  { split; rewrite ?Ll; try done; [cbn; lia|]. rewrite Ew. apply Forall_app. split; [done|]. apply Forall_singleton. unfold byte_ok. lia. }
  assert (E0 : w_bi_buf w = 0) by (rewrite Hv in W4; change (2 ^ 0) with 1 in W4; lia).
  assert (Eb : wbits w' = wbits w ·· bytes_bits [c]).
  { assert (Hlw : Z.of_nat (length (wbytes w)) = w_pending w) by (apply length_wbytes; by split). unfold wbits, bytes_bits, bcat. cbn [fst snd]. rewrite Ew, le_snoc, Hlw. cbn [w' w_pending w_bi_buf w_bi_valid length le]. rewrite E0, Hv. f_equal; [|lia]. rewrite Z.add_0_r. ring. }
  eexists. split; [reflexivity|]. assert (Oo : out_ok (s <| d_trees ::= upd t_w (fun _ => w') |>)).
  { split; unfold d_pending; dsimp; rewrite ?Ll, ?Hp; try done; [| |unfold obytes, bytes_at; dsimp; rewrite Hp; apply (wk_bytes _ Hw')|by left].
    - rewrite Eb. cbn [bcat snd bytes_bits length]. unfold wbits. cbn [snd]. lia.
    - cbn. lia. }
  split.
  - by exists w'.
  - exact Oo.
  - exists []. cbn [length]. split; [done|]. rewrite !Z.add_0_r, Z.sub_0_r. split; [|split_and!; try done].
    + change (bytes_bits []) with bnil. rewrite bcat_nil_l. rewrite !obits_start by done. exact Eb.
    + intros k. dsimp. destruct (Z.leb_spec (z_next_out (d_strm s)) k), (Z.ltb_spec k (z_next_out (d_strm s))); (lia || done).
  - done.
  - exact Hv.
Qed.

Lemma dput_bytes_ok l : forall s,
  out_ok s -> d_pending_out s = 0 -> w_bi_valid (t_w (d_trees s)) = 0 -> d_pending s + Z.of_nat (length l) <= Z.of_nat (length (w_buf (t_w (d_trees s)))) -> Forall byte_ok l ->
  exists s', dput_bytes s l = Some s' /\ put_ok s l s'.
Proof.
  induction l as [|c l IH]; intros s Ho Hp Hv Hl Hb; cbn [dput_bytes length] in *.
  - exists s. split; [done|]. split; [|done|apply outputs_refl|cbn [length]; lia|done]. exists (t_w (d_trees s)). split; [by destruct s as [? ? ? ? ? ? ? ? ? ? ? ? ? ? ? ? ? ? ? ? ? ? ? ? ? ? ? ? ? ? ? ? ? ? ? []]|]. split; [done|apply (oo_writer _ Ho)].
  - apply Forall_cons_1 in Hb as [Hc Hb]. destruct (dput_byte_ok s c Ho Hp Hv ltac:(lia) Hc) as (s1 & -> & [(w & E1 & Lw & Hw) O1 U1 P1 V1]). cbn [mbind option_bind length] in *.
    assert (Lb : length (w_buf (t_w (d_trees s1))) = length (w_buf (t_w (d_trees s)))) by (by rewrite E1). assert (Hp1 : d_pending_out s1 = 0) by (by rewrite E1).
    destruct (IH s1 O1 Hp1 V1) as (s2 & -> & [(w2 & E2 & Lw2 & Hw2) O2 U2 P2 V2]); [lia|done|]. exists s2. split; [done|]. split; [|done| |cbn [length]; lia|done].
    + exists w2. rewrite E2, E1. split; [reflexivity|]. split; [by rewrite Lw2, Lb|done].
    + change (c :: l) with ([c] ++ l). rewrite bytes_bits_app. apply (outputs_trans s (bytes_bits [c]) s1); try done; apply bytes_bits_ok; [|done]. by apply List.Forall_cons.
Qed.
