(* ===== verification/DeflateCall.v ===== *)
(** A call of [deflate()] from the header to the trailer. *)
From S2P Require Import Prelude Record Bits Huffman Lz Fixed DeflateFormat InflateState TreesTables Trees.
From S2P Require Import BitWriter TreesCodes TreesEmit TreesBuild TreesLens TreesTree TreesRle TreesHeader TreesTally.
From S2P Require Import TreesFlush DeflateState Deflate DeflateOut DeflateHash DeflateWindow DeflateMatch DeflateBlocks DeflateLoop.
From S2P Require Import DeflateHuff DeflateFast DeflateSlow DeflateInit DeflateApi DeflateRun Adler32 Crc32.

(** ** The header *)
Definition level_flags (s : deflate_state) : Z :=
  if (t_strategy (d_trees s) >=? Z_HUFFMAN_ONLY) || (t_level (d_trees s) <? 2) then 0
  else if t_level (d_trees s) <? 6 then 1 else if t_level (d_trees s) =? 6 then 2 else 3.

(** The two bytes of RFC 1950: the method and the size of the window, then the level, the dictionary and a multiple of 31. *)
Lemma header_word s :
  9 <= d_w_bits s <= 15 ->
  exists check, 0 < check <= 31 /\ zlib_header_word s = 256 * (16 * (d_w_bits s - 8) + 8) + 64 * level_flags s + 32 * (if d_strstart s =? 0 then 0 else 1) + check /\ zlib_header_word s mod 31 = 0 /\ 0 <= level_flags s <= 3.
Proof.
  intros Hw. unfold zlib_header_word. fold (level_flags s). assert (Hl : level_flags s = 0 \/ level_flags s = 1 \/ level_flags s = 2 \/ level_flags s = 3) by (unfold level_flags; repeat case_match; auto).
  assert (Hb : d_w_bits s = 9 \/ d_w_bits s = 10 \/ d_w_bits s = 11 \/ d_w_bits s = 12 \/ d_w_bits s = 13 \/ d_w_bits s = 14 \/ d_w_bits s = 15) by lia.
  destruct (d_strstart s =? 0); cbn [negb];
    destruct Hl as [->|[->|[->| ->]]]; destruct Hb as [->|[->|[->|[->|[->|[->| ->]]]]]]; (match goal with |- context [31 - ?m] => exists (31 - m) end; vm_compute; split_and!; try done; split; intros; discriminate).
Qed.

(** The bytes of the header of a stream without a dictionary and without a header of the caller. *)
Definition header (s : deflate_state) : list Z :=
  if d_wrap s =? 1 then [zlib_header_word s / 256; zlib_header_word s mod 256]
  else if d_wrap s =? 2 then [31; 139; 8; 0; 0; 0; 0; 0; xfl s; OS_CODE] else [].

Lemma header_bytes s : 9 <= d_w_bits s <= 15 -> Forall byte_ok (header s).
Proof.
  intros Hw. unfold header. destruct (header_word s Hw) as (c & Hc & E & _ & Hl). assert (Hd : 0 <= (if d_strstart s =? 0 then 0 else 1) <= 1) by (destruct (d_strstart s =? 0); lia).
  destruct (d_wrap s =? 1).
  - repeat apply List.Forall_cons; [| |apply List.Forall_nil]; unfold byte_ok; [|apply Z.mod_pos_bound; lia]. split; [apply Z.div_pos; lia|apply Z.div_lt_upper_bound; lia].
  - destruct (d_wrap s =? 2); [|done]. repeat apply List.Forall_cons; try apply List.Forall_nil; unfold byte_ok, OS_CODE; try lia. unfold xfl. repeat case_match; lia.
Qed.

Definition header_start (s : deflate_state) : deflate_state := s <| d_status := BUSY_STATE |> <| d_strm ::= upd z_adler (fun _ => initial_check (d_wrap s)) |>.

Lemma putShortMSB_bytes s b : 0 <= b < 2 ^ 16 -> putShortMSB s b = dput_bytes s [b / 256; b mod 256].
Proof.
  intros Hb. unfold putShortMSB. cbn [dput_bytes]. assert (E1 : u8 (b ≫ 8) = b / 256) by (rewrite Z.shiftr_div_pow2 by lia; unfold u8; apply Z.mod_small; split; [apply Z.div_pos; lia|apply Z.div_lt_upper_bound; lia]).
  rewrite E1, land_0xff. destruct (dput_byte s (b / 256)); [|done]. cbn [mbind option_bind]. by destruct (dput_byte _ _).
Qed.

Lemma put_ok_status s l s' st z : put_ok (s <| d_status := st |>) l s' -> s' <| d_strm ::= upd z_adler (fun _ => z) |> <| d_status := st |> = s' <| d_strm ::= upd z_adler (fun _ => z) |>.
Proof. intros [(w & -> & _) _ _ _ _]. done. Qed.

(** The check value does not matter for the output. *)
Lemma put_ok_adler s l s' z : put_ok s l s' -> put_ok (s <| d_strm ::= upd z_adler (fun _ => z) |>) l (s' <| d_strm ::= upd z_adler (fun _ => z) |>).
Proof.
  intros [(w & -> & Lw & Hw) [O1 O2 O3 O4 O5 O6 O7] U P V]. split; try done. by exists w.
Qed.

Lemma after_header s : d_status s = BUSY_STATE ->
  (s ← extra_state s; s ← string_state s NAME_STATE COMMENT_STATE h_name true; s ← string_state s COMMENT_STATE HCRC_STATE h_comment false; hcrc_state s) = Some s.
Proof.
  intros E. unfold extra_state, string_state, hcrc_state. rewrite E. change (BUSY_STATE =? EXTRA_STATE) with false. cbn [mbind option_bind]. rewrite E. change (BUSY_STATE =? NAME_STATE) with false. cbn [mbind option_bind]. rewrite E.
  change (BUSY_STATE =? COMMENT_STATE) with false. cbn [mbind option_bind]. rewrite E. done.
Qed.
Lemma write_header_busy s : d_status s = BUSY_STATE -> write_header s = Some s.
Proof. intros E. unfold write_header. rewrite E. change (BUSY_STATE =? INIT_STATE) with false. cbn [mbind option_bind]. by apply after_header. Qed.

Lemma write_header_finish s : d_status s = FINISH_STATE -> write_header s = Some s.
Proof.
  intros E. unfold write_header. rewrite E. change (FINISH_STATE =? INIT_STATE) with false. cbn [mbind option_bind]. unfold extra_state, string_state, hcrc_state. rewrite E. change (FINISH_STATE =? EXTRA_STATE) with false. cbn [mbind option_bind].
  rewrite E. change (FINISH_STATE =? NAME_STATE) with false. cbn [mbind option_bind]. rewrite E. change (FINISH_STATE =? COMMENT_STATE) with false. cbn [mbind option_bind]. rewrite E. done.
Qed.

Lemma out_ok_status s st : out_ok s -> out_ok (s <| d_status := st |>).
Proof. intros []. by split. Qed.

Lemma write_header_ok s :
  out_ok s -> d_status s = INIT_STATE -> d_wrap s = 1 \/ d_wrap s = 2 -> d_gzhead s = None -> d_strstart s = 0 -> d_pending s = 0 -> d_pending_out s = 0 -> w_bi_valid (t_w (d_trees s)) = 0 ->
  512 <= Z.of_nat (length (w_buf (t_w (d_trees s)))) -> 9 <= d_w_bits s <= 15 ->
  exists s', write_header s = Some s' /\ put_ok (header_start s) (header s) s'.
Proof.
  intros Ho Hs Hw Hg Hst Hp Hpo Hv Hl Hb. assert (Hbytes := header_bytes s Hb). unfold write_header, header, header_start in *. rewrite Hs. change (INIT_STATE =? INIT_STATE) with true. cbv iota. destruct Hw as [Hw|Hw]; rewrite Hw in *; cbn [Z.eqb Pos.eqb] in *.
  - destruct (header_word s Hb) as (c & Hc & E & _ & Hlf). rewrite Hst in E. cbn [Z.eqb] in E. unfold zlib_header. rewrite putShortMSB_bytes by (rewrite E; lia).
    destruct (dput_bytes_ok [zlib_header_word s / 256; zlib_header_word s mod 256] (s <| d_status := BUSY_STATE |>)) as (s1 & -> & K); try done; [by apply out_ok_status|change (d_pending (s <| d_status := BUSY_STATE |>)) with (d_pending s); rewrite Hp; dsimp; cbn [length]; lia|].
    cbn [mbind option_bind]. assert (F : d_strstart s1 = d_strstart s /\ d_status s1 = BUSY_STATE) by (destruct (po_frame _ _ _ K) as (w & -> & _); done). destruct F as [F1 F2]. rewrite F1, Hst. cbn [Z.eqb negb mbind option_bind].
    apply (put_ok_adler _ _ _ 1) in K. eexists. split; [apply after_header; exact F2|]. exact K.
  - unfold gzip_header. change (dput_bytes (s <| d_strm ::= upd z_adler (fun _ => crc32 0 None) |>) [31; 139; 8]) with (dput_bytes (s <| d_strm ::= upd z_adler (fun _ => 0) |>) [31; 139; 8]).
    set (s0 := s <| d_strm ::= upd z_adler (fun _ => 0) |>). assert (O0 : out_ok s0) by (destruct Ho; by split).
    destruct (dput_bytes_ok [31; 139; 8] s0) as (s1 & -> & K1); try done; try (repeat apply List.Forall_cons; try apply List.Forall_nil; unfold byte_ok; lia); [change (d_pending s0) with (d_pending s); rewrite Hp; change (d_trees s0) with (d_trees s); cbn [length]; lia|].
    cbn [mbind option_bind]. destruct K1 as [(w1 & Es1 & Lw1 & Hw1) O1 U1 P1 V1]. assert (F : d_gzhead s1 = None /\ xfl s1 = xfl s /\ d_pending_out s1 = 0) by (rewrite Es1; done). destruct F as (-> & Ex & Ep1). rewrite Ex.
    apply (List.Forall_app _ [31; 139; 8]) in Hbytes as [_ Hby]. assert (Lb1 : length (w_buf (t_w (d_trees s1))) = length (w_buf (t_w (d_trees s)))) by (rewrite Es1; exact Lw1).
    destruct (dput_bytes_ok [0; 0; 0; 0; 0; xfl s; OS_CODE] s1) as (s2 & -> & [(w2 & Es2 & Lw2 & Hw2) O2 U2 P2 V2]); try done; [rewrite P1, Lb1; change (d_pending s0) with (d_pending s); rewrite Hp; cbn [length]; lia|].
    cbn [mbind option_bind]. eexists. split; [by apply after_header|]. split.
    + exists w2. rewrite Es2, Es1. split; [reflexivity|]. split; [by rewrite Lw2, Lb1|done].
    + by apply out_ok_status.
    + change [31; 139; 8; 0; 0; 0; 0; 0; xfl s; OS_CODE] with ([31; 139; 8] ++ [0; 0; 0; 0; 0; xfl s; OS_CODE]). rewrite bytes_bits_app.
      change (outputs s0 (bytes_bits [31; 139; 8] ·· bytes_bits [0; 0; 0; 0; 0; xfl s; OS_CODE]) s2). apply (outputs_trans s0 _ s1); try done; by apply bytes_bits_ok.
    + change (d_pending s2 = d_pending s0 + Z.of_nat 10). rewrite P2, P1. cbn [length]. lia.
    + exact V2.
Qed.

(** ** A stream that is being compressed

    [total] is all data so far with the input of the call; [out] was delivered, the rest of the blocks [b] waits. *)
Record running (hdr : list Z) (s : deflate_state) (total out : list Z) (base cut : Z) (syms : list sym) (b : bitstr) : Prop := {
  ru_core : core (class_of (t_strategy (d_trees s))) (t_lit_bufsize (d_trees s)) total s base cut syms;
  ru_keeps : keeps total s base cut;
  ru_room : Z.of_nat (length syms) + 1 < t_lit_bufsize (d_trees s);
  ru_settled : syms = [] \/ drained s;
  ru_low : low s;
  ru_sent : sent out s (bytes_bits hdr ·· b);
  ru_hdr : Forall byte_ok hdr;
  ru_reads : reads_all 0 b [] (take (Z.to_nat (base + d_block_start s)) total);
  ru_sum : z_adler (d_strm s) = check_spec (d_wrap s) (initial_check (d_wrap s)) (take (Z.to_nat (pos s base)) total);
  ru_count : u32 (z_total_in (d_strm s)) = u32 (pos s base);
  ru_status : d_status s = BUSY_STATE;
  ru_wrap : 0 <= d_wrap s <= 2 }.

(** The configuration stays. *)
Definition fixed_of (s : deflate_state) := (d_wrap s, t_strategy (d_trees s), t_lit_bufsize (d_trees s), t_level (d_trees s), d_w_bits s).

Lemma running_pos hdr s total out base cut syms b : running hdr s total out base cut syms b -> 0 <= pos s base /\ pos s base + z_avail_in (d_strm s) = Z.of_nat (length total).
Proof.
  intros R. assert (V := co_view _ _ _ _ _ _ _ (ru_core _ _ _ _ _ _ _ _ R)). destruct (vw_avail _ _ _ V) as (_ & _ & E). destruct (vw_pos _ _ _ V) as (P1 & P2 & _). pose proof (vw_base _ _ _ V). unfold pos. lia.
Qed.

Lemma running_idle hdr s total out base cut syms b : running hdr s total out base cut syms b -> running hdr (idle s) (take (Z.to_nat (pos s base)) total) out base cut syms b.
Proof.
  intros R. destruct (running_pos _ _ _ _ _ _ _ _ R) as [Hp Hl]. destruct R as [C K Rm St Lo Se Hh Re Su Co Sts Wr]. destruct (vw_avail _ _ _ (co_view _ _ _ _ _ _ _ C)) as (_ & Ha & _). destruct (co_block _ _ _ _ _ _ _ C) as [B1 B2]. fold (pos s base) in B2.
  split; try done.
  - by apply core_idle.
  - eapply keeps_same; [..|exact K]; try done. intros i Hi. unfold aget. destruct (Z.leb_spec 0 i); [|done]. apply lookup_take_lt. lia.
  - change (d_block_start (idle s)) with (d_block_start s). rewrite take_take. replace (Z.to_nat (base + d_block_start s) `min` Z.to_nat (pos s base))%nat with (Z.to_nat (base + d_block_start s)) by lia. done.
  - change (pos (idle s) base) with (pos s base). rewrite take_take, Nat.min_id. exact Su.
Qed.

(** The caller keeps the counts and the check value. *)
Definition counts (z : z_stream) : Z * Z * Z := (z_total_in z, z_total_out z, z_adler z).

Lemma running_resume hdr s data out base cut syms b z inp flush :
  running hdr (idle s) data out base cut syms b -> buffers z inp -> counts z = counts (d_strm s) -> running hdr (entry s z flush) (data ++ inp) out base cut syms b.
Proof.
  intros R B Ec. destruct (running_pos _ _ _ _ _ _ _ _ R) as [Hp Hl]. destruct R as [C K Rm St Lo Se Hh Re Su Co Sts Wr]. injection Ec as E1 E2 E3. change (pos (idle s) base) with (pos s base) in *.
  change (z_avail_in (d_strm (idle s))) with 0 in Hl. destruct (co_block _ _ _ _ _ _ _ C) as [B1 B2]. change (base + d_strstart (idle s) + d_lookahead (idle s)) with (pos s base) in B2.
  assert (Et : forall n, 0 <= n <= Z.of_nat (length data) -> take (Z.to_nat n) (data ++ inp) = take (Z.to_nat n) data) by (intros n Hn; rewrite take_app_le by lia; done).
  split; try done.
  - exact (core_resume _ _ _ _ _ _ _ z inp flush C B E3).
  - eapply keeps_same; [..|exact K]; try done. change (pos (idle s) base) with (pos s base). intros i Hi. apply aget_take_app. lia.
  - change (d_block_start (idle s)) with (d_block_start s) in *. change (d_block_start (entry s z flush)) with (d_block_start s). rewrite Et by lia. exact Re.
  - change (pos (entry s z flush) base) with (pos s base). rewrite Et by lia. change (z_adler z = check_spec (d_wrap s) (initial_check (d_wrap s)) (take (Z.to_nat (pos s base)) data)). rewrite E3. exact Su.
  - change (u32 (z_total_in z) = u32 (pos s base)). rewrite E1. exact Co.
Qed.

(** Output that waits is delivered. *)
Lemma running_flush hdr s s' total out base cut b :
  running hdr s total out base cut [] b -> is_flushed s s' -> out_ok s' -> low s' -> outputs s bnil s' -> running hdr s' total (out ++ delivered (d_strm s) (d_strm s')) base cut [] b.
Proof.
  intros [C K Rm St Lo Se Hh Re Su Co Sts Wr] Hf Ho Hlo Hu. assert (C' := core_flushed _ _ _ _ _ _ _ C Hf Ho). assert (Se' := outputs_sent _ _ _ _ _ (co_out _ _ _ _ _ _ _ C) Hu Se). rewrite bcat_nil_r in Se'.
  destruct Hf as (o & next & avail & tot & w & p & -> & _ & Lw & Hw). split; try done.
  - by apply (keeps_same total total s).
  - by left.
Qed.

(** Fields that do not matter. *)
Lemma running_forget hdr s total out base cut syms b n : running hdr s total out base cut syms b -> running hdr (s <| d_last_flush := n |>) total out base cut syms b.
Proof.
  intros [[G [V1 V2 V3 V4 V5 V6 V7 V8] Hh Hc [] Hco Hcl Hb Hf Hd Hl Hv] K Rm St Lo Se Hhd Re Su Co Sts Wr]. split; try done.
  - split; try done; [by apply (geometry_same s)|by apply (hashed_same s)].
  - by apply (keeps_same total total s).
Qed.
Lemma running_msg hdr s total out base cut syms b err : running hdr s total out base cut syms b -> running hdr (with_msg s err) total out base cut syms b.
Proof.
  intros [[G [V1 V2 V3 V4 V5 V6 V7 V8] Hh Hc [] Hco Hcl Hb Hf Hd Hl Hv] K Rm St Lo Se Hhd Re Su Co Sts Wr]. split; try done.
  - split; try done; [by apply (geometry_same s)|by apply (hashed_same s)].
  - by apply (keeps_same total total s).
Qed.

Lemma delivered_refl z z' : z_next_out z' = z_next_out z -> delivered z z' = [].
Proof. intros E. unfold delivered. rewrite E, Z.sub_diag. done. Qed.
Lemma delivered_trans s a s1 b s2 : 0 <= z_next_out (d_strm s) -> outputs s a s1 -> outputs s1 b s2 -> delivered (d_strm s) (d_strm s2) = delivered (d_strm s) (d_strm s1) ++ delivered (d_strm s1) (d_strm s2).
Proof.
  intros H0 (x & _ & _ & X1 & _) (y & _ & _ & Y1 & _ & _ & Y4 & Y5). unfold delivered.
  replace (z_next_out (d_strm s2) - z_next_out (d_strm s)) with ((z_next_out (d_strm s1) - z_next_out (d_strm s)) + (z_next_out (d_strm s2) - z_next_out (d_strm s1))) by lia. rewrite bytes_at_cat by lia. f_equal; [|f_equal; lia].
  apply bytes_at_ext; [lia|lia|]. intros k Hk. rewrite Y5. destruct (Z.leb_spec (z_next_out (d_strm s1)) (z_next_out (d_strm s) + k)); [lia|]. done.
Qed.

(** ** The start of a call *)
Lemma flush_first_ok hdr s total out base cut syms b flush old :
  running hdr s total out base cut syms b ->
  exists s1 r, flush_first s flush old = Some (s1, r) /\ running hdr s1 total (out ++ delivered (d_strm s) (d_strm s1)) base cut syms b /\ outputs s bnil s1 /\ fixed_of s1 = fixed_of s /\ z_avail_in (d_strm s1) = z_avail_in (d_strm s) /\ d_block_start s1 = d_block_start s /\
    (is_Some (z_out (d_strm s)) -> is_Some (z_out (d_strm s1))) /\
    match r with
    | Some ret => ret = Z_OK /\ z_avail_out (d_strm s1) = 0 \/ ret = Z_BUF_ERROR /\ z_avail_in (d_strm s) = 0 /\ flush <> Z_FINISH /\ RANK flush <= RANK old /\ s1 = with_msg s Z_BUF_ERROR
    | None => drained s1 /\ (z_avail_out (d_strm s) = z_avail_out (d_strm s1) \/ z_avail_out (d_strm s1) <> 0)
    end.
Proof.
  intros R. unfold flush_first. rewrite (ru_status _ _ _ _ _ _ _ _ R). assert (Ho := co_out _ _ _ _ _ _ _ (ru_core _ _ _ _ _ _ _ _ R)). change (BUSY_STATE =? FINISH_STATE) with false. cbn [andb].
  destruct (Z.eqb_spec (d_pending s) 0) as [E0|Hne]; cbn [negb].
  - assert (D : drained s) by (split; [done|]; split; [by apply (oo_zero _ Ho)|apply (ru_low _ _ _ _ _ _ _ _ R)]).
    destruct ((z_avail_in (d_strm s) =? 0) && (RANK flush <=? RANK old) && negb (flush =? Z_FINISH)) eqn:Ec.
    + rewrite !andb_true_iff, negb_true_iff, Z.eqb_eq, Z.leb_le, Z.eqb_neq in Ec. destruct Ec as [[E1 E2] E3]. exists (with_msg s Z_BUF_ERROR), (Some Z_BUF_ERROR). split; [done|]. rewrite (delivered_refl (d_strm s)) by done. rewrite app_nil_r.
      split; [by apply running_msg|]. split; [exact (outputs_refl s)|]. split; [done|]. split; [done|]. split; [done|]. split; [done|]. by right.
    + exists s, None. split; [done|]. rewrite (delivered_refl (d_strm s)) by done. rewrite app_nil_r. split; [done|]. split; [apply outputs_refl|]. split; [done|]. split; [done|]. split; [done|]. split; [done|]. split; [done|by left].
  - destruct (flush_pending_ok s Ho) as (s1 & -> & O1 & U1 & F1 & L1 & Hd). cbn [mbind option_bind].
    destruct (ru_settled _ _ _ _ _ _ _ _ R) as [->|(D1 & _)]; [|done]. assert (R1 := running_flush _ _ _ _ _ _ _ _ R F1 O1 L1 U1).
    assert (Fx : fixed_of s1 = fixed_of s /\ z_avail_in (d_strm s1) = z_avail_in (d_strm s) /\ d_block_start s1 = d_block_start s /\ (is_Some (z_out (d_strm s)) -> is_Some (z_out (d_strm s1)))) by (destruct F1 as (o & n & a & t & w & p & -> & Hs & _); done). destruct Fx as (Fx & Fa & Fb & Fo).
    rewrite (ru_status _ _ _ _ _ _ _ _ R1). change (BUSY_STATE =? FINISH_STATE) with false. cbn [andb]. destruct (Z.eqb_spec (z_avail_out (d_strm s1)) 0) as [E1|Hn1].
    + exists (s1 <| d_last_flush := -1 |>), (Some Z_OK). split; [done|]. change (d_strm (s1 <| d_last_flush := -1 |>)) with (d_strm s1). split; [by apply running_forget|]. split; [exact U1|]. split; [exact Fx|]. split; [done|]. split; [done|]. split; [done|]. left. done.
    + exists s1, None. split; [done|]. split; [done|]. split; [exact U1|]. split; [exact Fx|]. split; [done|]. split; [done|]. split; [done|]. destruct Hd as [|D]; [done|]. split; [done|by right].
Qed.

(** What happened from [s] to [s1]: output, and the same configuration. *)
Record steps (s : deflate_state) (c : bitstr) (s1 : deflate_state) : Prop := {
  sp_outputs : outputs s c s1;
  sp_bits : bits_ok c;
  sp_fixed : fixed_of s1 = fixed_of s;
  sp_null : is_Some (z_out (d_strm s)) -> is_Some (z_out (d_strm s1));
  sp_input : z_avail_in (d_strm s1) <= z_avail_in (d_strm s) }.

Lemma steps_refl s : steps s bnil s.
Proof. split; try done. apply outputs_refl. Qed.
Lemma steps_trans s a s1 b s2 : out_ok s -> out_ok s1 -> out_ok s2 -> steps s a s1 -> steps s1 b s2 -> steps s (a ·· b) s2 /\ delivered (d_strm s) (d_strm s2) = delivered (d_strm s) (d_strm s1) ++ delivered (d_strm s1) (d_strm s2).
Proof.
  intros H0 H1 H2 [U1 B1 F1 N1 I1] [U2 B2 F2 N2 I2]. split; [split; [by apply (outputs_trans s a s1)|by apply bits_ok_cat|congruence|auto|lia]|]. apply (delivered_trans s a s1 b s2); try done. apply (oo_out _ H0).
Qed.
Lemma flushed_steps s s' : is_flushed s s' -> outputs s bnil s' -> steps s bnil s'.
Proof. intros (o & n & a & t & w & p & -> & Hs & _) U. by split. Qed.

(** ** After the blocks of a call *)
Lemma reads_all_mod at1 at2 b hist hist' : at1 mod 8 = at2 mod 8 -> reads_all at1 b hist hist' -> reads_all at2 b hist hist'.
Proof. intros E [H1 H2]. split; [done|]. intros rest. by apply (blocks_read_mod at1). Qed.
Lemma reads_all_app at_ b hist hist1 c hist2 : reads_all at_ b hist hist1 -> reads_all (at_ + b.2) c hist1 hist2 -> reads_all at_ (b ·· c) hist hist2.
Proof.
  intros [Kb Hb] [Kc Hc]. split; [by apply bits_ok_cat|]. intros rest. rewrite then_rest_cat by done. cbn [bcat snd]. apply (blocks_read_app _ _ _ _ hist1); [apply Hb|]. rewrite then_rest_div by done. apply Hc.
Qed.

(** The bits that wait end where the blocks do. *)
Lemma sent_bits out s hdr b : sent out s (bytes_bits hdr ·· b) -> b.2 mod 8 = (obits s).2 mod 8.
Proof. intros [_ E]. apply (f_equal snd) in E. cbn [bcat bytes_bits snd] in E. dlia. Qed.

Lemma sum_more total wrap a i j :
  Forall byte_ok total -> check_ok wrap a -> 0 <= i <= j -> j <= Z.of_nat (length total) ->
  check_spec wrap (check_spec wrap a (take (Z.to_nat i) total)) (bytes_at total i (j - i)) = check_spec wrap a (take (Z.to_nat j) total).
Proof.
  intros Hb Hc Hij Hj. rewrite <- check_spec_app; try done; [|by apply Forall_take|by apply bytes_at_bytes]. f_equal. symmetry. by apply take_bytes.
Qed.

Lemma initial_check_ok wrap : check_ok wrap (initial_check wrap).
Proof. unfold initial_check. split; intros ->; cbn; [done|]. unfold word_ok. lia. Qed.

Lemma since_more total e base s' base' :
  view e base total -> view s' base' total -> since total e base s' base' -> z_adler (d_strm e) = check_spec (d_wrap e) (initial_check (d_wrap e)) (take (Z.to_nat (pos e base)) total) -> u32 (z_total_in (d_strm e)) = u32 (pos e base) ->
  z_adler (d_strm s') = check_spec (d_wrap s') (initial_check (d_wrap s')) (take (Z.to_nat (pos s' base')) total) /\ u32 (z_total_in (d_strm s')) = u32 (pos s' base').
Proof.
  intros V V' [S1 S2 S3 S4 S5 S6] Hs Hc. injection S1 as _ Ew _ _ _ _ _ _ _. destruct (vw_avail _ _ _ V') as (_ & Ha & El). unfold pos in *. split.
  - rewrite S4, Hs, Ew. apply sum_more; [apply (vw_bytes _ _ _ V)|apply initial_check_ok|lia|lia].
  - rewrite S5. unfold u32 in *. rewrite <- Z.add_mod_idemp_l, Hc, Z.add_mod_idemp_l by lia. f_equal. lia.
Qed.

Lemma since_input total e base s' base' : view e base total -> view s' base' total -> since total e base s' base' -> z_avail_in (d_strm s') <= z_avail_in (d_strm e).
Proof. intros V V' Si. destruct (vw_avail _ _ _ V) as (_ & _ & E1). destruct (vw_avail _ _ _ V') as (_ & _ & E2). pose proof (si_pos _ _ _ _ _ Si) as Hp. unfold pos in Hp. lia. Qed.

(** The bytes of the input that are in no block yet, when [n] are to be read, and the bits that the blocks for them take at most. *)
Definition uncoded (s : deflate_state) (n : Z) : Z := d_strstart s + d_lookahead s - d_block_start s + n.
Definition blocks_left (s : deflate_state) (n : Z) : Z := if d_status s =? FINISH_STATE then 0 else block_max (t_lit_bufsize (d_trees s)) * (uncoded s n + 1).

Lemma running_uncoded hdr s total out base cut syms b : running hdr s total out base cut syms b -> uncoded s (z_avail_in (d_strm s)) = Z.of_nat (length total) - (base + d_block_start s) /\ 0 <= uncoded s (z_avail_in (d_strm s)).
Proof.
  intros R. assert (C := ru_core _ _ _ _ _ _ _ _ R). destruct (co_block _ _ _ _ _ _ _ C) as [B1 B2]. destruct (vw_avail _ _ _ (co_view _ _ _ _ _ _ _ C)) as (_ & Ha & El). unfold uncoded. lia.
Qed.
Lemma blocks_left_busy s n : d_status s = BUSY_STATE -> blocks_left s n = block_max (t_lit_bufsize (d_trees s)) * (uncoded s n + 1).
Proof. intros E. unfold blocks_left. by rewrite E. Qed.

Lemma running_stopped hdr e total out base cut syms b s' base' cut' syms' :
  let P := class_of (t_strategy (d_trees e)) in let lit := t_lit_bufsize (d_trees e) in
  running hdr e total out base cut syms b -> stopped P lit total e base (base + d_block_start e) s' base' cut' syms' -> keeps total s' base' cut' -> Z.of_nat (length syms') + 1 < lit ->
  syms' = [] \/ drained s' -> low s' ->
  exists c, steps e c s' /\ running hdr s' total (out ++ delivered (d_strm e) (d_strm s')) base' cut' syms' (b ·· c) /\ c.2 <= block_max lit * (base' + d_block_start s' - (base + d_block_start e)).
Proof.
  cbv zeta. intros [C K Rm St Lo Se Hh Re Su Co Sts Wr] [C' Si (c & U & Rd & Hmax)] K' Rm' St' Lo'. exists c. assert (Se' := outputs_sent _ _ _ _ _ (co_out _ _ _ _ _ _ _ C) U Se).
  assert (Tp := si_trees _ _ _ _ _ Si). unfold tparams in Tp. injection Tp as T1 T2 T3. assert (Cf := si_cfg _ _ _ _ _ Si). unfold cfg in Cf. injection Cf as F1 F2 F3 F4 F5 F6 F7 F8 F9.
  destruct (since_more total e base s' base' (co_view _ _ _ _ _ _ _ C) (co_view _ _ _ _ _ _ _ C') Si Su Co) as [Su' Co'].
  split; [split; [done|apply Rd|unfold fixed_of; congruence|apply (si_null _ _ _ _ _ Si)|by apply (since_input total e base s' base'); [apply (co_view _ _ _ _ _ _ _ C)|apply (co_view _ _ _ _ _ _ _ C')|]]|]. split; [|exact Hmax]. split; rewrite ?T2, ?T3; try done; try congruence.
  - rewrite bcat_assoc in Se'; [done|by apply bytes_bits_ok|apply Re].
  - apply (reads_all_app _ _ _ (take (Z.to_nat (base + d_block_start e)) total)); [done|]. apply (reads_all_mod (obits e).2); [|done]. rewrite Z.add_0_l. symmetry. by apply (sent_bits out e hdr).
Qed.

(** ** The end of the data *)
Definition whole (b : bitstr) (data : list Z) : Prop := bits_ok b /\ b.2 mod 8 = 0 /\ forall rest, stream_read (then_rest b rest) b.2 data.

Lemma whole_blocks b hist c data : reads_all 0 b [] hist -> reads_as b.2 c 1 hist data -> whole (b ·· (c ·· end_bits 1 (b.2 + c.2))) data.
Proof.
  intros [Kb Hb] [Kc Hc]. set (d := end_bits 1 (b.2 + c.2)). assert (Kd : bits_ok d) by apply end_bits_ok. assert (Ed : d.2 = (- (b.2 + c.2)) mod 8) by done. split; [by repeat apply bits_ok_cat|]. cbn [bcat snd]. split; [rewrite Ed; dlia|].
  intros rest. exists b.2, hist, c.2. rewrite !then_rest_cat by (done || by apply bits_ok_cat). rewrite then_rest_div by done. split; [apply Hb|]. split; [exact (Hc _)|]. rewrite Ed. lia.
Qed.

(** All blocks are written; the trailer is not. *)
Record ended (hdr : list Z) (s : deflate_state) (data out : list Z) (b : bitstr) : Prop := {
  ed_out : out_ok s;
  ed_low : low s;
  ed_sent : sent out s (bytes_bits hdr ·· b);
  ed_hdr : Forall byte_ok hdr;
  ed_whole : whole b data;
  ed_sum : z_adler (d_strm s) = check_spec (d_wrap s) (initial_check (d_wrap s)) data;
  ed_data : Forall byte_ok data;
  ed_count : u32 (z_total_in (d_strm s)) = u32 (Z.of_nat (length data));
  ed_wrap : 0 <= d_wrap s <= 2;
  ed_status : d_status s = FINISH_STATE;
  ed_buf : 512 <= Z.of_nat (length (w_buf (t_w (d_trees s))));
  ed_rest : d_lookahead s = 0 }.

Lemma finished_ended hdr e total out base cut syms b s' base' :
  let P := class_of (t_strategy (d_trees e)) in let lit := t_lit_bufsize (d_trees e) in
  running hdr e total out base cut syms b -> finished P lit total e base (base + d_block_start e) s' base' -> base' + d_strstart s' = Z.of_nat (length total) -> low s' ->
  exists c, steps e c s' /\ ended hdr (s' <| d_status := FINISH_STATE |>) total (out ++ delivered (d_strm e) (d_strm s')) (b ·· c) /\ z_avail_in (d_strm s') = 0 /\ c.2 <= block_max lit * (Z.of_nat (length total) - (base + d_block_start e) + 1).
Proof.
  cbv zeta. intros [C K Rm St Lo Se Hh Re Su Co Sts Wr] (C' & Si & x & y & hist & Rx & Ry & U & Hmax) Hend Lo'. assert (Em := sent_bits _ _ _ _ Se). assert (V' := co_view _ _ _ _ _ _ _ C'). destruct (vw_avail _ _ _ V') as (_ & Ha & El). destruct (vw_pos _ _ _ V') as (_ & Hl & _).
  eexists. assert (Se' := outputs_sent _ _ _ _ _ (co_out _ _ _ _ _ _ _ C) U Se). rewrite bcat_assoc in Se'; [|by apply bytes_bits_ok|apply Re].
  assert (Tp := si_trees _ _ _ _ _ Si). unfold tparams in Tp. injection Tp as T1 T2 T3. assert (Cf := si_cfg _ _ _ _ _ Si). unfold cfg in Cf. injection Cf as F1 F2 F3 F4 F5 F6 F7 F8 F9.
  destruct (since_more total e base s' base' (co_view _ _ _ _ _ _ _ C) V' Si Su Co) as [Su' Co']. assert (Hpos : pos s' base' = Z.of_nat (length total)) by (unfold pos; lia). rewrite Hpos, Nat2Z.id, firstn_all in Su'. rewrite Hpos in Co'.
  split; [split; [exact U|repeat apply bits_ok_cat; [apply Rx|apply Ry|apply end_bits_ok]|unfold fixed_of; congruence|apply (si_null _ _ _ _ _ Si)|apply (since_input total e base s' base'); [apply (co_view _ _ _ _ _ _ _ C)|exact V'|exact Si]]|]. split; [|split; [lia|rewrite <- Hend; lia]]. assert (Hco := co_collected _ _ _ _ _ _ _ C'). split; try done.
  - apply out_ok_status. apply (co_out _ _ _ _ _ _ _ C').
  - rewrite <- bcat_assoc by (apply Re || apply Rx). assert (Eb : end_bits 1 ((obits e).2 + x.2 + y.2) = end_bits 1 ((b ·· x).2 + y.2)) by (apply end_bits_mod; cbn [bcat snd]; dlia). rewrite Eb. apply (whole_blocks _ hist).
    + apply (reads_all_app _ _ _ (take (Z.to_nat (base + d_block_start e)) total)); [done|]. apply (reads_all_mod (obits e).2); [|done]. rewrite Z.add_0_l. by symmetry.
    + rewrite Hend, Nat2Z.id, firstn_all in Ry. apply (reads_as_mod ((obits e).2 + x.2)); [|done]. cbn [bcat snd]. dlia.
  - apply (vw_bytes _ _ _ V').
  - dsimp. by rewrite F2.
  - dsimp. rewrite (bs_buf _ _ Hco). pose proof (bs_lit _ _ Hco). lia.
  - dsimp. lia.
Qed.

(** ** The trailer *)
Definition trailer (wrap : Z) (data : list Z) : list Z :=
  if wrap =? 1 then be32 (check_spec 1 1 data) else if wrap =? 2 then le32 (check_spec 2 0 data) ++ le32 (Z.of_nat (length data)) else [].

Lemma le32_shifts v w : u32 v = u32 w -> [v .& 0xff; (v ≫ 8) .& 0xff; (v ≫ 16) .& 0xff; (v ≫ 24) .& 0xff] = le32 w.
Proof.
  assert (Hb : forall x k, 0 <= k <= 24 -> x / 2 ^ k mod 256 = u32 x / 2 ^ k mod 256).
  { intros x k Hk. unfold u32. set (q := x / 2 ^ 32). set (r := x mod 2 ^ 32). assert (Ex : x = r + (2 ^ (24 - k) * q * 256) * 2 ^ k).
    { replace ((2 ^ (24 - k) * q * 256) * 2 ^ k) with ((2 ^ (24 - k) * 2 ^ 8 * 2 ^ k) * q) by (change (2 ^ 8) with 256; ring). rewrite <- !Z.pow_add_r by lia. replace (24 - k + 8 + k) with 32 by lia. rewrite Z.add_comm. apply Z.div_mod. lia. }
    rewrite Ex, Z.div_add, Z.mod_add by (lia || (apply Z.pow_nonzero; lia)). done. }
  intros E. rewrite !land_0xff, !Z.shiftr_div_pow2 by lia. assert (H0 : forall x, x mod 256 = u32 x mod 256) by (intros x; specialize (Hb x 0 ltac:(lia)); by rewrite !Z.div_1_r in Hb).
  assert (Hk : forall k, 0 <= k <= 24 -> v / 2 ^ k mod 256 = w / 2 ^ k mod 256) by (intros k Hk; by rewrite (Hb v), (Hb w), E).
  change (2 ^ 8) with 256 in *. unfold le32. change (2 ^ 8) with 256. assert (E8 := Hk 8 ltac:(lia)). change (2 ^ 8) with 256 in E8. by rewrite (H0 v), (H0 w), E, E8, (Hk 16), (Hk 24) by lia.
Qed.

Lemma check_range wrap data : wrap = 1 \/ wrap = 2 -> Forall byte_ok data -> 0 <= check_spec wrap (initial_check wrap) data < 2 ^ 32.
Proof.
  intros Hw Hd. destruct (check_spec_ok wrap (initial_check wrap) data Hd (initial_check_ok wrap)) as [H1 H2]. destruct Hw as [->| ->].
  - destruct (H1 eq_refl) as [A1 A2]. unfold BASE in A2. set (c := check_spec 1 _ data) in *. clearbody c. dlia.
  - apply (H2 eq_refl).
Qed.

(** The trailer is written. *)
Record closed (hdr : list Z) (s : deflate_state) (data out : list Z) (b : bitstr) (wrap : Z) : Prop := {
  cl_out : out_ok s;
  cl_valid : w_bi_valid (t_w (d_trees s)) = 0;
  cl_sent : sent out s (bytes_bits hdr ·· (b ·· bytes_bits (trailer wrap data)));
  cl_hdr : Forall byte_ok hdr;
  cl_whole : whole b data;
  cl_data : Forall byte_ok data;
  cl_wrap : d_wrap s = - wrap /\ 0 <= wrap <= 2;
  cl_status : d_status s = FINISH_STATE;
  cl_rest : d_lookahead s = 0 }.

Lemma ended_valid hdr s data out b : ended hdr s data out b -> w_bi_valid (t_w (d_trees s)) = 0.
Proof.
  intros En. destruct (ed_whole _ _ _ _ _ En) as (_ & Hm & _). assert (Em := sent_bits _ _ _ _ (ed_sent _ _ _ _ _ En)). rewrite Hm in Em. unfold obits in Em. cbn [snd] in Em. assert (Lo := ed_low _ _ _ _ _ En). unfold low in Lo. pose proof (wk_valid _ (oo_writer _ (ed_out _ _ _ _ _ En))). dlia.
Qed.

Lemma trailer_bytes wrap data : 0 <= wrap <= 2 -> Forall byte_ok data -> Forall byte_ok (trailer wrap data).
Proof.
  intros Hw Hd. unfold trailer. destruct (Z.eqb_spec wrap 1) as [->|]; [apply be32_bytes; by apply (check_range 1); [left|]|]. destruct (wrap =? 2); [|done]. apply Forall_app. split; apply le32_bytes.
Qed.

(** The bytes of the trailer as the code puts them. *)
Definition put_trailer (s : deflate_state) : option deflate_state :=
  let adler := z_adler (d_strm s) in
  let total_in := z_total_in (d_strm s) in
  if d_wrap s =? 2 then
    dput_bytes s [adler .& 0xff; (adler ≫ 8) .& 0xff; (adler ≫ 16) .& 0xff; (adler ≫ 24) .& 0xff;
                  total_in .& 0xff; (total_in ≫ 8) .& 0xff; (total_in ≫ 16) .& 0xff; (total_in ≫ 24) .& 0xff]
  else s ← putShortMSB s (adler ≫ 16); putShortMSB s (adler .& 0xffff).

Lemma dput_bytes_app l1 : forall s l2, dput_bytes s (l1 ++ l2) = s ← dput_bytes s l1; dput_bytes s l2.
Proof. induction l1 as [|c l1 IH]; intros s l2; [done|]. cbn [app dput_bytes]. destruct (dput_byte s c); [|done]. cbn [mbind option_bind]. apply IH. Qed.

Lemma put_trailer_ok hdr s data out b :
  ended hdr s data out b -> drained s -> 0 < d_wrap s -> exists s', put_trailer s = Some s' /\ put_ok s (trailer (d_wrap s) data) s'.
Proof.
  intros En (D1 & D2 & D3). assert (Hv := ended_valid _ _ _ _ _ En). destruct En as [Ho Lo Se Hh Wh Su Da Co Wr Sts Bu Re]. intros Hw. unfold put_trailer.
  assert (E : forall l, Z.of_nat (length l) <= 8 -> Forall byte_ok l -> exists s', dput_bytes s l = Some s' /\ put_ok s l s') by (intros l Hl Hb; apply dput_bytes_ok; try done; lia).
  destruct (Z.eqb_spec (d_wrap s) 2) as [E2|Hne].
  - rewrite E2 in *. assert (El := le32_shifts _ _ Co). assert (Es := le32_shifts (z_adler (d_strm s)) (check_spec 2 0 data) ltac:(by rewrite Su)). cbn [trailer]. change (trailer 2 data) with (le32 (check_spec 2 0 data) ++ le32 (Z.of_nat (length data))). rewrite <- Es, <- El.
    apply E; [cbn; lia|]. rewrite <- (app_nil_r [z_total_in (d_strm s) .& 255; _; _; _]). change (Forall byte_ok ([z_adler (d_strm s) .& 255; (z_adler (d_strm s) ≫ 8) .& 255; (z_adler (d_strm s) ≫ 16) .& 255; (z_adler (d_strm s) ≫ 24) .& 255] ++ [z_total_in (d_strm s) .& 255; (z_total_in (d_strm s) ≫ 8) .& 255; (z_total_in (d_strm s) ≫ 16) .& 255; (z_total_in (d_strm s) ≫ 24) .& 255])).
    rewrite Es, El. apply Forall_app. split; apply le32_bytes.
  - assert (E1 : d_wrap s = 1) by lia. rewrite E1 in *. assert (Hr := check_range 1 data ltac:(by left) Da). change (initial_check 1) with 1 in *. set (v := check_spec 1 1 data) in *. change (trailer 1 data) with (be32 v). rewrite Su.
    rewrite Z.shiftr_div_pow2 by lia. rewrite land_0xffff. rewrite putShortMSB_bytes by dlia.
    assert (Eb : be32 v = [v / 2 ^ 16 / 256; (v / 2 ^ 16) mod 256] ++ [v mod 2 ^ 16 / 256; v mod 2 ^ 16 mod 256]) by (unfold be32; cbn [app]; assert (X1 : v / 2 ^ 16 / 256 = v / 2 ^ 24) by dlia; assert (X2 : v mod 2 ^ 16 / 256 = v / 2 ^ 8 mod 256) by dlia; assert (X3 : v mod 2 ^ 16 mod 256 = v mod 256) by dlia; by rewrite X1, X2, X3).
    destruct (E (be32 v)) as (s' & Es & K); [cbn; lia|by apply be32_bytes|]. rewrite Eb, dput_bytes_app in Es. destruct (dput_bytes s _) as [s1|]; [|done]. cbn [mbind option_bind] in *. exists s'. split; [|exact K]. rewrite putShortMSB_bytes by dlia. exact Es.
Qed.

Lemma write_trailer_eq s s1 s2 :
  0 < d_wrap s -> put_trailer s = Some s1 -> flush_pending s1 = Some s2 -> 0 < d_wrap s2 -> write_trailer s Z_FINISH = Some (s2 <| d_wrap := - d_wrap s2 |>, if negb (d_pending s2 =? 0) then Z_OK else Z_STREAM_END).
Proof.
  intros Hw E1 E2 Hw2. unfold write_trailer. change (negb (Z_FINISH =? Z_FINISH)) with false. cbv iota. destruct (Z.leb_spec (d_wrap s) 0); [lia|]. cbv zeta. unfold put_trailer in E1. cbv zeta in E1. rewrite E1. cbn [mbind option_bind]. rewrite E2. cbn [mbind option_bind].
  rewrite Z.gtb_ltb. destruct (Z.ltb_spec 0 (d_wrap s2)); [|lia]. reflexivity.
Qed.

Lemma write_trailer_ok hdr s data out b :
  ended hdr s data out b -> drained s ->
  exists s' ret, write_trailer s Z_FINISH = Some (s', ret) /\ outputs s (bytes_bits (trailer (d_wrap s) data)) s' /\ closed hdr s' data (out ++ delivered (d_strm s) (d_strm s')) b (d_wrap s) /\
    z_avail_in (d_strm s') = z_avail_in (d_strm s) /\ (is_Some (z_out (d_strm s)) -> is_Some (z_out (d_strm s'))) /\ tparams (d_trees s') = tparams (d_trees s) /\ (ret = Z_STREAM_END /\ d_pending s' = 0 \/ ret = Z_OK /\ z_avail_out (d_strm s') = 0).
Proof.
  intros En D. assert (Hv := ended_valid _ _ _ _ _ En). assert (Hw := ed_wrap _ _ _ _ _ En). destruct (Z.eq_dec (d_wrap s) 0) as [E0|Hne].
  - exists s, Z_STREAM_END. unfold write_trailer. rewrite E0. change (negb (Z_FINISH =? Z_FINISH)) with false. cbn [Z.leb Z.compare]. split; [done|]. rewrite delivered_refl, app_nil_r by done. split; [exact (outputs_refl s)|]. split; [|split; [done|split; [done|split; [done|left; split; [done|apply D]]]]].
    destruct En as [Ho Lo Se Hh Wh Su Da Co Wr Sts Bu Re]. split; try done. change (bytes_bits (trailer 0 data)) with bnil. by rewrite bcat_nil_r.
  - destruct (put_trailer_ok hdr s data out b En D ltac:(lia)) as (s1 & E1 & [(w & Es1 & Lw & Hww) O1 U1 P1 V1]). destruct (flush_pending_ok s1 O1) as (s2 & E2 & O2 & U2 & F2 & Lo2 & Hd2).
    assert (Q : d_wrap s2 = d_wrap s /\ d_status s2 = d_status s /\ d_lookahead s2 = d_lookahead s /\ z_avail_in (d_strm s2) = z_avail_in (d_strm s) /\ tparams (d_trees s2) = tparams (d_trees s) /\ (is_Some (z_out (d_strm s)) -> is_Some (z_out (d_strm s2)))).
    { destruct F2 as (o & n & a & t & w2 & p & -> & Hs & _). rewrite Es1 in *. done. }
    destruct Q as (Q1 & Q2 & Q3 & Q4 & Q6 & Q5). exists (s2 <| d_wrap := - d_wrap s2 |>), (if negb (d_pending s2 =? 0) then Z_OK else Z_STREAM_END). split; [apply (write_trailer_eq s s1 s2); (done || lia)|].
    assert (Htb := trailer_bytes (d_wrap s) data Hw (ed_data _ _ _ _ _ En)). assert (Kt := bytes_bits_ok _ Htb). assert (Ho := ed_out _ _ _ _ _ En).
    assert (U : outputs s (bytes_bits (trailer (d_wrap s) data)) s2) by (rewrite <- (bcat_nil_r (bytes_bits _)); apply (outputs_trans s _ s1); try done; apply bits_ok_nil).
    split; [exact U|]. split; [|split; [exact Q4|split; [exact Q5|split; [exact Q6|]]]].
    + assert (Se' := outputs_sent _ _ _ _ _ Ho U (ed_sent _ _ _ _ _ En)). destruct En as [_ Lo Se Hh Wh Su Da Co Wr Sts Bu Re]. assert (Kh := bytes_bits_ok _ Hh). destruct Wh as (Kb & Hm & Hs).
      rewrite bcat_assoc in Se' by done. assert (Em := sent_bits _ _ _ _ Se'). split; try done; dsimp; try congruence; [by destruct O2; split| |lia].
      cbn [bcat snd bytes_bits] in Em. unfold obits in Em. cbn [snd] in Em. unfold low in Lo2. pose proof (wk_valid _ (oo_writer _ O2)). dlia.
    + change (d_pending (s2 <| d_wrap := - d_wrap s2 |>)) with (d_pending s2). change (d_strm (s2 <| d_wrap := - d_wrap s2 |>)) with (d_strm s2). destruct (Z.eqb_spec (d_pending s2) 0) as [Ez|Hnz]; cbn [negb]; [by left|]. right. split; [done|]. by destruct Hd2 as [|[D1 _]].
Qed.

(** ** The marker of a flush *)

(** An empty block. *)
Lemma running_marker hdr s total out base cut b w m :
  running hdr s total out base cut [] b -> drained s -> base + d_block_start s = cut -> emits (t_w (d_trees s)) m w -> w_bi_valid w < 8 -> m.2 <= 42 ->
  reads_as (wbits (t_w (d_trees s))).2 m 0 (take (Z.to_nat cut) total) (take (Z.to_nat cut) total) ->
  let s1 := s <| d_trees := (d_trees s) <| t_w := w |> |> in
  outputs s m s1 /\ running hdr s1 total out base cut [] (b ·· m) /\ d_pending_out s1 = 0.
Proof.
  intros R (D1 & D2 & D3) Hb Em Hv Hm [Km Hrd]. cbv zeta. assert (Ho := co_out _ _ _ _ _ _ _ (ru_core _ _ _ _ _ _ _ _ R)). assert (Hco := co_collected _ _ _ _ _ _ _ (ru_core _ _ _ _ _ _ _ _ R)). assert (Lb := bs_buf _ _ Hco). assert (Hl := bs_lit _ _ Hco).
  assert (Kw := em_ok _ _ _ Em). assert (Lw := em_length _ _ _ Em). assert (Eb := em_bits _ _ _ Em). set (s1 := s <| d_trees := _ |>). assert (Eo : obits s1 = obits s ·· m) by (rewrite !obits_start by done; exact Eb).
  assert (Hw2 : (wbits w).2 = (wbits (t_w (d_trees s))).2 + m.2) by (by rewrite Eb). assert (Hw0 : (wbits (t_w (d_trees s))).2 < 8) by (unfold wbits, d_pending in *; cbn [snd]; rewrite D1; lia).
  assert (O1 : out_ok s1).
  { assert (Hp := wk_pending _ Kw). destruct Ho as [O1 O2 O3 O4 O5 O6 O7]. split; unfold s1, d_pending; dsimp; rewrite ?Lw, ?D2; try done; [lia|lia| |by left]. unfold obytes, bytes_at. dsimp. rewrite D2. apply (wk_bytes _ Kw). }
  assert (U : outputs s m s1).
  { exists []. cbn [length]. split; [done|]. rewrite !Z.add_0_r, Z.sub_0_r. split; [change (bytes_bits []) with bnil; rewrite bcat_nil_l; exact Eo|]. split_and!; try done.
    intros k. unfold s1. dsimp. destruct (Z.leb_spec (z_next_out (d_strm s)) k), (Z.ltb_spec k (z_next_out (d_strm s))); (lia || done). }
  split; [done|]. split; [|done]. assert (Em' := sent_bits _ _ _ _ (ru_sent _ _ _ _ _ _ _ _ R)). assert (Se' := outputs_sent _ _ _ _ _ Ho U (ru_sent _ _ _ _ _ _ _ _ R)). rewrite (delivered_refl (d_strm s) (d_strm s1)), app_nil_r in Se' by done.
  destruct R as [[G [V1 V2 V3 V4 V5 V6 V7 V8] Hh Hc _ _ Hcl Hbl Hf Hd Hli Hlv] K Rm St Lo Se Hhd Re Su Co Sts Wr]. split; try done.
  - split; try done; [by apply (geometry_same s)|by apply (hashed_same s)|]. apply collected_writer; [exact Hco|exact Kw|exact Lw].
  - by apply (keeps_same total total s).
  - by left.
  - rewrite bcat_assoc in Se'; [done|by apply bytes_bits_ok|apply Re].
  - change (d_block_start s1) with (d_block_start s). rewrite Hb in *. apply (reads_all_snoc _ _ _ (take (Z.to_nat cut) total)); [done|]. apply (reads_as_mod (wbits (t_w (d_trees s))).2); [|by split]. rewrite Z.add_0_l, Em', obits_start by done. done.
Qed.

(** The hash table is cleared and the window starts anew. *)
Lemma running_restart hdr s total out base b head :
  running hdr s total out base (base + d_strstart s) [] b -> d_lookahead s = 0 -> z_avail_in (d_strm s) = 0 -> length head = length (d_head s) -> chained (s <| d_head := head |>) (fun _ => False) 0 -> d_block_start s = d_strstart s ->
  running hdr (s <| d_head := head |> <| d_strstart := 0 |> <| d_block_start := 0 |> <| d_insert := 0 |>) total out (base + d_strstart s) (base + d_strstart s) [] b.
Proof.
  intros R Hl0 Ha0 Lh Hch Hbs. assert (Wr' := wsize_range s (co_geometry _ _ _ _ _ _ _ (ru_core _ _ _ _ _ _ _ _ R))). destruct R as [[G [V1 V2 V3 V4 V5 V6 V7 V8] Hh Hc [] Hco Hcl Hbl Hf Hd Hli Hlv] K Rm St Lo Se Hhd Re Su Co Sts Wr].
  assert (Hx : forall h q, aget head h = Some q -> q = 0) by (intros h q Hq; destruct (ch_head _ _ _ Hch h q Hq) as [|[[] _]]; done). split; try done; dsimp.
  - split; try done; dsimp; rewrite ?Z.add_0_r.
    + eapply geometry_fields; [|exact G]. unfold gfields. dsimp. by rewrite Lh.
    + split; dsimp; try done; lia.
    + split; [by left|]. exists (fun _ => False). split; [done| |done]. dsimp. intros h q Hq. left. by apply (Hx h).
    + lia.
    + reflexivity.
  - unfold keeps in *. dsimp. destruct (_ || _); [unfold all_coded; dsimp; lia|]. destruct (func <$> _) as [[]|]; try done.
    + destruct K as (K1 & K2 & K3 & K4). split; [dsimp; lia|]. split; [|done]. intros Hx'. exfalso. revert Hx'. dsimp. unfold MIN_MATCH. lia.
    + destruct K as (K1 & K2 & K3 & K4 & K5 & K6). split; dsimp; [done|]. split; [lia|]. split; [lia|]. split; [intros Hx'; exfalso; revert Hx'; dsimp; unfold MIN_MATCH; lia|]. split; [done|].
      intros H3. destruct (K6 H3) as [Ka _]. lia.
  - rewrite Z.add_0_r. by rewrite <- Hbs.
  - unfold pos in *. dsimp. rewrite Su. f_equal. f_equal. lia.
  - unfold pos in *. dsimp. rewrite Co. f_equal. lia.
Qed.

Definition running_out hdr s total out base cut syms b : running hdr s total out base cut syms b -> out_ok s := fun R => co_out _ _ _ _ _ _ _ (ru_core _ _ _ _ _ _ _ _ R).

(** The empty block of a flush, and the start of a new window. *)
Definition mark (s : deflate_state) (flush : Z) : option deflate_state :=
  if flush =? Z_PARTIAL_FLUSH then trees ← tr_align (d_trees s); Some (s <| d_trees := trees |>)
  else if negb (flush =? Z_BLOCK) then
    trees ← tr_stored_block (d_trees s) [] 0 0;
    let s := s <| d_trees := trees |> in
    if flush =? Z_FULL_FLUSH then
      s ← CLEAR_HASH s;
      Some (if d_lookahead s =? 0 then s <| d_strstart := 0 |> <| d_block_start := 0 |> <| d_insert := 0 |> else s)
    else Some s
  else Some s.

Lemma mark_ok hdr s total out base b flush :
  running hdr s total out base (base + d_strstart s) [] b -> drained s -> d_lookahead s = 0 -> z_avail_in (d_strm s) = 0 -> d_block_start s = d_strstart s ->
  exists s1 base1 c, mark s flush = Some s1 /\ steps s c s1 /\ running hdr s1 total out base1 (base + d_strstart s) [] (b ·· c) /\ base1 + d_strstart s1 = base + d_strstart s /\ d_lookahead s1 = 0 /\
    d_strm s1 = d_strm s.
Proof.
  intros R D Hl Ha Hb. assert (Ho := running_out _ _ _ _ _ _ _ _ R). assert (Hco := co_collected _ _ _ _ _ _ _ (ru_core _ _ _ _ _ _ _ _ R)). assert (Lb := bs_buf _ _ Hco). assert (Hlit := bs_lit _ _ Hco). assert (G := co_geometry _ _ _ _ _ _ _ (ru_core _ _ _ _ _ _ _ _ R)).
  assert (Hw0 : (wbits (t_w (d_trees s))).2 < 8) by (destruct D as (D1 & _ & D3); unfold wbits, d_pending in *; cbn [snd]; rewrite D1; lia). unfold mark. destruct (flush =? Z_PARTIAL_FLUSH).
  - destruct (tr_align_sends (d_trees s) (take (Z.to_nat (base + d_strstart s)) total) (oo_writer _ Ho)) as (w & m & -> & Em & Hm & Hv & Hrd); [lia|]. cbn [mbind option_bind].
    destruct (running_marker hdr s total out base _ b w m R D ltac:(lia) Em Hv ltac:(lia) Hrd) as (U & R1 & _). eexists _, base, m. split; [reflexivity|]. split; [split; try done; apply Hrd|]. done.
  - destruct (negb (flush =? Z_BLOCK)).
    + destruct (tr_stored_sends (d_trees s) [] 0 0 (take (Z.to_nat (base + d_strstart s)) total) (oo_writer _ Ho)) as (w & m & -> & Em & Hv & Hm & Hrd); try done; [lia|]. cbn [mbind option_bind].
      change (bytes_at [] 0 0) with (@nil Z) in Hrd. rewrite app_nil_r in Hrd. destruct (running_marker hdr s total out base _ b w m R D ltac:(lia) Em ltac:(lia) Hm Hrd) as (U & R1 & _). cbv zeta in *. set (s1 := s <| d_trees := _ |>) in *. assert (Sp : steps s m s1) by (split; try done; apply Hrd). destruct (flush =? Z_FULL_FLUSH).
      * assert (G1 : geometry s1) by (by apply (geometry_same s)). destruct (CLEAR_HASH_ok s1 0 G1) as (head & -> & Lh & Hch). cbn [mbind option_bind]. change (d_lookahead (s1 <| d_head := head |>)) with (d_lookahead s). rewrite Hl. cbn [Z.eqb].
        assert (R2 := running_restart hdr s1 total out base (b ·· m) head R1 Hl Ha Lh Hch Hb). eexists _, (base + d_strstart s), m. split; [reflexivity|]. split; [destruct Sp as [U' B' F' N' I']; split; done|]. split; [exact R2|]. split; [dsimp; lia|]. done.
      * exists s1, base, m. done.
    + exists s, base, bnil. split; [done|]. rewrite bcat_nil_r. split; [apply steps_refl|]. done.
Qed.

Lemma flush_marker_ok hdr s total out base b flush :
  running hdr s total out base (base + d_strstart s) [] b -> drained s -> d_lookahead s = 0 -> z_avail_in (d_strm s) = 0 -> d_block_start s = d_strstart s ->
  exists s1 base1 c, flush_marker s flush = Some s1 /\ steps s c s1 /\ running hdr s1 total (out ++ delivered (d_strm s) (d_strm s1)) base1 (base + d_strstart s) [] (b ·· c) /\ z_avail_in (d_strm s1) = 0.
Proof.
  intros R D Hl Ha Hb. destruct (mark_ok hdr s total out base b flush R D Hl Ha Hb) as (s1 & base1 & c & E1 & S1 & R1 & _ & _ & Ez). assert (Ho := running_out _ _ _ _ _ _ _ _ R). assert (O1 := running_out _ _ _ _ _ _ _ _ R1).
  destruct (flush_pending_ok s1 O1) as (s2 & E2 & O2 & U2 & F2 & L2 & Hd2). exists s2, base1, c. unfold flush_marker. unfold mark in E1. rewrite E1. cbn [mbind option_bind]. split; [done|].
  destruct (steps_trans s c s1 bnil s2 Ho O1 O2 S1 (flushed_steps _ _ F2 U2)) as [S2 Ed]. rewrite bcat_nil_r in S2. split; [done|]. assert (R2 := running_flush _ _ _ _ _ _ _ _ R1 F2 O2 L2 U2). rewrite Ed, Ez, (delivered_refl (d_strm s) (d_strm s)) by done. rewrite Ez in R2.
  split; [exact R2|]. destruct F2 as (o & n & a & t & w & p & -> & _). change (z_avail_in (d_strm s1) = 0). by rewrite Ez.
Qed.

(** ** The blocks of a call *)
Lemma inv_start P lit total s base cut syms : core P lit total s base cut syms -> drained s -> Z.of_nat (length syms) + 1 < lit -> inv P lit total s base (base + d_block_start s) s base cut syms.
Proof.
  intros C D R. split; [split|done|done]; [done| |].
  - apply since_refl; [apply (co_check _ _ _ _ _ _ _ C)|]. assert (V := co_view _ _ _ _ _ _ _ C). destruct (vw_pos _ _ _ V) as (P1 & P2 & _). pose proof (vw_base _ _ _ V). unfold pos. lia.
  - exists bnil. split; [apply outputs_refl|]. split; [apply reads_all_nil|cbn [snd bnil]; lia].
Qed.

Definition quiet (s s' : deflate_state) : Prop := s' = s \/ s' = s <| d_last_flush := -1 |>.
Lemma forget_quiet s : quiet s (forget_flush s).
Proof. unfold forget_flush. destruct (_ =? 0); [by right|by left]. Qed.
Lemma running_quiet hdr s s' total out base cut syms b : quiet s s' -> running hdr s total out base cut syms b -> running hdr s' total out base cut syms b /\ d_strm s' = d_strm s /\ (forall e c, steps e c s -> steps e c s').
Proof. intros [->| ->] R; [done|]. split; [by apply running_forget|]. split; [done|]. intros e c []. by split. Qed.
Lemma ended_quiet hdr s s' data out b : quiet s s' -> ended hdr s data out b -> ended hdr s' data out b /\ d_strm s' = d_strm s /\ (drained s -> drained s') /\ (forall e c, steps e c s -> steps e c s').
Proof. intros [->| ->] [[] Lo Se Hh Wh Su Da Co Wr Sts Bu Re]; [done|]. split; [by split|]. split; [done|]. split; [done|]. intros e c []. by split. Qed.

(** The blocks of a call: either the stream goes on, or the last block was written. *)
Definition went_on (hdr : list Z) (e : deflate_state) (total out : list Z) (b : bitstr) (flush : Z) (s' : deflate_state) (r : option Z) (c : bitstr) : Prop :=
  exists base' cut' syms', running hdr s' total (out ++ delivered (d_strm e) (d_strm s')) base' cut' syms' (b ·· c) /\
    (r = Some Z_OK /\ (z_avail_out (d_strm s') = 0 \/ flush = Z_NO_FLUSH /\ z_avail_in (d_strm s') = 0) \/ r = None /\ flush <> Z_FINISH /\ z_avail_in (d_strm s') = 0).
Definition came_to_end (hdr : list Z) (e : deflate_state) (total out : list Z) (b : bitstr) (flush : Z) (s' : deflate_state) (r : option Z) (c : bitstr) : Prop :=
  ended hdr s' total (out ++ delivered (d_strm e) (d_strm s')) (b ·· c) /\ flush = Z_FINISH /\ z_avail_in (d_strm s') = 0 /\
  (r = Some Z_OK /\ z_avail_out (d_strm s') = 0 \/ r = None /\ drained s').

Lemma finish_steps e c s : steps e c s -> steps e c (s <| d_status := FINISH_STATE |>).
Proof. intros []. by split. Qed.

Lemma ended_left hdr e total out base cut syms b s1 s' (c : bitstr) :
  running hdr e total out base cut syms b -> quiet (s1 <| d_status := FINISH_STATE |>) s' -> c.2 <= block_max (t_lit_bufsize (d_trees e)) * (Z.of_nat (length total) - (base + d_block_start e) + 1) ->
  c.2 + blocks_left s' (z_avail_in (d_strm s')) <= blocks_left e (z_avail_in (d_strm e)).
Proof.
  intros R Q Hmax. destruct (running_uncoded _ _ _ _ _ _ _ _ R) as [U0 _]. rewrite (blocks_left_busy e), U0 by apply (ru_status _ _ _ _ _ _ _ _ R). unfold blocks_left. assert (d_status s' = FINISH_STATE) as -> by (by destruct Q as [->| ->]). change (FINISH_STATE =? FINISH_STATE) with true. cbv iota. lia.
Qed.

Lemma deflate_blocks_ok hdr e total out base cut syms b flush :
  running hdr e total out base cut syms b -> drained e -> roomy (class_of (t_strategy (d_trees e))) (t_lit_bufsize (d_trees e)) total ->
  exists s' r c, deflate_blocks e flush = Some (s', r) /\ steps e c s' /\ (flush = Z_FINISH -> c.2 + blocks_left s' (z_avail_in (d_strm s')) <= blocks_left e (z_avail_in (d_strm e))) /\ (went_on hdr e total out b flush s' r c \/ came_to_end hdr e total out b flush s' r c).
Proof.
  intros R D Hroom. unfold deflate_blocks. assert (C := ru_core _ _ _ _ _ _ _ _ R). destruct (_ || _) eqn:Eg.
  2:{ rewrite (ru_status _ _ _ _ _ _ _ _ R) in Eg. change (BUSY_STATE =? FINISH_STATE) with false in Eg. rewrite !orb_false_iff, !andb_false_iff, !negb_false_iff, !Z.eqb_eq in Eg. destruct Eg as [[E1 _] [E2|E2]]; [|done].
      exists e, None, bnil. split; [done|]. split; [apply steps_refl|]. split; [done|]. left. exists base, cut, syms. rewrite delivered_refl, app_nil_r, bcat_nil_r by done. split; [done|]. right. by rewrite E2. }
  clear Eg. destruct (compress_with_ok (t_lit_bufsize (d_trees e)) total e base (base + d_block_start e) e base cut syms flush Hroom (co_out _ _ _ _ _ _ _ C) (co_check _ _ _ _ _ _ _ C) (inv_start _ _ _ _ _ _ _ C D (ru_room _ _ _ _ _ _ _ _ R)) (ru_keeps _ _ _ _ _ _ _ _ R)) as (s1 & r & -> & H).
  cbn [mbind option_bind]. destruct r; cbn [compressed] in H.
  - destruct H as (base1 & cut1 & syms1 & St & K1 & Rm & Sy & Lo & Hav). destruct (running_stopped hdr e total out base cut syms b s1 base1 cut1 syms1 R St K1 Rm Sy Lo) as (c & Sp & R1 & Hmax).
    destruct (running_quiet _ _ _ _ _ _ _ _ _ (forget_quiet s1) R1) as (R2 & Ez & Hq). exists (forget_flush s1), (Some Z_OK), c. split; [done|]. split; [by apply Hq|]. split.
    { intros _. destruct (running_uncoded _ _ _ _ _ _ _ _ R) as [U0 _]. destruct (running_uncoded _ _ _ _ _ _ _ _ R1) as [U1 _]. assert (Fx := sp_fixed _ _ _ Sp). unfold fixed_of in Fx. injection Fx as _ _ Fl _ _. rewrite (blocks_left_busy e) by apply (ru_status _ _ _ _ _ _ _ _ R). rewrite blocks_left_busy by apply (ru_status _ _ _ _ _ _ _ _ R2). rewrite Ez.
      destruct (forget_quiet s1) as [->| ->]; [rewrite Fl; lia|]. change (uncoded (s1 <| d_last_flush := -1 |>)) with (uncoded s1). dsimp. rewrite Fl. lia. }
    left. exists base1, cut1, syms1. rewrite Ez. split; [done|]. left. split; [done|]. destruct Hav as [|(_ & Hf & Ha)]; [by left|by right].
  - destruct H as (base1 & St & K1 & D1 & Hf0 & Hf1 & Hend & Hbs). assert (C1 := st_core _ _ _ _ _ _ _ _ _ _ St). assert (Hl := lit_size _ _ _ _ _ _ _ C1). destruct (running_stopped hdr e total out base cut syms b s1 base1 (base1 + d_strstart s1) [] R St K1 ltac:(cbn [length]; lia) (or_introl eq_refl) (proj2 (proj2 D1))) as (c & Sp & R1 & _).
    destruct (vw_avail _ _ _ (co_view _ _ _ _ _ _ _ C1)) as (_ & Ha & El). destruct (vw_pos _ _ _ (co_view _ _ _ _ _ _ _ C1)) as (_ & Hla & _).
    destruct (flush_marker_ok hdr s1 total _ base1 (b ·· c) flush R1 D1 ltac:(lia) ltac:(lia) Hbs) as (s2 & base2 & c2 & -> & Sp2 & R2 & Ha2). cbn [mbind option_bind].
    destruct (steps_trans e c s1 c2 s2 (running_out _ _ _ _ _ _ _ _ R) (running_out _ _ _ _ _ _ _ _ R1) (running_out _ _ _ _ _ _ _ _ R2) Sp Sp2) as [Sp3 Ed]. rewrite <- app_assoc, <- Ed in R2. assert (Kb := ru_reads _ _ _ _ _ _ _ _ R). rewrite bcat_assoc in R2; [|apply Kb|apply Sp].
    destruct (running_quiet _ _ _ _ _ _ _ _ _ (forget_quiet s2) R2) as (R3 & Ez & Hq). eexists (forget_flush s2), _, _. split; [reflexivity|]. split; [apply Hq; exact Sp3|]. split; [done|]. left. exists base2, (base1 + d_strstart s1), []. rewrite Ez. split; [exact R3|].
    destruct (Z.eqb_spec (z_avail_out (d_strm s2)) 0) as [E0|]; [left; split; [done|by left]|by right].
  - destruct H as (base1 & Fi & Hf & Hend & Lo & Hav). destruct (finished_ended hdr e total out base cut syms b s1 base1 R Fi Hend Lo) as (c & Sp & En & Ha & Hmax). destruct (ended_quiet _ _ _ _ _ _ (forget_quiet (s1 <| d_status := FINISH_STATE |>)) En) as (En2 & Ez & _ & Hq).
    eexists _, (Some Z_OK), c. split; [reflexivity|]. split; [apply Hq; by apply finish_steps|]. split; [intros _; apply (ended_left hdr e total out base cut syms b s1 _ c R); [apply forget_quiet|done]|]. right. split; [by rewrite Ez|]. rewrite Ez. split; [done|]. split; [done|]. by left.
  - destruct H as (base1 & Fi & Hf & Hend & D1). destruct (finished_ended hdr e total out base cut syms b s1 base1 R Fi Hend (proj2 (proj2 D1))) as (c & Sp & En & Ha & Hmax).
    eexists _, None, c. split; [reflexivity|]. split; [by apply finish_steps|]. split; [intros _; apply (ended_left hdr e total out base cut syms b s1 _ c R); [by left|done]|]. right. split; [done|]. split; [done|]. split; [done|]. by right.
Qed.
