(* ===== verification/DeflateStream.v ===== *)
(** A whole stream: what a sequence of calls of [deflate()] delivers. *)
From S2P Require Import Prelude Record Bits Huffman Lz Fixed DeflateFormat InflateState TreesTables Trees.
From S2P Require Import BitWriter TreesCodes TreesEmit TreesBuild TreesLens TreesTree TreesRle TreesHeader TreesTally.
From S2P Require Import TreesFlush DeflateState Deflate DeflateOut DeflateHash DeflateWindow DeflateMatch DeflateBlocks DeflateLoop.
From S2P Require Import DeflateHuff DeflateFast DeflateSlow DeflateInit DeflateApi DeflateRun DeflateCall Adler32 Crc32.

(** ** What the caller has in the end *)
Lemma bcat_inj a b x y : bits_ok a -> bits_ok b -> a.2 = b.2 -> a ·· x = b ·· y -> a = b /\ x = y.
Proof.
  intros [Ha1 Ha2] [Hb1 Hb2] E2 E. unfold bcat in E. injection E as E3 E4. rewrite E2 in *. destruct a as [a n], b as [b m], x as [x p], y as [y q]. cbn [fst snd] in *. subst n.
  assert (a = b) by (apply (f_equal (fun v => v mod 2 ^ m)) in E3; rewrite !(Z.mul_comm (2 ^ m)), !Z.mod_add, !Z.mod_small in E3 by (lia || (apply Z.pow_nonzero; lia)); done). subst b.
  assert (0 < 2 ^ m) by (apply pow2_pos; lia). split; [done|]. f_equal; [|lia]. apply (Z.mul_cancel_l _ _ (2 ^ m)); lia.
Qed.

(** The bytes of a format: a header, blocks, which are read as [data] whatever follows them, and a trailer. *)
Definition encodes (hdr : list Z) (wrap : Z) (data out : list Z) : Prop :=
  exists body, out = hdr ++ body ++ trailer wrap data /\ forall rest, stream_read (then_rest (bytes_bits body) rest) (8 * Z.of_nat (length body)) data.

Lemma bytes_split (out h t : list Z) (b : bitstr) :
  Forall byte_ok out -> Forall byte_ok h -> Forall byte_ok t -> bits_ok b -> b.2 mod 8 = 0 -> bytes_bits out = bytes_bits h ·· (b ·· bytes_bits t) -> exists body, out = h ++ body ++ t /\ bytes_bits body = b.
Proof.
  intros Ho Hh Ht Kb Hm E. assert (Hl := f_equal snd E). cbn [bytes_bits bcat snd] in Hl. set (n := Z.to_nat (b.2 / 8)). destruct Kb as [Kb1 Kb2]. assert (Hn : 8 * Z.of_nat n = b.2) by (unfold n; dlia).
  rewrite <- (firstn_skipn (length h) out) in E, Ho |- *. set (h' := firstn (length h) out) in *. set (r := skipn (length h) out) in *. assert (Lh : length h' = length h) by (unfold h'; rewrite length_take; lia). assert (Lr : length r = (n + length t)%nat) by (unfold r; rewrite length_drop; lia).
  rewrite <- (firstn_skipn n r) in E, Ho |- *. set (b' := firstn n r) in *. set (t' := skipn n r) in *. assert (Lb : length b' = n) by (unfold b'; rewrite length_take; lia). assert (Lt : length t' = length t) by (unfold t'; rewrite length_drop; lia).
  rewrite !Forall_app in Ho. destruct Ho as (H1 & H2 & H3). rewrite !bytes_bits_app in E.
  apply bcat_inj in E as [E1 E]; [|by apply bytes_bits_ok..|cbn; lia]. apply bcat_inj in E as [E2 E3]; [|by apply bytes_bits_ok|by split|cbn; lia].
  exists b'. split; [|done]. unfold bytes_bits in E1, E3. injection E1 as E1 _. injection E3 as E3 _. f_equal; [by apply le_inj|]. f_equal. by apply le_inj.
Qed.

Lemma closed_encodes hdr s data out b wrap : closed hdr s data out b wrap -> d_pending s = 0 -> encodes hdr wrap data out.
Proof.
  intros [Ho Hv [Hb Se] Hh [Kb [Hm Hs]] Hd Hw Hst Hr] Hp. assert (Hwk := oo_writer _ Ho). assert (Eo : obits s = bnil).
  { unfold obits, obytes. rewrite Hp, Hv. assert (Ebb := wk_buf _ Hwk). rewrite Hv in Ebb. change (2 ^ 0) with 1 in Ebb. replace (w_bi_buf (t_w (d_trees s))) with 0 by lia. done. }
  rewrite Eo, bcat_nil_r in Se. assert (Ht := trailer_bytes wrap data (proj2 Hw) Hd). destruct (bytes_split out hdr (trailer wrap data) b Hb Hh Ht Kb Hm Se) as (body & E & Eb). exists body. split; [done|].
  intros rest. rewrite <- Eb in Hs. apply (Hs rest).
Qed.

(** ** A new stream *)
Definition mfields' (s : deflate_state) := (d_match_length s, d_match_start s, d_match_available s, d_prev_length s).

Lemma fresh_keeps s s1 inp : fresh s -> 0 < t_level (d_trees s) -> hfields s1 = hfields s -> mfields' s1 = mfields' s -> tparams (d_trees s1) = tparams (d_trees s) -> keeps inp s1 0 0.
Proof.
  intros F Hlv Ef Em Ep. destruct (fr_start _ F) as (S1 & S2 & S3 & _). destruct (fr_match _ F) as (M1 & M2 & M3). unfold hfields in Ef. injection Ef as _ _ _ _ _ _ _ _ _ _ _ _ E1 E2 E3. injection Em as N1 N2 N3 N4. injection Ep as T1 T2 _.
  unfold keeps. rewrite T1, T2. destruct (_ || _); [unfold all_coded; lia|]. assert (Hl := al_level _ (fr_allocated _ F)).
  assert (Hc : exists f, func <$> aget configuration_table (t_level (d_trees s)) = Some f /\ f <> use_stored).
  { assert (Hx : t_level (d_trees s) = 1 \/ t_level (d_trees s) = 2 \/ t_level (d_trees s) = 3 \/ t_level (d_trees s) = 4 \/ t_level (d_trees s) = 5 \/ t_level (d_trees s) = 6 \/ t_level (d_trees s) = 7 \/ t_level (d_trees s) = 8 \/ t_level (d_trees s) = 9) by lia.
    destruct Hx as [->|[->|[->|[->|[->|[->|[->|[->| ->]]]]]]]]; eexists; split; reflexivity || discriminate. }
  assert (Hr : rolling s1) by (intros Hx; unfold MIN_MATCH in Hx; lia). destruct Hc as (f & -> & Hf). destruct f; [done| |].
  - split; [lia|]. split; [done|]. unfold MIN_MATCH. lia.
  - unfold slow_kept, MIN_MATCH, MAX_MATCH. split; [lia|]. split; [lia|]. split; [lia|]. split; [done|]. lia.
Qed.

Record started (hdr : list Z) (s s1 : deflate_state) (inp : list Z) : Prop := {
  sd_hash : hfields s1 = hfields s;
  sd_match : mfields' s1 = mfields' s;
  sd_block : d_block_start s1 = 0;
  sd_high : d_high_water s1 = d_high_water s;
  sd_params : tparams (d_trees s1) = tparams (d_trees s);
  sd_wrap : d_wrap s1 = d_wrap s;
  sd_collected : collected (d_trees s1) [];
  sd_out : out_ok s1;
  sd_low : low s1;
  sd_status : d_status s1 = BUSY_STATE;
  sd_buffers : buffers (d_strm s1) inp;
  sd_sum : z_adler (d_strm s1) = initial_check (d_wrap s);
  sd_count : z_total_in (d_strm s1) = 0;
  sd_sent : sent [] s1 (bytes_bits hdr);
  sd_hdr : Forall byte_ok hdr }.

Lemma fresh_running hdr s s1 inp : fresh s -> 0 < t_level (d_trees s) -> d_wrap s <= 2 -> started hdr s s1 inp -> running hdr s1 inp [] 0 0 [] bnil.
Proof.
  intros F Hlv Hw2 [Eh Em Eb Ehi Ep Ew Hco Ho Lo Hst [B1 B2 B3 B4] Hsum Hcnt Hs Hhd]. assert (K := fresh_keeps s s1 inp F Hlv Eh Em Ep). destruct F as [A G Hch (S1 & S2 & S3 & S4) (M1 & M2 & M3) _ (W1 & W2 & W3 & W4) Fst Ffl Fsum Ftot Fw].
  assert (G1 : geometry s1) by (by apply (geometry_same s)). assert (C1 := chained_same s s1 _ _ Eh Hch). assert (E' := Eh). unfold hfields in E'. injection E' as _ _ _ _ W5 _ _ _ _ _ _ _ E1 E2 E3. unfold tparams in Ep. injection Ep as T1 T2 T3. assert (Hlit := bs_lit _ _ Hco).
  assert (Wr := wsize_range s1 G1). assert (Hhi := al_high _ A).
  assert (Ep0 : pos s1 0 = 0) by (unfold pos; lia). split; try done.
  - split; try done; rewrite ?Eb; try lia.
    + split; try lia; try done.
      intros i Hi. rewrite B2 by done. f_equal. lia.
    + split; [left; lia|]. eexists. rewrite E1, E3, S1, S3. exact C1.
    + rewrite Hsum, Ew. apply initial_check_ok.
    + reflexivity.
  - cbn [length]. lia.
  - by left.
  - by rewrite bcat_nil_r.
  - rewrite Eb. apply reads_all_nil.
  - rewrite Ep0, Hsum, Ew. cbn [Z.to_nat take]. symmetry. apply check_spec_nil. apply initial_check_ok.
  - by rewrite Ep0, Hcnt.
  - lia.
Qed.

(** ** One call *)

(** The output of a call: [delivered] goes to [next_out], the rest of the array stays. *)
Record moved_out (z z' : z_stream) : Prop := {
  mo_next : z_next_out z' = z_next_out z + Z.of_nat (length (delivered z z'));
  mo_avail : z_avail_out z' = z_avail_out z - Z.of_nat (length (delivered z z'));
  mo_total : u32 (z_total_out z') = u32 (z_total_out z + Z.of_nat (length (delivered z z')));
  mo_length : length (out_buf z') = length (out_buf z);
  mo_frame : forall k, k < z_next_out z \/ z_next_out z' <= k -> aget (out_buf z') k = aget (out_buf z) k }.

Lemma outputs_moved s c s' : out_ok s -> outputs s c s' -> moved_out (d_strm s) (d_strm s').
Proof.
  intros Ho U. assert (Se := outputs_delivered _ _ _ (proj1 (oo_out _ Ho)) U). destruct U as (bs & _ & _ & E1 & E2 & E3 & E4 & E5). specialize (Se bs E1 E5). rewrite <- Se in *. split; try done.
  intros k Hk. rewrite E5. destruct (Z.leb_spec (z_next_out (d_strm s)) k), (Z.ltb_spec k (z_next_out (d_strm s'))); try done. lia.
Qed.

(** The bits that are to be written before the stream ends, when the caller wants it to end and [n] bytes are to be read. *)
Definition rest_left (s : deflate_state) (n : Z) : Z := blocks_left s n + if d_wrap s >? 0 then 64 else 0.

(** The parameters stay, and with [Z_FINISH] the output comes from what is to be written. *)
Definition progress (flush : Z) (e s' : deflate_state) : Prop :=
  exists c, outputs e c s' /\ tparams (d_trees s') = tparams (d_trees e) /\ (flush = Z_FINISH -> c.2 + rest_left s' (z_avail_in (d_strm s')) <= rest_left e (z_avail_in (d_strm e))).

Lemma steps_progress flush e c s' :
  steps e c s' -> (flush = Z_FINISH -> c.2 + blocks_left s' (z_avail_in (d_strm s')) <= blocks_left e (z_avail_in (d_strm e))) -> progress flush e s'.
Proof.
  intros [U _ F _ _] H. unfold fixed_of in F. injection F as F1 F2 F3 F4 F5. exists c. split; [done|]. split; [unfold tparams; congruence|]. intros Hf. specialize (H Hf). unfold rest_left. rewrite F1. lia.
Qed.

Lemma trailer_size wrap data : 0 <= wrap -> (bytes_bits (trailer wrap data)).2 <= if wrap >? 0 then 64 else 0.
Proof. intros Hw. unfold trailer. destruct (Z.eqb_spec wrap 1) as [->|]; [done|]. destruct (Z.eqb_spec wrap 2) as [->|]; [done|]. cbn. destruct (wrap >? 0); lia. Qed.

(** The trailer, after [c]. *)
Lemma closed_progress hdr flush e c s2 s3 data out b :
  out_ok e -> out_ok s2 -> out_ok s3 -> bits_ok c -> outputs e c s2 -> Forall byte_ok data -> outputs s2 (bytes_bits (trailer (d_wrap e) data)) s3 -> closed hdr s3 data out b (d_wrap e) ->
  tparams (d_trees s3) = tparams (d_trees e) -> (flush = Z_FINISH -> c.2 <= blocks_left e (z_avail_in (d_strm e))) -> progress flush e s3.
Proof.
  intros O1 O2 O3 Kc U1 Hd U2 Cl Ht Hc. destruct (cl_wrap _ _ _ _ _ _ Cl) as [W1 W2]. exists (c ·· bytes_bits (trailer (d_wrap e) data)). split; [apply (outputs_trans e c s2 _ s3); try done; by apply bytes_bits_ok, trailer_bytes|]. split; [done|].
  intros Hf. specialize (Hc Hf). unfold rest_left, blocks_left at 1. rewrite (cl_status _ _ _ _ _ _ Cl), W1. change (FINISH_STATE =? FINISH_STATE) with true. cbv iota. cbn [bcat snd]. assert (Hs := trailer_size (d_wrap e) data ltac:(lia)). destruct (Z.gtb_spec (- d_wrap e) 0); [lia|]. destruct (d_wrap e >? 0); lia.
Qed.

(** What a call leaves, from the state [e] at its start. *)
Inductive after (hdr : list Z) (e : deflate_state) (total out : list Z) (flush : Z) (s' : deflate_state) : Z -> Prop :=
  | after_running base cut syms b ret :
      running hdr s' total (out ++ delivered (d_strm e) (d_strm s')) base cut syms b -> d_wrap s' = d_wrap e ->
      (ret = Z_OK /\ (z_avail_out (d_strm s') = 0 \/ flush <> Z_FINISH /\ z_avail_in (d_strm s') = 0) \/
       ret = Z_BUF_ERROR /\ flush <> Z_FINISH /\ z_avail_in (d_strm e) = 0 /\ bufs (d_strm s') = bufs (d_strm e)) ->
      after hdr e total out flush s' ret
  | after_ended b :
      ended hdr s' total (out ++ delivered (d_strm e) (d_strm s')) b -> d_wrap s' = d_wrap e -> flush = Z_FINISH -> z_avail_in (d_strm s') = 0 -> z_avail_out (d_strm s') = 0 -> after hdr e total out flush s' Z_OK
  | after_closed b ret :
      closed hdr s' total (out ++ delivered (d_strm e) (d_strm s')) b (d_wrap e) -> flush = Z_FINISH -> z_avail_in (d_strm s') = 0 ->
      (ret = Z_STREAM_END /\ d_pending s' = 0 \/ ret = Z_OK /\ z_avail_out (d_strm s') = 0) -> after hdr e total out flush s' ret.

(** [deflate_run] without the header. *)
Definition run_rest (s : deflate_state) (flush old_flush : Z) : option (deflate_state * Z) :=
  '(s, r) ← flush_first s flush old_flush;
  match r with
  | Some ret => Some (s, ret)
  | None => '(s, r) ← deflate_blocks s flush; match r with Some ret => Some (s, ret) | None => write_trailer s flush end
  end.
Lemma deflate_run_eq s flush old s1 : write_header s = Some s1 -> deflate_run s flush old = run_rest s1 flush old.
Proof. intros E. unfold deflate_run. by rewrite E. Qed.
Lemma run_rest_first s flush old s1 ret : flush_first s flush old = Some (s1, Some ret) -> run_rest s flush old = Some (s1, ret).
Proof. intros E. unfold run_rest. by rewrite E. Qed.
Lemma run_rest_blocks s flush old s1 s2 r :
  flush_first s flush old = Some (s1, None) -> deflate_blocks s1 flush = Some (s2, r) -> run_rest s flush old = match r with Some ret => Some (s2, ret) | None => write_trailer s2 flush end.
Proof. intros E1 E2. unfold run_rest. rewrite E1. cbn [mbind option_bind]. rewrite E2. reflexivity. Qed.

Lemma write_trailer_none s flush : flush <> Z_FINISH -> write_trailer s flush = Some (s, Z_OK).
Proof. intros H. unfold write_trailer. by destruct (Z.eqb_spec flush Z_FINISH). Qed.

Lemma closed_out hdr s data out b wrap : closed hdr s data out b wrap -> out_ok s.
Proof. apply cl_out. Qed.

Lemma fixed_wrap s s' : fixed_of s' = fixed_of s -> d_wrap s' = d_wrap s.
Proof. unfold fixed_of. by intros [= ]. Qed.

Lemma run_running hdr e total out base cut syms b flush old :
  running hdr e total out base cut syms b -> roomy (class_of (t_strategy (d_trees e))) (t_lit_bufsize (d_trees e)) total ->
  exists s' ret, run_rest e flush old = Some (s', ret) /\ after hdr e total out flush s' ret /\ (is_Some (z_out (d_strm e)) -> is_Some (z_out (d_strm s'))) /\ z_avail_in (d_strm s') <= z_avail_in (d_strm e) /\ progress flush e s'.
Proof.
  intros R Hroom. assert (Oe := running_out _ _ _ _ _ _ _ _ R). destruct (flush_first_ok hdr e total out base cut syms b flush old R) as (s1 & r & E1 & R1 & U1 & F1 & A1 & B1 & N1 & H1). assert (O1 := running_out _ _ _ _ _ _ _ _ R1).
  assert (S1 : steps e bnil s1) by (split; [done|apply bits_ok_nil|done|done|lia]).
  assert (L1 : blocks_left s1 (z_avail_in (d_strm s1)) = blocks_left e (z_avail_in (d_strm e))).
  { destruct (running_uncoded _ _ _ _ _ _ _ _ R) as [Q0 _]. destruct (running_uncoded _ _ _ _ _ _ _ _ R1) as [Q1 _]. rewrite !blocks_left_busy, Q0, Q1, B1 by (apply (ru_status _ _ _ _ _ _ _ _ R) || apply (ru_status _ _ _ _ _ _ _ _ R1)). unfold fixed_of in F1. injection F1 as _ _ -> _ _. done. }
  destruct r as [ret|].
  { exists s1, ret. split; [by apply run_rest_first|]. split; [|split; [done|split; [lia|apply (steps_progress _ _ bnil); [done|]; intros _; rewrite L1; cbn [snd bnil]; lia]]]. eapply after_running; [exact R1|apply (fixed_wrap _ _ F1)|]. destruct H1 as [[-> H1]|(-> & H1 & H2 & H3 & ->)]; [left; by split; [|left]|right; done]. }
  destruct H1 as [D1 _]. assert (Fx := F1). unfold fixed_of in Fx. injection Fx as X1 X2 X3 X4 X5. assert (Hroom1 := Hroom). rewrite <- X2, <- X3 in Hroom1. destruct (deflate_blocks_ok hdr s1 total _ base cut syms b flush R1 D1 Hroom1) as (s2 & r & c & E2 & S2 & Hmax & H2). rewrite L1 in Hmax.
  rewrite (run_rest_blocks e flush old s1 s2 r E1 E2). destruct H2 as [(base2 & cut2 & syms2 & R2 & H2)|(En & Hf & Ha & H2)].
  - assert (O2 := running_out _ _ _ _ _ _ _ _ R2). destruct (steps_trans e bnil s1 c s2 Oe O1 O2 S1 S2) as [S3 Ed]. rewrite <- app_assoc, <- Ed in R2. exists s2, Z_OK.
    destruct H2 as [[-> H2]|(-> & Hf & Ha)]; [|rewrite write_trailer_none by done]; (split; [done|]); (split; [|split; [apply S3|split; [apply S3|apply (steps_progress _ _ _ _ S3); by rewrite bcat_nil_l]]]); (eapply after_running; [exact R2|apply (fixed_wrap _ _ (sp_fixed _ _ _ S3))|]); left; (split; [done|]).
    + destruct H2 as [|[Hf Ha]]; [by left|right]. rewrite Hf. done.
    + by right.
  - assert (O2 := ed_out _ _ _ _ _ En). destruct (steps_trans e bnil s1 c s2 Oe O1 O2 S1 S2) as [S3 Ed]. rewrite <- app_assoc, <- Ed in En. destruct H2 as [[-> H2]|[-> D2]].
    + exists s2, Z_OK. split; [done|]. split; [|split; [apply S3|split; [apply S3|apply (steps_progress _ _ _ _ S3); by rewrite bcat_nil_l]]]. eapply after_ended; try done. apply (fixed_wrap _ _ (sp_fixed _ _ _ S3)).
    + subst flush. destruct (write_trailer_ok hdr s2 total _ _ En D2) as (s3 & ret & E3 & U3 & Cl & A3 & N3 & T3 & H3). exists s3, ret. split; [done|]. 
      assert (O3 := cl_out _ _ _ _ _ _ Cl). assert (Ed3 := delivered_trans e _ s2 _ s3 (proj1 (oo_out _ Oe)) (sp_outputs _ _ _ S3) U3). rewrite <- app_assoc, <- Ed3 in Cl.
      assert (Ew : d_wrap s2 = d_wrap e) by (assert (Hx := sp_fixed _ _ _ S3); unfold fixed_of in Hx; by injection Hx). rewrite Ew in Cl. split; [eapply after_closed; [exact Cl|done|by rewrite A3|done]|]. split; [intros Hx; apply N3, S3, Hx|]. split; [rewrite A3; apply S3|]. rewrite Ew in U3. rewrite bcat_nil_l in S3. apply (closed_progress hdr _ e c s2 s3 total (out ++ delivered (d_strm e) (d_strm s3)) (b ·· c) Oe O2 O3); try done; [apply S3|apply S3|apply (ed_data _ _ _ _ _ En)| |].
      * rewrite T3. assert (Hx := sp_fixed _ _ _ S3). unfold fixed_of in Hx. injection Hx as _ Hx1 Hx2 Hx3 _. unfold tparams. congruence.
      * intros _. specialize (Hmax eq_refl). unfold blocks_left in Hmax at 1. rewrite (ed_status _ _ _ _ _ En) in Hmax. change (FINISH_STATE =? FINISH_STATE) with true in Hmax. cbv iota in Hmax. lia.
Qed.

(** ** Calls after the last block *)
Lemma ended_flush hdr s s' data out b : ended hdr s data out b -> is_flushed s s' -> out_ok s' -> low s' -> outputs s bnil s' -> ended hdr s' data (out ++ delivered (d_strm s) (d_strm s')) b.
Proof.
  intros [Ho Lo Se Hh Wh Su Da Co Wr Sts Bu Re] Hf O' L' U. assert (Se' := outputs_sent _ _ _ _ _ Ho U Se). rewrite bcat_nil_r in Se'. destruct Hf as (o & n & a & t & w & p & -> & _ & Lw & Hw). split; try done. unfold flushed. dsimp. by rewrite Lw.
Qed.
Lemma closed_flush hdr s s' data out b wrap : closed hdr s data out b wrap -> is_flushed s s' -> out_ok s' -> low s' -> outputs s bnil s' -> closed hdr s' data (out ++ delivered (d_strm s) (d_strm s')) b wrap.
Proof.
  intros [Ho Hv Se Hh [Kb [Hm Hs]] Hd Hw Hst Hr] Hf O' L' U. assert (Se' := outputs_sent _ _ _ _ _ Ho U Se). rewrite bcat_nil_r in Se'. assert (Em := sent_bits _ _ _ _ Se'). cbn [bcat snd bytes_bits] in Em.
  assert (Hv' : w_bi_valid (t_w (d_trees s')) = 0) by (unfold obits in Em; cbn [snd] in Em; unfold low in L'; pose proof (wk_valid _ (oo_writer _ O')); dlia).
  destruct Hf as (o & n & a & t & w & p & -> & _ & Lw & Hw'). by split.
Qed.
Lemma closed_quiet hdr s s' data out b wrap : quiet s s' -> closed hdr s data out b wrap -> closed hdr s' data out b wrap /\ d_strm s' = d_strm s /\ d_pending s' = d_pending s.
Proof. intros [->| ->] [[] Hv Se Hh Wh Hd Hw Hst Hr]; [done|]. split; [by split|done]. Qed.

(** The output that waits goes first. *)
Lemma finish_first e old :
  out_ok e -> low e -> d_status e = FINISH_STATE -> z_avail_in (d_strm e) = 0 ->
  exists s0 s1 r, flush_first e Z_FINISH old = Some (s1, r) /\ is_flushed e s0 /\ quiet s0 s1 /\ out_ok s0 /\ low s0 /\ outputs e bnil s0 /\
    (r = Some Z_OK /\ z_avail_out (d_strm s0) = 0 \/ r = None /\ s1 = s0 /\ drained s0).
Proof.
  intros Ho Lo Hst Ha. unfold flush_first. rewrite Hst, Ha. change (FINISH_STATE =? FINISH_STATE) with true. change (0 =? 0) with true. change (Z_FINISH =? Z_FINISH) with true. cbn [negb andb]. rewrite andb_false_r. cbn [andb].
  destruct (Z.eqb_spec (d_pending e) 0) as [E0|Hne]; cbn [negb].
  - assert (D : drained e) by (split; [done|]; split; [by apply (oo_zero _ Ho)|done]). exists e, e, None. split; [done|]. split; [|split; [by left|]].
    + exists (z_out (d_strm e)), (z_next_out (d_strm e)), (z_avail_out (d_strm e)), (z_total_out (d_strm e)), (t_w (d_trees e)), (d_pending_out e). split; [|split; [done|split; [done|apply (oo_writer _ Ho)]]].
      rewrite <- flushed_writer. by destruct e as [? ? ? ? ? ? ? ? ? ? ? ? ? ? ? ? ? ? ? ? ? ? ? ? ? ? ? ? ? ? ? ? ? ? ? []].
    + split; [done|]. split; [done|]. split; [apply outputs_refl|]. by right.
  - destruct (flush_pending_ok e Ho) as (s0 & -> & O0 & U0 & F0 & L0 & Hd). cbn [mbind option_bind].
    assert (Q : d_status s0 = FINISH_STATE /\ z_avail_in (d_strm s0) = 0) by (destruct F0 as (o & n & a & t & w & p & -> & _); done). destruct Q as [Q1 Q2]. rewrite Q1, Q2. change (FINISH_STATE =? FINISH_STATE) with true. change (0 =? 0) with true. cbn [negb andb].
    destruct (Z.eqb_spec (z_avail_out (d_strm s0)) 0) as [Ez|Hnz].
    + exists s0, (s0 <| d_last_flush := -1 |>), (Some Z_OK). split; [done|]. split; [done|]. split; [by right|]. split; [done|]. split; [done|]. split; [done|]. by left.
    + exists s0, s0, None. split; [done|]. split; [done|]. split; [by left|]. split; [done|]. split; [done|]. split; [done|]. right. destruct Hd; [done|]. done.
Qed.

Lemma finish_blocks e : d_status e = FINISH_STATE -> z_avail_in (d_strm e) = 0 -> d_lookahead e = 0 -> deflate_blocks e Z_FINISH = Some (e, None).
Proof. intros E1 E2 E3. unfold deflate_blocks. rewrite E1, E2, E3. done. Qed.

(** After the last block, output that waited is written. *)
Lemma flushed_progress e s0 s1 : is_flushed e s0 -> quiet s0 s1 -> outputs e bnil s1 -> d_status e = FINISH_STATE -> progress Z_FINISH e s1.
Proof.
  intros F Q U Hst. exists bnil. split; [done|]. assert (X : d_status s1 = d_status e /\ d_wrap s1 = d_wrap e /\ tparams (d_trees s1) = tparams (d_trees e)) by (destruct F as (o & n & a & t & w & p & -> & _); by destruct Q as [->| ->]).
  destruct X as (X1 & X2 & X3). split; [done|]. intros _. unfold rest_left, blocks_left. rewrite X1, X2, Hst. done.
Qed.

Lemma run_ended hdr e data out b old :
  ended hdr e data out b -> z_avail_in (d_strm e) = 0 ->
  exists s' ret, run_rest e Z_FINISH old = Some (s', ret) /\ after hdr e data out Z_FINISH s' ret /\ (is_Some (z_out (d_strm e)) -> is_Some (z_out (d_strm s'))) /\ z_avail_in (d_strm s') = 0 /\ progress Z_FINISH e s'.
Proof.
  intros En Ha. destruct (finish_first e old (ed_out _ _ _ _ _ En) (ed_low _ _ _ _ _ En) (ed_status _ _ _ _ _ En) Ha) as (s0 & s1 & r & E & F0 & Q & O0 & L0 & U0 & H). assert (En0 := ended_flush _ _ _ _ _ _ En F0 O0 L0 U0).
  assert (Ha0 : z_avail_in (d_strm s0) = 0 /\ d_wrap s0 = d_wrap e /\ (is_Some (z_out (d_strm e)) -> is_Some (z_out (d_strm s0)))) by (destruct F0 as (o & n & a & t & w & p & -> & Hs & _); done). destruct Ha0 as (Ha0 & Hw0 & N0).
  destruct H as [[-> Hz]|(-> & -> & D)].
  - exists s1, Z_OK. split; [by apply run_rest_first|]. destruct (ended_quiet _ _ _ _ _ _ Q En0) as (En1 & Ez & _). assert (Ew1 : d_wrap s1 = d_wrap s0) by (destruct Q as [->| ->]; done). rewrite <- Ez in *. assert (U1 : outputs e bnil s1) by (destruct Q as [->| ->]; exact U0). split; [|split; [exact N0|split; [done|apply (flushed_progress e s0); try done; apply (ed_status _ _ _ _ _ En)]]]. eapply after_ended; try done. congruence.
  - rewrite (run_rest_blocks e Z_FINISH old s0 s0 None E (finish_blocks s0 (ed_status _ _ _ _ _ En0) Ha0 (ed_rest _ _ _ _ _ En0))).
    destruct (write_trailer_ok hdr s0 data _ b En0 D) as (s3 & ret & E3 & U3 & Cl & A3 & N3 & T3 & H3). exists s3, ret. split; [done|].     assert (Ed3 := delivered_trans e _ s0 _ s3 (proj1 (oo_out _ (ed_out _ _ _ _ _ En))) U0 U3). rewrite <- app_assoc, <- Ed3 in Cl. rewrite Hw0 in Cl, U3. split; [eapply after_closed; [exact Cl|done|by rewrite A3|done]|]. split; [intros Hx; by apply N3, N0|]. split; [by rewrite A3|].
    apply (closed_progress hdr _ e bnil s0 s3 data (out ++ delivered (d_strm e) (d_strm s3)) b (ed_out _ _ _ _ _ En) O0 (cl_out _ _ _ _ _ _ Cl)); try done; [apply (ed_data _ _ _ _ _ En)|rewrite T3; by destruct F0 as (o & n & a & t & w & p & -> & _)|]. intros _. unfold blocks_left. by rewrite (ed_status _ _ _ _ _ En).
Qed.

Lemma write_trailer_closed s : d_wrap s <= 0 -> write_trailer s Z_FINISH = Some (s, Z_STREAM_END).
Proof. intros H. unfold write_trailer. change (negb (Z_FINISH =? Z_FINISH)) with false. cbv iota. by rewrite (proj2 (Z.leb_le _ _)) by lia. Qed.

Lemma run_closed hdr e data out b wrap old :
  closed hdr e data out b wrap -> z_avail_in (d_strm e) = 0 ->
  exists s' ret, run_rest e Z_FINISH old = Some (s', ret) /\ closed hdr s' data (out ++ delivered (d_strm e) (d_strm s')) b wrap /\ z_avail_in (d_strm s') = 0 /\
    (ret = Z_STREAM_END /\ d_pending s' = 0 \/ ret = Z_OK /\ z_avail_out (d_strm s') = 0) /\ (is_Some (z_out (d_strm e)) -> is_Some (z_out (d_strm s'))) /\ progress Z_FINISH e s'.
Proof.
  intros Cl Ha. assert (Lo : low e) by (unfold low; rewrite (cl_valid _ _ _ _ _ _ Cl); lia). destruct (finish_first e old (cl_out _ _ _ _ _ _ Cl) Lo (cl_status _ _ _ _ _ _ Cl) Ha) as (s0 & s1 & r & E & F0 & Q & O0 & L0 & U0 & H). assert (Cl0 := closed_flush _ _ _ _ _ _ _ Cl F0 O0 L0 U0).
  assert (Ha0 : z_avail_in (d_strm s0) = 0 /\ (is_Some (z_out (d_strm e)) -> is_Some (z_out (d_strm s0)))) by (destruct F0 as (o & n & a & t & w & p & -> & Hs & _); done). destruct Ha0 as (Ha0 & N0).
  destruct H as [[-> Hz]|(-> & -> & D)].
  - exists s1, Z_OK. split; [by apply run_rest_first|]. destruct (closed_quiet _ _ _ _ _ _ _ Q Cl0) as (Cl1 & Ez & _). rewrite <- Ez in *. assert (U1 : outputs e bnil s1) by (destruct Q as [->| ->]; exact U0). split; [exact Cl1|]. split; [done|]. split; [by right|]. split; [exact N0|]. apply (flushed_progress e s0); try done. apply (cl_status _ _ _ _ _ _ Cl).
  - rewrite (run_rest_blocks e Z_FINISH old s0 s0 None E (finish_blocks s0 (cl_status _ _ _ _ _ _ Cl0) Ha0 (cl_rest _ _ _ _ _ _ Cl0))). destruct (cl_wrap _ _ _ _ _ _ Cl0) as [Hw1 Hw2]. exists s0, Z_STREAM_END. split; [apply write_trailer_closed; lia|]. split; [done|]. split; [done|]. split; [left; split; [done|apply D]|]. split; [done|]. apply (flushed_progress e s0); try done. apply (cl_status _ _ _ _ _ _ Cl).
Qed.

(** ** The stream between calls

    [data] was read and [out] delivered so far. *)
Inductive stream_ok (hdr : list Z) (wrap : Z) (s : deflate_state) (data out : list Z) : Prop :=
  | stream_new : fresh s -> d_status s = INIT_STATE -> d_gzhead s = None -> 0 < t_level (d_trees s) -> d_wrap s = wrap -> wrap <= 2 -> hdr = header s -> data = [] -> out = [] -> stream_ok hdr wrap s data out
  | stream_running base cut syms b : running hdr (idle s) data out base cut syms b -> d_wrap s = wrap -> stream_ok hdr wrap s data out
  | stream_ended b : ended hdr (idle s) data out b -> d_wrap s = wrap -> stream_ok hdr wrap s data out
  | stream_closed b : closed hdr (idle s) data out b wrap -> stream_ok hdr wrap s data out.

Lemma out_ok_idle s : out_ok s -> out_ok (idle s).
Proof. intros []. by split. Qed.
Lemma out_ok_entry s z inp flush : out_ok (idle s) -> buffers z inp -> out_ok (entry s z flush).
Proof. intros [] []. by split. Qed.

Lemma ended_idle hdr s data out b : ended hdr s data out b -> ended hdr (idle s) data out b.
Proof. intros [Ho Lo Se Hh Wh Su Da Co Wr Sts Bu Re]. split; try done. by apply out_ok_idle. Qed.
Lemma closed_idle hdr s data out b wrap : closed hdr s data out b wrap -> closed hdr (idle s) data out b wrap.
Proof. intros [Ho Hv Se Hh Wh Hd Hw Hst Hr]. split; try done. by apply out_ok_idle. Qed.
Lemma ended_resume hdr s data out b z inp flush : ended hdr (idle s) data out b -> buffers z inp -> counts z = counts (d_strm s) -> ended hdr (entry s z flush) data out b.
Proof.
  intros [Ho Lo Se Hh Wh Su Da Co Wr Sts Bu Re] B Ec. injection Ec as E1 E2 E3. split; try done; [by apply (out_ok_entry s z inp)| |].
  - change (z_adler z = check_spec (d_wrap s) (initial_check (d_wrap s)) data). rewrite E3. exact Su.
  - change (u32 (z_total_in z) = u32 (Z.of_nat (length data))). rewrite E1. exact Co.
Qed.
Lemma closed_resume hdr s data out b wrap z inp flush : closed hdr (idle s) data out b wrap -> buffers z inp -> closed hdr (entry s z flush) data out b wrap.
Proof. intros [Ho Hv Se Hh Wh Hd Hw Hst Hr] B. split; try done. by apply (out_ok_entry s z inp). Qed.

Lemma fresh_out s : fresh s -> out_ok (idle s).
Proof.
  intros F. destruct (fr_writer _ F) as (W1 & W2 & W3 & W4). assert (Hco := fr_collected _ F). assert (Hk := bs_writer _ _ Hco). assert (Hlit := bs_lit _ _ Hco). assert (Hb := bs_buf _ _ Hco). unfold d_pending in W1.
  split; unfold idle, obytes, d_pending; dsimp; rewrite ?W1, ?W2; try done; [unfold wbits; cbn [snd]; rewrite W1, W4; lia|lia|by left].
Qed.

(** The first call of a stream with a header. *)
Lemma new_started s z inp flush :
  fresh s -> d_status s = INIT_STATE -> d_gzhead s = None -> d_wrap s = 1 \/ d_wrap s = 2 -> buffers z inp -> counts z = counts (d_strm s) ->
  exists s1, write_header (entry s z flush) = Some s1 /\ started (header s) s s1 inp /\ d_strm s1 = z <| z_adler := initial_check (d_wrap s) |> /\ fixed_of s1 = fixed_of s.
Proof.
  intros F Hst Hg Hw B Ec. injection Ec as E1 E2 E3. destruct (fr_start _ F) as (S1 & S2 & S3 & S4). destruct (fr_writer _ F) as (W1 & W2 & W3 & W4). assert (Hco := fr_collected _ F). assert (G := fr_geometry _ F). destruct (fr_totals _ F) as (Ti & _).
  assert (Hlit := bs_lit _ _ Hco). assert (Hb := bs_buf _ _ Hco). assert (Oe := out_ok_entry s z inp flush (fresh_out s F) B). assert (Lb : 512 <= Z.of_nat (length (w_buf (t_w (d_trees s))))) by lia.
  destruct (write_header_ok (entry s z flush) Oe Hst Hw Hg S1 W1 W2 W4 Lb (gm_bits _ G)) as (s1 & E & [(w & Es1 & Lw & Hk) O1 U1 P1 V1]).
  exists s1. split; [done|]. assert (Hhd := header_bytes s (gm_bits _ G)). change (header (entry s z flush)) with (header s) in U1.
  assert (Ez : d_strm s1 = z <| z_adler := initial_check (d_wrap s) |>) by (by rewrite Es1). split; [|split; [done|by rewrite Es1]].
  assert (Q : hfields s1 = hfields s /\ mfields' s1 = mfields' s /\ d_block_start s1 = d_block_start s /\ d_high_water s1 = d_high_water s /\ tparams (d_trees s1) = tparams (d_trees s) /\ d_wrap s1 = d_wrap s /\ d_status s1 = BUSY_STATE) by (by rewrite Es1).
  destruct Q as (Q1 & Q2 & Q3 & Q4 & Q5 & Q6 & Q7). split; try done; rewrite ?Ez; try congruence.
  - rewrite Es1. change (collected ((d_trees (entry s z flush)) <| t_w := w |>) []). apply collected_writer; [|done|done]. unfold entry. cbn [d_trees upd set_d_trees set_d_last_flush set_d_strm].
    change (collected ((d_trees s) <| t_data_type := z_data_type z |>) []). destruct Hco as [[] ? ? ? ? ? ? ? ? ? ?]. by split.
  - unfold low. lia.
  - destruct B as [B1 B2 B3 B4]. by split.
  - reflexivity.
  - change (z_total_in z = 0). congruence.
  - assert (Oh : out_ok (header_start (entry s z flush))) by (destruct Oe; by split). assert (Se := outputs_sent _ _ _ [] bnil Oh U1). rewrite bcat_nil_l, app_nil_l in Se. rewrite delivered_refl in Se by (rewrite Ez; reflexivity). apply Se.
    split; [done|]. change (obits (header_start (entry s z flush))) with (obits s). unfold obits, obytes. rewrite W1, W3, W4. done.
Qed.

(** ** deflate() *)
Lemma deflate_eq z s flush s' ret :
  is_Some (z_out z) -> is_Some (z_in z) \/ z_avail_in z = 0 -> z_avail_out z <> 0 -> 0 <= flush <= Z_BLOCK -> (d_status s = FINISH_STATE -> flush = Z_FINISH) ->
  deflate_run (entry s z flush) flush (d_last_flush s) = Some (s', ret) -> deflate (DStream z (Some s)) flush = Some (with_state s', ret).
Proof.
  intros [o Ho] Hi Hav Hf Hfin E. unfold deflate. cbn [x_state x_strm]. rewrite Z.gtb_ltb, (proj2 (Z.ltb_ge _ _)), (proj2 (Z.ltb_ge _ _)) by lia. cbn [orb]. rewrite Ho. cbn [is_null orb].
  assert (Hn : is_null (z_in z) && negb (z_avail_in z =? 0) = false) by (destruct Hi as [[i ->]| ->]; [done|]; by rewrite andb_false_r). rewrite Hn. cbn [orb].
  assert (Hs : (d_status s =? FINISH_STATE) && negb (flush =? Z_FINISH) = false) by (destruct (Z.eqb_spec (d_status s) FINISH_STATE) as [Es|]; [rewrite (Hfin Es)|]; done). rewrite Hs. rewrite (proj2 (Z.eqb_neq _ _) Hav).
  unfold entry in E. rewrite E. done.
Qed.

(** What a call consumes and delivers. *)
Definition consumed (z z' : z_stream) (inp : list Z) : list Z := take (Z.to_nat (z_avail_in z - z_avail_in z')) inp.

(** All the bits that are to be delivered before the stream ends. *)
Definition bits_left (s : deflate_state) (n : Z) : Z := (obits s).2 + rest_left s n + if d_status s =? INIT_STATE then 80 else 0.

Record called (hdr : list Z) (wrap : Z) (s : deflate_state) (data out : list Z) (z : z_stream) (inp : list Z) (flush : Z) (s' : deflate_state) (ret : Z) : Prop := {
  ca_stream : stream_ok hdr wrap s' (data ++ consumed z (d_strm s') inp) (out ++ delivered z (d_strm s'));
  ca_input : 0 <= z_avail_in (d_strm s') <= z_avail_in z;
  ca_output : moved_out z (d_strm s');
  ca_null : is_Some (z_out (d_strm s'));
  ca_params : tparams (d_trees s') = tparams (d_trees s);
  ca_left : flush = Z_FINISH -> 8 * Z.of_nat (length (delivered z (d_strm s'))) + bits_left s' (z_avail_in (d_strm s')) <= bits_left s (z_avail_in z);
  ca_ret : ret = Z_STREAM_END /\ flush = Z_FINISH /\ z_avail_in (d_strm s') = 0 /\ encodes hdr wrap (data ++ inp) (out ++ delivered z (d_strm s')) \/
           ret = Z_OK /\ (z_avail_out (d_strm s') = 0 \/ flush <> Z_FINISH /\ z_avail_in (d_strm s') = 0) \/
           ret = Z_BUF_ERROR /\ flush <> Z_FINISH /\ z_avail_in z = 0 /\ bufs (d_strm s') = bufs z;
  ca_status : ret = Z_STREAM_END -> d_status s' = FINISH_STATE;
  ca_room : 0 <= z_avail_out (d_strm s') }.

Lemma consumed_all z z' inp : z_avail_in z = Z.of_nat (length inp) -> z_avail_in z' = 0 -> consumed z z' inp = inp.
Proof. intros E1 E2. unfold consumed. rewrite E1, E2, Z.sub_0_r, Nat2Z.id. apply firstn_all. Qed.

(** The bytes read so far, from the position of the window. *)
Lemma read_so_far data inp z z' n :
  z_avail_in z = Z.of_nat (length inp) -> 0 <= z_avail_in z' <= z_avail_in z -> n + z_avail_in z' = Z.of_nat (length (data ++ inp)) -> take (Z.to_nat n) (data ++ inp) = data ++ consumed z z' inp.
Proof.
  intros E Ha Hn. rewrite length_app in Hn. unfold consumed. rewrite take_app_ge by lia. f_equal. f_equal. lia.
Qed.

Lemma outputs_size s c s' : out_ok s -> outputs s c s' -> 8 * Z.of_nat (length (delivered (d_strm s) (d_strm s'))) + (obits s').2 = (obits s).2 + c.2.
Proof.
  intros Ho U. assert (Se := outputs_delivered _ _ _ (proj1 (oo_out _ Ho)) U). destruct U as (bs & _ & E & E1 & _ & _ & _ & E5). rewrite (Se bs E1 E5). apply (f_equal snd) in E. exact E.
Qed.

Lemma after_status hdr e total out flush s' ret : after hdr e total out flush s' ret -> d_status s' = BUSY_STATE \/ d_status s' = FINISH_STATE.
Proof. intros [base cut syms b r R _ _|b En _ _ _ _|b r Cl _ _ _]; [left; apply (ru_status _ _ _ _ _ _ _ _ R)|right; apply (ed_status _ _ _ _ _ En)|right; apply (cl_status _ _ _ _ _ _ Cl)]. Qed.

(** What the output takes from the bits that are to be delivered. *)
Lemma progress_left flush s n e s' :
  out_ok e -> progress flush e s' -> (obits e).2 + rest_left e (z_avail_in (d_strm e)) <= bits_left s n -> d_status s' = BUSY_STATE \/ d_status s' = FINISH_STATE ->
  flush = Z_FINISH -> 8 * Z.of_nat (length (delivered (d_strm e) (d_strm s'))) + bits_left s' (z_avail_in (d_strm s')) <= bits_left s n.
Proof.
  intros Ho (c & U & _ & H) Hl Hst Hf. specialize (H Hf). assert (Hs := outputs_size e c s' Ho U). unfold bits_left at 1. assert (d_status s' =? INIT_STATE = false) as -> by (destruct Hst as [->| ->]; done). lia.
Qed.

Lemma after_called hdr wrap s data out z inp flush e s' ret :
  buffers z inp -> bufs (d_strm e) = bufs z -> z_total_out (d_strm e) = z_total_out z -> out_ok e -> progress flush e s' -> tparams (d_trees e) = tparams (d_trees s) -> (obits e).2 + rest_left e (z_avail_in (d_strm e)) <= bits_left s (z_avail_in z) -> d_wrap e = wrap -> 0 <= wrap -> after hdr e (data ++ inp) out flush s' ret -> is_Some (z_out (d_strm s')) -> z_avail_in (d_strm s') <= z_avail_in (d_strm e) ->
  called hdr wrap s data out z inp flush s' ret.
Proof.
  intros [Bi _ _ _] Eb Et Oe Pr Tp Hbl Ew Hw A N Hle. assert (Hleft := progress_left flush s (z_avail_in z) e s' Oe Pr Hbl (after_status _ _ _ _ _ _ _ A)). destruct Pr as (c & U & Tp' & _). rewrite Tp in Tp'. assert (Mo := outputs_moved _ _ _ Oe U). unfold bufs in Eb. injection Eb as F1 F2 F3 F4 F5 F6. rewrite F3 in Hle. assert (Ed : delivered (d_strm e) (d_strm s') = delivered z (d_strm s')) by (unfold delivered; by rewrite F5). assert (Mo' : moved_out z (d_strm s')) by (destruct Mo as [M1 M2 M3 M4 M5]; rewrite Ed, ?F5, ?F6, ?Et in *; unfold out_buf in *; rewrite F4 in *; by split). clear Mo. rewrite Ed in Hleft.
  destruct A as [base cut syms b ret R Hrw H|b En Hew Hf Ha Ho|b ret Cl Hf Ha H]; rewrite Ed in *.
  - destruct (running_pos _ _ _ _ _ _ _ _ R) as [Hp Hl]. destruct (vw_avail _ _ _ (co_view _ _ _ _ _ _ _ (ru_core _ _ _ _ _ _ _ _ R))) as (_ & Ha & _).
    assert (Er := read_so_far data inp z (d_strm s') (pos s' base) ltac:(apply Bi) ltac:(lia) Hl). split; [|lia|done|done|done|done| | |apply (oo_out _ (running_out _ _ _ _ _ _ _ _ R))].
    + rewrite <- Er. eapply stream_running; [by apply running_idle|congruence].
    + destruct H as [H|(H1 & H2 & H3 & H4)]; [right; by left|]. right. right. split; [done|]. split; [done|]. split; [congruence|]. rewrite H4. unfold bufs. congruence.
    + destruct H as [[-> _]|[-> _]]; discriminate.
  - assert (Ec : consumed z (d_strm s') inp = inp) by (apply consumed_all; [apply Bi|done]). split; [|lia|done|done|done|done|right; left; split; [done|by left]|discriminate|apply (oo_out _ (ed_out _ _ _ _ _ En))]. rewrite Ec. eapply stream_ended; [by apply ended_idle|congruence].
  - assert (Ec : consumed z (d_strm s') inp = inp) by (apply consumed_all; [apply Bi|done]). rewrite Ew in Cl. split; [|lia|done|done|done|done| |intros _; apply (cl_status _ _ _ _ _ _ Cl)|apply (oo_out _ (cl_out _ _ _ _ _ _ Cl))].
    + rewrite Ec. eapply stream_closed. by apply closed_idle.
    + destruct H as [[-> Hp]|[-> Hz]]; [left|right; left; split; [done|by left]]. split; [done|]. split; [done|]. split; [done|]. by apply (closed_encodes hdr s' _ _ b).
Qed.

Lemma entry_left s z flush : (obits (entry s z flush)).2 + rest_left (entry s z flush) (z_avail_in z) <= bits_left s (z_avail_in z).
Proof. change (obits (entry s z flush)) with (obits s). change (rest_left (entry s z flush)) with (rest_left s). unfold bits_left. destruct (_ =? _); lia. Qed.

Lemma new_left s s1 z inp :
  fresh s -> d_status s = INIT_STATE -> d_wrap s = 1 \/ d_wrap s = 2 -> started (header s) s s1 inp -> z_avail_in (d_strm s1) = z_avail_in z ->
  (obits s1).2 + rest_left s1 (z_avail_in (d_strm s1)) <= bits_left s (z_avail_in z).
Proof.
  intros F Hst Hw [Eh Em Eb Ehi Ep Ew Hco Ho Lo Hst1 B Hsum Hcnt [_ Hs] Hhd] Ea. change (bytes_bits []) with bnil in Hs. rewrite bcat_nil_l in Hs. rewrite Hs, Ea. destruct (fr_start _ F) as (S1 & S2 & S3 & S4). destruct (fr_writer _ F) as (W1 & W2 & W3 & W4).
  unfold hfields in Eh. injection Eh as _ _ _ _ _ _ _ _ _ _ _ _ E1 E2 E3. unfold tparams in Ep. injection Ep as T1 T2 T3.
  unfold bits_left, rest_left, blocks_left, uncoded. rewrite Hst, Hst1, Ew, T3, E1, E2, Eb, S4. change (INIT_STATE =? FINISH_STATE) with false. change (BUSY_STATE =? FINISH_STATE) with false. change (INIT_STATE =? INIT_STATE) with true. cbv iota.
  assert ((bytes_bits (header s)).2 <= 80) by (unfold header; destruct (d_wrap s =? 1); [done|]; destruct (d_wrap s =? 2); done). assert (Hob : 0 <= (obits s).2) by (unfold obits; rewrite W1, W4; done). lia.
Qed.

Theorem deflate_call_ok hdr wrap s data out z inp flush :
  stream_ok hdr wrap s data out -> buffers z inp -> counts z = counts (d_strm s) -> is_Some (z_out z) -> is_Some (z_in z) \/ z_avail_in z = 0 -> z_avail_out z <> 0 -> 0 <= flush <= Z_BLOCK ->
  (d_status s = FINISH_STATE -> flush = Z_FINISH /\ inp = []) -> roomy (class_of (t_strategy (d_trees s))) (t_lit_bufsize (d_trees s)) (data ++ inp) ->
  exists s' ret, deflate (DStream z (Some s)) flush = Some (with_state s', ret) /\ called hdr wrap s data out z inp flush s' ret.
Proof.
  intros S B Ec Ho Hi Hav Hf Hfin Hroom. assert (Hfin' : d_status s = FINISH_STATE -> flush = Z_FINISH) by (intros Hx; by apply Hfin).
  assert (Hgo : forall s' ret, deflate_run (entry s z flush) flush (d_last_flush s) = Some (s', ret) -> deflate (DStream z (Some s)) flush = Some (with_state s', ret)) by (intros; by apply deflate_eq).
  destruct S as [F Hst Hg Hlv Hw Hw2 -> -> ->|base cut syms b R Hw|b En Hw|b Cl].
  - assert (Hwr : d_wrap s = 1 \/ d_wrap s = 2).
    { assert (Fs := fr_status _ F). assert (Fw := fr_wrap _ F). rewrite Hst in Fs. destruct (Z.eqb_spec (d_wrap s) 0); [done|lia]. }
    destruct (new_started s z inp flush F Hst Hg Hwr B Ec) as (s1 & E1 & Sd & Ez & Fx). assert (R := fresh_running _ _ _ _ F Hlv ltac:(lia) Sd). unfold fixed_of in Fx. injection Fx as X1 X2 X3 X4 X5. rewrite <- X2, <- X3 in Hroom.
    destruct (run_running _ _ _ _ _ _ _ _ flush (d_last_flush s) R Hroom) as (s' & ret & E & A & N & Hle & Pr). exists s', ret. split; [apply Hgo; by rewrite (deflate_run_eq _ _ _ _ E1)|].
    apply (after_called _ _ _ _ _ _ _ _ s1); try done; [by rewrite Ez|by rewrite Ez|apply (running_out _ _ _ _ _ _ _ _ R)|unfold tparams; congruence|apply (new_left s s1 z inp F Hst Hwr Sd); by rewrite Ez|congruence|lia|]. apply N. by rewrite Ez.
  - assert (Hw0 := ru_wrap _ _ _ _ _ _ _ _ R). change (d_wrap (idle s)) with (d_wrap s) in Hw0. assert (Hst := ru_status _ _ _ _ _ _ _ _ R). change (d_status (idle s)) with (d_status s) in Hst. assert (R1 := running_resume _ _ _ _ _ _ _ _ z inp flush R B Ec).
    destruct (run_running _ _ _ _ _ _ _ _ flush (d_last_flush s) R1 Hroom) as (s' & ret & E & A & N & Hle & Pr). exists s', ret. split; [apply Hgo; rewrite (deflate_run_eq _ _ _ (entry s z flush)); [done|by apply write_header_busy]|].
    apply (after_called _ _ _ _ _ _ _ _ (entry s z flush)); try done; [apply (running_out _ _ _ _ _ _ _ _ R1)|by apply entry_left|lia|]. by apply N.
  - assert (Hst := ed_status _ _ _ _ _ En). change (d_status (idle s)) with (d_status s) in Hst. destruct (Hfin Hst) as [-> ->]. assert (Hw0 := ed_wrap _ _ _ _ _ En). change (d_wrap (idle s)) with (d_wrap s) in Hw0. assert (En1 := ended_resume _ _ _ _ _ z [] Z_FINISH En B Ec).
    assert (Ha : z_avail_in z = 0) by apply B. destruct (run_ended hdr (entry s z Z_FINISH) data out b (d_last_flush s) En1 Ha) as (s' & ret & E & A & N & Ha' & Pr).
    exists s', ret. split; [apply Hgo; rewrite (deflate_run_eq _ _ _ (entry s z Z_FINISH)); [done|]; by apply write_header_finish|].
    apply (after_called _ _ _ _ _ _ _ _ (entry s z Z_FINISH)); try done; [apply (ed_out _ _ _ _ _ En1)|by apply entry_left|lia|by rewrite app_nil_r|by apply N|]. change (z_avail_in (d_strm (entry s z Z_FINISH))) with (z_avail_in z). lia.
  - assert (Hst := cl_status _ _ _ _ _ _ Cl). change (d_status (idle s)) with (d_status s) in Hst. destruct (Hfin Hst) as [-> ->]. assert (Cl1 := closed_resume _ _ _ _ _ _ z [] Z_FINISH Cl B). assert (Ha : z_avail_in z = 0) by apply B.
    destruct (run_closed hdr (entry s z Z_FINISH) data out b wrap (d_last_flush s) Cl1 Ha) as (s' & ret & E & Cl2 & Ha' & H & N & Pr). assert (Oe := cl_out _ _ _ _ _ _ Cl1). assert (Hl := progress_left Z_FINISH s (z_avail_in z) _ s' Oe Pr (entry_left s z Z_FINISH) (or_intror (cl_status _ _ _ _ _ _ Cl2))). destruct Pr as (c & U & Tp & _). assert (Mo := outputs_moved _ _ _ Oe U). change (d_strm (entry s z Z_FINISH)) with z in *.
    exists s', ret. split; [apply Hgo; rewrite (deflate_run_eq _ _ _ (entry s z Z_FINISH)); [done|]; by apply write_header_finish|].
    split; [|lia|exact Mo|by apply N|exact Tp|exact Hl| |intros _; apply (cl_status _ _ _ _ _ _ Cl2)|apply (oo_out _ (cl_out _ _ _ _ _ _ Cl2))].
    + rewrite consumed_all, app_nil_r by (done || apply B). eapply stream_closed. by apply closed_idle.
    + destruct H as [[-> Hp]|[-> Hz]]; [left|right; left; split; [done|by left]]. split; [done|]. split; [done|]. split; [done|]. rewrite app_nil_r. by apply (closed_encodes hdr s' _ _ b).
Qed.

(** ** From the initialisation on *)
Lemma fresh_stream s : fresh s -> d_gzhead s = None -> 0 < t_level (d_trees s) -> d_wrap s <= 2 -> stream_ok (header s) (d_wrap s) s [] [].
Proof.
  intros F Hg Hlv Hw. assert (Hst := fr_status _ F). destruct (Z.eqb_spec (d_wrap s) 0) as [E|].
  - assert (Eh : header s = []) by (unfold header; by rewrite E). rewrite Eh. destruct (fr_start _ F) as (_ & _ & _ & S4). destruct (fr_writer _ F) as (W1 & W2 & W3 & W4). eapply stream_running; [|done]. apply (fresh_running [] s (idle s) [] F Hlv Hw). split; try done.
    + apply (fr_collected _ F).
    + by apply fresh_out.
    + change (w_bi_valid (t_w (d_trees s)) < 8). lia.
    + apply (fr_sum _ F).
    + apply (fr_totals _ F).
    + split; [done|]. change (obits (idle s)) with (obits s). unfold obits, obytes. by rewrite W1, W3, W4.
  - by apply stream_new.
Qed.

(** The condition under which a call is made: with its buffers [z], of which [inp] is the input. *)
Record may_call (s : deflate_state) (z : z_stream) (inp : list Z) (flush : Z) : Prop := {
  mc_buffers : buffers z inp;
  mc_counts : counts z = counts (d_strm s);
  mc_out : is_Some (z_out z);
  mc_in : is_Some (z_in z) \/ z_avail_in z = 0;
  mc_space : z_avail_out z <> 0;
  mc_flush : 0 <= flush <= Z_BLOCK;
  mc_finish : d_status s = FINISH_STATE -> flush = Z_FINISH /\ inp = [] }.

(** However the data is cut into blocks and symbols, the buffers have room for it. *)
Definition fits (s : deflate_state) (total : list Z) : Prop := roomy (class_of (t_strategy (d_trees s))) (t_lit_bufsize (d_trees s)) total.

Lemma may_call_ok hdr wrap s data out z inp flush :
  stream_ok hdr wrap s data out -> may_call s z inp flush -> fits s (data ++ inp) -> exists s' ret, deflate (DStream z (Some s)) flush = Some (with_state s', ret) /\ called hdr wrap s data out z inp flush s' ret.
Proof. intros S [] Hf. by apply deflate_call_ok. Qed.

Section session.
(** A new stream, of a level that is not 0. *)
Context (s0 : deflate_state) (Hfresh : fresh s0) (Hgz : d_gzhead s0 = None) (Hlevel : 0 < t_level (d_trees s0)) (Hwrap : d_wrap s0 <= 2).

(** The states that calls of [deflate()] reach, with what was read and delivered so far. *)
Inductive session : deflate_state -> list Z -> list Z -> Prop :=
  | session_new : session s0 [] []
  | session_call s data out z inp flush s' ret :
      session s data out -> may_call s z inp flush -> fits s0 (data ++ inp) -> deflate (DStream z (Some s)) flush = Some (with_state s', ret) ->
      session s' (data ++ consumed z (d_strm s') inp) (out ++ delivered z (d_strm s')).

Lemma fits_same s total : tparams (d_trees s) = tparams (d_trees s0) -> fits s0 total -> fits s total.
Proof. unfold tparams, fits. intros [= _ -> ->]. done. Qed.

Lemma session_ok s data out : session s data out -> stream_ok (header s0) (d_wrap s0) s data out /\ tparams (d_trees s) = tparams (d_trees s0).
Proof.
  induction 1 as [|s data out z inp flush s' ret _ [IH Tp] M R E]; [split; [by apply fresh_stream|done]|].
  destruct (may_call_ok _ _ _ _ _ _ _ _ IH M (fits_same _ _ Tp R)) as (s1 & ret1 & E1 & C). rewrite E in E1. injection E1 as _ -> _. split; [apply (ca_stream _ _ _ _ _ _ _ _ _ _ C)|by rewrite (ca_params _ _ _ _ _ _ _ _ _ _ C)].
Qed.

Lemma session_called s data out z inp flush :
  session s data out -> may_call s z inp flush -> fits s0 (data ++ inp) ->
  exists s' ret, deflate (DStream z (Some s)) flush = Some (with_state s', ret) /\ called (header s0) (d_wrap s0) s data out z inp flush s' ret.
Proof. intros H M R. destruct (session_ok s data out H) as [S Tp]. apply may_call_ok; [done|done|by apply fits_same]. Qed.

(** The caller asks for the end of the stream, [n] times, with the rest of the same input [inp]; no call ends it. *)
Inductive unfinished (s : deflate_state) (data inp : list Z) : nat -> deflate_state -> list Z -> list Z -> Prop :=
  | unfinished_start : unfinished s data inp O s data inp
  | unfinished_call n s1 data1 inp1 z s2 ret :
      unfinished s data inp n s1 data1 inp1 -> may_call s1 z inp1 Z_FINISH -> deflate (DStream z (Some s1)) Z_FINISH = Some (with_state s2, ret) -> ret <> Z_STREAM_END ->
      unfinished s data inp (S n) s2 (data1 ++ consumed z (d_strm s2) inp1) (drop (Z.to_nat (z_avail_in z - z_avail_in (d_strm s2))) inp1).

Lemma stream_left hdr wrap s data out n : stream_ok hdr wrap s data out -> 0 <= n -> 0 <= bits_left s n.
Proof.
  intros S Hn. unfold bits_left, rest_left. assert (Hw : 0 <= if d_wrap s >? 0 then 64 else 0) by (destruct (_ >? _); lia). assert (Hi : 0 <= if d_status s =? INIT_STATE then 80 else 0) by (destruct (_ =? _); lia).
  assert (Ho : 0 <= (obits s).2 /\ 0 <= blocks_left s n); [|lia].
  destruct S as [F Hst _ _ _ _ _ _ _|base cut syms b R _|b En _|b Cl].
  - assert (Oi := fresh_out s F). split; [exact (proj1 (obits_ok _ Oi))|]. destruct (fr_start _ F) as (S1 & S2 & S3 & S4). unfold blocks_left, uncoded. rewrite Hst, S1, S2, S4. change (INIT_STATE =? FINISH_STATE) with false. cbv iota. pose proof (bs_lit _ _ (fr_collected _ F)). unfold block_max. nia.
  - split; [exact (proj1 (obits_ok _ (running_out _ _ _ _ _ _ _ _ R)))|]. destruct (running_uncoded _ _ _ _ _ _ _ _ R) as [_ U]. assert (Hl := bs_lit _ _ (co_collected _ _ _ _ _ _ _ (ru_core _ _ _ _ _ _ _ _ R))). assert (Hst := ru_status _ _ _ _ _ _ _ _ R).
    change (uncoded (idle s)) with (uncoded s) in U. change (z_avail_in (d_strm (idle s))) with 0 in U. change (d_trees (idle s)) with (d_trees s) in Hl. rewrite blocks_left_busy by exact Hst. unfold uncoded, block_max in *. nia.
  - split; [exact (proj1 (obits_ok _ (ed_out _ _ _ _ _ En)))|]. unfold blocks_left. assert (Hst := ed_status _ _ _ _ _ En). change (d_status (idle s)) with (d_status s) in Hst. rewrite Hst. done.
  - split; [exact (proj1 (obits_ok _ (cl_out _ _ _ _ _ _ Cl)))|]. unfold blocks_left. assert (Hst := cl_status _ _ _ _ _ _ Cl). change (d_status (idle s)) with (d_status s) in Hst. rewrite Hst. done.
Qed.

(** A call that does not end the stream fills the output. *)
Lemma called_full hdr wrap s data out z inp s' ret : called hdr wrap s data out z inp Z_FINISH s' ret -> ret <> Z_STREAM_END -> z_avail_out z = Z.of_nat (length (delivered z (d_strm s'))).
Proof. intros C Hr. destruct (ca_ret _ _ _ _ _ _ _ _ _ _ C) as [[? _]|[[_ [E|[? _]]]|(_ & ? & _)]]; try done. rewrite (mo_avail _ _ (ca_output _ _ _ _ _ _ _ _ _ _ C)) in E. lia. Qed.

Lemma unfinished_ok hdr wrap s data out inp n s' data' inp' :
  stream_ok hdr wrap s data out -> fits s (data ++ inp) -> unfinished s data inp n s' data' inp' ->
  exists out', stream_ok hdr wrap s' data' out' /\ tparams (d_trees s') = tparams (d_trees s) /\ data' ++ inp' = data ++ inp /\
    8 * Z.of_nat n + bits_left s' (Z.of_nat (length inp')) <= bits_left s (Z.of_nat (length inp)).
Proof.
  intros S Hf. induction 1 as [|n s1 data1 inp1 z s2 ret _ IH M E Hr].
  - exists out. split; [done|]. split; [done|]. split; [done|lia].
  - destruct IH as (out1 & S1 & Tp1 & Ed & Hl). assert (Hf1 : fits s1 (data1 ++ inp1)) by (rewrite Ed; unfold fits, tparams in *; by injection Tp1 as _ -> ->).
    destruct (may_call_ok _ _ _ _ _ _ _ _ S1 M Hf1) as (s2' & ret' & E' & C). rewrite E in E'. injection E' as _ <- <-. exists (out1 ++ delivered z (d_strm s2)).
    split; [apply (ca_stream _ _ _ _ _ _ _ _ _ _ C)|]. split; [by rewrite (ca_params _ _ _ _ _ _ _ _ _ _ C)|]. unfold consumed. rewrite <- app_assoc, take_drop. split; [done|].
    assert (Hd := called_full _ _ _ _ _ _ _ _ _ C Hr). assert (Hlt := ca_left _ _ _ _ _ _ _ _ _ _ C eq_refl). assert (Hi := ca_input _ _ _ _ _ _ _ _ _ _ C). destruct (bf_in _ _ (mc_buffers _ _ _ _ M)) as (_ & _ & Ea). assert (Hsp := mc_space _ _ _ _ M).
    rewrite length_drop. replace (Z.of_nat (length inp1 - Z.to_nat (z_avail_in z - z_avail_in (d_strm s2)))) with (z_avail_in (d_strm s2)) by lia. rewrite Ea in Hlt. lia.
Qed.
End session.
