(* ===== verification/DeflateClaims.v ===== *)
(** The properties of the compressor, with examples on which their hypotheses hold. *)
From S2P Require Import Prelude Record Bits Huffman Lz Fixed DeflateFormat InflateState TreesTables Trees.
From S2P Require Import BitWriter TreesCodes TreesEmit TreesBuild TreesLens TreesTree TreesRle TreesHeader TreesTally.
From S2P Require Import TreesFlush DeflateState Deflate DeflateOut DeflateHash DeflateWindow DeflateMatch DeflateBlocks DeflateLoop.
From S2P Require Import DeflateHuff DeflateFast DeflateSlow DeflateInit DeflateApi DeflateRun DeflateCall DeflateStream InflateClaims.

(** ** A new stream *)
Definition ex_node : ct_data := CtData 0 0.
Definition ex_dtrees : trees_state :=
  TreesState (Writer [] 0 0 0) 0 0 0 (replicate 573 ex_node) (replicate 61 ex_node) (replicate 39 ex_node)
    0 0 0 (replicate 16 0) (replicate 573 0) 0 0 (replicate 573 0) 0 0 0 0 0.
Definition ex_dstate : deflate_state :=
  DeflateState ex_strm 0 0 0 0 None 0 0 0 0 0 0 [] 0 [] [] 0 0 0 0 0 0 0 0 0 0 0 0 0 0 0 0 0 0 0 ex_dtrees.
Definition ex_new : dstream := DStream ex_strm None.
Definition ex_zalloc_dstate (_ : nat) : option deflate_state := Some ex_dstate.

Lemma ex_zalloc_length n k l : ex_zalloc n k = Some l -> Z.of_nat (length l) = k.
Proof. apply ex_zalloc_ok. Qed.
Lemma ex_dstate_sizes n s : ex_zalloc_dstate n = Some s -> sizes_ok (d_trees s).
Proof. intros [= <-]. split; [by intros []|done|done]. Qed.

(** A zlib stream of level 6 with a window of 512 bytes, and one without wrapper for [Z_HUFFMAN_ONLY]. *)
Lemma ex_all_allocated : all_allocated ex_zalloc ex_zalloc_dstate 0 (2 ^ 9) (2 ^ 11) (2 ^ 10).
Proof.
  split; [by eexists|]. split; [|by repeat split; eexists].
  exists (replicate 1024 0). split; [reflexivity|]. apply Forall_replicate. unfold byte_ok. lia.
Qed.

(** Input of eight bytes and room for [room] bytes of output. *)
Definition ex_text : list Z := [97; 98; 97; 98; 97; 98; 97; 98].
Definition ex_buffers_of (z : z_stream) (room : nat) : z_stream :=
  z <| z_in := Some ex_text |> <| z_next_in := 0 |> <| z_avail_in := 8 |>
    <| z_out := Some (replicate room 0) |> <| z_next_out := 0 |> <| z_avail_out := Z.of_nat room |>.
Lemma ex_text_ok : Forall byte_ok ex_text.
Proof. repeat (apply List.Forall_cons; [unfold byte_ok; lia|]). apply List.Forall_nil. Qed.
Lemma ex_buffers_ok z room : Z.of_nat room < 2 ^ 32 -> buffers (ex_buffers_of z room) ex_text.
Proof.
  intros H. split; [done| |apply ex_text_ok|].
  - intros i _. unfold ex_buffers_of, in_buf. cbn. f_equal.
  - unfold ex_buffers_of, out_buf. cbn. rewrite length_replicate. lia.
Qed.
Lemma ex_may_call s room flush : d_status s <> FINISH_STATE -> (0 < room)%nat -> Z.of_nat room < 2 ^ 32 -> 0 <= flush <= Z_BLOCK -> may_call s (ex_buffers_of (d_strm s) room) ex_text flush.
Proof.
  intros Hs H0 Hr Hf. split; try done.
  - by apply ex_buffers_ok.
  - left. by eexists.
  - change (Z.of_nat room <> 0). lia.
Qed.

(** ** Whole streams *)

(** What [deflateInit2_()] leaves, for the theorems on the calls that follow. *)
Definition stream_config (s : deflate_state) (level windowBits memLevel strategy : Z) : Prop :=
  fresh s /\ d_gzhead s = None /\ d_wrap s = (window_params windowBits).1 /\ t_level (d_trees s) = level_of level /\
  t_strategy (d_trees s) = strategy /\ t_lit_bufsize (d_trees s) = 2 ^ (memLevel + 6) /\ d_w_bits s = Z.max 9 (window_params windowBits).2.

Lemma init_config zalloc zalloc_state x level windowBits memLevel strategy :
  (forall n k l, zalloc n k = Some l -> Z.of_nat (length l) = k) -> (forall n s, zalloc_state n = Some s -> sizes_ok (d_trees s)) ->
  params_ok level Z_DEFLATED windowBits memLevel strategy = true ->
  all_allocated zalloc zalloc_state (z_calls (x_strm x)) (2 ^ Z.max 9 (window_params windowBits).2) (2 ^ (memLevel + 7)) (2 ^ (memLevel + 6)) ->
  exists s, deflateInit2_ zalloc zalloc_state x level Z_DEFLATED windowBits memLevel strategy true = Some (with_state s, Z_OK) /\
    stream_config s level windowBits memLevel strategy /\ bufs (d_strm s) = bufs (x_strm x).
Proof.
  intros Hz Hs Hp Ha. destruct (init2_ok zalloc zalloc_state Hz Hs x level Z_DEFLATED windowBits memLevel strategy Hp Ha) as (s & E & F & Ec & Eb).
  exists s. split; [done|]. split; [|done]. unfold config_of in Ec. injection Ec as E1 E2 E3 E4 E5 E6 E7 E8 E9 E10. assert (Hw := fr_wrap _ F). rewrite Z.abs_eq in E1 by done. done.
Qed.

Lemma level_of_pos level windowBits memLevel strategy : params_ok level Z_DEFLATED windowBits memLevel strategy = true -> level <> 0 -> 0 < level_of level.
Proof. unfold params_ok. rewrite !andb_true_iff, !Z.leb_le. intros ((((_ & H) & _) & _) & _) Hn. unfold level_of in *. destruct (level =? Z_DEFAULT_COMPRESSION); lia. Qed.
Lemma window_wrap windowBits : (window_params windowBits).1 <= 2.
Proof. unfold window_params. destruct (windowBits <? 0), (windowBits >? 15); cbn [fst]; lia. Qed.

(** C2. A stream that [deflateInit2_()] started, with all allocations, any level but 0, any strategy, window size, [memLevel] and wrapper.
    As long as the blocks of all the data have room in the pending buffer, which is shared with the symbols ([roomy]: true of
    data up to a length that grows with [memLevel], see [roomy_short], 11865 bytes for the default of 8, and of longer data
    with few enough matches), every call of [deflate()] with valid buffers and any flush value, at any point of any
    sequence of such calls, returns. It consumes a part
    of the input, delivers bytes to the output and changes nothing else there, and returns [Z_OK] only when the output is full or
    all input was consumed. When it returns [Z_STREAM_END] the bytes delivered by all calls together are the header, a sequence of
    blocks of the deflate format that is read back as exactly the bytes consumed by all calls, and their Adler-32, or their CRC-32
    and length. *)
Theorem deflate_stream_correct (zalloc : nat -> Z -> option (list Z)) (zalloc_state : nat -> option deflate_state) (x : dstream)
    (level windowBits memLevel strategy : Z) :
  (forall n k l, zalloc n k = Some l -> Z.of_nat (length l) = k) -> (forall n s, zalloc_state n = Some s -> sizes_ok (d_trees s)) ->
  params_ok level Z_DEFLATED windowBits memLevel strategy = true -> level <> 0 ->
  all_allocated zalloc zalloc_state (z_calls (x_strm x)) (2 ^ Z.max 9 (window_params windowBits).2) (2 ^ (memLevel + 7)) (2 ^ (memLevel + 6)) ->
  exists s0, deflateInit2_ zalloc zalloc_state x level Z_DEFLATED windowBits memLevel strategy true = Some (with_state s0, Z_OK) /\
    stream_config s0 level windowBits memLevel strategy /\
    forall s data out z inp flush,
      session s0 s data out -> may_call s z inp flush -> roomy (class_of strategy) (2 ^ (memLevel + 6)) (data ++ inp) ->
      exists s' ret, deflate (DStream z (Some s)) flush = Some (with_state s', ret) /\ called (header s0) (window_params windowBits).1 s data out z inp flush s' ret.
Proof.
  intros Hz Hs Hp Hl Ha. destruct (init_config zalloc zalloc_state x level windowBits memLevel strategy Hz Hs Hp Ha) as (s0 & E & Cf & _). exists s0. split; [done|]. split; [done|].
  destruct Cf as (F & Hg & Hw & Hlv & Hst & Hlit & _). intros s data out z inp flush S M R. rewrite <- Hw. apply session_called; try done; [|rewrite Hw; apply window_wrap|unfold fits; by rewrite Hst, Hlit].
  rewrite Hlv. by apply (level_of_pos level windowBits memLevel strategy).
Qed.

Lemma ex_room : roomy (class_of 0) (2 ^ (4 + 6)) ex_text.
Proof. apply roomy_short; [done|]. unfold short. cbn. done. Qed.

Lemma deflate_stream_correct_witness :
  exists s0 s' ret, deflateInit2_ ex_zalloc ex_zalloc_dstate ex_new 6 Z_DEFLATED 9 4 0 true = Some (with_state s0, Z_OK) /\
    deflate (DStream (ex_buffers_of (d_strm s0) 5) (Some s0)) Z_FINISH = Some (with_state s', ret) /\ called (header s0) 1 s0 [] [] (ex_buffers_of (d_strm s0) 5) ex_text Z_FINISH s' ret.
Proof.
  destruct (deflate_stream_correct ex_zalloc ex_zalloc_dstate ex_new 6 9 4 0 ex_zalloc_length ex_dstate_sizes eq_refl ltac:(discriminate) ex_all_allocated) as (s0 & E & (F & _ & Hw & _) & H).
  destruct (H s0 [] [] (ex_buffers_of (d_strm s0) 5) ex_text Z_FINISH) as (s' & ret & E' & C); [apply session_new| |apply ex_room|exists s0, s', ret; split; [exact E|split; [exact E'|exact C]]].
  apply ex_may_call; [rewrite (fr_status _ F), Hw; discriminate|lia|lia|split; discriminate].
Defined.

(** C16. With [Z_HUFFMAN_ONLY], a level other than 0 and [memLevel] 4 or more blocks always have room: every call of [deflate()] in every
    sequence of calls behaves as in the theorem on whole streams, for streams of any length and any content. *)
Theorem deflate_huffman_correct (s0 s : deflate_state) (level windowBits memLevel : Z) (data out : list Z) (z : z_stream) (inp : list Z) (flush : Z) :
  stream_config s0 level windowBits memLevel Z_HUFFMAN_ONLY -> 0 < level_of level -> 4 <= memLevel <= 9 -> session s0 s data out -> may_call s z inp flush ->
  exists s' ret, deflate (DStream z (Some s)) flush = Some (with_state s', ret) /\ called (header s0) (window_params windowBits).1 s data out z inp flush s' ret.
Proof.
  intros (F & Hg & Hw & Hlv & Hst & Hlit & _) Hl Hm S M. rewrite <- Hw. apply session_called; try done; [by rewrite Hlv|rewrite Hw; apply window_wrap|]. unfold fits. rewrite Hst, Hlit. apply roomy_literals.
  change 1024 with (2 ^ 10). split; apply Z.pow_le_mono_r; lia.
Qed.

Lemma deflate_huffman_correct_witness :
  exists s0 s' ret, deflate (DStream (ex_buffers_of (d_strm s0) 5) (Some s0)) Z_NO_FLUSH = Some (with_state s', ret) /\
    called (header s0) 0 s0 [] [] (ex_buffers_of (d_strm s0) 5) ex_text Z_NO_FLUSH s' ret.
Proof.
  destruct (init_config ex_zalloc ex_zalloc_dstate ex_new 6 (-9) 4 Z_HUFFMAN_ONLY ex_zalloc_length ex_dstate_sizes eq_refl ex_all_allocated) as (s0 & _ & Cf & _).
  destruct (deflate_huffman_correct s0 s0 6 (-9) 4 [] [] (ex_buffers_of (d_strm s0) 5) ex_text Z_NO_FLUSH Cf) as (s' & ret & E & C); [reflexivity|lia|apply session_new| |exists s0, s', ret; split; [exact E|exact C]].
  destruct Cf as (F & _ & Hw & _). apply ex_may_call; [rewrite (fr_status _ F), Hw; discriminate|lia|lia|split; discriminate].
Defined.

(** ** The end of a stream *)
Lemma fresh_left s n : fresh s -> d_status s = INIT_STATE \/ d_status s = BUSY_STATE -> 0 <= n -> bits_left s n <= 144 + block_max (t_lit_bufsize (d_trees s)) * (n + 1).
Proof.
  intros F Hst Hn. destruct (fr_start _ F) as (S1 & S2 & S3 & S4). destruct (fr_writer _ F) as (W1 & W2 & W3 & W4). unfold bits_left, rest_left, blocks_left, uncoded. rewrite S1, S2, S4.
  assert (Ho : (obits s).2 = 0) by (unfold obits; cbn [snd]; rewrite W1, W4; done). rewrite Ho. assert (Hx : (if d_wrap s >? 0 then 64 else 0) <= 64) by (destruct (_ >? _); lia). assert (Hy : (if d_status s =? INIT_STATE then 80 else 0) <= 80) by (destruct (_ =? _); lia).
  assert (d_status s =? FINISH_STATE = false) as -> by (by destruct Hst as [->| ->]). replace (0 + 0 - 0 + n + 1) with (n + 1) by lia. lia.
Qed.
Lemma fresh_status s : fresh s -> d_status s = INIT_STATE \/ d_status s = BUSY_STATE.
Proof. intros F. rewrite (fr_status _ F). destruct (_ =? 0); auto. Qed.


Lemma ex_text_left s : fresh s -> t_lit_bufsize (d_trees s) = 2 ^ (4 + 6) -> bits_left s 8 < 8 * 40000.
Proof. intros F E. assert (H := fresh_left s 8 F (fresh_status s F) ltac:(lia)). rewrite E in H. change (144 + block_max (2 ^ (4 + 6)) * (8 + 1)) with 295200 in H. lia. Qed.


(** ** The initialisation *)

(** Whether all five allocations succeed. *)
Definition alloc_ok (zalloc : nat -> Z -> option (list Z)) (zalloc_state : nat -> option deflate_state) (calls : nat) (w_size hash_size lit : Z) : bool :=
  bool_decide (is_Some (zalloc_state calls) /\ is_Some (zalloc (calls + 1)%nat (2 * w_size)) /\ is_Some (zalloc (calls + 2)%nat w_size) /\
    is_Some (zalloc (calls + 3)%nat hash_size) /\ is_Some (zalloc (calls + 4)%nat (4 * lit))).

Lemma init_refused zalloc zalloc_state x level windowBits memLevel strategy method :
  params_ok level method windowBits memLevel strategy = false -> exists x', deflateInit2_ zalloc zalloc_state x level method windowBits memLevel strategy true = Some (x', Z_STREAM_ERROR) /\ x_state x' = x_state x.
Proof.
  intros Hp. assert (Hc := params_checked level method windowBits memLevel strategy). rewrite Hp in Hc. cbn [negb] in Hc. unfold deflateInit2_. cbn [negb]. fold (level_of level). fold (window_params windowBits).
  generalize dependent (window_params windowBits). intros [wrap wb]. cbn [fst snd]. intros Hc. rewrite Hc. by eexists.
Qed.

Lemma init_no_memory zalloc zalloc_state x level windowBits memLevel strategy method :
  params_ok level method windowBits memLevel strategy = true ->
  alloc_ok zalloc zalloc_state (z_calls (x_strm x)) (2 ^ Z.max 9 (window_params windowBits).2) (2 ^ (memLevel + 7)) (2 ^ (memLevel + 6)) = false ->
  exists x', deflateInit2_ zalloc zalloc_state x level method windowBits memLevel strategy true = Some (x', Z_MEM_ERROR) /\
    x_state x' = match zalloc_state (z_calls (x_strm x)) with Some _ => None | None => x_state x end.
Proof.
  intros Hp Ha. assert (Hc := params_checked level method windowBits memLevel strategy). rewrite Hp in Hc. cbn [negb] in Hc. unfold params_ok in Hp. rewrite !andb_true_iff, !Z.leb_le in Hp. destruct Hp as ((((((((P1 & P2) & _) & P3) & P4) & _) & _) & _) & _). unfold MAX_MEM_LEVEL in P2.
  unfold deflateInit2_. cbn [negb]. fold (level_of level). fold (window_params windowBits). generalize dependent (window_params windowBits). intros [wrap wb]. cbn [fst snd]. intros P3 P4 Ha Hc. rewrite Hc.
  change (z_calls ((x_strm x) <| z_msg := None |> <| z_zalloc := true |> <| z_zfree := true |>)) with (z_calls (x_strm x)). replace (if wb =? 8 then 9 else wb) with (Z.max 9 wb) by (destruct (Z.eqb_spec wb 8); lia). rewrite !Z.shiftl_1_l. cbv zeta.
  unfold alloc_ok in Ha. apply bool_decide_eq_false_1 in Ha. set (n := z_calls (x_strm x)) in *. destruct (zalloc_state n); [|by eexists].
  destruct (zalloc (n + 1)%nat _), (zalloc (n + 2)%nat _), (zalloc (n + 3)%nat _), (zalloc (n + 4)%nat _); try (by eexists). exfalso. apply Ha. by repeat split; eexists.
Qed.

(** C30. [deflateInit2_()] returns for all values of its arguments, the method included: [Z_VERSION_ERROR] for another version of the
    library, else [Z_STREAM_ERROR] exactly when an argument is out of range, else [Z_MEM_ERROR] exactly when one of the five
    allocations fails, else [Z_OK]. With [Z_OK] there is a new stream of the wrapper, window size, level, strategy and buffer size
    asked for; when the structure was allocated and another allocation failed there is no state; otherwise the state is the one
    that the stream had before. *)
Theorem deflateInit2_correct (zalloc : nat -> Z -> option (list Z)) (zalloc_state : nat -> option deflate_state) (x : dstream)
    (level method windowBits memLevel strategy : Z) (version : bool) :
  (forall k l, zalloc (z_calls (x_strm x) + 1)%nat k = Some l -> Forall byte_ok l) ->
  (forall n k l, zalloc n k = Some l -> Z.of_nat (length l) = k) -> (forall n s, zalloc_state n = Some s -> sizes_ok (d_trees s)) ->
  let w_bits := Z.max 9 (window_params windowBits).2 in
  exists x' ret, deflateInit2_ zalloc zalloc_state x level method windowBits memLevel strategy version = Some (x', ret) /\
    ret = (if negb version then Z_VERSION_ERROR else if negb (params_ok level method windowBits memLevel strategy) then Z_STREAM_ERROR
           else if alloc_ok zalloc zalloc_state (z_calls (x_strm x)) (2 ^ w_bits) (2 ^ (memLevel + 7)) (2 ^ (memLevel + 6)) then Z_OK else Z_MEM_ERROR) /\
    (ret = Z_OK -> exists s, x' = with_state s /\ stream_config s level windowBits memLevel strategy /\ bufs (d_strm s) = bufs (x_strm x)) /\
    (ret <> Z_OK -> x_state x' = if (ret =? Z_MEM_ERROR) && bool_decide (is_Some (zalloc_state (z_calls (x_strm x)))) then None else x_state x).
Proof.
  cbv zeta. intros Hw Hz Hs. destruct version; cbn [negb]; [|by eexists _, _].
  destruct (params_ok level method windowBits memLevel strategy) eqn:Ep; cbn [negb].
  - assert (method = Z_DEFLATED) as -> by (unfold params_ok in Ep; rewrite !andb_true_iff, !Z.eqb_eq in Ep; tauto). destruct (alloc_ok _ _ _ _ _ _) eqn:Ea.
    + apply bool_decide_eq_true_1 in Ea as (A1 & [l A2] & A3 & A4 & A5). destruct (init_config zalloc zalloc_state x level windowBits memLevel strategy Hz Hs Ep) as (s & E & Cf & Eb).
      { split; [done|]. split; [|done]. exists l. split; [done|]. by apply (Hw _ _ A2). }
      exists (with_state s), Z_OK. split; [done|]. split; [done|]. split; [by exists s|done].
    + destruct (init_no_memory _ _ _ _ _ _ _ _ Ep Ea) as (x' & E & Ex). exists x', Z_MEM_ERROR. split; [done|]. split; [done|]. split; [done|]. intros _. rewrite Ex. by destruct (zalloc_state _).
  - destruct (init_refused zalloc zalloc_state x _ _ _ _ _ Ep) as (x' & E & Ex). by exists x', Z_STREAM_ERROR.
Qed.

Lemma deflateInit2_correct_witness :
  (exists s, deflateInit2_ ex_zalloc ex_zalloc_dstate ex_new 6 Z_DEFLATED 9 4 0 true = Some (with_state s, Z_OK) /\ stream_config s 6 9 4 0 /\ bufs (d_strm s) = bufs ex_strm) /\
  exists x, deflateInit2_ ex_zalloc ex_zalloc_dstate (DStream ex_strm (Some ex_dstate)) 6 7 9 4 0 true = Some (x, Z_STREAM_ERROR) /\ x_state x = Some ex_dstate.
Proof.
  split.
  - destruct (deflateInit2_correct ex_zalloc ex_zalloc_dstate ex_new 6 Z_DEFLATED 9 4 0 true) as (x & ret & E & Er & H & _); [intros k l Hl; by apply (ex_zalloc_ok 1 k)|exact ex_zalloc_length|exact ex_dstate_sizes|].
    change (ret = Z_OK) in Er. destruct (H Er) as (s & Ex & Hs). exists s. rewrite Er, Ex in E. split; [exact E|exact Hs].
  - destruct (deflateInit2_correct ex_zalloc ex_zalloc_dstate (DStream ex_strm (Some ex_dstate)) 6 7 9 4 0 true) as (x & ret & E & Er & _ & H); [intros k l Hl; by apply (ex_zalloc_ok 1 k)|exact ex_zalloc_length|exact ex_dstate_sizes|].
    change (ret = Z_STREAM_ERROR) in Er. exists x. rewrite Er in E, H. split; [exact E|]. apply H. discriminate.
Defined.

(** C31. [deflateReset()], on any state that [deflateInit2_()] allocated, whatever was compressed with it, gives a new stream of the
    same configuration: an empty hash table, no pending output, an empty block and the initial checksum. *)
Theorem deflateReset_correct (strm : z_stream) (s : deflate_state) :
  allocated s -> z_zalloc strm = true -> z_zfree strm = true ->
  exists s', deflateReset (DStream strm (Some s)) = Some (with_state s', Z_OK) /\ fresh s' /\ config_of s' = config_of s /\ bufs (d_strm s') = bufs strm.
Proof. apply reset_ok. Qed.

Lemma deflateReset_correct_witness :
  exists s s', deflateReset (DStream (ex_strm <| z_zalloc := true |> <| z_zfree := true |>) (Some s)) = Some (with_state s', Z_OK) /\ fresh s' /\ config_of s' = config_of s /\
    bufs (d_strm s') = bufs (ex_strm <| z_zalloc := true |> <| z_zfree := true |>).
Proof.
  destruct (init_config ex_zalloc ex_zalloc_dstate ex_new 6 9 4 0 ex_zalloc_length ex_dstate_sizes eq_refl ex_all_allocated) as (s & _ & (F & _) & _).
  exists s. exact (deflateReset_correct (ex_strm <| z_zalloc := true |> <| z_zfree := true |>) s (fr_allocated _ F) eq_refl eq_refl).
Defined.

(** C32. The two bytes of the zlib header, for every window size, level and strategy and with or without a dictionary: the fields of
    RFC 1950 and the check that makes the number a multiple of 31; it fits into 16 bits. *)
Theorem zlib_header_correct (s : deflate_state) :
  9 <= d_w_bits s <= 15 ->
  exists check, 0 < check <= 31 /\ 0 <= level_flags s <= 3 /\
    zlib_header_word s = 256 * (16 * (d_w_bits s - 8) + Z_DEFLATED) + 64 * level_flags s + (if d_strstart s =? 0 then 0 else PRESET_DICT) + check /\
    zlib_header_word s mod 31 = 0 /\ 0 <= zlib_header_word s < 2 ^ 16.
Proof.
  intros Hw. destruct (header_word s Hw) as (c & Hc & E & Hm & Hl). exists c. unfold Z_DEFLATED, PRESET_DICT. destruct (d_strstart s =? 0); (split; [done|]; split; [done|]; split; [lia|]; split; [done|lia]).
Qed.

Lemma zlib_header_correct_witness :
  exists check, 0 < check <= 31 /\ 0 <= level_flags (ex_dstate <| d_w_bits := 15 |>) <= 3 /\
    zlib_header_word (ex_dstate <| d_w_bits := 15 |>) = 256 * (16 * (15 - 8) + Z_DEFLATED) + 64 * level_flags (ex_dstate <| d_w_bits := 15 |>) + 0 + check /\
    zlib_header_word (ex_dstate <| d_w_bits := 15 |>) mod 31 = 0 /\ 0 <= zlib_header_word (ex_dstate <| d_w_bits := 15 |>) < 2 ^ 16.
Proof. exact (zlib_header_correct (ex_dstate <| d_w_bits := 15 |>) ltac:(split; discriminate)). Defined.

(** ** The match finder *)

(** A window of 512 bytes with the text, the string at 2 in the table and the search at 4. *)
Definition ex_search : deflate_state :=
  ex_dstate <| d_w_bits := 9 |> <| d_w_size := 512 |> <| d_w_mask := 511 |> <| d_window_size := 1024 |> <| d_hash_bits := 8 |> <| d_hash_size := 256 |> <| d_hash_mask := 255 |> <| d_hash_shift := 3 |>
    <| d_window := ex_text ++ replicate 1016 0 |> <| d_prev := replicate 512 0 |> <| d_head := <[49%nat := 2]> (replicate 256 0) |>
    <| d_strstart := 4 |> <| d_lookahead := 4 |> <| d_ins_h := 874 |> <| d_prev_length := 2 |> <| d_good_match := 8 |> <| d_nice_match := 128 |> <| d_max_chain_length := 128 |>.

Lemma ex_geometry : geometry ex_search.
Proof. split; try done. change (Forall byte_ok (ex_text ++ replicate 1016 0)). apply Forall_app. split; [apply ex_text_ok|]. apply Forall_replicate. unfold byte_ok. lia. Qed.

Lemma ex_chained front : 4 <= front -> chained ex_search (fun p => p = 2) front.
Proof.
  intros Hf. split.
  - intros p ->. change (0 <= 2 < front /\ 2 + 2 < 4 + 4). lia.
  - intros h q. change (d_head ex_search) with (<[49%nat := 2]> (replicate 256 0)). unfold aget. destruct (Z.leb_spec 0 h); [|done]. destruct (Nat.eq_dec (Z.to_nat h) 49) as [E|Hne].
    + rewrite E, list_lookup_insert_eq by (rewrite length_replicate; lia). intros [= <-]. right. split; [done|]. replace h with 49 by lia. vm_compute. reflexivity.
    + rewrite list_lookup_insert_ne by done. intros Hq. apply lookup_replicate in Hq as [-> _]. by left.
  - intros p -> _. exists 0. split; [|by left]. change (aget (replicate 512 0) 2 = Some 0). reflexivity.
Qed.

(** C15. [longest_match()] on a chain of strings with the hash of the current one: no access leaves the window, the search ends, and
    what it finds is a match: a string before the current one, within [MAX_DIST], that agrees with it in the length returned,
    which is at most [MAX_MATCH] and the lookahead. Otherwise it returns no more than [prev_length] and leaves [match_start]. *)
Theorem longest_match_correct (s : deflate_state) (ins : Z -> Prop) (cur : Z) :
  geometry s -> chained s ins (d_strstart s + 1) -> 0 <= d_strstart s -> d_strstart s + MIN_LOOKAHEAD <= 2 * d_w_size s ->
  candidate s ins cur -> 0 <= d_prev_length s <= MAX_MATCH -> 0 <= d_lookahead s < 2 ^ 32 ->
  exists ms len, longest_match s cur = Some (s <| d_match_start := ms |>, len) /\ 0 <= len <= d_lookahead s /\ len <= MAX_MATCH /\
    (ms = d_match_start s /\ len <= d_prev_length s \/ match_ok s ms len).
Proof. intros G C H1 H2. by apply longest_match_ok. Qed.

Lemma longest_match_correct_witness :
  exists ms len, longest_match ex_search 2 = Some (ex_search <| d_match_start := ms |>, len) /\ 0 <= len <= d_lookahead ex_search /\ len <= MAX_MATCH /\
    (ms = d_match_start ex_search /\ len <= d_prev_length ex_search \/ match_ok ex_search ms len).
Proof.
  refine (longest_match_correct ex_search (fun p => p = 2) 2 ex_geometry (ex_chained 5 ltac:(lia)) _ _ _ _ _); first [vm_compute; discriminate | vm_compute; split_and!; congruence].
Defined.

(** C18. [INSERT_STRING] keeps the hash table: every entry of [head] and of [prev] is empty or the position of an earlier string
    with the same hash, so that chains go backwards and end. The rolling hash is then that of the next position, and the result is
    the previous string with this hash. *)
Theorem INSERT_STRING_correct (s : deflate_state) (ins : Z -> Prop) (front str : Z) :
  geometry s -> chained s ins front -> 0 <= str <= d_strstart s -> front <= str -> str + 2 < d_strstart s + d_lookahead s -> d_strstart s + d_lookahead s <= 2 * d_w_size s -> ins_ok s str ->
  exists s' q, INSERT_STRING s str = Some (s', q) /\ is_rehashed s s' /\ chained s' (fun p => ins p \/ p = str) (str + 1) /\ ins_ok s' (str + 1) /\
    (q = 0 \/ ins q /\ 0 < q < str /\ hash_at s q = hash_at s str).
Proof. apply INSERT_STRING_ok. Qed.

Lemma INSERT_STRING_correct_witness :
  exists s' q, INSERT_STRING ex_search 4 = Some (s', q) /\ is_rehashed ex_search s' /\ chained s' (fun p => p = 2 \/ p = 4) (4 + 1) /\ ins_ok s' (4 + 1) /\
    (q = 0 \/ q = 2 /\ 0 < q < 4 /\ hash_at ex_search q = hash_at ex_search 4).
Proof.
  refine (INSERT_STRING_correct ex_search (fun p => p = 2) 4 4 ex_geometry (ex_chained 4 ltac:(lia)) _ _ _ _ _); first [vm_compute; discriminate | vm_compute; split_and!; congruence | vm_compute; reflexivity].
Defined.

(** ** The window *)

(** A stream without wrapper in its first call. *)
Lemma ex_running : exists s base cut syms b, running [] s ex_text [] base cut syms b /\ drained s /\ t_strategy (d_trees s) = 0 /\ t_lit_bufsize (d_trees s) = 2 ^ (4 + 6) /\ d_lookahead s < MIN_LOOKAHEAD.
Proof.
  destruct (init_config ex_zalloc ex_zalloc_dstate ex_new 6 (-9) 4 0 ex_zalloc_length ex_dstate_sizes eq_refl ex_all_allocated) as (s & _ & (F & Hg & Hw & Hl & Hst & Hlit & _) & _).
  assert (R0 : running [] (idle s) [] [] 0 0 [] bnil).
  { destruct (fr_start _ F) as (_ & _ & _ & S4). destruct (fr_writer _ F) as (W1 & W2 & W3 & W4). apply (fresh_running [] s (idle s) [] F); [by rewrite Hl|by rewrite Hw|]. split; try done; [apply (fr_collected _ F)|by apply fresh_out| | |apply (fr_sum _ F)|apply (fr_totals _ F)|].
    - change (w_bi_valid (t_w (d_trees s)) < 8). lia.
    - change (d_status s = BUSY_STATE). rewrite (fr_status _ F), Hw. reflexivity.
    - split; [done|]. change (obits (idle s)) with (obits s). unfold obits, obytes. by rewrite W1, W3, W4. }
  assert (R1 := running_resume _ _ _ _ _ _ _ _ (ex_buffers_of (d_strm s) 5) ex_text 0 R0 (ex_buffers_ok (d_strm s) 5 ltac:(lia)) eq_refl). destruct (fr_writer _ F) as (W1 & W2 & W3 & W4). destruct (fr_start _ F) as (_ & S2 & _).
  eexists _, _, _, _, _. split; [exact R1|]. split; [|split; [exact Hst|split; [exact Hlit|change (d_lookahead s < MIN_LOOKAHEAD); rewrite S2; reflexivity]]]. split; [exact W1|]. split; [exact W2|]. change (w_bi_valid (t_w (d_trees s)) < 8). lia.
Qed.

(** C17. [fill_window()] reads input until there is enough lookahead or no more of it, sliding the window when it is in its upper half:
    the window then holds the bytes of the input before and after the current position, the hash table is that of the moved
    positions, the start of the block and of the match move along, and what was read is in the checksum and in [total_in]. *)
Theorem fill_window_correct (s : deflate_state) (base : Z) (total : list Z) :
  geometry s -> view s base total -> hashed s -> check_ok (d_wrap s) (z_adler (d_strm s)) -> d_lookahead s < MIN_LOOKAHEAD ->
  exists s' base', fill_window s = Some s' /\ filled s base total s' base'.
Proof. apply fill_window_ok. Qed.

Lemma fill_window_correct_witness : exists s base s' base', fill_window s = Some s' /\ filled s base ex_text s' base'.
Proof.
  destruct ex_running as (s & base & cut & syms & b & R & _ & _ & _ & Hl). assert (C := ru_core _ _ _ _ _ _ _ _ R). exists s, base.
  exact (fill_window_correct s base ex_text (co_geometry _ _ _ _ _ _ _ C) (co_view _ _ _ _ _ _ _ C) (co_hashed _ _ _ _ _ _ _ C) (co_check _ _ _ _ _ _ _ C) Hl).
Defined.

(** ** The compression functions *)

(** C14. The compression function of the strategy and of a level other than 0, [deflate_fast()], [deflate_slow()], [deflate_rle()] or
    [deflate_huff()], on data whose blocks have room in the pending buffer ([roomy]), ends: from the invariant of its loop it reads what it needs, and every byte read is in a block that was
    written and stands for it, in the symbols of the current block, or in the lookahead. It returns [need_more] only when the
    output is full, or when all input was used and the caller did not ask for a flush; [block_done] and [finish_done] when
    everything was written; [finish_started] when the last block waits for room. *)
Theorem compress_with_correct (s : deflate_state) (total : list Z) (base cut : Z) (syms : list sym) (flush : Z) :
  let P := class_of (t_strategy (d_trees s)) in let lit := t_lit_bufsize (d_trees s) in
  roomy P lit total -> core P lit total s base cut syms -> keeps total s base cut -> drained s -> Z.of_nat (length syms) + 1 < lit ->
  exists s' r, compress_with s flush = Some (s', r) /\ compressed P lit total s base (base + d_block_start s) flush (keeps total) s' r.
Proof.
  cbv zeta. intros Hr C K D Hn. apply (compress_with_ok _ total s base (base + d_block_start s) s base cut syms); try done; [apply (co_out _ _ _ _ _ _ _ C)|apply (co_check _ _ _ _ _ _ _ C)|by apply inv_start].
Qed.

Lemma compress_with_correct_witness :
  exists s base s' r, compress_with s Z_FINISH = Some (s', r) /\ compressed (class_of 0) (2 ^ (4 + 6)) ex_text s base (base + d_block_start s) Z_FINISH (keeps ex_text) s' r.
Proof.
  destruct ex_running as (s & base & cut & syms & b & R & D & Hst & Hlit & _). exists s, base. destruct (compress_with_correct s ex_text base cut syms Z_FINISH) as (s' & r & E & H); [rewrite Hst, Hlit; exact ex_room|apply (ru_core _ _ _ _ _ _ _ _ R)|apply (ru_keeps _ _ _ _ _ _ _ _ R)|exact D|apply (ru_room _ _ _ _ _ _ _ _ R)|].
  exists s', r. split; [exact E|]. rewrite <- Hlit, <- Hst. exact H.
Defined.

(** ** Output *)

(** C29. [flush_pending()] writes as much of the pending output as there is room for, in order, and keeps the rest: the bytes
    delivered followed by what is pending then, with the bits of the bit buffer, are what was pending before. *)
Theorem flush_pending_correct (s : deflate_state) :
  out_ok s ->
  exists s', flush_pending s = Some s' /\ out_ok s' /\ is_flushed s s' /\ (z_avail_out (d_strm s') = 0 \/ drained s') /\
    bytes_bits (delivered (d_strm s) (d_strm s')) ·· obits s' = obits s /\ moved_out (d_strm s) (d_strm s').
Proof.
  intros Ho. destruct (flush_pending_ok s Ho) as (s' & E & O' & U & F & _ & Hd). exists s'. split; [done|]. split; [done|]. split; [done|]. split; [done|]. split; [|by apply (outputs_moved s bnil)].
  assert (Hs := outputs_sent s bnil s' [] (obits s) Ho U). rewrite app_nil_l, bcat_nil_r in Hs. apply Hs. split; [done|]. apply bcat_nil_l.
Qed.

Lemma flush_pending_correct_witness :
  exists s s', flush_pending s = Some s' /\ out_ok s' /\ is_flushed s s' /\ (z_avail_out (d_strm s') = 0 \/ drained s') /\
    bytes_bits (delivered (d_strm s) (d_strm s')) ·· obits s' = obits s /\ moved_out (d_strm s) (d_strm s').
Proof. destruct ex_running as (s & base & cut & syms & b & R & _). exists s. exact (flush_pending_correct s (running_out _ _ _ _ _ _ _ _ R)). Defined.

(** ** Refused calls *)

(** Why a call of [deflate()] is refused. *)
Definition call_error (x : dstream) (flush : Z) : option Z :=
  match x_state x with
  | None => Some Z_STREAM_ERROR
  | Some s =>
      if negb ((0 <=? flush) && (flush <=? Z_BLOCK)) || bool_decide (z_out (x_strm x) = None) || bool_decide (z_in (x_strm x) = None) && negb (z_avail_in (x_strm x) =? 0) ||
         (d_status s =? FINISH_STATE) && negb (flush =? Z_FINISH) then Some Z_STREAM_ERROR
      else if z_avail_out (x_strm x) =? 0 then Some Z_BUF_ERROR else None
  end.

Lemma deflate_refused (x : dstream) (flush err : Z) :
  call_error x flush = Some err ->
  exists x', deflate x flush = Some (x', err) /\ x_state x' = x_state x /\ bufs (x_strm x') = bufs (x_strm x) /\ counts (x_strm x') = counts (x_strm x).
Proof.
  unfold call_error, deflate. destruct (x_state x) as [s|] eqn:Es; [|intros [= <-]; exists x; by rewrite Es]. rewrite Z.gtb_ltb, !Z.ltb_antisym, negb_andb.
  assert (Hn : forall A (p : option A) (d : Decision (p = None)), @bool_decide (p = None) d = is_null p) by (intros A [a|] d; [by apply bool_decide_eq_false_2|by apply bool_decide_eq_true_2]). rewrite !Hn.
  destruct (negb (flush <=? Z_BLOCK)); cbn [orb]; [rewrite orb_true_r; intros [= <-]; exists x; by rewrite Es|]. rewrite orb_false_r. destruct (negb (0 <=? flush)); cbn [orb]; [intros [= <-]; exists x; by rewrite Es|].
  destruct (_ || _); [intros [= <-]; eexists; split; [reflexivity|]; by rewrite <- Es|]. destruct (_ =? 0); [|done]. intros [= <-]. eexists. split; [reflexivity|]. by rewrite <- Es.
Qed.

(** C33. [deflate()] refuses a call without state, with an unknown flush value, without a buffer that it needs, or that goes on after
    [Z_FINISH], with [Z_STREAM_ERROR], and a call without room for output with [Z_BUF_ERROR]; the state, the buffers, the
    totals and the checksum stay as they are. *)
Theorem deflate_refuses (x : dstream) (flush err : Z) :
  call_error x flush = Some err ->
  exists x', deflate x flush = Some (x', err) /\ x_state x' = x_state x /\ bufs (x_strm x') = bufs (x_strm x) /\ counts (x_strm x') = counts (x_strm x).
Proof. apply deflate_refused. Qed.

Lemma deflate_refuses_witness :
  exists x', deflate (DStream ex_strm (Some ex_dstate)) Z_FINISH = Some (x', Z_STREAM_ERROR) /\ x_state x' = Some ex_dstate /\ bufs (x_strm x') = bufs ex_strm /\ counts (x_strm x') = counts ex_strm.
Proof. exact (deflate_refuses (DStream ex_strm (Some ex_dstate)) Z_FINISH Z_STREAM_ERROR eq_refl). Defined.
