(* ===== verification/Compress.v ===== *)
(** Model of [src/zlib/compress.c] and [src/zlib/uncompr.c]: buffers compressed and uncompressed with one call.

    A [uLong] and a [uInt] have 32 bits. [None] as a result is an access out of range or another undefined operation; a pointer
    is an array, with [None] for NULL. [strm] is what the [z_stream] on the stack holds before it is set. The results are what
    [dest] points to, [*destLen] and the return value. *)
From S2P Require Import Prelude Record Bits Adler32 InflateState Inflate TreesTables Trees DeflateState Deflate DeflateApi.

(** The fields that are set before the initialisation. *)
Definition buffer_stream (strm : z_stream) (dest : option (list Z)) (destLen : Z) (source : option (list Z)) (sourceLen : Z) : z_stream :=
  strm <| z_in := source |> <| z_next_in := 0 |> <| z_avail_in := u32 sourceLen |>
       <| z_out := dest |> <| z_next_out := 0 |> <| z_avail_out := u32 destLen |> <| z_zalloc := false |> <| z_zfree := false |>.

(** ** [compress.c] *)
Section compress.
Context (zalloc : nat -> Z -> option (list Z)) (zalloc_state : nat -> option deflate_state) (strm : z_stream).

Definition compress2 (dest : option (list Z)) (destLen : Z) (source : option (list Z)) (sourceLen level : Z) : option (option (list Z) * Z * Z) :=
  let stream := buffer_stream strm dest destLen source sourceLen in
  if negb (z_avail_out stream =? destLen) then Some (dest, destLen, Z_BUF_ERROR) else
  '(x, err) ← deflateInit_ zalloc zalloc_state (DStream stream None) level true;
  if negb (err =? Z_OK) then Some (dest, destLen, err) else
  '(x, err) ← deflate x Z_FINISH;
  if negb (err =? Z_STREAM_END) then
    let '(x, _) := deflateEnd x in
    Some (z_out (x_strm x), destLen, if err =? Z_OK then Z_BUF_ERROR else err)
  else
  let destLen := u32 (z_total_out (x_strm x)) in
  let '(x, err) := deflateEnd x in
  Some (z_out (x_strm x), destLen, err).

Definition compress (dest : option (list Z)) (destLen : Z) (source : option (list Z)) (sourceLen : Z) : option (option (list Z) * Z * Z) :=
  compress2 dest destLen source sourceLen Z_DEFAULT_COMPRESSION.
End compress.

Definition compressBound (sourceLen : Z) : Z :=
  u32 (sourceLen + (sourceLen ≫ 12) + (sourceLen ≫ 14) + (sourceLen ≫ 25) + 13).

(** ** [uncompr.c] *)
Section uncompress.
Context (zalloc : nat -> Z -> option (list Z)) (zalloc_state : nat -> option inflate_state) (strm : z_stream).

Definition uncompress (dest : option (list Z)) (destLen : Z) (source : option (list Z)) (sourceLen : Z) : option (option (list Z) * Z * Z) :=
  let stream := buffer_stream strm dest destLen source sourceLen in
  if negb (z_avail_in stream =? sourceLen) then Some (dest, destLen, Z_BUF_ERROR) else
  if negb (z_avail_out stream =? destLen) then Some (dest, destLen, Z_BUF_ERROR) else
  let '(stream, err) := inflateInit_ zalloc_state stream true in
  if negb (err =? Z_OK) then Some (dest, destLen, err) else
  '(stream, err) ← inflate zalloc stream Z_FINISH;
  if negb (err =? Z_STREAM_END) then
    let '(stream, _) := inflateEnd stream in
    Some (z_out stream, destLen,
      if (err =? Z_NEED_DICT) || ((err =? Z_BUF_ERROR) && (z_avail_in stream =? 0)) then Z_DATA_ERROR else err)
  else
  let destLen := u32 (z_total_out stream) in
  let '(stream, err) := inflateEnd stream in
  Some (z_out stream, destLen, err).
End uncompress.
