(* ===== verification/CompressClaims.v ===== *)
(** What [compress2()] and [uncompress()] do, and that they are inverse to each other. *)
From S2P Require Import Prelude Record Bits Huffman Lz Fixed DeflateFormat Adler32 Crc32.
From S2P Require Import InflateState InflateMonad Inflate InflateWp InflateInv InflateApi InflateReach InflateReadAll.
From S2P Require Import InflateReadClaims InflateFrame InflateClaims TreesTables Trees BitWriter TreesEmit TreesBuild.
From S2P Require Import TreesLens TreesTree TreesHeader TreesTally TreesFlush DeflateState Deflate DeflateOut DeflateWindow.
From S2P Require Import DeflateBlocks DeflateApi DeflateInit DeflateRun DeflateCall DeflateStream DeflateClaims Compress.

(** ** [uncompress()] *)
Section uncompress.
Context (zalloc : nat -> Z -> option (list Z)) (zalloc_state : nat -> option inflate_state).
Context (zalloc_ok : forall n k l, zalloc n k = Some l -> Z.of_nat (length l) = k /\ Forall byte_ok l).
Context (zalloc_state_ok : forall n st, zalloc_state n = Some st -> arrays_ok st).

(** The buffers of a call. *)
Definition arrays_for (dest : option (list Z)) (destLen : Z) (source : option (list Z)) (sourceLen : Z) : Prop :=
  (0 <= destLen < 2 ^ 32 /\ 0 <= sourceLen < 2 ^ 32) /\
  (exists d, dest = Some d /\ destLen <= Z.of_nat (length d) /\ Forall byte_ok d) /\
  (exists s, source = Some s /\ sourceLen <= Z.of_nat (length s) < 2 ^ 32 /\ Forall byte_ok s).

Lemma bufs_ok strm dest destLen source sourceLen strm1 :
  arrays_for dest destLen source sourceLen -> bufs strm1 = bufs (buffer_stream strm dest destLen source sourceLen) ->
  buffers_ok strm1 /\ (z_in strm1, z_next_in strm1, z_avail_in strm1, z_out strm1, z_next_out strm1, z_avail_out strm1) = (source, 0, sourceLen, dest, 0, destLen).
Proof.
  intros ((Hd & Hs) & (d & -> & Hdl & Hdb) & (b & -> & Hbl & Hbb)) [= E1 E2 E3 E4 E5 E6]. cbn [buffer_stream upd z_in set_z_in z_next_in z_avail_in set_z_avail_in z_out set_z_out z_next_out z_avail_out set_z_avail_out set_z_next_in set_z_next_out z_zalloc set_z_zalloc z_zfree set_z_zfree] in *.
  rewrite !u32_small in * by lia. split; [|congruence]. split; unfold in_buf; rewrite ?E1, ?E2, ?E3, ?E4, ?E5, ?E6; cbn [default].
  - split; [lia|]. split; [lia|]. split; [unfold id; lia|]. done.
  - intros d' [= <-]. exists d. split; [done|]. split; [lia|]. split; [lia|]. split; [lia|]. split; [lia|done].
Qed.

Lemma uncompress_stream strm dest destLen source sourceLen data out after :
  is_Some (zalloc_state (z_calls strm)) -> arrays_for (Some dest) destLen (Some source) sourceLen ->
  bytes_at source 0 sourceLen = out ++ after -> stream_for 1 15 data out -> Z.of_nat (length data) <= destLen ->
  exists d', uncompress zalloc zalloc_state strm (Some dest) destLen (Some source) sourceLen = Some (Some d', Z.of_nat (length data), Z_OK) /\
    length d' = length dest /\ bytes_at d' 0 (Z.of_nat (length data)) = data.
Proof.
  intros Ha Hb Hs Hf Hl. destruct (inflate_init zalloc_state zalloc_state_ok (buffer_stream strm (Some dest) destLen (Some source) sourceLen) Ha) as (strm1 & E & Hn & Hz & Eb).
  destruct (bufs_ok strm _ _ _ _ _ Hb Eb) as [Hbuf [= F1 F2 F3 F4 F5 F6]]. assert (Hb' := Hb). destruct Hb' as ((Hd & Hsl) & _).
  destruct (inflate_reads zalloc strm1 1 15 data out after zalloc_ok Hn Hbuf) as (strm2 & E2 & Hok & Hbuf2 & Hm & [st2 Est] & Hdata & _ & Ht & _); [congruence|congruence| |done|lia|].
  { unfold in_buf. by rewrite F1, F2, F3. }
  unfold uncompress. change (z_avail_in (buffer_stream _ _ _ _ _)) with (u32 sourceLen). change (z_avail_out (buffer_stream _ _ _ _ _)) with (u32 destLen). rewrite !u32_small, !Z.eqb_refl by lia. cbn [negb]. rewrite E.
  change (negb (Z_OK =? Z_OK)) with false. cbv iota. rewrite E2. cbn [mbind option_bind]. change (negb (Z_STREAM_END =? Z_STREAM_END)) with false. cbv iota. rewrite Ht, u32_small by lia.
  destruct (mv_null _ _ Hm) as [d' Ed].
  assert (Hz2 : z_zfree strm2 = true) by (apply inflate_funcs in E2; unfold funcs in E2; congruence). unfold inflateEnd. rewrite Est, Hz2. cbn [negb]. exists d'. split; [by rewrite <- Ed|].
  assert (Ho2 : out_buf strm2 = d') by (unfold out_buf; by rewrite Ed). assert (Ho1 : out_buf strm1 = dest) by (unfold out_buf; by rewrite F4). rewrite <- Ho2, <- Ho1. split; [apply (mv_osize _ _ Hm)|]. by rewrite F5 in Hdata.
Qed.

(** Whatever the source holds. *)
Lemma uncompress_returns strm dest destLen source sourceLen :
  arrays_for (Some dest) destLen (Some source) sourceLen ->
  exists d' n ret, uncompress zalloc zalloc_state strm (Some dest) destLen (Some source) sourceLen = Some (Some d', n, ret) /\ length d' = length dest /\
    (ret = Z_OK \/ n = destLen /\ (ret = Z_MEM_ERROR \/ ret = Z_BUF_ERROR \/ ret = Z_DATA_ERROR)).
Proof.
  intros Hb. assert (Hb' := Hb). destruct Hb' as ((Hd & Hsl) & _). unfold uncompress. change (z_avail_in (buffer_stream _ _ _ _ _)) with (u32 sourceLen). change (z_avail_out (buffer_stream _ _ _ _ _)) with (u32 destLen). rewrite !u32_small, !Z.eqb_refl by lia. cbn [negb].
  set (s0 := buffer_stream strm (Some dest) destLen (Some source) sourceLen) in *. destruct (zalloc_state (z_calls strm)) as [st|] eqn:Ez.
  2:{ unfold inflateInit_, inflateInit2_. cbn [negb]. change (z_calls _) with (z_calls strm). rewrite Ez. change (negb (Z_MEM_ERROR =? Z_OK)) with true. cbv iota. exists dest, destLen, Z_MEM_ERROR. split; [done|]. split; [done|]. right. split; [done|by left]. }
  destruct (inflate_init zalloc_state zalloc_state_ok s0) as (strm1 & E & [(st1 & Est & Hf & [= Em _ _ _ _ _ _]) _ _] & Hz & Eb); [by exists st|]. rewrite E. change (negb (Z_OK =? Z_OK)) with false. cbv iota.
  destruct (bufs_ok strm _ _ _ _ _ Hb Eb) as [Hbuf [= F1 F2 F3 F4 F5 F6]].
  destruct (inflate_ok zalloc zalloc_ok strm1 Z_FINISH ltac:(unfold InflateApi.stream_ok; rewrite Est; by left) Hbuf) as (strm2 & ret & E2 & _ & _ & Hcase). rewrite E2. cbn [mbind option_bind].
  destruct Hcase as [([Hx|[Hx|[Hx _]]] & _)|(Hm & st2 & Est2 & Hr)]; [congruence..|]. destruct (mv_null _ _ Hm) as [d' Ed].
  assert (Hz2 : z_zfree strm2 = true) by (apply inflate_funcs in E2; unfold funcs in E2; congruence). assert (Hend : inflateEnd strm2 = (strm2 <| z_state := None |>, Z_OK)) by (unfold inflateEnd; by rewrite Est2, Hz2).
  assert (Hl : length d' = length dest) by (assert (Ho := mv_osize _ _ Hm); unfold out_buf in Ho; by rewrite Ed, F4 in Ho). rewrite Hend.
  change (z_out (strm2 <| z_state := None |>)) with (z_out strm2). change (z_avail_in (strm2 <| z_state := None |>)) with (z_avail_in strm2). rewrite Ed.
  destruct Hr as [[_ ->]|[(Hs & _ & Es)|[[_ ->]|[[_ ->]|[[_ ->]|(_ & _ & _ & _ & Hr)]]]]].
  - eexists _, _, _. split; [reflexivity|]. split; [done|]. right. split; [done|by left].
  - exfalso. rewrite Es, Est in Est2. injection Est2 as <-. congruence.
  - eexists _, _, _. split; [reflexivity|]. split; [done|]. right. split; [done|right; by right].
  - eexists _, _, _. split; [reflexivity|]. split; [done|]. by left.
  - eexists _, _, _. split; [reflexivity|]. split; [done|]. right. split; [done|right; by right].
  - rewrite (Hr eq_refl). eexists _, _, _. split; [reflexivity|]. split; [done|]. right. split; [done|]. cbn. destruct (_ =? 0); tauto.
Qed.
End uncompress.

(** ** [compress2()] *)
Lemma header_zlib s : fresh s -> d_wrap s = 1 -> d_w_bits s = 15 -> header_for 1 15 (header s).
Proof.
  intros F Hw Hb. destruct (header_word s ltac:(lia)) as (c & Hc & E & H31 & Hl). destruct (fr_start _ F) as (S1 & _). rewrite S1, Hb in E. cbn [Z.eqb] in E. unfold header, header_for. rewrite Hw. cbn [Z.eqb Pos.eqb].
  eexists _, _. split; [reflexivity|]. set (w := zlib_header_word s) in *. clearbody w. unfold byte_ok. split; [dlia|]. split; [dlia|]. split; [rewrite <- H31; f_equal; dlia|]. split; [dlia|]. split; [dlia|]. dlia.
Qed.

Lemma encodes_zlib s data out : fresh s -> d_wrap s = 1 -> d_w_bits s = 15 -> encodes (header s) 1 data out -> stream_for 1 15 data out.
Proof.
  intros F Hw Hb (body & -> & Hr). exists (header s), body. split; [done|]. split; [by apply header_zlib|]. exact Hr.
Qed.

Lemma stream_bytes hdr wrap s data out : stream_ok hdr wrap s data out -> Forall byte_ok out.
Proof.
  intros [_ _ _ _ _ _ _ _ ->|base cut syms b R _|b En _|b Cl]; [apply List.Forall_nil|apply (ru_sent _ _ _ _ _ _ _ _ R)|apply (ed_sent _ _ _ _ _ En)|apply (cl_sent _ _ _ _ _ _ Cl)].
Qed.

(** The output array is made of bytes again. *)
Lemma moved_bytes z z' : 0 <= z_next_out z -> moved_out z z' -> Forall byte_ok (out_buf z) -> Forall byte_ok (delivered z z') -> Forall byte_ok (out_buf z').
Proof.
  intros Hn [E1 E2 _ El Hfr] Hb Hd. apply Forall_lookup_2. intros i x Hi. assert (Hx : aget (out_buf z') (Z.of_nat i) = Some x) by (by rewrite aget_nat).
  destruct (decide (Z.of_nat i < z_next_out z \/ z_next_out z' <= Z.of_nat i)) as [Hk|Hk].
  - rewrite Hfr, aget_nat in Hx by done. by apply (Forall_lookup_1 _ _ _ _ Hb Hx).
  - refine (Forall_lookup_1 _ _ (i - Z.to_nat (z_next_out z)) x Hd _). unfold delivered, bytes_at. rewrite lookup_take_lt, lookup_drop by lia. by replace (Z.to_nat (z_next_out z) + (i - Z.to_nat (z_next_out z)))%nat with i by lia.
Qed.

(** What one call with [Z_FINISH] leaves in the output, for a new zlib stream. *)
Lemma finish_output s inp s' ret dest :
  fresh s -> d_wrap s = 1 -> d_w_bits s = 15 -> z_out (d_strm s) = Some dest -> z_next_out (d_strm s) = 0 -> 0 <= z_avail_out (d_strm s) < 2 ^ 32 -> Forall byte_ok dest ->
  called (header s) (d_wrap s) s [] [] (d_strm s) inp Z_FINISH s' ret ->
  exists d', z_out (d_strm s') = Some d' /\ length d' = length dest /\ Forall byte_ok d' /\
    (ret = Z_STREAM_END /\ d_status s' = FINISH_STATE /\ 0 <= u32 (z_total_out (d_strm s')) <= z_avail_out (d_strm s) /\ stream_for 1 15 inp (bytes_at d' 0 (u32 (z_total_out (d_strm s')))) \/ ret = Z_OK).
Proof.
  intros F Hw Hwb F4 F5 Hd Hdb C. assert (Mo := ca_output _ _ _ _ _ _ _ _ _ _ C). destruct (ca_null _ _ _ _ _ _ _ _ _ _ C) as [d' Ed']. assert (Hby := stream_bytes _ _ _ _ _ (ca_stream _ _ _ _ _ _ _ _ _ _ C)). change ([] ++ delivered (d_strm s) (d_strm s')) with (delivered (d_strm s) (d_strm s')) in Hby.
  assert (Ho' : out_buf (d_strm s') = d') by (unfold out_buf; by rewrite Ed'). assert (Ho : out_buf (d_strm s) = dest) by (unfold out_buf; by rewrite F4).
  assert (Hn : Z.of_nat (length (delivered (d_strm s) (d_strm s'))) <= z_avail_out (d_strm s)) by (assert (Hr := ca_room _ _ _ _ _ _ _ _ _ _ C); rewrite (mo_avail _ _ Mo) in Hr; lia).
  exists d'. split; [done|]. split; [rewrite <- Ho', <- Ho; apply Mo|]. split; [rewrite <- Ho'; apply (moved_bytes (d_strm s)); [lia|done|by rewrite Ho|done]|].
  destruct (fr_totals _ F) as (_ & Ht & _). rewrite (mo_total _ _ Mo), Ht, Z.add_0_l, u32_small by lia.
  destruct (ca_ret _ _ _ _ _ _ _ _ _ _ C) as [(-> & _ & _ & He)|[[-> _]|(_ & Hx & _)]]; [left|by right|done]. split; [done|]. split; [by apply (ca_status _ _ _ _ _ _ _ _ _ _ C)|]. split; [lia|].
  rewrite Hw in He. apply (encodes_zlib s _ _ F Hw Hwb) in He. cbn [app] in He.
  assert (Hdel : delivered (d_strm s) (d_strm s') = bytes_at d' 0 (Z.of_nat (length (delivered (d_strm s) (d_strm s'))))); [|by rewrite <- Hdel].
  assert (Hnx := mo_next _ _ Mo). rewrite F5, Z.add_0_l in Hnx. rewrite <- Hnx. unfold delivered. by rewrite Ho', F5, Z.sub_0_r.
Qed.

(** With room for all that the bits can be, such a call ends the stream. *)
Lemma finish_room s inp s' ret :
  fresh s -> called (header s) (d_wrap s) s [] [] (d_strm s) inp Z_FINISH s' ret ->
  144 + block_max (t_lit_bufsize (d_trees s)) * (z_avail_in (d_strm s) + 1) < 8 * z_avail_out (d_strm s) -> ret = Z_STREAM_END.
Proof.
  intros F C Hmax. destruct (Z.eq_dec ret Z_STREAM_END) as [|Hne]; [done|]. exfalso. assert (Hdel := called_full _ _ _ _ _ _ _ _ _ C Hne). assert (Hlt := ca_left _ _ _ _ _ _ _ _ _ _ C eq_refl). assert (Hi := ca_input _ _ _ _ _ _ _ _ _ _ C).
  assert (Hst := stream_left _ _ _ _ _ (z_avail_in (d_strm s')) (ca_stream _ _ _ _ _ _ _ _ _ _ C) ltac:(lia)). assert (Hle := fresh_left s (z_avail_in (d_strm s)) F (fresh_status s F) ltac:(lia)). lia.
Qed.

Section compress.
Context (zalloc : nat -> Z -> option (list Z)) (zalloc_state : nat -> option deflate_state).
Context (zalloc_length : forall n k l, zalloc n k = Some l -> Z.of_nat (length l) = k) (zalloc_state_ok : forall n s, zalloc_state n = Some s -> sizes_ok (d_trees s)).

(** The bits that [deflate()] writes for [n] bytes at most. *)
Definition bits_max (n : Z) : Z := 144 + block_max (2 ^ 14) * (n + 1).

Lemma level_params level : params_ok level Z_DEFLATED 15 8 0 = (-1 <=? level) && (level <=? 9).
Proof.
  unfold params_ok, level_of, Z_DEFAULT_COMPRESSION. destruct (Z.eqb_spec level (-1)) as [->|]; [done|]. cbn -[Z.leb].
  destruct (Z.leb_spec 0 level), (Z.leb_spec level 9), (Z.leb_spec (-1) level); (done || lia).
Qed.

Lemma compress2_stream strm dest destLen source sourceLen level :
  all_allocated zalloc zalloc_state (z_calls strm) (2 ^ 15) (2 ^ 15) (2 ^ 14) -> -1 <= level <= 9 -> level <> 0 -> arrays_for (Some dest) destLen (Some source) sourceLen -> 0 < destLen ->
  roomy (fun _ => True) (2 ^ 14) (bytes_at source 0 sourceLen) ->
  exists d' n ret, compress2 zalloc zalloc_state strm (Some dest) destLen (Some source) sourceLen level = Some (Some d', n, ret) /\ length d' = length dest /\ Forall byte_ok d' /\
    (ret = Z_OK /\ 0 <= n <= destLen /\ stream_for 1 15 (bytes_at source 0 sourceLen) (bytes_at d' 0 n) \/ ret = Z_BUF_ERROR /\ n = destLen) /\
    (bits_max sourceLen < 8 * destLen -> ret = Z_OK).
Proof.
  intros Ha Hlv Hl0 Hb Hd0 Hroom. assert (Hb' := Hb). destruct Hb' as ((Hd & Hsl) & (d0 & [= <-] & Hdl & Hdb) & (b0 & [= <-] & Hbl & Hbb)). set (inp := bytes_at source 0 sourceLen) in *.
  assert (Hp : params_ok level Z_DEFLATED 15 8 0 = true) by (rewrite level_params; lia).
  set (s0 := buffer_stream strm (Some dest) destLen (Some source) sourceLen).
  destruct (init_config zalloc zalloc_state (DStream s0 None) level 15 8 0 zalloc_length zalloc_state_ok Hp Ha) as (s & E & Cf & Eb). assert (Hlp := level_of_pos level 15 8 0 Hp Hl0).
  unfold compress2. fold s0. change (z_avail_out s0) with (u32 destLen). rewrite u32_small, Z.eqb_refl by lia. cbn [negb]. unfold deflateInit_. change DEF_MEM_LEVEL with 8. change Z_DEFAULT_STRATEGY with 0. rewrite E. cbn [mbind option_bind].
  change (negb (Z_OK =? Z_OK)) with false. cbv iota. clear E. destruct Cf as (F & Hg & Hw & Hlev & Hstr & Hlit & Hwb). change (window_params 15).1 with 1 in Hw. change (Z.max 9 (window_params 15).2) with 15 in Hwb. change (2 ^ (8 + 6)) with (2 ^ 14) in Hlit.
  destruct (bufs_ok strm _ _ _ _ _ Hb Eb) as [_ [= F1 F2 F3 F4 F5 F6]].
  assert (Hli : Z.of_nat (length inp) = sourceLen) by (unfold inp; rewrite length_bytes_at; lia).
  assert (Hbf : buffers (d_strm s) inp).
  { split.
    - lia.
    - intros i Hi. unfold in_buf. rewrite F1, F2. cbn [default]. unfold id, inp, bytes_at, aget. destruct (Z.leb_spec 0 (0 + i)), (Z.leb_spec 0 i); try lia. by rewrite lookup_take_lt, lookup_drop by lia.
    - by apply bytes_at_bytes.
    - unfold out_buf. rewrite F4, F5, F6. cbn [default]. unfold id. lia. }
  assert (Hmay : may_call s (d_strm s) inp Z_FINISH).
  { split; [done|done|rewrite F4; by eexists|left; rewrite F1; by eexists|lia|by split|]. rewrite (fr_status _ F), Hw. discriminate. }
  assert (Sok := fresh_stream s F Hg ltac:(by rewrite Hlev) ltac:(lia)).
  assert (Hfit : fits s ([] ++ inp)) by (unfold fits; rewrite Hstr, Hlit; exact Hroom).
  destruct (may_call_ok _ _ _ _ _ _ _ _ Sok Hmay Hfit) as (s' & ret & E' & C). unfold with_state. rewrite E'. cbn [mbind option_bind]. clear E'.
  destruct (finish_output s _ s' ret _ F Hw Hwb F4 F5 ltac:(lia) Hdb C) as (d' & Ed' & Hd'l & Hd'b & Hr). rewrite F6 in Hr.
  assert (Hend : z_out (x_strm (deflateEnd (with_state s')).1) = Some d') by (unfold deflateEnd, with_state; cbn [x_state x_strm]; destruct (existsb _ _); done).
  assert (Hfull : bits_max sourceLen < 8 * destLen -> ret = Z_STREAM_END).
  { intros Hmax. apply (finish_room s _ s' ret F C). rewrite F3, Hlit, F6. exact Hmax. }
  destruct Hr as [(-> & Hst & Hn & Hsf)| ->].
  - assert (He : (deflateEnd (with_state s')).2 = Z_OK) by (unfold deflateEnd, with_state; cbn [x_state]; by rewrite Hst).
    destruct (deflateEnd (with_state s')) as [x1 e1]. cbn [fst snd] in *. subst e1. change (negb (Z_STREAM_END =? Z_STREAM_END)) with false. cbv iota. rewrite Hend.
    exists d', (u32 (z_total_out (d_strm s'))), Z_OK. split; [done|]. split; [done|]. split; [done|]. split; [by left|done].
  - destruct (deflateEnd (with_state s')) as [x1 e1]. cbn [fst] in Hend. change (negb (Z_OK =? Z_STREAM_END)) with true. cbv iota. change (Z_OK =? Z_OK) with true. cbv iota. rewrite Hend.
    exists d', destLen, Z_BUF_ERROR. split; [done|]. split; [done|]. split; [done|]. split; [by right|]. intros Hx. by apply Hfull in Hx.
Qed.
End compress.

(** ** The properties *)

(** The hypotheses on an allocator: an array that it returns has the size asked for and holds bytes, a structure has arrays of the
    declared sizes. *)
Record allocator (zalloc : nat -> Z -> option (list Z)) (zalloc_dstate : nat -> option deflate_state) (zalloc_istate : nat -> option inflate_state) : Prop := {
  al_bytes : forall n k l, zalloc n k = Some l -> Z.of_nat (length l) = k /\ Forall byte_ok l;
  al_deflate : forall n s, zalloc_dstate n = Some s -> sizes_ok (d_trees s);
  al_inflate : forall n st, zalloc_istate n = Some st -> arrays_ok st }.

Lemma al_length zalloc zd zi : allocator zalloc zd zi -> forall n k l, zalloc n k = Some l -> Z.of_nat (length l) = k.
Proof. intros A n k l H. by apply (al_bytes _ _ _ A n k l). Qed.

(** The allocations of [deflateInit()] succeed. *)
Definition compress_memory (zalloc : nat -> Z -> option (list Z)) (zalloc_state : nat -> option deflate_state) (calls : nat) : bool :=
  alloc_ok zalloc zalloc_state calls (2 ^ 15) (2 ^ 15) (2 ^ 14).

(** The buffers of [compress2()] hold [2 ^ 14] symbols. Short data always has room; other data must not be writable with too many
    matches in one block. *)
Definition block_room (data : list Z) : Prop := Z.of_nat (length data) <= 11865 \/ roomy (fun _ => True) (2 ^ 14) data.
Lemma block_room_roomy data : block_room data -> roomy (fun _ => True) (2 ^ 14) data.
Proof. intros [H|H]; [|done]. apply roomy_short; [lia|]. unfold short, HEADER_MAX. lia. Qed.

Lemma compress_allocated zalloc zd zi calls : allocator zalloc zd zi -> compress_memory zalloc zd calls = true -> all_allocated zalloc zd calls (2 ^ 15) (2 ^ 15) (2 ^ 14).
Proof.
  intros A H. apply bool_decide_eq_true_1 in H as (A1 & [l A2] & A3 & A4 & A5). split; [done|]. split; [|done]. exists l. split; [done|]. by apply (al_bytes _ _ _ A _ _ _ A2).
Qed.

(** C1. [uncompress()] is the inverse of [compress2()]. For levels 1 to 9 and the default, when the allocations succeed, the output is
    not empty and the blocks of the source have room in the buffer that the output shares with the symbols ([block_room]:
    true of every source of at most 11865 bytes, and of longer ones with few enough matches), [compress2()] returns; when it
    returns [Z_OK] (and it does when the output has room for 144 bits and a pending buffer for each byte and for the last
    block), [uncompress()] of the [*destLen] bytes that it wrote, into any buffer with room for the data, returns [Z_OK], the
    length of the data and the data itself. *)
Theorem uncompress_compress2 (zalloc : nat -> Z -> option (list Z)) (zalloc_dstate : nat -> option deflate_state) (zalloc_istate : nat -> option inflate_state)
    (strm strm2 : z_stream) (dest source : list Z) (destLen sourceLen level : Z) :
  allocator zalloc zalloc_dstate zalloc_istate -> compress_memory zalloc zalloc_dstate (z_calls strm) = true -> is_Some (zalloc_istate (z_calls strm2)) ->
  arrays_for (Some dest) destLen (Some source) sourceLen -> 0 < destLen -> Z.of_nat (length dest) < 2 ^ 32 -> -1 <= level <= 9 -> level <> 0 ->
  block_room (bytes_at source 0 sourceLen) ->
  exists dest' n ret, compress2 zalloc zalloc_dstate strm (Some dest) destLen (Some source) sourceLen level = Some (Some dest', n, ret) /\
    (bits_max sourceLen < 8 * destLen -> ret = Z_OK) /\
    (ret = Z_OK -> forall buf bufLen, sourceLen <= bufLen < 2 ^ 32 -> bufLen <= Z.of_nat (length buf) -> Forall byte_ok buf ->
      exists buf', uncompress zalloc zalloc_istate strm2 (Some buf) bufLen (Some dest') n = Some (Some buf', sourceLen, Z_OK) /\
        length buf' = length buf /\ bytes_at buf' 0 sourceLen = bytes_at source 0 sourceLen).
Proof.
  intros A Hm Hi Hb Hd Hdl Hlv Hl0 Hr. destruct (compress2_stream zalloc zalloc_dstate (al_length _ _ _ A) (al_deflate _ _ _ A) strm dest destLen source sourceLen level (compress_allocated _ _ _ _ A Hm) Hlv Hl0 Hb Hd (block_room_roomy _ Hr)) as (d' & n & ret & E & Hl & Hdb & Hc & Hmax).
  exists d', n, ret. split; [done|]. split; [done|]. intros -> buf bufLen Hbl Hbs Hbb. destruct Hc as [(_ & Hn & Hs)|[? _]]; [|done].
  destruct Hb as ((H1 & H2) & (d0 & [= <-] & H3 & _) & (s0 & [= <-] & H4 & _)). assert (Hlen : Z.of_nat (length (bytes_at source 0 sourceLen)) = sourceLen) by (rewrite length_bytes_at; lia).
  destruct (uncompress_stream zalloc zalloc_istate (al_bytes _ _ _ A) (al_inflate _ _ _ A) strm2 buf bufLen d' n (bytes_at source 0 sourceLen) (bytes_at d' 0 n) []) as (b' & E' & Hb'); [done| |by rewrite app_nil_r|done|lia|].
  - split; [lia|]. split; [by exists buf|]. exists d'. split; [done|]. split; [lia|done].
  - rewrite Hlen in *. by exists b'.
Qed.

Lemma ex_allocator : allocator ex_zalloc ex_zalloc_dstate ex_zalloc_state.
Proof. split; [exact ex_zalloc_ok|exact ex_dstate_sizes|exact ex_zalloc_state_ok]. Qed.
Lemma ex_memory : compress_memory ex_zalloc ex_zalloc_dstate (z_calls ex_strm) = true.
Proof. apply bool_decide_eq_true_2. by repeat split; eexists. Qed.
Definition ex_zeros (n : Z) : list Z := replicate (Z.to_nat n) 0.
Lemma ex_zeros_bytes n : Forall byte_ok (ex_zeros n).
Proof. apply Forall_replicate. unfold byte_ok. lia. Qed.
Lemma ex_zeros_length n : 0 <= n -> Z.of_nat (length (ex_zeros n)) = n.
Proof. intros H. unfold ex_zeros. rewrite length_replicate. lia. Qed.
Lemma ex_arrays n : 0 < n < 2 ^ 32 -> arrays_for (Some (ex_zeros n)) n (Some ex_text) 8.
Proof.
  intros Hn. split; [split; lia|]. split; [exists (ex_zeros n); rewrite ex_zeros_length by lia; split; [done|]; split; [lia|apply ex_zeros_bytes]|].
  exists ex_text. split; [done|]. split; [cbn; lia|apply ex_text_ok].
Qed.
Lemma ex_text_roomy : block_room (bytes_at ex_text 0 8).
Proof. left. vm_compute. discriminate. Qed.

Lemma uncompress_compress2_witness :
  exists dest n buf, compress2 ex_zalloc ex_zalloc_dstate ex_strm (Some (ex_zeros 600000)) 600000 (Some ex_text) 8 6 = Some (Some dest, n, Z_OK) /\
    uncompress ex_zalloc ex_zalloc_state ex_strm (Some (ex_zeros 10)) 10 (Some dest) n = Some (Some buf, 8, Z_OK) /\ bytes_at buf 0 8 = ex_text.
Proof.
  destruct (uncompress_compress2 ex_zalloc ex_zalloc_dstate ex_zalloc_state ex_strm ex_strm (ex_zeros 600000) ex_text 600000 8 6 ex_allocator ex_memory) as (dest & n & ret & E & Hm & H);
    [by eexists|apply ex_arrays; lia|lia|rewrite ex_zeros_length; lia|lia|lia|exact ex_text_roomy|].
  assert (Hr : ret = Z_OK) by (apply Hm; reflexivity). rewrite Hr in E. destruct (H Hr (ex_zeros 10) 10) as (buf & E' & _ & Hd); [lia|rewrite ex_zeros_length; lia|apply ex_zeros_bytes|].
  exists dest, n, buf. split; [exact E|]. split; [exact E'|exact Hd].
Defined.

(** C10. [compress2()], with a level of 1 to 9 or the default, when the allocations succeed, the output is not empty and the blocks of
    the source have room in the buffer that the output shares with the symbols ([block_room]: true of every source of at most
    11865 bytes), returns without an access out of range. It writes inside of the output array only, and either returns [Z_OK]
    and, in the first [*destLen] bytes of the output, a zlib stream that stands for exactly the source, or it returns
    [Z_BUF_ERROR] and leaves [*destLen]. It returns [Z_OK] when the output has room for 144 bits and a pending buffer for each
    byte and for the last block. *)
Theorem compress2_correct (zalloc : nat -> Z -> option (list Z)) (zalloc_dstate : nat -> option deflate_state) (zalloc_istate : nat -> option inflate_state)
    (strm : z_stream) (dest source : list Z) (destLen sourceLen level : Z) :
  allocator zalloc zalloc_dstate zalloc_istate -> compress_memory zalloc zalloc_dstate (z_calls strm) = true ->
  arrays_for (Some dest) destLen (Some source) sourceLen -> 0 < destLen -> -1 <= level <= 9 -> level <> 0 -> block_room (bytes_at source 0 sourceLen) ->
  exists dest' n ret, compress2 zalloc zalloc_dstate strm (Some dest) destLen (Some source) sourceLen level = Some (Some dest', n, ret) /\
    length dest' = length dest /\ Forall byte_ok dest' /\
    (ret = Z_OK /\ 0 <= n <= destLen /\ stream_for 1 15 (bytes_at source 0 sourceLen) (bytes_at dest' 0 n) \/ ret = Z_BUF_ERROR /\ n = destLen) /\
    (bits_max sourceLen < 8 * destLen -> ret = Z_OK).
Proof.
  intros A Hm Hb Hd Hlv Hl0 Hr. exact (compress2_stream zalloc zalloc_dstate (al_length _ _ _ A) (al_deflate _ _ _ A) strm dest destLen source sourceLen level (compress_allocated _ _ _ _ A Hm) Hlv Hl0 Hb Hd (block_room_roomy _ Hr)).
Qed.

Lemma compress2_correct_witness :
  exists dest n, compress2 ex_zalloc ex_zalloc_dstate ex_strm (Some (ex_zeros 600000)) 600000 (Some ex_text) 8 6 = Some (Some dest, n, Z_OK) /\ stream_for 1 15 ex_text (bytes_at dest 0 n).
Proof.
  destruct (compress2_correct ex_zalloc ex_zalloc_dstate ex_zalloc_state ex_strm (ex_zeros 600000) ex_text 600000 8 6 ex_allocator ex_memory) as (dest & n & ret & E & _ & _ & H & Hm);
    [apply ex_arrays; lia|lia|lia|lia|exact ex_text_roomy|].
  assert (Hr : ret = Z_OK) by (apply Hm; reflexivity). rewrite Hr in E. exists dest, n. split; [exact E|]. destruct H as [(_ & _ & H)|[Hx _]]; [exact H|rewrite Hr in Hx; discriminate].
Defined.

(** The error that [compress2()] returns before anything is compressed. *)
Definition compress2_error (zalloc : nat -> Z -> option (list Z)) (zalloc_state : nat -> option deflate_state) (calls : nat) (destLen level : Z) : option Z :=
  if negb ((-1 <=? level) && (level <=? 9)) then Some Z_STREAM_ERROR
  else if negb (compress_memory zalloc zalloc_state calls) then Some Z_MEM_ERROR
  else if destLen =? 0 then Some Z_BUF_ERROR else None.

(** C34. [compress2()] refuses a level out of range with [Z_STREAM_ERROR], else it returns [Z_MEM_ERROR] exactly when an allocation
    fails, else [Z_BUF_ERROR] for an output of no bytes; then the output and its length stay as they were. *)
Theorem compress2_refuses (zalloc : nat -> Z -> option (list Z)) (zalloc_dstate : nat -> option deflate_state) (zalloc_istate : nat -> option inflate_state)
    (strm : z_stream) (dest source : list Z) (destLen sourceLen level err : Z) :
  allocator zalloc zalloc_dstate zalloc_istate -> 0 <= destLen < 2 ^ 32 -> compress2_error zalloc zalloc_dstate (z_calls strm) destLen level = Some err ->
  compress2 zalloc zalloc_dstate strm (Some dest) destLen (Some source) sourceLen level = Some (Some dest, destLen, err).
Proof.
  intros A Hd He. unfold compress2. set (s0 := buffer_stream strm (Some dest) destLen (Some source) sourceLen). change (z_avail_out s0) with (u32 destLen). rewrite u32_small, Z.eqb_refl by lia. cbn [negb].
  unfold deflateInit_. change DEF_MEM_LEVEL with 8. change Z_DEFAULT_STRATEGY with 0. unfold compress2_error in He. rewrite <- level_params in He. destruct (params_ok level Z_DEFLATED 15 8 0) eqn:Hp; cbn [negb] in He.
  2:{ injection He as <-. destruct (init_refused zalloc zalloc_dstate (DStream s0 None) level 15 8 0 Z_DEFLATED Hp) as (x & E & _). by rewrite E. }
  destruct (compress_memory zalloc zalloc_dstate (z_calls strm)) eqn:Hm; cbn [negb] in He.
  2:{ injection He as <-. destruct (init_no_memory zalloc zalloc_dstate (DStream s0 None) level 15 8 0 Z_DEFLATED Hp Hm) as (x & E & _). by rewrite E. }
  destruct (Z.eqb_spec destLen 0) as [->|]; [|done]. injection He as <-.
  destruct (init_config zalloc zalloc_dstate (DStream s0 None) level 15 8 0 (al_length _ _ _ A) (al_deflate _ _ _ A) Hp (compress_allocated _ _ _ _ A Hm)) as (s & E & (F & _ & Hw & _) & Eb). rewrite E. cbn [mbind option_bind].
  change (negb (Z_OK =? Z_OK)) with false. cbv iota. injection Eb as E1 E2 E3 E4 E5 E6.
  assert (Hc : call_error (with_state s) Z_FINISH = Some Z_BUF_ERROR).
  { unfold call_error, with_state. cbn [x_state x_strm]. rewrite E1, E4, E6, (fr_status _ F), Hw. reflexivity. }
  destruct (deflate_refused _ _ _ Hc) as (x' & Ex & Es & Ebx & _). rewrite Ex. cbn [mbind option_bind]. change (negb (Z_BUF_ERROR =? Z_STREAM_END)) with true. cbv iota.
  assert (Ho : z_out (x_strm (deflateEnd x').1) = Some dest).
  { unfold deflateEnd. rewrite Es. cbn [with_state x_state]. injection Ebx as _ _ _ Eo _ _. destruct (existsb _ _); cbn [fst x_strm]; rewrite Eo; exact E4. }
  destruct (deflateEnd x') as [x1 e1]. cbn [fst] in Ho. by rewrite Ho.
Qed.

Lemma compress2_refuses_witness :
  compress2 ex_zalloc ex_zalloc_dstate ex_strm (Some [1]) 0 (Some ex_text) 8 6 = Some (Some [1], 0, Z_BUF_ERROR) /\
  compress2 ex_zalloc ex_zalloc_dstate ex_strm (Some [1]) 1 (Some ex_text) 8 10 = Some (Some [1], 1, Z_STREAM_ERROR).
Proof.
  split; apply (compress2_refuses ex_zalloc ex_zalloc_dstate ex_zalloc_state ex_strm [1] ex_text _ _ _ _ ex_allocator); [lia| |lia|reflexivity].
  unfold compress2_error. rewrite ex_memory. reflexivity.
Defined.

(** C11. [uncompress()] of a source that starts with a valid zlib stream for [data], made of any sequence of stored, fixed and
    dynamic blocks and followed by anything, into an output with room for the data, returns [Z_OK] and the length of the data, and
    the output starts with the data. *)
Theorem uncompress_correct (zalloc : nat -> Z -> option (list Z)) (zalloc_dstate : nat -> option deflate_state) (zalloc_istate : nat -> option inflate_state)
    (strm : z_stream) (dest source : list Z) (destLen sourceLen : Z) (data out after : list Z) :
  allocator zalloc zalloc_dstate zalloc_istate -> is_Some (zalloc_istate (z_calls strm)) -> arrays_for (Some dest) destLen (Some source) sourceLen ->
  bytes_at source 0 sourceLen = out ++ after -> stream_for 1 15 data out -> Z.of_nat (length data) <= destLen ->
  exists dest', uncompress zalloc zalloc_istate strm (Some dest) destLen (Some source) sourceLen = Some (Some dest', Z.of_nat (length data), Z_OK) /\
    length dest' = length dest /\ bytes_at dest' 0 (Z.of_nat (length data)) = data.
Proof. intros A. exact (uncompress_stream zalloc zalloc_istate (al_bytes _ _ _ A) (al_inflate _ _ _ A) strm dest destLen source sourceLen data out after). Qed.

Lemma uncompress_correct_witness :
  exists dest, uncompress ex_zalloc ex_zalloc_state ex_strm (Some (ex_zeros 6)) 6 (Some ex_stored) 15 = Some (Some dest, 4, Z_OK) /\ bytes_at dest 0 4 = ex_plain.
Proof.
  destruct (uncompress_correct ex_zalloc ex_zalloc_dstate ex_zalloc_state ex_strm (ex_zeros 6) ex_stored 6 15 ex_plain ex_stored [] ex_allocator) as (dest & E & _ & H); [by eexists| |reflexivity|exact ex_stored_for|cbn; lia|exists dest; split; [exact E|exact H]].
  split; [lia|]. split; [exists (ex_zeros 6)|exists ex_stored]; (split; [reflexivity|]; split; [vm_compute; repeat split; discriminate|by apply ex_byte]).
Defined.

(** C12. [uncompress()] of any bytes whatsoever returns, without an access out of range. It writes inside of the output array only,
    and returns [Z_OK], or leaves [*destLen] and returns [Z_MEM_ERROR], [Z_BUF_ERROR] or [Z_DATA_ERROR]; no other value of
    [inflate()] comes out. *)
Theorem uncompress_safe (zalloc : nat -> Z -> option (list Z)) (zalloc_dstate : nat -> option deflate_state) (zalloc_istate : nat -> option inflate_state)
    (strm : z_stream) (dest source : list Z) (destLen sourceLen : Z) :
  allocator zalloc zalloc_dstate zalloc_istate -> arrays_for (Some dest) destLen (Some source) sourceLen ->
  exists dest' n ret, uncompress zalloc zalloc_istate strm (Some dest) destLen (Some source) sourceLen = Some (Some dest', n, ret) /\ length dest' = length dest /\
    (ret = Z_OK \/ n = destLen /\ (ret = Z_MEM_ERROR \/ ret = Z_BUF_ERROR \/ ret = Z_DATA_ERROR)).
Proof. intros A. exact (uncompress_returns zalloc zalloc_istate (al_bytes _ _ _ A) (al_inflate _ _ _ A) strm dest destLen source sourceLen). Qed.

Lemma uncompress_safe_witness :
  exists dest n ret, uncompress ex_zalloc ex_zalloc_state ex_strm (Some (ex_zeros 6)) 6 (Some ex_text) 8 = Some (dest, n, ret) /\ ret = Z_DATA_ERROR.
Proof.
  destruct (uncompress_safe ex_zalloc ex_zalloc_dstate ex_zalloc_state ex_strm (ex_zeros 6) ex_text 6 8 ex_allocator (ex_arrays 6 ltac:(lia))) as (dest & n & ret & E & _).
  exists (Some dest), n, ret. split; [exact E|]. vm_compute in E. injection E as _ _ <-. reflexivity.
Defined.
