(* ===== verification/Findings.v ===== *)
(** Behaviours of [src/zlib] that its comments and its documentation do not allow: two properties that say when they occur, and
    examples, each the evaluation of the model on one input. *)
From S2P Require Import Prelude Record InfTrees Crc32 Adler32 InflateState InflateMonad InfFast Inflate.
From S2P Require Import Bits InflateInv InflateReach InflateSafe1 InflateClaims TreesTables Trees BitWriter TreesEmit.
From S2P Require Import TreesFlush TreesClaims DeflateState Deflate DeflateOut DeflateApi DeflateClaims.

Definition with_in (strm : z_stream) (b : list Z) : z_stream :=
  strm <| z_in := Some b |> <| z_next_in := 0 |> <| z_avail_in := Z.of_nat (length b) |>.
Definition with_out (strm : z_stream) (b : list Z) : z_stream :=
  strm <| z_out := Some b |> <| z_next_out := 0 |> <| z_avail_out := Z.of_nat (length b) |>.
Definition new_stream (windowBits : Z) : z_stream := (inflateInit2_ ex_zalloc_state ex_strm windowBits true).1.

(** A stream in the middle of a byte, with one whole byte in [hold]. *)
Definition sync_strm : z_stream :=
  with_in (ex_strm <| z_state := Some (ex_state <| s_mode := TYPE |> <| s_wbits := 15 |> <| s_hold := 7 |> <| s_bits := 11 |>) |>) [0; 255; 255].

(** [inflateSync()] shifts the bits left in [hold] the wrong way (line 1393): with three leftover bits and the byte 0
    in [hold], the pattern 00 00 FF FF that continues in the input is not found. *)
Theorem sync_misses_pattern : exists s, inflateSync sync_strm = Some (s, Z_DATA_ERROR).
Proof. eexists. vm_compute. reflexivity. Qed.

(** C39. [case EXTRA] stores [copy] bytes of the extra field of a gzip header behind the [len] bytes that came before, into a buffer of
    [extra_max] bytes. Exactly as long as [len <= extra_max] that is safe: then [min copy (extra_max - len)] bytes are stored at
    [len] and the rest of the buffer stays. When more than [extra_max] bytes came before, which takes a field that arrives in
    more than one piece, the count [extra_max - len] wraps around to almost [2 ^ 32] (lines 740 to 743): the copy goes beyond
    the end of the buffer. *)
Theorem store_extra_bounds (c : ctx) (h : gz_header) (extra : list Z) (copy : Z) :
  s_head (c_st c) = Some h -> h_extra h = Some extra -> Z.of_nat (length extra) = h_extra_max h -> h_extra_max h < 2 ^ 31 -> h_extra_len h < 2 ^ 16 ->
  0 < copy <= s_length (c_st c) -> s_length (c_st c) <= h_extra_len h ->
  0 <= r_next (c_r c) -> r_next (c_r c) + copy <= Z.of_nat (length (in_buf (c_strm c))) < 2 ^ 31 ->
  let len := h_extra_len h - s_length (c_st c) in
  let n := if h_extra_max h <? u32 (len + copy) then u32 (h_extra_max h - len) else copy in
  (len <= h_extra_max h -> n = Z.min copy (h_extra_max h - len) /\
    store_extra copy c = Ok tt (c <| c_st ::= upd s_head (fun _ => Some (h <| h_extra :=
      Some (take (Z.to_nat len) extra ++ bytes_at (in_buf (c_strm c)) (r_next (c_r c)) n ++ drop (Z.to_nat (len + n)) extra) |>)) |>)) /\
  (h_extra_max h < len -> n = 2 ^ 32 - (len - h_extra_max h) /\ Z.of_nat (length extra) < len + n /\ store_extra copy c = Fault).
Proof.
  intros Hh He Hl Hm Hx Hc Hs Hn Hi len n.
  assert (Hrun : store_extra copy c = match memcpy extra len (in_buf (c_strm c)) (r_next (c_r c)) n with
    | Some e => Ok tt (c <| c_st ::= upd s_head (fun _ => Some (h <| h_extra := Some e |>)) |>) | None => Fault end).
  { unfold store_extra, mbind, M_bind, sget, rget, zget, gets, lift, sput, modify. rewrite Hh, He. rewrite (u32_small (h_extra_len h - _)) by lia. fold len. fold n. by destruct (memcpy _ _ _ _ _). }
  rewrite Hrun. clear Hrun. subst n. rewrite (u32_small (len + copy)) by lia. split; intros Hlen.
  - rewrite (u32_small (h_extra_max h - len)) by lia. assert (En : (if h_extra_max h <? len + copy then h_extra_max h - len else copy) = Z.min copy (h_extra_max h - len)) by (destruct (Z.ltb_spec (h_extra_max h) (len + copy)); lia).
    rewrite En. split; [done|]. unfold memcpy. rewrite slice_in by lia. cbn [mbind option_bind]. destruct (Z.leb_spec 0 len), (Z.leb_spec (len + Z.min copy (h_extra_max h - len)) (Z.of_nat (length extra))); (lia || done).
  - assert (Eu : u32 (h_extra_max h - len) = 2 ^ 32 - (len - h_extra_max h)) by (unfold u32; symmetry; apply (Zmod_unique _ _ (-1)); lia). destruct (Z.ltb_spec (h_extra_max h) (len + copy)); [|lia]. rewrite Eu.
    split; [done|]. split; [lia|]. unfold memcpy. destruct (slice _ _ _); [|done]. cbn [mbind option_bind]. destruct (Z.leb_spec (len + (2 ^ 32 - (len - h_extra_max h))) (Z.of_nat (length extra))); [lia|]. by rewrite andb_false_r.
Qed.

(** Two bytes of a field of four came before, and there is room for one. *)
Definition ex_extra : ctx :=
  Ctx (ex_strm <| z_in := Some [3; 4] |>) (ex_state <| s_length := 2 |> <| s_head := Some (GzHeader 0 0 0 0 (Some [1]) 4 1 None 0 None 0 0 0) |>) (Regs 0 0 0 2 0 0 0 0 0).
Lemma store_extra_bounds_witness : store_extra 2 ex_extra = Fault.
Proof.
  destruct (store_extra_bounds ex_extra (GzHeader 0 0 0 0 (Some [1]) 4 1 None 0 None 0 0 0) [1] 2 eq_refl eq_refl eq_refl) as [_ H]; [done..|by split|done|done|by split|].
  apply H. reflexivity.
Defined.

(** A gzip stream with a buffer of one byte for the extra field. *)
Definition extra_header : gz_header := GzHeader 0 0 0 0 (Some [0]) 0 1 None 0 None 0 0 0.
Definition extra_strm : z_stream := (inflateGetHeader (with_out (new_stream 31) [0; 0]) extra_header).1.
(** The return value of a first call, and whether the second one is undefined. *)
Definition then_undefined (first : option (z_stream * Z)) (second : z_stream -> option (z_stream * Z)) : option (Z * bool) :=
  '(s, ret) ← first; Some (ret, bool_decide (second s = None)).

(** [case EXTRA] copies [extra_max - len] bytes when the field does not fit, which wraps around when [len] is
    already beyond [extra_max] (lines 740 to 743): here a second call writes out of the caller's buffer. *)
Theorem extra_overflows :
  then_undefined (inflate ex_zalloc (with_in extra_strm [31; 139; 8; 4; 0; 0; 0; 0; 0; 3; 4; 0; 1; 2]) 0)
    (fun s => inflate ex_zalloc (with_in s [3; 4]) 0) = Some (Z_OK, true).
Proof. vm_compute. reflexivity. Qed.

(** With [windowBits] 32 the size of the window of a gzip stream stays unknown and a window of one byte is
    allocated; [inflateReset()] keeps it, and the window bits of a zlib stream that follows make it look larger
    (lines 363 to 376 and 663 to 676). *)
Theorem window_overflows :
  then_undefined
    (inflate ex_zalloc (with_in (with_out (new_stream 32) [0; 0; 0; 0]) [31; 139; 8; 0; 0; 0; 0; 0; 0; 3; 75; 4; 0]) 0)
    (fun s => inflate ex_zalloc (with_in (with_out (inflateReset s).1 [0; 0; 0; 0]) [120; 156; 75; 76; 4; 0]) 0) = Some (Z_OK, true).
Proof. vm_compute. reflexivity. Qed.

(** [total_in] is not updated when [inflate()] returns [Z_NEED_DICT] (line 839): six bytes were read and none is
    counted, then or later. *)
Theorem need_dict_not_counted :
  ('(s, ret) ← inflate ex_zalloc (with_in (with_out (new_stream 15) [0; 0]) [120; 187; 0; 0; 0; 1]) 0;
   Some (ret, z_avail_in s, z_total_in s)) = Some (Z_NEED_DICT, 0, 0).
Proof. vm_compute. reflexivity. Qed.

(** With [windowBits] 0 a zlib header may ask for a window larger than the format allows (lines 666 to 680): the
    header bytes F8 00 give 23 window bits. *)
Theorem window_bits_beyond_format :
  ('(s, ret) ← inflate ex_zalloc (with_in (with_out (new_stream 0) [0; 0]) [248; 0]) 0;
   st ← z_state s; Some (ret, s_wbits st)) = Some (Z_OK, 23).
Proof. vm_compute. reflexivity. Qed.

(** Two calls of [inflatePrime()] may put 32 bits in [hold] (line 244), but [inflate_fast()] returns all whole bytes
    of [hold] to the input (lines 309 to 314 of inffast.c): [next_in] ends before the input that the caller gave. *)
Theorem prime_moves_before_input :
  ('(s, _) ← inflatePrime (new_stream (-15)) 16 3;
   '(s, _) ← inflatePrime s 16 0;
   '(s, ret) ← inflate ex_zalloc (with_in (with_out s (replicate 258 0)) [0; 0; 0; 0; 0; 0; 0; 0]) 0;
   Some (ret, z_next_in s, z_avail_in s)) = Some (Z_STREAM_END, -2, 10).
Proof. vm_compute. reflexivity. Qed.

(** Arrays for memLevel 1 and the strategy [Z_FIXED], and a block of the longest matches: 31 bits for each of them. *)
Definition overlay_trees : trees_state :=
  TreesState (Writer (replicate 512 0) 0 0 0) 128 0 0 (replicate 573 ex_entry) (replicate 61 ex_entry) (replicate 39 ex_entry)
    0 0 0 (replicate 16 0) (replicate 573 0) 0 0 (replicate 573 0) 0 0 6 Z_FIXED 0.
Definition overlay_syms (n : nat) : list sym := replicate n (32768, 254).
(** Whether the output of a block of [n] matches is undefined. *)
Definition overlay_result (n : nat) : option bool :=
  s ← init_block overlay_trees; s ← tally_all s (overlay_syms n); Some (bool_decide (tr_flush_block s None 0 1 = None)).

(** The output buffer and the symbol buffers share their memory, "since the average output size for (length,distance)
    codes is <= 24 bits" (deflate.c, lines 229 to 230). With the fixed codes a match takes up to 31 bits: from the 71st
    match on, of the 127 that a block may have, the output overtakes the distances that [compress_block] has not read
    yet; it takes output bits for a distance and reads beyond the end of [_dist_code]. *)
Theorem overlay_corrupts : overlay_result 70 = Some false /\ overlay_result 71 = Some true.
Proof. split; vm_compute; reflexivity. Qed.

(** A new stream of the compressor, a call of [deflate()] with [Z_FINISH], the input [b] and room for [n] bytes, and what it returns and
    delivers. *)
Definition new_deflate (level windowBits memLevel strategy : Z) : option dstream :=
  '(x, ret) ← deflateInit2_ ex_zalloc ex_zalloc_dstate ex_new level Z_DEFLATED windowBits memLevel strategy true; if ret =? Z_OK then Some x else None.
Definition finish_with (x : dstream) (b : list Z) (n : nat) : option (dstream * Z) :=
  deflate (DStream (with_out (with_in (x_strm x) b) (replicate n 0)) (x_state x)) Z_FINISH.


(** Three of five bytes wait, and a sixth is put. *)
Definition ex_waiting : deflate_state :=
  ex_dstate <| d_pending_out := 2 |> <| d_trees := ex_dtrees <| t_w := Writer [10; 11; 12; 13; 14; 0; 0] 3 0 0 |> |>.

(** A gzip stream with memLevel 1, for which the pending buffer has 512 bytes, and an extra field of 600 bytes. *)
Definition long_extra : gz_header := GzHeader 0 0 0 0 (Some (replicate 600 7)) 600 0 None 0 None 0 0 0.
Definition header_stream : option dstream := x ← new_deflate 6 25 1 Z_DEFAULT_STRATEGY; Some (deflateSetHeader x (Some long_extra)).1.
Definition header_result (n : nat) : option (Z * Z * bool) :=
  x ← header_stream; '(x, ret) ← finish_with x [] n; s ← x_state x;
  Some (ret, d_pending_out s + d_pending s, bool_decide (finish_with x [] 1000 = None)).

(** When the pending buffer is full while a gzip header is written and the output takes only a part of it, [put_byte] goes on at
    [pending], which is the number of bytes that wait and not the end of them (deflate.c, lines 765 to 777): bytes that were
    not delivered are overwritten, and [pending_out + pending] is then beyond the end of the buffer, which the next call reads. *)
Theorem header_overwrites : header_result 10 = Some (Z_OK, 522, true) /\ header_result 700 = Some (Z_STREAM_END, 0, false).
Proof. split; vm_compute; reflexivity. Qed.

(** A run of [n] bytes at level 0 with the strategy [Z_RLE]. *)
Definition stored_run (n : nat) : option Z := x ← new_deflate 0 (-11) 1 Z_RLE; '(_, ret) ← finish_with x (replicate n 7) 2000; Some ret.

(** With level 0 every block is stored, but with [Z_RLE] the matches are collected all the same (deflate.c, lines 903 to 905), and the
    size of a block is not limited to that of the pending buffer as [deflate_stored()] does: 508 equal bytes make a stored
    block of 513 bytes, which [copy_block] writes beyond the buffer of 512. *)
Theorem stored_run_overflows : stored_run 507 = Some Z_STREAM_END /\ stored_run 508 = None.
Proof. split; vm_compute; reflexivity. Qed.

(** [k] times a [Z_PARTIAL_FLUSH] and a call with nothing to do, then [n] bytes with [Z_FINISH], at level 0 and memLevel 1. *)
Definition call_with (x : dstream) (flush : Z) : option dstream :=
  '(x, _) ← deflate (DStream (with_out (with_in (x_strm x) []) (replicate 100 0)) (x_state x)) flush; Some x.
Definition partial_then (k n : nat) : option Z :=
  x ← new_deflate 0 (-9) 1 Z_DEFAULT_STRATEGY;
  x ← Nat.iter k (fun o => x ← o; x ← call_with x Z_PARTIAL_FLUSH; call_with x Z_NO_FLUSH) (Some x);
  '(_, ret) ← finish_with x (replicate n 7) 2000; Some ret.

(** [deflate_stored()] leaves 5 bytes of the pending buffer for the header of a stored block (deflate.c, lines 1574 to 1576), which is enough
    when at most 5 bits wait: each [_tr_align()] of an empty partial flush adds 10 bits, so that after three of them 6 bits wait
    and the header takes 6 bytes. A block of 507 bytes is then written beyond the buffer of 512. *)
Theorem stored_partial_overflows : partial_then 2 507 = Some Z_STREAM_END /\ partial_then 3 506 = Some Z_STREAM_END /\ partial_then 3 507 = None.
Proof. split; [|split]; vm_compute; reflexivity. Qed.
